(* ===== verification/_CoqProject ===== *)
-Q . S2P
Prelude.v
Layout.v
KState.v
Spinlock.v
CString.v
Kalloc.v
Vm.v
PageTable.v
VmSpec.v
VmUser.v
VmCopy.v
Proc.v
Uart.v
Console.v
Sleeplock.v
Virtio.v
Bio.v
Log.v
Fs.v
Pipe.v
File.v
Trap.v
Exec.v
Sysfile.v
Syscall.v
Usertrap.v
SchedEq.v
Demo.v
FsView.v
Disk.v
Bcache.v
LogSpec.v
Txn.v
FsTx.v
FsSpec.v
FsFile.v
FsDisk.v
FsDir.v
FsWrite.v
FsDemo.v
Blockdev.v
Logfull.v
Mlfq.v
Sched.v
SchedInv.v
KernelFrame.v
ProcInv.v
Starvation.v
User.v
UPrintf.v
Grep.v
UCmds.v
Umalloc.v
Sh.v
ShGrammar.v
ShSpec.v
ShRun.v
