(* ===== verification/Prelude.v ===== *)
(** * xv6 with a multi-level feedback queue: verification library

    The program is the xv6-riscv system with a multi-level feedback queue
    (MLFQ) scheduler: a kernel and the programs that run on it.  The library
    models the C code of the kernel as functions on one state, the C code of
    the user programs as functions on their memory over an interface of system
    calls, and proves what the parts promise.

    ** The model

    [Prelude.v] has the monad: code is a function from a state to a result that
    returns a value ([Ret]), panics ([Panic], the C function [panic] and faults
    of the kernel), gives up the CPU for good ([Switch]) or loops for ever
    ([Spin]).  C integers are values of [Z]; an operation that can leave its
    type's range is followed by the reduction [u8] ... [u64], [i16], [i32].
    [Layout.v] has the constants of [kernel/param.h], [kernel/memlayout.h],
    [kernel/riscv.h], [kernel/fs.h] and the page arithmetic; the addresses the
    linker gives out are a parameter (class [Linker], with [LinkerOk] for what
    [kernel/kernel.ld] guarantees).  [KState.v] has the state [kernel]: a record
    with a field for every global object of the kernel (harts and locks,
    process table, physical memory, free list, page tables in memory, buffers,
    log, inode and file tables, pipes, console, devices), the disk image and the
    trace of blocks written to it.

    What is outside the kernel's C code is the class [World]: [w_run] is what
    the rest of the system does between a [swtch] away from a process and the
    one back to it, [w_uart], [w_plic], [w_virtio] are the answers of the
    devices, [w_pad] the values of padding bytes.  A loop that waits for the
    rest of the system is bounded by [w_fuel]; the theorems that say that such
    code returns ask for the fuel the loop needs (2 rounds for a disk request,
    one before and one after the sleep).  All other loops have a bound computed
    from their arguments that is never used up.

    ** Files of the model, with the sources they translate (under [src/kernel])

    - [Spinlock.v]: [spinlock.c], [push_off]/[pop_off], [myproc], the CSR access
      of [riscv.h]; [CString.v]: [string.c]; [Kalloc.v]: [kalloc.c];
      [Vm.v]: [vm.c]; [Proc.v]: [proc.c], [proc.h]; [Uart.v]: [uart.c],
      [printf.c], [procdump]; [Console.v]: [console.c]; [Sleeplock.v]:
      [sleeplock.c]; [Virtio.v]: [virtio_disk.c], [virtio.h]; [Bio.v]: [bio.c];
      [Log.v]: [log.c]; [Fs.v]: [fs.c], [fs.h]; [Pipe.v]: [pipe.c]; [File.v]:
      [file.c]; [Trap.v] and [Usertrap.v]: [trap.c], [plic.c], [main.c];
      [Exec.v]: [exec.c]; [Sysfile.v]: [sysfile.c]; [Syscall.v]: [syscall.c],
      [sysproc.c].

    A definition has the name of the C function it translates; a loop or a part
    of a function that needs a definition of its own has the function's name
    with a suffix.

    ** What the theorems show

    - Scheduler.  [SchedEq.v] computes what the operations on the process table
      do; [Mlfq.v]: which process is chosen, and the level of a process as a
      function of the ticks charged to it; [Sched.v]: the harts as a step
      relation (scheduler, timer interrupt, [sleep], [wakeup]), mutual exclusion
      when the timer interrupt is atomic, the interleaving in which it is
      violated, progress of the timer interrupt; [Starvation.v]: on runs of this
      relation, when a process is demoted, who starves, and how long a process
      of the highest level waits.
    - Process table.  [SchedInv.v] has two invariants of the table (levels and
      identifiers) and what code has to respect to keep them; [KernelFrame.v]
      shows that drivers, file system, pipes and [exec] do; [ProcInv.v] that
      every operation on the table does, [kfork], [kexit] and [userinit]
      included, every system call and both trap handlers, whichever way they
      end.  The calling process is live, and the code that runs during a sleep
      or a yield is assumed to keep the invariant too ([world_ok]).
    - Storage.  [FsView.v] is a judgement for code of a process that has the
      system for itself (no other process runs, is ready or sleeps: the storage
      and file theorems are about one process at a time); [Disk.v] proves the
      driver's request against the class [DiskWorld] (what a device that
      completes requests does, with an instance that runs the real interrupt
      handler and scheduler); [Bcache.v] the
      buffer cache with its linked list; [LogSpec.v] commit and recovery;
      [Txn.v] that transactions are atomic across crashes; [Blockdev.v] that
      cache and driver are an array of blocks; [Logfull.v] the panic when the
      log pins every buffer.
    - Files.  [FsTx.v] is a judgement for code of [fs.c] inside a transaction;
      [FsSpec.v] proves block allocation and the block map of an inode against
      a well-formedness of the disk (addresses are data blocks in use, each in
      one place); [FsFile.v] [readi] and [writei]; [FsDisk.v] what the disk then
      holds, and that a write to a file is atomic; [FsDir.v] directories as
      finite maps from names to inodes, with [dirlookup] the lookup and
      [dirlink] an atomic insertion; [FsWrite.v] [filewrite] from user memory
      through the locked inode, transaction by transaction, with the prefix of
      the data that survives a crash; [FsDemo.v] a small disk they apply to.
    - Memory.  [Kalloc.v]: the allocator is a stack of pages.  [PageTable.v] and
      [VmSpec.v]: page tables as trees of pages without sharing, and the
      effect of the functions of [vm.c] on their entries.  [VmUser.v]: growing,
      shrinking and forking of address spaces; [VmCopy.v]: copies between user
      and kernel memory, with pages allocated lazily on the way.
    - [Spinlock.v]: nesting of locks; [CString.v]: the string routines.

    ** User programs (sources under [src/user])

    [User.v] has the state [user] of a program (its memory, the state of the
    system behind its system calls, its exit status), the class [Sys] of system
    calls and [ulib.c]; [UPrintf.v] is [printf.c], [Umalloc.v] [umalloc.c],
    [Grep.v] [grep.c], [UCmds.v] the small commands and [init], [Sh.v] the
    shell.  Local and static arrays are at addresses given as parameters; a
    string literal is the list of its characters.  What the kernel promises to
    a program is a class: [Stream] (a file read to its end and an output),
    [Brk] (memory from [sbrk]), [Process] (descriptors and [exec]); each has an
    instance in the witnesses.

    - [UPrintf.v]: the digits printed, their bound, what [atoi] reads of a
      printed [int].
    - [Umalloc.v]: the circular free list; [malloc] and [free] terminate, live
      blocks are disjoint and keep their contents, for sizes below 2^31 - 32;
      the overflow of the size near 2^32.
    - [Grep.v]: the matcher decides the language of a pattern, and which lines
      are printed; [UCmds.v]: [cat], [wc], [echo] and [ls].
    - [ShGrammar.v]: tokens, a grammar of command lines and its decision
      procedure; [ShSpec.v]: the parser in memory decides that grammar and reads
      back printed commands, as far as the kernel grants it memory; [ShRun.v]: what a forked shell executes, and with
      which open files.

    Loops over a string, a list in memory or an input have a fuel argument; the
    theorems say that the length of the data is enough and that the code then
    returns.

    ** Not modelled

    The assembly files ([entry.S], [kernelvec.S], [swtch.S], [trampoline.S]) and
    [start.c], which only set machine registers and jump; weak memory (the
    fences are no-ops: steps of harts interleave, as on a sequentially
    consistent machine); accesses outside an array, which C leaves undefined (where
    the data of a disk could cause one, as the count in a log header, the run
    stops); the test programs of [src/user]. *)
From Stdlib Require Import ZArith Lia.
From stdpp Require Export base numbers strings gmap list.
From stdpp Require Import options.

Global Open Scope Z_scope.

#[global] Arguments Z.land : simpl never.
#[global] Arguments Z.lor : simpl never.
#[global] Arguments Z.lnot : simpl never.
#[global] Arguments Z.shiftl : simpl never.
#[global] Arguments Z.shiftr : simpl never.
#[global] Arguments Z.testbit : simpl never.
#[global] Arguments Z.pow : simpl never.
#[global] Arguments Z.modulo : simpl never.
#[global] Arguments Z.div : simpl never.
#[global] Arguments Z.add : simpl never.
#[global] Arguments Z.sub : simpl never.
#[global] Arguments Z.mul : simpl never.
#[global] Arguments Z.eqb !x !y : simpl nomatch.
#[global] Arguments Z.ltb !x !y : simpl nomatch.
#[global] Arguments Z.leb !x !y : simpl nomatch.
#[global] Arguments Z.of_nat : simpl never.
#[global] Arguments Z.to_nat : simpl never.

(** ** Machine integers

    C integers are values of [Z]; an operation that can leave its type's range
    is followed by the reduction of that type. *)
Definition u8 (x : Z) : Z := x mod 2 ^ 8.
Definition u16 (x : Z) : Z := x mod 2 ^ 16.
Definition u32 (x : Z) : Z := x mod 2 ^ 32.
Definition u64 (x : Z) : Z := x mod 2 ^ 64.
(** Two's complement: the value of the low 32 bits of [x] read as an [int]. *)
Definition i32 (x : Z) : Z := (x + 2 ^ 31) mod 2 ^ 32 - 2 ^ 31.
Definition i16 (x : Z) : Z := (x + 2 ^ 15) mod 2 ^ 16 - 2 ^ 15.
Definition i8 (x : Z) : Z := (x + 2 ^ 7) mod 2 ^ 8 - 2 ^ 7.

Lemma i32_small x : - 2 ^ 31 <= x < 2 ^ 31 -> i32 x = x.
Proof. intros. unfold i32. rewrite Z.mod_small; lia. Qed.
Lemma i32_range x : - 2 ^ 31 <= i32 x < 2 ^ 31.
Proof. unfold i32. pose proof (Z.mod_pos_bound (x + 2 ^ 31) (2 ^ 32)). lia. Qed.
Lemma u32_small x : 0 <= x < 2 ^ 32 -> u32 x = x.
Proof. apply Z.mod_small. Qed.
Lemma u32_range x : 0 <= u32 x < 2 ^ 32.
Proof. by apply Z.mod_pos_bound. Qed.
Lemma u64_small x : 0 <= x < 2 ^ 64 -> u64 x = x.
Proof. apply Z.mod_small. Qed.
Lemma u64_range x : 0 <= u64 x < 2 ^ 64.
Proof. by apply Z.mod_pos_bound. Qed.

(** [lia] after replacing quotients and remainders by their equations. *)
Ltac zlia := Z.to_euclidean_division_equations; lia.

(** ** The kernel monad

    A kernel function is a state transformer.  It returns a value, or panics,
    or gives the CPU away inside [swtch] (the caller's continuation then runs
    when the process is next dispatched), or waits for a spinlock another CPU
    holds.  [S] is the state the function works on. *)
Inductive res (S A : Type) : Type :=
| Ret (a : A) (s : S)
| Panic (msg : string) (s : S)
| Switch (s : S)
| Spin (s : S).
Arguments Ret {S A} a s.
Arguments Panic {S A} msg s.
Arguments Switch {S A} s.
Arguments Spin {S A} s.

Definition ST (S A : Type) : Type := S -> res S A.

#[global] Instance ST_ret {S} : MRet (ST S) := λ A a s, Ret a s.
#[global] Instance ST_bind {S} : MBind (ST S) := λ A B f m s,
  match m s with
  | Ret a s' => f a s'
  | Panic msg s' => Panic msg s'
  | Switch s' => Switch s'
  | Spin s' => Spin s'
  end.

Definition gets {S A} (f : S -> A) : ST S A := λ s, Ret (f s) s.
Definition modify {S} (f : S -> S) : ST S () := λ s, Ret () (f s).
Definition panic {S A} (msg : string) : ST S A := λ s, Panic msg s.
Definition switch {S A} : ST S A := λ s, Switch s.
Definition spin {S A} : ST S A := λ s, Spin s.

(** [when b m] is C's [if(b) m;]. *)
Definition when {S} (b : bool) (m : ST S ()) : ST S () :=
  if b then m else mret ().

(** [for_each l body] runs [body] on the elements of [l] in order. *)
Fixpoint for_each {S I} (l : list I) (body : I -> ST S ()) : ST S () :=
  match l with
  | [] => mret ()
  | i :: l' => body i ;; for_each l' body
  end.

(** [for_first l body] is a loop that leaves at the first iteration whose body
    yields [Some]; [None] is the exit through the loop condition. *)
Fixpoint for_first {S I A} (l : list I) (body : I -> ST S (option A))
  : ST S (option A) :=
  match l with
  | [] => mret None
  | i :: l' =>
      r ← body i;
      match r with
      | Some a => mret (Some a)
      | None => for_first l' body
      end
  end.

(** A loop whose condition is not a bound on its rounds: [body] yields [Some]
    to leave it; [loop_on] also carries the values of local variables.  More
    than [fuel] rounds end in [Spin]. *)
Fixpoint loop {S A} (fuel : nat) (body : ST S (option A)) : ST S A :=
  match fuel with
  | O => spin
  | Datatypes.S fuel' =>
      r ← body;
      match r with
      | Some a => mret a
      | None => loop fuel' body
      end
  end.
Fixpoint loop_on {S X A} (fuel : nat) (body : X -> ST S (X + A)) (x : X) : ST S A :=
  match fuel with
  | O => spin
  | Datatypes.S fuel' =>
      r ← body x;
      match r with
      | inr a => mret a
      | inl x' => loop_on fuel' body x'
      end
  end.

(** The final state of a run, whatever its outcome. *)
Definition final {S A} (r : res S A) : S :=
  match r with
  | Ret _ s | Panic _ s | Switch s | Spin s => s
  end.

Definition res_map {S A} (f : S -> S) (r : res S A) : res S A :=
  match r with
  | Ret a s => Ret a (f s)
  | Panic msg s => Panic msg (f s)
  | Switch s => Switch (f s)
  | Spin s => Spin (f s)
  end.

Section monad.
Context {S : Type}.
Implicit Types s : S.

Lemma bind_Ret {A B} (m : ST S A) (f : A -> ST S B) s a s' :
  m s = Ret a s' -> (m ≫= f) s = f a s'.
Proof. unfold mbind, ST_bind. by intros ->. Qed.

Lemma bind_Panic {A B} (m : ST S A) (f : A -> ST S B) s msg s' :
  m s = Panic msg s' -> (m ≫= f) s = Panic msg s'.
Proof. unfold mbind, ST_bind. by intros ->. Qed.

Lemma bind_ret {A B} (a : A) (f : A -> ST S B) s :
  ((mret a : ST S A) ≫= f) s = f a s.
Proof. done. Qed.

Lemma bind_gets {A B} (g : S -> A) (f : A -> ST S B) s :
  (gets g ≫= f) s = f (g s) s.
Proof. done. Qed.

Lemma bind_gets_as {A B} (g : S -> A) (f : A -> ST S B) s x :
  g s = x -> (gets g ≫= f) s = f x s.
Proof. by intros <-. Qed.

Lemma bind_modify {B} (g : S -> S) (f : () -> ST S B) s :
  (modify g ≫= f) s = f () (g s).
Proof. done. Qed.

Lemma bind_bind {A B C} (m : ST S A) (f : A -> ST S B) (g : B -> ST S C) s :
  ((m ≫= f) ≫= g) s = (m ≫= λ a, f a ≫= g) s.
Proof. unfold mbind, ST_bind. by destruct (m s). Qed.

Lemma bind_eq {A B} (m m' : ST S A) (f : A -> ST S B) s s' :
  m s = m' s' -> (m ≫= f) s = (m' ≫= f) s'.
Proof. unfold mbind, ST_bind. by intros ->. Qed.

Lemma bind_Ret_inv {A B} (m : ST S A) (f : A -> ST S B) s b s' :
  (m ≫= f) s = Ret b s' -> ∃ a s1, m s = Ret a s1 ∧ f a s1 = Ret b s'.
Proof. unfold mbind, ST_bind. destruct (m s); naive_solver. Qed.

Lemma bind_ext {A B} (m : ST S A) (f g : A -> ST S B) s :
  (∀ a s', m s = Ret a s' -> f a s' = g a s') -> (m ≫= f) s = (m ≫= g) s.
Proof. unfold mbind, ST_bind. destruct (m s); naive_solver. Qed.

Lemma for_each_app {I} (l1 l2 : list I) (body : I -> ST S ()) s :
  for_each (l1 ++ l2) body s = (for_each l1 body ;; for_each l2 body) s.
Proof.
  revert s. induction l1 as [|i l1 IH]; intros s; [done|].
  cbn. rewrite bind_bind. apply bind_ext. intros [] s' _. apply IH.
Qed.

(** A loop whose every iteration returns, folded over the state. *)
Lemma for_each_fold {I} (step : I -> S -> S) (Inv : S -> Prop) l
    (body : I -> ST S ()) s :
  Inv s ->
  (∀ i s, i ∈ l -> Inv s -> body i s = Ret () (step i s) ∧ Inv (step i s)) ->
  for_each l body s = Ret () (foldl (λ s i, step i s) s l).
Proof.
  revert s. induction l as [|i l IH]; intros s Hs Hstep; [done|].
  destruct (Hstep i s) as [Hi Hi']; [by left|done|]. cbn.
  rewrite (bind_Ret _ _ _ _ _ Hi). apply IH; [done|].
  intros j s' Hj. apply Hstep. by right.
Qed.
End monad.

(** ** Invariants of effectful code

    [wp I m Q s]: run from [s], [m] returns in a state satisfying [Q], or stops
    in one satisfying [I].  [keeps I m]: [m] preserves [I], however it ends. *)
Section keeps.
Context {S : Type} (I : S -> Prop).

Definition wp {A} (m : ST S A) (Q : A -> S -> Prop) (s : S) : Prop :=
  match m s with
  | Ret a s' => Q a s'
  | Panic _ s' | Switch s' | Spin s' => I s'
  end.
Definition keeps {A} (m : ST S A) : Prop := ∀ s, I s -> wp m (λ _, I) s.

Lemma wp_bind {A B} (m : ST S A) (f : A -> ST S B) Q s :
  wp m (λ a, wp (f a) Q) s -> wp (m ≫= f) Q s.
Proof. unfold wp, mbind, ST_bind. by destruct (m s). Qed.

Lemma wp_mono {A} (m : ST S A) (Q Q' : A -> S -> Prop) s :
  (∀ a s', Q a s' -> Q' a s') -> wp m Q s -> wp m Q' s.
Proof. unfold wp. destruct (m s); naive_solver. Qed.

Lemma keeps_wp {A} (m : ST S A) s : keeps m -> I s -> wp m (λ _, I) s.
Proof. auto. Qed.

Lemma keeps_final {A} (m : ST S A) s : keeps m -> I s -> I (final (m s)).
Proof. intros Hm Hs. specialize (Hm s Hs). unfold wp in Hm. by destruct (m s). Qed.

Lemma keeps_ret {A} (a : A) : keeps (mret a).
Proof. intros s Hs. exact Hs. Qed.
Lemma keeps_gets {A} (f : S -> A) : keeps (gets f).
Proof. intros s Hs. exact Hs. Qed.
Lemma keeps_modify (f : S -> S) : (∀ s, I s -> I (f s)) -> keeps (modify f).
Proof. intros Hf s. apply Hf. Qed.
Lemma keeps_panic {A} msg : keeps (panic (A:=A) msg).
Proof. intros s Hs. exact Hs. Qed.
Lemma keeps_switch {A} : keeps (switch (A:=A)).
Proof. intros s Hs. exact Hs. Qed.
Lemma keeps_spin {A} : keeps (spin (A:=A)).
Proof. intros s Hs. exact Hs. Qed.
Lemma keeps_bind {A B} (m : ST S A) (f : A -> ST S B) :
  keeps m -> (∀ a, keeps (f a)) -> keeps (m ≫= f).
Proof. intros Hm Hf s Hs. apply wp_bind. eapply wp_mono; [|by apply Hm]. intros a s' ?. by apply Hf. Qed.
Lemma keeps_when b m : keeps m -> keeps (when b m).
Proof. destruct b; [done|]. intros _. apply keeps_ret. Qed.
Lemma keeps_if {A} (b : bool) (m1 m2 : ST S A) :
  keeps m1 -> keeps m2 -> keeps (if b then m1 else m2).
Proof. by destruct b. Qed.
Lemma keeps_option {A B} (o : option B) (m1 : B -> ST S A) (m2 : ST S A) :
  (∀ b, keeps (m1 b)) -> keeps m2 -> keeps (match o with Some b => m1 b | None => m2 end).
Proof. by destruct o. Qed.
Lemma keeps_pair {A B C} (x : B * C) (m : B -> C -> ST S A) :
  (∀ b c, keeps (m b c)) -> keeps (let '(b, c) := x in m b c).
Proof. by destruct x. Qed.
Lemma keeps_for_each {X} (l : list X) (body : X -> ST S ()) :
  (∀ i, keeps (body i)) -> keeps (for_each l body).
Proof. intros Hb. induction l; cbn; [apply keeps_ret|]. by apply keeps_bind. Qed.
Lemma keeps_for_first {X A} (l : list X) (body : X -> ST S (option A)) :
  (∀ i, keeps (body i)) -> keeps (for_first l body).
Proof.
  intros Hb. induction l; cbn; [apply keeps_ret|]. apply keeps_bind; [done|].
  intros []; [apply keeps_ret|done].
Qed.

Lemma keeps_sum {A B C} (x : B + C) (m1 : B -> ST S A) (m2 : C -> ST S A) :
  (∀ b, keeps (m1 b)) -> (∀ c, keeps (m2 c)) ->
  keeps (match x with inl b => m1 b | inr c => m2 c end).
Proof. by destruct x. Qed.
Lemma keeps_loop {A} fuel (body : ST S (option A)) : keeps body -> keeps (loop fuel body).
Proof.
  intros Hb. induction fuel; cbn; [apply keeps_spin|]. apply keeps_bind; [done|].
  intros []; [apply keeps_ret|done].
Qed.
Lemma keeps_loop_on {X A} fuel (body : X -> ST S (X + A)) x :
  (∀ x, keeps (body x)) -> keeps (loop_on fuel body x).
Proof.
  intros Hb. revert x. induction fuel; intros x; cbn; [apply keeps_spin|]. apply keeps_bind; [done|].
  intros []; [done|apply keeps_ret].
Qed.

(** A loop whose exits with a value satisfy [R]. *)
Lemma wp_for_first {X A} (R : A -> S -> Prop) (l : list X) (body : X -> ST S (option A)) s :
  (∀ i s, i ∈ l -> I s -> wp (body i) (λ r s', match r with Some a => R a s' | None => I s' end) s) ->
  I s -> wp (for_first l body) (λ r s', match r with Some a => R a s' | None => I s' end) s.
Proof.
  revert s. induction l as [|i l IH]; intros s Hb Hs; [exact Hs|]. cbn. apply wp_bind.
  eapply wp_mono; [|apply Hb; [by left|done]]. intros [a|] s' Hr; [exact Hr|].
  apply IH; [|done]. intros j s'' Hj. apply Hb. by right.
Qed.

End keeps.

Create HintDb keeps.
#[export] Hint Resolve keeps_ret keeps_gets keeps_panic keeps_switch keeps_spin keeps_bind
  keeps_when keeps_if keeps_option keeps_pair keeps_sum keeps_for_each keeps_for_first
  keeps_loop keeps_loop_on : keeps.

(** [keep] splits code into its parts and closes those that [keeps] knows. *)
Ltac keep :=
  repeat (cbv zeta; lazymatch goal with
    | |- keeps _ (_ ≫= _) => apply keeps_bind; [|intros ?]
    | |- keeps _ (if _ then _ else _) => apply keeps_if
    | |- keeps _ (match ?x with _ => _ end) => destruct x
    | |- keeps _ (when _ _) => apply keeps_when
    | |- keeps _ (for_each _ _) => apply keeps_for_each; intros ?
    | |- keeps _ (for_first _ _) => apply keeps_for_first; intros ?
    | |- keeps _ (loop _ _) => apply keeps_loop
    | |- keeps _ (loop_on _ _ _) => apply keeps_loop_on; intros ?
    | |- keeps _ _ => solve [auto with keeps]
    end).

Create Rewrite HintDb mon.
#[export] Hint Rewrite @bind_ret @bind_gets @bind_modify @bind_bind : mon.

(** [mrun] performs the leading monadic steps of the goal. *)
Ltac mrun :=
  repeat first
    [ progress autorewrite with mon
    | progress cbn [for_each for_first when] ].

(** [mcompute] evaluates straight-line monadic code. *)
Ltac mcompute :=
  cbv beta delta [mbind ST_bind mret ST_ret gets modify panic switch spin when] iota.

(** ** Arrays

    A C array is a list; [upd i f l] is [l] with entry [i] changed by [f].
    The code only uses indices inside the array. *)
Definition upd {A} `{Inhabited A} (i : nat) (f : A -> A) (l : list A) : list A :=
  <[i := f (l !!! i)]> l.

#[global] Arguments upd : simpl never.

Section upd.
Context {A : Type} `{Inhabited A}.
Implicit Types (l : list A) (f g : A -> A).

Lemma length_upd i f l : length (upd i f l) = length l.
Proof. apply length_insert. Qed.

Lemma upd_eq i f l : (i < length l)%nat -> upd i f l !!! i = f (l !!! i).
Proof. apply list_lookup_total_insert_eq. Qed.

Lemma upd_ne i j f l : i ≠ j -> upd i f l !!! j = l !!! j.
Proof. intros. by apply list_lookup_total_insert_ne. Qed.

Lemma upd_lookup i j f l :
  (i < length l)%nat -> upd i f l !!! j = if decide (i = j) then f (l !!! j) else l !!! j.
Proof. intros. case_decide; subst; [by apply upd_eq|by apply upd_ne]. Qed.

Lemma upd_ge i f l : (length l <= i)%nat -> upd i f l = l.
Proof. apply list_insert_ge. Qed.

Lemma upd_upd i f g l : upd i f (upd i g l) = upd i (f ∘ g) l.
Proof.
  destruct (decide (i < length l)%nat).
  - unfold upd at 1. rewrite upd_eq by done. apply list_insert_insert_eq.
  - by rewrite !upd_ge by (rewrite ?length_upd; lia).
Qed.

Lemma upd_ext i f g l : f (l !!! i) = g (l !!! i) -> upd i f l = upd i g l.
Proof. unfold upd. by intros ->. Qed.

Lemma upd_id i f l : (i < length l)%nat -> f (l !!! i) = l !!! i -> upd i f l = l.
Proof.
  intros Hi. unfold upd. intros ->. apply list_insert_id. by apply list_lookup_lookup_total_lt.
Qed.

Lemma upd_comm i j f g l : i ≠ j -> upd i f (upd j g l) = upd j g (upd i f l).
Proof.
  intros. unfold upd. rewrite !list_lookup_total_insert_ne by done.
  by apply list_insert_insert_ne.
Qed.

(** Lists of the same length that agree on every index are equal. *)
Lemma list_eq_total l l' :
  length l = length l' -> (∀ i, (i < length l)%nat -> l !!! i = l' !!! i) -> l = l'.
Proof.
  intros Hlen Hl. apply list_eq_same_length with (length l); [done|done|].
  intros i x y Hi Hx Hy. apply list_lookup_total_correct in Hx, Hy. subst. by apply Hl.
Qed.
End upd.
Create Rewrite HintDb arr.
#[export] Hint Rewrite @length_upd : arr.
