(* ===== verification/Layout.v ===== *)
(** * Kernel parameters, address-space layout and Sv39 page arithmetic

    The constants of [kernel/param.h], [kernel/memlayout.h] and the macros of
    [kernel/riscv.h], with the arithmetic facts about them that the memory
    components share. *)
From S2P Require Import Prelude.

(** ** kernel/param.h *)
Definition NPROC : nat := 64.
Definition NCPU : nat := 8.
Definition NOFILE : nat := 16.
Definition NFILE : nat := 100.
Definition NINODE : nat := 50.
Definition NDEV : Z := 10.
Definition ROOTDEV : Z := 1.
Definition MAXARG : nat := 32.
Definition MAXOPBLOCKS : Z := 10.
Definition LOGBLOCKS : Z := MAXOPBLOCKS * 3.
Definition NBUF : nat := 30.
Definition MAXPATH : Z := 128.
Definition USERSTACK : Z := 1.

(** ** kernel/riscv.h: status bits *)
Definition SSTATUS_SPP : Z := Z.shiftl 1 8.
Definition SSTATUS_SPIE : Z := Z.shiftl 1 5.
Definition SSTATUS_SIE : Z := Z.shiftl 1 1.
Definition SATP_SV39 : Z := Z.shiftl 8 60.
Definition MAKE_SATP (pagetable : Z) : Z := Z.lor SATP_SV39 (Z.shiftr pagetable 12).

(** ** kernel/riscv.h: pages and page-table entries *)
Definition PGSIZE : Z := 4096.
Definition PGSHIFT : Z := 12.
Definition PGROUNDUP (sz : Z) : Z := Z.land (u64 (sz + PGSIZE - 1)) (Z.lnot (PGSIZE - 1)).
Definition PGROUNDDOWN (a : Z) : Z := Z.land a (Z.lnot (PGSIZE - 1)).

Definition PTE_V : Z := Z.shiftl 1 0.
Definition PTE_R : Z := Z.shiftl 1 1.
Definition PTE_W : Z := Z.shiftl 1 2.
Definition PTE_X : Z := Z.shiftl 1 3.
Definition PTE_U : Z := Z.shiftl 1 4.

Definition PA2PTE (pa : Z) : Z := u64 (Z.shiftl (Z.shiftr pa 12) 10).
Definition PTE2PA (pte : Z) : Z := u64 (Z.shiftl (Z.shiftr pte 10) 12).
Definition PTE_FLAGS (pte : Z) : Z := Z.land pte 0x3FF.

Definition PXMASK : Z := 0x1FF.
Definition PXSHIFT (level : Z) : Z := PGSHIFT + 9 * level.
Definition PX (level va : Z) : Z := Z.land (Z.shiftr va (PXSHIFT level)) PXMASK.
Definition MAXVA : Z := Z.shiftl 1 (9 + 9 + 9 + 12 - 1).

(** ** kernel/memlayout.h *)
Definition UART0 : Z := 0x10000000.
Definition UART0_IRQ : Z := 10.
Definition VIRTIO0 : Z := 0x10001000.
Definition VIRTIO0_IRQ : Z := 1.
Definition PLIC : Z := 0x0c000000.
Definition KERNBASE : Z := 0x80000000.
Definition PHYSTOP : Z := KERNBASE + 128 * 1024 * 1024.
Definition TRAMPOLINE : Z := MAXVA - PGSIZE.
Definition KSTACK (p : Z) : Z := TRAMPOLINE - (p + 1) * 2 * PGSIZE.
Definition TRAPFRAME : Z := TRAMPOLINE - PGSIZE.

(** ** [kernel/fs.h], [kernel/stat.h] and [kernel/fcntl.h] *)
Definition ROOTINO : Z := 1.
Definition BSIZE : Z := 1024.
Definition FSMAGIC : Z := 0x10203040.
Definition NDIRECT : nat := 12.
Definition NINDIRECT : Z := BSIZE / 4.
Definition MAXFILE : Z := Z.of_nat NDIRECT + NINDIRECT.
(** [sizeof(struct dinode)] and [sizeof(struct dirent)]. *)
Definition DINODE_SIZE : Z := 64.
Definition DIRENT_SIZE : Z := 16.
Definition IPB : Z := BSIZE / DINODE_SIZE.
Definition BPB : Z := BSIZE * 8.
Definition DIRSIZ : Z := 14.
Definition T_DIR : Z := 1.
Definition T_FILE : Z := 2.
Definition T_DEVICE : Z := 3.
Definition CONSOLE : Z := 1.
(** [kernel/vm.h]. *)
Definition SBRK_EAGER : Z := 1.
Definition SBRK_LAZY : Z := 2.

Definition O_RDONLY : Z := 0x000.
Definition O_WRONLY : Z := 0x001.
Definition O_RDWR : Z := 0x002.
Definition O_CREATE : Z := 0x200.
Definition O_TRUNC : Z := 0x400.

(** The addresses the linker script gives the kernel's symbols.  They are a
    parameter of the model; [LinkerOk] states what [kernel/kernel.ld] lays
    out: text from 0x80000000, the page-aligned trampoline at the end of it,
    and [end] above the data and below the end of RAM. *)
Class Linker := {
  l_end : Z;
  l_etext : Z;
  l_trampoline : Z;
  l_uservec : Z;
  l_userret : Z;
  l_kernelvec : Z;
  l_usertrap : Z;
  l_forkret : Z;
}.

Class LinkerOk (L : Linker) := {
  l_etext_aligned : l_etext mod PGSIZE = 0;
  l_trampoline_etext : l_trampoline = l_etext - PGSIZE;
  l_kernbase : KERNBASE <= l_trampoline;
  l_end_range : l_etext <= l_end < PHYSTOP;
}.

(** ** Page arithmetic *)

Lemma land_lnot_ones a n : 0 <= n -> Z.land a (Z.lnot (2 ^ n - 1)) = a - a mod 2 ^ n.
Proof.
  intros Hn. replace (2 ^ n - 1) with (Z.ones n) by (rewrite Z.ones_equiv; lia).
  rewrite <- Z.ldiff_land, Z.ldiff_ones_r, Z.shiftl_mul_pow2, Z.shiftr_div_pow2 by lia.
  pose proof (Z.div_mod a (2 ^ n)). pose proof (Z.pow_pos_nonneg 2 n). lia.
Qed.

Lemma PGROUNDDOWN_eq a : PGROUNDDOWN a = a - a mod PGSIZE.
Proof. apply (land_lnot_ones a 12). lia. Qed.

Lemma PGROUNDUP_eq sz :
  0 <= sz <= 2 ^ 64 - PGSIZE -> PGROUNDUP sz = (sz + PGSIZE - 1) / PGSIZE * PGSIZE.
Proof.
  intros H. unfold PGROUNDUP, u64. rewrite Z.mod_small by (unfold PGSIZE in *; lia).
  change (PGSIZE - 1) with (2 ^ 12 - 1). rewrite land_lnot_ones by lia.
  unfold PGSIZE in *. zlia.
Qed.

Lemma PGROUNDUP_bounds sz :
  0 <= sz <= 2 ^ 64 - PGSIZE ->
  sz <= PGROUNDUP sz < sz + PGSIZE ∧ PGROUNDUP sz mod PGSIZE = 0.
Proof.
  intros H. rewrite PGROUNDUP_eq by done. split; [unfold PGSIZE in *; zlia|].
  apply Z.mod_mul. done.
Qed.

Lemma PX_eq level va :
  0 <= level -> PX level va = va / 2 ^ (12 + 9 * level) mod 2 ^ 9.
Proof.
  intros. unfold PX, PXSHIFT, PGSHIFT, PXMASK.
  change 0x1FF with (Z.ones 9). rewrite Z.land_ones, Z.shiftr_div_pow2 by lia. done.
Qed.

Lemma PX_range level va : 0 <= level -> 0 <= PX level va < 512.
Proof. intros. rewrite PX_eq by done. change 512 with (2 ^ 9). apply Z.mod_pos_bound. lia. Qed.

(** The three 9-bit indices and the page offset determine the address. *)
Lemma PX_split va :
  0 <= va < MAXVA ->
  va = PX 2 va * 2 ^ 30 + PX 1 va * 2 ^ 21 + PX 0 va * 2 ^ 12 + va mod PGSIZE.
Proof.
  intros H. rewrite !PX_eq by lia. unfold PGSIZE. change MAXVA with (2 ^ 38) in H.
  change (12 + 9 * 2) with 30. change (12 + 9 * 1) with 21. change (12 + 9 * 0) with 12.
  zlia.
Qed.

Lemma PX_inj va va' :
  0 <= va < MAXVA -> 0 <= va' < MAXVA ->
  va mod PGSIZE = 0 -> va' mod PGSIZE = 0 ->
  PX 2 va = PX 2 va' -> PX 1 va = PX 1 va' -> PX 0 va = PX 0 va' -> va = va'.
Proof.
  intros H H' Ha Ha' E2 E1 E0. rewrite (PX_split va), (PX_split va') by done. lia.
Qed.

Lemma PTE2PA_PA2PTE pa flags :
  0 <= pa < 2 ^ 56 -> pa mod PGSIZE = 0 -> 0 <= flags < 2 ^ 10 ->
  PTE2PA (Z.lor (PA2PTE pa) flags) = pa.
Proof.
  intros Hpa Hal Hf. unfold PTE2PA, PA2PTE, u64, PGSIZE in *.
  rewrite !Z.shiftl_mul_pow2, (Z.shiftr_div_pow2 pa) by lia.
  rewrite (Z.mod_small (_ * 2 ^ 10)) by zlia.
  rewrite Z.shiftr_lor, !Z.shiftr_div_pow2, Z.div_mul by lia.
  rewrite (Z.div_small flags) by lia. rewrite Z.lor_0_r, Z.mod_small by zlia. zlia.
Qed.

(** ** A linker map *)

(** A kernel that ends 16 pages below the top of memory. *)
#[export] Instance demo_linker : Linker := {|
  l_end := PHYSTOP - 16 * PGSIZE;
  l_etext := KERNBASE + 9 * PGSIZE;
  l_trampoline := KERNBASE + 8 * PGSIZE;
  l_uservec := KERNBASE + 8 * PGSIZE;
  l_userret := KERNBASE + 8 * PGSIZE + 156;
  l_kernelvec := KERNBASE + 0x5000;
  l_usertrap := KERNBASE + 0x2000;
  l_forkret := KERNBASE + 0x1800;
|}.

#[export] Instance demo_linker_ok : LinkerOk demo_linker.
Proof. split; vm_compute; try done; by split. Qed.
