(* ===== verification/KState.v ===== *)
(** * Kernel data

    The C structures of the kernel as records, one field per C field, and the
    kernel's global variables as the record [kernel].  A pointer into a static
    table is the entry's index ([option nat], [None] for the null pointer); a
    pointer into physical memory is its address.  The spinlocks embedded in C
    structures live in one store, [m_locks], under the name of the structure
    that holds them. *)
From S2P Require Import Prelude Layout.

(** ** Field update

    [r <| f := v |>] is [r] with field [f] set to [v]. *)
Class Setter {R T : Type} (proj : R -> T) := set : (T -> T) -> R -> R.
Arguments set {R T} proj {_} _ _ /.

Notation "r <| f ::= g |>" := (set f g r)
  (at level 1, f at level 9, left associativity, format "r  <| f  ::=  g |>").
Notation "r <| f := v |>" := (set f (λ _, v) r)
  (at level 1, f at level 9, left associativity, format "r  <| f  :=  v |>").

(** ** Locks, CPUs and control registers *)

(** The spinlocks of the kernel, by the object that embeds them. *)
Inductive lockid : Type :=
| LkPid | LkWait | LkKmem | LkTicks | LkFtable | LkItable | LkBcache | LkLog
| LkCons | LkTx | LkDisk | LkPr
| LkProc (i : nat)
| LkPipe (pi : Z)
| LkBuf (i : nat)
| LkInode (i : nat).

#[export] Instance lockid_eq_dec : EqDecision lockid.
Proof. solve_decision. Defined.

Definition lockid_code (l : lockid) : Z * Z :=
  match l with
  | LkPid => (0, 0) | LkWait => (1, 0) | LkKmem => (2, 0) | LkTicks => (3, 0)
  | LkFtable => (4, 0) | LkItable => (5, 0) | LkBcache => (6, 0) | LkLog => (7, 0)
  | LkCons => (8, 0) | LkTx => (9, 0) | LkDisk => (10, 0) | LkPr => (11, 0)
  | LkProc i => (12, Z.of_nat i)
  | LkPipe pi => (13, pi)
  | LkBuf i => (14, Z.of_nat i)
  | LkInode i => (15, Z.of_nat i)
  end.
Definition lockid_decode (c : Z * Z) : option lockid :=
  match c with
  | (0, _) => Some LkPid | (1, _) => Some LkWait | (2, _) => Some LkKmem
  | (3, _) => Some LkTicks | (4, _) => Some LkFtable | (5, _) => Some LkItable
  | (6, _) => Some LkBcache | (7, _) => Some LkLog | (8, _) => Some LkCons
  | (9, _) => Some LkTx | (10, _) => Some LkDisk | (11, _) => Some LkPr
  | (12, i) => Some (LkProc (Z.to_nat i))
  | (13, pi) => Some (LkPipe pi)
  | (14, i) => Some (LkBuf (Z.to_nat i))
  | (15, i) => Some (LkInode (Z.to_nat i))
  | _ => None
  end.
#[export] Instance lockid_countable : Countable lockid.
Proof.
  apply (inj_countable lockid_code lockid_decode).
  intros []; cbn; try done; by rewrite Nat2Z.id.
Defined.

(** [kernel/spinlock.h]; the debugging name is left out. *)
#[projections(primitive)] Record spinlock : Type := mk_spinlock {
  lk_locked : Z; (* is the lock held? *)
  lk_cpu : option nat; (* the cpu holding it *)
}.

#[export] Instance set_lk_locked : Setter lk_locked := λ f r,
  mk_spinlock (f (lk_locked r)) (lk_cpu r).
#[export] Instance set_lk_cpu : Setter lk_cpu := λ f r,
  mk_spinlock (lk_locked r) (f (lk_cpu r)).
#[global] Arguments set_lk_locked _ _ /.
#[global] Arguments set_lk_cpu _ _ /.

#[export] Instance spinlock_inhabited : Inhabited spinlock := populate (mk_spinlock 0 None).

(** Per-CPU state, [struct cpu]; the scheduler's saved registers are [swtch]'s. *)
#[projections(primitive)] Record cpu : Type := mk_cpu {
  c_proc : option nat; (* process running on this cpu *)
  c_noff : Z; (* depth of push_off nesting *)
  c_intena : Z; (* were interrupts enabled before push_off? *)
}.

#[export] Instance set_c_proc : Setter c_proc := λ f r,
  mk_cpu (f (c_proc r)) (c_noff r) (c_intena r).
#[export] Instance set_c_noff : Setter c_noff := λ f r,
  mk_cpu (c_proc r) (f (c_noff r)) (c_intena r).
#[export] Instance set_c_intena : Setter c_intena := λ f r,
  mk_cpu (c_proc r) (c_noff r) (f (c_intena r)).
#[global] Arguments set_c_proc _ _ /.
#[global] Arguments set_c_noff _ _ /.
#[global] Arguments set_c_intena _ _ /.

#[export] Instance cpu_inhabited : Inhabited cpu := populate (mk_cpu None 0 0).

(** The supervisor control registers of one hart that the kernel reads and writes. *)
#[projections(primitive)] Record csrs : Type := mk_csrs {
  r_sstatus : Z;
  r_scause : Z;
  r_sepc : Z;
  r_stval : Z;
  r_stvec : Z;
  r_satp : Z;
  r_time : Z;
  r_stimecmp : Z;
}.

#[export] Instance set_r_sstatus : Setter r_sstatus := λ f r,
  mk_csrs (f (r_sstatus r)) (r_scause r) (r_sepc r) (r_stval r) (r_stvec r) (r_satp r)
  (r_time r) (r_stimecmp r).
#[export] Instance set_r_scause : Setter r_scause := λ f r,
  mk_csrs (r_sstatus r) (f (r_scause r)) (r_sepc r) (r_stval r) (r_stvec r) (r_satp r)
  (r_time r) (r_stimecmp r).
#[export] Instance set_r_sepc : Setter r_sepc := λ f r,
  mk_csrs (r_sstatus r) (r_scause r) (f (r_sepc r)) (r_stval r) (r_stvec r) (r_satp r)
  (r_time r) (r_stimecmp r).
#[export] Instance set_r_stval : Setter r_stval := λ f r,
  mk_csrs (r_sstatus r) (r_scause r) (r_sepc r) (f (r_stval r)) (r_stvec r) (r_satp r)
  (r_time r) (r_stimecmp r).
#[export] Instance set_r_stvec : Setter r_stvec := λ f r,
  mk_csrs (r_sstatus r) (r_scause r) (r_sepc r) (r_stval r) (f (r_stvec r)) (r_satp r)
  (r_time r) (r_stimecmp r).
#[export] Instance set_r_satp : Setter r_satp := λ f r,
  mk_csrs (r_sstatus r) (r_scause r) (r_sepc r) (r_stval r) (r_stvec r) (f (r_satp r))
  (r_time r) (r_stimecmp r).
#[export] Instance set_r_time : Setter r_time := λ f r,
  mk_csrs (r_sstatus r) (r_scause r) (r_sepc r) (r_stval r) (r_stvec r) (r_satp r) (f
  (r_time r)) (r_stimecmp r).
#[export] Instance set_r_stimecmp : Setter r_stimecmp := λ f r,
  mk_csrs (r_sstatus r) (r_scause r) (r_sepc r) (r_stval r) (r_stvec r) (r_satp r)
  (r_time r) (f (r_stimecmp r)).
#[global] Arguments set_r_sstatus _ _ /.
#[global] Arguments set_r_scause _ _ /.
#[global] Arguments set_r_sepc _ _ /.
#[global] Arguments set_r_stval _ _ /.
#[global] Arguments set_r_stvec _ _ /.
#[global] Arguments set_r_satp _ _ /.
#[global] Arguments set_r_time _ _ /.
#[global] Arguments set_r_stimecmp _ _ /.

#[export] Instance csrs_inhabited : Inhabited csrs :=
  populate (mk_csrs 0 0 0 0 0 0 0 0).

(** The harts and the lock store. *)
#[projections(primitive)] Record machine : Type := mk_machine {
  m_hart : nat; (* the hart that executes, its tp register *)
  m_cpus : list cpu;
  m_csrs : list csrs;
  m_locks : gmap lockid spinlock;
}.

#[export] Instance set_m_hart : Setter m_hart := λ f r,
  mk_machine (f (m_hart r)) (m_cpus r) (m_csrs r) (m_locks r).
#[export] Instance set_m_cpus : Setter m_cpus := λ f r,
  mk_machine (m_hart r) (f (m_cpus r)) (m_csrs r) (m_locks r).
#[export] Instance set_m_csrs : Setter m_csrs := λ f r,
  mk_machine (m_hart r) (m_cpus r) (f (m_csrs r)) (m_locks r).
#[export] Instance set_m_locks : Setter m_locks := λ f r,
  mk_machine (m_hart r) (m_cpus r) (m_csrs r) (f (m_locks r)).
#[global] Arguments set_m_hart _ _ /.
#[global] Arguments set_m_cpus _ _ /.
#[global] Arguments set_m_csrs _ _ /.
#[global] Arguments set_m_locks _ _ /.

(** ** Processes *)

Inductive procstate : Type := UNUSED | USED | SLEEPING | RUNNABLE | RUNNING | ZOMBIE.

#[export] Instance procstate_eq_dec : EqDecision procstate.
Proof. solve_decision. Defined.

(** Sleep channels: the addresses the kernel passes to [sleep] and [wakeup]. *)
Inductive chan : Type :=
| ChProc (i : nat)      (* a struct proc *)
| ChTicks               (* &ticks *)
| ChPipeR (pi : Z)      (* &pi->nread *)
| ChPipeW (pi : Z)      (* &pi->nwrite *)
| ChLog                 (* &log *)
| ChCons                (* &cons.r *)
| ChTx                  (* &tx_chan *)
| ChDiskFree            (* &disk.free[0] *)
| ChBufIO (i : nat)     (* a struct buf *)
| ChBuf (i : nat)       (* &buf->lock *)
| ChInode (i : nat).    (* &inode->lock *)

#[export] Instance chan_eq_dec : EqDecision chan.
Proof. solve_decision. Defined.

(** Saved registers for kernel context switches. *)
#[projections(primitive)] Record context : Type := mk_context {
  ctx_ra : Z;
  ctx_sp : Z;
  ctx_s : list Z; (* s0 .. s11 *)
}.

#[export] Instance set_ctx_ra : Setter ctx_ra := λ f r,
  mk_context (f (ctx_ra r)) (ctx_sp r) (ctx_s r).
#[export] Instance set_ctx_sp : Setter ctx_sp := λ f r,
  mk_context (ctx_ra r) (f (ctx_sp r)) (ctx_s r).
#[export] Instance set_ctx_s : Setter ctx_s := λ f r,
  mk_context (ctx_ra r) (ctx_sp r) (f (ctx_s r)).

(** Per-process state, [struct proc]; [p->lock] is [LkProc]. *)
#[projections(primitive)] Record proc : Type := mk_proc {
  p_state : procstate;
  p_chan : option chan; (* if non-zero, sleeping on chan *)
  p_killed : Z;
  p_xstate : Z; (* exit status for the parent's wait *)
  p_pid : Z;
  p_parent : option nat;
  p_kstack : Z;
  p_sz : Z; (* size of process memory (bytes) *)
  p_pagetable : Z;
  p_trapframe : Z; (* physical page for trampoline.S *)
  p_context : context;
  p_ofile : list (option nat);
  p_cwd : option nat;
  p_name : list Z;
  p_priority : Z; (* 0 = highest, 2 = lowest *)
  p_timeslice : Z;
  p_timeslice_used : Z;
  p_cpu_ticks : Z;
  p_sched_count : Z;
  p_yielded_io : Z;
  p_start_time : Z;
  p_end_time : Z;
  p_first_run : Z;
  p_total_wait : Z;
  p_last_scheduled : Z;
}.

#[export] Instance set_p_state : Setter p_state := λ f r,
  mk_proc (f (p_state r)) (p_chan r) (p_killed r) (p_xstate r) (p_pid r) (p_parent r)
  (p_kstack r) (p_sz r) (p_pagetable r) (p_trapframe r) (p_context r) (p_ofile r)
  (p_cwd r) (p_name r) (p_priority r) (p_timeslice r) (p_timeslice_used r)
  (p_cpu_ticks r) (p_sched_count r) (p_yielded_io r) (p_start_time r) (p_end_time r)
  (p_first_run r) (p_total_wait r) (p_last_scheduled r).
#[export] Instance set_p_chan : Setter p_chan := λ f r,
  mk_proc (p_state r) (f (p_chan r)) (p_killed r) (p_xstate r) (p_pid r) (p_parent r)
  (p_kstack r) (p_sz r) (p_pagetable r) (p_trapframe r) (p_context r) (p_ofile r)
  (p_cwd r) (p_name r) (p_priority r) (p_timeslice r) (p_timeslice_used r)
  (p_cpu_ticks r) (p_sched_count r) (p_yielded_io r) (p_start_time r) (p_end_time r)
  (p_first_run r) (p_total_wait r) (p_last_scheduled r).
#[export] Instance set_p_killed : Setter p_killed := λ f r,
  mk_proc (p_state r) (p_chan r) (f (p_killed r)) (p_xstate r) (p_pid r) (p_parent r)
  (p_kstack r) (p_sz r) (p_pagetable r) (p_trapframe r) (p_context r) (p_ofile r)
  (p_cwd r) (p_name r) (p_priority r) (p_timeslice r) (p_timeslice_used r)
  (p_cpu_ticks r) (p_sched_count r) (p_yielded_io r) (p_start_time r) (p_end_time r)
  (p_first_run r) (p_total_wait r) (p_last_scheduled r).
#[export] Instance set_p_xstate : Setter p_xstate := λ f r,
  mk_proc (p_state r) (p_chan r) (p_killed r) (f (p_xstate r)) (p_pid r) (p_parent r)
  (p_kstack r) (p_sz r) (p_pagetable r) (p_trapframe r) (p_context r) (p_ofile r)
  (p_cwd r) (p_name r) (p_priority r) (p_timeslice r) (p_timeslice_used r)
  (p_cpu_ticks r) (p_sched_count r) (p_yielded_io r) (p_start_time r) (p_end_time r)
  (p_first_run r) (p_total_wait r) (p_last_scheduled r).
#[export] Instance set_p_pid : Setter p_pid := λ f r,
  mk_proc (p_state r) (p_chan r) (p_killed r) (p_xstate r) (f (p_pid r)) (p_parent r)
  (p_kstack r) (p_sz r) (p_pagetable r) (p_trapframe r) (p_context r) (p_ofile r)
  (p_cwd r) (p_name r) (p_priority r) (p_timeslice r) (p_timeslice_used r)
  (p_cpu_ticks r) (p_sched_count r) (p_yielded_io r) (p_start_time r) (p_end_time r)
  (p_first_run r) (p_total_wait r) (p_last_scheduled r).
#[export] Instance set_p_parent : Setter p_parent := λ f r,
  mk_proc (p_state r) (p_chan r) (p_killed r) (p_xstate r) (p_pid r) (f (p_parent r))
  (p_kstack r) (p_sz r) (p_pagetable r) (p_trapframe r) (p_context r) (p_ofile r)
  (p_cwd r) (p_name r) (p_priority r) (p_timeslice r) (p_timeslice_used r)
  (p_cpu_ticks r) (p_sched_count r) (p_yielded_io r) (p_start_time r) (p_end_time r)
  (p_first_run r) (p_total_wait r) (p_last_scheduled r).
#[export] Instance set_p_kstack : Setter p_kstack := λ f r,
  mk_proc (p_state r) (p_chan r) (p_killed r) (p_xstate r) (p_pid r) (p_parent r) (f
  (p_kstack r)) (p_sz r) (p_pagetable r) (p_trapframe r) (p_context r) (p_ofile r)
  (p_cwd r) (p_name r) (p_priority r) (p_timeslice r) (p_timeslice_used r)
  (p_cpu_ticks r) (p_sched_count r) (p_yielded_io r) (p_start_time r) (p_end_time r)
  (p_first_run r) (p_total_wait r) (p_last_scheduled r).
#[export] Instance set_p_sz : Setter p_sz := λ f r,
  mk_proc (p_state r) (p_chan r) (p_killed r) (p_xstate r) (p_pid r) (p_parent r)
  (p_kstack r) (f (p_sz r)) (p_pagetable r) (p_trapframe r) (p_context r) (p_ofile r)
  (p_cwd r) (p_name r) (p_priority r) (p_timeslice r) (p_timeslice_used r)
  (p_cpu_ticks r) (p_sched_count r) (p_yielded_io r) (p_start_time r) (p_end_time r)
  (p_first_run r) (p_total_wait r) (p_last_scheduled r).
#[export] Instance set_p_pagetable : Setter p_pagetable := λ f r,
  mk_proc (p_state r) (p_chan r) (p_killed r) (p_xstate r) (p_pid r) (p_parent r)
  (p_kstack r) (p_sz r) (f (p_pagetable r)) (p_trapframe r) (p_context r) (p_ofile r)
  (p_cwd r) (p_name r) (p_priority r) (p_timeslice r) (p_timeslice_used r)
  (p_cpu_ticks r) (p_sched_count r) (p_yielded_io r) (p_start_time r) (p_end_time r)
  (p_first_run r) (p_total_wait r) (p_last_scheduled r).
#[export] Instance set_p_trapframe : Setter p_trapframe := λ f r,
  mk_proc (p_state r) (p_chan r) (p_killed r) (p_xstate r) (p_pid r) (p_parent r)
  (p_kstack r) (p_sz r) (p_pagetable r) (f (p_trapframe r)) (p_context r) (p_ofile r)
  (p_cwd r) (p_name r) (p_priority r) (p_timeslice r) (p_timeslice_used r)
  (p_cpu_ticks r) (p_sched_count r) (p_yielded_io r) (p_start_time r) (p_end_time r)
  (p_first_run r) (p_total_wait r) (p_last_scheduled r).
#[export] Instance set_p_context : Setter p_context := λ f r,
  mk_proc (p_state r) (p_chan r) (p_killed r) (p_xstate r) (p_pid r) (p_parent r)
  (p_kstack r) (p_sz r) (p_pagetable r) (p_trapframe r) (f (p_context r)) (p_ofile r)
  (p_cwd r) (p_name r) (p_priority r) (p_timeslice r) (p_timeslice_used r)
  (p_cpu_ticks r) (p_sched_count r) (p_yielded_io r) (p_start_time r) (p_end_time r)
  (p_first_run r) (p_total_wait r) (p_last_scheduled r).
#[export] Instance set_p_ofile : Setter p_ofile := λ f r,
  mk_proc (p_state r) (p_chan r) (p_killed r) (p_xstate r) (p_pid r) (p_parent r)
  (p_kstack r) (p_sz r) (p_pagetable r) (p_trapframe r) (p_context r) (f (p_ofile r))
  (p_cwd r) (p_name r) (p_priority r) (p_timeslice r) (p_timeslice_used r)
  (p_cpu_ticks r) (p_sched_count r) (p_yielded_io r) (p_start_time r) (p_end_time r)
  (p_first_run r) (p_total_wait r) (p_last_scheduled r).
#[export] Instance set_p_cwd : Setter p_cwd := λ f r,
  mk_proc (p_state r) (p_chan r) (p_killed r) (p_xstate r) (p_pid r) (p_parent r)
  (p_kstack r) (p_sz r) (p_pagetable r) (p_trapframe r) (p_context r) (p_ofile r) (f
  (p_cwd r)) (p_name r) (p_priority r) (p_timeslice r) (p_timeslice_used r)
  (p_cpu_ticks r) (p_sched_count r) (p_yielded_io r) (p_start_time r) (p_end_time r)
  (p_first_run r) (p_total_wait r) (p_last_scheduled r).
#[export] Instance set_p_name : Setter p_name := λ f r,
  mk_proc (p_state r) (p_chan r) (p_killed r) (p_xstate r) (p_pid r) (p_parent r)
  (p_kstack r) (p_sz r) (p_pagetable r) (p_trapframe r) (p_context r) (p_ofile r)
  (p_cwd r) (f (p_name r)) (p_priority r) (p_timeslice r) (p_timeslice_used r)
  (p_cpu_ticks r) (p_sched_count r) (p_yielded_io r) (p_start_time r) (p_end_time r)
  (p_first_run r) (p_total_wait r) (p_last_scheduled r).
#[export] Instance set_p_priority : Setter p_priority := λ f r,
  mk_proc (p_state r) (p_chan r) (p_killed r) (p_xstate r) (p_pid r) (p_parent r)
  (p_kstack r) (p_sz r) (p_pagetable r) (p_trapframe r) (p_context r) (p_ofile r)
  (p_cwd r) (p_name r) (f (p_priority r)) (p_timeslice r) (p_timeslice_used r)
  (p_cpu_ticks r) (p_sched_count r) (p_yielded_io r) (p_start_time r) (p_end_time r)
  (p_first_run r) (p_total_wait r) (p_last_scheduled r).
#[export] Instance set_p_timeslice : Setter p_timeslice := λ f r,
  mk_proc (p_state r) (p_chan r) (p_killed r) (p_xstate r) (p_pid r) (p_parent r)
  (p_kstack r) (p_sz r) (p_pagetable r) (p_trapframe r) (p_context r) (p_ofile r)
  (p_cwd r) (p_name r) (p_priority r) (f (p_timeslice r)) (p_timeslice_used r)
  (p_cpu_ticks r) (p_sched_count r) (p_yielded_io r) (p_start_time r) (p_end_time r)
  (p_first_run r) (p_total_wait r) (p_last_scheduled r).
#[export] Instance set_p_timeslice_used : Setter p_timeslice_used := λ f r,
  mk_proc (p_state r) (p_chan r) (p_killed r) (p_xstate r) (p_pid r) (p_parent r)
  (p_kstack r) (p_sz r) (p_pagetable r) (p_trapframe r) (p_context r) (p_ofile r)
  (p_cwd r) (p_name r) (p_priority r) (p_timeslice r) (f (p_timeslice_used r))
  (p_cpu_ticks r) (p_sched_count r) (p_yielded_io r) (p_start_time r) (p_end_time r)
  (p_first_run r) (p_total_wait r) (p_last_scheduled r).
#[export] Instance set_p_cpu_ticks : Setter p_cpu_ticks := λ f r,
  mk_proc (p_state r) (p_chan r) (p_killed r) (p_xstate r) (p_pid r) (p_parent r)
  (p_kstack r) (p_sz r) (p_pagetable r) (p_trapframe r) (p_context r) (p_ofile r)
  (p_cwd r) (p_name r) (p_priority r) (p_timeslice r) (p_timeslice_used r) (f
  (p_cpu_ticks r)) (p_sched_count r) (p_yielded_io r) (p_start_time r) (p_end_time r)
  (p_first_run r) (p_total_wait r) (p_last_scheduled r).
#[export] Instance set_p_sched_count : Setter p_sched_count := λ f r,
  mk_proc (p_state r) (p_chan r) (p_killed r) (p_xstate r) (p_pid r) (p_parent r)
  (p_kstack r) (p_sz r) (p_pagetable r) (p_trapframe r) (p_context r) (p_ofile r)
  (p_cwd r) (p_name r) (p_priority r) (p_timeslice r) (p_timeslice_used r)
  (p_cpu_ticks r) (f (p_sched_count r)) (p_yielded_io r) (p_start_time r)
  (p_end_time r) (p_first_run r) (p_total_wait r) (p_last_scheduled r).
#[export] Instance set_p_yielded_io : Setter p_yielded_io := λ f r,
  mk_proc (p_state r) (p_chan r) (p_killed r) (p_xstate r) (p_pid r) (p_parent r)
  (p_kstack r) (p_sz r) (p_pagetable r) (p_trapframe r) (p_context r) (p_ofile r)
  (p_cwd r) (p_name r) (p_priority r) (p_timeslice r) (p_timeslice_used r)
  (p_cpu_ticks r) (p_sched_count r) (f (p_yielded_io r)) (p_start_time r)
  (p_end_time r) (p_first_run r) (p_total_wait r) (p_last_scheduled r).
#[export] Instance set_p_start_time : Setter p_start_time := λ f r,
  mk_proc (p_state r) (p_chan r) (p_killed r) (p_xstate r) (p_pid r) (p_parent r)
  (p_kstack r) (p_sz r) (p_pagetable r) (p_trapframe r) (p_context r) (p_ofile r)
  (p_cwd r) (p_name r) (p_priority r) (p_timeslice r) (p_timeslice_used r)
  (p_cpu_ticks r) (p_sched_count r) (p_yielded_io r) (f (p_start_time r))
  (p_end_time r) (p_first_run r) (p_total_wait r) (p_last_scheduled r).
#[export] Instance set_p_end_time : Setter p_end_time := λ f r,
  mk_proc (p_state r) (p_chan r) (p_killed r) (p_xstate r) (p_pid r) (p_parent r)
  (p_kstack r) (p_sz r) (p_pagetable r) (p_trapframe r) (p_context r) (p_ofile r)
  (p_cwd r) (p_name r) (p_priority r) (p_timeslice r) (p_timeslice_used r)
  (p_cpu_ticks r) (p_sched_count r) (p_yielded_io r) (p_start_time r) (f
  (p_end_time r)) (p_first_run r) (p_total_wait r) (p_last_scheduled r).
#[export] Instance set_p_first_run : Setter p_first_run := λ f r,
  mk_proc (p_state r) (p_chan r) (p_killed r) (p_xstate r) (p_pid r) (p_parent r)
  (p_kstack r) (p_sz r) (p_pagetable r) (p_trapframe r) (p_context r) (p_ofile r)
  (p_cwd r) (p_name r) (p_priority r) (p_timeslice r) (p_timeslice_used r)
  (p_cpu_ticks r) (p_sched_count r) (p_yielded_io r) (p_start_time r) (p_end_time r)
  (f (p_first_run r)) (p_total_wait r) (p_last_scheduled r).
#[export] Instance set_p_total_wait : Setter p_total_wait := λ f r,
  mk_proc (p_state r) (p_chan r) (p_killed r) (p_xstate r) (p_pid r) (p_parent r)
  (p_kstack r) (p_sz r) (p_pagetable r) (p_trapframe r) (p_context r) (p_ofile r)
  (p_cwd r) (p_name r) (p_priority r) (p_timeslice r) (p_timeslice_used r)
  (p_cpu_ticks r) (p_sched_count r) (p_yielded_io r) (p_start_time r) (p_end_time r)
  (p_first_run r) (f (p_total_wait r)) (p_last_scheduled r).
#[export] Instance set_p_last_scheduled : Setter p_last_scheduled := λ f r,
  mk_proc (p_state r) (p_chan r) (p_killed r) (p_xstate r) (p_pid r) (p_parent r)
  (p_kstack r) (p_sz r) (p_pagetable r) (p_trapframe r) (p_context r) (p_ofile r)
  (p_cwd r) (p_name r) (p_priority r) (p_timeslice r) (p_timeslice_used r)
  (p_cpu_ticks r) (p_sched_count r) (p_yielded_io r) (p_start_time r) (p_end_time r)
  (p_first_run r) (p_total_wait r) (f (p_last_scheduled r)).

(** A zeroed [struct proc], as in the kernel's bss. *)
Definition proc0 : proc :=
  mk_proc UNUSED None 0 0 0 None 0 0 0 0 (mk_context 0 0 (replicate 12 0))
    (replicate NOFILE None) None (replicate 16 0) 0 0 0 0 0 0 0 0 0 0 0.
#[export] Instance proc_inhabited : Inhabited proc := populate proc0.

(** What [getprocinfo] copies to user space, [struct procinfo]. *)
#[projections(primitive)] Record procinfo : Type := mk_procinfo {
  pi_pid : Z;
  pi_priority : Z;
  pi_cpu_ticks : Z;
  pi_sched_count : Z;
  pi_timeslice_used : Z;
  pi_start_time : Z;
  pi_end_time : Z;
  pi_first_run : Z;
  pi_total_wait : Z;
}.

(** ** Files and pipes *)

Inductive fdtype : Type := FD_NONE | FD_PIPE | FD_INODE | FD_DEVICE.

#[export] Instance fdtype_eq_dec : EqDecision fdtype.
Proof. solve_decision. Defined.

(** [struct file]. *)
#[projections(primitive)] Record file : Type := mk_file {
  f_type : fdtype;
  f_ref : Z; (* reference count *)
  f_readable : Z;
  f_writable : Z;
  f_pipe : Z; (* FD_PIPE *)
  f_ip : option nat; (* FD_INODE and FD_DEVICE *)
  f_off : Z; (* FD_INODE *)
  f_major : Z; (* FD_DEVICE *)
}.

#[export] Instance set_f_type : Setter f_type := λ f r,
  mk_file (f (f_type r)) (f_ref r) (f_readable r) (f_writable r) (f_pipe r) (f_ip r)
  (f_off r) (f_major r).
#[export] Instance set_f_ref : Setter f_ref := λ f r,
  mk_file (f_type r) (f (f_ref r)) (f_readable r) (f_writable r) (f_pipe r) (f_ip r)
  (f_off r) (f_major r).
#[export] Instance set_f_readable : Setter f_readable := λ f r,
  mk_file (f_type r) (f_ref r) (f (f_readable r)) (f_writable r) (f_pipe r) (f_ip r)
  (f_off r) (f_major r).
#[export] Instance set_f_writable : Setter f_writable := λ f r,
  mk_file (f_type r) (f_ref r) (f_readable r) (f (f_writable r)) (f_pipe r) (f_ip r)
  (f_off r) (f_major r).
#[export] Instance set_f_pipe : Setter f_pipe := λ f r,
  mk_file (f_type r) (f_ref r) (f_readable r) (f_writable r) (f (f_pipe r)) (f_ip r)
  (f_off r) (f_major r).
#[export] Instance set_f_ip : Setter f_ip := λ f r,
  mk_file (f_type r) (f_ref r) (f_readable r) (f_writable r) (f_pipe r) (f (f_ip r))
  (f_off r) (f_major r).
#[export] Instance set_f_off : Setter f_off := λ f r,
  mk_file (f_type r) (f_ref r) (f_readable r) (f_writable r) (f_pipe r) (f_ip r) (f
  (f_off r)) (f_major r).
#[export] Instance set_f_major : Setter f_major := λ f r,
  mk_file (f_type r) (f_ref r) (f_readable r) (f_writable r) (f_pipe r) (f_ip r)
  (f_off r) (f (f_major r)).

#[export] Instance file_inhabited : Inhabited file := populate (mk_file FD_NONE 0 0 0 0 None 0 0).

(** [struct pipe]; [pi->lock] is [LkPipe]. *)
#[projections(primitive)] Record pipe : Type := mk_pipe {
  pi_data : list Z; (* PIPESIZE bytes *)
  pi_nread : Z; (* number of bytes read *)
  pi_nwrite : Z; (* number of bytes written *)
  pi_readopen : Z;
  pi_writeopen : Z;
}.

#[export] Instance set_pi_data : Setter pi_data := λ f r,
  mk_pipe (f (pi_data r)) (pi_nread r) (pi_nwrite r) (pi_readopen r) (pi_writeopen r).
#[export] Instance set_pi_nread : Setter pi_nread := λ f r,
  mk_pipe (pi_data r) (f (pi_nread r)) (pi_nwrite r) (pi_readopen r) (pi_writeopen r).
#[export] Instance set_pi_nwrite : Setter pi_nwrite := λ f r,
  mk_pipe (pi_data r) (pi_nread r) (f (pi_nwrite r)) (pi_readopen r) (pi_writeopen r).
#[export] Instance set_pi_readopen : Setter pi_readopen := λ f r,
  mk_pipe (pi_data r) (pi_nread r) (pi_nwrite r) (f (pi_readopen r)) (pi_writeopen r).
#[export] Instance set_pi_writeopen : Setter pi_writeopen := λ f r,
  mk_pipe (pi_data r) (pi_nread r) (pi_nwrite r) (pi_readopen r) (f (pi_writeopen r)).

#[export] Instance pipe_inhabited : Inhabited pipe := populate (mk_pipe [] 0 0 0 0).

(** ** Sleep locks, buffers, the log and inodes *)

(** The sleep locks of the kernel, by the object that embeds them. *)
Inductive slid : Type := SlBuf (i : nat) | SlInode (i : nat).

#[export] Instance slid_eq_dec : EqDecision slid.
Proof. solve_decision. Defined.
#[export] Instance slid_countable : Countable slid.
Proof.
  apply (inj_countable (λ l, match l with SlBuf i => inl i | SlInode i => inr i end)
           (λ c, Some match c with inl i => SlBuf i | inr i => SlInode i end)).
  by intros [].
Defined.

(** [kernel/sleeplock.h]; the spinlock [lk] is [LkBuf] or [LkInode]. *)
#[projections(primitive)] Record sleeplock : Type := mk_sleeplock {
  sl_locked : Z; (* is the lock held? *)
  sl_pid : Z; (* process holding lock *)
}.

#[export] Instance set_sl_locked : Setter sl_locked := λ f r,
  mk_sleeplock (f (sl_locked r)) (sl_pid r).
#[export] Instance set_sl_pid : Setter sl_pid := λ f r,
  mk_sleeplock (sl_locked r) (f (sl_pid r)).

#[export] Instance sleeplock_inhabited : Inhabited sleeplock := populate (mk_sleeplock 0 0).

(** [struct buf]; [prev] and [next] are indices in the buffer table, whose last
    entry is [bcache.head]. *)
#[projections(primitive)] Record buf : Type := mk_buf {
  b_valid : Z; (* has data been read from disk? *)
  b_disk : Z; (* does disk own buf? *)
  b_dev : Z;
  b_blockno : Z;
  b_refcnt : Z;
  b_prev : nat; (* LRU cache list *)
  b_next : nat;
  b_data : list Z; (* BSIZE bytes *)
}.

#[export] Instance set_b_valid : Setter b_valid := λ f r,
  mk_buf (f (b_valid r)) (b_disk r) (b_dev r) (b_blockno r) (b_refcnt r) (b_prev r)
  (b_next r) (b_data r).
#[export] Instance set_b_disk : Setter b_disk := λ f r,
  mk_buf (b_valid r) (f (b_disk r)) (b_dev r) (b_blockno r) (b_refcnt r) (b_prev r)
  (b_next r) (b_data r).
#[export] Instance set_b_dev : Setter b_dev := λ f r,
  mk_buf (b_valid r) (b_disk r) (f (b_dev r)) (b_blockno r) (b_refcnt r) (b_prev r)
  (b_next r) (b_data r).
#[export] Instance set_b_blockno : Setter b_blockno := λ f r,
  mk_buf (b_valid r) (b_disk r) (b_dev r) (f (b_blockno r)) (b_refcnt r) (b_prev r)
  (b_next r) (b_data r).
#[export] Instance set_b_refcnt : Setter b_refcnt := λ f r,
  mk_buf (b_valid r) (b_disk r) (b_dev r) (b_blockno r) (f (b_refcnt r)) (b_prev r)
  (b_next r) (b_data r).
#[export] Instance set_b_prev : Setter b_prev := λ f r,
  mk_buf (b_valid r) (b_disk r) (b_dev r) (b_blockno r) (b_refcnt r) (f (b_prev r))
  (b_next r) (b_data r).
#[export] Instance set_b_next : Setter b_next := λ f r,
  mk_buf (b_valid r) (b_disk r) (b_dev r) (b_blockno r) (b_refcnt r) (b_prev r) (f
  (b_next r)) (b_data r).
#[export] Instance set_b_data : Setter b_data := λ f r,
  mk_buf (b_valid r) (b_disk r) (b_dev r) (b_blockno r) (b_refcnt r) (b_prev r)
  (b_next r) (f (b_data r)).

Definition buf0 : buf := mk_buf 0 0 0 0 0 0 0 (replicate (Z.to_nat BSIZE) 0).
#[export] Instance buf_inhabited : Inhabited buf := populate buf0.

(** [struct log] with its [struct logheader]. *)
#[projections(primitive)] Record logstate : Type := mk_logstate {
  lg_start : Z;
  lg_outstanding : Z; (* how many FS sys calls are executing *)
  lg_committing : Z; (* in commit(), please wait *)
  lg_dev : Z;
  lh_n : Z; (* lh.n *)
  lh_block : list Z; (* lh.block[LOGBLOCKS] *)
}.

#[export] Instance set_lg_start : Setter lg_start := λ f r,
  mk_logstate (f (lg_start r)) (lg_outstanding r) (lg_committing r) (lg_dev r)
  (lh_n r) (lh_block r).
#[export] Instance set_lg_outstanding : Setter lg_outstanding := λ f r,
  mk_logstate (lg_start r) (f (lg_outstanding r)) (lg_committing r) (lg_dev r)
  (lh_n r) (lh_block r).
#[export] Instance set_lg_committing : Setter lg_committing := λ f r,
  mk_logstate (lg_start r) (lg_outstanding r) (f (lg_committing r)) (lg_dev r)
  (lh_n r) (lh_block r).
#[export] Instance set_lg_dev : Setter lg_dev := λ f r,
  mk_logstate (lg_start r) (lg_outstanding r) (lg_committing r) (f (lg_dev r))
  (lh_n r) (lh_block r).
#[export] Instance set_lh_n : Setter lh_n := λ f r,
  mk_logstate (lg_start r) (lg_outstanding r) (lg_committing r) (lg_dev r) (f
  (lh_n r)) (lh_block r).
#[export] Instance set_lh_block : Setter lh_block := λ f r,
  mk_logstate (lg_start r) (lg_outstanding r) (lg_committing r) (lg_dev r) (lh_n r) (f
  (lh_block r)).

(** [struct superblock]. *)
#[projections(primitive)] Record superblock : Type := mk_superblock {
  sb_magic : Z;
  sb_size : Z; (* size of file system image (blocks) *)
  sb_nblocks : Z;
  sb_ninodes : Z;
  sb_nlog : Z;
  sb_logstart : Z;
  sb_inodestart : Z;
  sb_bmapstart : Z;
}.

(** [struct inode]. *)
#[projections(primitive)] Record inode : Type := mk_inode {
  i_dev : Z;
  i_inum : Z;
  i_ref : Z; (* reference count *)
  i_valid : Z; (* inode has been read from disk? *)
  i_type : Z; (* copy of disk inode *)
  i_major : Z;
  i_minor : Z;
  i_nlink : Z;
  i_size : Z;
  i_addrs : list Z; (* NDIRECT+1 block numbers *)
}.

#[export] Instance set_i_dev : Setter i_dev := λ f r,
  mk_inode (f (i_dev r)) (i_inum r) (i_ref r) (i_valid r) (i_type r) (i_major r)
  (i_minor r) (i_nlink r) (i_size r) (i_addrs r).
#[export] Instance set_i_inum : Setter i_inum := λ f r,
  mk_inode (i_dev r) (f (i_inum r)) (i_ref r) (i_valid r) (i_type r) (i_major r)
  (i_minor r) (i_nlink r) (i_size r) (i_addrs r).
#[export] Instance set_i_ref : Setter i_ref := λ f r,
  mk_inode (i_dev r) (i_inum r) (f (i_ref r)) (i_valid r) (i_type r) (i_major r)
  (i_minor r) (i_nlink r) (i_size r) (i_addrs r).
#[export] Instance set_i_valid : Setter i_valid := λ f r,
  mk_inode (i_dev r) (i_inum r) (i_ref r) (f (i_valid r)) (i_type r) (i_major r)
  (i_minor r) (i_nlink r) (i_size r) (i_addrs r).
#[export] Instance set_i_type : Setter i_type := λ f r,
  mk_inode (i_dev r) (i_inum r) (i_ref r) (i_valid r) (f (i_type r)) (i_major r)
  (i_minor r) (i_nlink r) (i_size r) (i_addrs r).
#[export] Instance set_i_major : Setter i_major := λ f r,
  mk_inode (i_dev r) (i_inum r) (i_ref r) (i_valid r) (i_type r) (f (i_major r))
  (i_minor r) (i_nlink r) (i_size r) (i_addrs r).
#[export] Instance set_i_minor : Setter i_minor := λ f r,
  mk_inode (i_dev r) (i_inum r) (i_ref r) (i_valid r) (i_type r) (i_major r) (f
  (i_minor r)) (i_nlink r) (i_size r) (i_addrs r).
#[export] Instance set_i_nlink : Setter i_nlink := λ f r,
  mk_inode (i_dev r) (i_inum r) (i_ref r) (i_valid r) (i_type r) (i_major r)
  (i_minor r) (f (i_nlink r)) (i_size r) (i_addrs r).
#[export] Instance set_i_size : Setter i_size := λ f r,
  mk_inode (i_dev r) (i_inum r) (i_ref r) (i_valid r) (i_type r) (i_major r)
  (i_minor r) (i_nlink r) (f (i_size r)) (i_addrs r).
#[export] Instance set_i_addrs : Setter i_addrs := λ f r,
  mk_inode (i_dev r) (i_inum r) (i_ref r) (i_valid r) (i_type r) (i_major r)
  (i_minor r) (i_nlink r) (i_size r) (f (i_addrs r)).

Definition inode0 : inode := mk_inode 0 0 0 0 0 0 0 0 0 (replicate (S NDIRECT) 0).
#[export] Instance inode_inhabited : Inhabited inode := populate inode0.

(** ** Devices *)

(** The console's input buffer, [cons]. *)
#[projections(primitive)] Record console : Type := mk_console {
  cs_buf : list Z; (* INPUT_BUF_SIZE bytes *)
  cs_r : Z; (* read index *)
  cs_w : Z; (* write index *)
  cs_e : Z; (* edit index *)
}.

#[export] Instance set_cs_buf : Setter cs_buf := λ f r,
  mk_console (f (cs_buf r)) (cs_r r) (cs_w r) (cs_e r).
#[export] Instance set_cs_r : Setter cs_r := λ f r,
  mk_console (cs_buf r) (f (cs_r r)) (cs_w r) (cs_e r).
#[export] Instance set_cs_w : Setter cs_w := λ f r,
  mk_console (cs_buf r) (cs_r r) (f (cs_w r)) (cs_e r).
#[export] Instance set_cs_e : Setter cs_e := λ f r,
  mk_console (cs_buf r) (cs_r r) (cs_w r) (f (cs_e r)).

(** The functions [devsw] points to. *)
Inductive dev_fn : Type := consoleread_fn | consolewrite_fn.

(** What a DMA descriptor points to. *)
Inductive dma : Type :=
| DmaNull
| DmaOp (i : nat)      (* &disk.ops[i] *)
| DmaData (b : nat)    (* b->data *)
| DmaStatus (i : nat). (* &disk.info[i].status *)

(** [struct virtq_desc]. *)
#[projections(primitive)] Record virtq_desc : Type := mk_virtq_desc {
  vq_addr : dma;
  vq_len : Z;
  vq_flags : Z;
  vq_next : Z;
}.

#[export] Instance set_vq_addr : Setter vq_addr := λ f r,
  mk_virtq_desc (f (vq_addr r)) (vq_len r) (vq_flags r) (vq_next r).
#[export] Instance set_vq_len : Setter vq_len := λ f r,
  mk_virtq_desc (vq_addr r) (f (vq_len r)) (vq_flags r) (vq_next r).
#[export] Instance set_vq_flags : Setter vq_flags := λ f r,
  mk_virtq_desc (vq_addr r) (vq_len r) (f (vq_flags r)) (vq_next r).
#[export] Instance set_vq_next : Setter vq_next := λ f r,
  mk_virtq_desc (vq_addr r) (vq_len r) (vq_flags r) (f (vq_next r)).

#[export] Instance virtq_desc_inhabited : Inhabited virtq_desc := populate (mk_virtq_desc DmaNull 0 0 0).

(** [struct virtio_blk_req]. *)
#[projections(primitive)] Record blk_req : Type := mk_blk_req {
  rq_type : Z;
  rq_reserved : Z;
  rq_sector : Z;
}.

#[export] Instance blk_req_inhabited : Inhabited blk_req := populate (mk_blk_req 0 0 0).

(** The driver's [struct disk], with the rings in the pages it allocates. *)
#[projections(primitive)] Record vdisk : Type := mk_vdisk {
  vd_desc_page : Z; (* the pages of desc, avail and used *)
  vd_avail_page : Z;
  vd_used_page : Z;
  vd_desc : list virtq_desc; (* desc[NUM] *)
  vd_avail_idx : Z; (* avail->idx *)
  vd_avail_ring : list Z; (* avail->ring[NUM] *)
  vd_dev_idx : Z; (* used->idx, written by the device *)
  vd_used_ring : list Z; (* the ids of used->ring[NUM] *)
  vd_free : list Z; (* is a descriptor free? *)
  vd_used_idx : Z; (* we have looked this far in used *)
  vd_info_b : list (option nat); (* info[NUM].b *)
  vd_info_status : list Z; (* info[NUM].status *)
  vd_ops : list blk_req; (* ops[NUM] *)
}.

#[export] Instance set_vd_desc_page : Setter vd_desc_page := λ f r,
  mk_vdisk (f (vd_desc_page r)) (vd_avail_page r) (vd_used_page r) (vd_desc r)
  (vd_avail_idx r) (vd_avail_ring r) (vd_dev_idx r) (vd_used_ring r) (vd_free r)
  (vd_used_idx r) (vd_info_b r) (vd_info_status r) (vd_ops r).
#[export] Instance set_vd_avail_page : Setter vd_avail_page := λ f r,
  mk_vdisk (vd_desc_page r) (f (vd_avail_page r)) (vd_used_page r) (vd_desc r)
  (vd_avail_idx r) (vd_avail_ring r) (vd_dev_idx r) (vd_used_ring r) (vd_free r)
  (vd_used_idx r) (vd_info_b r) (vd_info_status r) (vd_ops r).
#[export] Instance set_vd_used_page : Setter vd_used_page := λ f r,
  mk_vdisk (vd_desc_page r) (vd_avail_page r) (f (vd_used_page r)) (vd_desc r)
  (vd_avail_idx r) (vd_avail_ring r) (vd_dev_idx r) (vd_used_ring r) (vd_free r)
  (vd_used_idx r) (vd_info_b r) (vd_info_status r) (vd_ops r).
#[export] Instance set_vd_desc : Setter vd_desc := λ f r,
  mk_vdisk (vd_desc_page r) (vd_avail_page r) (vd_used_page r) (f (vd_desc r))
  (vd_avail_idx r) (vd_avail_ring r) (vd_dev_idx r) (vd_used_ring r) (vd_free r)
  (vd_used_idx r) (vd_info_b r) (vd_info_status r) (vd_ops r).
#[export] Instance set_vd_avail_idx : Setter vd_avail_idx := λ f r,
  mk_vdisk (vd_desc_page r) (vd_avail_page r) (vd_used_page r) (vd_desc r) (f
  (vd_avail_idx r)) (vd_avail_ring r) (vd_dev_idx r) (vd_used_ring r) (vd_free r)
  (vd_used_idx r) (vd_info_b r) (vd_info_status r) (vd_ops r).
#[export] Instance set_vd_avail_ring : Setter vd_avail_ring := λ f r,
  mk_vdisk (vd_desc_page r) (vd_avail_page r) (vd_used_page r) (vd_desc r)
  (vd_avail_idx r) (f (vd_avail_ring r)) (vd_dev_idx r) (vd_used_ring r) (vd_free r)
  (vd_used_idx r) (vd_info_b r) (vd_info_status r) (vd_ops r).
#[export] Instance set_vd_dev_idx : Setter vd_dev_idx := λ f r,
  mk_vdisk (vd_desc_page r) (vd_avail_page r) (vd_used_page r) (vd_desc r)
  (vd_avail_idx r) (vd_avail_ring r) (f (vd_dev_idx r)) (vd_used_ring r) (vd_free r)
  (vd_used_idx r) (vd_info_b r) (vd_info_status r) (vd_ops r).
#[export] Instance set_vd_used_ring : Setter vd_used_ring := λ f r,
  mk_vdisk (vd_desc_page r) (vd_avail_page r) (vd_used_page r) (vd_desc r)
  (vd_avail_idx r) (vd_avail_ring r) (vd_dev_idx r) (f (vd_used_ring r)) (vd_free r)
  (vd_used_idx r) (vd_info_b r) (vd_info_status r) (vd_ops r).
#[export] Instance set_vd_free : Setter vd_free := λ f r,
  mk_vdisk (vd_desc_page r) (vd_avail_page r) (vd_used_page r) (vd_desc r)
  (vd_avail_idx r) (vd_avail_ring r) (vd_dev_idx r) (vd_used_ring r) (f (vd_free r))
  (vd_used_idx r) (vd_info_b r) (vd_info_status r) (vd_ops r).
#[export] Instance set_vd_used_idx : Setter vd_used_idx := λ f r,
  mk_vdisk (vd_desc_page r) (vd_avail_page r) (vd_used_page r) (vd_desc r)
  (vd_avail_idx r) (vd_avail_ring r) (vd_dev_idx r) (vd_used_ring r) (vd_free r) (f
  (vd_used_idx r)) (vd_info_b r) (vd_info_status r) (vd_ops r).
#[export] Instance set_vd_info_b : Setter vd_info_b := λ f r,
  mk_vdisk (vd_desc_page r) (vd_avail_page r) (vd_used_page r) (vd_desc r)
  (vd_avail_idx r) (vd_avail_ring r) (vd_dev_idx r) (vd_used_ring r) (vd_free r)
  (vd_used_idx r) (f (vd_info_b r)) (vd_info_status r) (vd_ops r).
#[export] Instance set_vd_info_status : Setter vd_info_status := λ f r,
  mk_vdisk (vd_desc_page r) (vd_avail_page r) (vd_used_page r) (vd_desc r)
  (vd_avail_idx r) (vd_avail_ring r) (vd_dev_idx r) (vd_used_ring r) (vd_free r)
  (vd_used_idx r) (vd_info_b r) (f (vd_info_status r)) (vd_ops r).
#[export] Instance set_vd_ops : Setter vd_ops := λ f r,
  mk_vdisk (vd_desc_page r) (vd_avail_page r) (vd_used_page r) (vd_desc r)
  (vd_avail_idx r) (vd_avail_ring r) (vd_dev_idx r) (vd_used_ring r) (vd_free r)
  (vd_used_idx r) (vd_info_b r) (vd_info_status r) (f (vd_ops r)).

(** ** The kernel's global variables *)

(** All state the modelled kernel code reads and writes. *)
#[projections(primitive)] Record kernel : Type := mk_kernel {
  mach : machine;
  mem : gmap Z Z; (* physical memory, a byte per address *)
  freelist : Z; (* kmem.freelist *)
  kernel_pagetable : Z;
  procs : list proc; (* proc[NPROC] *)
  initproc : option nat;
  nextpid : Z;
  starvation_counter : Z;
  forkret_first : Z; (* forkret's static first *)
  ticks : Z;
  ftable : list file; (* ftable.file[NFILE] *)
  pipes : gmap Z pipe; (* the struct pipe at a page kalloc returned *)
  sleeplocks : gmap slid sleeplock;
  bufs : list buf; (* bcache.buf[NBUF], then bcache.head *)
  log : logstate;
  sb : superblock;
  itable : list inode; (* itable.inode[NINODE] *)
  cons : console;
  devsw_read : list (option dev_fn); (* devsw[NDEV].read *)
  devsw_write : list (option dev_fn);
  tx_busy : Z; (* is the UART busy sending? *)
  panicking : Z;
  panicked : Z;
  vdisk_state : vdisk; (* the disk driver *)
  started : Z;
  mmio : list (Z * Z); (* the device register writes so far: address, value *)
  uart_reads : nat; (* how many times a UART register was read *)
  plic_reads : nat;
  virtio_reads : nat;
  image : gmap Z (list Z); (* the blocks on the disk *)
  writes : list (Z * list Z); (* the block writes the disk has performed, in order *)
}.

#[export] Instance set_mach : Setter mach := λ f r,
  mk_kernel (f (mach r)) (mem r) (freelist r) (kernel_pagetable r) (procs r)
  (initproc r) (nextpid r) (starvation_counter r) (forkret_first r) (ticks r)
  (ftable r) (pipes r) (sleeplocks r) (bufs r) (log r) (sb r) (itable r) (cons r)
  (devsw_read r) (devsw_write r) (tx_busy r) (panicking r) (panicked r)
  (vdisk_state r) (started r) (mmio r) (uart_reads r) (plic_reads r) (virtio_reads r)
  (image r) (writes r).
#[export] Instance set_mem : Setter mem := λ f r,
  mk_kernel (mach r) (f (mem r)) (freelist r) (kernel_pagetable r) (procs r)
  (initproc r) (nextpid r) (starvation_counter r) (forkret_first r) (ticks r)
  (ftable r) (pipes r) (sleeplocks r) (bufs r) (log r) (sb r) (itable r) (cons r)
  (devsw_read r) (devsw_write r) (tx_busy r) (panicking r) (panicked r)
  (vdisk_state r) (started r) (mmio r) (uart_reads r) (plic_reads r) (virtio_reads r)
  (image r) (writes r).
#[export] Instance set_freelist : Setter freelist := λ f r,
  mk_kernel (mach r) (mem r) (f (freelist r)) (kernel_pagetable r) (procs r)
  (initproc r) (nextpid r) (starvation_counter r) (forkret_first r) (ticks r)
  (ftable r) (pipes r) (sleeplocks r) (bufs r) (log r) (sb r) (itable r) (cons r)
  (devsw_read r) (devsw_write r) (tx_busy r) (panicking r) (panicked r)
  (vdisk_state r) (started r) (mmio r) (uart_reads r) (plic_reads r) (virtio_reads r)
  (image r) (writes r).
#[export] Instance set_kernel_pagetable : Setter kernel_pagetable := λ f r,
  mk_kernel (mach r) (mem r) (freelist r) (f (kernel_pagetable r)) (procs r)
  (initproc r) (nextpid r) (starvation_counter r) (forkret_first r) (ticks r)
  (ftable r) (pipes r) (sleeplocks r) (bufs r) (log r) (sb r) (itable r) (cons r)
  (devsw_read r) (devsw_write r) (tx_busy r) (panicking r) (panicked r)
  (vdisk_state r) (started r) (mmio r) (uart_reads r) (plic_reads r) (virtio_reads r)
  (image r) (writes r).
#[export] Instance set_procs : Setter procs := λ f r,
  mk_kernel (mach r) (mem r) (freelist r) (kernel_pagetable r) (f (procs r))
  (initproc r) (nextpid r) (starvation_counter r) (forkret_first r) (ticks r)
  (ftable r) (pipes r) (sleeplocks r) (bufs r) (log r) (sb r) (itable r) (cons r)
  (devsw_read r) (devsw_write r) (tx_busy r) (panicking r) (panicked r)
  (vdisk_state r) (started r) (mmio r) (uart_reads r) (plic_reads r) (virtio_reads r)
  (image r) (writes r).
#[export] Instance set_initproc : Setter initproc := λ f r,
  mk_kernel (mach r) (mem r) (freelist r) (kernel_pagetable r) (procs r) (f
  (initproc r)) (nextpid r) (starvation_counter r) (forkret_first r) (ticks r)
  (ftable r) (pipes r) (sleeplocks r) (bufs r) (log r) (sb r) (itable r) (cons r)
  (devsw_read r) (devsw_write r) (tx_busy r) (panicking r) (panicked r)
  (vdisk_state r) (started r) (mmio r) (uart_reads r) (plic_reads r) (virtio_reads r)
  (image r) (writes r).
#[export] Instance set_nextpid : Setter nextpid := λ f r,
  mk_kernel (mach r) (mem r) (freelist r) (kernel_pagetable r) (procs r) (initproc r)
  (f (nextpid r)) (starvation_counter r) (forkret_first r) (ticks r) (ftable r)
  (pipes r) (sleeplocks r) (bufs r) (log r) (sb r) (itable r) (cons r) (devsw_read r)
  (devsw_write r) (tx_busy r) (panicking r) (panicked r) (vdisk_state r) (started r)
  (mmio r) (uart_reads r) (plic_reads r) (virtio_reads r) (image r) (writes r).
#[export] Instance set_starvation_counter : Setter starvation_counter := λ f r,
  mk_kernel (mach r) (mem r) (freelist r) (kernel_pagetable r) (procs r) (initproc r)
  (nextpid r) (f (starvation_counter r)) (forkret_first r) (ticks r) (ftable r)
  (pipes r) (sleeplocks r) (bufs r) (log r) (sb r) (itable r) (cons r) (devsw_read r)
  (devsw_write r) (tx_busy r) (panicking r) (panicked r) (vdisk_state r) (started r)
  (mmio r) (uart_reads r) (plic_reads r) (virtio_reads r) (image r) (writes r).
#[export] Instance set_forkret_first : Setter forkret_first := λ f r,
  mk_kernel (mach r) (mem r) (freelist r) (kernel_pagetable r) (procs r) (initproc r)
  (nextpid r) (starvation_counter r) (f (forkret_first r)) (ticks r) (ftable r)
  (pipes r) (sleeplocks r) (bufs r) (log r) (sb r) (itable r) (cons r) (devsw_read r)
  (devsw_write r) (tx_busy r) (panicking r) (panicked r) (vdisk_state r) (started r)
  (mmio r) (uart_reads r) (plic_reads r) (virtio_reads r) (image r) (writes r).
#[export] Instance set_ticks : Setter ticks := λ f r,
  mk_kernel (mach r) (mem r) (freelist r) (kernel_pagetable r) (procs r) (initproc r)
  (nextpid r) (starvation_counter r) (forkret_first r) (f (ticks r)) (ftable r)
  (pipes r) (sleeplocks r) (bufs r) (log r) (sb r) (itable r) (cons r) (devsw_read r)
  (devsw_write r) (tx_busy r) (panicking r) (panicked r) (vdisk_state r) (started r)
  (mmio r) (uart_reads r) (plic_reads r) (virtio_reads r) (image r) (writes r).
#[export] Instance set_ftable : Setter ftable := λ f r,
  mk_kernel (mach r) (mem r) (freelist r) (kernel_pagetable r) (procs r) (initproc r)
  (nextpid r) (starvation_counter r) (forkret_first r) (ticks r) (f (ftable r))
  (pipes r) (sleeplocks r) (bufs r) (log r) (sb r) (itable r) (cons r) (devsw_read r)
  (devsw_write r) (tx_busy r) (panicking r) (panicked r) (vdisk_state r) (started r)
  (mmio r) (uart_reads r) (plic_reads r) (virtio_reads r) (image r) (writes r).
#[export] Instance set_pipes : Setter pipes := λ f r,
  mk_kernel (mach r) (mem r) (freelist r) (kernel_pagetable r) (procs r) (initproc r)
  (nextpid r) (starvation_counter r) (forkret_first r) (ticks r) (ftable r) (f
  (pipes r)) (sleeplocks r) (bufs r) (log r) (sb r) (itable r) (cons r) (devsw_read r)
  (devsw_write r) (tx_busy r) (panicking r) (panicked r) (vdisk_state r) (started r)
  (mmio r) (uart_reads r) (plic_reads r) (virtio_reads r) (image r) (writes r).
#[export] Instance set_sleeplocks : Setter sleeplocks := λ f r,
  mk_kernel (mach r) (mem r) (freelist r) (kernel_pagetable r) (procs r) (initproc r)
  (nextpid r) (starvation_counter r) (forkret_first r) (ticks r) (ftable r) (pipes r)
  (f (sleeplocks r)) (bufs r) (log r) (sb r) (itable r) (cons r) (devsw_read r)
  (devsw_write r) (tx_busy r) (panicking r) (panicked r) (vdisk_state r) (started r)
  (mmio r) (uart_reads r) (plic_reads r) (virtio_reads r) (image r) (writes r).
#[export] Instance set_bufs : Setter bufs := λ f r,
  mk_kernel (mach r) (mem r) (freelist r) (kernel_pagetable r) (procs r) (initproc r)
  (nextpid r) (starvation_counter r) (forkret_first r) (ticks r) (ftable r) (pipes r)
  (sleeplocks r) (f (bufs r)) (log r) (sb r) (itable r) (cons r) (devsw_read r)
  (devsw_write r) (tx_busy r) (panicking r) (panicked r) (vdisk_state r) (started r)
  (mmio r) (uart_reads r) (plic_reads r) (virtio_reads r) (image r) (writes r).
#[export] Instance set_log : Setter log := λ f r,
  mk_kernel (mach r) (mem r) (freelist r) (kernel_pagetable r) (procs r) (initproc r)
  (nextpid r) (starvation_counter r) (forkret_first r) (ticks r) (ftable r) (pipes r)
  (sleeplocks r) (bufs r) (f (log r)) (sb r) (itable r) (cons r) (devsw_read r)
  (devsw_write r) (tx_busy r) (panicking r) (panicked r) (vdisk_state r) (started r)
  (mmio r) (uart_reads r) (plic_reads r) (virtio_reads r) (image r) (writes r).
#[export] Instance set_sb : Setter sb := λ f r,
  mk_kernel (mach r) (mem r) (freelist r) (kernel_pagetable r) (procs r) (initproc r)
  (nextpid r) (starvation_counter r) (forkret_first r) (ticks r) (ftable r) (pipes r)
  (sleeplocks r) (bufs r) (log r) (f (sb r)) (itable r) (cons r) (devsw_read r)
  (devsw_write r) (tx_busy r) (panicking r) (panicked r) (vdisk_state r) (started r)
  (mmio r) (uart_reads r) (plic_reads r) (virtio_reads r) (image r) (writes r).
#[export] Instance set_itable : Setter itable := λ f r,
  mk_kernel (mach r) (mem r) (freelist r) (kernel_pagetable r) (procs r) (initproc r)
  (nextpid r) (starvation_counter r) (forkret_first r) (ticks r) (ftable r) (pipes r)
  (sleeplocks r) (bufs r) (log r) (sb r) (f (itable r)) (cons r) (devsw_read r)
  (devsw_write r) (tx_busy r) (panicking r) (panicked r) (vdisk_state r) (started r)
  (mmio r) (uart_reads r) (plic_reads r) (virtio_reads r) (image r) (writes r).
#[export] Instance set_cons : Setter cons := λ f r,
  mk_kernel (mach r) (mem r) (freelist r) (kernel_pagetable r) (procs r) (initproc r)
  (nextpid r) (starvation_counter r) (forkret_first r) (ticks r) (ftable r) (pipes r)
  (sleeplocks r) (bufs r) (log r) (sb r) (itable r) (f (cons r)) (devsw_read r)
  (devsw_write r) (tx_busy r) (panicking r) (panicked r) (vdisk_state r) (started r)
  (mmio r) (uart_reads r) (plic_reads r) (virtio_reads r) (image r) (writes r).
#[export] Instance set_devsw_read : Setter devsw_read := λ f r,
  mk_kernel (mach r) (mem r) (freelist r) (kernel_pagetable r) (procs r) (initproc r)
  (nextpid r) (starvation_counter r) (forkret_first r) (ticks r) (ftable r) (pipes r)
  (sleeplocks r) (bufs r) (log r) (sb r) (itable r) (cons r) (f (devsw_read r))
  (devsw_write r) (tx_busy r) (panicking r) (panicked r) (vdisk_state r) (started r)
  (mmio r) (uart_reads r) (plic_reads r) (virtio_reads r) (image r) (writes r).
#[export] Instance set_devsw_write : Setter devsw_write := λ f r,
  mk_kernel (mach r) (mem r) (freelist r) (kernel_pagetable r) (procs r) (initproc r)
  (nextpid r) (starvation_counter r) (forkret_first r) (ticks r) (ftable r) (pipes r)
  (sleeplocks r) (bufs r) (log r) (sb r) (itable r) (cons r) (devsw_read r) (f
  (devsw_write r)) (tx_busy r) (panicking r) (panicked r) (vdisk_state r) (started r)
  (mmio r) (uart_reads r) (plic_reads r) (virtio_reads r) (image r) (writes r).
#[export] Instance set_tx_busy : Setter tx_busy := λ f r,
  mk_kernel (mach r) (mem r) (freelist r) (kernel_pagetable r) (procs r) (initproc r)
  (nextpid r) (starvation_counter r) (forkret_first r) (ticks r) (ftable r) (pipes r)
  (sleeplocks r) (bufs r) (log r) (sb r) (itable r) (cons r) (devsw_read r)
  (devsw_write r) (f (tx_busy r)) (panicking r) (panicked r) (vdisk_state r)
  (started r) (mmio r) (uart_reads r) (plic_reads r) (virtio_reads r) (image r)
  (writes r).
#[export] Instance set_panicking : Setter panicking := λ f r,
  mk_kernel (mach r) (mem r) (freelist r) (kernel_pagetable r) (procs r) (initproc r)
  (nextpid r) (starvation_counter r) (forkret_first r) (ticks r) (ftable r) (pipes r)
  (sleeplocks r) (bufs r) (log r) (sb r) (itable r) (cons r) (devsw_read r)
  (devsw_write r) (tx_busy r) (f (panicking r)) (panicked r) (vdisk_state r)
  (started r) (mmio r) (uart_reads r) (plic_reads r) (virtio_reads r) (image r)
  (writes r).
#[export] Instance set_panicked : Setter panicked := λ f r,
  mk_kernel (mach r) (mem r) (freelist r) (kernel_pagetable r) (procs r) (initproc r)
  (nextpid r) (starvation_counter r) (forkret_first r) (ticks r) (ftable r) (pipes r)
  (sleeplocks r) (bufs r) (log r) (sb r) (itable r) (cons r) (devsw_read r)
  (devsw_write r) (tx_busy r) (panicking r) (f (panicked r)) (vdisk_state r)
  (started r) (mmio r) (uart_reads r) (plic_reads r) (virtio_reads r) (image r)
  (writes r).
#[export] Instance set_vdisk_state : Setter vdisk_state := λ f r,
  mk_kernel (mach r) (mem r) (freelist r) (kernel_pagetable r) (procs r) (initproc r)
  (nextpid r) (starvation_counter r) (forkret_first r) (ticks r) (ftable r) (pipes r)
  (sleeplocks r) (bufs r) (log r) (sb r) (itable r) (cons r) (devsw_read r)
  (devsw_write r) (tx_busy r) (panicking r) (panicked r) (f (vdisk_state r))
  (started r) (mmio r) (uart_reads r) (plic_reads r) (virtio_reads r) (image r)
  (writes r).
#[export] Instance set_started : Setter started := λ f r,
  mk_kernel (mach r) (mem r) (freelist r) (kernel_pagetable r) (procs r) (initproc r)
  (nextpid r) (starvation_counter r) (forkret_first r) (ticks r) (ftable r) (pipes r)
  (sleeplocks r) (bufs r) (log r) (sb r) (itable r) (cons r) (devsw_read r)
  (devsw_write r) (tx_busy r) (panicking r) (panicked r) (vdisk_state r) (f
  (started r)) (mmio r) (uart_reads r) (plic_reads r) (virtio_reads r) (image r)
  (writes r).
#[export] Instance set_mmio : Setter mmio := λ f r,
  mk_kernel (mach r) (mem r) (freelist r) (kernel_pagetable r) (procs r) (initproc r)
  (nextpid r) (starvation_counter r) (forkret_first r) (ticks r) (ftable r) (pipes r)
  (sleeplocks r) (bufs r) (log r) (sb r) (itable r) (cons r) (devsw_read r)
  (devsw_write r) (tx_busy r) (panicking r) (panicked r) (vdisk_state r) (started r)
  (f (mmio r)) (uart_reads r) (plic_reads r) (virtio_reads r) (image r) (writes r).
#[export] Instance set_uart_reads : Setter uart_reads := λ f r,
  mk_kernel (mach r) (mem r) (freelist r) (kernel_pagetable r) (procs r) (initproc r)
  (nextpid r) (starvation_counter r) (forkret_first r) (ticks r) (ftable r) (pipes r)
  (sleeplocks r) (bufs r) (log r) (sb r) (itable r) (cons r) (devsw_read r)
  (devsw_write r) (tx_busy r) (panicking r) (panicked r) (vdisk_state r) (started r)
  (mmio r) (f (uart_reads r)) (plic_reads r) (virtio_reads r) (image r) (writes r).
#[export] Instance set_plic_reads : Setter plic_reads := λ f r,
  mk_kernel (mach r) (mem r) (freelist r) (kernel_pagetable r) (procs r) (initproc r)
  (nextpid r) (starvation_counter r) (forkret_first r) (ticks r) (ftable r) (pipes r)
  (sleeplocks r) (bufs r) (log r) (sb r) (itable r) (cons r) (devsw_read r)
  (devsw_write r) (tx_busy r) (panicking r) (panicked r) (vdisk_state r) (started r)
  (mmio r) (uart_reads r) (f (plic_reads r)) (virtio_reads r) (image r) (writes r).
#[export] Instance set_virtio_reads : Setter virtio_reads := λ f r,
  mk_kernel (mach r) (mem r) (freelist r) (kernel_pagetable r) (procs r) (initproc r)
  (nextpid r) (starvation_counter r) (forkret_first r) (ticks r) (ftable r) (pipes r)
  (sleeplocks r) (bufs r) (log r) (sb r) (itable r) (cons r) (devsw_read r)
  (devsw_write r) (tx_busy r) (panicking r) (panicked r) (vdisk_state r) (started r)
  (mmio r) (uart_reads r) (plic_reads r) (f (virtio_reads r)) (image r) (writes r).
#[export] Instance set_image : Setter image := λ f r,
  mk_kernel (mach r) (mem r) (freelist r) (kernel_pagetable r) (procs r) (initproc r)
  (nextpid r) (starvation_counter r) (forkret_first r) (ticks r) (ftable r) (pipes r)
  (sleeplocks r) (bufs r) (log r) (sb r) (itable r) (cons r) (devsw_read r)
  (devsw_write r) (tx_busy r) (panicking r) (panicked r) (vdisk_state r) (started r)
  (mmio r) (uart_reads r) (plic_reads r) (virtio_reads r) (f (image r)) (writes r).
#[export] Instance set_writes : Setter writes := λ f r,
  mk_kernel (mach r) (mem r) (freelist r) (kernel_pagetable r) (procs r) (initproc r)
  (nextpid r) (starvation_counter r) (forkret_first r) (ticks r) (ftable r) (pipes r)
  (sleeplocks r) (bufs r) (log r) (sb r) (itable r) (cons r) (devsw_read r)
  (devsw_write r) (tx_busy r) (panicking r) (panicked r) (vdisk_state r) (started r)
  (mmio r) (uart_reads r) (plic_reads r) (virtio_reads r) (image r) (f (writes r)).

(** The state the kernel starts from: its global variables as the C program
    initializes them, the harts reset, empty memory. *)
Definition kernel_init : kernel := mk_kernel
  (mk_machine 0 (replicate NCPU inhabitant) (replicate NCPU inhabitant) ∅)
  ∅
  0
  0
  (replicate NPROC proc0)
  None
  1
  0
  1
  0
  (replicate NFILE inhabitant)
  ∅
  ∅
  (replicate (S NBUF) inhabitant)
  (mk_logstate 0 0 0 0 0 (replicate (Z.to_nat LOGBLOCKS) 0))
  (mk_superblock 0 0 0 0 0 0 0 0)
  (replicate NINODE inhabitant)
  (mk_console (replicate 128 0) 0 0 0)
  (replicate (Z.to_nat NDEV) None)
  (replicate (Z.to_nat NDEV) None)
  0
  0
  0
  (mk_vdisk 0 0 0 [] 0 [] 0 [] (replicate 8 0) 0 (replicate 8 None) (replicate 8 0) (replicate 8 inhabitant))
  0
  []
  0%nat
  0%nat
  0%nat
  ∅
  [].

(** [kcbv] computes field reads and updates of a kernel state; [keq] compares
    two states field by field. *)
Ltac kcbv :=
  cbv [set
    set_mach set_mem set_freelist set_kernel_pagetable set_procs set_initproc
    set_nextpid set_starvation_counter set_forkret_first set_ticks set_ftable set_pipes
    set_sleeplocks set_bufs set_log set_sb set_itable set_cons set_devsw_read
    set_devsw_write set_tx_busy set_panicking set_panicked set_vdisk_state set_started
    set_mmio set_uart_reads set_plic_reads set_virtio_reads set_image set_writes mach
    mem freelist kernel_pagetable procs initproc nextpid starvation_counter
    forkret_first ticks ftable pipes sleeplocks bufs log sb itable cons devsw_read
    devsw_write tx_busy panicking panicked vdisk_state started mmio uart_reads
    plic_reads virtio_reads image writes].
Ltac keq := kcbv; reflexivity.
Ltac kcbn :=
  cbn [set
    set_mach set_mem set_freelist set_kernel_pagetable set_procs set_initproc
    set_nextpid set_starvation_counter set_forkret_first set_ticks set_ftable set_pipes
    set_sleeplocks set_bufs set_log set_sb set_itable set_cons set_devsw_read
    set_devsw_write set_tx_busy set_panicking set_panicked set_vdisk_state set_started
    set_mmio set_uart_reads set_plic_reads set_virtio_reads set_image set_writes mach
    mem freelist kernel_pagetable procs initproc nextpid starvation_counter
    forkret_first ticks ftable pipes sleeplocks bufs log sb itable cons devsw_read
    devsw_write tx_busy panicking panicked vdisk_state started mmio uart_reads
    plic_reads virtio_reads image writes].
Tactic Notation "kcbn" "in" hyp(H) :=
  cbn [set
    set_mach set_mem set_freelist set_kernel_pagetable set_procs set_initproc
    set_nextpid set_starvation_counter set_forkret_first set_ticks set_ftable set_pipes
    set_sleeplocks set_bufs set_log set_sb set_itable set_cons set_devsw_read
    set_devsw_write set_tx_busy set_panicking set_panicked set_vdisk_state set_started
    set_mmio set_uart_reads set_plic_reads set_virtio_reads set_image set_writes mach
    mem freelist kernel_pagetable procs initproc nextpid starvation_counter
    forkret_first ticks ftable pipes sleeplocks bufs log sb itable cons devsw_read
    devsw_write tx_busy panicking panicked vdisk_state started mmio uart_reads
    plic_reads virtio_reads image writes] in H.

(** [pcbn] computes field reads of an updated process. *)
Ltac pcbn :=
  cbn [set
    set_p_state set_p_chan set_p_killed set_p_xstate set_p_pid set_p_parent set_p_kstack
    set_p_sz set_p_pagetable set_p_trapframe set_p_context set_p_ofile set_p_cwd
    set_p_name set_p_priority set_p_timeslice set_p_timeslice_used set_p_cpu_ticks
    set_p_sched_count set_p_yielded_io set_p_start_time set_p_end_time set_p_first_run
    set_p_total_wait set_p_last_scheduled p_state p_chan p_killed p_xstate p_pid
    p_parent p_kstack p_sz p_pagetable p_trapframe p_context p_ofile p_cwd p_name
    p_priority p_timeslice p_timeslice_used p_cpu_ticks p_sched_count p_yielded_io
    p_start_time p_end_time p_first_run p_total_wait p_last_scheduled].

Abbreviation M := (ST kernel).

(** ** Outside the code

    What the kernel's code meets and does not control.  [w_run] is what the
    other threads, the interrupts and the devices do from the moment a thread
    is switched out until it is switched in again, or [None] if it never is.
    [w_uart n r], [w_plic n] and [w_virtio n r] are the values the devices
    return on the [n]th read.  [w_pad] is what a structure's padding bytes on
    the stack happen to hold.  A loop that waits is cut off after [w_fuel]
    rounds in the outcome [Spin], which is not a return. *)
Class World : Type := {
  w_run : kernel -> option kernel;
  w_fuel : nat;
  w_uart : nat -> Z -> Z;
  w_plic : nat -> Z;
  w_virtio : nat -> Z -> Z;
  w_pad : list Z;
}.

(** Running code of the locks and harts inside the kernel state. *)
Definition on_mach {A} (m : ST machine A) : M A := λ k,
  match m (mach k) with
  | Ret a m' => Ret a (k <| mach := m' |>)
  | Panic msg m' => Panic msg (k <| mach := m' |>)
  | Switch m' => Switch (k <| mach := m' |>)
  | Spin m' => Spin (k <| mach := m' |>)
  end.
