(* ===== verification/Spinlock.v ===== *)
(** * Spinlocks and interrupt nesting: [kernel/spinlock.c]

    The code runs on the [machine] part of the kernel state: the harts'
    interrupt-enable bits, the per-CPU nesting counters and the lock store.
    The main result, [critical_section], is what every client uses: code
    bracketed by [acquire] and [release] of a free lock, and that does not
    itself use locks, behaves as if the brackets were not there, except that
    [intena] of the executing CPU records the interrupt state ([touch]). *)
From S2P Require Import Prelude Layout KState.

(** ** The code, on the machine state *)
Module Hart.

Definition cpuid : ST machine nat := gets m_hart.
Definition mycpu : ST machine nat := cpuid.
Definition read_cpu {A} (f : cpu -> A) : ST machine A :=
  gets (λ m, f (m_cpus m !!! m_hart m)).
Definition write_cpu (f : cpu -> cpu) : ST machine () :=
  modify (λ m, m <| m_cpus ::= upd (m_hart m) f |>).
Definition read_csr {A} (f : csrs -> A) : ST machine A :=
  gets (λ m, f (m_csrs m !!! m_hart m)).
Definition write_csr (f : csrs -> csrs) : ST machine () :=
  modify (λ m, m <| m_csrs ::= upd (m_hart m) f |>).
Definition read_lock (l : lockid) : ST machine spinlock := gets (λ m, m_locks m !!! l).
Definition write_lock (l : lockid) (f : spinlock -> spinlock) : ST machine () :=
  modify (λ m, m <| m_locks ::= <[l := f (m_locks m !!! l)]> |>).

(** [kernel/riscv.h] *)
Definition intr_on : ST machine () :=
  write_csr (λ r, r <| r_sstatus ::= λ x, Z.lor x SSTATUS_SIE |>).
Definition intr_off : ST machine () :=
  write_csr (λ r, r <| r_sstatus ::= λ x, Z.land x (Z.lnot SSTATUS_SIE) |>).
Definition intr_get : ST machine bool :=
  read_csr (λ r, negb (Z.land (r_sstatus r) SSTATUS_SIE =? 0)).

Definition initlock (l : lockid) : ST machine () :=
  modify (λ m, m <| m_locks ::= <[l := mk_spinlock 0 None]> |>).

Definition holding (l : lockid) : ST machine bool :=
  lk ← read_lock l;
  c ← mycpu;
  mret (negb (lk_locked lk =? 0) && bool_decide (lk_cpu lk = Some c)).

Definition push_off : ST machine () :=
  old ← intr_get;
  intr_off ;;
  noff ← read_cpu c_noff;
  when (noff =? 0) (write_cpu (λ c, c <| c_intena := Z.b2z old |>)) ;;
  write_cpu (λ c, c <| c_noff ::= λ n, i32 (n + 1) |>).

Definition pop_off : ST machine () :=
  on ← intr_get;
  if (on : bool) then panic "pop_off - interruptible" else
  noff ← read_cpu c_noff;
  if noff <? 1 then panic "pop_off" else
  write_cpu (λ c, c <| c_noff ::= λ n, i32 (n - 1) |>) ;;
  noff ← read_cpu c_noff;
  intena ← read_cpu c_intena;
  when ((noff =? 0) && negb (intena =? 0)) intr_on.

(** The atomic swap leaves the loop when it reads 0; when another CPU holds
    the lock the CPU spins. *)
Definition acquire (l : lockid) : ST machine () :=
  push_off ;;
  h ← holding l;
  if (h : bool) then panic "acquire" else
  lk ← read_lock l;
  if negb (lk_locked lk =? 0) then spin else
  write_lock l (λ lk, lk <| lk_locked := 1 |>) ;;
  c ← mycpu;
  write_lock l (λ lk, lk <| lk_cpu := Some c |>).

Definition release (l : lockid) : ST machine () :=
  h ← holding l;
  if negb h then panic "release" else
  write_lock l (λ lk, lk <| lk_cpu := None |>) ;;
  write_lock l (λ lk, lk <| lk_locked := 0 |>) ;;
  pop_off.

End Hart.

(** ** The same operations on the kernel state *)
Definition acquire (l : lockid) : M () := on_mach (Hart.acquire l).
Definition release (l : lockid) : M () := on_mach (Hart.release l).
Definition initlock (l : lockid) : M () := on_mach (Hart.initlock l).
Definition holding (l : lockid) : M bool := on_mach (Hart.holding l).
Definition push_off : M () := on_mach Hart.push_off.
Definition pop_off : M () := on_mach Hart.pop_off.
Definition intr_on : M () := on_mach Hart.intr_on.
Definition intr_off : M () := on_mach Hart.intr_off.
Definition intr_get : M bool := on_mach Hart.intr_get.
Definition cpuid : M nat := on_mach Hart.cpuid.
Definition read_cpu {A} (f : cpu -> A) : M A := on_mach (Hart.read_cpu f).
Definition write_cpu (f : cpu -> cpu) : M () := on_mach (Hart.write_cpu f).
Definition read_csr {A} (f : csrs -> A) : M A := on_mach (Hart.read_csr f).
Definition write_csr (f : csrs -> csrs) : M () := on_mach (Hart.write_csr f).

(** The process running on this CPU, or none: [kernel/proc.c]. *)
Definition myproc : M (option nat) :=
  push_off ;;
  p ← read_cpu c_proc;
  pop_off ;;
  mret p.

(** ** Specification *)

Definition my_cpu (m : machine) : cpu := m_cpus m !!! m_hart m.
Definition my_csr (m : machine) : csrs := m_csrs m !!! m_hart m.
Definition intr_enabled (m : machine) : bool :=
  negb (Z.land (r_sstatus (my_csr m)) SSTATUS_SIE =? 0).

(** The executing hart exists, its nesting count is in range with room for [d]
    more nested [push_off]s, and interrupts are off inside a nesting. *)
Record hart_ok (d : Z) (m : machine) : Prop := {
  hart_cpus : (m_hart m < length (m_cpus m))%nat;
  hart_csrs : (m_hart m < length (m_csrs m))%nat;
  hart_noff : 0 <= c_noff (my_cpu m) /\ c_noff (my_cpu m) + d < 2 ^ 31;
  hart_off : 0 < c_noff (my_cpu m) -> intr_enabled m = false;
}.

Definition lock_free (l : lockid) (m : machine) : Prop :=
  m_locks m !! l = Some (mk_spinlock 0 None).
Definition lock_held (l : lockid) (m : machine) : Prop :=
  m_locks m !! l = Some (mk_spinlock 1 (Some (m_hart m))).

(** What [push_off] and a matching [pop_off] leave behind. *)
Definition touch (m : machine) : machine :=
  m <| m_cpus ::= upd (m_hart m) (λ c, c <| c_intena ::= λ e,
         if c_noff c =? 0 then Z.b2z (intr_enabled m) else e |>) |>.

(** The state after [push_off], and after [acquire] of a free lock. *)
Definition pushed (m : machine) : machine :=
  m <| m_csrs ::= upd (m_hart m) (λ r, r <| r_sstatus ::= λ x,
         Z.land x (Z.lnot SSTATUS_SIE) |>) |>
    <| m_cpus ::= upd (m_hart m) (λ c,
         mk_cpu (c_proc c) (c_noff c + 1)
           (if c_noff c =? 0 then Z.b2z (intr_enabled m) else c_intena c)) |>.
Definition acquired (l : lockid) (m : machine) : machine :=
  (pushed m) <| m_locks ::= <[l := mk_spinlock 1 (Some (m_hart m))]> |>.

Section proofs.
Implicit Types m : machine.

Lemma sie_off x : Z.land (Z.land x (Z.lnot SSTATUS_SIE)) SSTATUS_SIE = 0.
Proof.
  rewrite <- Z.land_assoc, (Z.land_comm (Z.lnot _)), Z.land_lnot_diag. apply Z.land_0_r.
Qed.

Lemma sie_testbit x : (Z.land x SSTATUS_SIE =? 0) = negb (Z.testbit x 1).
Proof.
  change SSTATUS_SIE with (2 ^ 1). destruct (Z.testbit x 1) eqn:E; cbn [negb].
  - apply Z.eqb_neq. intros H0.
    pose proof (f_equal (λ y, Z.testbit y 1) H0) as H1. cbn beta in H1.
    rewrite Z.land_spec, E, Z.pow2_bits_true, Z.bits_0 in H1 by lia. done.
  - apply Z.eqb_eq, Z.bits_inj'. intros n Hn. rewrite Z.land_spec, Z.pow2_bits_eqb, Z.bits_0 by lia.
    destruct (Z.eqb_spec 1 n); subst; [by rewrite E|apply andb_false_r].
Qed.

Lemma sie_restore x : Z.testbit x 1 = true ->
  Z.lor (Z.land x (Z.lnot SSTATUS_SIE)) SSTATUS_SIE = x.
Proof.
  intros E. apply Z.bits_inj'. intros n Hn. change SSTATUS_SIE with (2 ^ 1).
  rewrite Z.lor_spec, Z.land_spec, Z.lnot_spec, !Z.pow2_bits_eqb by lia.
  destruct (Z.eqb_spec 1 n); subst; [by rewrite E|].
  by rewrite andb_true_r, orb_false_r.
Qed.

Lemma sie_keep x : Z.testbit x 1 = false -> Z.land x (Z.lnot SSTATUS_SIE) = x.
Proof.
  intros E. apply Z.bits_inj'. intros n Hn. change SSTATUS_SIE with (2 ^ 1).
  rewrite Z.land_spec, Z.lnot_spec, !Z.pow2_bits_eqb by lia.
  destruct (Z.eqb_spec 1 n); subst; [by rewrite E|apply andb_true_r].
Qed.

Lemma pushed_disabled m : hart_ok 0 m -> intr_enabled (pushed m) = false.
Proof.
  intros []. unfold intr_enabled, my_csr, pushed. cbn.
  rewrite upd_eq by done. cbn. by rewrite sie_off.
Qed.

Lemma push_off_pushed m : hart_ok 1 m -> Hart.push_off m = Ret () (pushed m).
Proof.
  intros [Hc Hr Hn _]. unfold my_cpu in Hn.
  unfold Hart.push_off, Hart.intr_get, Hart.intr_off, Hart.read_csr, Hart.write_csr,
    Hart.read_cpu, Hart.write_cpu, pushed, intr_enabled, my_csr.
  mcompute. cbn.
  destruct (Z.eqb_spec (c_noff (m_cpus m !!! m_hart m)) 0) as [E|E];
    cbn; rewrite ?upd_upd by done;
    do 2 f_equal; apply upd_ext; cbn; rewrite i32_small by lia.
  - by rewrite E.
  - by destruct (Z.eqb_spec (c_noff (m_cpus m !!! m_hart m)) 0).
Qed.

Lemma acquire_free l m :
  hart_ok 1 m -> lock_free l m -> Hart.acquire l m = Ret () (acquired l m).
Proof.
  intros Hm Hl. unfold Hart.acquire.
  rewrite (bind_Ret _ _ _ _ _ (push_off_pushed m Hm)).
  unfold Hart.holding, Hart.read_lock, Hart.write_lock, Hart.mycpu, Hart.cpuid.
  mcompute. cbn. apply lookup_total_correct in Hl. rewrite Hl. cbn. rewrite Hl. cbn.
  rewrite lookup_total_insert_eq, insert_insert_eq. done.
Qed.

(** A second [acquire] by the same CPU panics; one by another CPU spins. *)
Lemma acquire_held l m :
  hart_ok 1 m -> lock_held l m -> Hart.acquire l m = Panic "acquire" (pushed m).
Proof.
  intros Hm Hl. unfold Hart.acquire.
  rewrite (bind_Ret _ _ _ _ _ (push_off_pushed m Hm)).
  unfold Hart.holding, Hart.read_lock, Hart.mycpu, Hart.cpuid.
  mcompute. cbn. rewrite (lookup_total_correct _ _ _ Hl). cbn.
  by rewrite bool_decide_true.
Qed.

Lemma acquire_contended l m c :
  hart_ok 1 m -> m_locks m !! l = Some (mk_spinlock 1 (Some c)) -> c ≠ m_hart m ->
  Hart.acquire l m = Spin (pushed m).
Proof.
  intros Hm Hl Hc. unfold Hart.acquire.
  rewrite (bind_Ret _ _ _ _ _ (push_off_pushed m Hm)).
  unfold Hart.holding, Hart.read_lock, Hart.mycpu, Hart.cpuid.
  mcompute. cbn. apply lookup_total_correct in Hl. rewrite Hl. cbn.
  rewrite bool_decide_false by congruence. cbn. by rewrite Hl.
Qed.

Lemma acquired_ok d l m : 0 <= d -> hart_ok (d + 1) m -> hart_ok d (acquired l m).
Proof.
  intros Hd Hm. pose proof Hm as [Hc Hr Hn Ho].
  assert (c_noff (my_cpu (acquired l m)) = c_noff (my_cpu m) + 1) as E.
  { unfold my_cpu, acquired, pushed. cbn. by rewrite upd_eq. }
  split; rewrite ?E.
  - cbn. by rewrite length_upd.
  - cbn. by rewrite length_upd.
  - lia.
  - intros _. apply (pushed_disabled m). split; [done..|lia|done].
Qed.

Lemma acquired_held l m : lock_held l (acquired l m).
Proof. apply lookup_insert_eq. Qed.

Lemma acquired_free l l' m : l ≠ l' -> lock_free l' m -> lock_free l' (acquired l m).
Proof. intros. unfold lock_free, acquired. cbn. by rewrite lookup_insert_ne. Qed.

(** A [pop_off] matching a [push_off] restores the interrupt state. *)
Lemma pop_off_pushed m : hart_ok 1 m -> Hart.pop_off (pushed m) = Ret () (touch m).
Proof.
  intros [Hc Hr Hn Ho]. unfold my_cpu, intr_enabled, my_csr in *.
  rewrite sie_testbit, negb_involutive in Ho.
  unfold Hart.pop_off, Hart.intr_get, Hart.intr_on, Hart.read_csr, Hart.write_csr,
    Hart.read_cpu, Hart.write_cpu, pushed, touch, intr_enabled, my_csr.
  mcompute. cbn. rewrite !upd_eq by done. cbn. rewrite sie_off. cbn. rewrite !upd_eq by done. cbn.
  rewrite (proj2 (Z.ltb_ge _ _)) by lia. cbn. rewrite !upd_upd, !upd_eq by done. cbn.
  rewrite i32_small by lia. rewrite !sie_testbit, !negb_involutive.
  replace (c_noff (m_cpus m !!! m_hart m) + 1 - 1)
    with (c_noff (m_cpus m !!! m_hart m)) by lia.
  destruct (Z.eqb_spec (c_noff (m_cpus m !!! m_hart m)) 0) as [E|E];
    [destruct (Z.testbit (r_sstatus (m_csrs m !!! m_hart m)) 1) eqn:B|]; cbn;
    rewrite ?upd_upd by done; do 2 f_equal.
  1, 3, 5: apply upd_ext; cbn; rewrite i32_small by lia; rewrite ?E; cbn; f_equal; lia.
  all: apply upd_id; [done|]; cbn.
  - rewrite sie_restore by done. by destruct (m_csrs m !!! m_hart m).
  - rewrite sie_keep by done. by destruct (m_csrs m !!! m_hart m).
  - rewrite sie_keep by (apply Ho; lia). by destruct (m_csrs m !!! m_hart m).
Qed.

(** [release] undoes [acquire] up to [touch]. *)
Lemma release_acquired l m :
  hart_ok 1 m -> lock_free l m -> Hart.release l (acquired l m) = Ret () (touch m).
Proof.
  intros Hm Hl. rewrite <- (pop_off_pushed m Hm).
  unfold Hart.release, Hart.holding, Hart.read_lock, Hart.write_lock, Hart.mycpu, Hart.cpuid.
  mcompute. cbn. rewrite lookup_total_insert_eq. cbn. rewrite bool_decide_true by done. cbn.
  rewrite !lookup_total_insert_eq, !insert_insert_eq. cbn.
  rewrite (insert_id _ _ _ Hl). done.
Qed.

Lemma touch_ok d m : hart_ok d m -> hart_ok d (touch m).
Proof.
  intros [Hc Hr Hn Ho]. unfold my_cpu, intr_enabled, my_csr, touch in *.
  split; cbn; rewrite ?length_upd, ?upd_eq by done; done.
Qed.

Lemma touch_enabled m : intr_enabled (touch m) = intr_enabled m.
Proof. done. Qed.

Lemma touch_idemp m : (m_hart m < length (m_cpus m))%nat -> touch (touch m) = touch m.
Proof.
  intros Hc. unfold touch at 1. cbn. rewrite touch_enabled. unfold touch. cbn.
  f_equal. rewrite upd_upd by done. apply upd_ext. cbn.
  by destruct (m_cpus m !!! m_hart m); cbn; destruct (Z.eqb_spec c_noff 0).
Qed.

Lemma touch_locks m : m_locks (touch m) = m_locks m.
Proof. done. Qed.
End proofs.

(** ** Critical sections on the kernel state *)

(** Code that neither reads nor writes the harts and the locks. *)
Definition oblivious {A} (body : M A) : Prop :=
  ∀ k m, body (k <| mach := m |>) = res_map (λ k', k' <| mach := m |>) (body k).

Lemma oblivious_ret {A} (a : A) : oblivious (mret a).
Proof. done. Qed.
Lemma oblivious_bind {A B} (body : M A) (f : A -> M B) :
  oblivious body -> (∀ a, oblivious (f a)) -> oblivious (body ≫= f).
Proof.
  intros Hb Hf k m. unfold mbind, ST_bind. rewrite Hb.
  destruct (body k); cbn; [apply Hf|done..].
Qed.
Lemma oblivious_gets {A} (f : kernel -> A) :
  (∀ k m, f (k <| mach := m |>) = f k) -> oblivious (gets f).
Proof. intros Hf k m. unfold gets. by rewrite (Hf k m). Qed.
Lemma oblivious_modify (f : kernel -> kernel) :
  (∀ k m, f (k <| mach := m |>) = (f k) <| mach := m |>) -> oblivious (modify f).
Proof. intros Hf k m. unfold modify. by rewrite (Hf k m). Qed.
Lemma oblivious_panic {A} msg : oblivious (panic (A:=A) msg).
Proof. done. Qed.
Lemma oblivious_when b m : oblivious m -> oblivious (when b m).
Proof. by destruct b. Qed.
Lemma oblivious_if {A} (b : bool) (m1 m2 : M A) :
  oblivious m1 -> oblivious m2 -> oblivious (if b then m1 else m2).
Proof. by destruct b. Qed.
Lemma oblivious_for_each {I} (l : list I) (body : I -> M ()) :
  (∀ i, oblivious (body i)) -> oblivious (for_each l body).
Proof.
  intros Hb. induction l; cbn; [apply oblivious_ret|]. by apply oblivious_bind.
Qed.
Lemma oblivious_for_first {I A} (l : list I) (body : I -> M (option A)) :
  (∀ i, oblivious (body i)) -> oblivious (for_first l body).
Proof.
  intros Hb. induction l; cbn; [apply oblivious_ret|]. apply oblivious_bind; [done|].
  intros []; [apply oblivious_ret|done].
Qed.

Create HintDb oblivious.
#[export] Hint Resolve oblivious_ret oblivious_bind oblivious_gets oblivious_modify
  oblivious_panic oblivious_when oblivious_if oblivious_for_each oblivious_for_first : oblivious.

(** The executing hart can take [l]. *)
Definition can_lock (l : lockid) (m : machine) : Prop := hart_ok 2 m ∧ lock_free l m.

Lemma hart_ok_mono d d' m : d' <= d -> hart_ok d m -> hart_ok d' m.
Proof. intros Hd []. split; [done..|lia|done]. Qed.

Lemma acquire_step l k m :
  mach k = m -> can_lock l m -> acquire l k = Ret () (k <| mach := acquired l m |>).
Proof.
  intros <- [Hh Hl]. unfold acquire, on_mach. rewrite acquire_free; [done| |done].
  by apply (hart_ok_mono 2); [lia|].
Qed.

Lemma release_step l k m :
  mach k = acquired l m -> can_lock l m ->
  release l k = Ret () (k <| mach := touch m |>).
Proof.
  intros Hk [Hm Hl]. unfold release, on_mach. rewrite Hk, release_acquired; [done| |done].
  by apply (hart_ok_mono 2); [lia|].
Qed.

Lemma can_lock_touch l m : can_lock l m -> can_lock l (touch m).
Proof. intros [? ?]. split; [by apply touch_ok|done]. Qed.

(** Code bracketed by [acquire] and [release] that does not use locks itself. *)
Lemma critical_section_eq {A} l (body : M A) k :
  can_lock l (mach k) -> oblivious body ->
  (acquire l ;; a ← body; release l ;; mret a) k =
  match body k with
  | Ret a k' => Ret a (k' <| mach := touch (mach k) |>)
  | Panic msg k' => Panic msg (k' <| mach := acquired l (mach k) |>)
  | Switch k' => Switch (k' <| mach := acquired l (mach k) |>)
  | Spin k' => Spin (k' <| mach := acquired l (mach k) |>)
  end.
Proof.
  intros Hl Hb. rewrite (bind_Ret _ _ _ _ _ (acquire_step l k _ eq_refl Hl)).
  unfold mbind, ST_bind. rewrite Hb.
  destruct (body k) as [a k'|msg k'|k'|k'] eqn:E; cbn [res_map]; try done.
  by rewrite (release_step _ _ (mach k)).
Qed.

(** One step of a run through a critical section of lock [l], where [H] proves
    that it can be taken in the state the run started with. *)
Ltac step_acquire H :=
  first [ erewrite bind_Ret by (refine (acquire_step _ _ _ _ H); reflexivity)
        | erewrite acquire_step; [| |exact H]; [|reflexivity] ].
Ltac step_release H :=
  first [ erewrite bind_Ret by (refine (release_step _ _ _ _ H); reflexivity)
        | erewrite release_step; [| |exact H]; [|reflexivity] ].

Lemma myproc_eq k :
  hart_ok 1 (mach k) ->
  myproc k = Ret (c_proc (my_cpu (mach k))) (k <| mach ::= touch |>).
Proof.
  intros Hh. unfold myproc, push_off, pop_off, read_cpu, on_mach, Hart.read_cpu.
  mcompute. cbn [mach set set_mach]. rewrite push_off_pushed by done. cbn [mach set set_mach].
  rewrite pop_off_pushed by done. destruct Hh. unfold my_cpu. cbn.
  by rewrite upd_eq.
Qed.

Lemma bind_myproc {B} (f : option nat -> M B) k :
  hart_ok 1 (mach k) ->
  (myproc ≫= f) k = f (c_proc (my_cpu (mach k))) (k <| mach ::= touch |>).
Proof. intros. by rewrite (bind_Ret _ _ _ _ _ (myproc_eq k ltac:(done))). Qed.

(** Reads and writes of the hart's registers. *)
Section registers.
Context {B : Type}.
Lemma bind_cpuid (f : nat -> M B) k : (cpuid ≫= f) k = f (m_hart (mach k)) k.
Proof. done. Qed.
Lemma bind_read_cpu {A} (g : cpu -> A) (f : A -> M B) k :
  (read_cpu g ≫= f) k = f (g (my_cpu (mach k))) k.
Proof. done. Qed.
Lemma bind_read_csr {A} (g : csrs -> A) (f : A -> M B) k :
  (read_csr g ≫= f) k = f (g (my_csr (mach k))) k.
Proof. done. Qed.
Lemma bind_write_csr g (f : () -> M B) k :
  (write_csr g ≫= f) k = f () (k <| mach ::= λ m, m <| m_csrs ::= upd (m_hart m) g |> |>).
Proof. done. Qed.
Lemma bind_write_cpu g (f : () -> M B) k :
  (write_cpu g ≫= f) k = f () (k <| mach ::= λ m, m <| m_cpus ::= upd (m_hart m) g |> |>).
Proof. done. Qed.
End registers.

(** ** Composition of the machine effects *)

(** Assigning [mycpu()->proc]. *)
Definition set_proc (p : option nat) (m : machine) : machine :=
  m <| m_cpus ::= upd (m_hart m) (λ c, c <| c_proc := p |>) |>.

Lemma upd_upd_ext {A} `{Inhabited A} i (f g f' g' : A -> A) l :
  (∀ x, f (g x) = f' (g' x)) -> upd i f (upd i g l) = upd i f' (upd i g' l).
Proof.
  intros E. destruct (decide (i < length l)%nat).
  - rewrite !upd_upd by done. apply upd_ext, E.
  - unfold upd. by rewrite !list_insert_ge by (rewrite ?length_insert; lia).
Qed.

Section machine.
Implicit Types m : machine.

Lemma acquired_touch l m : (m_hart m < length (m_cpus m))%nat -> acquired l (touch m) = acquired l m.
Proof.
  intros Hc. unfold acquired, pushed, touch. cbn. f_equal. rewrite upd_upd by done.
  apply upd_ext. cbn. by destruct (c_noff _ =? 0).
Qed.

Lemma set_proc_acquired p l m : set_proc p (acquired l m) = acquired l (set_proc p m).
Proof. unfold set_proc, acquired, pushed. cbn. f_equal. by apply upd_upd_ext. Qed.

Lemma set_proc_touch p m : set_proc p (touch m) = touch (set_proc p m).
Proof. unfold set_proc, touch. cbn. f_equal. by apply upd_upd_ext. Qed.

Lemma my_cpu_set_proc p m : (m_hart m < length (m_cpus m))%nat ->
  my_cpu (set_proc p m) = (my_cpu m) <| c_proc := p |>.
Proof. intros. unfold my_cpu, set_proc. cbn. by rewrite upd_eq. Qed.

Lemma my_cpu_touch m : (m_hart m < length (m_cpus m))%nat ->
  my_cpu (touch m) = (my_cpu m) <| c_intena ::= λ e,
       if c_noff (my_cpu m) =? 0 then Z.b2z (intr_enabled m) else e |>.
Proof. intros. unfold my_cpu, touch. cbn. by rewrite upd_eq. Qed.

Lemma my_cpu_acquired l m : (m_hart m < length (m_cpus m))%nat ->
  my_cpu (acquired l m) = mk_cpu (c_proc (my_cpu m)) (c_noff (my_cpu m) + 1)
    (if c_noff (my_cpu m) =? 0 then Z.b2z (intr_enabled m) else c_intena (my_cpu m)).
Proof. intros. unfold my_cpu, acquired, pushed. cbn. by rewrite upd_eq. Qed.

Lemma c_proc_touch m : (m_hart m < length (m_cpus m))%nat ->
  c_proc (my_cpu (touch m)) = c_proc (my_cpu m).
Proof. intros. by rewrite my_cpu_touch. Qed.

Lemma set_proc_ok d p m : hart_ok d m -> hart_ok d (set_proc p m).
Proof.
  intros [Hc Hr Hn Ho]. split; rewrite ?my_cpu_set_proc by done; cbn; rewrite ?length_upd; done.
Qed.

Lemma touch_nested m : (m_hart m < length (m_cpus m))%nat ->
  c_noff (my_cpu m) ≠ 0 -> touch m = m.
Proof.
  intros Hc Hn. unfold touch. destruct m as [h cs rs ls]. cbn in *. f_equal.
  apply upd_id; [done|]. unfold my_cpu in Hn. cbn in Hn. destruct (cs !!! h). cbn in *.
  by destruct (Z.eqb_spec c_noff 0).
Qed.

Lemma touch_acquired l m : hart_ok 1 m -> touch (acquired l m) = acquired l m.
Proof.
  intros [Hc _ Hn _]. apply touch_nested; [cbn; by rewrite length_upd|].
  rewrite my_cpu_acquired by done. cbn. lia.
Qed.

Lemma release_pop l m : lock_held l m ->
  Hart.release l m = Hart.pop_off (m <| m_locks ::= <[l := mk_spinlock 0 None]> |>).
Proof.
  intros Hl. apply lookup_total_correct in Hl.
  unfold Hart.release, Hart.holding, Hart.read_lock, Hart.write_lock, Hart.mycpu, Hart.cpuid.
  mcompute. cbn. rewrite Hl. cbn. rewrite bool_decide_true by done. cbn.
  by rewrite !lookup_total_insert_eq, !insert_insert_eq.
Qed.

Lemma pop_off_nested m :
  (m_hart m < length (m_cpus m))%nat -> 1 < c_noff (my_cpu m) < 2 ^ 31 ->
  intr_enabled m = false ->
  Hart.pop_off m = Ret () (m <| m_cpus ::= upd (m_hart m) (λ c, c <| c_noff ::= λ n, n - 1 |>) |>).
Proof.
  intros Hc Hn He. unfold my_cpu, intr_enabled, my_csr in *.
  unfold Hart.pop_off, Hart.intr_get, Hart.intr_on, Hart.read_csr, Hart.write_csr,
    Hart.read_cpu, Hart.write_cpu. mcompute. cbn. rewrite He. cbn.
  rewrite (proj2 (Z.ltb_ge _ _)) by lia. cbn. rewrite upd_eq by done. cbn.
  rewrite i32_small by lia. rewrite (proj2 (Z.eqb_neq _ _)) by lia. cbn.
  do 2 f_equal. apply upd_ext. cbn. by rewrite i32_small by lia.
Qed.

(** Releasing the outer of two nested locks, as [sleep] does. *)
Lemma release_outer l l' m :
  l ≠ l' -> hart_ok 2 m -> lock_free l m ->
  Hart.release l (acquired l' (acquired l m)) = Ret () (acquired l' m).
Proof.
  intros Hne Hm Hl. pose proof Hm as [Hc Hr Hn Ho].
  pose proof (my_cpu_acquired l m Hc) as E1.
  assert (m_hart (acquired l m) < length (m_cpus (acquired l m)))%nat as Hc'
    by (cbn; by rewrite length_upd).
  pose proof (my_cpu_acquired l' _ Hc') as E2.
  rewrite release_pop by (unfold lock_held; cbn; rewrite lookup_insert_ne, lookup_insert_eq; done).
  rewrite pop_off_nested.
  - unfold acquired, pushed. cbn. f_equal. rewrite !upd_upd by done. f_equal.
    + apply upd_ext. cbn. unfold my_cpu in Hn.
      rewrite (proj2 (Z.eqb_neq (c_noff (m_cpus m !!! m_hart m) + 1) 0)) by lia. f_equal. lia.
    + apply upd_ext. cbn. by rewrite <- Z.land_assoc, Z.land_diag.
    + rewrite insert_insert_ne, insert_insert_eq by done. f_equal. by apply insert_id.
  - cbn. by rewrite !length_upd.
  - change (1 < c_noff (my_cpu (acquired l' (acquired l m))) < 2 ^ 31).
    rewrite E2, E1. cbn. lia.
  - transitivity (intr_enabled (pushed (acquired l m))); [done|].
    apply pushed_disabled, acquired_ok; [done|]. by apply (hart_ok_mono 2).
Qed.

(** The hart when a thread that was switched out with interrupt flag [intena]
    has been resumed and has released the lock the scheduler took. *)
Definition resumed (intena : Z) (m : machine) : machine :=
  m <| m_cpus ::= upd (m_hart m) (λ c, c <| c_intena := intena |>) |>
    <| m_csrs ::= upd (m_hart m) (λ r, r <| r_sstatus ::= λ x,
         let x := Z.land x (Z.lnot SSTATUS_SIE) in
         if intena =? 0 then x else Z.lor x SSTATUS_SIE |>) |>.

Lemma release_resumed l m intena :
  hart_ok 1 m -> c_noff (my_cpu m) = 0 -> lock_free l m ->
  (Hart.write_cpu (λ c, c <| c_intena := intena |>) ;; Hart.release l) (acquired l m)
  = Ret () (resumed intena m).
Proof.
  intros [Hc Hr _ _] Hn Hl. unfold my_cpu in Hn.
  unfold Hart.write_cpu at 1. rewrite bind_modify.
  rewrite release_pop by (apply (acquired_held l m)).
  unfold Hart.pop_off, Hart.intr_get, Hart.intr_on, Hart.read_csr, Hart.write_csr,
    Hart.read_cpu, Hart.write_cpu. mcompute. cbn. rewrite !upd_eq by done. cbn.
  rewrite sie_off, !upd_upd by done. cbn. rewrite !upd_eq by done. cbn. rewrite Hn.
  change (0 + 1 <? 1) with false. cbn. rewrite !upd_upd, !upd_eq by done. cbn. rewrite Hn.
  change (i32 (0 + 1 - 1) =? 0) with true. cbn.
  rewrite insert_insert_eq, (insert_id _ _ _ Hl). unfold resumed. cbn.
  destruct (intena =? 0); cbn; rewrite ?upd_upd by done; do 2 f_equal;
    apply upd_ext; cbn; by rewrite ?Hn.
Qed.
End machine.

(** ** The locks of the kernel

    All but those of pipes, which live in allocated pages. *)
Definition static_locks : list lockid :=
  [LkPid; LkWait; LkKmem; LkTicks; LkFtable; LkItable; LkBcache; LkLog; LkCons; LkTx; LkDisk; LkPr]
  ++ (LkProc <$> seq 0 NPROC) ++ (LkBuf <$> seq 0 30) ++ (LkInode <$> seq 0 50).

Lemma static_locks_nodup : NoDup static_locks.
Proof. apply (bool_decide_unpack _). by vm_compute. Qed.

Lemma static_proc i : (i < NPROC)%nat -> LkProc i ∈ static_locks.
Proof.
  intros. unfold static_locks. rewrite !elem_of_app. right. left. apply list_elem_of_fmap.
  exists i. split; [done|]. rewrite elem_of_seq. lia.
Qed.

Lemma static_buf i : (i < 30)%nat -> LkBuf i ∈ static_locks.
Proof.
  intros. unfold static_locks. rewrite !elem_of_app. right. right. left. apply list_elem_of_fmap.
  exists i. split; [done|]. rewrite elem_of_seq. lia.
Qed.

Lemma static_inode i : (i < 50)%nat -> LkInode i ∈ static_locks.
Proof.
  intros. unfold static_locks. rewrite !elem_of_app. do 3 right. apply list_elem_of_fmap.
  exists i. split; [done|]. rewrite elem_of_seq. lia.
Qed.

Lemma static_lock l : bool_decide (l ∈ static_locks) = true -> l ∈ static_locks.
Proof. apply bool_decide_eq_true_1. Qed.

(** ** The harts' current processes

    No operation of this file changes which process a CPU runs. *)
Definition curs (m : machine) : nat * list (option nat) := (m_hart m, c_proc <$> m_cpus m).

Lemma fmap_upd {A B} `{Inhabited A} (g : A -> B) i f (l : list A) :
  (∀ x, g (f x) = g x) -> g <$> upd i f l = g <$> l.
Proof.
  intros Hg. unfold upd. rewrite list_fmap_insert, Hg.
  destruct (decide (i < length l)%nat).
  - apply list_insert_id. rewrite list_lookup_fmap, list_lookup_lookup_total_lt by done. done.
  - by rewrite list_insert_ge by (rewrite length_fmap; lia).
Qed.

Lemma my_cpu_curs m : c_proc (my_cpu m) = (curs m).2 !!! (curs m).1.
Proof.
  unfold my_cpu, curs. cbn. rewrite !list_lookup_total_alt, list_lookup_fmap.
  by destruct (m_cpus m !! m_hart m).
Qed.

Section curs.
Context (c : nat * list (option nat)).
Let J m := curs m = c.

Lemma curs_write_cpu f : (∀ x, c_proc (f x) = c_proc x) -> keeps J (Hart.write_cpu f).
Proof. intros Hf. apply keeps_modify. unfold J, curs. cbn. intros m <-. by rewrite fmap_upd. Qed.
Lemma curs_write_csr f : keeps J (Hart.write_csr f).
Proof. by apply keeps_modify. Qed.
Lemma curs_write_lock l f : keeps J (Hart.write_lock l f).
Proof. by apply keeps_modify. Qed.
Lemma curs_initlock l : keeps J (Hart.initlock l).
Proof. by apply keeps_modify. Qed.

Hint Resolve curs_write_csr curs_write_lock : keeps.
Hint Extern 1 (keeps _ (Hart.write_cpu _)) => apply curs_write_cpu; done : keeps.
Hint Extern 1 (keeps _ (Hart.read_cpu _)) => apply keeps_gets : keeps.
Hint Extern 1 (keeps _ (Hart.read_lock _)) => apply keeps_gets : keeps.
Hint Extern 1 (keeps _ Hart.mycpu) => apply keeps_gets : keeps.
Hint Extern 1 (keeps _ Hart.intr_get) => apply keeps_gets : keeps.
Hint Extern 1 (keeps _ Hart.intr_on) => apply curs_write_csr : keeps.
Hint Extern 1 (keeps _ Hart.intr_off) => apply curs_write_csr : keeps.

Lemma curs_push_off : keeps J Hart.push_off.
Proof. unfold Hart.push_off. keep. Qed.
Lemma curs_pop_off : keeps J Hart.pop_off.
Proof. unfold Hart.pop_off. keep. Qed.
Lemma curs_holding l : keeps J (Hart.holding l).
Proof. unfold Hart.holding. keep. Qed.
Hint Resolve curs_push_off curs_pop_off curs_holding : keeps.
Lemma curs_acquire l : keeps J (Hart.acquire l).
Proof. unfold Hart.acquire. keep. Qed.
Lemma curs_release l : keeps J (Hart.release l).
Proof. unfold Hart.release. keep. Qed.
End curs.

(** ** Nested critical sections *)

Definition acquired_all (ls : list lockid) (m : machine) : machine := foldr acquired m ls.

Lemma acquired_comm l l' m : l ≠ l' -> acquired l (acquired l' m) = acquired l' (acquired l m).
Proof. intros Hne. unfold acquired, pushed. cbn. by rewrite (insert_insert_ne _ l l') by done. Qed.

Lemma acquired_all_perm ls ls' m :
  ls ≡ₚ ls' -> NoDup ls -> acquired_all ls m = acquired_all ls' m.
Proof.
  unfold acquired_all. induction 1 as [|l ls ls' Hp IH|l l' ls|ls ls' ls'' H1 IH1 H2 IH2]; intros Hn.
  - done.
  - cbn. rewrite IH; [done|]. by apply NoDup_cons in Hn as [_ ?].
  - cbn. apply acquired_comm. apply NoDup_cons in Hn as [Hn _]. intros ->. apply Hn. by left.
  - rewrite IH1 by done. apply IH2. by rewrite <- H1.
Qed.

Lemma acquired_all_ok d ls m : 0 <= d ->
  hart_ok (d + Z.of_nat (length ls)) m -> hart_ok d (acquired_all ls m).
Proof.
  revert d. induction ls as [|l ls IH]; intros d Hd Hm; cbn in *.
  - by replace d with (d + 0) by lia.
  - apply acquired_ok; [done|]. apply IH; [lia|]. by replace (d + 1 + _) with (d + Z.of_nat (S (length ls))) by lia.
Qed.

Lemma acquired_all_free l ls m : l ∉ ls -> lock_free l m -> lock_free l (acquired_all ls m).
Proof.
  intros Hl Hf. induction ls as [|l' ls IH]; [done|]. apply not_elem_of_cons in Hl as [Hne Hl].
  apply acquired_free; auto.
Qed.

Lemma acquired_all_held l ls m : l ∈ ls -> lock_held l (acquired_all ls m).
Proof.
  induction ls as [|l' ls IH]; intros Hl; [by apply elem_of_nil in Hl|].
  unfold lock_held. cbn. destruct (decide (l = l')) as [->|Hne]; [apply lookup_insert_eq|].
  rewrite lookup_insert_ne by done. apply elem_of_cons in Hl as [?|Hl]; [done|]. by apply IH.
Qed.

Lemma acquire_all_eq ls m :
  hart_ok (Z.of_nat (length ls)) m -> NoDup ls -> Forall (λ l, lock_free l m) ls ->
  for_each ls Hart.acquire m = Ret () (acquired_all (reverse ls) m).
Proof.
  revert m. induction ls as [|l ls IH]; intros m Hm Hn Hf; [done|].
  apply NoDup_cons in Hn as [Hl Hn]. apply Forall_cons in Hf as [Hf1 Hf]. cbn [for_each length] in *.
  rewrite (bind_Ret _ _ _ _ _ (acquire_free l m (hart_ok_mono (Z.of_nat (S (length ls))) 1 m ltac:(lia) Hm) Hf1)).
  rewrite reverse_cons. unfold acquired_all. rewrite foldr_app. cbn [foldr]. apply IH; [|done|].
  - apply acquired_ok; [lia|]. by replace (_ + 1) with (Z.of_nat (S (length ls))) by lia.
  - apply Forall_forall. intros l' Hl'. apply acquired_free; [intros ->; done|].
    by apply (proj1 (Forall_forall _ _) Hf).
Qed.

Lemma release_all_eq ls m :
  ls ≠ [] -> hart_ok (Z.of_nat (length ls)) m -> NoDup ls -> Forall (λ l, lock_free l m) ls ->
  for_each ls Hart.release (acquired_all ls m) = Ret () (touch m).
Proof.
  induction ls as [|l ls IH]; intros Hne Hm Hn Hf; [done|].
  apply NoDup_cons in Hn as [Hl Hn]. apply Forall_cons in Hf as [Hf1 Hf]. cbn [for_each length acquired_all foldr] in *.
  fold (acquired_all ls m).
  assert (hart_ok 1 (acquired_all ls m)) as H1.
  { apply acquired_all_ok; [done|]. by replace (1 + _) with (Z.of_nat (S (length ls))) by lia. }
  rewrite (bind_Ret _ _ _ _ _ (release_acquired l _ H1 (acquired_all_free _ _ _ Hl Hf1))).
  destruct ls as [|l' ls]; [done|]. cbn [acquired_all foldr]. fold (acquired_all ls m).
  rewrite touch_acquired.
  - apply IH; [done| |done|done]. eapply hart_ok_mono; [|exact Hm]. lia.
  - apply acquired_all_ok; [done|]. eapply hart_ok_mono; [|exact Hm]. cbn. lia.
Qed.

(** C32. Locks taken one after the other are held with interrupts off, and
    releasing them in any order gives the locks back and restores the nesting
    count and the interrupt state from before the first [acquire]. *)
Theorem nested_locks ls ls' m :
  ls ≠ [] -> NoDup ls -> ls ≡ₚ ls' -> hart_ok (Z.of_nat (length ls)) m ->
  Forall (λ l, lock_free l m) ls ->
  ∃ m1 m2, for_each ls Hart.acquire m = Ret () m1 ∧ for_each ls' Hart.release m1 = Ret () m2 ∧
    intr_enabled m1 = false ∧ Forall (λ l, lock_held l m1) ls ∧
    intr_enabled m2 = intr_enabled m ∧ m_locks m2 = m_locks m ∧
    c_noff (my_cpu m2) = c_noff (my_cpu m).
Proof.
  intros Hne Hn Hp Hm Hf. exists (acquired_all (reverse ls) m), (touch m). split; [by apply acquire_all_eq|].
  assert (NoDup (reverse ls)) as Hnr by by rewrite reverse_Permutation.
  assert (reverse ls ≡ₚ ls') as Hp' by by rewrite reverse_Permutation.
  split_and!.
  - rewrite (acquired_all_perm _ _ m Hp' Hnr). apply release_all_eq.
    + intros ->. by apply Permutation_nil_r in Hp.
    + by rewrite <- Hp.
    + by rewrite <- Hp.
    + by rewrite <- Hp.
  - destruct (reverse ls) as [|l r] eqn:E; [by apply (f_equal reverse) in E; rewrite reverse_involutive in E|].
    cbn. apply pushed_disabled. apply (acquired_all_ok 0 r); [done|].
    eapply hart_ok_mono; [|exact Hm]. apply (f_equal length) in E. rewrite length_reverse in E. rewrite E. cbn. lia.
  - apply Forall_forall. intros l Hl. apply acquired_all_held. by rewrite elem_of_reverse.
  - done.
  - done.
  - unfold my_cpu, touch. cbn. by rewrite upd_eq by apply Hm.
Qed.

Definition nested_locks_machine : machine :=
  (mach kernel_init) <| m_locks := {[LkWait := mk_spinlock 0 None; LkKmem := mk_spinlock 0 None]} |>.

Lemma nested_locks_witness :
  ∃ m1 m2, for_each [LkWait; LkKmem] Hart.acquire nested_locks_machine = Ret () m1 ∧
    for_each [LkWait; LkKmem] Hart.release m1 = Ret () m2 ∧ intr_enabled m2 = intr_enabled nested_locks_machine.
Proof.
  destruct (nested_locks [LkWait; LkKmem] [LkWait; LkKmem] nested_locks_machine)
    as (m1 & m2 & H1 & H2 & _ & _ & H3 & _).
  - discriminate.
  - apply NoDup_cons. split; [apply not_elem_of_cons; split; [discriminate|apply not_elem_of_nil]|apply NoDup_singleton].
  - reflexivity.
  - split; [cbn; lia|cbn; lia|cbn; lia|reflexivity].
  - repeat constructor.
  - exists m1, m2. split; [exact H1|]. split; [exact H2|exact H3].
Defined.
