(* ===== verification/CString.v ===== *)
(** * Physical memory and the kernel's string library: [kernel/string.c]

    Memory is a finite map from addresses to bytes; an address that was never
    written reads as 0.  The C loops are recursive functions on the number of
    iterations left, so every function is total.  Each routine is proved equal
    to a closed description of the bytes it leaves behind. *)
From Stdlib Require Import Ascii String.
From S2P Require Import Prelude Layout KState.

Abbreviation memory := (gmap Z Z).

Definition ld8 (m : memory) (a : Z) : Z := u8 (default 0 (m !! a)).
Definition st8 (m : memory) (a v : Z) : memory := <[a := u8 v]> m.

(** Little-endian words of [n] bytes. *)
Fixpoint ldn (n : nat) (m : memory) (a : Z) : Z :=
  match n with
  | O => 0
  | S n' => ld8 m a + 256 * ldn n' m (a + 1)
  end.
Fixpoint stn (n : nat) (m : memory) (a v : Z) : memory :=
  match n with
  | O => m
  | S n' => stn n' (st8 m a v) (a + 1) (v / 256)
  end.
Definition ld64 := ldn 8.
Definition st64 := stn 8.
Definition ld32 := ldn 4.
Definition st32 := stn 4.
#[global] Arguments ld8 : simpl never.
#[global] Arguments st8 : simpl never.
#[global] Arguments ld64 : simpl never.
#[global] Arguments st64 : simpl never.
#[global] Arguments ld32 : simpl never.
#[global] Arguments st32 : simpl never.

(** The bytes of an [n]-byte integer, least significant first. *)
Fixpoint le_bytes (n : nat) (v : Z) : list Z :=
  match n with
  | O => []
  | S n' => v mod 256 :: le_bytes n' (v / 256)
  end.

(** Character constants and string literals. *)
Definition ch (c : ascii) : Z := Z.of_N (N_of_ascii c).
Fixpoint str (s : string) : list Z :=
  match s with
  | EmptyString => []
  | String c s' => ch c :: str s'
  end.

(** What [va_arg] takes: an integer, or a string pointer, null as [None]. *)
Inductive varg : Type := VInt (z : Z) | VStr (s : option (list Z)).
Definition va_int (a : varg) : Z := match a with VInt z => z | VStr _ => 0 end.
Definition va_str (a : varg) : option (list Z) := match a with VInt _ => None | VStr s => s end.

(** ** Structures in byte arrays

    A disk block or a C structure in a local variable is a list of bytes. *)
Fixpoint le_val (l : list Z) : Z :=
  match l with
  | [] => 0
  | b :: l' => b + 256 * le_val l'
  end.
Definition get_le (n off : nat) (l : list Z) : Z := le_val (take n (drop off l)).
(** [l] with the bytes from [off] on replaced by [bs]. *)
Definition splice (off : nat) (bs l : list Z) : list Z :=
  take off l ++ bs ++ drop (off + length bs) l.
Definition put_le (n off : nat) (v : Z) (l : list Z) : list Z := splice off (le_bytes n v) l.

(** A list of bytes stored at an address. *)
Fixpoint write_bytes (a : Z) (l : list Z) (m : memory) : memory :=
  match l with
  | [] => m
  | x :: l' => write_bytes (a + 1) l' (st8 m a x)
  end.

(** ** The code *)

(** [for(i = 0; i < n; i++) cdst[i] = c;] *)
Fixpoint memset_loop (left : nat) (i dst c : Z) (m : memory) : memory :=
  match left with
  | O => m
  | S left' => memset_loop left' (i + 1) dst c (st8 m (dst + i) c)
  end.
Definition memset (dst c n : Z) (m : memory) : memory :=
  memset_loop (Z.to_nat n) 0 dst c m.

Fixpoint memcmp_loop (n : nat) (s1 s2 : Z) (m : memory) : Z :=
  match n with
  | O => 0
  | S n' =>
      if negb (ld8 m s1 =? ld8 m s2) then ld8 m s1 - ld8 m s2
      else memcmp_loop n' (s1 + 1) (s2 + 1) m
  end.
Definition memcmp (v1 v2 n : Z) (m : memory) : Z := memcmp_loop (Z.to_nat n) v1 v2 m.

(** [while(n-- > 0) *d++ = *s++;] *)
Fixpoint move_up (n : nat) (d s : Z) (m : memory) : memory :=
  match n with
  | O => m
  | S n' => move_up n' (d + 1) (s + 1) (st8 m d (ld8 m s))
  end.
(** [while(n-- > 0) *--d = *--s;] *)
Fixpoint move_down (n : nat) (d s : Z) (m : memory) : memory :=
  match n with
  | O => m
  | S n' => move_down n' (d - 1) (s - 1) (st8 m (d - 1) (ld8 m (s - 1)))
  end.
Definition memmove (dst src n : Z) (m : memory) : memory :=
  if n =? 0 then m
  else if (src <? dst) && (dst <? src + n) then move_down (Z.to_nat n) (dst + n) (src + n) m
  else move_up (Z.to_nat n) dst src m.
Definition memcpy (dst src n : Z) (m : memory) : memory := memmove dst src n m.

Fixpoint strncmp_loop (n : nat) (p q : Z) (m : memory) : Z :=
  match n with
  | O => 0
  | S n' =>
      if negb (ld8 m p =? 0) && (ld8 m p =? ld8 m q)
      then strncmp_loop n' (p + 1) (q + 1) m
      else ld8 m p - ld8 m q
  end.
Definition strncmp (p q n : Z) (m : memory) : Z := strncmp_loop (Z.to_nat n) p q m.

(** [while(n-- > 0) *s++ = 0;] *)
Fixpoint strncpy_pad (n : nat) (s : Z) (m : memory) : memory :=
  match n with
  | O => m
  | S n' => strncpy_pad n' (s + 1) (st8 m s 0)
  end.
(** [while(n-- > 0 && ( *s++ = *t++) != 0)] and then the padding loop, which
    starts with the [n] the first loop left. *)
Fixpoint strncpy_loop (n : nat) (s t : Z) (m : memory) : memory :=
  match n with
  | O => m
  | S n' =>
      let m' := st8 m s (ld8 m t) in
      if negb (ld8 m' s =? 0) then strncpy_loop n' (s + 1) (t + 1) m'
      else strncpy_pad n' (s + 1) m'
  end.
Definition strncpy (s t n : Z) (m : memory) : memory := strncpy_loop (Z.to_nat n) s t m.

(** [while(--n > 0 && ( *s++ = *t++) != 0); *s = 0;]; the argument is the
    value of [n - 1]. *)
Fixpoint safestrcpy_loop (n : nat) (s t : Z) (m : memory) : memory :=
  match n with
  | O => st8 m s 0
  | S n' =>
      let m' := st8 m s (ld8 m t) in
      if negb (ld8 m' s =? 0) then safestrcpy_loop n' (s + 1) (t + 1) m'
      else st8 m' (s + 1) 0
  end.
Definition safestrcpy (s t n : Z) (m : memory) : memory :=
  if n <=? 0 then m else safestrcpy_loop (Z.to_nat (n - 1)) s t m.

(** The same on local arrays: [strncmp] of two strings whose missing bytes are
    NUL, and the [n] bytes [strncpy] leaves. *)
Fixpoint strncmp_list (n : nat) (p q : list Z) : Z :=
  match n with
  | O => 0
  | S n' =>
      if negb (hd 0 p =? 0) && (hd 0 p =? hd 0 q) then strncmp_list n' (tl p) (tl q)
      else hd 0 p - hd 0 q
  end.
Fixpoint strncpy_list (n : nat) (t : list Z) : list Z :=
  match n with
  | O => []
  | S n' => if negb (hd 0 t =? 0) then hd 0 t :: strncpy_list n' (tl t) else replicate n 0
  end.

(** What [safestrcpy] stores, for [n - 1] characters. *)
Fixpoint safestrcpy_list (n : nat) (t : list Z) : list Z :=
  match n with
  | O => [0]
  | S n' => if negb (hd 0 t =? 0) then hd 0 t :: safestrcpy_list n' (tl t) else [0; 0]
  end.

(** [for(n = 0; s[n]; n++);] reading at most [fuel] bytes. *)
Fixpoint strlen_loop (fuel : nat) (s n : Z) (m : memory) : option Z :=
  match fuel with
  | O => None
  | S fuel' => if ld8 m (s + n) =? 0 then Some n else strlen_loop fuel' s (n + 1) m
  end.
Definition strlen (fuel : nat) (s : Z) (m : memory) : option Z := strlen_loop fuel s 0 m.

(** ** Loads and stores *)
Section memory_lemmas.
Implicit Types m : memory.

Lemma ld8_range m a : 0 <= ld8 m a < 256.
Proof. by apply Z.mod_pos_bound. Qed.
Lemma u8_ld8 m a : u8 (ld8 m a) = ld8 m a.
Proof. apply Z.mod_small, ld8_range. Qed.

Lemma ld8_st8 m a b v : ld8 (st8 m a v) b = if decide (a = b) then u8 v else ld8 m b.
Proof.
  unfold ld8, st8. rewrite lookup_insert. case_decide; [|done].
  cbn. unfold u8. apply Z.mod_mod. lia.
Qed.

Lemma ld8_stn n m a v b :
  ld8 (stn n m a v) b =
  if decide (a <= b < a + Z.of_nat n) then (v / 256 ^ (b - a)) mod 256 else ld8 m b.
Proof.
  revert m a v. induction n as [|n IH]; intros m a v; cbn.
  { case_decide; [lia|done]. }
  rewrite IH, ld8_st8. repeat case_decide; try lia; subst.
  - replace (256 ^ (b - a)) with (256 * 256 ^ (b - (a + 1))).
    + rewrite Z.div_div; [done|lia|]. apply Z.pow_pos_nonneg; lia.
    + rewrite <- Z.pow_succ_r by lia. f_equal. lia.
  - rewrite Z.sub_diag, Z.pow_0_r, Z.div_1_r. done.
Qed.

Lemma ldn_ext n m m' a :
  (∀ b, a <= b < a + Z.of_nat n -> ld8 m b = ld8 m' b) -> ldn n m a = ldn n m' a.
Proof.
  revert a. induction n as [|n IH]; intros a H; [done|]. cbn.
  rewrite (H a), (IH (a + 1)); [done| |lia]. intros b Hb. apply H. lia.
Qed.

Lemma ldn_range n m a : 0 <= ldn n m a < 256 ^ Z.of_nat n.
Proof.
  revert a. induction n as [|n IH]; intros a; cbn; [done|].
  rewrite Nat2Z.inj_succ, Z.pow_succ_r by lia.
  specialize (IH (a + 1)). pose proof (ld8_range m a). lia.
Qed.

(** Reading back a stored word. *)
Lemma ldn_stn n m a v : ldn n (stn n m a v) a = v mod 256 ^ Z.of_nat n.
Proof.
  enough (∀ j i, 0 <= i -> i + Z.of_nat j <= Z.of_nat n ->
    ldn j (stn n m a v) (a + i) = (v / 256 ^ i) mod 256 ^ Z.of_nat j) as H.
  { specialize (H n 0). rewrite Z.add_0_r, Z.pow_0_r, Z.div_1_r in H. apply H; lia. }
  induction j as [|j IH]; intros i Hi Hj.
  { cbn. by rewrite Z.mod_1_r. }
  cbn. rewrite ld8_stn, decide_True by lia.
  replace (a + i + 1) with (a + (i + 1)) by lia. rewrite IH by lia.
  replace (a + i - a) with i by lia. rewrite (Nat2Z.inj_succ j), Z.pow_succ_r by lia.
  rewrite Z.rem_mul_r; [|lia|apply Z.pow_pos_nonneg; lia].
  rewrite Z.pow_add_r, Z.pow_1_r by lia. rewrite <- Z.div_div; [done| |lia].
  pose proof (Z.pow_pos_nonneg 256 i). lia.
Qed.

(** A store leaves the words it does not overlap alone. *)
Lemma ldn_stn_disjoint n n' m a a' v :
  a' + Z.of_nat n' <= a ∨ a + Z.of_nat n <= a' -> ldn n' (stn n m a v) a' = ldn n' m a'.
Proof. intros H. apply ldn_ext. intros b Hb. rewrite ld8_stn, decide_False by lia. done. Qed.

Lemma ld64_range m a : 0 <= ld64 m a < 2 ^ 64.
Proof. apply (ldn_range 8). Qed.
Lemma ld64_st64 m a v : 0 <= v < 2 ^ 64 -> ld64 (st64 m a v) a = v.
Proof. intros. unfold ld64, st64. rewrite ldn_stn. by apply Z.mod_small. Qed.
Lemma ld64_st64_ne m a b v : b + 8 <= a ∨ a + 8 <= b -> ld64 (st64 m a v) b = ld64 m b.
Proof. intros. by apply ldn_stn_disjoint. Qed.
Lemma ld64_st32_ne m a b v : b + 8 <= a ∨ a + 4 <= b -> ld64 (st32 m a v) b = ld64 m b.
Proof. intros. by apply ldn_stn_disjoint. Qed.
Lemma ld32_st64_ne m a b v : b + 4 <= a ∨ a + 8 <= b -> ld32 (st64 m a v) b = ld32 m b.
Proof. intros. by apply ldn_stn_disjoint. Qed.
Lemma ld32_st32_ne m a b v : b + 4 <= a ∨ a + 4 <= b -> ld32 (st32 m a v) b = ld32 m b.
Proof. intros. by apply ldn_stn_disjoint. Qed.
Lemma ld32_st32 m a v : 0 <= v < 2 ^ 32 -> ld32 (st32 m a v) a = v.
Proof. intros. unfold ld32, st32. rewrite ldn_stn. by apply Z.mod_small. Qed.
Lemma ld8_st32_ne m a v b : ¬ (a <= b < a + 4) -> ld8 (st32 m a v) b = ld8 m b.
Proof. intros Hb. unfold st32. by rewrite ld8_stn, decide_False by lia. Qed.
Lemma ld8_st64_out m a v b : ¬ (a <= b < a + 8) -> ld8 (st64 m a v) b = ld8 m b.
Proof. intros Hb. unfold st64. by rewrite ld8_stn, decide_False by lia. Qed.
Lemma ld32_ext m m' a : (∀ b, a <= b < a + 4 -> ld8 m b = ld8 m' b) -> ld32 m a = ld32 m' a.
Proof. apply (ldn_ext 4). Qed.
Lemma ld64_ext m m' a :
  (∀ b, a <= b < a + 8 -> ld8 m b = ld8 m' b) -> ld64 m a = ld64 m' a.
Proof. apply (ldn_ext 8). Qed.
End memory_lemmas.

(** ** What the routines leave in memory *)
Section string_lemmas.
Implicit Types m : memory.

Lemma memset_loop_spec left i dst c m a :
  ld8 (memset_loop left i dst c m) a =
  if decide (dst + i <= a < dst + i + Z.of_nat left) then u8 c else ld8 m a.
Proof.
  revert i m. induction left as [|left IH]; intros i m; cbn.
  { rewrite decide_False by lia. done. }
  rewrite IH, ld8_st8. repeat case_decide; try done; lia.
Qed.

Lemma memset_spec dst c n m a :
  0 <= n ->
  ld8 (memset dst c n m) a = if decide (dst <= a < dst + n) then u8 c else ld8 m a.
Proof.
  intros Hn. unfold memset. rewrite memset_loop_spec.
  repeat case_decide; try done; lia.
Qed.

Lemma move_up_spec n d s m a :
  (s < d -> s + Z.of_nat n <= d) ->
  ld8 (move_up n d s m) a =
  if decide (d <= a < d + Z.of_nat n) then ld8 m (s + (a - d)) else ld8 m a.
Proof.
  revert d s m. induction n as [|n IH]; intros d s m H; cbn.
  { rewrite decide_False by lia. done. }
  rewrite IH by lia. rewrite !ld8_st8, u8_ld8. repeat case_decide; try lia; subst; try done.
  all: f_equal; lia.
Qed.

Lemma move_down_spec n d s m a :
  s < d ->
  ld8 (move_down n d s m) a =
  if decide (d - Z.of_nat n <= a < d) then ld8 m (s + (a - d)) else ld8 m a.
Proof.
  revert d s m. induction n as [|n IH]; intros d s m H; cbn.
  { rewrite decide_False by lia. done. }
  rewrite IH by lia. rewrite !ld8_st8, u8_ld8. repeat case_decide; try lia; subst; try done.
  all: f_equal; lia.
Qed.

Lemma move_down_same n d m a : ld8 (move_down n d d m) a = ld8 m a.
Proof.
  revert d m. induction n as [|n IH]; intros d m; [done|]. cbn. rewrite IH, ld8_st8, u8_ld8. by case_decide; subst.
Qed.

Lemma memmove_bytes dst src n m a :
  0 <= n ->
  ld8 (memmove dst src n m) a =
  if decide (dst <= a < dst + n) then ld8 m (src + (a - dst)) else ld8 m a.
Proof.
  intros Hn. unfold memmove. destruct (Z.eqb_spec n 0); [rewrite decide_False by lia; done|].
  destruct (Z.ltb_spec src dst), (Z.ltb_spec dst (src + n)); cbn.
  - rewrite move_down_spec by lia. repeat case_decide; try lia; try done. f_equal. lia.
  - rewrite move_up_spec by lia. repeat case_decide; try done; lia.
  - rewrite move_up_spec by lia. repeat case_decide; try done; lia.
  - rewrite move_up_spec by lia. repeat case_decide; try done; lia.
Qed.

(** The bytes [a .. a + n - 1]. *)
Fixpoint bytes (n : nat) m (a : Z) : list Z :=
  match n with
  | O => []
  | S n' => ld8 m a :: bytes n' m (a + 1)
  end.

Lemma ld8_write_bytes l a m b :
  ld8 (write_bytes a l m) b = if decide (a <= b < a + Z.of_nat (length l)) then u8 (l !!! Z.to_nat (b - a)) else ld8 m b.
Proof.
  revert a m. induction l as [|x l IH]; intros a m; cbn [write_bytes length].
  { rewrite decide_False by lia. done. }
  rewrite IH, ld8_st8. destruct (decide (a = b)) as [<-|Hne].
  - rewrite decide_False, decide_True by lia. by replace (Z.to_nat (a - a)) with 0%nat by lia.
  - destruct (decide (a + 1 <= b < a + 1 + Z.of_nat (length l))) as [H1|H1].
    + rewrite decide_True by lia. by replace (Z.to_nat (b - a)) with (S (Z.to_nat (b - (a + 1)))) by lia.
    + by rewrite decide_False by lia.
Qed.

Lemma bytes_written l a m : Forall (λ c, 0 <= c < 256) l -> bytes (length l) (write_bytes a l m) a = l.
Proof.
  intros Hl. revert a m. induction Hl as [|c l Hc Hl IH]; intros a m; [done|]. cbn [length bytes write_bytes]. f_equal; [|apply IH].
  rewrite ld8_write_bytes, decide_False, ld8_st8, decide_True by (done || lia). by apply Z.mod_small.
Qed.

(** What a name of [n] bytes is on disk: cut at the first NUL and padded
    with NULs. *)
Fixpoint nul_pad (l : list Z) : list Z :=
  match l with
  | [] => []
  | x :: l' => if x =? 0 then 0 :: replicate (length l') 0 else x :: nul_pad l'
  end.

Lemma length_bytes n m a : length (bytes n m a) = n.
Proof. revert a. induction n; intros; cbn; [done|by f_equal]. Qed.

Lemma bytes_app n n' m a : bytes (n + n') m a = bytes n m a ++ bytes n' m (a + Z.of_nat n).
Proof.
  revert a. induction n as [|n IH]; intros a; cbn [bytes Nat.add app]; [f_equal; lia|].
  f_equal. rewrite IH. do 2 f_equal. lia.
Qed.

Lemma bytes_ext n m m' a :
  (∀ b, a <= b < a + Z.of_nat n -> ld8 m b = ld8 m' b) -> bytes n m a = bytes n m' a.
Proof.
  revert a. induction n as [|n IH]; intros a H; [done|]. cbn. f_equal; [apply H; lia|].
  apply IH. intros b Hb. apply H. lia.
Qed.

Lemma bytes_shift n m m' a a' :
  (∀ i, 0 <= i < Z.of_nat n -> ld8 m (a + i) = ld8 m' (a' + i)) -> bytes n m a = bytes n m' a'.
Proof.
  revert a a'. induction n as [|n IH]; intros a a' H; [done|]. cbn. f_equal.
  - specialize (H 0). rewrite !Z.add_0_r in H. apply H. lia.
  - apply IH. intros i Hi. replace (a + 1 + i) with (a + (i + 1)) by lia.
    replace (a' + 1 + i) with (a' + (i + 1)) by lia. apply H. lia.
Qed.

Lemma bytes_zero n m a :
  (∀ b, a <= b < a + Z.of_nat n -> ld8 m b = 0) -> bytes n m a = replicate n 0.
Proof.
  revert a. induction n as [|n IH]; intros a H; [done|]. cbn. f_equal; [apply H; lia|].
  apply IH. intros b Hb. apply H. lia.
Qed.

Lemma strncpy_pad_spec n s m a :
  ld8 (strncpy_pad n s m) a = if decide (s <= a < s + Z.of_nat n) then 0 else ld8 m a.
Proof.
  revert s m. induction n as [|n IH]; intros s m; cbn.
  { rewrite decide_False by lia. done. }
  rewrite IH, ld8_st8. repeat case_decide; try done; lia.
Qed.

Lemma strncpy_loop_outside n s t m a :
  ¬ (s <= a < s + Z.of_nat n) -> ld8 (strncpy_loop n s t m) a = ld8 m a.
Proof.
  revert s t m. induction n as [|n IH]; intros s t m H; cbn; [done|].
  case_match.
  - rewrite IH, ld8_st8, decide_False by lia. done.
  - rewrite strncpy_pad_spec, decide_False, ld8_st8, decide_False by lia. done.
Qed.

Lemma strncpy_loop_spec n s t m :
  (t + Z.of_nat n <= s ∨ s + Z.of_nat n <= t) ->
  bytes n (strncpy_loop n s t m) s = nul_pad (bytes n m t).
Proof.
  revert s t m. induction n as [|n IH]; intros s t m H; [done|].
  cbn. rewrite ld8_st8, decide_True, u8_ld8 by done.
  assert (bytes n (st8 m s (ld8 m t)) (t + 1) = bytes n m (t + 1)) as Hsrc.
  { apply bytes_ext. intros b Hb. rewrite ld8_st8, decide_False by lia. done. }
  destruct (Z.eqb_spec (ld8 m t) 0) as [E|E]; cbn.
  - rewrite strncpy_pad_spec, decide_False, ld8_st8, decide_True, u8_ld8, E by lia.
    f_equal. rewrite length_bytes. apply bytes_zero.
    intros b Hb. rewrite strncpy_pad_spec, decide_True by lia. done.
  - rewrite IH by lia. f_equal; [|by f_equal].
    rewrite strncpy_loop_outside, ld8_st8, decide_True, u8_ld8 by lia. done.
Qed.

Lemma nul_pad_zeros n : nul_pad (replicate n 0) = replicate n 0.
Proof. destruct n; cbn; [done|]. by rewrite length_replicate. Qed.

Lemma strncmp_loop_spec n p q m :
  strncmp_loop n p q m = 0 <-> nul_pad (bytes n m p) = nul_pad (bytes n m q).
Proof.
  revert p q. induction n as [|n IH]; intros p q; [done|]. cbn.
  rewrite !length_bytes. specialize (IH (p + 1) (q + 1)).
  destruct (Z.eqb_spec (ld8 m p) 0), (Z.eqb_spec (ld8 m p) (ld8 m q)) as [E|E],
    (Z.eqb_spec (ld8 m q) 0); cbn; try lia.
  all: try (split; [intros; f_equal; lia|intros [=]; lia]).
  rewrite IH. split; [by intros ->; rewrite E|by intros [=]].
Qed.

Lemma safestrcpy_outside n s t m a :
  ¬ (s <= a <= s + Z.of_nat n) -> ld8 (safestrcpy_loop n s t m) a = ld8 m a.
Proof.
  revert s t m. induction n as [|n IH]; intros s t m H; cbn.
  { rewrite ld8_st8, decide_False by lia. done. }
  case_match.
  - rewrite IH, ld8_st8, decide_False by lia. done.
  - rewrite !ld8_st8, !decide_False by lia. done.
Qed.

(** The copy ends in a NUL inside the buffer and agrees with the source
    before it; the NUL is the source's own or the last byte. *)
Lemma safestrcpy_loop_spec n s t m :
  (t + Z.of_nat n <= s ∨ s + Z.of_nat n < t) ->
  ∃ j, 0 <= j <= Z.of_nat n ∧
    ld8 (safestrcpy_loop n s t m) (s + j) = 0 ∧
    (∀ i, 0 <= i < j -> ld8 (safestrcpy_loop n s t m) (s + i) = ld8 m (t + i) ∧
                        ld8 m (t + i) ≠ 0) ∧
    (j < Z.of_nat n -> ld8 m (t + j) = 0).
Proof.
  revert s t m. induction n as [|n IH]; intros s t m H; cbn.
  { exists 0. rewrite ld8_st8, decide_True by lia. repeat split; lia. }
  rewrite ld8_st8, decide_True, u8_ld8 by done.
  destruct (Z.eqb_spec (ld8 m t) 0) as [E|E]; cbn.
  - exists 0. rewrite !Z.add_0_r, ld8_st8, decide_False, ld8_st8, decide_True, u8_ld8 by lia.
    repeat split; lia.
  - destruct (IH (s + 1) (t + 1) (st8 m s (ld8 m t))) as (j & Hj & Hz & Hpre & Hend); [lia|].
    exists (j + 1). split_and!; [lia|lia| | |].
    + by replace (s + (j + 1)) with (s + 1 + j) by lia.
    + intros i Hi. destruct (decide (i = 0)) as [->|].
      * rewrite safestrcpy_outside, !Z.add_0_r, ld8_st8, decide_True, u8_ld8 by lia. done.
      * destruct (Hpre (i - 1)) as [Hp Hp']; [lia|].
        rewrite ld8_st8, decide_False in Hp, Hp' by lia.
        replace (s + i) with (s + 1 + (i - 1)) by lia.
        by replace (t + i) with (t + 1 + (i - 1)) by lia.
    + intros Hlt. specialize (Hend ltac:(lia)). rewrite ld8_st8, decide_False in Hend by lia.
      by replace (t + (j + 1)) with (t + 1 + j) by lia.
Qed.

Lemma strlen_loop_spec fuel s n m k :
  0 <= k -> (Z.to_nat k < fuel)%nat ->
  (∀ i, 0 <= i < k -> ld8 m (s + n + i) ≠ 0) -> ld8 m (s + n + k) = 0 ->
  strlen_loop fuel s n m = Some (n + k).
Proof.
  revert n k. induction fuel as [|fuel IH]; intros n k Hk Hf Hne Hz; [lia|]. cbn.
  destruct (Z.eqb_spec (ld8 m (s + n)) 0) as [E|E].
  - destruct (decide (k = 0)) as [->|]; [f_equal; lia|].
    destruct (Hne 0); [lia|]. by rewrite Z.add_0_r.
  - assert (k ≠ 0) by (intros ->; by rewrite Z.add_0_r in Hz).
    rewrite (IH (n + 1) (k - 1)); [f_equal; lia|lia|lia| |].
    + intros i Hi. replace (s + (n + 1) + i) with (s + n + (i + 1)) by lia. apply Hne. lia.
    + by replace (s + (n + 1) + (k - 1)) with (s + n + k) by lia.
Qed.
End string_lemmas.

(** Conversion compares memories by their updates, not byte by byte. *)
#[global] Strategy 1000 [memset memmove memset_loop move_up move_down stn ldn st64 ld64 st8 ld8].

(** ** Fields of structures in byte arrays *)
Lemma length_le_bytes n v : length (le_bytes n v) = n.
Proof. revert v. induction n as [|n IH]; intros v; cbn; by rewrite ?IH. Qed.

Lemma le_val_bytes n v : 0 <= v < 256 ^ Z.of_nat n -> le_val (le_bytes n v) = v.
Proof.
  revert v. induction n as [|n IH]; intros v Hv; cbn; [cbn in Hv; lia|].
  rewrite Nat2Z.inj_succ, Z.pow_succ_r in Hv by lia.
  rewrite IH; [pose proof (Z.div_mod v 256); lia|].
  split; [apply Z.div_pos; lia|]. apply Z.div_lt_upper_bound; lia.
Qed.

Lemma length_splice off bs l : (off + length bs <= length l)%nat -> length (splice off bs l) = length l.
Proof. intros. unfold splice. rewrite !length_app, length_take, length_drop. lia. Qed.

Lemma lookup_total_splice off bs l i : (off <= length l)%nat ->
  splice off bs l !!! i = if decide (off <= i < off + length bs)%nat then bs !!! (i - off)%nat else l !!! i.
Proof.
  intros Hl. unfold splice. assert (length (take off l) = off) as Et by (rewrite length_take; lia).
  rewrite list_lookup_total_alt. case_decide as Hi; rewrite list_lookup_total_alt; f_equal.
  - by rewrite lookup_app_r, lookup_app_l, Et by lia.
  - destruct (decide (i < off)%nat).
    + rewrite lookup_app_l by lia. by apply lookup_take_lt.
    + rewrite lookup_app_r, lookup_app_r, Et, lookup_drop by lia. f_equal. lia.
Qed.
Lemma lookup_total_take_drop k off (l : list Z) i : (i < k)%nat -> take k (drop off l) !!! i = l !!! (off + i)%nat.
Proof. intros. by rewrite !list_lookup_total_alt, lookup_take_lt, lookup_drop by done. Qed.

Lemma splice_same off bs l :
  (off + length bs <= length l)%nat -> take (length bs) (drop off (splice off bs l)) = bs.
Proof.
  intros. unfold splice. rewrite drop_app_length' by (rewrite length_take; lia). by rewrite take_app_length.
Qed.

Lemma splice_before off bs l n o :
  (o + n <= off)%nat -> (off <= length l)%nat ->
  take n (drop o (splice off bs l)) = take n (drop o l).
Proof.
  intros. apply list_eq. intros i. destruct (decide (i < n)%nat) as [Hi|];
    [|by rewrite !lookup_take_ge by lia].
  rewrite !lookup_take_lt, !lookup_drop by done. unfold splice.
  rewrite lookup_app_l by (rewrite length_take; lia). by rewrite lookup_take_lt by lia.
Qed.

Lemma splice_after off bs l n o :
  (off + length bs <= o)%nat -> (off + length bs <= length l)%nat ->
  take n (drop o (splice off bs l)) = take n (drop o l).
Proof.
  intros. f_equal. unfold splice. rewrite app_assoc.
  replace o with (length (take off l ++ bs) + (o - (off + length bs)))%nat
    by (rewrite length_app, length_take; lia).
  rewrite drop_app_add, drop_drop. f_equal. rewrite length_app, length_take. lia.
Qed.

Lemma get_put_le n off v l :
  (off + n <= length l)%nat -> 0 <= v < 256 ^ Z.of_nat n -> get_le n off (put_le n off v l) = v.
Proof.
  intros Hl Hv. unfold get_le, put_le. rewrite <- (length_le_bytes n v) at 1.
  rewrite splice_same by (by rewrite length_le_bytes). by apply le_val_bytes.
Qed.
Lemma get_put_le_ne n off v l n' off' :
  (off + n <= length l)%nat -> (off' + n' <= off \/ off + n <= off')%nat ->
  get_le n' off' (put_le n off v l) = get_le n' off' l.
Proof.
  intros Hl [H|H]; unfold get_le, put_le.
  - by rewrite splice_before by (rewrite ?length_le_bytes; lia).
  - by rewrite splice_after by (rewrite ?length_le_bytes; lia).
Qed.
Lemma length_put_le n off v l : (off + n <= length l)%nat -> length (put_le n off v l) = length l.
Proof. intros. unfold put_le. apply length_splice. by rewrite length_le_bytes. Qed.

(** C36. [memmove] copies the bytes the source had when it was called, also
    when the two regions overlap, and changes nothing else. *)
Theorem memmove_copies dst src n m :
  0 <= n -> bytes (Z.to_nat n) (memmove dst src n m) dst = bytes (Z.to_nat n) m src ∧
    ∀ a, ¬ (dst <= a < dst + n) -> ld8 (memmove dst src n m) a = ld8 m a.
Proof.
  intros Hn. split; [|intros a Ha; rewrite memmove_bytes, decide_False by done; done].
  assert (∀ j i, 0 <= i -> i + Z.of_nat j <= n ->
    bytes j (memmove dst src n m) (dst + i) = bytes j m (src + i)) as H.
  { induction j as [|j IH]; intros i Hi Hj; [done|]. cbn.
    rewrite memmove_bytes, decide_True by lia. f_equal; [f_equal; lia|].
    replace (dst + i + 1) with (dst + (i + 1)) by lia. replace (src + i + 1) with (src + (i + 1)) by lia.
    apply IH; lia. }
  specialize (H (Z.to_nat n) 0). rewrite !Z.add_0_r in H. apply H; lia.
Qed.
Lemma memmove_copies_witness :
  let m := st8 (st8 (st8 ∅ 10 1) 11 2) 12 3 in
  bytes 3 (memmove 11 10 3 m) 11 = [1; 2; 3] ∧ ld8 (memmove 11 10 3 m) 10 = 1.
Proof.
  cbv zeta. set (m := st8 (st8 (st8 ∅ 10 1) 11 2) 12 3).
  destruct (memmove_copies 11 10 3 m ltac:(lia)) as [H1 H2]. split.
  - exact (eq_trans H1 eq_refl).
  - exact (eq_trans (H2 10 ltac:(lia)) eq_refl).
Defined.

(** A name of [n] bytes that [strncpy] stored is found by [strncmp], the
    way directories store and look up names: the comparison with the stored
    name is equal exactly for the names that agree up to their first NUL. *)
Theorem strncpy_strncmp d t q n m :
  (t + n <= d ∨ d + n <= t) -> (q + n <= d ∨ d + n <= q) -> 0 <= n ->
  strncmp q d n (strncpy d t n m) = 0 <->
  nul_pad (bytes (Z.to_nat n) m q) = nul_pad (bytes (Z.to_nat n) m t).
Proof.
  intros Ht Hq Hn. unfold strncmp, strncpy. rewrite strncmp_loop_spec, strncpy_loop_spec by lia.
  replace (bytes (Z.to_nat n) (strncpy_loop (Z.to_nat n) d t m) q) with (bytes (Z.to_nat n) m q).
  - assert (∀ l, nul_pad (nul_pad l) = nul_pad l) as ->; [|done].
    induction l as [|x l IH]; [done|]. cbn. destruct (x =? 0) eqn:E; cbn; rewrite ?E, ?length_replicate; [done|].
    by rewrite IH.
  - apply bytes_ext. intros b Hb. rewrite strncpy_loop_outside by lia. done.
Qed.
Lemma strncpy_strncmp_witness :
  let m := st8 (st8 (st8 (st8 ∅ 0 97) 1 98) 20 97) 21 98 in
  strncmp 20 40 14 (strncpy 40 0 14 m) = 0.
Proof.
  cbv zeta. apply (strncpy_strncmp 40 0 20 14); [lia|lia|lia|]. reflexivity.
Defined.
