(* ===== verification/Kalloc.v ===== *)
(** * The physical page allocator: [kernel/kalloc.c]

    Free pages form a list threaded through their first word.  [kmem_inv k l]
    says that the list is [l], that its pages are distinct, page-aligned and
    between the end of the kernel and the end of RAM.  [kalloc] and [kfree]
    are proved to be pop and push on [l], and [kinit] to put every page of the
    range on it. *)
From S2P Require Import Prelude Layout KState Spinlock CString.

Definition load64 (a : Z) : M Z := gets (λ k, ld64 (mem k) a).
Definition store64 (a v : Z) : M () := modify (λ k, k <| mem ::= λ m, st64 m a v |>).
Definition do_memset (dst c n : Z) : M () := modify (λ k, k <| mem ::= memset dst c n |>).
Definition do_memmove (dst src n : Z) : M () := modify (λ k, k <| mem ::= memmove dst src n |>).

Section kalloc.
Context {L : Linker}.

(** ** The code *)

Definition kfree (pa : Z) : M () :=
  if negb (pa mod PGSIZE =? 0) || (pa <? l_end) || (PHYSTOP <=? pa) then panic "kfree" else
  do_memset pa 1 PGSIZE ;;
  acquire LkKmem ;;
  fl ← gets freelist;
  store64 pa fl ;;
  modify (λ k, k <| freelist := pa |>) ;;
  release LkKmem.

Definition kalloc : M Z :=
  acquire LkKmem ;;
  r ← gets freelist;
  when (negb (r =? 0)) (next ← load64 r; modify (λ k, k <| freelist := next |>)) ;;
  release LkKmem ;;
  when (negb (r =? 0)) (do_memset r 5 PGSIZE) ;;
  mret r.

(** The loop [for(; p + PGSIZE <= pa_end; p += PGSIZE) kfree(p);]; [fuel]
    bounds the iterations, and running out of it is not a return. *)
Fixpoint freerange_loop (fuel : nat) (p pa_end : Z) : M () :=
  match fuel with
  | O => spin
  | S fuel' =>
      if p + PGSIZE <=? pa_end
      then kfree p ;; freerange_loop fuel' (p + PGSIZE) pa_end
      else mret ()
  end.
Definition freerange (pa_start pa_end : Z) : M () :=
  freerange_loop (S (Z.to_nat ((pa_end - PGROUNDUP pa_start) / PGSIZE)))
    (PGROUNDUP pa_start) pa_end.

Definition kinit : M () :=
  initlock LkKmem ;;
  freerange l_end PHYSTOP.

(** ** Invariant *)

Fixpoint chain (m : memory) (head : Z) (l : list Z) : Prop :=
  match l with
  | [] => head = 0
  | p :: l' => head = p ∧ chain m (ld64 m p) l'
  end.

Definition page_ok (p : Z) : Prop := p mod PGSIZE = 0 ∧ l_end <= p < PHYSTOP.

Record kmem_inv (k : kernel) (l : list Z) : Prop := {
  kmem_chain : chain (mem k) (freelist k) l;
  kmem_pages : Forall page_ok l;
  kmem_nodup : NoDup l;
}.

(** ** Proofs *)
Context `{LO : !LinkerOk L}.

Lemma page_ok_pos p : page_ok p -> 0 < p.
Proof.
  intros [_ H]. pose proof l_kernbase. pose proof l_end_range. pose proof l_trampoline_etext.
  unfold KERNBASE, PGSIZE in *. lia.
Qed.

(** Distinct pages do not overlap. *)
Lemma page_disjoint p q :
  p mod PGSIZE = 0 -> q mod PGSIZE = 0 -> p ≠ q -> p + PGSIZE <= q ∨ q + PGSIZE <= p.
Proof. unfold PGSIZE. intros. zlia. Qed.

Lemma chain_ext m m' h l :
  (∀ p, p ∈ l -> ld64 m' p = ld64 m p) -> chain m h l -> chain m' h l.
Proof.
  revert h. induction l as [|p l IH]; intros h Heq; cbn; [done|]. intros [-> Hc].
  split; [done|]. rewrite Heq by set_solver. apply IH; [set_solver|done].
Qed.

Definition kfree_state (pa : Z) (k : kernel) : kernel :=
  k <| mem := st64 (memset pa 1 PGSIZE (mem k)) pa (freelist k) |>
    <| freelist := pa |> <| mach ::= touch |>.

Lemma kfree_eq pa k :
  page_ok pa -> can_lock LkKmem (mach k) -> kfree pa k = Ret () (kfree_state pa k).
Proof.
  intros [Hal Hr] Hlk. unfold kfree.
  rewrite Hal, Z.eqb_refl, (proj2 (Z.ltb_ge _ _)), (proj2 (Z.leb_gt _ _)) by lia. cbn [negb orb].
  unfold do_memset, store64. rewrite bind_modify. step_acquire Hlk.
  rewrite bind_gets, !bind_modify. step_release Hlk. unfold kfree_state. keq.
Qed.

(** Everything [kfree] checks is in [page_ok]. *)
Lemma kfree_panics pa k : ¬ page_ok pa -> kfree pa k = Panic "kfree" k.
Proof.
  intros Hp. unfold kfree, page_ok in *.
  destruct (Z.eqb_spec (pa mod PGSIZE) 0), (Z.ltb_spec pa l_end), (Z.leb_spec PHYSTOP pa);
    cbn; try done. lia.
Qed.

Lemma kfree_mem pa k b :
  ¬ (pa <= b < pa + PGSIZE) -> ld8 (mem (kfree_state pa k)) b = ld8 (mem k) b.
Proof.
  intros Hb. cbn. unfold st64. rewrite ld8_stn, decide_False by (unfold PGSIZE in *; lia).
  rewrite memset_spec, decide_False by (unfold PGSIZE in *; lia). done.
Qed.

Lemma kfree_inv pa k l :
  kmem_inv k l -> page_ok pa -> pa ∉ l -> kmem_inv (kfree_state pa k) (pa :: l).
Proof.
  intros [Hc Hp Hd] Hpa Hni. split; [|by constructor|by constructor].
  split; [done|]. cbn [mem freelist kfree_state].
  replace (ld64 _ pa) with (freelist k).
  - apply (chain_ext (mem k)); [|done]. intros q Hq. apply ld64_ext. intros b Hb.
    apply (kfree_mem pa k). rewrite Forall_forall in Hp.
    destruct (Hp _ Hq) as [Hq' _], Hpa as [Hpa _].
    pose proof (page_disjoint pa q Hpa Hq' ltac:(by intros ->)). unfold PGSIZE in *. lia.
  - symmetry. apply ld64_st64. destruct l as [|q l]; cbn in Hc; [lia|].
    destruct Hc as [-> _]. apply Forall_cons in Hp as [Hq _].
    pose proof (page_ok_pos q Hq). destruct Hq as [_ ?]. unfold PHYSTOP, KERNBASE in *. lia.
Qed.

Definition kalloc_state (p : Z) (k : kernel) : kernel :=
  k <| mem ::= memset p 5 PGSIZE |> <| freelist := ld64 (mem k) p |> <| mach ::= touch |>.

(** With an empty list [kalloc] returns 0; otherwise it pops the head. *)
Lemma kalloc_eq k l :
  kmem_inv k l -> can_lock LkKmem (mach k) ->
  kalloc k = match l with
             | [] => Ret 0 (k <| mach ::= touch |>)
             | p :: _ => Ret p (kalloc_state p k)
             end.
Proof.
  intros [Hc Hp Hd] Hlk. unfold kalloc. step_acquire Hlk. rewrite bind_gets. cbn [freelist set set_mach].
  destruct l as [|p l]; cbn in Hc.
  - rewrite Hc. cbn [Z.eqb negb when]. rewrite bind_ret. step_release Hlk. keq.
  - destruct Hc as [-> Hc]. apply Forall_cons in Hp as [Hq _]. pose proof (page_ok_pos p Hq).
    rewrite (proj2 (Z.eqb_neq p 0)) by lia. cbn [negb when].
    rewrite bind_bind. unfold load64, do_memset. rewrite bind_gets, bind_modify.
    step_release Hlk. rewrite bind_modify. unfold kalloc_state. keq.
Qed.

Lemma kalloc_inv k p l : kmem_inv k (p :: l) -> kmem_inv (kalloc_state p k) l.
Proof.
  intros [[Hf Hc] Hp Hd]. apply Forall_cons in Hp as [Hq Hp]. apply NoDup_cons in Hd as [Hni Hd].
  split; [|done..]. cbn [mem freelist kalloc_state].
  apply (chain_ext (mem k)); [|done]. intros q Hin. apply ld64_ext. intros b Hb.
  cbn. rewrite Forall_forall in Hp. destruct (Hp _ Hin) as [Hal _], Hq as [Hal' _].
  rewrite memset_spec, decide_False; [done| |done].
  pose proof (page_disjoint p q Hal' Hal ltac:(by intros ->)). unfold PGSIZE in *. lia.
Qed.

(** The [n] pages from [p] on. *)
Fixpoint page_range (n : nat) (p : Z) : list Z :=
  match n with
  | O => []
  | S n' => p :: page_range n' (p + PGSIZE)
  end.

Lemma elem_of_page_range n p q :
  p mod PGSIZE = 0 ->
  q ∈ page_range n p <-> q mod PGSIZE = 0 ∧ p <= q < p + Z.of_nat n * PGSIZE.
Proof.
  revert p. induction n as [|n IH]; intros p Hp; cbn [page_range].
  { rewrite elem_of_nil. unfold PGSIZE. lia. }
  rewrite elem_of_cons, IH by (unfold PGSIZE in *; zlia). unfold PGSIZE in *. split.
  - intros [->|[? ?]]; split; try done; zlia.
  - intros [Hq ?]. destruct (decide (q = p)); [by left|right; split; [done|zlia]].
Qed.

Lemma freerange_loop_spec fuel n p pa_end k l :
  p mod PGSIZE = 0 -> l_end <= p -> pa_end <= PHYSTOP ->
  p + Z.of_nat n * PGSIZE <= pa_end < p + (Z.of_nat n + 1) * PGSIZE -> (n < fuel)%nat ->
  (∀ q, q ∈ l -> q < p) -> kmem_inv k l -> can_lock LkKmem (mach k) ->
  ∃ k', freerange_loop fuel p pa_end k = Ret () k' ∧
        kmem_inv k' (rev (page_range n p) ++ l) ∧ can_lock LkKmem (mach k').
Proof.
  revert p k l fuel. induction n as [|n IH]; intros p k l [|fuel] Hal Hend Htop Hn Hf Hl Hinv Hlk;
    try lia; cbn [freerange_loop page_range].
  { rewrite (proj2 (Z.leb_gt _ _)) by lia. by exists k. }
  rewrite (proj2 (Z.leb_le _ _)) by (unfold PGSIZE in *; lia).
  assert (page_ok p) as Hp by (split; [done|unfold PGSIZE in *; lia]).
  assert (p ∉ l) as Hni by (intros Hin; specialize (Hl _ Hin); lia).
  rewrite (bind_Ret _ _ _ _ _ (kfree_eq p k Hp Hlk)).
  destruct (IH (p + PGSIZE) (kfree_state p k) (p :: l) fuel) as (k' & Hk' & Hi & Hlk').
  - unfold PGSIZE in *. zlia.
  - unfold PGSIZE in *. lia.
  - done.
  - lia.
  - lia.
  - intros q Hq. apply elem_of_cons in Hq as [->|Hq]; [unfold PGSIZE; lia|].
    specialize (Hl _ Hq). unfold PGSIZE. lia.
  - by apply kfree_inv.
  - by apply can_lock_touch.
  - exists k'. split_and!; [done| |done]. cbn [rev]. by rewrite <- app_assoc.
Qed.

Lemma initlock_ok l k :
  hart_ok 2 (mach k) ->
  ∃ m, initlock l k = Ret () (k <| mach := m |>) ∧ can_lock l m.
Proof.
  intros Hh. eexists. split; [reflexivity|]. destruct Hh. split; [by split|].
  apply lookup_insert_eq.
Qed.
End kalloc.

(** ** Abstract specification: a stack of free pages *)
Module PageStack.
Section page_stack.
Context {L : Linker}.

Inductive op : Type := Alloc | Free (pa : Z).

Definition page_okb (p : Z) : bool :=
  (p mod PGSIZE =? 0) && (l_end <=? p) && (p <? PHYSTOP).

(** The results of a sequence of calls and the final stack; [None] when a call
    frees a page that is not a page of the range or that is already free. *)
Fixpoint run_abs (ops : list op) (l : list Z) : option (list Z * list Z) :=
  match ops with
  | [] => Some ([], l)
  | Alloc :: ops' =>
      let '(r, l1) := match l with [] => (0, []) | p :: l' => (p, l') end in
      '(rs, l2) ← run_abs ops' l1; Some (r :: rs, l2)
  | Free pa :: ops' =>
      if page_okb pa && bool_decide (pa ∉ l)
      then '(rs, l2) ← run_abs ops' (pa :: l); Some (pa :: rs, l2)
      else None
  end.

(** The same calls made to the allocator. *)
Fixpoint run (ops : list op) : M (list Z) :=
  match ops with
  | [] => mret []
  | Alloc :: ops' => r ← kalloc; rs ← run ops'; mret (r :: rs)
  | Free pa :: ops' => kfree pa ;; rs ← run ops'; mret (pa :: rs)
  end.

Lemma page_okb_spec p : page_okb p = true <-> page_ok p.
Proof.
  unfold page_okb, page_ok. rewrite !andb_true_iff, Z.eqb_eq, Z.leb_le, Z.ltb_lt. tauto.
Qed.

Lemma run_refines `{!LinkerOk L} ops k l rs l' :
  kmem_inv k l -> can_lock LkKmem (mach k) -> run_abs ops l = Some (rs, l') ->
  ∃ k', run ops k = Ret rs k' ∧ kmem_inv k' l' ∧ can_lock LkKmem (mach k').
Proof.
  revert k l rs. induction ops as [|[|pa] ops IH]; intros k l rs Hi Hlk Hrun; cbn in Hrun.
  - simplify_eq. by exists k.
  - cbn [run]. pose proof (kalloc_eq k l Hi Hlk) as E. destruct l as [|p l];
      rewrite (bind_Ret _ _ _ _ _ E).
    + apply bind_Some in Hrun as ([rs1 l1] & Hrun & ?). simplify_eq.
      destruct (IH (k <| mach ::= touch |>) [] rs1) as (k' & Hk' & Hi' & Hlk');
        [destruct Hi; by split|by apply can_lock_touch|done|].
      exists k'. by rewrite (bind_Ret _ _ _ _ _ Hk').
    + apply bind_Some in Hrun as ([rs1 l1] & Hrun & ?). simplify_eq.
      destruct (IH (kalloc_state p k) l rs1) as (k' & Hk' & Hi' & Hlk');
        [by apply kalloc_inv|by apply can_lock_touch|done|].
      exists k'. by rewrite (bind_Ret _ _ _ _ _ Hk').
  - destruct (page_okb pa) eqn:Hp; [|done]. apply page_okb_spec in Hp. cbn in Hrun.
    case_bool_decide as Hni; [|done].
    apply bind_Some in Hrun as ([rs1 l1] & Hrun & ?). simplify_eq.
    cbn [run]. rewrite (bind_Ret _ _ _ _ _ (kfree_eq pa k Hp Hlk)).
    destruct (IH (kfree_state pa k) (pa :: l) rs1) as (k' & Hk' & Hi' & Hlk');
      [by apply kfree_inv|by apply can_lock_touch|done|].
    exists k'. by rewrite (bind_Ret _ _ _ _ _ Hk').
Qed.
End page_stack.
End PageStack.

Lemma kinit_all {L : Linker} `{!LinkerOk L} k :
  hart_ok 2 (mach k) -> freelist k = 0 ->
  ∃ k' l, kinit k = Ret () k' ∧ kmem_inv k' l ∧ can_lock LkKmem (mach k') ∧
    ∀ p, p ∈ l <-> page_ok p.
Proof.
  intros Hh Hf. unfold kinit. destruct (initlock_ok LkKmem k Hh) as (m & Hm & Hlk).
  rewrite (bind_Ret _ _ _ _ _ Hm). unfold freerange.
  pose proof l_end_range as He. pose proof l_kernbase as Hkb. pose proof l_trampoline_etext as Ht.
  unfold PHYSTOP, KERNBASE in *.
  destruct (PGROUNDUP_bounds l_end) as [Hu Hal]; [unfold PGSIZE in *; lia|].
  set (a := PGROUNDUP l_end) in *. set (n := Z.to_nat ((2147483648 + 128 * 1024 * 1024 - a) / PGSIZE)).
  assert (Hn : Z.of_nat n = (2147483648 + 128 * 1024 * 1024 - a) / PGSIZE).
  { unfold n. unfold PGSIZE in *. zlia. }
  destruct (freerange_loop_spec (S n) n a PHYSTOP (k <| mach := m |>) []) as (k' & Hk' & Hi & Hlk').
  - done.
  - lia.
  - done.
  - unfold PHYSTOP, KERNBASE, PGSIZE in *. zlia.
  - lia.
  - set_solver.
  - split; [done|constructor|constructor].
  - done.
  - exists k', (rev (page_range n a) ++ []). split_and!; [done..|].
    intros p. rewrite app_nil_r, list_elem_of_In, <- in_rev, <- list_elem_of_In.
    rewrite elem_of_page_range by done. unfold page_ok, PHYSTOP, KERNBASE, PGSIZE in *. zlia.
Qed.

(** ** The allocator's contract *)

(** C8. The allocator refines a stack of free pages.  After [kinit] the stack
    holds every page between the end of the kernel and the end of RAM, once;
    any sequence of [kalloc] and [kfree] calls then returns the results of the
    stack, as long as no free page is freed, and leaves a free list that is
    the stack again.  So no page is ever handed out twice. *)
Theorem allocator_refines_stack {L : Linker} `{!LinkerOk L} k :
  hart_ok 2 (mach k) -> freelist k = 0 ->
  ∃ k1 l, kinit k = Ret () k1 ∧ NoDup l ∧ (∀ p, p ∈ l <-> page_ok p) ∧
    ∀ ops rs l', PageStack.run_abs ops l = Some (rs, l') ->
      ∃ k2, PageStack.run ops k1 = Ret rs k2 ∧ kmem_inv k2 l'.
Proof.
  intros Hh Hf. destruct (kinit_all k Hh Hf) as (k1 & l & E & Hi & Hlk & Hp).
  exists k1, l. split_and!; [done|apply Hi|done|]. intros ops rs l' Hrun.
  destruct (PageStack.run_refines ops k1 l rs l' Hi Hlk Hrun) as (k2 & E2 & Hi2 & _). by exists k2.
Qed.

Lemma init_hart_ok : hart_ok 2 (mach kernel_init).
Proof. split; [cbn; lia..| |]; done. Qed.

Lemma allocator_refines_stack_witness :
  ∃ k1 (l : list Z), kinit kernel_init = Ret () k1 ∧ NoDup l ∧
    ∃ r k2, PageStack.run [PageStack.Alloc] k1 = Ret [r] k2.
Proof.
  destruct (allocator_refines_stack kernel_init init_hart_ok eq_refl) as (k1 & l & E & Hn & Hp & Hr).
  exists k1, l. split; [exact E|]. split; [exact Hn|].
  destruct l as [|p l].
  - destruct (Hr [PageStack.Alloc] [0] [] eq_refl) as (k2 & E2 & _). exists 0, k2. exact E2.
  - destruct (Hr [PageStack.Alloc] [p] l eq_refl) as (k2 & E2 & _). exists p, k2. exact E2.
Defined.

(** C37. [kfree] panics exactly on an address that is not a page of the range
    it manages: one that is not page-aligned, or lies in the kernel or above
    the end of RAM. *)
Theorem kfree_checks_address {L : Linker} pa k :
  can_lock LkKmem (mach k) -> kfree pa k = Panic "kfree" k <-> ¬ page_ok pa.
Proof.
  intros Hlk. split; [|apply kfree_panics]. intros E Hp. by rewrite kfree_eq in E.
Qed.

Definition demo_kernel : kernel :=
  kernel_init <| mach := (mach kernel_init) <| m_locks := {[LkKmem := mk_spinlock 0 None]} |> |>.

Lemma kfree_checks_address_witness :
  can_lock LkKmem (mach demo_kernel) ∧ kfree 4097 demo_kernel = Panic "kfree" demo_kernel.
Proof.
  assert (can_lock LkKmem (mach demo_kernel)) as H.
  { split; [destruct init_hart_ok; by split|]. reflexivity. }
  split; [exact H|]. apply (kfree_checks_address 4097 demo_kernel H). intros [Hp _]. discriminate Hp.
Defined.
