(* ===== verification/Vm.v ===== *)
(** * Virtual memory: [kernel/vm.c]

    Page tables are walked and built in physical memory.  A buffer in the
    kernel's own data (a C stack or static object) that [copyout] reads or
    [copyin] fills is a list of bytes.  Loops carry a bound on their
    iterations, computed from their arguments; running out of it is not a
    return. *)
From S2P Require Import Prelude Layout KState Spinlock CString Kalloc.

Definition read_proc {A} (i : nat) (f : proc -> A) : M A := gets (λ k, f (procs k !!! i)).
Definition write_proc (i : nat) (f : proc -> proc) : M () :=
  modify (λ k, k <| procs ::= upd i f |>).

(** [myproc()->field], the current process being known to exist. *)
Definition myproc_read {A} (f : proc -> A) : M A :=
  p ← myproc;
  match p with
  | Some i => read_proc i f
  | None => panic "null process"
  end.

Section vm.
Context {L : Linker}.

(** ** Walking and mapping *)

(** [for(int level = 2; level > 0; level--)]. *)
Fixpoint walk_loop (level : nat) (pagetable va : Z) (alloc : bool) : M Z :=
  match level with
  | O => mret (pagetable + 8 * PX 0 va)
  | S level' =>
      let pte := pagetable + 8 * PX (Z.of_nat level) va in
      e ← load64 pte;
      if negb (Z.land e PTE_V =? 0) then walk_loop level' (PTE2PA e) va alloc
      else if negb alloc then mret 0
      else
        pg ← kalloc;
        if pg =? 0 then mret 0
        else
          do_memset pg 0 PGSIZE ;;
          store64 pte (Z.lor (PA2PTE pg) PTE_V) ;;
          walk_loop level' pg va alloc
  end.
Definition walk (pagetable va : Z) (alloc : bool) : M Z :=
  if MAXVA <=? va then panic "walk" else walk_loop 2 pagetable va alloc.

Definition walkaddr (pagetable va : Z) : M Z :=
  if MAXVA <=? va then mret 0 else
  pte ← walk pagetable va false;
  if pte =? 0 then mret 0 else
  e ← load64 pte;
  if Z.land e PTE_V =? 0 then mret 0 else
  if Z.land e PTE_U =? 0 then mret 0 else
  mret (PTE2PA e).

Fixpoint mappages_loop (fuel : nat) (pagetable a last pa perm : Z) : M Z :=
  match fuel with
  | O => spin
  | S fuel' =>
      pte ← walk pagetable a true;
      if pte =? 0 then mret (-1) else
      e ← load64 pte;
      if negb (Z.land e PTE_V =? 0) then panic "mappages: remap" else
      store64 pte (Z.lor (Z.lor (PA2PTE pa) perm) PTE_V) ;;
      if a =? last then mret 0
      else mappages_loop fuel' pagetable (u64 (a + PGSIZE)) last (u64 (pa + PGSIZE)) perm
  end.
Definition mappages (pagetable va size pa perm : Z) : M Z :=
  if negb (va mod PGSIZE =? 0) then panic "mappages: va not aligned" else
  if negb (size mod PGSIZE =? 0) then panic "mappages: size not aligned" else
  if size =? 0 then panic "mappages: size" else
  mappages_loop (Z.to_nat (size / PGSIZE)) pagetable va (u64 (va + size - PGSIZE)) pa perm.

Definition ismapped (pagetable va : Z) : M bool :=
  pte ← walk pagetable va false;
  if pte =? 0 then mret false else
  e ← load64 pte;
  if negb (Z.land e PTE_V =? 0) then mret true else mret false.

(** ** The kernel's page table *)

Definition kvmmap (kpgtbl va pa sz perm : Z) : M () :=
  r ← mappages kpgtbl va sz pa perm;
  if negb (r =? 0) then panic "kvmmap" else mret ().

(** [kernel/proc.c] *)
Definition proc_mapstacks (kpgtbl : Z) : M () :=
  for_each (seq 0 NPROC) (λ p,
    pa ← kalloc;
    if pa =? 0 then panic "kalloc" else
    kvmmap kpgtbl (KSTACK (Z.of_nat p)) pa PGSIZE (Z.lor PTE_R PTE_W)).

Definition kvmmake : M Z :=
  kpgtbl ← kalloc;
  do_memset kpgtbl 0 PGSIZE ;;
  kvmmap kpgtbl UART0 UART0 PGSIZE (Z.lor PTE_R PTE_W) ;;
  kvmmap kpgtbl VIRTIO0 VIRTIO0 PGSIZE (Z.lor PTE_R PTE_W) ;;
  kvmmap kpgtbl PLIC PLIC 0x4000000 (Z.lor PTE_R PTE_W) ;;
  kvmmap kpgtbl KERNBASE KERNBASE (l_etext - KERNBASE) (Z.lor PTE_R PTE_X) ;;
  kvmmap kpgtbl l_etext l_etext (PHYSTOP - l_etext) (Z.lor PTE_R PTE_W) ;;
  kvmmap kpgtbl TRAMPOLINE l_trampoline PGSIZE (Z.lor PTE_R PTE_X) ;;
  proc_mapstacks kpgtbl ;;
  mret kpgtbl.

Definition kvminit : M () :=
  pt ← kvmmake;
  modify (λ k, k <| kernel_pagetable := pt |>).

Definition kvminithart : M () :=
  pt ← gets kernel_pagetable;
  write_csr (λ r, r <| r_satp := MAKE_SATP pt |>).

(** ** User address spaces *)

Definition uvmcreate : M Z :=
  pagetable ← kalloc;
  if pagetable =? 0 then mret 0 else
  do_memset pagetable 0 PGSIZE ;;
  mret pagetable.

Fixpoint uvmunmap_loop (fuel : nat) (pagetable a last : Z) (do_free : bool) : M () :=
  match fuel with
  | O => spin
  | S fuel' =>
      if a <? last then
        pte ← walk pagetable a false;
        (if pte =? 0 then mret () else
         e ← load64 pte;
         if Z.land e PTE_V =? 0 then mret () else
         when do_free (kfree (PTE2PA e)) ;;
         store64 pte 0) ;;
        uvmunmap_loop fuel' pagetable (u64 (a + PGSIZE)) last do_free
      else mret ()
  end.
Definition uvmunmap (pagetable va npages : Z) (do_free : bool) : M () :=
  if negb (va mod PGSIZE =? 0) then panic "uvmunmap: not aligned" else
  uvmunmap_loop (S (Z.to_nat npages)) pagetable va (u64 (va + npages * PGSIZE)) do_free.

Definition uvmdealloc (pagetable oldsz newsz : Z) : M Z :=
  if oldsz <=? newsz then mret oldsz else
  when (PGROUNDUP newsz <? PGROUNDUP oldsz)
    (let npages := i32 ((PGROUNDUP oldsz - PGROUNDUP newsz) / PGSIZE) in
     uvmunmap pagetable (PGROUNDUP newsz) npages true) ;;
  mret newsz.

Fixpoint uvmalloc_loop (fuel : nat) (pagetable a oldsz newsz xperm : Z) : M Z :=
  match fuel with
  | O => spin
  | S fuel' =>
      if a <? newsz then
        mem ← kalloc;
        if mem =? 0 then
          uvmdealloc pagetable a oldsz ;;
          mret 0
        else
          do_memset mem 0 PGSIZE ;;
          r ← mappages pagetable a PGSIZE mem (Z.lor (Z.lor PTE_R PTE_U) xperm);
          if negb (r =? 0) then
            kfree mem ;;
            uvmdealloc pagetable a oldsz ;;
            mret 0
          else uvmalloc_loop fuel' pagetable (u64 (a + PGSIZE)) oldsz newsz xperm
      else mret newsz
  end.
Definition uvmalloc (pagetable oldsz newsz xperm : Z) : M Z :=
  if newsz <? oldsz then mret oldsz else
  let oldsz' := PGROUNDUP oldsz in
  uvmalloc_loop (S (Z.to_nat ((newsz - oldsz') / PGSIZE + 1))) pagetable oldsz' oldsz' newsz xperm.

(** [depth] bounds the recursion; a page table has three levels. *)
Fixpoint freewalk (depth : nat) (pagetable : Z) : M () :=
  match depth with
  | O => spin
  | S depth' =>
      for_each (seq 0 512) (λ i,
        pte ← load64 (pagetable + 8 * Z.of_nat i);
        if negb (Z.land pte PTE_V =? 0) &&
           (Z.land pte (Z.lor (Z.lor PTE_R PTE_W) PTE_X) =? 0)
        then
          freewalk depth' (PTE2PA pte) ;;
          store64 (pagetable + 8 * Z.of_nat i) 0
        else if negb (Z.land pte PTE_V =? 0) then panic "freewalk: leaf"
        else mret ()) ;;
      kfree pagetable
  end.

Definition uvmfree (pagetable sz : Z) : M () :=
  when (0 <? sz) (uvmunmap pagetable 0 (PGROUNDUP sz / PGSIZE) true) ;;
  freewalk 3 pagetable.

Definition uvmcopy_err (new i : Z) : M Z :=
  uvmunmap new 0 (i / PGSIZE) true ;;
  mret (-1).

Fixpoint uvmcopy_loop (fuel : nat) (old new i sz : Z) : M Z :=
  match fuel with
  | O => spin
  | S fuel' =>
      if i <? sz then
        pte ← walk old i false;
        if pte =? 0 then uvmcopy_loop fuel' old new (i + PGSIZE) sz else
        e ← load64 pte;
        if Z.land e PTE_V =? 0 then uvmcopy_loop fuel' old new (i + PGSIZE) sz else
        mem ← kalloc;
        if mem =? 0 then uvmcopy_err new i else
        do_memmove mem (PTE2PA e) PGSIZE ;;
        r ← mappages new i PGSIZE mem (PTE_FLAGS e);
        if negb (r =? 0) then kfree mem ;; uvmcopy_err new i
        else uvmcopy_loop fuel' old new (i + PGSIZE) sz
      else mret 0
  end.
Definition uvmcopy (old new sz : Z) : M Z :=
  uvmcopy_loop (S (Z.to_nat (sz / PGSIZE + 1))) old new 0 sz.

Definition uvmclear (pagetable va : Z) : M () :=
  pte ← walk pagetable va false;
  if pte =? 0 then panic "uvmclear" else
  e ← load64 pte;
  store64 pte (Z.land e (Z.lnot PTE_U)).

(** Lazy allocation: a page below [p->sz] that is not mapped yet. *)
Definition vmfault (pagetable va : Z) : M Z :=
  p ← myproc;
  match p with
  | None => panic "kerneltrap"
  | Some p =>
      sz ← read_proc p p_sz;
      if sz <=? va then mret 0 else
      let va := PGROUNDDOWN va in
      mapped ← ismapped pagetable va;
      if mapped : bool then mret 0 else
      mem ← kalloc;
      if mem =? 0 then mret 0 else
      do_memset mem 0 PGSIZE ;;
      pt ← read_proc p p_pagetable;
      r ← mappages pt va PGSIZE mem (Z.lor (Z.lor PTE_W PTE_U) PTE_R);
      if negb (r =? 0) then kfree mem ;; mret 0
      else mret mem
  end.

(** ** Copying between the kernel and user memory *)

(** [if((pa0 = walkaddr(..)) == 0) pa0 = vmfault(..)]. *)
Definition useraddr (pagetable va0 : Z) : M Z :=
  pa0 ← walkaddr pagetable va0;
  if pa0 =? 0 then vmfault pagetable va0 else mret pa0.

(** Each round copies at least one byte.  A null [pte] is a fault in the
    kernel, on which [kerneltrap] panics. *)
Fixpoint copyout_loop (fuel : nat) (pagetable dstva : Z) (src : list Z) : M Z :=
  match fuel with
  | O => spin
  | S fuel' =>
      let len := Z.of_nat (length src) in
      if 0 <? len then
        let va0 := PGROUNDDOWN dstva in
        if MAXVA <=? va0 then mret (-1) else
        pa0 ← useraddr pagetable va0;
        if pa0 =? 0 then mret (-1) else
        pte ← walk pagetable va0 false;
        if pte =? 0 then panic "kerneltrap" else
        e ← load64 pte;
        if Z.land e PTE_W =? 0 then mret (-1) else
        let n := Z.min (PGSIZE - (dstva - va0)) len in
        modify (λ k, k <| mem ::= write_bytes (pa0 + (dstva - va0)) (take (Z.to_nat n) src) |>) ;;
        copyout_loop fuel' pagetable (va0 + PGSIZE) (drop (Z.to_nat n) src)
      else mret 0
  end.
Definition copyout (pagetable dstva : Z) (src : list Z) : M Z :=
  copyout_loop (S (length src)) pagetable dstva src.

(** The status, and the bytes copied to [dst] before returning. *)
Fixpoint copyin_loop (fuel : nat) (pagetable : Z) (dst : list Z) (srcva len : Z) : M (Z * list Z) :=
  match fuel with
  | O => spin
  | S fuel' =>
      if 0 <? len then
        let va0 := PGROUNDDOWN srcva in
        pa0 ← useraddr pagetable va0;
        if pa0 =? 0 then mret (-1, dst) else
        let n := Z.min (PGSIZE - (srcva - va0)) len in
        bs ← gets (λ k, bytes (Z.to_nat n) (mem k) (pa0 + (srcva - va0)));
        copyin_loop fuel' pagetable (dst ++ bs) (u64 (va0 + PGSIZE)) (len - n)
      else mret (0, dst)
  end.
Definition copyin (pagetable srcva len : Z) : M (Z * list Z) :=
  copyin_loop (S (Z.to_nat len)) pagetable [] srcva len.

(** The inner loop of [copyinstr]: the bytes up to a NUL or [n] of them, and
    whether the NUL was found. *)
Fixpoint copyinstr_page (n : nat) (m : memory) (p : Z) : list Z * bool :=
  match n with
  | O => ([], false)
  | S n' =>
      if ld8 m p =? 0 then ([0], true)
      else let '(l, got) := copyinstr_page n' m (p + 1) in (ld8 m p :: l, got)
  end.
Fixpoint copyinstr_loop (fuel : nat) (pagetable : Z) (dst : list Z) (srcva max : Z) : M (Z * list Z) :=
  match fuel with
  | O => spin
  | S fuel' =>
      if 0 <? max then
        let va0 := PGROUNDDOWN srcva in
        pa0 ← walkaddr pagetable va0;
        if pa0 =? 0 then mret (-1, dst) else
        let n := Z.min (PGSIZE - (srcva - va0)) max in
        m ← gets mem;
        let '(bs, got_null) := copyinstr_page (Z.to_nat n) m (pa0 + (srcva - va0)) in
        if got_null : bool then mret (0, dst ++ bs)
        else copyinstr_loop fuel' pagetable (dst ++ bs) (u64 (va0 + PGSIZE)) (max - n)
      else mret (-1, dst)
  end.
Definition copyinstr (pagetable srcva max : Z) : M (Z * list Z) :=
  copyinstr_loop (S (Z.to_nat max)) pagetable [] srcva max.

End vm.
