(* ===== verification/PageTable.v ===== *)
(** * Page tables in memory

    The three-level page tables of [kernel/vm.c] as trees of pages: [node m r q]
    is the table that the path [q] of indices leads to from the root [r], and
    [pte m r va] the entry that translates [va].  The lemmas say how the stores
    the code makes change these. *)
From S2P Require Import Prelude Layout KState Spinlock CString Kalloc Vm.

Create HintDb vm.

Definition pte_valid (e : Z) : bool := negb (Z.land e PTE_V =? 0).

Fixpoint node (m : memory) (pt : Z) (q : list Z) : option Z :=
  match q with
  | [] => Some pt
  | i :: q' =>
      let e := ld64 m (pt + 8 * i) in
      if pte_valid e then node m (PTE2PA e) q' else None
  end.

(** The path to the last table, the address of the entry and the entry; an
    entry that is not there counts as 0. *)
Definition vpath (va : Z) : list Z := [PX 2 va; PX 1 va].
Definition leaf (m : memory) (pt va : Z) : option Z :=
  (λ p, p + 8 * PX 0 va) <$> node m pt (vpath va).
Definition pte (m : memory) (pt va : Z) : Z :=
  match leaf m pt va with Some a => ld64 m a | None => 0 end.

(** Paths that lead to a table. *)
Definition path_ok (q : list Z) : Prop := (length q <= 2)%nat ∧ Forall (λ i, 0 <= i < 512) q.

(** The page [p] is the same in two memories. *)
Definition same_page (m m' : memory) (p : Z) : Prop :=
  ∀ b, p <= b < p + PGSIZE -> ld8 m' b = ld8 m b.

Lemma same_page_trans m1 m2 m3 p : same_page m1 m2 p -> same_page m2 m3 p -> same_page m1 m3 p.
Proof. intros H1 H2 b Hb. rewrite H2, H1 by done. done. Qed.

Lemma same_page_ld64 m m' p a :
  same_page m m' p -> p <= a -> a + 8 <= p + PGSIZE -> ld64 m' a = ld64 m a.
Proof. intros Hs Ha Hb. apply ld64_ext. intros b Hr. apply Hs. lia. Qed.

Lemma ld8_st64_ne m a v b : ¬ (a <= b < a + 8) -> ld8 (st64 m a v) b = ld8 m b.
Proof. intros Hb. unfold st64. by rewrite ld8_stn, decide_False by lia. Qed.

Lemma ld64_0 m a : (∀ b, a <= b < a + 8 -> ld8 m b = 0) -> ld64 m a = 0.
Proof.
  intros H. unfold ld64. assert (∀ n c, (∀ b, c <= b < c + Z.of_nat n -> ld8 m b = 0) -> ldn n m c = 0) as Hn.
  { induction n as [|n IH]; intros c Hc; [done|]. cbn. rewrite (Hc c) by lia. rewrite IH; [lia|].
    intros b Hb. apply Hc. lia. }
  by apply Hn.
Qed.

(** ** Entries *)

Lemma pte_valid_bit e : pte_valid e = Z.testbit e 0.
Proof.
  unfold pte_valid, PTE_V. change (Z.shiftl 1 0) with (Z.ones 1). rewrite Z.land_ones by lia.
  change (2 ^ 1) with 2. rewrite Z.bit0_odd. pose proof (Zmod_odd e) as H. rewrite H. by destruct (Z.odd e).
Qed.

Lemma pte_valid_0 : pte_valid 0 = false.
Proof. done. Qed.

Lemma pte_valid_V e : pte_valid (Z.lor e PTE_V) = true.
Proof. rewrite pte_valid_bit, Z.lor_spec. change (Z.testbit PTE_V 0) with true. apply orb_true_r. Qed.

Lemma lor_bound a b n : 0 <= n -> 0 <= a < 2 ^ n -> 0 <= b < 2 ^ n -> 0 <= Z.lor a b < 2 ^ n.
Proof.
  intros Hn Ha Hb. assert (0 <= Z.lor a b) as H0 by (apply Z.lor_nonneg; lia). split; [done|].
  assert (Z.lor a b / 2 ^ n = 0) as H.
  { rewrite <- Z.shiftr_div_pow2, Z.shiftr_lor, !Z.shiftr_div_pow2, !Z.div_small by done. done. }
  pose proof (Z.pow_pos_nonneg 2 n). apply Z.div_small_iff in H; lia.
Qed.

Section entries.
Context {L : Linker} {LO : LinkerOk L}.

Lemma page_ok_range p : page_ok p -> 0 < p < 2 ^ 56 ∧ p mod PGSIZE = 0.
Proof.
  intros Hp. pose proof (page_ok_pos p Hp). destruct Hp as [Ha [_ Hp]].
  split; [|done]. change PHYSTOP with 2281701376 in Hp. lia.
Qed.

Lemma PA2PTE_range pa : 0 <= PA2PTE pa < 2 ^ 64.
Proof. by apply Z.mod_pos_bound. Qed.

(** The entry [mappages] stores. *)
Definition mk_pte (pa perm : Z) : Z := Z.lor (Z.lor (PA2PTE pa) perm) PTE_V.

Lemma mk_pte_range pa perm : 0 <= perm < 2 ^ 10 -> 0 <= mk_pte pa perm < 2 ^ 64.
Proof.
  intros Hp. apply lor_bound; [lia| |done]. apply lor_bound; [lia|apply PA2PTE_range|lia].
Qed.
Lemma mk_pte_pa pa perm : 0 <= pa < 2 ^ 56 -> pa mod PGSIZE = 0 -> 0 <= perm < 2 ^ 10 ->
  PTE2PA (mk_pte pa perm) = pa.
Proof.
  intros Hpa Ha Hp. unfold mk_pte. rewrite <- Z.lor_assoc. apply PTE2PA_PA2PTE; [done|done|].
  by apply (lor_bound perm PTE_V 10).
Qed.
Lemma mk_pte_valid pa perm : pte_valid (mk_pte pa perm) = true.
Proof. apply pte_valid_V. Qed.
Lemma mk_pte_flags pa perm : 0 <= perm < 2 ^ 10 -> PTE_FLAGS (mk_pte pa perm) = Z.lor perm PTE_V.
Proof.
  intros Hp. unfold PTE_FLAGS, mk_pte. change 0x3FF with (Z.ones 10). rewrite <- Z.lor_assoc.
  rewrite Z.land_lor_distr_l, !Z.land_ones by lia.
  rewrite (Z.mod_small (Z.lor perm PTE_V)) by (by apply (lor_bound perm PTE_V 10)).
  replace (PA2PTE pa mod 2 ^ 10) with 0; [done|]. unfold PA2PTE, u64. rewrite Z.shiftl_mul_pow2 by lia.
  rewrite Z.mod_mod_divide by (exists (2 ^ 54); lia). by rewrite Z.mod_mul.
Qed.
Lemma mk_pte_page pg perm : page_ok pg -> 0 <= perm < 2 ^ 10 -> PTE2PA (mk_pte pg perm) = pg.
Proof. intros Hp Hr. apply page_ok_range in Hp as [? ?]. by apply mk_pte_pa; [lia|..]. Qed.
(** The entry for a page of the table itself has no permissions. *)
Lemma mk_pte_0 pg : Z.lor (PA2PTE pg) PTE_V = mk_pte pg 0.
Proof. unfold mk_pte. by rewrite Z.lor_0_r. Qed.
End entries.

(** ** Nodes *)

Lemma node_app m pt q q' : node m pt (q ++ q') = p ← node m pt q; node m p q'.
Proof.
  revert pt. induction q as [|i q IH]; intros pt; [done|]. cbn. destruct (pte_valid _); [apply IH|done].
Qed.
Lemma node_snoc m pt q i :
  node m pt (q ++ [i]) =
  p ← node m pt q; (if pte_valid (ld64 m (p + 8 * i)) then Some (PTE2PA (ld64 m (p + 8 * i))) else None).
Proof. rewrite node_app. done. Qed.

Lemma path_ok_snoc q i : path_ok (q ++ [i]) -> path_ok q ∧ 0 <= i < 512 ∧ (length q < 2)%nat.
Proof.
  intros [Hl Hf]. rewrite length_app in Hl. cbn in Hl. apply Forall_app in Hf as [Hq Hi].
  apply Forall_cons in Hi as [Hi _]. split; [split; [lia|done]|]. split; [done|lia].
Qed.
Lemma vpath_ok va : path_ok (vpath va).
Proof. split; [done|]. repeat constructor; apply PX_range; lia. Qed.
Lemma path_ok_nil : path_ok [].
Proof. split; [cbn; lia|constructor]. Qed.
#[export] Hint Resolve vpath_ok path_ok_nil : vm.

(** An entry of a table is inside its page. *)
Lemma entry_inside p i : 0 <= i < 512 -> p <= p + 8 * i ∧ p + 8 * i + 8 <= p + PGSIZE.
Proof. unfold PGSIZE. lia. Qed.

(** If the tables on the way keep their contents, the path leads to the same
    table. *)
Lemma node_frame m m' pt q : path_ok q ->
  (∀ q' p, path_ok q' -> (length q' < 2)%nat -> node m pt q' = Some p -> same_page m m' p) ->
  node m' pt q = node m pt q.
Proof.
  intros Hq Hs. induction q as [|i q IH] using rev_ind; [done|].
  destruct (path_ok_snoc q i Hq) as (Hq' & Hi & Hl). rewrite !node_snoc, IH by done.
  destruct (node m pt q) as [p|] eqn:E; [|done]. cbn. destruct (entry_inside p i Hi).
  by rewrite (same_page_ld64 m m' p (p + 8 * i)) by eauto.
Qed.

Lemma pte_frame m m' pt va :
  (∀ q p, path_ok q -> node m pt q = Some p -> same_page m m' p) -> pte m' pt va = pte m pt va.
Proof.
  intros Hs. unfold pte, leaf. rewrite (node_frame m m') by eauto with vm.
  destruct (node m pt (vpath va)) as [p|] eqn:E; [|done]. cbn.
  pose proof (PX_range 0 va ltac:(lia)) as Hi. destruct (entry_inside p _ Hi).
  apply (same_page_ld64 m m' p); eauto with vm.
Qed.

(** ** What the pages are used for *)

(** A table, or the page that a user address is mapped to. *)
Inductive use : Type := UNode (r : Z) (q : list Z) | UFrame (r va : Z).

Definition page_of (m : memory) (u : use) : option Z :=
  match u with
  | UNode r q => node m r q
  | UFrame r va => if pte_valid (pte m r va) then Some (PTE2PA (pte m r va)) else None
  end.

(** The uses by the page tables with roots [R]; the trampoline and the trap
    frame, mapped at the top, are not pages of the user. *)
Definition uva (va : Z) : Prop := va mod PGSIZE = 0 ∧ 0 <= va < TRAPFRAME.
Definition use_ok (R : list Z) (u : use) : Prop :=
  match u with
  | UNode r q => r ∈ R ∧ path_ok q
  | UFrame r va => r ∈ R ∧ uva va
  end.

Section inv.
Context {L : Linker}.

(** No page has two uses, and none is in the list [l] of free pages. *)
Record vm_inv (R : list Z) (m : memory) (l : list Z) : Prop := {
  vm_page u p : use_ok R u -> page_of m u = Some p -> page_ok p ∧ p ∉ l;
  vm_inj u u' p : use_ok R u -> use_ok R u' -> page_of m u = Some p -> page_of m u' = Some p -> u = u';
}.
Context {LO : LinkerOk L} (R : list Z) (m : memory) (l : list Z) (Hv : vm_inv R m l).

Lemma node_page r q p : r ∈ R -> path_ok q -> node m r q = Some p -> page_ok p ∧ p ∉ l.
Proof. intros. by apply (vm_page R m l Hv (UNode r q)). Qed.
Lemma node_inj r q r' q' p : r ∈ R -> r' ∈ R -> path_ok q -> path_ok q' ->
  node m r q = Some p -> node m r' q' = Some p -> r = r' ∧ q = q'.
Proof.
  intros Hr Hr' Hq Hq' E E'.
  pose proof (vm_inj R m l Hv (UNode r q) (UNode r' q') p (conj Hr Hq) (conj Hr' Hq') E E') as [= -> ->]. done.
Qed.

(** Two tables are the same page or disjoint. *)
Lemma node_disjoint r q r' q' p p' : r ∈ R -> r' ∈ R -> path_ok q -> path_ok q' ->
  node m r q = Some p -> node m r' q' = Some p' -> (r = r' ∧ q = q' ∧ p = p') ∨ p + PGSIZE <= p' ∨ p' + PGSIZE <= p.
Proof.
  intros Hr Hr' Hq Hq' E E'. destruct (decide (p = p')) as [->|Hne].
  - left. by destruct (node_inj r q r' q' p').
  - right. destruct (node_page r q p Hr Hq E) as [[Ha _] _], (node_page r' q' p' Hr' Hq' E') as [[Ha' _] _].
    by apply page_disjoint.
Qed.

(** *** Storing an entry of a last table *)
Section set_leaf.
Context (r va a e : Z) (Hr : r ∈ R) (Hva : va mod PGSIZE = 0) (Hrange : 0 <= va < MAXVA).
Context (Ha : leaf m r va = Some a) (He : 0 <= e < 2 ^ 64).

Lemma leaf_node : ∃ p, node m r (vpath va) = Some p ∧ a = p + 8 * PX 0 va ∧ 0 <= PX 0 va < 512.
Proof.
  unfold leaf in Ha. destruct (node m r (vpath va)) as [p|]; [|done]. cbn in Ha. injection Ha as <-.
  exists p. split_and!; [done..|apply PX_range; lia|apply PX_range; lia].
Qed.

Lemma set_leaf_node r' q' : r' ∈ R -> path_ok q' -> node (st64 m a e) r' q' = node m r' q'.
Proof.
  intros Hr' Hq'. apply node_frame; [done|]. intros q p' Hq Hl E b Hb. apply ld8_st64_ne.
  destruct leaf_node as (p & Ep & -> & Hi).
  destruct (node_disjoint r (vpath va) r' q p p') as [(_ & <- & _)|Hd]; [by auto with vm..|cbn in Hl; lia|].
  unfold PGSIZE in *. lia.
Qed.

Lemma set_leaf_pte r' va' : r' ∈ R -> va' mod PGSIZE = 0 -> 0 <= va' < MAXVA ->
  pte (st64 m a e) r' va' = if decide (r' = r ∧ va' = va) then e else pte m r' va'.
Proof.
  intros Hr' Ha' Hb'. unfold pte at 1, leaf. rewrite set_leaf_node by auto with vm.
  case_decide as Hd.
  - destruct Hd as [-> ->]. unfold leaf in Ha. destruct (node m r (vpath va)); [|done].
    cbn in Ha |- *. injection Ha as ->. by apply ld64_st64.
  - unfold pte, leaf. destruct (node m r' (vpath va')) as [p'|] eqn:E'; [|done]. cbn.
    destruct leaf_node as (p & Ep & -> & Hi). pose proof (PX_range 0 va' ltac:(lia)) as Hi'.
    apply ld64_st64_ne.
    destruct (node_disjoint r (vpath va) r' (vpath va') p p') as [(-> & [= E2 E1] & ->)|Hdj]; [by auto with vm..| |].
    + destruct (decide (PX 0 va' = PX 0 va)) as [E0|]; [|lia]. exfalso. apply Hd. split; [done|].
      by apply PX_inj.
    + unfold PGSIZE in *. lia.
Qed.

(** Clearing the entry, or pointing it to a page that has no use yet, keeps the
    invariant. *)
Lemma set_leaf_inv l' : (∀ p, p ∈ l' -> p ∈ l ∨ uva va ∧ pte_valid (pte m r va) = true ∧ p = PTE2PA (pte m r va)) ->
  (uva va -> pte_valid e = true -> page_ok (PTE2PA e) ∧ (PTE2PA e ∉ l') ∧
    ∀ u, use_ok R u -> page_of m u ≠ Some (PTE2PA e)) ->
  vm_inv R (st64 m a e) l'.
Proof.
  intros Hl' Hnew.
  assert (∀ u, use_ok R u -> page_of (st64 m a e) u = match u with
    | UNode r q => node m r q
    | UFrame r' va' => if decide (r' = r ∧ va' = va) then (if pte_valid e then Some (PTE2PA e) else None)
                       else page_of m u end) as Hp.
  { intros [r' q'|r' va'] [Hr' Hok]; cbn; [by apply set_leaf_node|].
    rewrite set_leaf_pte; [|done|apply Hok|destruct Hok as [_ Hok]; change TRAPFRAME with (MAXVA - 2 * PGSIZE) in Hok; unfold PGSIZE in Hok; lia].
    by case_decide. }
  split.
  - intros u p Hu. rewrite Hp by done. destruct u as [r' q'|r' va'].
    + intros E. destruct (node_page r' q' p) as [Hok Hni]; [apply Hu|apply Hu|done|]. split; [done|].
      intros Hin. destruct (Hl' p Hin) as [?|(Hu' & Hvd & ->)]; [done|].
      pose proof (vm_inj R m l Hv (UNode r' q') (UFrame r va) (PTE2PA (pte m r va)) Hu (conj Hr Hu') E) as Hx.
      cbn in Hx. rewrite Hvd in Hx. by discriminate Hx.
    + case_decide as Hd.
      * destruct Hd as [-> ->]. destruct (pte_valid e) eqn:Hve; [|done]. intros [= <-].
        destruct (Hnew (proj2 Hu) eq_refl) as (? & ? & ?). done.
      * intros E. destruct (vm_page R m l Hv _ p Hu E) as [Hok Hni]. split; [done|].
        intros Hin. destruct (Hl' p Hin) as [?|(Hu' & Hvd & ->)]; [done|]. apply Hd.
        pose proof (vm_inj R m l Hv _ (UFrame r va) _ Hu (conj Hr Hu') E) as Hx.
        cbn in Hx. rewrite Hvd in Hx. by injection (Hx eq_refl) as -> ->.
  - intros u u' p Hu Hu'. rewrite !Hp by done. intros E E'.
    assert (∀ w, use_ok R w -> match w with
      | UNode r q => node m r q
      | UFrame r' va' => if decide (r' = r ∧ va' = va) then (if pte_valid e then Some (PTE2PA e) else None)
                         else page_of m w end = Some p ->
      (w = UFrame r va ∧ uva va ∧ pte_valid e = true ∧ p = PTE2PA e) ∨ page_of m w = Some p) as Hc.
    { intros [r' q'|r' va'] Hw Ew; [by right|]. case_decide as Hd; [|by right]. destruct Hd as [-> ->].
      destruct (pte_valid e); [|done]. injection Ew as ->. left. split; [done|]. split; [apply Hw|done]. }
    destruct (Hc u Hu E) as [(-> & Hua & Hve & ->)|Eo], (Hc u' Hu' E') as [(-> & Hua' & Hve' & Epp)|Eo'].
    + done.
    + destruct (Hnew Hua Hve) as (_ & _ & Hn). by destruct (Hn u' Hu').
    + destruct (Hnew Hua' Hve') as (_ & _ & Hn). subst p. by destruct (Hn u Hu).
    + by apply (vm_inj R m l Hv u u' p).
Qed.
End set_leaf.

(** *** Adding a table *)
Section add_node.
Context (r p i pg : Z) (q : list Z) (m' : memory) (l' : list Z) (Hr : r ∈ R) (Hq : path_ok (q ++ [i])).
Context (Hp : node m r q = Some p) (Hfree : pte_valid (ld64 m (p + 8 * i)) = false) (Hpg : page_ok pg).
Context (Hl : l = pg :: l').
Context (Hzero : ∀ b, pg <= b < pg + PGSIZE -> ld8 m' b = 0) (Hent : ld64 m' (p + 8 * i) = mk_pte pg 0).
Context (Hrest : ∀ b, ¬ (pg <= b < pg + PGSIZE) -> ¬ (p + 8 * i <= b < p + 8 * i + 8) -> ld8 m' b = ld8 m b).

Lemma node_not_new r' q' p' : r' ∈ R -> path_ok q' -> node m r' q' = Some p' ->
  p' + PGSIZE <= pg ∨ pg + PGSIZE <= p'.
Proof.
  intros Hr' Hq' E. destruct (node_page r' q' p' Hr' Hq' E) as [[Ha _] Hni].
  apply page_disjoint; [done|apply Hpg|]. intros ->. apply Hni. rewrite Hl. by left.
Qed.

(** The other entries of the tables are as they were. *)
Lemma add_entry r' q' p' j : r' ∈ R -> path_ok q' -> 0 <= j < 512 -> node m r' q' = Some p' ->
  ¬ (r' = r ∧ q' = q ∧ j = i) -> ld64 m' (p' + 8 * j) = ld64 m (p' + 8 * j).
Proof.
  intros Hr' Hq' Hj E Hne. apply ld64_ext. intros b Hb.
  pose proof (node_not_new r' q' p' Hr' Hq' E) as Hd. unfold PGSIZE in Hd.
  destruct (path_ok_snoc q i Hq) as (Hq0 & Hi & _).
  apply Hrest; [unfold PGSIZE; lia|].
  destruct (node_disjoint r q r' q' p p') as [(-> & -> & ->)|Hdj]; [done..| |unfold PGSIZE in *; lia].
  destruct (decide (j = i)) as [->|]; [by destruct Hne|lia].
Qed.

Lemma add_node r' q' : r' ∈ R -> path_ok q' ->
  node m' r' q' = if decide (r' = r ∧ q' = q ++ [i]) then Some pg else node m r' q'.
Proof.
  intros Hr' Hq'. destruct (path_ok_snoc q i Hq) as (Hq0 & Hi & Hlen).
  induction q' as [|j q' IH] using rev_ind.
  { rewrite decide_False by (intros [_ H]; by destruct q). done. }
  destruct (path_ok_snoc q' j Hq') as (Hq1 & Hj & Hlen1). rewrite !node_snoc, IH by done.
  destruct (decide (r' = r ∧ q' = q ++ [i])) as [[-> ->]|Hne].
  - rewrite length_app in Hlen1. cbn in Hlen1. assert (q = []) as -> by (apply nil_length_inv; lia).
    rewrite decide_False by (intros [_ H]; discriminate H). cbn in *. injection Hp as <-.
    rewrite Hfree. cbn. rewrite ld64_0; [done|]. intros b Hb. apply Hzero. unfold PGSIZE. lia.
  - destruct (node m r' q') as [p'|] eqn:E.
    + cbn [mbind option_bind]. destruct (decide (r' = r ∧ q' ++ [j] = q ++ [i])) as [[-> Hqq]|Hne'].
      * apply app_inj_tail in Hqq as [-> ->]. rewrite E in Hp. injection Hp as ->.
        rewrite Hent, mk_pte_valid, mk_pte_pa; [done| | |lia]; apply page_ok_range in Hpg as [Hpg ?]; [lia|done].
      * rewrite (add_entry r' q' p' j); [done..|]. intros (-> & -> & ->). by apply Hne'.
    + cbn. rewrite decide_False; [done|]. intros [-> Hqq]. apply app_inj_tail in Hqq as [-> ->].
      by rewrite E in Hp.
Qed.

Lemma add_pte r' va : r' ∈ R -> pte m' r' va = pte m r' va.
Proof.
  intros Hr'. unfold pte, leaf. rewrite add_node by auto with vm.
  pose proof (PX_range 0 va ltac:(lia)) as Hj. case_decide as Hd.
  - destruct Hd as [-> Hqq]. rewrite Hqq, node_snoc, Hp. cbn. rewrite Hfree. apply ld64_0.
    intros b Hb. apply Hzero. unfold PGSIZE. lia.
  - destruct (node m r' (vpath va)) as [p'|] eqn:E; [|done]. cbn. apply (add_entry r' (vpath va)); auto with vm.
    intros (_ & Hqq & _). destruct (path_ok_snoc q i Hq) as (_ & _ & Hlen). rewrite <- Hqq in Hlen. cbn in Hlen. lia.
Qed.

Lemma add_inv : NoDup l -> vm_inv R m' l'.
Proof.
  intros Hnd. assert (∀ u p', use_ok R u -> page_of m' u = Some p' -> (u = UNode r (q ++ [i]) ∧ p' = pg) ∨ page_of m u = Some p') as Hc.
  { intros [r' q'|r' va'] p' [Hr' Hok]; cbn.
    - rewrite add_node by done. case_decide as Hd; [|by right]. destruct Hd as [-> ->]. intros [= <-]. by left.
    - rewrite add_pte by done. by right. }
  assert (pg ∉ l') as Hni by (rewrite Hl in Hnd; by apply NoDup_cons in Hnd as [? _]).
  split.
  - intros u p' Hu E. destruct (Hc u p' Hu E) as [[-> ->]|Eo]; [done|].
    destruct (vm_page R m l Hv u p' Hu Eo) as [? Hn]. split; [done|]. intros Hin. apply Hn. rewrite Hl. by right.
  - intros u u' p' Hu Hu' E E'. destruct (Hc u p' Hu E) as [[-> ->]|Eo], (Hc u' _ Hu' E') as [[-> Hx]|Eo'].
    + done.
    + destruct (vm_page R m l Hv u' pg Hu' Eo') as [_ Hn]. destruct Hn. rewrite Hl. by left.
    + subst p'. destruct (vm_page R m l Hv u pg Hu Eo) as [_ Hn]. destruct Hn. rewrite Hl. by left.
    + by apply (vm_inj R m l Hv u u' p').
Qed.
End add_node.

(** *** Writing pages that are not tables *)
Lemma vm_inv_frame m' l' : (∀ r q p, r ∈ R -> path_ok q -> node m r q = Some p -> same_page m m' p) ->
  (∀ p, p ∈ l' -> p ∈ l) -> vm_inv R m' l'.
Proof.
  intros Hs Hl. assert (∀ u, use_ok R u -> page_of m' u = page_of m u) as E.
  { intros [r q|r va] [Hr Hok]; cbn; [|rewrite (pte_frame m m') by eauto; done]. apply node_frame; eauto. }
  split.
  - intros u p Hu. rewrite E by done. intros Ep. destruct (vm_page R m l Hv u p Hu Ep). split; [done|]. intros Hin. auto.
  - intros u u' p Hu Hu'. rewrite !E by done. by apply (vm_inj R m l Hv).
Qed.
End inv.
