(* ===== verification/VmSpec.v ===== *)
(** * Virtual memory: what [kernel/vm.c] promises

    [vm_ok R k l] describes a kernel in which the page tables with roots [R] and
    the free list [l] are in order; the functions of [Vm] are specified by their
    effect on the entries [pte] and on the contents of the pages. *)
From S2P Require Import Prelude Layout KState Spinlock CString Kalloc Vm PageTable.

#[local] Opaque memset memmove st64 ld64.

(** Only memory, the free list and the bookkeeping of [push_off] differ. *)
Record vm_rest (k k' : kernel) : Prop := {
  vr_rest : k' = k <| mem := mem k' |> <| freelist := freelist k' |> <| mach := mach k' |>;
  vr_mach : mach k' = mach k ∨ mach k' = touch (mach k);
}.

Lemma vm_rest_refl k : vm_rest k k.
Proof. split; [by destruct k|by left]. Qed.
Lemma vm_rest_trans k1 k2 k3 : (m_hart (mach k1) < length (m_cpus (mach k1)))%nat ->
  vm_rest k1 k2 -> vm_rest k2 k3 -> vm_rest k1 k3.
Proof.
  intros Hc [E1 M1] [E2 M2]. split.
  - rewrite E2, E1. keq.
  - destruct M1 as [M1|M1], M2 as [M2|M2]; rewrite M1 in M2; [by left|by right|by right|].
    right. by rewrite M2, touch_idemp.
Qed.
Lemma vm_rest_mem k f : vm_rest k (k <| mem ::= f |>).
Proof. split; [destruct k; keq|by left]. Qed.
Lemma vm_rest_touch k : vm_rest k (k <| mach ::= touch |>).
Proof. split; [destruct k; keq|by right]. Qed.

Section spec.
Context {L : Linker} {LO : LinkerOk L} (R : list Z).

Record vm_ok (k : kernel) (l : list Z) : Prop := {
  vo_free : kmem_inv k l;
  vo_lock : can_lock LkKmem (mach k);
  vo_inv : vm_inv R (mem k) l;
}.

(** The free list only shrinks, its pages may become tables, and nothing else
    is written than tables and pages of the list. *)
Record grows (k : kernel) (l : list Z) (k' : kernel) (l' : list Z) : Prop := {
  gr_sub p : p ∈ l' -> p ∈ l;
  gr_node r q p : r ∈ R -> path_ok q -> node (mem k') r q = Some p -> node (mem k) r q = Some p ∨ p ∈ l;
  gr_mem p : p mod PGSIZE = 0 -> p ∉ l -> (∀ r q, r ∈ R -> path_ok q -> node (mem k) r q ≠ Some p) ->
    same_page (mem k) (mem k') p;
  gr_rest : vm_rest k k';
}.

Lemma grows_refl k l : grows k l k l.
Proof. split; [done|by left|done|apply vm_rest_refl]. Qed.

Lemma grows_trans k l k1 l1 k2 l2 : vm_ok k l ->
  grows k l k1 l1 -> grows k1 l1 k2 l2 -> grows k l k2 l2.
Proof.
  intros [_ [[Hc _ _ _] _] _] [S1 N1 M1 R1] [S2 N2 M2 R2]. split.
  - auto.
  - intros r q p Hr Hq E. destruct (N2 r q p Hr Hq E); auto.
  - intros p Ha Hl Hn. eapply same_page_trans; [by apply M1|]. apply M2; [done|auto|].
    intros r q Hr Hq E. destruct (N1 r q p Hr Hq E); [by eapply Hn|done].
  - by eapply vm_rest_trans.
Qed.

Lemma can_lock_rest lk k k' : vm_rest k k' -> can_lock lk (mach k) -> can_lock lk (mach k').
Proof. intros [_ [->| ->]] Hl; [done|by apply can_lock_touch]. Qed.

(** ** Memory and the allocator *)

Lemma kmem_inv_mem k k' l : kmem_inv k l -> freelist k' = freelist k ->
  (∀ p, p ∈ l -> same_page (mem k) (mem k') p) -> kmem_inv k' l.
Proof.
  intros [Hc Hp Hn] Ef Hs. split; [|done|done]. rewrite Ef. apply (chain_ext (mem k)); [|done].
  intros p Hin. apply (same_page_ld64 _ _ p); [by apply Hs|lia|unfold PGSIZE; lia].
Qed.

(** [kalloc] with a page to give; [g] is what the caller fills it with. *)
Lemma kalloc_page k pg l : vm_ok k (pg :: l) ->
  kalloc k = Ret pg (kalloc_state pg k) ∧ vm_ok (kalloc_state pg k) l ∧ grows k (pg :: l) (kalloc_state pg k) l ∧
  page_ok pg ∧ (pg ∉ l) ∧ (∀ u, use_ok R u -> page_of (mem k) u ≠ Some pg) ∧
  (∀ b, ¬ (pg <= b < pg + PGSIZE) -> ld8 (mem (kalloc_state pg k)) b = ld8 (mem k) b).
Proof.
  intros [Hf Hlk Hi]. assert (page_ok pg) as Hpg by (by destruct Hf as [_ Hp _]; apply Forall_cons in Hp as [? _]).
  assert (pg ∉ l) as Hni by (by destruct Hf as [_ _ Hn]; apply NoDup_cons in Hn as [? _]).
  assert (∀ u, use_ok R u -> page_of (mem k) u ≠ Some pg) as Hu.
  { intros u Hu E. destruct (vm_page R _ _ Hi u pg Hu E) as [_ H]. apply H. by left. }
  assert (∀ b, ¬ (pg <= b < pg + PGSIZE) -> ld8 (mem (kalloc_state pg k)) b = ld8 (mem k) b) as Hm.
  { intros b Hb. cbn. by rewrite memset_spec, decide_False by (unfold PGSIZE in *; lia). }
  assert (∀ p, p mod PGSIZE = 0 -> p ≠ pg -> same_page (mem k) (mem (kalloc_state pg k)) p) as Hsp.
  { intros p Ha Hne b Hb. apply Hm. pose proof (page_disjoint p pg Ha (proj1 Hpg) Hne). lia. }
  assert (∀ r q p, r ∈ R -> path_ok q -> node (mem k) r q = Some p -> same_page (mem k) (mem (kalloc_state pg k)) p) as Hns.
  { intros r q p Hr Hq E. apply Hsp; [by apply (node_page R _ _ Hi r q p)|].
    intros ->. by apply (Hu (UNode r q) (conj Hr Hq)). }
  split; [exact (kalloc_eq k (pg :: l) Hf Hlk)|]. split; [|split; [|exact (conj Hpg (conj Hni (conj Hu Hm)))]].
  - split; [by apply kalloc_inv|apply (can_lock_touch LkKmem _ Hlk)|].
    apply (vm_inv_frame R (mem k) (pg :: l) Hi); [exact Hns|]. intros p Hp. by right.
  - split.
    + intros p Hp. by right.
    + intros r q p Hr Hq E. rewrite (node_frame (mem k)) in E; [by left|exact Hq|]. intros q' p' Hq' _. by apply Hns.
    + intros p Ha Hl _. apply Hsp; [done|]. intros ->. apply Hl. by left.
    + split; [unfold kalloc_state; keq|by right].
Qed.

Lemma kalloc_none k : vm_ok k [] -> kalloc k = Ret 0 (k <| mach ::= touch |>) ∧ vm_ok (k <| mach ::= touch |>) [] ∧
  grows k [] (k <| mach ::= touch |>) [].
Proof.
  intros [Hf Hlk Hi]. split; [by apply (kalloc_eq k [])|]. split.
  - split; [by destruct Hf; split|by apply can_lock_touch|done].
  - split; [done|by left|done|apply vm_rest_touch].
Qed.
(** The page may be mapped: it is free of other uses. *)
Definition mappable (k : kernel) (l : list Z) (pa : Z) : Prop :=
  page_ok pa ∧ (pa ∉ l) ∧ ∀ u, use_ok R u -> page_of (mem k) u ≠ Some pa.

(** A page from [kalloc] that is then filled by [f]. *)
Definition filled (pg : Z) (f : memory -> memory) (k : kernel) : kernel :=
  (kalloc_state pg k) <| mem ::= f |>.

Lemma filled_page k pg l f : vm_ok k (pg :: l) ->
  (∀ m b, ¬ (pg <= b < pg + PGSIZE) -> ld8 (f m) b = ld8 m b) ->
  vm_ok (filled pg f k) l ∧ grows k (pg :: l) (filled pg f k) l ∧
  mappable (filled pg f k) l pg ∧
  (∀ b, ¬ (pg <= b < pg + PGSIZE) -> ld8 (mem (filled pg f k)) b = ld8 (mem k) b) ∧
  ∀ r va, r ∈ R -> pte (mem (filled pg f k)) r va = pte (mem k) r va.
Proof.
  intros Hk Hf. destruct (kalloc_page k pg l Hk) as (_ & [Kf Kl Ki] & [Gs Gn Gm Gr] & Hpg & Hni & Hu & Hm).
  assert (∀ b, ¬ (pg <= b < pg + PGSIZE) -> ld8 (mem (filled pg f k)) b = ld8 (mem k) b) as Hm'.
  { intros b Hb. rewrite <- (Hm b Hb). apply (Hf _ b Hb). }
  assert (∀ p, p mod PGSIZE = 0 -> p ≠ pg -> same_page (mem k) (mem (filled pg f k)) p) as Hsp.
  { intros p Ha Hne b Hb. apply Hm'. pose proof (page_disjoint p pg Ha (proj1 Hpg) Hne). lia. }
  assert (∀ r q p, r ∈ R -> path_ok q -> node (mem k) r q = Some p -> same_page (mem k) (mem (filled pg f k)) p) as Hns.
  { intros r q p Hr Hq E. apply Hsp; [by apply (node_page R _ _ (vo_inv k _ Hk) r q p)|].
    intros ->. by apply (Hu (UNode r q) (conj Hr Hq)). }
  assert (∀ r q, r ∈ R -> path_ok q -> node (mem (filled pg f k)) r q = node (mem k) r q) as Hn.
  { intros r q Hr Hq. apply node_frame; [exact Hq|]. intros q1 p1 Hq1 _. apply (Hns r q1 p1 Hr Hq1). }
  assert (∀ r va, r ∈ R -> pte (mem (filled pg f k)) r va = pte (mem k) r va) as Hp.
  { intros r va Hr. apply pte_frame. intros q p. exact (Hns r q p Hr). }
  split; [|split; [|split; [|split; [exact Hm'|exact Hp]]]].
  - split; [|exact Kl|].
    + apply (kmem_inv_mem (kalloc_state pg k) (filled pg f k) l Kf eq_refl).
      intros p Hin b Hb. apply Hf. destruct Kf as [_ Kp _]. rewrite Forall_forall in Kp.
      assert (p ≠ pg) as Hne by (intros ->; done).
      pose proof (page_disjoint p pg (proj1 (Kp p Hin)) (proj1 Hpg) Hne). lia.
    + apply (vm_inv_frame R (mem k) (pg :: l) (vo_inv _ _ Hk)); [exact Hns|]. intros p Hin. by right.
  - split; [exact Gs| | |].
    + intros r q p Hr Hq E. left. by rewrite <- (Hn r q Hr Hq).
    + intros p Ha Hl _. apply Hsp; [done|]. intros ->. apply Hl. by left.
    + destruct Gr as [_ Gm']. split; [unfold filled, kalloc_state; keq|exact Gm'].
  - split; [exact Hpg|]. split; [exact Hni|]. intros u Hw Eu. apply (Hu u Hw). rewrite <- Eu.
    destruct u as [r q|r va]; unfold page_of; [symmetry; exact (Hn r q (proj1 Hw) (proj2 Hw))|].
    by rewrite (Hp r va (proj1 Hw)).
Qed.

Lemma memset_page m pg c b : ¬ (pg <= b < pg + PGSIZE) -> ld8 (memset pg c PGSIZE m) b = ld8 m b.
Proof. intros. by rewrite memset_spec, decide_False by (unfold PGSIZE in *; lia). Qed.
Lemma memset_zero m pg b : pg <= b < pg + PGSIZE -> ld8 (memset pg 0 PGSIZE m) b = 0.
Proof. intros. by rewrite memset_spec, decide_True by (unfold PGSIZE in *; lia). Qed.

(** ** Walking *)

Lemma walk_false r va k : 0 <= va < MAXVA -> walk r va false k = Ret (default 0 (leaf (mem k) r va)) k.
Proof.
  intros Hva. unfold walk. rewrite (proj2 (Z.leb_gt MAXVA va)) by lia.
  unfold walk_loop, leaf, load64, pte_valid. cbn [node vpath].
  rewrite bind_gets. change (Z.of_nat 2) with 2. unfold pte_valid.
  destruct (Z.land (ld64 (mem k) (r + 8 * PX 2 va)) PTE_V =? 0); cbn [negb]; [done|].
  rewrite bind_gets. change (Z.of_nat 1) with 1.
  destruct (Z.land (ld64 (mem k) (PTE2PA (ld64 (mem k) (r + 8 * PX 2 va)) + 8 * PX 1 va)) PTE_V =? 0); done.
Qed.

(** The indices that are left to follow at a level. *)
Fixpoint vsuffix (n : nat) (va : Z) : list Z :=
  match n with O => [] | S n' => PX (Z.of_nat n) va :: vsuffix n' va end.

Section walk.
Context (r va : Z) (Hr : r ∈ R) (Hva : 0 <= va < MAXVA).

(** What [walk] with [alloc] does: the entries stay as they are, and the one
    asked for gets a place unless memory is used up; at most [n] pages become
    tables. *)
Record walked (n : nat) (k : kernel) (l : list Z) (a : Z) (k' : kernel) (l' : list Z) : Prop := {
  wk_ok : vm_ok k' l';
  wk_grows : grows k l k' l';
  wk_pte r' va' : r' ∈ R -> pte (mem k') r' va' = pte (mem k) r' va';
  wk_leaf : (a = 0 ∧ l' = [] ∧ leaf (mem k) r va = None ∧ (length l < n)%nat) ∨ (a ≠ 0 ∧ leaf (mem k') r va = Some a);
  wk_used : (length l <= length l' + n)%nat;
}.

Lemma walk_new_table k l pg q i p : vm_ok k (pg :: l) -> node (mem k) r q = Some p -> path_ok (q ++ [i]) ->
  pte_valid (ld64 (mem k) (p + 8 * i)) = false ->
  let k' := (filled pg (memset pg 0 PGSIZE) k) <| mem ::= λ m, st64 m (p + 8 * i) (mk_pte pg 0) |> in
  vm_ok k' l ∧ grows k (pg :: l) k' l ∧ node (mem k') r (q ++ [i]) = Some pg ∧
  ∀ r' va', r' ∈ R -> pte (mem k') r' va' = pte (mem k) r' va'.
Proof.
  intros Hk Hp Hq Hfree. destruct (filled_page k pg l (memset pg 0 PGSIZE) Hk) as ([Kf Kl Ki] & [Gs Gn Gm Gr] & _ & Hm & Hpte).
  { intros m b. apply memset_page. }
  destruct (kalloc_page k pg l Hk) as (_ & _ & _ & Hpg & Hni & Hu & _).
  destruct (path_ok_snoc q i Hq) as (Hq0 & Hi & Hlen).
  destruct (node_page R (mem k) (pg :: l) (vo_inv _ _ Hk) r q p Hr Hq0 Hp) as [Hpok Hpni].
  set (k1 := filled pg (memset pg 0 PGSIZE) k) in *. intros k'.
  assert (p + PGSIZE <= pg ∨ pg + PGSIZE <= p) as Hd.
  { apply page_disjoint; [apply Hpok|apply Hpg|]. intros ->. apply Hpni. by left. }
  assert (0 <= mk_pte pg 0 < 2 ^ 64) as Hpr by (apply mk_pte_range; lia).
  assert (mem k' = st64 (mem k1) (p + 8 * i) (mk_pte pg 0)) as Em by done.
  assert (∀ b, ¬ (pg <= b < pg + PGSIZE) -> ¬ (p + 8 * i <= b < p + 8 * i + 8) -> ld8 (mem k') b = ld8 (mem k) b) as H3.
  { intros b Hb1 Hb2. rewrite Em, ld8_st64_ne by done. by apply Hm. }
  assert (∀ b, pg <= b < pg + PGSIZE -> ld8 (mem k') b = 0) as H1.
  { intros b Hb. rewrite Em, ld8_st64_ne by (unfold PGSIZE in *; lia).
    unfold k1, filled. kcbn. by apply memset_zero. }
  assert (ld64 (mem k') (p + 8 * i) = mk_pte pg 0) as H2 by (rewrite Em; by apply ld64_st64).
  pose proof (λ r' q', add_node R (mem k) (pg :: l) (vo_inv _ _ Hk) r p i pg q (mem k') l Hr Hq Hp Hfree Hpg eq_refl H1 H2 H3 r' q') as Hnode.
  split; [|split; [|split]].
  - split; [|exact Kl|].
    + apply (kmem_inv_mem k1 k' l Kf); [unfold k'; kcbn; reflexivity|].
      intros p' Hp' b Hb. rewrite Em. apply ld8_st64_ne.
      assert (p' ≠ p) as Hne by (intros ->; apply Hpni; by right).
      assert (page_ok p') as Hok by (destruct Kf as [_ Kp _]; by apply (proj1 (Forall_forall _ _) Kp)).
      pose proof (page_disjoint p' p (proj1 Hok) (proj1 Hpok) Hne). unfold PGSIZE in *. lia.
    + eapply (add_inv R (mem k) (pg :: l) (vo_inv _ _ Hk) r p i pg q (mem k') l Hr Hq Hp Hfree Hpg eq_refl H1 H2 H3).
      apply (kmem_nodup _ _ (vo_free _ _ Hk)).
  - split; [exact Gs| | |].
    + intros r' q' p' Hr' Hq' E. rewrite Hnode in E by done. case_decide; [|by left].
      injection E as <-. right. by left.
    + intros p' Ha Hl Hn b Hb. apply H3.
      * assert (p' ≠ pg) as Hne by (intros ->; apply Hl; by left).
        pose proof (page_disjoint p' pg Ha (proj1 Hpg) Hne). lia.
      * assert (p' ≠ p) as Hne by (intros ->; by eapply (Hn r q)).
        pose proof (page_disjoint p' p Ha (proj1 Hpok) Hne). unfold PGSIZE in *. lia.
    + destruct Gr as [G1 G2]. split; [|exact G2]. unfold k', k1, filled, kalloc_state. keq.
  - rewrite (Hnode r (q ++ [i]) Hr Hq), decide_True by (split; reflexivity). reflexivity.
  - intros r' va' Hr'. exact (add_pte R (mem k) (pg :: l) (vo_inv _ _ Hk) r p i pg q (mem k') l Hr Hq Hp Hfree Hpg eq_refl H1 H2 H3 r' va' Hr').
Qed.

Lemma walk_level n q p k l : vm_ok k l -> q ++ vsuffix n va = vpath va -> node (mem k) r q = Some p ->
  ∃ a k' l', walk_loop n p va true k = Ret a k' ∧ walked n k l a k' l'.
Proof.
  revert q p k l. induction n as [|n IH]; intros q p k l Hk Hq Hp; cbn [walk_loop].
  { exists (p + 8 * PX 0 va), k, l. split; [done|]. split; [done|apply grows_refl|done| |lia]. right.
    rewrite app_nil_r in Hq. subst q. unfold leaf. rewrite Hp. split; [|done].
    destruct (node_page R (mem k) l (vo_inv _ _ Hk) r (vpath va) p Hr (vpath_ok va) Hp) as [Hok _].
    pose proof (page_ok_pos p Hok). pose proof (PX_range 0 va ltac:(lia)). lia. }
  cbn [vsuffix] in Hq. set (i := PX (Z.of_nat (S n)) va) in *.
  assert (path_ok (q ++ [i])) as Hqi.
  { destruct (vpath_ok va) as [Hl Hf]. rewrite <- Hq, (cons_middle i) in Hl, Hf. rewrite app_assoc in Hl, Hf.
    rewrite length_app in Hl. apply Forall_app in Hf as [Hf _]. split; [lia|done]. }
  unfold load64. rewrite bind_gets. fold (pte_valid (ld64 (mem k) (p + 8 * i))).
  destruct (pte_valid (ld64 (mem k) (p + 8 * i))) eqn:Hvd.
  { destruct (IH (q ++ [i]) (PTE2PA (ld64 (mem k) (p + 8 * i))) k l Hk) as (a & k' & l' & E & [W1 W2 W3 W4 W5]);
      [by rewrite <- app_assoc|rewrite node_snoc, Hp; cbn; by rewrite Hvd|].
    exists a, k', l'. split; [exact E|]. split; [done|done|done| |lia].
    destruct W4 as [(? & ? & ? & ?)|W4]; [left; repeat split; try done; lia|by right]. }
  assert (leaf (mem k) r va = None) as Hnone.
  { unfold leaf. rewrite <- Hq, (cons_middle i), app_assoc, node_app, node_snoc, Hp. cbn. by rewrite Hvd. }
  cbn [negb]. destruct l as [|pg l].
  { destruct (kalloc_none k Hk) as (E & Hk' & Hg). rewrite (bind_Ret _ _ _ _ _ E). cbn [Z.eqb].
    exists 0, (k <| mach ::= touch |>), []. split; [done|]. split; [done|done|done| |cbn; lia]. left. repeat split; [done|cbn; lia]. }
  destruct (kalloc_page k pg l Hk) as (E & _ & _ & Hpg & _). rewrite (bind_Ret _ _ _ _ _ E).
  pose proof (page_ok_pos pg Hpg). rewrite (proj2 (Z.eqb_neq pg 0)) by lia.
  unfold do_memset, store64. rewrite !bind_modify, mk_pte_0.
  destruct (walk_new_table k l pg q i p Hk Hp Hqi Hvd) as (Hk' & Hg & Hn & Hpt).
  destruct (IH (q ++ [i]) pg _ l Hk' ltac:(by rewrite <- app_assoc) Hn) as (a & k' & l' & E' & [W1 W2 W3 W4 W5]).
  exists a, k', l'. split; [exact E'|]. split; [exact W1|by eapply grows_trans| | |cbn; lia].
  2:{ destruct W4 as [(? & ? & _ & ?)|W4]; [left; repeat split; try done; cbn; lia|by right]. }
  intros r' va' Hr'. rewrite W3 by done. by apply Hpt.
Qed.

Lemma walk_alloc k l : vm_ok k l ->
  ∃ a k' l', walk r va true k = Ret a k' ∧ walked 2 k l a k' l'.
Proof.
  intros Hk. unfold walk. rewrite (proj2 (Z.leb_gt MAXVA va)) by lia. by apply (walk_level 2 [] r).
Qed.
End walk.

Lemma leaf_nonzero r va a k l : vm_ok k l -> r ∈ R -> leaf (mem k) r va = Some a -> a ≠ 0.
Proof.
  intros Hk Hr Ha. destruct (leaf_node (mem k) r va a Ha) as (p & Ep & -> & Hi).
  destruct (node_page R (mem k) l (vo_inv _ _ Hk) r _ p Hr (vpath_ok va) Ep) as [Hok _].
  pose proof (page_ok_pos p Hok). lia.
Qed.

Lemma walkaddr_eq r va k l : vm_ok k l -> r ∈ R -> 0 <= va ->
  walkaddr r va k = Ret (if (va <? MAXVA) && pte_valid (pte (mem k) r va) && negb (Z.land (pte (mem k) r va) PTE_U =? 0)
    then PTE2PA (pte (mem k) r va) else 0) k.
Proof.
  intros Hk Hr Hva. unfold walkaddr. destruct (Z.leb_spec MAXVA va).
  { by rewrite (proj2 (Z.ltb_ge va MAXVA)) by lia. }
  rewrite (proj2 (Z.ltb_lt va MAXVA)) by lia. rewrite (bind_Ret _ _ _ _ _ (walk_false r va k ltac:(lia))).
  unfold pte, load64, pte_valid. destruct (leaf (mem k) r va) as [a|] eqn:Ha; cbn [default from_option id]; [|done].
  rewrite (proj2 (Z.eqb_neq a 0)) by (by eapply leaf_nonzero). rewrite bind_gets.
  destruct (Z.land (ld64 (mem k) a) PTE_V =? 0); cbn [negb andb]; [done|].
  by destruct (Z.land (ld64 (mem k) a) PTE_U =? 0).
Qed.

Lemma ismapped_eq r va k l : vm_ok k l -> r ∈ R -> 0 <= va < MAXVA ->
  ismapped r va k = Ret (pte_valid (pte (mem k) r va)) k.
Proof.
  intros Hk Hr Hva. unfold ismapped. rewrite (bind_Ret _ _ _ _ _ (walk_false r va k Hva)).
  unfold pte, load64, pte_valid. destruct (leaf (mem k) r va) as [a|] eqn:Ha; cbn [default from_option id]; [|done].
  rewrite (proj2 (Z.eqb_neq a 0)) by (by eapply leaf_nonzero). rewrite bind_gets.
  by destruct (Z.land (ld64 (mem k) a) PTE_V =? 0).
Qed.

(** ** Mapping a page *)

Lemma mappable_grows k l k' l' pa : grows k l k' l' ->
  (∀ r va, r ∈ R -> pte (mem k') r va = pte (mem k) r va) -> mappable k l pa -> mappable k' l' pa.
Proof.
  intros [Gs Gn _ _] Hp (Hok & Hni & Hu). split; [done|]. split; [auto|].
  intros [r q|r va] Hw E; cbn in E.
  - destruct (Gn r q pa) as [E0|?]; [apply Hw|apply Hw|done| |done]. by apply (Hu (UNode r q)).
  - rewrite Hp in E by apply Hw. by apply (Hu (UFrame r va)).
Qed.

Section store_leaf.
Context (r va a e : Z) (Hr : r ∈ R) (Hva : va mod PGSIZE = 0) (Hrange : 0 <= va < MAXVA).

Lemma store_leaf k l : vm_ok k l -> leaf (mem k) r va = Some a -> 0 <= e < 2 ^ 64 ->
  (uva va -> pte_valid e = true -> mappable k l (PTE2PA e)) ->
  let k' := k <| mem ::= λ m, st64 m a e |> in
  vm_ok k' l ∧ grows k l k' l ∧
  ∀ r' va', r' ∈ R -> va' mod PGSIZE = 0 -> 0 <= va' < MAXVA ->
    pte (mem k') r' va' = if decide (r' = r ∧ va' = va) then e else pte (mem k) r' va'.
Proof.
  intros [Kf Kl Ki] Ha He Hnew k'. destruct (leaf_node (mem k) r va a Ha) as (p & Ep & Ea & Hi).
  destruct (node_page R (mem k) l Ki r _ p Hr (vpath_ok va) Ep) as [Hok Hni].
  assert (mem k' = st64 (mem k) a e) as Em by done.
  assert (∀ p', p' mod PGSIZE = 0 -> p' ≠ p -> same_page (mem k) (mem k') p') as Hs.
  { intros p' Ha' Hne b Hb. rewrite Em. apply ld8_st64_ne.
    pose proof (page_disjoint p' p Ha' (proj1 Hok) Hne). unfold PGSIZE in *. lia. }
  split; [|split].
  - split; [|done|].
    + apply (kmem_inv_mem k k' l Kf eq_refl). intros p' Hp'. apply Hs.
      * destruct Kf as [_ Kp _]. by apply (proj1 (Forall_forall _ _) Kp).
      * intros ->. done.
    + rewrite Em. apply (set_leaf_inv R (mem k) l Ki r va a e Hr Hva Hrange Ha He); [by left|].
      intros Hu Hve. by apply Hnew.
  - split; [done| | |apply vm_rest_mem].
    + intros r' q' p' Hr' Hq' E. left. rewrite Em in E.
      by rewrite (set_leaf_node R (mem k) l Ki r va a e Hr Ha r' q' Hr' Hq') in E.
    + intros p' Ha' _ Hn. apply Hs; [done|]. intros ->. by apply (Hn r (vpath va) Hr (vpath_ok va)).
  - intros r' va' Hr' Ha' Hb'. rewrite Em. by apply (set_leaf_pte R (mem k) l Ki r va a e).
Qed.
End store_leaf.

(** The effect of [mappages] on the entries. *)
Definition ptes_set (k : kernel) (r va e : Z) (k' : kernel) : Prop :=
  ∀ r' va', r' ∈ R -> va' mod PGSIZE = 0 -> 0 <= va' < MAXVA ->
    pte (mem k') r' va' = if decide (r' = r ∧ va' = va) then e else pte (mem k) r' va'.
Definition ptes_same (k k' : kernel) : Prop :=
  ∀ r va, r ∈ R -> va mod PGSIZE = 0 -> 0 <= va < MAXVA -> pte (mem k') r va = pte (mem k) r va.

Section mappages.
Context (r va pa perm : Z) (Hr : r ∈ R) (Hva : va mod PGSIZE = 0) (Hrange : 0 <= va < MAXVA).

Lemma mappages_one k : mappages r va PGSIZE pa perm k =
  (pte ← walk r va true;
   if pte =? 0 then mret (-1) else
   e ← load64 pte;
   if negb (Z.land e PTE_V =? 0) then panic "mappages: remap" else
   store64 pte (mk_pte pa perm) ;;
   mret 0) k.
Proof.
  unfold mappages. rewrite Hva. cbn [Z.eqb negb]. change (PGSIZE mod PGSIZE) with 0. change (PGSIZE =? 0) with false.
  cbn [Z.eqb negb]. change (Z.to_nat (PGSIZE / PGSIZE)) with 1%nat. cbn [mappages_loop].
  change MAXVA with (2 ^ 38) in Hrange.
  replace (u64 (va + PGSIZE - PGSIZE)) with va by (unfold u64; rewrite Z.mod_small by lia; lia).
  by rewrite Z.eqb_refl.
Qed.

Lemma mappages_remap k l : vm_ok k l -> pte_valid (pte (mem k) r va) = true ->
  ∃ k', mappages r va PGSIZE pa perm k = Panic "mappages: remap" k'.
Proof.
  intros Hk Hvd. rewrite mappages_one.
  destruct (walk_alloc r va Hr Hrange k l Hk) as (a & k1 & l1 & E & [W1 W2 W3 W4 W5]).
  rewrite (bind_Ret _ _ _ _ _ E). unfold pte in Hvd. destruct W4 as [(-> & _ & Hn & _)|[Hne Ha]].
  { rewrite Hn in Hvd. discriminate Hvd. }
  fold (pte (mem k) r va) in Hvd. rewrite <- (W3 r va Hr) in Hvd. unfold pte in Hvd. rewrite Ha in Hvd.
  rewrite (proj2 (Z.eqb_neq a 0)) by done. unfold load64. rewrite bind_gets.
  unfold pte_valid in Hvd. rewrite Hvd. by exists k1.
Qed.

Lemma mappages_page k l : vm_ok k l -> pte_valid (pte (mem k) r va) = false ->
  0 <= perm < 2 ^ 10 -> 0 <= pa < 2 ^ 56 -> pa mod PGSIZE = 0 -> (uva va -> mappable k l pa) ->
  ∃ x k' l', mappages r va PGSIZE pa perm k = Ret x k' ∧ vm_ok k' l' ∧ grows k l k' l' ∧ (length l <= length l' + 2)%nat ∧
    ((x = 0 ∧ ptes_set k r va (mk_pte pa perm) k') ∨ (x = -1 ∧ l' = [] ∧ (length l < 2)%nat ∧ ptes_same k k')).
Proof.
  intros Hk Hvd Hperm Hpa Hal Hmap. rewrite mappages_one.
  destruct (walk_alloc r va Hr Hrange k l Hk) as (a & k1 & l1 & E & [W1 W2 W3 W4 W5]).
  rewrite (bind_Ret _ _ _ _ _ E). destruct W4 as [(-> & El & _ & Hlt)|[Hne Ha]].
  { exists (-1), k1, l1. split; [done|]. split; [done|]. split; [done|]. split; [done|]. right.
    split; [done|]. split; [done|]. split; [done|]. intros r' va' Hr' _ _. by apply W3. }
  rewrite (proj2 (Z.eqb_neq a 0)) by done. unfold load64, store64. rewrite bind_gets.
  rewrite <- (W3 r va Hr) in Hvd. unfold pte in Hvd. rewrite Ha in Hvd. unfold pte_valid in Hvd. rewrite Hvd.
  rewrite bind_modify.
  destruct (store_leaf r va a (mk_pte pa perm) Hr Hva Hrange k1 l1 W1 Ha) as (Hk2 & Hg & Hp).
  - by apply mk_pte_range.
  - intros Hu _. rewrite mk_pte_pa by done. apply (mappable_grows k l k1 l1); [done|done|by apply Hmap].
  - exists 0, (k1 <| mem ::= λ m, st64 m a (mk_pte pa perm) |>), l1.
    split; [done|]. split; [exact Hk2|]. split; [by eapply grows_trans|]. split; [done|]. left. split; [done|].
    intros r' va' Hr' Ha' Hb'. rewrite Hp by done. case_decide; [done|]. by apply W3.
Qed.
End mappages.

(** ** Unmapping pages *)

(** Pages go back to the free list; tables and the other pages stay. *)
Record shrinks (k : kernel) (l : list Z) (k' : kernel) (l' : list Z) : Prop := {
  sh_sup p : p ∈ l -> p ∈ l';
  sh_node r q : r ∈ R -> path_ok q -> node (mem k') r q = node (mem k) r q;
  sh_mem p : p mod PGSIZE = 0 -> p ∉ l' -> (∀ r q, r ∈ R -> path_ok q -> node (mem k) r q ≠ Some p) ->
    same_page (mem k) (mem k') p;
  sh_rest : vm_rest k k';
}.
Lemma shrinks_refl k l : shrinks k l k l.
Proof. split; [done|done|done|apply vm_rest_refl]. Qed.
Lemma shrinks_trans k l k1 l1 k2 l2 : vm_ok k l ->
  shrinks k l k1 l1 -> shrinks k1 l1 k2 l2 -> shrinks k l k2 l2.
Proof.
  intros [_ [[Hc _ _ _] _] _] [S1 N1 M1 R1] [S2 N2 M2 R2]. split.
  - auto.
  - intros r q Hr Hq. by rewrite N2, N1.
  - intros p Ha Hl Hn. eapply same_page_trans; [apply M1|apply M2]; try done; [auto|].
    intros r q Hr Hq. rewrite N1 by done. by apply Hn.
  - by eapply vm_rest_trans.
Qed.

(** The round of [uvmunmap] for one page. *)
Definition unmap_round (r va : Z) (do_free : bool) : M () :=
  pte ← walk r va false;
  if pte =? 0 then mret () else
  e ← load64 pte;
  if Z.land e PTE_V =? 0 then mret () else
  when do_free (kfree (PTE2PA e)) ;;
  store64 pte 0.

(** The entries after the pages of [r] that satisfy [P] are unmapped. *)
Definition ptes_cleared (k : kernel) (r : Z) (P : Z -> Prop) (k' : kernel) : Prop :=
  ∀ r' va', r' ∈ R -> va' mod PGSIZE = 0 -> 0 <= va' < MAXVA ->
    (r' = r -> P va' -> pte_valid (pte (mem k') r' va') = false) ∧
    (¬ (r' = r ∧ P va') -> pte (mem k') r' va' = pte (mem k) r' va').

Lemma free_frame r va a k l : r ∈ R -> uva va -> vm_ok k l -> leaf (mem k) r va = Some a ->
  pte_valid (pte (mem k) r va) = true ->
  let p := PTE2PA (pte (mem k) r va) in
  let k' := (kfree_state p k) <| mem ::= λ m, st64 m a 0 |> in
  kfree p k = Ret () (kfree_state p k) ∧ vm_ok k' (p :: l) ∧ shrinks k l k' (p :: l) ∧ ptes_set k r va 0 k'.
Proof.
  intros Hr Hu [Kf Kl Ki] Ha Hvd p k'. pose proof Hu as [Hal Hrg]. change TRAPFRAME with (MAXVA - 2 * PGSIZE) in Hrg.
  assert (0 <= va < MAXVA) as Hb by (unfold PGSIZE in Hrg; lia).
  assert (page_of (mem k) (UFrame r va) = Some p) as Epo by (cbn; by rewrite Hvd).
  destruct (vm_page R _ _ Ki (UFrame r va) p (conj Hr Hu) Epo) as [Hok Hni].
  set (m1 := mem (kfree_state p k)).
  assert (∀ q, q mod PGSIZE = 0 -> q ≠ p -> same_page (mem k) m1 q) as Hs1.
  { intros q Hq Hne b Hbq. apply (kfree_mem p k). pose proof (page_disjoint q p Hq (proj1 Hok) Hne). lia. }
  assert (∀ r q p', r ∈ R -> path_ok q -> node (mem k) r q = Some p' -> same_page (mem k) m1 p') as Hns.
  { intros r' q p' Hr' Hq E. apply Hs1; [by apply (node_page R _ _ Ki r' q p')|]. intros ->.
    pose proof (vm_inj R _ _ Ki (UNode r' q) (UFrame r va) p (conj Hr' Hq) (conj Hr Hu) E Epo) as Hx. discriminate Hx. }
  pose proof (vm_inv_frame R (mem k) l Ki m1 l Hns (λ p H, H)) as Hi1.
  assert (∀ r' q', r' ∈ R -> path_ok q' -> node m1 r' q' = node (mem k) r' q') as Hn1.
  { intros r' q' Hr' Hq'. apply node_frame; [exact Hq'|]. intros q1 p1 Hq1 _. apply (Hns r' q1 p1 Hr' Hq1). }
  assert (∀ r' va', r' ∈ R -> pte m1 r' va' = pte (mem k) r' va') as Hp1.
  { intros r' va' Hr'. apply pte_frame. intros q1 p1. apply (Hns r' q1 p1 Hr'). }
  assert (leaf m1 r va = Some a) as Ha1.
  { unfold leaf. rewrite (Hn1 r _ Hr (vpath_ok va)). exact Ha. }
  destruct (leaf_node m1 r va a Ha1) as (pl & Epl & Ea & Hi).
  destruct (node_page R m1 l Hi1 r _ pl Hr (vpath_ok va) Epl) as [Hlok Hlni].
  assert (p ≠ pl) as Hppl.
  { intros <-. rewrite (Hn1 r _ Hr (vpath_ok va)) in Epl.
    pose proof (vm_inj R _ _ Ki (UNode r (vpath va)) (UFrame r va) p (conj Hr (vpath_ok va)) (conj Hr Hu) Epl Epo) as Hx.
    discriminate Hx. }
  assert (mem k' = st64 m1 a 0) as Em by done.
  assert (∀ q, q mod PGSIZE = 0 -> q ≠ pl -> same_page m1 (mem k') q) as Hs2.
  { intros q Hq Hne b Hbq. rewrite Em. apply ld8_st64_ne.
    pose proof (page_disjoint q pl Hq (proj1 Hlok) Hne). unfold PGSIZE in *. lia. }
  split; [by apply kfree_eq|]. split; [|split].
  - split; [|by apply can_lock_touch|].
    + apply (kmem_inv_mem (kfree_state p k) k' (p :: l) (kfree_inv p k l Kf Hok Hni)); [unfold k'; kcbn; reflexivity|].
      intros q [Eq|Hq]%elem_of_cons; [rewrite Eq; by apply Hs2; [apply Hok|]|].
      destruct Kf as [_ Kp _]. apply Hs2; [by apply (proj1 (Forall_forall _ _) Kp)|congruence].
    + rewrite Em. apply (set_leaf_inv R m1 l Hi1 r va a 0 Hr Hal Hb Ha1); [lia| |intros _ Hx; discriminate Hx].
      intros q [Eq|Hq]%elem_of_cons; [|by left]. right. rewrite (Hp1 r va Hr).
      split; [exact Hu|]. split; [exact Hvd|exact Eq].
  - split; [by right| | |].
    + intros r' q Hr' Hq. rewrite Em, (set_leaf_node R m1 l Hi1 r va a 0 Hr Ha1 r' q Hr' Hq). exact (Hn1 r' q Hr' Hq).
    + intros q Hq Hnl Hnn. apply (same_page_trans (mem k) m1 (mem k') q).
      * apply (Hs1 q Hq). intros Eq. apply Hnl. rewrite Eq. by left.
      * apply (Hs2 q Hq). intros Eq. rewrite <- Eq, (Hn1 r _ Hr (vpath_ok va)) in Epl.
        exact (Hnn r (vpath va) Hr (vpath_ok va) Epl).
    + split; [unfold k', kfree_state; keq|by right].
  - intros r' va' Hr' Ha' Hb'. rewrite Em, (set_leaf_pte R m1 l Hi1 r va a 0 Hr Hal Hb Ha1 ltac:(lia) r' va' Hr' Ha' Hb').
    rewrite (Hp1 r' va' Hr'). reflexivity.
Qed.

Lemma unmap_page r va k l : r ∈ R -> uva va -> vm_ok k l ->
  ∃ k' l', unmap_round r va true k = Ret () k' ∧ vm_ok k' l' ∧ shrinks k l k' l' ∧
    ptes_cleared k r (λ va', va' = va) k' ∧
    l' = (if pte_valid (pte (mem k) r va) then [PTE2PA (pte (mem k) r va)] else []) ++ l.
Proof.
  intros Hr Hu Hk. pose proof Hu as [Hal Hrg]. change TRAPFRAME with (MAXVA - 2 * PGSIZE) in Hrg.
  assert (0 <= va < MAXVA) as Hb by (unfold PGSIZE in Hrg; lia).
  assert (pte_valid (pte (mem k) r va) = false -> ∃ k' l', Ret () k = Ret () k' ∧ vm_ok k' l' ∧ shrinks k l k' l' ∧
    ptes_cleared k r (λ va', va' = va) k' ∧ l' = (if pte_valid (pte (mem k) r va) then [PTE2PA (pte (mem k) r va)] else []) ++ l) as Hnop.
  { intros Hvd. exists k, l. rewrite Hvd. split; [done|]. split; [done|]. split; [apply shrinks_refl|]. split; [|done].
    intros r' va' Hr' Ha' Hb'. split; [by intros -> ->|done]. }
  unfold unmap_round. rewrite (bind_Ret _ _ _ _ _ (walk_false r va k Hb)).
  destruct (leaf (mem k) r va) as [a|] eqn:Ha; cbn [default from_option id].
  2:{ apply Hnop. unfold pte. by rewrite Ha. }
  rewrite (proj2 (Z.eqb_neq a 0)) by (by eapply leaf_nonzero). unfold load64. rewrite bind_gets.
  assert (ld64 (mem k) a = pte (mem k) r va) as -> by (unfold pte; by rewrite Ha).
  destruct (Z.land (pte (mem k) r va) PTE_V =? 0) eqn:Hvd.
  { apply Hnop. unfold pte_valid. by rewrite Hvd. }
  assert (pte_valid (pte (mem k) r va) = true) as Hvalid by (unfold pte_valid; by rewrite Hvd). rewrite Hvalid.
  cbn [when app]. destruct (free_frame r va a k l Hr Hu Hk Ha Hvalid) as (E & Hk' & Hsh & Hp).
  rewrite (bind_Ret _ _ _ _ _ E). unfold store64. eexists _, _. split; [reflexivity|]. split; [exact Hk'|].
  split; [exact Hsh|]. split; [|reflexivity].
  intros r' va' Hr' Ha' Hb'. rewrite Hp by done. split.
  - intros -> ->. by rewrite decide_True.
  - intros Hne. by rewrite decide_False.
Qed.

(** Where in a range of pages an address is. *)
Definition in_pages (va n va' : Z) : Prop := va <= va' < va + n * PGSIZE.

Lemma unmap_step fuel r a last do_free k : (a <? last) = true ->
  uvmunmap_loop (S fuel) r a last do_free k =
  (unmap_round r a do_free ;; uvmunmap_loop fuel r (u64 (a + PGSIZE)) last do_free) k.
Proof. intros E. cbn [uvmunmap_loop]. rewrite E. unfold unmap_round. by rewrite bind_bind. Qed.

Lemma unmap_range r n va k l : r ∈ R -> vm_ok k l -> va mod PGSIZE = 0 -> 0 <= va ->
  va + Z.of_nat n * PGSIZE <= TRAPFRAME ->
  ∃ k' l', uvmunmap_loop (S n) r va (va + Z.of_nat n * PGSIZE) true k = Ret () k' ∧ vm_ok k' l' ∧
    shrinks k l k' l' ∧ ptes_cleared k r (in_pages va (Z.of_nat n)) k' ∧
    ∀ p, p ∈ l' -> p ∈ l ∨ ∃ va', uva va' ∧ in_pages va (Z.of_nat n) va' ∧ page_of (mem k) (UFrame r va') = Some p.
Proof.
  intros Hr. revert va k l. induction n as [|n IH]; intros va k l Hk Hal Hva Hend.
  { exists k, l. split; [cbn [uvmunmap_loop]; by rewrite (proj2 (Z.ltb_ge _ _)) by lia|]. split; [done|].
    split; [apply shrinks_refl|]. split; [|by left].
    intros r' va' _ _ _. split; [|done]. unfold in_pages, PGSIZE. lia. }
  assert (uva va) as Hu by (split; [done|unfold PGSIZE in *; lia]).
  rewrite unmap_step by (apply Z.ltb_lt; unfold PGSIZE; lia).
  destruct (unmap_page r va k l Hr Hu Hk) as (k1 & l1 & E1 & Hk1 & Hs1 & Hp1 & El1).
  rewrite (bind_Ret _ _ _ _ _ E1).
  assert (u64 (va + PGSIZE) = va + PGSIZE) as ->.
  { apply u64_small. change TRAPFRAME with (2 ^ 38 - 8192) in Hend. unfold PGSIZE in *. lia. }
  destruct (IH (va + PGSIZE) k1 l1 Hk1) as (k2 & l2 & E2 & Hk2 & Hs2 & Hp2 & Hl2); [unfold PGSIZE in *; zlia|unfold PGSIZE; lia|unfold PGSIZE in *; lia|].
  exists k2, l2. replace (va + Z.of_nat (S n) * PGSIZE) with (va + PGSIZE + Z.of_nat n * PGSIZE) by lia.
  split; [exact E2|]. split; [exact Hk2|]. split; [by eapply shrinks_trans|]. split.
  - intros r' va' Hr' Ha' Hb'. destruct (Hp1 r' va' Hr' Ha' Hb') as [C1 S1], (Hp2 r' va' Hr' Ha' Hb') as [C2 S2].
    unfold in_pages in *. split.
    + intros -> Hin. destruct (decide (va' = va)) as [->|Hne].
      * rewrite S2 by (unfold PGSIZE; lia). by apply C1.
      * apply C2; [done|]. unfold PGSIZE in *. zlia.
    + intros Hn. rewrite S2, S1; [done| |]; intros [-> ?]; apply Hn; split; try done; unfold PGSIZE in *; lia.
  - intros p Hp. destruct (Hl2 p Hp) as [Hp'|(va' & Hu' & Hin & Hpo)].
    + rewrite El1 in Hp'. destruct (pte_valid (pte (mem k) r va)) eqn:Hvd; [|by left].
      apply elem_of_cons in Hp' as [->|Hp']; [|by left]. right. exists va. split; [done|].
      split; [unfold in_pages, PGSIZE; lia|]. cbn. by rewrite Hvd.
    + right. exists va'. split; [done|]. split; [unfold in_pages, PGSIZE in *; lia|].
      cbn in Hpo |- *. destruct Hu' as [Ha' Hb'].
      destruct (Hp1 r va' Hr Ha') as [_ S1]; [change TRAPFRAME with (MAXVA - 2 * PGSIZE) in Hb'; unfold PGSIZE in Hb'; lia|].
      rewrite S1 in Hpo; [done|]. intros [_ ->]. unfold in_pages, PGSIZE in Hin. lia.
Qed.

Lemma uvmunmap_spec r va n k l : r ∈ R -> vm_ok k l -> va mod PGSIZE = 0 -> 0 <= va -> 0 <= n ->
  va + n * PGSIZE <= TRAPFRAME ->
  ∃ k' l', uvmunmap r va n true k = Ret () k' ∧ vm_ok k' l' ∧
    shrinks k l k' l' ∧ ptes_cleared k r (in_pages va n) k' ∧
    ∀ p, p ∈ l' -> p ∈ l ∨ ∃ va', uva va' ∧ in_pages va n va' ∧ page_of (mem k) (UFrame r va') = Some p.
Proof.
  intros Hr Hk Hal Hva Hn Hend. unfold uvmunmap. rewrite Hal. cbn [Z.eqb negb].
  assert (u64 (va + n * PGSIZE) = va + n * PGSIZE) as ->.
  { apply u64_small. change TRAPFRAME with (2 ^ 38 - 8192) in Hend. unfold PGSIZE in *. lia. }
  pose proof (unmap_range r (Z.to_nat n) va k l Hr Hk Hal Hva) as H. rewrite Z2Nat.id in H by done. by apply H.
Qed.

(** ** Allocating and mapping a page *)

Lemma grows_shrinks k l k1 l1 k2 l2 : vm_ok k l -> grows k l k1 l1 -> shrinks k1 l1 k2 l2 ->
  (∀ p, p ∈ l2 -> p ∈ l) -> grows k l k2 l2.
Proof.
  intros [_ [[Hc _ _ _] _] _] [S1 N1 M1 R1] [S2 N2 M2 R2] Hl. split; [done| | |by eapply vm_rest_trans].
  - intros r q p Hr Hq. rewrite N2 by done. by apply N1.
  - intros p Ha Hp Hn. eapply same_page_trans; [by apply M1|]. apply M2; [done|auto|].
    intros r q Hr Hq E. destruct (N1 r q p Hr Hq E); [by eapply Hn|done].
Qed.

(** The pages of the user keep their contents. *)
Lemma frame_kept k l k' l' r va p : vm_ok k l -> grows k l k' l' -> r ∈ R -> uva va ->
  page_of (mem k) (UFrame r va) = Some p -> same_page (mem k) (mem k') p.
Proof.
  intros [_ _ Ki] [_ _ Gm _] Hr Hu E. destruct (vm_page R _ _ Ki (UFrame r va) p (conj Hr Hu) E) as [[Ha _] Hni].
  apply Gm; [done|done|]. intros r' q Hr' Hq En.
  pose proof (vm_inj R _ _ Ki (UNode r' q) (UFrame r va) p (conj Hr' Hq) (conj Hr Hu) En E) as Hx. discriminate Hx.
Qed.

Lemma kfree_unused k l pg : vm_ok k l -> mappable k l pg ->
  kfree pg k = Ret () (kfree_state pg k) ∧ vm_ok (kfree_state pg k) (pg :: l) ∧
  shrinks k l (kfree_state pg k) (pg :: l) ∧
  ∀ r va, r ∈ R -> pte (mem (kfree_state pg k)) r va = pte (mem k) r va.
Proof.
  intros [Kf Kl Ki] (Hok & Hni & Hu). set (m1 := mem (kfree_state pg k)).
  assert (∀ q, q mod PGSIZE = 0 -> q ≠ pg -> same_page (mem k) m1 q) as Hs.
  { intros q Hq Hne b Hbq. apply (kfree_mem pg k). pose proof (page_disjoint q pg Hq (proj1 Hok) Hne). lia. }
  assert (∀ r q p, r ∈ R -> path_ok q -> node (mem k) r q = Some p -> same_page (mem k) m1 p) as Hns.
  { intros r q p Hr Hq E. apply Hs; [by apply (node_page R _ _ Ki r q p)|]. intros ->.
    exact (Hu (UNode r q) (conj Hr Hq) E). }
  assert (∀ r q, r ∈ R -> path_ok q -> node m1 r q = node (mem k) r q) as Hn.
  { intros r q Hr Hq. apply node_frame; [exact Hq|]. intros q1 p1 Hq1 _. apply (Hns r q1 p1 Hr Hq1). }
  assert (∀ r va, r ∈ R -> pte m1 r va = pte (mem k) r va) as Hp.
  { intros r va Hr. apply pte_frame. intros q1 p1. apply (Hns r q1 p1 Hr). }
  split; [exact (kfree_eq pg k Hok Kl)|]. split; [|split; [|exact Hp]].
  - pose proof (vm_inv_frame R (mem k) l Ki m1 l Hns (λ p H, H)) as [Hpage Hinj].
    split; [exact (kfree_inv pg k l Kf Hok Hni)|exact (can_lock_touch _ _ Kl)|]. split; [|exact Hinj].
    intros u p Hw E. destruct (Hpage u p Hw E) as [Hpo Hpn]. split; [exact Hpo|].
    intros [->|?]%elem_of_cons; [|done]. apply (Hu u Hw).
    destruct u as [r q|r va]; cbn in E |- *; [by rewrite <- (Hn r q (proj1 Hw) (proj2 Hw))|].
    by rewrite <- (Hp r va (proj1 Hw)).
  - split; [intros p Hin; by right|exact Hn| |].
    + intros p Ha Hl _. apply Hs; [exact Ha|]. intros ->. apply Hl. by left.
    + split; [unfold kfree_state; keq|by right].
Qed.

(** What [uvmalloc], [uvmcopy] and [vmfault] have in common: a page from
    [kalloc], filled and mapped, or 0. *)
Definition alloc_map (r va : Z) (fill : Z -> memory -> memory) (perm : Z) : M Z :=
  pg ← kalloc;
  if pg =? 0 then mret 0 else
  modify (λ k, k <| mem ::= fill pg |>) ;;
  x ← mappages r va PGSIZE pg perm;
  if negb (x =? 0) then kfree pg ;; mret 0 else mret pg.

Lemma alloc_map_spec r va fill perm k l : r ∈ R -> uva va -> vm_ok k l -> pte_valid (pte (mem k) r va) = false ->
  0 <= perm < 2 ^ 10 -> (∀ pg m b, ¬ (pg <= b < pg + PGSIZE) -> ld8 (fill pg m) b = ld8 m b) ->
  ∃ x k' l', alloc_map r va fill perm k = Ret x k' ∧ vm_ok k' l' ∧ grows k l k' l' ∧ (length l <= length l' + 3)%nat ∧
    ((x = 0 ∧ (length l < 3)%nat ∧ ptes_same k k') ∨
     (page_ok x ∧ x ∈ l ∧ x ≠ 0 ∧ ptes_set k r va (mk_pte x perm) k' ∧
      ∀ b, x <= b < x + PGSIZE -> ld8 (mem k') b = ld8 (fill x (mem (kalloc_state x k))) b)).
Proof.
  intros Hr Hu Hk Hvd Hperm Hfill. pose proof Hu as [Hal Hrg]. change TRAPFRAME with (MAXVA - 2 * PGSIZE) in Hrg.
  assert (0 <= va < MAXVA) as Hb by (unfold PGSIZE in Hrg; lia). unfold alloc_map. destruct l as [|pg l].
  { destruct (kalloc_none k Hk) as (E & Hk' & Hg). rewrite (bind_Ret _ _ _ _ _ E). cbn [Z.eqb].
    exists 0, (k <| mach ::= touch |>), []. split; [done|]. split; [done|]. split; [done|]. split; [cbn; lia|]. left. split; [done|]. split; [cbn; lia|done]. }
  destruct (kalloc_page k pg l Hk) as (E & _ & _ & Hpg & Hni & Hus & _). rewrite (bind_Ret _ _ _ _ _ E).
  pose proof (page_ok_range pg Hpg) as [Hrange Hpal]. rewrite (proj2 (Z.eqb_neq pg 0)) by lia. rewrite bind_modify.
  destruct (filled_page k pg l (fill pg) Hk (Hfill pg)) as (Hk1 & Hg1 & Hmp & Hm1 & Hp1).
  fold (filled pg (fill pg) k). set (k1 := filled pg (fill pg) k) in *.
  destruct (mappages_page r va pg perm Hr Hal Hb k1 l Hk1) as (x & k2 & l2 & E2 & Hk2 & Hg2 & Hcnt & Hx);
    [by rewrite Hp1|done|lia|done|done|].
  rewrite (bind_Ret _ _ _ _ _ E2). pose proof (grows_trans _ _ _ _ _ _ Hk Hg1 Hg2) as Hg.
  destruct Hx as [[-> Hset]|(-> & -> & Hlt & Hsame)]; cbn [Z.eqb negb].
  - exists pg, k2, l2. split; [done|]. split; [exact Hk2|]. split; [exact Hg|]. split; [cbn; lia|]. right.
    split; [exact Hpg|]. split; [by left|]. split; [lia|]. split.
    + intros r' va' Hr' Ha' Hb'. rewrite Hset by done. case_decide; [done|]. by apply Hp1.
    + intros b Hbb. assert (same_page (mem k1) (mem k2) pg) as Hsp; [|by apply Hsp].
      apply (gr_mem _ _ _ _ Hg2); [done|done|]. intros r' q Hr' Hq E'. exact (proj2 (proj2 Hmp) (UNode r' q) (conj Hr' Hq) E').
  - assert (mappable k2 [] pg) as Hmp2.
    { split; [exact Hpg|]. split; [apply not_elem_of_nil|]. intros u Hw Eu. destruct u as [r' q|r' va']; unfold page_of in Eu.
      - destruct (gr_node _ _ _ _ Hg2 r' q pg (proj1 Hw) (proj2 Hw) Eu) as [E0|Hin]; [|done].
        exact (proj2 (proj2 Hmp) (UNode r' q) Hw E0).
      - rewrite (Hsame r' va' (proj1 Hw)) in Eu; [exact (proj2 (proj2 Hmp) (UFrame r' va') Hw Eu)|apply Hw|].
        destruct Hw as [_ [_ Hw]]. change TRAPFRAME with (MAXVA - 2 * PGSIZE) in Hw. unfold PGSIZE in Hw. lia. }
    destruct (kfree_unused k2 [] pg Hk2 Hmp2) as (E3 & Hk3 & Hs3 & Hp3). rewrite (bind_Ret _ _ _ _ _ E3).
    exists 0, (kfree_state pg k2), [pg]. split; [done|]. split; [exact Hk3|]. split.
    + apply (grows_shrinks k (pg :: l) k2 [] _ _ Hk Hg Hs3). intros p ->%list_elem_of_singleton. by left.
    + split; [cbn; lia|]. left. split; [done|]. split; [cbn; lia|]. intros r' va' Hr' Ha' Hb'. by rewrite Hp3, Hsame, Hp1.
Qed.
End spec.
