(* ===== verification/VmUser.v ===== *)
(** * User address spaces: growing and copying them

    [uvmalloc] adds zeroed pages or leaves the address space as it was, and
    [uvmcopy], the memory part of [fork], gives the child pages of its own with
    the parent's contents and permissions. *)
From S2P Require Import Prelude Layout KState Spinlock CString Kalloc Vm PageTable VmSpec.

#[local] Opaque memset memmove st64 ld64.

(** What a user page is to its process: its permissions and its contents. *)
Definition upage (m : memory) (r va : Z) : option (Z * list Z) :=
  let e := pte m r va in
  if pte_valid e then Some (PTE_FLAGS e, bytes (Z.to_nat PGSIZE) m (PTE2PA e)) else None.

Lemma uva_max va : uva va -> 0 <= va < MAXVA.
Proof. intros [_ H]. change TRAPFRAME with (MAXVA - 2 * PGSIZE) in H. unfold PGSIZE in H. lia. Qed.

Lemma PGROUNDUP_aligned a : 0 <= a < 2 ^ 63 -> a mod PGSIZE = 0 -> PGROUNDUP a = a.
Proof. intros Ha Hal. rewrite PGROUNDUP_eq by (unfold PGSIZE in *; lia). unfold PGSIZE in *. zlia. Qed.

Section user.
Context {L : Linker} {LO : LinkerOk L} (R : list Z).

(** The entries are the same up to entries that are not valid. *)
Definition ptes_equiv (k k' : kernel) : Prop :=
  ∀ r va, r ∈ R -> uva va -> pte (mem k') r va = pte (mem k) r va ∨
    (pte_valid (pte (mem k') r va) = false ∧ pte_valid (pte (mem k) r va) = false).

Lemma upage_kept k l k' l' r va : vm_ok R k l -> grows R k l k' l' -> r ∈ R -> uva va ->
  pte (mem k') r va = pte (mem k) r va -> upage (mem k') r va = upage (mem k) r va.
Proof.
  intros Hk Hg Hr Hu E. unfold upage. rewrite E. destruct (pte_valid (pte (mem k) r va)) eqn:Hvd; [|done].
  apply (f_equal Some), (f_equal (pair _)). apply bytes_ext. intros b Hb.
  assert (page_of (mem k) (UFrame r va) = Some (PTE2PA (pte (mem k) r va))) as Epo by (unfold page_of; by rewrite Hvd).
  exact (frame_kept R k l k' l' r va _ Hk Hg Hr Hu Epo b Hb).
Qed.

(** ** [uvmdealloc] *)

Lemma uvmdealloc_spec r oldsz newsz k l : r ∈ R -> vm_ok R k l -> 0 <= newsz <= oldsz ->
  newsz mod PGSIZE = 0 -> oldsz mod PGSIZE = 0 -> oldsz <= TRAPFRAME ->
  ∃ k' l', uvmdealloc r oldsz newsz k = Ret newsz k' ∧ vm_ok R k' l' ∧ shrinks R k l k' l' ∧
    ptes_cleared R k r (λ va, newsz <= va < oldsz) k' ∧
    ∀ p, p ∈ l' -> p ∈ l ∨ ∃ va, uva va ∧ newsz <= va < oldsz ∧ page_of (mem k) (UFrame r va) = Some p.
Proof.
  intros Hr Hk Hsz Hn Ho Hmax. assert (oldsz < 2 ^ 38) as Hm by (change TRAPFRAME with (2 ^ 38 - 8192) in Hmax; lia).
  unfold uvmdealloc. destruct (Z.leb_spec oldsz newsz) as [Hle|Hlt].
  { assert (oldsz = newsz) as -> by lia. exists k, l. split; [done|]. split; [done|]. split; [apply shrinks_refl|].
    split; [|by left]. intros r' va _ _ _. split; [lia|done]. }
  rewrite !PGROUNDUP_aligned by lia. rewrite (proj2 (Z.ltb_lt newsz oldsz)) by lia. cbn [when].
  assert (i32 ((oldsz - newsz) / PGSIZE) = (oldsz - newsz) / PGSIZE) as -> by (apply i32_small; unfold PGSIZE; zlia).
  destruct (uvmunmap_spec R r newsz ((oldsz - newsz) / PGSIZE) k l Hr Hk Hn ltac:(lia)) as (k' & l' & E & Hk' & Hs & Hp & Hl);
    [unfold PGSIZE; zlia|unfold PGSIZE in *; zlia|].
  rewrite (bind_Ret _ _ _ _ _ E). exists k', l'.
  assert (newsz + (oldsz - newsz) / PGSIZE * PGSIZE = oldsz) as Eo by (unfold PGSIZE in *; zlia).
  unfold in_pages in Hp, Hl. rewrite Eo in Hp, Hl. done.
Qed.

(** ** [uvmalloc] *)

Section uvmalloc.
Context (r xperm a0 : Z) (Hr : r ∈ R) (Hx : 0 <= xperm < 2 ^ 10) (Ha0 : a0 mod PGSIZE = 0 ∧ 0 <= a0).
Context (k0 : kernel) (l0 : list Z) (Hk0 : vm_ok R k0 l0).
Let perm : Z := Z.lor (Z.lor PTE_R PTE_U) xperm.

Lemma perm_range : 0 <= perm < 2 ^ 10.
Proof. by apply lor_bound. Qed.

(** The pages from [a0] to [hi] are new. *)
Record grown (hi : Z) (k : kernel) (l : list Z) : Prop := {
  gn_ok : vm_ok R k l;
  gn_grows : grows R k0 l0 k l;
  gn_other r' va : r' ∈ R -> va mod PGSIZE = 0 -> 0 <= va < MAXVA -> ¬ (r' = r ∧ a0 <= va < hi) ->
    pte (mem k) r' va = pte (mem k0) r' va;
  gn_new va : uva va -> a0 <= va < hi -> ∃ pg, page_ok pg ∧ pg ∈ l0 ∧ pte (mem k) r va = mk_pte pg perm ∧
    ∀ b, pg <= b < pg + PGSIZE -> ld8 (mem k) b = 0;
}.

Lemma uvmalloc_step fuel a newsz k : (a <? newsz) = true ->
  uvmalloc_loop (S fuel) r a a0 newsz xperm k =
  (pg ← alloc_map r a (λ pg, memset pg 0 PGSIZE) perm;
   if pg =? 0 then uvmdealloc r a a0 ;; mret 0
   else uvmalloc_loop fuel r (u64 (a + PGSIZE)) a0 newsz xperm) k.
Proof.
  intros E. cbn [uvmalloc_loop]. rewrite E. unfold alloc_map, do_memset. rewrite bind_bind. apply bind_ext.
  intros pg k1 _. destruct (Z.eqb_spec pg 0) as [->|Hne]; [done|]. rewrite bind_bind. apply bind_ext.
  intros [] k2 _. rewrite bind_bind. apply bind_ext. intros x k3 _. destruct (x =? 0); cbn [negb].
  - rewrite bind_ret. by rewrite (proj2 (Z.eqb_neq pg 0)).
  - rewrite bind_bind. by apply bind_ext.
Qed.

Lemma grown_step a pg k l k' l' : a mod PGSIZE = 0 -> 0 <= a -> a < TRAPFRAME -> grown a k l -> a0 <= a ->
  vm_ok R k' l' -> grows R k l k' l' -> page_ok pg -> pg ∈ l -> ptes_set R k r a (mk_pte pg perm) k' ->
  (∀ b, pg <= b < pg + PGSIZE -> ld8 (mem k') b = 0) -> grown (a + PGSIZE) k' l'.
Proof.
  intros Hal Ha Htf [G1 G2 G3 G4] Haa Hk' Hg Hpg Hin Hset Hz. split; [done|by eapply grows_trans| |].
  - intros r' va Hr' Hv1 Hv2 Hn. rewrite Hset by done. rewrite decide_False.
    + apply G3; [done..|]. intros [-> Hv]. apply Hn. split; [done|]. unfold PGSIZE. lia.
    + intros [-> ->]. apply Hn. split; [done|]. unfold PGSIZE. lia.
  - intros va Hu Hv. destruct (decide (va = a)) as [->|Hne].
    + exists pg. split; [done|]. split; [by apply (gr_sub _ _ _ _ _ G2)|]. split; [|done].
      rewrite Hset; [by rewrite decide_True|done|done|by apply uva_max].
    + destruct (G4 va Hu) as (q & Hq & Hq0 & Eq & Hqz); [destruct Hu; unfold PGSIZE in *; zlia|].
      exists q. split; [done|]. split; [done|].
      assert (page_of (mem k) (UFrame r va) = Some q) as Epo.
      { unfold page_of. by rewrite Eq, mk_pte_valid, mk_pte_page by (done || apply perm_range). }
      split; [rewrite Hset; [rewrite decide_False; [done|by intros [_ ?]]|done|apply Hu|by apply uva_max]|].
      intros b Hb. rewrite (frame_kept R k l k' l' r va q); [by apply Hqz|done..].
Qed.

Lemma uvmalloc_undo a k l : a mod PGSIZE = 0 -> a0 <= a <= TRAPFRAME -> grown a k l ->
  (∀ va, uva va -> a0 <= va < a -> pte_valid (pte (mem k0) r va) = false) ->
  ∃ k' l', (uvmdealloc r a a0 ;; mret 0) k = Ret 0 k' ∧ vm_ok R k' l' ∧ grows R k0 l0 k' l' ∧ ptes_equiv k0 k'.
Proof.
  intros Hal Ha [G1 G2 G3 G4] Hinv.
  destruct (uvmdealloc_spec r a a0 k l Hr G1) as (k' & l' & E & Hk' & Hs & Hp & Hl); [lia|apply Ha0|done|lia|].
  rewrite (bind_Ret _ _ _ _ _ E). exists k', l'. split; [done|]. split; [done|]. split.
  - apply (grows_shrinks R k0 l0 k l); [done..|]. intros p Hin.
    destruct (Hl p Hin) as [?|(va & Hu & Hv & Epo)]; [by apply (gr_sub _ _ _ _ _ G2)|].
    destruct (G4 va Hu Hv) as (pg & Hpg & Hpg0 & Eq & _). unfold page_of in Epo.
    rewrite Eq, mk_pte_valid, mk_pte_page in Epo by (done || apply perm_range). by injection Epo as <-.
  - intros r' va Hr' Hu. destruct (Hp r' va Hr' (proj1 Hu) (uva_max va Hu)) as [Hc Hsame].
    destruct (decide (r' = r)) as [->|Hne].
    + destruct (decide (a0 <= va < a)) as [Hin|Hout].
      * right. split; [by apply Hc|by apply Hinv].
      * left. rewrite Hsame by (intros [_ ?]; lia). apply G3; [done|apply Hu|by apply uva_max|intros [_ ?]; lia].
    + left. rewrite Hsame by (intros [? _]; done). apply G3; [done|apply Hu|by apply uva_max|intros [? _]; done].
Qed.

Lemma grown_start : grown a0 k0 l0.
Proof. split; [done|apply grows_refl|done|]. intros va _ H. lia. Qed.

(** The range up to [newsz] is the range up to the next page boundary. *)
Lemma grown_end a newsz k l : a mod PGSIZE = 0 -> a - PGSIZE < newsz <= a -> grown a k l -> grown newsz k l.
Proof.
  intros Hal Hn [G1 G2 G3 G4]. split; [done..| |].
  - intros r' va Hr' Hv1 Hv2 Hne. apply G3; [done..|]. intros [-> Hv]. apply Hne. split; [done|].
    unfold PGSIZE in *. zlia.
  - intros va Hu Hv. apply G4; [done|lia].
Qed.

Lemma uvmalloc_loop_spec newsz n a k l fuel : grown a k l -> a mod PGSIZE = 0 -> a0 <= a -> newsz <= TRAPFRAME ->
  (∀ va, uva va -> a0 <= va < newsz -> pte_valid (pte (mem k0) r va) = false) ->
  newsz <= a + Z.of_nat n * PGSIZE -> (n < fuel)%nat -> (a - PGSIZE < newsz ∨ a = a0) ->
  ∃ x k' l', uvmalloc_loop fuel r a a0 newsz xperm k = Ret x k' ∧
    ((x = newsz ∧ grown newsz k' l') ∨
     (x = 0 ∧ (length l < 3 * n)%nat ∧ vm_ok R k' l' ∧ grows R k0 l0 k' l' ∧ ptes_equiv k0 k')).
Proof.
  intros Hgn Hal Ha Hmax Hinv. revert a k l fuel Hgn Hal Ha.
  induction n as [|n IH]; intros a k l [|fuel] Hgn Hal Ha Hn Hf Hlast; try lia.
  all: destruct (Z.ltb_spec a newsz) as [Hlt|Hge]; [try lia|].
  1, 3: exists newsz, k, l; split; [cbn [uvmalloc_loop]; by rewrite (proj2 (Z.ltb_ge a newsz))|]; left; split; [done|].
  1, 2: destruct Hlast as [Hlast| ->]; [by apply (grown_end a); [|lia|]|].
  1, 2: destruct Hgn as [G1 G2 G3 G4]; split; [done..| |intros; lia];
    intros r' va Hr' Hv1 Hv2 _; apply G3; [done..|lia].
  rewrite uvmalloc_step by (by apply Z.ltb_lt).
  assert (uva a) as Hu by (split; [done|lia]). pose proof Hgn as [G1 G2 G3 _].
  assert (pte_valid (pte (mem k) r a) = false) as Hvd.
  { rewrite G3; [apply Hinv; [done|lia]|done|done|by apply uva_max|intros [_ ?]; lia]. }
  destruct (alloc_map_spec R r a (λ pg, memset pg 0 PGSIZE) perm k l Hr Hu G1 Hvd perm_range)
    as (x & k1 & l1 & E & Hk1 & Hg1 & Hcnt & Hx1); [intros; by apply memset_page|].
  rewrite (bind_Ret _ _ _ _ _ E). destruct Hx1 as [(-> & Hfew & Hsame)|(Hpg & Hin & Hne & Hset & Hfill)].
  - cbn [Z.eqb]. assert (grown a k1 l1) as Hgn1.
    { split; [done|by eapply grows_trans| |].
      - intros r' va Hr' Hv1 Hv2 Hnr. rewrite Hsame by done. by apply G3.
      - intros va Hua Hv. destruct (gn_new _ _ _ Hgn va Hua Hv) as (q & Hq & Hq0 & Eq & Hqz).
        exists q. split; [done|]. split; [done|]. rewrite Hsame by (done || apply Hua || by apply uva_max). split; [done|].
        intros b Hb. rewrite (frame_kept R k l k1 l1 r va q); [by apply Hqz|done|done|done|done| |done].
        unfold page_of. by rewrite Eq, mk_pte_valid, mk_pte_page by (done || apply perm_range). }
    destruct (uvmalloc_undo a k1 l1 Hal ltac:(lia) Hgn1) as (k' & l' & E' & Hr'); [intros; apply Hinv; [done|lia]|].
    exists 0, k', l'. split; [exact E'|]. right. split; [done|]. split; [lia|done].
  - rewrite (proj2 (Z.eqb_neq x 0)) by done.
    assert (u64 (a + PGSIZE) = a + PGSIZE) as ->.
    { apply u64_small. change TRAPFRAME with (2 ^ 38 - 8192) in Hmax. unfold PGSIZE. lia. }
    destruct (IH (a + PGSIZE) k1 l1 fuel) as (y & k' & l' & E' & Hy);
      [|unfold PGSIZE in *; zlia|unfold PGSIZE; lia|lia|lia|lia|].
    2:{ exists y, k', l'. split; [exact E'|]. destruct Hy as [?|(? & ? & ?)]; [by left|]. right. split; [done|]. split; [lia|done]. }
    apply (grown_step a x k l); try done; [lia|lia|]. intros b Hb. rewrite Hfill by done. by apply memset_zero.
Qed.
End uvmalloc.

(** C12. [uvmalloc] of pages that are not mapped yet returns the new size with
    every page from the old size up mapped to a zeroed page of its own, with
    the permissions asked for, or returns 0 with all address spaces as they
    were; three free pages for each new page are enough for it to succeed. *)
Theorem uvmalloc_grows r oldsz newsz xperm k l :
  r ∈ R -> vm_ok R k l -> 0 <= xperm < 2 ^ 10 -> 0 <= oldsz <= newsz -> newsz <= TRAPFRAME ->
  (∀ va, uva va -> PGROUNDUP oldsz <= va < newsz -> pte_valid (pte (mem k) r va) = false) ->
  ∃ x k' l', uvmalloc r oldsz newsz xperm k = Ret x k' ∧ vm_ok R k' l' ∧ grows R k l k' l' ∧
    ((x = newsz ∧ ∀ r' va, r' ∈ R -> uva va ->
       upage (mem k') r' va =
         if decide (r' = r ∧ PGROUNDUP oldsz <= va < newsz)
         then Some (Z.lor (Z.lor (Z.lor PTE_R PTE_U) xperm) PTE_V, replicate (Z.to_nat PGSIZE) 0)
         else upage (mem k) r' va) ∨
     (x = 0 ∧ Z.of_nat (length l) < 3 * ((PGROUNDUP newsz - PGROUNDUP oldsz) / PGSIZE) ∧
      ∀ r' va, r' ∈ R -> uva va -> upage (mem k') r' va = upage (mem k) r' va)).
Proof.
  intros Hr Hk Hx Hsz Hmax Hinv. assert (newsz < 2 ^ 38) as Hm by (change TRAPFRAME with (2 ^ 38 - 8192) in Hmax; lia).
  destruct (PGROUNDUP_bounds oldsz ltac:(unfold PGSIZE; lia)) as [Hb Hal].
  destruct (PGROUNDUP_bounds newsz ltac:(unfold PGSIZE; lia)) as [Hb' Hal'].
  unfold uvmalloc. rewrite (proj2 (Z.ltb_ge newsz oldsz)) by lia.
  assert (PGROUNDUP oldsz <= PGROUNDUP newsz) as Hle by (unfold PGSIZE in *; zlia). set (a0 := PGROUNDUP oldsz) in *.
  destruct (uvmalloc_loop_spec r xperm a0 Hr Hx ltac:(split; [done|lia]) k l Hk newsz (Z.to_nat ((PGROUNDUP newsz - a0) / PGSIZE)) a0 k l
    (S (Z.to_nat ((newsz - a0) / PGSIZE + 1)))) as (x & k' & l' & E & Hc);
    [by apply grown_start|done|lia|done|done|unfold PGSIZE in *; zlia|unfold PGSIZE in *; zlia|by right|].
  exists x, k', l'. split; [exact E|]. destruct Hc as [[-> [G1 G2 G3 G4]]|(-> & Hfew & H1 & H2 & Heq)].
  - split; [done|]. split; [done|]. left. split; [done|]. intros r' va Hr' Hu. case_decide as Hd.
    + destruct Hd as [-> Hv]. destruct (G4 va Hu Hv) as (pg & Hpg & _ & Epg & Hz).
      unfold upage. rewrite Epg, mk_pte_valid, mk_pte_page, mk_pte_flags by (done || by apply perm_range).
      apply (f_equal Some), (f_equal (pair _)). apply bytes_zero. intros b Hbb. apply Hz. by rewrite Z2Nat.id in Hbb.
    + apply (upage_kept k l k' l'); try done. apply G3; [done|apply Hu|by apply uva_max|done].
  - split; [done|]. split; [done|]. right. split; [done|]. split; [lia|]. intros r' va Hr' Hu.
    destruct (Heq r' va Hr' Hu) as [E'|[E1 E2]]; [by apply (upage_kept k l k' l')|].
    unfold upage. by rewrite E1, E2.
Qed.

(** ** [uvmcopy] *)

Lemma PTE_FLAGS_range e : 0 <= PTE_FLAGS e < 2 ^ 10.
Proof. unfold PTE_FLAGS. change 0x3FF with (Z.ones 10). rewrite Z.land_ones by lia. by apply Z.mod_pos_bound. Qed.

Lemma flags_valid e : pte_valid e = true -> Z.lor (PTE_FLAGS e) PTE_V = PTE_FLAGS e.
Proof.
  rewrite pte_valid_bit. intros Hv. apply Z.bits_inj'. intros n Hn. rewrite Z.lor_spec.
  change PTE_V with (2 ^ 0). rewrite Z.pow2_bits_eqb by lia. destruct (Z.eqb_spec 0 n) as [<-|]; [|apply orb_false_r].
  unfold PTE_FLAGS. rewrite Z.land_spec, Hv. reflexivity.
Qed.

Lemma kalloc_state_mem pg k b : ¬ (pg <= b < pg + PGSIZE) -> ld8 (mem (kalloc_state pg k)) b = ld8 (mem k) b.
Proof. intros Hb. apply (memset_page (mem k) pg 5 b Hb). Qed.

Lemma memmove_page pg src m b : ¬ (pg <= b < pg + PGSIZE) -> ld8 (memmove pg src PGSIZE m) b = ld8 m b.
Proof. intros. by rewrite memmove_bytes, decide_False by (unfold PGSIZE in *; lia). Qed.

Section uvmcopy.
Context (old new : Z) (Ho : old ∈ R) (Hn : new ∈ R).

Lemma uvmcopy_step fuel i sz k l : vm_ok R k l -> uva i -> (i <? sz) = true ->
  uvmcopy_loop (S fuel) old new i sz k =
  (if pte_valid (pte (mem k) old i) then
     pg ← alloc_map new i (λ pg, memmove pg (PTE2PA (pte (mem k) old i)) PGSIZE) (PTE_FLAGS (pte (mem k) old i));
     if pg =? 0 then uvmcopy_err new i else uvmcopy_loop fuel old new (i + PGSIZE) sz
   else uvmcopy_loop fuel old new (i + PGSIZE) sz) k.
Proof.
  intros Hk Hu E. cbn [uvmcopy_loop]. rewrite E. rewrite (bind_Ret _ _ _ _ _ (walk_false old i k (uva_max i Hu))).
  unfold pte. destruct (leaf (mem k) old i) as [a|] eqn:Ha; cbn [default from_option id]; [|done].
  rewrite (proj2 (Z.eqb_neq a 0)) by exact (leaf_nonzero R old i a k l Hk Ho Ha). unfold load64. rewrite bind_gets. unfold pte_valid.
  destruct (Z.land (ld64 (mem k) a) PTE_V =? 0); cbn [negb]; [done|].
  unfold alloc_map, do_memmove. rewrite bind_bind. apply bind_ext.
  intros pg k1 _. destruct (Z.eqb_spec pg 0) as [->|Hne]; [done|]. rewrite bind_bind. apply bind_ext.
  intros [] k2 _. rewrite bind_bind. apply bind_ext. intros x k3 _. destruct (x =? 0); cbn [negb].
  - rewrite bind_ret. by rewrite (proj2 (Z.eqb_neq pg 0)).
  - rewrite bind_bind. by apply bind_ext.
Qed.

Context (Hne : old ≠ new) (sz : Z) (Hsz : sz <= TRAPFRAME) (k0 : kernel) (l0 : list Z) (Hk0 : vm_ok R k0 l0).
Context (Hempty : ∀ va, uva va -> va < sz -> pte_valid (pte (mem k0) new va) = false).

(** The pages below [hi] are copied. *)
Record copied (hi : Z) (k : kernel) (l : list Z) : Prop := {
  cp_ok : vm_ok R k l;
  cp_grows : grows R k0 l0 k l;
  cp_other r va : r ∈ R -> uva va -> ¬ (r = new ∧ va < hi ∧ pte_valid (pte (mem k0) old va) = true) ->
    pte (mem k) r va = pte (mem k0) r va;
  cp_new va : uva va -> va < hi -> pte_valid (pte (mem k0) old va) = true -> ∃ pg, page_ok pg ∧ pg ∈ l0 ∧
    pte (mem k) new va = mk_pte pg (PTE_FLAGS (pte (mem k0) old va)) ∧
    ∀ i, 0 <= i < PGSIZE -> ld8 (mem k) (pg + i) = ld8 (mem k0) (PTE2PA (pte (mem k0) old va) + i);
}.

Lemma copied_frame hi k l va : copied hi k l -> uva va -> va < hi -> pte_valid (pte (mem k0) old va) = true ->
  ∃ pg, pg ∈ l0 ∧ page_of (mem k) (UFrame new va) = Some pg.
Proof.
  intros Hc Hu Hv Hvd. destruct (cp_new _ _ _ Hc va Hu Hv Hvd) as (pg & Hpg & Hin & E & _). exists pg. split; [done|].
  unfold page_of. by rewrite E, mk_pte_valid, mk_pte_page by (done || apply PTE_FLAGS_range).
Qed.

(** A step that leaves the entries below [hi] alone. *)
Lemma copied_mono hi k l k' l' : copied hi k l -> vm_ok R k' l' -> grows R k l k' l' -> 
  (∀ r va, r ∈ R -> uva va -> (r = new -> va < hi) -> pte (mem k') r va = pte (mem k) r va) ->
  ∀ va, uva va -> va < hi -> pte_valid (pte (mem k0) old va) = true -> ∃ pg, page_ok pg ∧ pg ∈ l0 ∧
    pte (mem k') new va = mk_pte pg (PTE_FLAGS (pte (mem k0) old va)) ∧
    ∀ i, 0 <= i < PGSIZE -> ld8 (mem k') (pg + i) = ld8 (mem k0) (PTE2PA (pte (mem k0) old va) + i).
Proof.
  intros Hc Hk' Hg Hs va Hu Hv Hvd. destruct (cp_new _ _ _ Hc va Hu Hv Hvd) as (pg & Hpg & Hin & E & Hd).
  exists pg. split; [done|]. split; [done|]. rewrite Hs by (done || auto). split; [done|].
  intros i Hi. rewrite <- Hd by done.
  assert (page_of (mem k) (UFrame new va) = Some pg) as Epo.
  { unfold page_of. by rewrite E, mk_pte_valid, mk_pte_page by (done || apply PTE_FLAGS_range). }
  apply (frame_kept R k l k' l' new va pg (cp_ok _ _ _ Hc) Hg Hn Hu Epo). lia.
Qed.

Lemma copied_step i pg k l k' l' : copied i k l -> uva i -> pte_valid (pte (mem k0) old i) = true ->
  vm_ok R k' l' -> grows R k l k' l' -> page_ok pg -> pg ∈ l ->
  ptes_set R k new i (mk_pte pg (PTE_FLAGS (pte (mem k0) old i))) k' ->
  (∀ b, pg <= b < pg + PGSIZE ->
    ld8 (mem k') b = ld8 (memmove pg (PTE2PA (pte (mem k0) old i)) PGSIZE (mem (kalloc_state pg k))) b) ->
  copied (i + PGSIZE) k' l'.
Proof.
  intros Hc Hui Hvd Hk' Hg Hpg Hin Hset Hfill. pose proof Hc as [C1 C2 C3 C4].
  assert (∀ r va, r ∈ R -> uva va -> ¬ (r = new ∧ va = i) -> pte (mem k') r va = pte (mem k) r va) as Hsame.
  { intros r va Hr Hu Hx. rewrite Hset; [by rewrite decide_False|done|apply Hu|by apply uva_max]. }
  split; [done|by eapply grows_trans| |].
  - intros r va Hr Hu Hx. rewrite Hsame; [apply C3; [done..|]|done|done|].
    + intros (-> & ? & ?). apply Hx. split; [done|]. split; [unfold PGSIZE; lia|done].
    + intros [-> ->]. apply Hx. split; [done|]. split; [unfold PGSIZE; lia|done].
  - intros va Hu Hv Hvd'. destruct (decide (va = i)) as [->|Hvi].
    + exists pg. split; [done|]. split; [by apply (gr_sub _ _ _ _ _ C2)|]. split.
      * rewrite Hset; [by rewrite decide_True|done|apply Hu|by apply uva_max].
      * intros j Hj. rewrite Hfill by lia. rewrite memmove_bytes, decide_True by (unfold PGSIZE in *; lia).
        set (src := PTE2PA (pte (mem k0) old i)). replace (src + (pg + j - pg)) with (src + j) by lia.
        assert (page_of (mem k0) (UFrame old i) = Some src) as Epo by (unfold page_of; by rewrite Hvd).
        destruct (vm_page R _ _ (vo_inv _ _ _ Hk0) (UFrame old i) src (conj Ho Hui) Epo) as [Hsok Hsn].
        assert (src ≠ pg) as Hsp by (intros Es; apply Hsn; rewrite Es; by apply (gr_sub _ _ _ _ _ C2)).
        pose proof (page_disjoint src pg (proj1 Hsok) (proj1 Hpg) Hsp) as Hdj. rewrite kalloc_state_mem by lia.
        apply (frame_kept R k0 l0 k l old i src Hk0 C2 Ho Hui Epo). lia.
    + apply (copied_mono i k l k' l'); try done; [|destruct Hu, Hui; unfold PGSIZE in *; zlia].
      intros r va' Hr Hu' Hlt. apply Hsame; [done..|]. intros [-> ->]. specialize (Hlt eq_refl). lia.
Qed.

Lemma copied_skip i k l : copied i k l -> uva i -> pte_valid (pte (mem k0) old i) = false -> copied (i + PGSIZE) k l.
Proof.
  intros [C1 C2 C3 C4] Hui Hvd. assert (∀ va, uva va -> va < i + PGSIZE -> va ≠ i -> va < i) as Hlt.
  { intros va [Hva _] H1 H2. destruct Hui as [Hi _]. unfold PGSIZE in *. zlia. }
  split; [done..| |].
  - intros r va Hr Hu Hx. apply C3; [done..|]. intros (-> & Hv & Hvd'). apply Hx. split; [done|]. split; [unfold PGSIZE; lia|done].
  - intros va Hu Hv Hvd'. apply C4; [done| |done]. apply Hlt; [done..|]. intros ->. by rewrite Hvd in Hvd'.
Qed.

Lemma uvmcopy_undo i k l : copied i k l -> uva i -> i < sz ->
  ∃ k' l', uvmcopy_err new i k = Ret (-1) k' ∧ vm_ok R k' l' ∧ grows R k0 l0 k' l' ∧ ptes_equiv k0 k'.
Proof.
  intros Hc Hui His. pose proof Hc as [C1 C2 C3 C4]. unfold uvmcopy_err.
  assert (0 + i / PGSIZE * PGSIZE = i) as Ei by (destruct Hui; unfold PGSIZE in *; zlia).
  destruct (uvmunmap_spec R new 0 (i / PGSIZE) k l Hn C1) as (k' & l' & E & Hk' & Hs & Hp & Hl);
    [done|lia|destruct Hui; unfold PGSIZE; zlia|rewrite Ei; destruct Hui; lia|].
  unfold in_pages in Hp, Hl. rewrite Ei in Hp, Hl.
  rewrite (bind_Ret _ _ _ _ _ E). exists k', l'. split; [done|]. split; [done|]. split.
  - apply (grows_shrinks R k0 l0 k l); [done..|]. intros p Hin.
    destruct (Hl p Hin) as [?|(va & Hu & Hv & Epo)]; [by apply (gr_sub _ _ _ _ _ C2)|].
    destruct (pte_valid (pte (mem k0) old va)) eqn:Hvd.
    + destruct (copied_frame i k l va Hc Hu ltac:(lia) Hvd) as (pg & Hpg & Epg). rewrite Epg in Epo. by injection Epo as <-.
    + unfold page_of in Epo. rewrite (C3 new va Hn Hu) in Epo by (intros (_ & _ & ?); congruence).
      by rewrite (Hempty va Hu ltac:(lia)) in Epo.
  - intros r va Hr Hu. destruct (Hp r va Hr (proj1 Hu) (uva_max va Hu)) as [Hcl Hsame].
    destruct (decide (r = new ∧ va < i)) as [[-> Hv]|Hx].
    + right. destruct Hu as [? [? ?]]. split; [apply Hcl; [done|lia]|apply Hempty; [done|lia]].
    + left. rewrite Hsame; [apply C3; [done..|]|]; [intros (-> & Hv & _)|intros [-> Hv]]; apply Hx; split; (done || lia).
Qed.

Lemma uvmcopy_loop_spec n i k l fuel : copied i k l -> i mod PGSIZE = 0 -> 0 <= i ->
  sz <= i + Z.of_nat n * PGSIZE -> (n < fuel)%nat ->
  ∃ x k' l', uvmcopy_loop fuel old new i sz k = Ret x k' ∧
    ((x = 0 ∧ ∃ hi, sz <= hi ∧ copied hi k' l' ∧ hi mod PGSIZE = 0 ∧ (hi - PGSIZE < sz ∨ hi = i)) ∨
     (x = -1 ∧ (length l < 3 * n)%nat ∧ vm_ok R k' l' ∧ grows R k0 l0 k' l' ∧ ptes_equiv k0 k')).
Proof.
  revert i k l fuel. induction n as [|n IH]; intros i k l [|fuel] Hc Hal Hi Hend Hf; try lia.
  all: destruct (Z.ltb_spec i sz) as [Hlt|Hge]; [try lia|].
  1, 3: exists 0, k, l; split; [cbn [uvmcopy_loop]; by rewrite (proj2 (Z.ltb_ge i sz))|]; left; split; [done|];
    exists i; split; [done|]; split; [done|]; split; [done|by right].
  assert (uva i) as Hui by (split; [done|lia]). pose proof Hc as [C1 C2 C3 C4].
  assert (pte (mem k) old i = pte (mem k0) old i) as Eo by (apply C3; [done..|]; intros [? _]; by apply Hne).
  rewrite (uvmcopy_step fuel i sz k l C1 Hui) by (by apply Z.ltb_lt). rewrite Eo.
  assert (∀ k1 l1, copied (i + PGSIZE) k1 l1 -> (length l <= length l1 + 3)%nat -> ∃ x k' l', uvmcopy_loop fuel old new (i + PGSIZE) sz k1 = Ret x k' ∧
    ((x = 0 ∧ ∃ hi, sz <= hi ∧ copied hi k' l' ∧ hi mod PGSIZE = 0 ∧ (hi - PGSIZE < sz ∨ hi = i)) ∨
     (x = -1 ∧ (length l < 3 * S n)%nat ∧ vm_ok R k' l' ∧ grows R k0 l0 k' l' ∧ ptes_equiv k0 k'))) as Hnext.
  { intros k1 l1 Hc1 Hcnt. destruct (IH (i + PGSIZE) k1 l1 fuel Hc1) as (x & k' & l' & E & Hx);
      [unfold PGSIZE in *; zlia|unfold PGSIZE; lia|lia|lia|].
    exists x, k', l'. split; [done|]. destruct Hx as [(-> & hi & H1 & H2 & H3 & H4)|(-> & Hfew & ?)];
      [|right; split; [done|]; split; [lia|done]].
    left. split; [done|]. exists hi. split; [done|]. split; [done|]. split; [done|]. left. unfold PGSIZE in *. lia. }
  destruct (pte_valid (pte (mem k0) old i)) eqn:Hvd; [|by apply (Hnext k l); [apply copied_skip|lia]].
  assert (pte_valid (pte (mem k) new i) = false) as Hvn.
  { rewrite C3; [apply Hempty; [done|lia]|done|done|]. intros (_ & ? & _). lia. }
  destruct (alloc_map_spec R new i (λ pg, memmove pg (PTE2PA (pte (mem k0) old i)) PGSIZE) (PTE_FLAGS (pte (mem k0) old i))
    k l Hn Hui C1 Hvn (PTE_FLAGS_range _)) as (x & k1 & l1 & E & Hk1 & Hg1 & Hcnt & Hx1); [intros; by apply memmove_page|].
  rewrite (bind_Ret _ _ _ _ _ E). destruct Hx1 as [(-> & Hfew & Hsame)|(Hpg & Hin & Hnz & Hset & Hfill)].
  - cbn [Z.eqb]. assert (copied i k1 l1) as Hc1.
    { split; [done|by eapply grows_trans| |].
      - intros r va Hr Hu Hx. rewrite Hsame; [by apply C3|done|apply Hu|by apply uva_max].
      - apply (copied_mono i k l k1 l1); try done. intros r va Hr Hu _. apply Hsame; [done|apply Hu|by apply uva_max]. }
    destruct (uvmcopy_undo i k1 l1 Hc1 Hui Hlt) as (k' & l' & E' & Hrest). exists (-1), k', l'.
    split; [exact E'|]. right. split; [done|]. split; [lia|done].
  - rewrite (proj2 (Z.eqb_neq x 0)) by done. apply (Hnext k1 l1); [|done]. by apply (copied_step i x k l k1 l1).
Qed.
End uvmcopy.

(** C11. [fork] copies memory faithfully and without sharing: [uvmcopy] either
    returns 0 and the child has, below [sz], the parent's mapped pages with the
    same contents and permissions and no others, or returns -1 and all address
    spaces are as they were.  The parent's pages are untouched, and since no
    page has two uses in [vm_ok], none is shared with the child.  Three free
    pages for each page of the parent are enough for it to succeed. *)
Theorem uvmcopy_forks old new sz k l :
  old ∈ R -> new ∈ R -> old ≠ new -> 0 <= sz <= TRAPFRAME -> vm_ok R k l ->
  (∀ va, uva va -> va < sz -> pte_valid (pte (mem k) new va) = false) ->
  ∃ x k' l', uvmcopy old new sz k = Ret x k' ∧ vm_ok R k' l' ∧ grows R k l k' l' ∧
    (∀ r va, r ∈ R -> r ≠ new -> uva va -> upage (mem k') r va = upage (mem k) r va) ∧
    ((x = 0 ∧ ∀ va, uva va ->
       upage (mem k') new va = if decide (va < sz) then upage (mem k) old va else upage (mem k) new va) ∨
     (x = -1 ∧ Z.of_nat (length l) < 3 * (PGROUNDUP sz / PGSIZE) ∧
      ∀ va, uva va -> upage (mem k') new va = upage (mem k) new va)).
Proof.
  intros Ho Hn Hne Hsz Hk Hempty. unfold uvmcopy.
  destruct (PGROUNDUP_bounds sz) as [Hb Hal]; [change TRAPFRAME with (2 ^ 38 - 8192) in Hsz; unfold PGSIZE; lia|].
  destruct (uvmcopy_loop_spec old new Ho Hn Hne sz ltac:(lia) k l Hk Hempty (Z.to_nat (PGROUNDUP sz / PGSIZE)) 0 k l
    (S (Z.to_nat (sz / PGSIZE + 1)))) as (x & k' & l' & E & Hx);
    [split; [done|apply grows_refl|done|intros va [_ ?] ?; lia]|done|lia|unfold PGSIZE in *; zlia|unfold PGSIZE in *; zlia|].
  exists x, k', l'. split; [exact E|].
  destruct Hx as [(-> & hi & Hhi & [C1 C2 C3 C4] & Hhal & Hlast)|(-> & Hfew & H1 & H2 & Heq)].
  - split; [done|]. split; [done|]. split.
    { intros r va Hr Hrn Hu. apply (upage_kept k l k' l'); try done. apply C3; [done..|]. by intros [? _]. }
    left. split; [done|]. intros va Hu.
    assert (va < hi -> va < sz) as Hlt by (destruct Hu, Hlast; unfold PGSIZE in *; zlia). case_decide as Hd.
    + destruct (pte_valid (pte (mem k) old va)) eqn:Hvd.
      * destruct (C4 va Hu ltac:(lia) Hvd) as (pg & Hpg & _ & Epg & Hdata). unfold upage.
        rewrite Epg, mk_pte_valid, mk_pte_page, mk_pte_flags, Hvd, flags_valid by (done || apply PTE_FLAGS_range).
        apply (f_equal Some), (f_equal (pair _)). apply bytes_shift. intros j Hj. apply Hdata. by rewrite Z2Nat.id in Hj.
      * unfold upage. rewrite C3, Hempty, Hvd; [done|done|done|done|done|]. intros (_ & _ & ?). congruence.
    + apply (upage_kept k l k' l'); try done. apply C3; [done..|]. intros (_ & ? & _). lia.
  - split; [done|]. split; [done|].
    assert (∀ r va, r ∈ R -> uva va -> upage (mem k') r va = upage (mem k) r va) as Hall.
    { intros r va Hr Hu. destruct (Heq r va Hr Hu) as [E'|[E1 E2]]; [by apply (upage_kept k l k' l')|].
      unfold upage. by rewrite E1, E2. }
    split; [intros; by apply Hall|]. right. split; [done|]. split; [unfold PGSIZE in *; zlia|]. intros va Hu. by apply Hall.
Qed.
End user.

(** ** An example *)

(** Two empty page tables and six free pages. *)
Definition demo_page (i : Z) : Z := PHYSTOP - (i + 1) * PGSIZE.
Definition demo_roots : list Z := [demo_page 0; demo_page 1].
Definition demo_free : list Z := [demo_page 2; demo_page 3; demo_page 4; demo_page 5; demo_page 6; demo_page 7].
Fixpoint link (l : list Z) : memory :=
  match l with
  | [] => ∅
  | p :: l' => st64 (link l') p (default 0 (head l'))
  end.
Definition demo_vm : kernel := demo_kernel <| mem := link demo_free |> <| freelist := demo_page 2 |>.

Lemma link_other l b : (∀ p, p ∈ l -> ¬ (p <= b < p + PGSIZE)) -> ld8 (link l) b = 0.
Proof.
  induction l as [|p l IH]; intros H; [done|]. cbn [link]. rewrite ld8_st64_ne.
  - apply IH. intros q Hq. apply H. by right.
  - specialize (H p (list_elem_of_here _ _)). unfold PGSIZE in H. lia.
Qed.

Lemma demo_page_ok i : 0 <= i < 16 -> page_ok (demo_page i).
Proof.
  intros Hi. unfold page_ok, demo_page. cbn [l_end demo_linker]. change PHYSTOP with (557056 * PGSIZE). split.
  - rewrite <- Z.mul_sub_distr_r. by apply Z.mod_mul.
  - unfold PGSIZE. lia.
Qed.

(** Empty tables have no entries. *)
Lemma empty_roots {L : Linker} R m l :
  Forall (λ r, page_ok r ∧ (r ∉ l) ∧ ∀ b, r <= b < r + PGSIZE -> ld8 m b = 0) R -> vm_inv R m l ∧ ∀ r va, r ∈ R -> pte m r va = 0.
Proof.
  intros H. rewrite Forall_forall in H.
  assert (∀ r i q, r ∈ R -> 0 <= i < 512 -> node m r (i :: q) = None) as Hn.
  { intros r i q Hr Hi. cbn [node]. destruct (H r Hr) as (_ & _ & Hz). rewrite ld64_0; [done|].
    intros b Hb. apply Hz. unfold PGSIZE. lia. }
  assert (∀ r va, r ∈ R -> pte m r va = 0) as Hp.
  { intros r va Hr. unfold pte, leaf, vpath. rewrite Hn; [done|done|apply PX_range; lia]. }
  assert (∀ u p, use_ok R u -> page_of m u = Some p -> ∃ r, r ∈ R ∧ u = UNode r [] ∧ p = r) as Hu.
  { intros [r [|i q]|r va] p [Hr Hq] E; unfold page_of in E; [exists r; cbn in E; by injection E as <-| |].
    - rewrite Hn in E; [done|done|]. destruct Hq as [_ Hq]. by apply Forall_cons in Hq as [? _].
    - rewrite Hp in E by done. discriminate E. }
  split; [split|exact Hp].
  - intros u p Ho E. destruct (Hu u p Ho E) as (r & Hr & _ & ->). destruct (H r Hr) as (? & ? & _). done.
  - intros u u' p Ho Ho' E E'. destruct (Hu u p Ho E) as (r & Hr & -> & ->), (Hu u' r Ho' E') as (r' & _ & -> & ->). done.
Qed.

Lemma link_chain l : Forall page_ok l -> NoDup l -> chain (link l) (default 0 (head l)) l.
Proof.
  induction l as [|p l IH]; intros Hp Hn; [done|]. apply Forall_cons in Hp as [Hp Hl]. apply NoDup_cons in Hn as [Hni Hn].
  cbn [chain link head default from_option id]. split; [done|].
  rewrite ld64_st64.
  2:{ destruct l as [|q l]; cbn; [lia|]. apply Forall_cons in Hl as [Hq _]. apply page_ok_range in Hq. lia. }
  apply (chain_ext (link l)); [|by apply IH]. intros q Hq. apply ld64_st64_ne. rewrite Forall_forall in Hl.
  destruct (Hl q Hq) as [Hqa _], Hp as [Hpa _]. assert (q ≠ p) as Hne by (intros ->; done).
  pose proof (page_disjoint q p Hqa Hpa Hne). unfold PGSIZE in *. lia.
Qed.

Lemma demo_page_lt i j : i < j -> demo_page j + PGSIZE <= demo_page i.
Proof. unfold demo_page, PGSIZE. lia. Qed.

Lemma demo_vm_ok : vm_ok demo_roots demo_vm demo_free ∧ ∀ r va, r ∈ demo_roots -> pte (mem demo_vm) r va = 0.
Proof.
  assert (Forall page_ok demo_free) as Hf by (repeat constructor; by apply demo_page_ok).
  assert (∀ p, p ∈ demo_free -> p + PGSIZE <= demo_page 1) as Hlt.
  { apply Forall_forall. repeat constructor; by apply demo_page_lt. }
  destruct (empty_roots demo_roots (link demo_free) demo_free) as [Hi Hp].
  { assert (∀ r, demo_page 1 <= r -> (r ∉ demo_free) ∧ ∀ b, r <= b -> ld8 (link demo_free) b = 0) as Hr.
    { intros r Hr. split; [intros Hin; specialize (Hlt _ Hin); unfold PGSIZE in Hlt; lia|].
      intros b Hb. apply link_other. intros q Hq. specialize (Hlt q Hq). lia. }
    repeat constructor; try (by apply demo_page_ok); apply Hr || (intros b [Hb _]; revert b Hb; apply Hr); done. }
  split; [|exact Hp]. split; [|split; [destruct init_hart_ok; by split|reflexivity]|exact Hi].
  split; [|exact Hf|apply (bool_decide_unpack _); vm_compute; exact I].
  apply (link_chain demo_free Hf). apply (bool_decide_unpack _); vm_compute; exact I.
Qed.

Lemma uva_0 : uva 0.
Proof. split; done. Qed.

Lemma uvmalloc_grows_witness : ∃ k',
  uvmalloc (demo_page 0) 0 PGSIZE PTE_W demo_vm = Ret PGSIZE k' ∧
  upage (mem k') (demo_page 0) 0 = Some (23, replicate (Z.to_nat PGSIZE) 0) ∧
  upage (mem k') (demo_page 1) 0 = None.
Proof.
  destruct demo_vm_ok as [Hk Hp].
  assert (demo_page 0 ∈ demo_roots ∧ demo_page 1 ∈ demo_roots) as [H0 H1] by (split; [left|right; left]).
  destruct (uvmalloc_grows demo_roots (demo_page 0) 0 PGSIZE PTE_W demo_vm demo_free H0 Hk) as (x & k' & l' & E & _ & _ & Hx);
    [done..|by intros va _ _; rewrite Hp|].
  destruct Hx as [[-> Hx]|(_ & Hfew & _)]; [|exfalso; revert Hfew; apply Zle_not_lt; by vm_compute].
  exists k'. split; [exact E|].
  rewrite (Hx (demo_page 0) 0 H0 uva_0), (Hx (demo_page 1) 0 H1 uva_0). split.
  - rewrite decide_True by (split; [reflexivity|split; [by vm_compute|reflexivity]]).
    apply (f_equal Some), (f_equal (λ x, (x, replicate (Z.to_nat PGSIZE) 0))). reflexivity.
  - rewrite decide_False by (intros [Hd _]; discriminate Hd). unfold upage. rewrite (Hp _ _ H1). reflexivity.
Defined.

Lemma uvmcopy_forks_witness : ∃ k',
  uvmcopy (demo_page 0) (demo_page 1) PGSIZE demo_vm = Ret 0 k' ∧ upage (mem k') (demo_page 1) 0 = None.
Proof.
  destruct demo_vm_ok as [Hk Hp].
  assert (demo_page 0 ∈ demo_roots ∧ demo_page 1 ∈ demo_roots) as [H0 H1] by (split; [left|right; left]).
  destruct (uvmcopy_forks demo_roots (demo_page 0) (demo_page 1) PGSIZE demo_vm demo_free H0 H1) as (x & k' & l' & E & _ & _ & _ & Hx);
    [done|done|done|by intros va _ _; rewrite Hp|].
  destruct Hx as [[-> Hx]|(_ & Hfew & _)]; [|exfalso; revert Hfew; apply Zle_not_lt; by vm_compute].
  exists k'. split; [exact E|]. rewrite (Hx 0 uva_0), decide_True by reflexivity. unfold upage. rewrite (Hp _ _ H0). reflexivity.
Defined.
