(* ===== verification/VmCopy.v ===== *)
(** * Copying between the kernel and user memory

    [umem m r a] is the byte behind address [a] in the page table [r].  It is a
    way to talk about the contents of an address space, not about what the
    process may access: a page without an entry counts as zeros, which is what
    [vmfault] makes of it where it lies below the process' size, and the
    permission bits of the entry are not looked at; the theorems ask for them
    where the code does.  [copyout] and [copyin] are proved to be writes and
    reads of this memory that touch nothing else. *)
From S2P Require Import Prelude Layout KState Spinlock CString Kalloc Vm PageTable VmSpec VmUser.

#[local] Opaque memset memmove st64 ld64.

Definition umem (m : memory) (r a : Z) : Z :=
  let va := PGROUNDDOWN a in
  let e := pte m r va in
  if pte_valid e then ld8 m (PTE2PA e + (a - va)) else 0.

Definition pte_bit (e b : Z) : bool := negb (Z.land e b =? 0).

Lemma pte_bit_flags e b : Z.land 0x3FF b = b -> pte_bit e b = pte_bit (PTE_FLAGS e) b.
Proof. intros Hb. unfold pte_bit, PTE_FLAGS. by rewrite <- Z.land_assoc, Hb. Qed.

Lemma PGROUNDDOWN_page a : 0 <= a -> PGROUNDDOWN a mod PGSIZE = 0 ∧ PGROUNDDOWN a <= a < PGROUNDDOWN a + PGSIZE ∧ 0 <= PGROUNDDOWN a.
Proof. intros Ha. rewrite PGROUNDDOWN_eq. unfold PGSIZE. zlia. Qed.
Lemma PGROUNDDOWN_aligned a : a mod PGSIZE = 0 -> PGROUNDDOWN a = a.
Proof. intros Ha. rewrite PGROUNDDOWN_eq. lia. Qed.
Lemma PGROUNDDOWN_unique va a : va mod PGSIZE = 0 -> va <= a < va + PGSIZE -> PGROUNDDOWN a = va.
Proof. rewrite PGROUNDDOWN_eq. unfold PGSIZE. zlia. Qed.

Lemma uaddr_uva a : 0 <= a < TRAPFRAME -> uva (PGROUNDDOWN a).
Proof.
  intros Ha. destruct (PGROUNDDOWN_page a ltac:(lia)) as (H1 & H2 & H3). split; [done|lia].
Qed.

Section copy.
Context {L : Linker} {LO : LinkerOk L} (R : list Z) (p : nat) (r : Z) (Hr : r ∈ R).

(** Process [p] runs, with page table [r]; the trampoline and the trap frame
    are not the user's. *)
Record proc_vm (k : kernel) : Prop := {
  pv_cur : c_proc (my_cpu (mach k)) = Some p;
  pv_pt : p_pagetable (procs k !!! p) = r;
  pv_sz : 0 <= p_sz (procs k !!! p) <= TRAPFRAME;
  pv_top va : va mod PGSIZE = 0 -> TRAPFRAME <= va < MAXVA -> pte_bit (pte (mem k) r va) PTE_U = false;
}.

Lemma proc_vm_rest k l k' : vm_ok R k l -> vm_rest k k' ->
  (∀ va, va mod PGSIZE = 0 -> TRAPFRAME <= va < MAXVA -> pte (mem k') r va = pte (mem k) r va) -> proc_vm k -> proc_vm k'.
Proof.
  intros [_ [[Hc _ _ _] _] _] [E M] Ht [P1 P2 P3 P4].
  assert (procs k' = procs k) as Ep by (rewrite E; done). split; rewrite ?Ep; try done.
  - destruct M as [->| ->]; [done|]. by rewrite c_proc_touch.
  - intros va Ha Hb. rewrite Ht by done. by apply P4.
Qed.

(** *** Page faults *)

Lemma touch_vm_ok k l : vm_ok R k l -> vm_ok R (k <| mach ::= touch |>) l ∧ grows R k l (k <| mach ::= touch |>) l.
Proof.
  intros [Kf Kl Ki]. split.
  - split; [by destruct Kf|by apply can_lock_touch|done].
  - split; [done|by left|done|apply vm_rest_touch].
Qed.

Definition fault_perm : Z := Z.lor (Z.lor PTE_W PTE_U) PTE_R.

Lemma vmfault_eq va k l : vm_ok R k l -> proc_vm k -> p_sz (procs k !!! p) <= va ∨ 0 <= PGROUNDDOWN va < MAXVA ->
  vmfault r va k =
  (if p_sz (procs k !!! p) <=? va then mret 0 else
   if pte_valid (pte (mem k) r (PGROUNDDOWN va)) then mret 0 else
   alloc_map r (PGROUNDDOWN va) (λ pg, memset pg 0 PGSIZE) fault_perm)
  (k <| mach ::= touch |>).
Proof.
  intros Hk [P1 P2 P3 P4] Hva. unfold vmfault. destruct (vo_lock _ _ _ Hk) as [Hh _].
  rewrite bind_myproc by (by apply (hart_ok_mono 2); [lia|]). rewrite P1.
  destruct (touch_vm_ok k l Hk) as [Hk1 _]. set (k1 := k <| mach ::= touch |>) in *.
  assert (mem k1 = mem k) as Em by done. assert (procs k1 = procs k) as Ep by done. clearbody k1.
  unfold read_proc. rewrite bind_gets, Ep. destruct (Z.leb_spec (p_sz (procs k !!! p)) va) as [?|Hsz]; [done|].
  destruct Hva as [?|Hva]; [lia|].
  rewrite (bind_Ret _ _ _ _ _ (ismapped_eq R r (PGROUNDDOWN va) k1 l Hk1 Hr Hva)), Em.
  destruct (pte_valid (pte (mem k) r (PGROUNDDOWN va))); [done|]. unfold alloc_map, do_memset.
  assert (∃ pg k2, kalloc k1 = Ret pg k2 ∧ procs k2 = procs k1) as (pg & k2 & E2 & Ep2).
  { destruct l as [|pg l]; [destruct (kalloc_none R k1 Hk1) as (E & _)|destruct (kalloc_page R k1 pg l Hk1) as (E & _)];
      eexists _, _; (split; [exact E|done]). }
  assert (p_pagetable (procs (k2 <| mem ::= memset pg 0 PGSIZE |>) !!! p) = r) as Ept
    by (change (procs (k2 <| mem ::= memset pg 0 PGSIZE |>)) with (procs k2); by rewrite Ep2, Ep).
  rewrite !(bind_Ret _ _ _ _ _ E2). destruct (pg =? 0); [done|]. rewrite !bind_modify.
  erewrite bind_gets_as; [|exact Ept]. fold fault_perm. apply bind_ext. intros x k3 _.
  by destruct (x =? 0).
Qed.

(** What [useraddr] finds or makes. *)
Definition usable (m : memory) (va : Z) : Prop :=
  pte_valid (pte m r va) = true ∧ pte_bit (pte m r va) PTE_U = true.

(** No entry changes, except that the page [va] appears. *)
Definition faulted (k : kernel) (va : Z) (k' : kernel) : Prop :=
  ∀ r' va', r' ∈ R -> va' mod PGSIZE = 0 -> 0 <= va' < MAXVA -> ¬ (r' = r ∧ va' = va) ->
    pte (mem k') r' va' = pte (mem k) r' va'.

Lemma fault_perm_range : 0 <= fault_perm < 2 ^ 10.
Proof. done. Qed.

(** A usable page is a page of the user. *)
Lemma usable_page va k l : vm_ok R k l -> proc_vm k -> va mod PGSIZE = 0 -> 0 <= va < MAXVA -> usable (mem k) va ->
  uva va ∧ page_of (mem k) (UFrame r va) = Some (PTE2PA (pte (mem k) r va)) ∧ page_ok (PTE2PA (pte (mem k) r va)).
Proof.
  intros Hk Hpv Hal Hva [Hvd HU].
  assert (uva va) as Hu.
  { split; [done|]. destruct (decide (va < TRAPFRAME)); [lia|]. rewrite (pv_top _ Hpv va Hal) in HU by lia. done. }
  assert (page_of (mem k) (UFrame r va) = Some (PTE2PA (pte (mem k) r va))) as E by (unfold page_of; by rewrite Hvd).
  split; [done|]. split; [done|]. by apply (vm_page R _ _ (vo_inv _ _ _ Hk) (UFrame r va) _ (conj Hr Hu) E).
Qed.

Lemma proc_vm_grows k l k' l' va : vm_ok R k l -> grows R k l k' l' -> uva va -> faulted k va k' -> proc_vm k -> proc_vm k'.
Proof.
  intros Hk Hg Hu Hf. apply (proc_vm_rest k l k' Hk (gr_rest _ _ _ _ _ Hg)). intros va' Ha' Hb'.
  apply Hf; [done|done| |].
  { change TRAPFRAME with (2 ^ 38 - 8192) in Hb'. lia. }
  intros [_ ->]. destruct Hu. lia.
Qed.

(** The result [x] of looking up the page [va]. *)
Record looked_up (va : Z) (k : kernel) (l : list Z) (x : Z) (k' : kernel) (l' : list Z) : Prop := {
  lu_ok : vm_ok R k' l';
  lu_grows : grows R k l k' l';
  lu_proc : proc_vm k';
  lu_faulted : faulted k va k';
  lu_result :
    (x = 0 ∧ ¬ (va < MAXVA ∧ usable (mem k) va) ∧ (0 <= va < MAXVA -> pte (mem k') r va = pte (mem k) r va)) ∨
    (x ≠ 0 ∧ uva va ∧ usable (mem k') va ∧ x = PTE2PA (pte (mem k') r va) ∧
     (pte (mem k') r va = pte (mem k) r va ∨
      (pte_valid (pte (mem k) r va) = false ∧ pte_bit (pte (mem k') r va) PTE_W = true ∧
       x ∈ l ∧ ∀ b, x <= b < x + PGSIZE -> ld8 (mem k') b = 0)));
  lu_used : (length l <= length l' + 3)%nat;
  lu_short : x = 0 -> va < p_sz (procs k !!! p) -> pte_valid (pte (mem k) r va) = false -> (length l < 3)%nat;
}.

Lemma looked_up_none va k l k' : vm_ok R k l -> proc_vm k -> ¬ (va < MAXVA ∧ usable (mem k) va) ->
  ¬ (va < p_sz (procs k !!! p) ∧ pte_valid (pte (mem k) r va) = false) -> k' = k <| mach ::= touch |> -> looked_up va k l 0 k' l.
Proof.
  intros Hk Hpv Hnu Hnf ->. destruct (touch_vm_ok k l Hk) as [Hk1 Hg1]. split; [done|done| |done|by left|lia|].
  2:{ intros _ ? ?. by destruct Hnf. }
  by apply (proc_vm_rest k l _ Hk (gr_rest _ _ _ _ _ Hg1)).
Qed.

(** The fault handler on a page that is not mapped. *)
Lemma fault_page va k l k1 : vm_ok R k l -> proc_vm k -> uva va -> pte_valid (pte (mem k) r va) = false ->
  k1 = k <| mach ::= touch |> ->
  ∃ x k' l', alloc_map r va (λ pg, memset pg 0 PGSIZE) fault_perm k1 = Ret x k' ∧ looked_up va k l x k' l'.
Proof.
  intros Hk Hpv Hu Hvd Ek1. destruct (touch_vm_ok k l Hk) as [Hk1 Hg1]. rewrite <- Ek1 in Hk1, Hg1.
  assert (mem k1 = mem k) as Em by (by rewrite Ek1).
  destruct (alloc_map_spec R r va (λ pg, memset pg 0 PGSIZE) fault_perm k1 l Hr Hu Hk1) as (x & k2 & l2 & E & Hk2 & Hg2 & Hcnt & Hx);
    [by rewrite Em|done|intros; by apply memset_page|].
  pose proof (grows_trans R _ _ _ _ _ _ Hk Hg1 Hg2) as Hg. exists x, k2, l2. split; [exact E|].
  destruct Hx as [(-> & Hfew & Hsame)|(Hok & Hin & Hnz & Hset & Hz)].
  - assert (faulted k va k2) as Hf by (intros r' va' ? ? ? _; rewrite Hsame, Em by done; done).
    split; [done|done|by apply (proc_vm_grows k l k2 l2 va)|done| |done|done]. left. split; [done|]. split.
    + intros [_ [Hvd' _]]. congruence.
    + intros Hb. rewrite Hsame, Em; [done|done|apply Hu|done].
  - assert (faulted k va k2) as Hf by (intros r' va' ? ? ? Hne; rewrite Hset, decide_False, Em by done; done).
    split; [done|done|by apply (proc_vm_grows k l k2 l2 va)|done| |done|done]. right. split; [done|]. split; [done|].
    unfold usable. rewrite Hset by (done || apply Hu || by apply uva_max). rewrite decide_True by done.
    rewrite mk_pte_page by done.
    split; [split; [apply mk_pte_valid|rewrite pte_bit_flags, mk_pte_flags by done; done]|split; [done|]].
    right. split; [done|]. split; [rewrite pte_bit_flags, mk_pte_flags by done; done|].
    split; [done|]. intros b Hb. rewrite Hz by done. by apply memset_zero.
Qed.

Lemma useraddr_spec va k l : vm_ok R k l -> proc_vm k -> va mod PGSIZE = 0 -> 0 <= va ->
  ∃ x k' l', useraddr r va k = Ret x k' ∧ looked_up va k l x k' l'.
Proof.
  intros Hk Hpv Hal Hva. unfold useraddr.
  rewrite (bind_Ret _ _ _ _ _ (walkaddr_eq R r va k l Hk Hr Hva)). fold (pte_bit (pte (mem k) r va) PTE_U).
  destruct ((va <? MAXVA) && pte_valid (pte (mem k) r va) && pte_bit (pte (mem k) r va) PTE_U) eqn:Hus.
  { apply andb_true_iff in Hus as [[Hlt%Z.ltb_lt Hvd]%andb_true_iff HU].
    destruct (usable_page va k l Hk Hpv Hal ltac:(lia) (conj Hvd HU)) as (Hu & _ & Hok).
    pose proof (page_ok_pos _ Hok). rewrite (proj2 (Z.eqb_neq _ 0)) by lia.
    exists (PTE2PA (pte (mem k) r va)), k, l. split; [done|]. split; [done|apply grows_refl|done|by intros r' va' _ _ _ _| |lia|lia].
    right. split; [lia|]. split; [done|]. split; [done|]. split; [done|]. by left. }
  cbn [Z.eqb]. assert (¬ (va < MAXVA ∧ usable (mem k) va)) as Hnu.
  { intros [Hlt [Hvd HU]]. rewrite (proj2 (Z.ltb_lt va MAXVA)), Hvd, HU in Hus by done. done. }
  pose proof (pv_sz _ Hpv) as Hsz. rewrite (vmfault_eq va k l Hk Hpv), (PGROUNDDOWN_aligned va Hal).
  2:{ rewrite (PGROUNDDOWN_aligned va Hal). change TRAPFRAME with (2 ^ 38 - 8192) in Hsz. change MAXVA with (2 ^ 38). lia. }
  destruct (Z.leb_spec (p_sz (procs k !!! p)) va) as [Hge|Hlt]; [eexists 0, _, l; split; [done|apply looked_up_none; (done || lia)]|].
  destruct (pte_valid (pte (mem k) r va)) eqn:Hvd; [eexists 0, _, l; split; [done|apply looked_up_none; (done || congruence || (intros [_ ?]; congruence))]|].
  apply (fault_page va k l); try done. split; [done|lia].
Qed.

(** Looking a page up does not change what the processes see. *)
Lemma umem_same k l k' l' r' a : vm_ok R k l -> grows R k l k' l' -> r' ∈ R -> 0 <= a < TRAPFRAME ->
  pte (mem k') r' (PGROUNDDOWN a) = pte (mem k) r' (PGROUNDDOWN a) -> umem (mem k') r' a = umem (mem k) r' a.
Proof.
  intros Hk Hg Hr' Ha E. unfold umem. rewrite E. destruct (pte_valid _) eqn:Hvd; [|done].
  destruct (PGROUNDDOWN_page a ltac:(lia)) as (_ & Hp & _).
  assert (page_of (mem k) (UFrame r' (PGROUNDDOWN a)) = Some (PTE2PA (pte (mem k) r' (PGROUNDDOWN a)))) as Epo
    by (unfold page_of; by rewrite Hvd).
  apply (frame_kept R k l k' l' r' _ _ Hk Hg Hr' (uaddr_uva a Ha) Epo). lia.
Qed.

Lemma looked_up_umem va k l x k' l' r' a : vm_ok R k l -> looked_up va k l x k' l' -> r' ∈ R -> 0 <= a < TRAPFRAME ->
  umem (mem k') r' a = umem (mem k) r' a.
Proof.
  intros Hk [Hk' Hg Hpv Hf Hres _ _] Hr' Ha. pose proof (uaddr_uva a Ha) as Hu. pose proof (uva_max _ Hu) as Hm.
  destruct (decide (r' = r ∧ PGROUNDDOWN a = va)) as [[-> Eva]|Hne]; [|apply (umem_same k l k' l'); try done; by apply Hf; [|apply Hu|..]].
  destruct Hres as [(_ & _ & Hs)|(Hnz & _ & _ & Ex & [Hs|(Hvd & _ & _ & Hz)])].
  - apply (umem_same k l k' l'); try done. rewrite Eva in *. by apply Hs.
  - apply (umem_same k l k' l'); try done. by rewrite Eva.
  - unfold umem. rewrite Eva, Hvd. destruct (pte_valid (pte (mem k') r va)); [|done]. rewrite <- Ex. apply Hz.
    destruct (PGROUNDDOWN_page a ltac:(lia)) as (_ & Hp & _). lia.
Qed.

(** *** Writing to a user page *)

(** What [copyout] may write: the pages of [r], the tables and the free pages. *)
Record wrote (k : kernel) (l : list Z) (k' : kernel) (l' : list Z) : Prop := {
  wr_ok : vm_ok R k' l';
  wr_proc : proc_vm k';
  wr_sub q : q ∈ l' -> q ∈ l;
  wr_node r' q x : r' ∈ R -> path_ok q -> node (mem k') r' q = Some x -> node (mem k) r' q = Some x ∨ x ∈ l;
  wr_frame va x : uva va -> page_of (mem k') (UFrame r va) = Some x -> page_of (mem k) (UFrame r va) = Some x ∨ x ∈ l;
  wr_mem q : q mod PGSIZE = 0 -> q ∉ l -> (∀ r' q', r' ∈ R -> path_ok q' -> node (mem k) r' q' ≠ Some q) ->
    (∀ va, uva va -> page_of (mem k) (UFrame r va) ≠ Some q) -> same_page (mem k) (mem k') q;
  wr_valid r' va : r' ∈ R -> uva va -> pte_valid (pte (mem k) r' va) = true -> pte (mem k') r' va = pte (mem k) r' va;
  wr_rest : vm_rest k k';
}.

Lemma wrote_refl k l : vm_ok R k l -> proc_vm k -> wrote k l k l.
Proof. intros. split; try done; [by left|by left|apply vm_rest_refl]. Qed.

Lemma wrote_trans k l k1 l1 k2 l2 : vm_ok R k l -> wrote k l k1 l1 -> wrote k1 l1 k2 l2 -> wrote k l k2 l2.
Proof.
  intros Hk [A1 A2 A3 A4 A5 A6 A8 A7] [B1 B2 B3 B4 B5 B6 B8 B7]. split; [done|done|auto| | | | |].
  - intros r' q x Hr' Hq E. destruct (B4 r' q x Hr' Hq E); auto.
  - intros va x Hu E. destruct (B5 va x Hu E); auto.
  - intros q Ha Hl Hn Hf. eapply same_page_trans; [by apply A6|]. apply B6; [done|auto| |].
    + intros r' q' Hr' Hq' E. destruct (A4 r' q' q Hr' Hq' E); [by eapply Hn|done].
    + intros va Hu E. destruct (A5 va q Hu E); [by eapply Hf|done].
  - intros r' va Hr' Hu Hvd. pose proof (A8 r' va Hr' Hu Hvd) as E. rewrite B8; [done|done|done|by rewrite E].
  - destruct (vo_lock _ _ _ Hk) as [[Hc _ _ _] _]. by eapply vm_rest_trans.
Qed.

Lemma looked_up_wrote va k l x k' l' : vm_ok R k l -> looked_up va k l x k' l' -> wrote k l k' l'.
Proof.
  intros Hk [Hk' Hg Hpv Hf Hres _ _]. destruct Hg as [G1 G2 G3 G4]. split; try done; [|by intros; apply G3|].
  2:{ intros r' va' Hr' Hu Hvd. pose proof (uva_max _ Hu) as Hm. destruct (decide (r' = r ∧ va' = va)) as [[-> ->]|Hne].
      - destruct Hres as [(_ & _ & Hs)|(Hnz & _ & _ & Ex & [Hs|(Hvd' & _)])]; [by apply Hs|done|congruence].
      - by apply Hf; [|apply Hu|..]. }
  intros va' y Hu E. pose proof (uva_max _ Hu) as Hm.
  destruct (decide (va' = va)) as [->|Hne].
  - destruct Hres as [(_ & _ & Hs)|(Hnz & _ & _ & Ex & [Hs|(Hvd & _ & Hin & Hz)])].
    + left. unfold page_of in *. by rewrite Hs in E.
    + left. unfold page_of in *. by rewrite Hs in E.
    + right. unfold page_of in E. destruct (pte_valid (pte (mem k') r va)); [|done]. injection E as <-. by rewrite <- Ex.
  - left. unfold page_of in *. rewrite (Hf r va' Hr (proj1 Hu) Hm) in E; [done|]. by intros [_ ?].
Qed.

Lemma write_frame va off bs k l : vm_ok R k l -> proc_vm k -> uva va -> usable (mem k) va ->
  0 <= off -> off + Z.of_nat (length bs) <= PGSIZE ->
  let k' := k <| mem ::= write_bytes (PTE2PA (pte (mem k) r va) + off) bs |> in
  wrote k l k' l ∧ (∀ r' va', r' ∈ R -> pte (mem k') r' va' = pte (mem k) r' va') ∧
  ∀ r' a, r' ∈ R -> 0 <= a < TRAPFRAME -> umem (mem k') r' a =
    if decide (r' = r ∧ va + off <= a < va + off + Z.of_nat (length bs)) then u8 (bs !!! Z.to_nat (a - (va + off)))
    else umem (mem k) r' a.
Proof.
  intros Hk Hpv Hu Hus Hoff Hlen k'. pose proof Hk as [Kf Kl Ki].
  destruct (usable_page va k l Hk Hpv (proj1 Hu) (uva_max _ Hu) Hus) as (_ & Epo & Hok).
  set (x := PTE2PA (pte (mem k) r va)) in *.
  destruct (vm_page R _ _ Ki (UFrame r va) x (conj Hr Hu) Epo) as [_ Hni].
  assert (mem k' = write_bytes (x + off) bs (mem k)) as Em by done.
  assert (∀ q, q mod PGSIZE = 0 -> q ≠ x -> same_page (mem k) (mem k') q) as Hs.
  { intros q Hq Hne b Hb. rewrite Em, ld8_write_bytes, decide_False; [done|].
    pose proof (page_disjoint q x Hq (proj1 Hok) Hne). lia. }
  assert (∀ r' q p', r' ∈ R -> path_ok q -> node (mem k) r' q = Some p' -> same_page (mem k) (mem k') p') as Hns.
  { intros r' q p' Hr' Hq E. apply Hs; [by apply (node_page R _ _ Ki r' q p')|]. intros ->.
    pose proof (vm_inj R _ _ Ki (UNode r' q) (UFrame r va) x (conj Hr' Hq) (conj Hr Hu) E Epo) as Hx. discriminate Hx. }
  assert (∀ r' va', r' ∈ R -> pte (mem k') r' va' = pte (mem k) r' va') as Hp.
  { intros r' va' Hr'. apply pte_frame. intros q1 p1. apply (Hns r' q1 p1 Hr'). }
  assert (vm_rest k k') as Hrest by apply vm_rest_mem.
  split; [|split; [exact Hp|]].
  - split.
    + split; [|exact Kl|].
      * apply (kmem_inv_mem k k' l Kf); [unfold k'; kcbn; reflexivity|]. intros q Hq. destruct Kf as [_ Kp _].
        apply Hs; [by apply (proj1 (Forall_forall _ _) Kp)|]. intros ->. done.
      * exact (vm_inv_frame R (mem k) l Ki (mem k') l Hns (λ p H, H)).
    + apply (proc_vm_rest k l k' Hk Hrest); [|done]. intros va' _ _. by apply Hp.
    + done.
    + intros r' q y Hr' Hq E. left. rewrite (node_frame (mem k)) in E; [done|done|]. intros q1 p1 Hq1 _. apply (Hns r' q1 p1 Hr' Hq1).
    + intros va' y Hu' E. left. unfold page_of in *. by rewrite Hp in E.
    + intros q Hq _ _ Hf. apply Hs; [done|]. intros ->. by apply (Hf va Hu).
    + intros r' va' Hr' _ _. by apply Hp.
    + exact Hrest.
  - intros r' a Hr' Ha. destruct (PGROUNDDOWN_page a ltac:(lia)) as (Hpal & Hpa & _).
    unfold umem. rewrite Hp by done. destruct (pte_valid (pte (mem k) r' (PGROUNDDOWN a))) eqn:Hvd.
    + set (y := PTE2PA (pte (mem k) r' (PGROUNDDOWN a))).
      assert (page_of (mem k) (UFrame r' (PGROUNDDOWN a)) = Some y) as Ey by (unfold page_of; by rewrite Hvd).
      destruct (vm_page R _ _ Ki (UFrame r' (PGROUNDDOWN a)) y (conj Hr' (uaddr_uva a Ha)) Ey) as [Hyok _].
      destruct (decide (y = x)) as [Eyx|Hyx].
      * rewrite Eyx in Ey. pose proof (vm_inj R _ _ Ki (UFrame r' (PGROUNDDOWN a)) (UFrame r va) x (conj Hr' (uaddr_uva a Ha)) (conj Hr Hu) Ey Epo) as [= -> Eva].
        rewrite Em, ld8_write_bytes, Eyx, Eva. destruct (decide (x + off <= x + (a - va) < x + off + Z.of_nat (length bs))).
        -- rewrite decide_True by (split; [done|lia]). do 2 f_equal. lia.
        -- rewrite decide_False by (intros [_ ?]; lia). done.
      * rewrite (Hs y (proj1 Hyok) Hyx) by lia. rewrite decide_False; [done|]. intros [-> Hin]. apply Hyx.
        assert (PGROUNDDOWN a = va) as Eva by (apply PGROUNDDOWN_unique; [apply Hu|lia]).
        unfold y, x. by rewrite Eva.
    + rewrite decide_False; [done|]. intros [-> Hin].
      assert (PGROUNDDOWN a = va) as Eva by (apply PGROUNDDOWN_unique; [apply Hu|lia]).
      rewrite Eva in Hvd. destruct Hus. congruence.
Qed.

(** *** [copyout] *)

Definition writable (m : memory) (va : Z) : Prop :=
  va < MAXVA ∧ usable m va ∧ pte_bit (pte m r va) PTE_W = true.
(** [copyout] can write the page, or will once it is allocated. *)
Definition lazy (k : kernel) (va : Z) : Prop := va < p_sz (procs k !!! p) ∧ pte_valid (pte (mem k) r va) = false.
(** [n] pages cover the range of [len] bytes from [a]. *)
Definition pages (a len : Z) (n : nat) : Prop := a + len <= PGROUNDDOWN a + Z.of_nat n * PGSIZE.
(** The pages that the range of [n] bytes from [a] touches. *)
Definition touches (a n va : Z) : Prop := 0 < n ∧ va mod PGSIZE = 0 ∧ va < a + n ∧ a < va + PGSIZE.

(** The result [x] of writing [src] at [dst]. *)
Record copied_out (k : kernel) (l : list Z) (dst : Z) (src : list Z) (x : Z) (k' : kernel) (l' : list Z) : Prop := {
  co_wrote : wrote k l k' l';
  co_result : x = 0 ∨ x = -1;
  co_other r' a : r' ∈ R -> 0 <= a < TRAPFRAME -> ¬ (r' = r ∧ dst <= a < dst + Z.of_nat (length src)) ->
    umem (mem k') r' a = umem (mem k) r' a;
  co_data : x = 0 -> ∀ a, dst <= a < dst + Z.of_nat (length src) ->
    a < TRAPFRAME ∧ umem (mem k') r a = u8 (src !!! Z.to_nat (a - dst));
  co_usable : x = 0 -> ∀ va, touches dst (Z.of_nat (length src)) va -> 0 <= va < MAXVA ∧ usable (mem k') va;
  co_total n : (∀ va, touches dst (Z.of_nat (length src)) va -> writable (mem k) va ∨ lazy k va) ->
    pages dst (Z.of_nat (length src)) n -> (3 * n <= length l)%nat -> x = 0;
}.

Lemma procs_rest k k' : vm_rest k k' -> procs k' = procs k.
Proof. intros [E _]. by rewrite E. Qed.

Lemma pages_pos a len n va : touches a len va -> 0 <= a -> pages a len n -> (1 <= n)%nat.
Proof. intros (Hl & _) Ha Hp. unfold pages in Hp. destruct (PGROUNDDOWN_page a Ha). unfold PGSIZE in *. lia. Qed.
Lemma pages_step a len n m : 0 <= a -> m = Z.min (PGSIZE - (a - PGROUNDDOWN a)) len -> (1 <= n)%nat ->
  pages a len n -> pages (PGROUNDDOWN a + PGSIZE) (len - m) (n - 1).
Proof.
  intros Ha Em Hn Hp. destruct (PGROUNDDOWN_page a Ha) as (Hal & Hpg & _). unfold pages in *.
  rewrite (PGROUNDDOWN_aligned (PGROUNDDOWN a + PGSIZE)) by (unfold PGSIZE in *; zlia). unfold PGSIZE in *. lia.
Qed.

Lemma ready_max k va : proc_vm k -> writable (mem k) va ∨ lazy k va -> va < MAXVA.
Proof.
  intros Hpv [[? _]|[? _]]; [done|]. pose proof (pv_sz _ Hpv) as Hsz. change TRAPFRAME with (2 ^ 38 - 8192) in Hsz.
  change MAXVA with (2 ^ 38). lia.
Qed.

Lemma copied_out_fail k l dst src x k' l' va : vm_ok R k l -> looked_up va k l x k' l' -> 0 <= dst ->
  touches dst (Z.of_nat (length src)) va -> (writable (mem k) va ∨ lazy k va -> (length l < 3)%nat) ->
  copied_out k l dst src (-1) k' l'.
Proof.
  intros Hk Hx Hdst Ht Hnw. split; [by eapply looked_up_wrote|by right| |done|done|].
  - intros r' a Hr' Ha _. by eapply looked_up_umem.
  - intros n Hw Hpg Hn. pose proof (pages_pos _ _ _ _ Ht Hdst Hpg). specialize (Hnw (Hw va Ht)). lia.
Qed.

(** One round on the page at [va] and the rest. *)
Lemma copied_out_step k l dst src va n k1 l1 x1 x k' l' :
  vm_ok R k l -> proc_vm k -> looked_up va k l x1 k1 l1 -> x1 ≠ 0 -> pte_bit (pte (mem k1) r va) PTE_W = true ->
  va = PGROUNDDOWN dst -> 0 <= dst -> n = Z.min (PGSIZE - (dst - va)) (Z.of_nat (length src)) -> 0 < n ->
  copied_out (k1 <| mem ::= write_bytes (x1 + (dst - va)) (take (Z.to_nat n) src) |>) l1
    (va + PGSIZE) (drop (Z.to_nat n) src) x k' l' ->
  copied_out k l dst src x k' l'.
Proof.
  intros Hk Hpv Hlu Hnz Hw Eva Hdst En Hn Hrest.
  destruct (PGROUNDDOWN_page dst Hdst) as (Hal & Hpg & Hva). rewrite <- Eva in *.
  pose proof Hlu as [Hk1 Hg1 Hpv1 Hf1 Hres Hcnt1 _]. destruct Hres as [(-> & _)|(_ & Hu & Hus & Ex & Hpte)]; [done|].
  assert (Z.of_nat (length (take (Z.to_nat n) src)) = n) as El by (rewrite length_take; lia).
  destruct (write_frame va (dst - va) (take (Z.to_nat n) src) k1 l1 Hk1 Hpv1 Hu Hus) as (Hwr & Hp & Hum); [lia|lia|].
  rewrite <- Ex in *. set (k2 := k1 <| mem ::= write_bytes (x1 + (dst - va)) (take (Z.to_nat n) src) |>) in *.
  rewrite El in Hum. replace (va + (dst - va)) with dst in Hum by lia.
  assert (procs k2 = procs k) as Ep2.
  { transitivity (procs k1); [by apply procs_rest, (wr_rest _ _ _ _ Hwr)|by apply procs_rest, (gr_rest _ _ _ _ _ Hg1)]. }
  destruct Hrest as [R1 R2 R3 R4 R6 R5].
  assert (Z.of_nat (length (drop (Z.to_nat n) src)) = Z.of_nat (length src) - n) as Ed by (rewrite length_drop; lia).
  assert (dst + n = va + PGSIZE ∨ n = Z.of_nat (length src)) as Hcase by lia. rewrite Ed in R3, R4, R5, R6.
  assert (∀ r' a, r' ∈ R -> 0 <= a < TRAPFRAME -> umem (mem k1) r' a = umem (mem k) r' a) as Hum1.
  { intros r' a Hr' Ha. by eapply looked_up_umem. }
  split; [|done| | | |].
  - eapply wrote_trans; [done|by eapply looked_up_wrote|]. by eapply wrote_trans.
  - intros r' a Hr' Ha Hne. rewrite R3; [rewrite Hum, decide_False by (done || (intros [-> ?]; apply Hne; split; [done|lia])); by apply Hum1|done..|].
    intros [-> ?]. apply Hne. split; [done|lia].
  - intros Hx a Ha. destruct (decide (va + PGSIZE <= a)) as [Hge|Hlt].
    + destruct (R4 Hx a ltac:(lia)) as [Ht Ea]. split; [done|]. rewrite Ea. f_equal.
      rewrite !list_lookup_total_alt, lookup_drop. do 2 f_equal. lia.
    + assert (a < TRAPFRAME) as Ht. { destruct Hu as [Hual ?]. change TRAPFRAME with (2 ^ 38 - 8192) in *. unfold PGSIZE in *. zlia. }
      split; [done|]. rewrite R3; [|done|lia|intros [_ ?]; lia]. rewrite Hum by (done || lia).
      rewrite decide_True by (split; [done|lia]). f_equal. rewrite !list_lookup_total_alt, lookup_take_lt by lia. done.
  - intros Hx va' (Hl' & Ha' & Hv1 & Hv2). destruct (decide (va' = va)) as [->|Hne].
    + split; [by apply uva_max|]. destruct Hus as [Hvd HU].
      assert (pte (mem k') r va = pte (mem k1) r va) as Ep.
      { rewrite (wr_valid _ _ _ _ R1 r va Hr Hu); [by apply Hp|]. by rewrite Hp. }
      unfold usable. by rewrite Ep.
    + apply R6; [done|]. unfold touches. clear -En Ha' Hal Hv1 Hv2 Hcase Hpg Hn Hne. unfold PGSIZE in *. zlia.
  - intros n' Hall Hpgs Hn'.
    assert (1 <= n')%nat as Hn1 by (apply (pages_pos dst (Z.of_nat (length src)) n' va); [unfold touches; lia|done..]).
    apply (R5 (n' - 1)%nat).
    2:{ rewrite Eva. apply pages_step; [done|by rewrite <- Eva|lia|done]. }
    2:{ lia. }
    intros va' (Hl' & Ha' & Hv1 & Hv2).
    assert (touches dst (Z.of_nat (length src)) va') as Htv
      by (unfold touches; clear -Hl' Ha' Hal Hv1 Hv2 Hcase Hpg Hn; unfold PGSIZE in *; zlia).
    assert (va' ≠ va) as Hne by lia. specialize (Hall va' Htv). pose proof (ready_max k va' Hpv Hall) as Hm.
    assert (pte (mem k2) r va' = pte (mem k) r va') as Ep.
    { rewrite Hp by done. apply Hf1; [done|done|lia|]. by intros [_ ?]. }
    unfold lazy, writable, usable in *. rewrite Ep, Ep2. done.
Qed.

Lemma copyout_loop_spec fuel dst src k l : vm_ok R k l -> proc_vm k -> 0 <= dst -> (length src < fuel)%nat ->
  ∃ x k' l', copyout_loop fuel r dst src k = Ret x k' ∧ copied_out k l dst src x k' l'.
Proof.
  revert dst src k l. induction fuel as [|fuel IH]; intros dst src k l Hk Hpv Hdst Hf; [lia|]. cbn [copyout_loop].
  destruct (Z.ltb_spec 0 (Z.of_nat (length src))) as [Hpos|Hz].
  2:{ exists 0, k, l. split; [done|]. split; [by apply wrote_refl|by left|done|lia| |done].
      intros _ va (? & _). lia. }
  destruct (PGROUNDDOWN_page dst Hdst) as (Hal & Hpg & Hva). set (va := PGROUNDDOWN dst) in *.
  assert (touches dst (Z.of_nat (length src)) va) as Htv by (unfold touches; lia).
  destruct (Z.leb_spec MAXVA va) as [Hbig|Hsmall].
  { exists (-1), k, l. split; [done|]. split; [by apply wrote_refl|by right|done|done|done|].
    intros n Hall. pose proof (ready_max k va Hpv (Hall va Htv)). lia. }
  destruct (useraddr_spec va k l Hk Hpv Hal Hva) as (x1 & k1 & l1 & E1 & Hlu). rewrite (bind_Ret _ _ _ _ _ E1).
  pose proof Hlu as [Hk1 Hg1 Hpv1 Hf1 [(-> & Hnu & _)|(Hnz & Hu & Hus & Ex & Hpte)] Hcnt1 Hshort1].
  { exists (-1), k1, l1. split; [done|]. apply (copied_out_fail k l dst src 0 k1 l1 va); [done..|].
    intros [(H1 & H2 & _)|[H1 H2]]; [by destruct Hnu|by apply Hshort1]. }
  rewrite (proj2 (Z.eqb_neq x1 0)) by done. rewrite (bind_Ret _ _ _ _ _ (walk_false r va k1 (uva_max _ Hu))).
  assert (∃ a, leaf (mem k1) r va = Some a ∧ ld64 (mem k1) a = pte (mem k1) r va) as (a & Ha & Ea).
  { destruct Hus as [Hvd _]. unfold pte in *. destruct (leaf (mem k1) r va) as [a|]; [by exists a|discriminate Hvd]. }
  rewrite Ha. cbn [default from_option id].
  rewrite (proj2 (Z.eqb_neq a 0)) by exact (leaf_nonzero R r va a k1 l1 Hk1 Hr Ha). unfold load64. rewrite bind_gets, Ea.
  destruct (Z.land (pte (mem k1) r va) PTE_W =? 0) eqn:HW.
  { exists (-1), k1, l1. split; [done|]. apply (copied_out_fail k l dst src x1 k1 l1 va); [done..|].
    intros Hrd. assert (pte_bit (pte (mem k1) r va) PTE_W = true) as Hw; [|unfold pte_bit in Hw; by rewrite HW in Hw].
    destruct Hpte as [Ep|(_ & Hw & _)]; [|done]. rewrite Ep. destruct Hrd as [(_ & _ & Hw)|[_ Hvd]]; [done|].
    destruct Hus as [Hvd' _]. rewrite Ep in Hvd'. congruence. }
  rewrite bind_modify. set (n := Z.min (PGSIZE - (dst - va)) (Z.of_nat (length src))).
  destruct (write_frame va (dst - va) (take (Z.to_nat n) src) k1 l1 Hk1 Hpv1 Hu Hus) as (Hwr & _ & _);
    [lia|rewrite length_take; unfold n; lia|]. rewrite <- Ex in Hwr.
  destruct (IH (va + PGSIZE) (drop (Z.to_nat n) src) _ l1 (wr_ok _ _ _ _ Hwr) (wr_proc _ _ _ _ Hwr))
    as (x & k' & l' & E & Hc); [unfold PGSIZE; lia|rewrite length_drop; unfold n, PGSIZE in *; lia|].
  exists x, k', l'. split; [exact E|].
  apply (copied_out_step k l dst src va n k1 l1 x1 x k' l'); try done; [unfold pte_bit; by rewrite HW|unfold n; lia].
Qed.

(** *** [copyin] *)

(** The [n] bytes of the process from [a]. *)
Fixpoint ubytes (n : nat) (m : memory) (a : Z) : list Z :=
  match n with
  | O => []
  | S n' => umem m r a :: ubytes n' m (a + 1)
  end.

Lemma ubytes_app n n' m a : ubytes (n + n') m a = ubytes n m a ++ ubytes n' m (a + Z.of_nat n).
Proof.
  revert a. induction n as [|n IH]; intros a; cbn [ubytes Nat.add app]; [f_equal; lia|].
  f_equal. rewrite IH. do 2 f_equal. lia.
Qed.

Lemma length_ubytes n m a : length (ubytes n m a) = n.
Proof. revert a. induction n as [|n IH]; intros a; cbn [ubytes length]; [done|]. by rewrite IH. Qed.

Lemma ubytes_ext n m m' a : (∀ b, a <= b < a + Z.of_nat n -> umem m' r b = umem m r b) -> ubytes n m' a = ubytes n m a.
Proof.
  revert a. induction n as [|n IH]; intros a H; [done|]. cbn [ubytes]. f_equal; [apply H; lia|].
  apply IH. intros b Hb. apply H. lia.
Qed.

Lemma ubytes_elem n m a i : (i < n)%nat -> umem m r (a + Z.of_nat i) ∈ ubytes n m a.
Proof.
  revert a i. induction n as [|n IH]; intros a [|i] Hi; [lia|lia| |]; cbn [ubytes].
  - rewrite Z.add_0_r. apply list_elem_of_here.
  - apply list_elem_of_further. replace (a + Z.of_nat (S i)) with (a + 1 + Z.of_nat i) by lia. apply IH. lia.
Qed.

Lemma ubytes_lookup n m a i b : ubytes n m a !! i = Some b -> umem m r (a + Z.of_nat i) = b.
Proof.
  revert a i. induction n as [|n IH]; intros a [|i] E; cbn in E; try discriminate E.
  - injection E as <-. f_equal. lia.
  - apply IH in E. rewrite <- E. f_equal. lia.
Qed.

Lemma ubytes_eq m a l : Forall (λ b, 0 <= b < 256) l ->
  (∀ b, a <= b < a + Z.of_nat (length l) -> b < TRAPFRAME ∧ umem m r b = u8 (l !!! Z.to_nat (b - a))) ->
  ubytes (length l) m a = l.
Proof.
  intros Hl. revert a. induction Hl as [|x l Hx Hl IH]; intros a H; [done|]. cbn [length ubytes]. f_equal.
  - destruct (H a) as [_ ->]; [cbn [length]; lia|]. rewrite Z.sub_diag. cbn. unfold u8. by apply Z.mod_small.
  - apply IH. intros b Hb. destruct (H b) as [? E]; [cbn [length]; lia|]. split; [done|]. rewrite E.
    by replace (Z.to_nat (b - a)) with (S (Z.to_nat (b - (a + 1)))) by lia.
Qed.

(** The bytes of a page that is there. *)
Lemma ubytes_page n m va a : pte_valid (pte m r va) = true -> va mod PGSIZE = 0 -> va <= a -> a + Z.of_nat n <= va + PGSIZE ->
  bytes n m (PTE2PA (pte m r va) + (a - va)) = ubytes n m a.
Proof.
  intros Hvd Hal. revert a. induction n as [|n IH]; intros a Ha Hn; [done|]. cbn [bytes ubytes]. f_equal.
  - unfold umem. by rewrite (PGROUNDDOWN_unique va), Hvd by (done || lia).
  - rewrite <- IH by lia. f_equal. lia.
Qed.

(** The result [x] and the bytes [bs] of reading [n] bytes at [src]. *)
Record copied_in (k : kernel) (l : list Z) (src n x : Z) (bs : list Z) (k' : kernel) (l' : list Z) : Prop := {
  ci_wrote : wrote k l k' l';
  ci_result : x = 0 ∨ x = -1;
  ci_same r' a : r' ∈ R -> 0 <= a < TRAPFRAME -> umem (mem k') r' a = umem (mem k) r' a;
  ci_data : x = 0 -> bs = ubytes (Z.to_nat n) (mem k) src ∧ ∀ a, src <= a < src + n -> a < TRAPFRAME;
  ci_total : (∀ va, touches src n va -> va < MAXVA ∧ usable (mem k) va) -> x = 0;
}.

(** One round on the page at [va] and the rest. *)
Lemma copied_in_step k l src len va n k1 l1 x1 x bs k' l' :
  vm_ok R k l -> looked_up va k l x1 k1 l1 -> x1 ≠ 0 ->
  va = PGROUNDDOWN src -> 0 <= src -> n = Z.min (PGSIZE - (src - va)) len -> 0 < n ->
  copied_in k1 l1 (va + PGSIZE) (len - n) x bs k' l' ->
  copied_in k l src len x (bytes (Z.to_nat n) (mem k1) (x1 + (src - va)) ++ bs) k' l'.
Proof.
  intros Hk Hlu Hnz Eva Hsrc En Hn [R1 R2 R3 R4 R5].
  destruct (PGROUNDDOWN_page src Hsrc) as (Hal & Hpg & Hva). rewrite <- Eva in *.
  pose proof Hlu as [Hk1 Hg1 Hpv1 Hf1 Hres Hcnt1 _]. destruct Hres as [(-> & _)|(_ & Hu & Hus & Ex & Hpte)]; [done|].
  assert (∀ r' a, r' ∈ R -> 0 <= a < TRAPFRAME -> umem (mem k1) r' a = umem (mem k) r' a) as Hum1.
  { intros r' a Hr' Ha. by eapply looked_up_umem. }
  assert (va + PGSIZE <= TRAPFRAME) as Htop.
  { destruct Hu as [Hual ?]. change TRAPFRAME with (2 ^ 38 - 8192) in *. unfold PGSIZE in *. zlia. }
  split; [|done| | |].
  - eapply wrote_trans; [done|by eapply looked_up_wrote|done].
  - intros r' a Hr' Ha. rewrite R3 by done. by apply Hum1.
  - intros Hx. destruct (R4 Hx) as [-> Hin]. split.
    + rewrite Ex, ubytes_page by (apply Hus || done || lia).
      replace (Z.to_nat len) with (Z.to_nat n + Z.to_nat (len - n))%nat by lia. rewrite ubytes_app. f_equal.
      * apply ubytes_ext. intros b Hb. apply Hum1; [done|lia].
      * destruct (decide (n = len)) as [->|Hne]; [by rewrite Z.sub_diag|].
        replace (src + Z.of_nat (Z.to_nat n)) with (va + PGSIZE) by lia.
        apply ubytes_ext. intros b Hb. apply Hum1; [done|]. specialize (Hin b). lia.
    + intros a Ha. destruct (decide (a < va + PGSIZE)); [lia|]. apply Hin. lia.
  - intros Hall. apply R5. intros va' (Hl' & Ha' & Hv1 & Hv2).
    assert (touches src len va') as Htv by (unfold touches; clear -En Hl' Ha' Hal Hv1 Hv2 Hpg Hn; unfold PGSIZE in *; zlia).
    destruct (Hall va' Htv) as (Hm & Hus'). split; [done|]. unfold usable. rewrite Hf1; [done|done|done|lia|].
    intros [_ ->]. lia.
Qed.

Lemma copyin_loop_spec fuel dst src n k l : vm_ok R k l -> proc_vm k -> 0 <= src -> (Z.to_nat n < fuel)%nat ->
  ∃ x bs k' l', copyin_loop fuel r dst src n k = Ret (x, dst ++ bs) k' ∧ copied_in k l src n x bs k' l'.
Proof.
  revert dst src n k l. induction fuel as [|fuel IH]; intros dst src n k l Hk Hpv Hsrc Hf; [lia|]. cbn [copyin_loop].
  destruct (Z.ltb_spec 0 n) as [Hpos|Hz].
  2:{ exists 0, [], k, l. split; [by rewrite app_nil_r|]. split; [by apply wrote_refl|by left|done| |done].
      intros _. split; [by replace (Z.to_nat n) with 0%nat by lia|lia]. }
  destruct (PGROUNDDOWN_page src Hsrc) as (Hal & Hpg & Hva). set (va := PGROUNDDOWN src) in *.
  assert (touches src n va) as Htv by (unfold touches; lia).
  destruct (useraddr_spec va k l Hk Hpv Hal Hva) as (x1 & k1 & l1 & E1 & Hlu). rewrite (bind_Ret _ _ _ _ _ E1).
  pose proof Hlu as [Hk1 Hg1 Hpv1 Hf1 [(-> & Hnu & _)|(Hnz & Hu & Hus & Ex & Hpte)] Hcnt1 Hshort1].
  { exists (-1), [], k1, l1. split; [by rewrite app_nil_r|]. split; [by eapply looked_up_wrote|by right| |done|].
    - intros r' a Hr' Ha. by eapply looked_up_umem.
    - intros Hall. by destruct Hnu; apply Hall. }
  rewrite (proj2 (Z.eqb_neq x1 0)) by done. rewrite bind_gets.
  set (m := Z.min (PGSIZE - (src - va)) n). set (b1 := bytes (Z.to_nat m) (mem k1) (x1 + (src - va))).
  rewrite (u64_small (va + PGSIZE)).
  2:{ destruct (uva_max _ Hu) as [_ Hm]. change MAXVA with (2 ^ 38) in Hm. unfold PGSIZE. lia. }
  destruct (IH (dst ++ b1) (va + PGSIZE) (n - m) k1 l1 Hk1 Hpv1) as (x & bs & k' & l' & E & Hc);
    [unfold PGSIZE; lia|unfold m, PGSIZE in *; lia|].
  exists x, (b1 ++ bs), k', l'. split; [by rewrite E, app_assoc|].
  apply (copied_in_step k l src n va m k1 l1 x1); try done. unfold m. lia.
Qed.

(** Pages that are all there are read without changing anything. *)
Definition present (m : memory) (va : Z) : Prop :=
  0 <= va < MAXVA ∧ usable m va ∧ PTE2PA (pte m r va) ≠ 0 ∧ ∃ a, leaf m r va = Some a ∧ a ≠ 0.

Lemma useraddr_present va k : present (mem k) va -> useraddr r va k = Ret (PTE2PA (pte (mem k) r va)) k.
Proof.
  intros (Hva & [Hvd HU] & Hpa & a & Ha & H0). unfold useraddr, walkaddr.
  rewrite (proj2 (Z.leb_gt MAXVA va)) by lia. erewrite bind_Ret.
  2:{ erewrite bind_Ret by (apply walk_false; lia). rewrite Ha. cbn [default from_option id].
      rewrite (proj2 (Z.eqb_neq a 0)) by done. unfold load64. rewrite bind_gets.
      assert (pte (mem k) r va = ld64 (mem k) a) as Ep by (unfold pte; by rewrite Ha).
      unfold pte_bit, pte_valid in *. rewrite Ep in *.
      destruct (Z.land (ld64 (mem k) a) PTE_V =? 0); [discriminate Hvd|].
      destruct (Z.land (ld64 (mem k) a) PTE_U =? 0); [discriminate HU|]. reflexivity. }
  assert (pte (mem k) r va = ld64 (mem k) a) as -> by (unfold pte; by rewrite Ha).
  assert (PTE2PA (ld64 (mem k) a) ≠ 0) as Hne by (unfold pte in Hpa; by rewrite Ha in Hpa).
  by rewrite (proj2 (Z.eqb_neq _ 0)).
Qed.

Lemma copyin_loop_present fuel dst src n k : 0 <= src -> src + n <= MAXVA -> (Z.to_nat n < fuel)%nat ->
  (∀ va, touches src n va -> present (mem k) va) ->
  copyin_loop fuel r dst src n k = Ret (0, dst ++ ubytes (Z.to_nat n) (mem k) src) k.
Proof.
  revert dst src n. induction fuel as [|fuel IH]; intros dst src n Hsrc Hmax Hf Hall; [lia|]. cbn [copyin_loop].
  destruct (Z.ltb_spec 0 n) as [Hpos|Hz].
  2:{ replace (Z.to_nat n) with 0%nat by lia. cbn [ubytes]. by rewrite app_nil_r. }
  destruct (PGROUNDDOWN_page src Hsrc) as (Hal & Hpg & Hva). set (va := PGROUNDDOWN src) in *.
  assert (touches src n va) as Htv by (unfold touches; lia).
  pose proof (Hall va Htv) as Hp. rewrite (bind_Ret _ _ _ _ _ (useraddr_present va k Hp)).
  destruct Hp as (Hv & [Hvd HU] & Hpa & _). rewrite (proj2 (Z.eqb_neq _ 0)) by done. rewrite bind_gets.
  set (m := Z.min (PGSIZE - (src - va)) n).
  rewrite (u64_small (va + PGSIZE)) by (change MAXVA with (2 ^ 38) in *; unfold PGSIZE in *; lia).
  rewrite ubytes_page by (done || lia). rewrite IH; [|lia| |unfold m, PGSIZE in *; lia|].
  - f_equal. f_equal. rewrite <- app_assoc. f_equal.
    replace (Z.to_nat n) with (Z.to_nat m + Z.to_nat (n - m))%nat by lia. rewrite ubytes_app. f_equal.
    destruct (decide (m = n)) as [->|Hne]; [by rewrite Z.sub_diag|]. f_equal. lia.
  - assert (va + PGSIZE <= MAXVA) by (clear -Hal Hv; change MAXVA with 274877906944 in *; unfold PGSIZE in *; zlia). unfold m. lia.
  - intros va' (Hl' & Ha' & Hv1 & Hv2). apply Hall.
    unfold touches. clear -Hl' Ha' Hal Hv1 Hv2 Hpg Hpos m. unfold m, PGSIZE in *. zlia.
Qed.

(** *** [copyinstr] *)

(** A string of non-zero bytes ending in a NUL. *)
Definition cstring (bs : list Z) : Prop := ∃ s, bs = s ++ [0] ∧ Forall (λ b, b ≠ 0) s.

Lemma copyinstr_page_spec n m a bs got : copyinstr_page n m a = (bs, got) ->
  (length bs <= n)%nat ∧ bs = bytes (length bs) m a ∧
  if got : bool then cstring bs else length bs = n ∧ Forall (λ b, b ≠ 0) bs.
Proof.
  revert a bs got. induction n as [|n IH]; intros a bs got; cbn [copyinstr_page]; [by intros [= <- <-]|].
  destruct (Z.eqb_spec (ld8 m a) 0) as [Ez|Hnz].
  { intros [= <- <-]. cbn. rewrite Ez. split; [lia|]. split; [done|]. by exists []. }
  destruct (copyinstr_page n m (a + 1)) as [bs' got'] eqn:E. intros [= <- <-].
  destruct (IH _ _ _ E) as (Hl & Hb & Hg). cbn [length bytes]. split; [lia|]. split; [by f_equal|].
  destruct got'; [|split; [lia|by constructor; [|apply Hg]]].
  destruct Hg as (s & -> & Hs). exists (ld8 m a :: s). split; [done|by constructor].
Qed.

(** The string of at most [max] bytes at [src], the NUL included. *)
Record copied_str (k : kernel) (src max x : Z) (bs : list Z) : Prop := {
  cs_result : x = 0 ∨ x = -1;
  cs_data : x = 0 -> cstring bs ∧ Z.of_nat (length bs) <= max ∧ bs = ubytes (length bs) (mem k) src;
  cs_pages : x = 0 -> ∀ va, touches src (Z.of_nat (length bs)) va -> va < MAXVA ∧ usable (mem k) va;
  cs_total n : Z.of_nat n < max -> umem (mem k) r (src + Z.of_nat n) = 0 ->
    (∀ va, touches src (Z.of_nat n + 1) va -> va < MAXVA ∧ usable (mem k) va) -> x = 0;
}.

Lemma only_page a va va' n : va mod PGSIZE = 0 -> va <= a < va + PGSIZE -> n <= PGSIZE - (a - va) -> touches a n va' -> va' = va.
Proof. unfold touches, PGSIZE. intros. zlia. Qed.

Lemma copyinstr_loop_spec fuel dst src max k l : vm_ok R k l -> proc_vm k -> 0 <= src -> (Z.to_nat max < fuel)%nat ->
  ∃ x bs, copyinstr_loop fuel r dst src max k = Ret (x, dst ++ bs) k ∧ copied_str k src max x bs.
Proof.
  revert dst src max. induction fuel as [|fuel IH]; intros dst src max Hk Hpv Hsrc Hf; [lia|]. cbn [copyinstr_loop].
  destruct (Z.ltb_spec 0 max) as [Hpos|Hz].
  2:{ exists (-1), []. split; [by rewrite app_nil_r|]. split; [by right|done|done|lia]. }
  destruct (PGROUNDDOWN_page src Hsrc) as (Hal & Hpg & Hva). set (va := PGROUNDDOWN src) in *.
  rewrite (bind_Ret _ _ _ _ _ (walkaddr_eq R r va k l Hk Hr Hva)). fold (pte_bit (pte (mem k) r va) PTE_U).
  destruct ((va <? MAXVA) && pte_valid (pte (mem k) r va) && pte_bit (pte (mem k) r va) PTE_U) eqn:Hus.
  2:{ exists (-1), []. split; [by rewrite app_nil_r|]. split; [by right|done|done|]. intros n _ _ Hall.
      destruct (Hall va) as (Hlt & Hvd & HU); [unfold touches; lia|].
      rewrite (proj2 (Z.ltb_lt va MAXVA)), Hvd, HU in Hus by done. done. }
  apply andb_true_iff in Hus as [[Hlt%Z.ltb_lt Hvd]%andb_true_iff HU].
  destruct (usable_page va k l Hk Hpv Hal ltac:(lia) (conj Hvd HU)) as (Hu & _ & Hok).
  pose proof (page_ok_pos _ Hok). rewrite (proj2 (Z.eqb_neq _ 0)) by lia. rewrite bind_gets.
  set (m := Z.min (PGSIZE - (src - va)) max).
  destruct (copyinstr_page _ _ _) as [b1 got] eqn:E1. destruct (copyinstr_page_spec _ _ _ _ _ E1) as (Hl1 & Hb1 & Hg).
  rewrite ubytes_page in Hb1 by (done || (unfold m in *; lia)).
  destruct got.
  { exists 0, b1. split; [done|]. split; [by left| | |done].
    - intros _. split; [done|]. split; [unfold m in *; lia|done].
    - intros _ va' Hv'. rewrite (only_page src va va' m) in * by (done || (unfold m in *; lia) || (unfold touches in *; lia)). done. }
  rewrite (u64_small (va + PGSIZE)).
  2:{ change MAXVA with (2 ^ 38) in Hlt. unfold PGSIZE. lia. }
  destruct (IH (dst ++ b1) (va + PGSIZE) (max - m)) as (x & bs & E & [R1 R2 Rp R3]); try done;
    [unfold PGSIZE; lia|unfold m, PGSIZE in *; lia|].
  exists x, (b1 ++ bs). split; [by rewrite E, app_assoc|]. destruct Hg as [El1 Hnz]. split; [done| | |].
  - intros Hx. destruct (R2 Hx) as ((s & -> & Hs) & Hlen & Hbs). split.
    { exists (b1 ++ s). split; [by rewrite app_assoc|by apply Forall_app]. }
    assert (0 < Z.of_nat (length (s ++ [0]))) as Hsl by (rewrite length_app; cbn [length]; lia).
    rewrite length_app, ubytes_app, <- Hb1. split; [unfold m in *; lia|]. f_equal. rewrite Hbs at 1. f_equal. unfold m in *; lia.
  - intros Hx va' Hv'. destruct (R2 Hx) as (_ & Hlen & _). rewrite length_app in Hv'.
    destruct (decide (va' = va)) as [->|Hne]; [done|]. apply (Rp Hx). unfold touches in *.
    clear -Hv' Hne Hal Hpg El1 Hlen. unfold m, PGSIZE in *. zlia.
  - intros n Hn Ez Hall. assert (m <= Z.of_nat n) as Hmn.
    { apply Z.le_ngt. intros Hlt'. rewrite Forall_forall in Hnz. apply (Hnz 0); [|done].
      rewrite Hb1, <- Ez. apply ubytes_elem. lia. }
    apply (R3 (n - Z.to_nat m)%nat); [lia| |].
    + rewrite <- Ez. f_equal. unfold m in *; lia.
    + intros va' (Hl' & Ha' & Hv1 & Hv2). apply Hall. unfold touches.
      clear -Hl' Ha' Hal Hv1 Hv2 Hpg Hn Hmn. unfold m, PGSIZE in *; zlia.
Qed.
End copy.

(** C13. Data written to a process stays in it.  [copyout] always returns 0 or
    -1.  It changes no byte of any process outside the range asked for, nor any
    page that is neither the process's, a page table or free.  On 0 the range
    holds the data.  It returns 0 if every page of the range is writable or
    still to be allocated, with three free pages for each. *)
Theorem copyout_writes_range {L : Linker} {LO : LinkerOk L} R p r dst src k l :
  r ∈ R -> vm_ok R k l -> proc_vm p r k -> 0 <= dst ->
  ∃ x k' l', copyout r dst src k = Ret x k' ∧ vm_ok R k' l' ∧ (x = 0 ∨ x = -1) ∧
    (∀ r' a, r' ∈ R -> 0 <= a < TRAPFRAME -> ¬ (r' = r ∧ dst <= a < dst + Z.of_nat (length src)) ->
       umem (mem k') r' a = umem (mem k) r' a) ∧
    (∀ q, q mod PGSIZE = 0 -> q ∉ l -> (∀ r' q', r' ∈ R -> path_ok q' -> page_of (mem k) (UNode r' q') ≠ Some q) ->
       (∀ va, uva va -> page_of (mem k) (UFrame r va) ≠ Some q) -> same_page (mem k) (mem k') q) ∧
    (x = 0 -> ∀ i b, src !! i = Some b -> umem (mem k') r (dst + Z.of_nat i) = u8 b) ∧
    (∀ n, (∀ va, touches dst (Z.of_nat (length src)) va -> writable r (mem k) va ∨ lazy p r k va) ->
       pages dst (Z.of_nat (length src)) n -> (3 * n <= length l)%nat -> x = 0).
Proof.
  intros Hr Hk Hpv Hdst.
  destruct (copyout_loop_spec R p r Hr (S (length src)) dst src k l Hk Hpv Hdst ltac:(lia)) as (x & k' & l' & E & [C1 C2 C3 C4 _ C6]).
  exists x, k', l'. split; [exact E|]. split; [apply C1|]. split; [done|]. split; [done|]. split; [apply C1|].
  split; [|done]. intros Hx i b Hi. pose proof (lookup_lt_Some _ _ _ Hi).
  destruct (C4 Hx (dst + Z.of_nat i)) as [_ ->]; [lia|]. f_equal. rewrite list_lookup_total_alt.
  by replace (Z.to_nat (dst + Z.of_nat i - dst)) with i by lia; rewrite Hi.
Qed.

(** C14. What [copyout] has written, [copyin] reads back. *)
Theorem copyout_copyin {L : Linker} {LO : LinkerOk L} R p r dst src k l :
  r ∈ R -> vm_ok R k l -> proc_vm p r k -> 0 <= dst -> Forall (λ b, 0 <= b < 256) src ->
  ∃ x k1, copyout r dst src k = Ret x k1 ∧
    (x = 0 -> ∃ k2, copyin r dst (Z.of_nat (length src)) k1 = Ret (0, src) k2).
Proof.
  intros Hr Hk Hpv Hdst Hsrc.
  destruct (copyout_loop_spec R p r Hr (S (length src)) dst src k l Hk Hpv Hdst ltac:(lia)) as (x & k1 & l1 & E & [C1 _ _ C4 C5 _]).
  exists x, k1. split; [exact E|]. intros Hx. unfold copyin.
  destruct (copyin_loop_spec R p r Hr (S (Z.to_nat (Z.of_nat (length src)))) [] dst (Z.of_nat (length src)) k1 l1
    (wr_ok _ _ _ _ _ _ _ C1) (wr_proc _ _ _ _ _ _ _ C1) Hdst) as (y & bs & k2 & l2 & E2 & [_ _ _ D4 D5]); [lia|].
  exists k2. assert (y = 0) as Hy by (apply D5; intros va Hva; destruct (C5 Hx va Hva) as [? ?]; split; [lia|done]).
  destruct (D4 Hy) as [-> _]. rewrite E2, Hy, Nat2Z.id. cbn [app]. do 2 f_equal. by apply ubytes_eq, C4.
Qed.

(** The process can read a string of fewer than [max] bytes at [src]: there is a
    NUL, and all pages up to it are mapped for the user. *)
Definition has_string (r : Z) (m : memory) (src max : Z) : Prop :=
  ∃ n, Z.of_nat n < max ∧ umem m r (src + Z.of_nat n) = 0 ∧
    ∀ va, touches src (Z.of_nat n + 1) va -> va < MAXVA ∧ usable r m va.

(** C15. [copyinstr] changes nothing.  It returns 0 exactly if the process has a
    string at the address, with its NUL within [max] bytes and all pages up to
    it valid and the user's; it has then copied the string up to and including
    the NUL.  Otherwise it returns -1. *)
Theorem copyinstr_copies_string {L : Linker} {LO : LinkerOk L} R p r src max k l :
  r ∈ R -> vm_ok R k l -> proc_vm p r k -> 0 <= src ->
  ∃ x bs, copyinstr r src max k = Ret (x, bs) k ∧
    (x = 0 ∧ has_string r (mem k) src max ∧ cstring bs ∧ Z.of_nat (length bs) <= max ∧
       (∀ va, touches src (Z.of_nat (length bs)) va -> va < MAXVA ∧ usable r (mem k) va) ∧
       (∀ i b, bs !! i = Some b -> umem (mem k) r (src + Z.of_nat i) = b)
     ∨ x = -1 ∧ ¬ has_string r (mem k) src max).
Proof.
  intros Hr Hk Hpv Hsrc. unfold copyinstr.
  destruct (copyinstr_loop_spec R p r Hr (S (Z.to_nat max)) [] src max k l Hk Hpv Hsrc) as (x & bs & E & [C1 C2 Cp C3]); [lia|].
  exists x, bs. split; [exact E|]. destruct C1 as [-> | ->].
  - left. destruct (C2 eq_refl) as (Hs & Hl & Hb). specialize (Cp eq_refl).
    assert (∀ i b, bs !! i = Some b -> umem (mem k) r (src + Z.of_nat i) = b) as Hum
      by (intros i b Hi; rewrite Hb in Hi; by apply ubytes_lookup in Hi).
    split_and!; try done. destruct Hs as (s & -> & Hs). rewrite length_app in *. cbn [length] in *.
    exists (length s). split_and!; [lia| |].
    + apply Hum. by rewrite lookup_app_r, Nat.sub_diag.
    + intros va Hva. apply Cp. unfold touches in *. lia.
  - right. split; [done|]. intros (n & Hn & Ez & Hp). specialize (C3 n Hn Ez Hp). discriminate.
Qed.

(** ** An example *)

(** A process with one page that is still to be allocated. *)
Definition demo_run : kernel :=
  demo_vm <| procs ::= upd 0 (λ q, q <| p_pagetable := demo_page 0 |> <| p_sz := PGSIZE |>) |>
          <| mach ::= λ m, m <| m_cpus ::= upd 0 (λ c, c <| c_proc := Some 0%nat |>) |> |>.

Lemma demo_run_ok : vm_ok demo_roots demo_run demo_free ∧ proc_vm 0 (demo_page 0) demo_run ∧
  lazy 0 (demo_page 0) demo_run 0 ∧ demo_page 0 ∈ demo_roots.
Proof.
  destruct demo_vm_ok as [[Kf [[H1 H2 H3 H4] Kl] Ki] Hp]. assert (demo_page 0 ∈ demo_roots) as H0 by left.
  assert (mem demo_run = mem demo_vm) as Em by reflexivity.
  split; [split|split; [split|split; [split|exact H0]]].
  - destruct Kf as [K1 K2 K3]. split; [exact K1|exact K2|exact K3].
  - split; [split; [apply (bool_decide_unpack _); reflexivity..|split; [discriminate|reflexivity]|intros Hlt; discriminate Hlt]|exact Kl].
  - rewrite Em. exact Ki.
  - reflexivity.
  - reflexivity.
  - split; vm_compute; discriminate.
  - intros va _ _. rewrite Em, (Hp _ va H0). reflexivity.
  - reflexivity.
  - rewrite Em, (Hp _ 0 H0). reflexivity.
Qed.

(** The process's page is enough for the string written there. *)
Lemma demo_total (src : list Z) : 0 < Z.of_nat (length src) <= PGSIZE - 100 ->
  (∀ va, touches 100 (Z.of_nat (length src)) va ->
     writable (demo_page 0) (mem demo_run) va ∨ lazy 0 (demo_page 0) demo_run va) ∧
  pages 100 (Z.of_nat (length src)) 1 ∧ (3 * 1 <= length demo_free)%nat.
Proof.
  intros Hl. destruct demo_run_ok as (_ & _ & Hz & _). split; [|split].
  - intros va (_ & Hal & Hv1 & Hv2). right. assert (va = 0) as -> by (unfold PGSIZE in *; zlia). exact Hz.
  - unfold pages. change (PGROUNDDOWN 100) with 0. lia.
  - cbn. lia.
Qed.

Lemma copyout_writes_range_witness : ∃ k',
  copyout (demo_page 0) 100 [104; 105; 0] demo_run = Ret 0 k' ∧ umem (mem k') (demo_page 0) 101 = 105.
Proof.
  destruct demo_run_ok as (Hk & Hpv & _ & Hr). destruct (demo_total [104; 105; 0]) as (T1 & T2 & T3); [by vm_compute|].
  destruct (copyout_writes_range demo_roots 0 (demo_page 0) 100 [104; 105; 0] demo_run demo_free Hr Hk Hpv)
    as (x & k' & l' & E & _ & _ & _ & _ & Hd & Ht); [discriminate|].
  pose proof (Ht 1%nat T1 T2 T3) as ->. exists k'. split; [exact E|]. exact (Hd eq_refl 1%nat 105 eq_refl).
Defined.

Lemma copyout_copyin_witness : ∃ x k1, copyout (demo_page 0) 100 [104; 105; 0] demo_run = Ret x k1 ∧
  (x = 0 -> ∃ k2, copyin (demo_page 0) 100 3 k1 = Ret (0, [104; 105; 0]) k2).
Proof.
  destruct demo_run_ok as (Hk & Hpv & _ & Hr).
  apply (copyout_copyin demo_roots 0 (demo_page 0) 100 [104; 105; 0] demo_run demo_free Hr Hk Hpv); [discriminate|].
  repeat constructor; lia.
Defined.

Lemma copyinstr_copies_string_witness : ∃ k1 bs,
  copyinstr (demo_page 0) 100 16 k1 = Ret (0, bs) k1 ∧ cstring bs.
Proof.
  destruct demo_run_ok as (Hk & Hpv & _ & Hr). destruct (demo_total [104; 105; 0]) as (T1 & T2 & T3); [by vm_compute|].
  destruct (copyout_loop_spec demo_roots 0 (demo_page 0) Hr 4 100 [104; 105; 0] demo_run demo_free Hk Hpv)
    as (x & k1 & l1 & E & [C1 _ _ C4 C5 C6]); [discriminate|cbn; lia|].
  pose proof (C6 1%nat T1 T2 T3) as ->.
  destruct (copyinstr_copies_string demo_roots 0 (demo_page 0) 100 16 k1 l1 Hr (wr_ok _ _ _ _ _ _ _ C1) (wr_proc _ _ _ _ _ _ _ C1))
    as (x & bs & E2 & [(-> & _ & Hd & _)|[_ Hno]]); [discriminate|exists k1, bs; by split|].
  exfalso. apply Hno. exists 2%nat. split; [reflexivity|]. split.
  - destruct (C4 eq_refl (100 + Z.of_nat 2)) as [_ ->]; [cbn; lia|]. reflexivity.
  - intros va Hva. destruct (C5 eq_refl va Hva) as [[_ ?] ?]. split; [assumption|assumption].
Defined.
