(* ===== verification/Proc.v ===== *)
(** * Processes: [kernel/proc.c]

    The operations of the process table that do not involve the file system.
    [swtch] gives up the CPU; what the rest of the system does until the
    scheduler resumes the process is the parameter [w_run], and a run that is
    never resumed has the outcome [Switch].  What [sched], [yield] and [sleep]
    do once resumed is [sched_ret], [yield_ret] and [sleep_ret].
    A null [struct proc *] is dereferenced only on a kernel page fault, on
    which [kerneltrap] panics. *)
From S2P Require Import Prelude Layout KState Spinlock CString Kalloc Vm.

(** ** Multi-level feedback queue *)

Definition MLFQ_HIGH : Z := 0.
Definition MLFQ_MEDIUM : Z := 1.
Definition MLFQ_LOW : Z := 2.
Definition TIMESLICE_HIGH : Z := 4.
Definition TIMESLICE_MEDIUM : Z := 8.
Definition TIMESLICE_LOW : Z := 16.
Definition STARVATION_THRESHOLD : Z := 200.

Definition get_timeslice (priority : Z) : Z :=
  if priority =? MLFQ_HIGH then TIMESLICE_HIGH
  else if priority =? MLFQ_MEDIUM then TIMESLICE_MEDIUM
  else if priority =? MLFQ_LOW then TIMESLICE_LOW
  else TIMESLICE_LOW.

Definition init_mlfq_fields (ticks : Z) (p : proc) : proc :=
  p <| p_priority := MLFQ_HIGH |>
    <| p_timeslice := get_timeslice MLFQ_HIGH |>
    <| p_timeslice_used := 0 |>
    <| p_cpu_ticks := 0 |>
    <| p_sched_count := 0 |>
    <| p_yielded_io := 0 |>
    <| p_start_time := ticks |>
    <| p_end_time := 0 |>
    <| p_first_run := 0 |>
    <| p_total_wait := 0 |>
    <| p_last_scheduled := ticks |>.
Definition init_mlfq_proc (p : nat) : M () :=
  t ← gets ticks;
  write_proc p (init_mlfq_fields t).

Definition boost_proc (p : proc) : proc :=
  if bool_decide (p_state p = RUNNABLE) || bool_decide (p_state p = RUNNING) then
    p <| p_priority := MLFQ_HIGH |>
      <| p_timeslice := get_timeslice MLFQ_HIGH |>
      <| p_timeslice_used := 0 |>
  else p.
Definition boost_all_priorities : M () :=
  for_each (seq 0 NPROC) (λ p, write_proc p boost_proc).

(** The part of [mlfq_tick] that charges the running process. *)
Definition tick_proc (p : proc) : proc :=
  if bool_decide (p_state p = RUNNING) then
    let p := p <| p_cpu_ticks := i32 (p_cpu_ticks p + 1) |>
               <| p_timeslice_used := i32 (p_timeslice_used p + 1) |> in
    if p_timeslice p <=? p_timeslice_used p then
      let p :=
        if p_priority p <? MLFQ_LOW then
          let p := p <| p_priority := i32 (p_priority p + 1) |> in
          p <| p_timeslice := get_timeslice (p_priority p) |>
        else p in
      p <| p_yielded_io := 0 |> <| p_timeslice_used := 0 |> <| p_state := RUNNABLE |>
    else p
  else p.
Definition mlfq_tick : M () :=
  p ← myproc;
  modify (λ k, k <| starvation_counter := i32 (starvation_counter k + 1) |>) ;;
  c ← gets starvation_counter;
  when (STARVATION_THRESHOLD <=? c)
    (boost_all_priorities ;;
     modify (λ k, k <| starvation_counter := 0 |>)) ;;
  match p with
  | Some p => write_proc p tick_proc
  | None => mret ()
  end.

(** ** Scheduling *)

(** The fields the scheduler writes when it has found a process. *)
Definition dispatch_proc (ticks : Z) (p : proc) : proc :=
  let p := p <| p_state := RUNNING |> <| p_sched_count := i32 (p_sched_count p + 1) |> in
  let p := if p_first_run p =? 0 then p <| p_first_run := ticks |> else p in
  p <| p_total_wait := u64 (p_total_wait p + u64 (ticks - p_last_scheduled p)) |>.

(** The body of the scheduler's inner loop up to the [swtch] into [p], whose
    lock is then held, or to the end of the body. *)
Definition scheduler_try (priority : Z) (p : nat) : M (option nat) :=
  acquire (LkProc p) ;;
  st ← read_proc p p_state;
  pr ← read_proc p p_priority;
  if bool_decide (st = RUNNABLE) && (pr =? priority) then
    t ← gets ticks;
    write_cpu (λ c, c <| c_proc := Some p |>) ;;
    write_proc p (dispatch_proc t) ;;
    mret (Some p)
  else
    release (LkProc p) ;;
    mret None.

(** One pass of the scheduler's [for(;;)], up to the [swtch] into the process
    it found, or to [wfi] with [None]. *)
Definition scheduler_pass : M (option nat) :=
  intr_on ;;
  intr_off ;;
  for_first [MLFQ_HIGH; MLFQ_MEDIUM; MLFQ_LOW] (λ priority,
    for_first (seq 0 NPROC) (λ p, scheduler_try priority p)).

(** [c->proc = 0], before the [for(;;)]. *)
Definition scheduler_init : M () := write_cpu (λ c, c <| c_proc := None |>).

(** From the return of that [swtch] to the head of the [for(;;)]. *)
Definition scheduler_ret (p : nat) : M () :=
  t ← gets ticks;
  write_proc p (λ p, p <| p_last_scheduled := t |>) ;;
  write_cpu (λ c, c <| c_proc := None |>) ;;
  release (LkProc p).

Section sched.
Context {W : World}.

(** [swtch(&p->context, &mycpu()->context)]: the call returns when the
    scheduler switches back to [p]. *)
Definition swtch : M () := λ k,
  match w_run k with
  | Some k' => Ret () k'
  | None => Switch k
  end.

(** After the [swtch]. *)
Definition sched_ret (intena : Z) : M () :=
  write_cpu (λ c, c <| c_intena := intena |>).
Definition sched : M () :=
  p ← myproc;
  match p with
  | None => panic "kerneltrap"
  | Some p =>
      h ← holding (LkProc p);
      if negb h then panic "sched p->lock" else
      noff ← read_cpu c_noff;
      if negb (noff =? 1) then panic "sched locks" else
      st ← read_proc p p_state;
      if bool_decide (st = RUNNING) then panic "sched RUNNING" else
      on ← intr_get;
      if on : bool then panic "sched interruptible" else
      intena ← read_cpu c_intena;
      swtch ;;
      sched_ret intena
  end.

Definition yield : M () :=
  p ← myproc;
  match p with
  | None => panic "kerneltrap"
  | Some p =>
      acquire (LkProc p) ;;
      st ← read_proc p p_state;
      when (bool_decide (st = RUNNING)) (write_proc p (λ p, p <| p_yielded_io := 1 |>)) ;;
      write_proc p (λ p, p <| p_state := RUNNABLE |>) ;;
      sched ;;
      release (LkProc p)
  end.
Definition yield_ret (p : nat) (intena : Z) : M () :=
  sched_ret intena ;;
  release (LkProc p).

Definition sleep (ch : chan) (lk : lockid) : M () :=
  p ← myproc;
  match p with
  | None => panic "kerneltrap"
  | Some p =>
      acquire (LkProc p) ;;
      release lk ;;
      write_proc p (λ p, p <| p_chan := Some ch |>) ;;
      write_proc p (λ p, p <| p_state := SLEEPING |>) ;;
      sched ;;
      write_proc p (λ p, p <| p_chan := None |>) ;;
      release (LkProc p) ;;
      acquire lk
  end.
Definition sleep_ret (p : nat) (lk : lockid) (intena : Z) : M () :=
  sched_ret intena ;;
  write_proc p (λ p, p <| p_chan := None |>) ;;
  release (LkProc p) ;;
  acquire lk.
End sched.

Definition wakeup_proc (ch : option chan) (p : proc) : proc :=
  if bool_decide (p_state p = SLEEPING) && bool_decide (p_chan p = ch)
  then p <| p_state := RUNNABLE |> else p.
Definition wakeup (ch : option chan) : M () :=
  for_each (seq 0 NPROC) (λ p,
    me ← myproc;
    when (bool_decide (me ≠ Some p))
      (acquire (LkProc p) ;;
       write_proc p (wakeup_proc ch) ;;
       release (LkProc p))).

(** ** Killing *)

Definition kkill (pid : Z) : M Z :=
  r ← for_first (seq 0 NPROC) (λ p,
        acquire (LkProc p) ;;
        pid' ← read_proc p p_pid;
        if pid' =? pid then
          write_proc p (λ p, p <| p_killed := 1 |>) ;;
          st ← read_proc p p_state;
          when (bool_decide (st = SLEEPING)) (write_proc p (λ p, p <| p_state := RUNNABLE |>)) ;;
          release (LkProc p) ;;
          mret (Some 0)
        else
          release (LkProc p) ;;
          mret None);
  match r with Some v => mret v | None => mret (-1) end.

Definition setkilled (p : nat) : M () :=
  acquire (LkProc p) ;;
  write_proc p (λ p, p <| p_killed := 1 |>) ;;
  release (LkProc p).

Definition killed (p : nat) : M Z :=
  acquire (LkProc p) ;;
  k ← read_proc p p_killed;
  release (LkProc p) ;;
  mret k.

(** ** Allocation *)

Section proc.
Context {L : Linker} {W : World}.

Definition procinit : M () :=
  initlock LkPid ;;
  initlock LkWait ;;
  for_each (seq 0 NPROC) (λ p,
    initlock (LkProc p) ;;
    write_proc p (λ r, r <| p_state := UNUSED |>) ;;
    write_proc p (λ r, r <| p_kstack := KSTACK (Z.of_nat p) |>)).

Definition allocpid : M Z :=
  acquire LkPid ;;
  pid ← gets nextpid;
  modify (λ k, k <| nextpid := i32 (nextpid k + 1) |>) ;;
  release LkPid ;;
  mret pid.

Definition proc_pagetable (p : nat) : M Z :=
  pagetable ← uvmcreate;
  if pagetable =? 0 then mret 0 else
  r ← mappages pagetable TRAMPOLINE PGSIZE l_trampoline (Z.lor PTE_R PTE_X);
  if r <? 0 then
    uvmfree pagetable 0 ;;
    mret 0
  else
    tf ← read_proc p p_trapframe;
    r ← mappages pagetable TRAPFRAME PGSIZE tf (Z.lor PTE_R PTE_W);
    if r <? 0 then
      uvmunmap pagetable TRAMPOLINE 1 false ;;
      uvmfree pagetable 0 ;;
      mret 0
    else mret pagetable.

Definition proc_freepagetable (pagetable sz : Z) : M () :=
  uvmunmap pagetable TRAMPOLINE 1 false ;;
  uvmunmap pagetable TRAPFRAME 1 false ;;
  uvmfree pagetable sz.

Definition freeproc (p : nat) : M () :=
  tf ← read_proc p p_trapframe;
  when (negb (tf =? 0)) (kfree tf) ;;
  write_proc p (λ p, p <| p_trapframe := 0 |>) ;;
  pt ← read_proc p p_pagetable;
  sz ← read_proc p p_sz;
  when (negb (pt =? 0)) (proc_freepagetable pt sz) ;;
  write_proc p (λ p,
    p <| p_pagetable := 0 |> <| p_sz := 0 |> <| p_pid := 0 |> <| p_parent := None |>
      <| p_name ::= upd 0 (λ _, 0) |> <| p_chan := None |> <| p_killed := 0 |>
      <| p_xstate := 0 |> <| p_state := UNUSED |>).

(** [found:], for the slot [p] whose lock is held: up to [init_mlfq_proc], and
    from there. *)
Definition allocproc_slot (p : nat) : M () :=
  pid ← allocpid;
  write_proc p (λ p, p <| p_pid := pid |>) ;;
  write_proc p (λ p, p <| p_state := USED |>) ;;
  init_mlfq_proc p.
Definition allocproc_found (p : nat) : M (option nat) :=
  allocproc_slot p ;;
  tf ← kalloc;
  write_proc p (λ p, p <| p_trapframe := tf |>) ;;
  if tf =? 0 then
    freeproc p ;;
    release (LkProc p) ;;
    mret None
  else
    pt ← proc_pagetable p;
    write_proc p (λ p, p <| p_pagetable := pt |>) ;;
    if pt =? 0 then
      freeproc p ;;
      release (LkProc p) ;;
      mret None
    else
      write_proc p (λ p, p <| p_context :=
        mk_context l_forkret (p_kstack p + PGSIZE) (replicate 12 0) |>) ;;
      mret (Some p).

Definition allocproc : M (option nat) :=
  r ← for_first (seq 0 NPROC) (λ p,
        acquire (LkProc p) ;;
        st ← read_proc p p_state;
        if bool_decide (st = UNUSED) then mret (Some p)
        else
          release (LkProc p) ;;
          mret None);
  match r with
  | None => mret None
  | Some p => allocproc_found p
  end.

Definition growproc (n : Z) : M Z :=
  p ← myproc;
  match p with
  | None => panic "kerneltrap"
  | Some p =>
      sz ← read_proc p p_sz;
      pt ← read_proc p p_pagetable;
      if 0 <? n then
        if TRAPFRAME <? u64 (sz + n) then mret (-1) else
        sz ← uvmalloc pt sz (u64 (sz + n)) PTE_W;
        if sz =? 0 then mret (-1) else
        write_proc p (λ p, p <| p_sz := sz |>) ;;
        mret 0
      else
        sz ← (if n <? 0 then uvmdealloc pt sz (u64 (sz + n)) else mret sz);
        write_proc p (λ p, p <| p_sz := sz |>) ;;
        mret 0
  end.

(** ** Parents and children *)

Definition reparent (p : nat) : M () :=
  for_each (seq 0 NPROC) (λ pp,
    par ← read_proc pp p_parent;
    when (bool_decide (par = Some p))
      (ip ← gets initproc;
       write_proc pp (λ q, q <| p_parent := ip |>) ;;
       wakeup (ChProc <$> ip))).

(** The scan of the table: the value to return, if it returns, and
    [havekids]. *)
Fixpoint kwait_scan (l : list nat) (p : nat) (addr : Z) (havekids : bool) : M (option Z * bool) :=
  match l with
  | [] => mret (None, havekids)
  | pp :: l' =>
      par ← read_proc pp p_parent;
      if bool_decide (par = Some p) then
        acquire (LkProc pp) ;;
        st ← read_proc pp p_state;
        if bool_decide (st = ZOMBIE) then
          pid ← read_proc pp p_pid;
          pt ← read_proc p p_pagetable;
          xs ← read_proc pp p_xstate;
          r ← (if negb (addr =? 0) then copyout pt addr (le_bytes 4 (u32 xs)) else mret 0);
          if r <? 0 then
            release (LkProc pp) ;;
            release LkWait ;;
            mret (Some (-1), true)
          else
            freeproc pp ;;
            release (LkProc pp) ;;
            release LkWait ;;
            mret (Some pid, true)
        else
          release (LkProc pp) ;;
          kwait_scan l' p addr true
      else kwait_scan l' p addr havekids
  end.
(** One round of [for(;;)]: the value to return, or [None] to go on. *)
Definition kwait_round (p : nat) (addr : Z) : M (option Z) :=
  r ← kwait_scan (seq 0 NPROC) p addr false;
  match r with
  | (Some v, _) => mret (Some v)
  | (None, havekids) =>
      k ← (if havekids : bool then killed p else mret 1);
      if negb (k =? 0) then
        release LkWait ;;
        mret (Some (-1))
      else
        sleep (ChProc p) LkWait ;;
        mret None
  end.
Definition kwait (addr : Z) : M Z :=
  p ← myproc;
  acquire LkWait ;;
  match p with
  | None => panic "kerneltrap"
  | Some p => loop w_fuel (kwait_round p addr)
  end.

(** ** Copying on behalf of the current process *)

(** With [user_dst = 0], [dst] is memory of the kernel. *)
Definition either_copyout (user_dst : bool) (dst : Z) (src : list Z) : M Z :=
  p ← myproc;
  if user_dst then
    match p with
    | None => panic "kerneltrap"
    | Some p =>
        pt ← read_proc p p_pagetable;
        copyout pt dst src
    end
  else
    modify (λ k, k <| mem ::= write_bytes dst src |>) ;;
    mret 0.

Definition either_copyin (user_src : bool) (src len : Z) : M (Z * list Z) :=
  p ← myproc;
  if user_src then
    match p with
    | None => panic "kerneltrap"
    | Some p =>
        pt ← read_proc p p_pagetable;
        copyin pt src len
    end
  else
    bs ← gets (λ k, bytes (Z.to_nat len) (mem k) src);
    mret (0, bs).

(** ** [getprocinfo] *)

(** The bytes of a [struct procinfo]: five [int]s, four bytes of padding the
    compiler inserts, whose content the code leaves as it was, four
    [uint64]s. *)
Definition procinfo_bytes (pad : list Z) (i : procinfo) : list Z :=
  le_bytes 4 (u32 (pi_pid i)) ++ le_bytes 4 (u32 (pi_priority i)) ++
  le_bytes 4 (u32 (pi_cpu_ticks i)) ++ le_bytes 4 (u32 (pi_sched_count i)) ++
  le_bytes 4 (u32 (pi_timeslice_used i)) ++ pad ++
  le_bytes 8 (pi_start_time i) ++ le_bytes 8 (pi_end_time i) ++
  le_bytes 8 (pi_first_run i) ++ le_bytes 8 (pi_total_wait i).

Definition procinfo_of (p : proc) : procinfo :=
  mk_procinfo (p_pid p) (p_priority p) (p_cpu_ticks p) (p_sched_count p)
    (p_timeslice_used p) (p_start_time p) (p_end_time p) (p_first_run p) (p_total_wait p).

Definition getprocinfo (pid addr : Z) : M Z :=
  current ← myproc;
  r ← for_first (seq 0 NPROC) (λ p,
        acquire (LkProc p) ;;
        pr ← gets (λ k, procs k !!! p);
        if (p_pid pr =? pid) && bool_decide (p_state pr ≠ UNUSED) then
          release (LkProc p) ;;
          match current with
          | None => panic "kerneltrap"
          | Some c =>
              pt ← read_proc c p_pagetable;
              r ← copyout pt addr (procinfo_bytes w_pad (procinfo_of pr));
              if r <? 0 then mret (Some (-1)) else mret (Some 0)
          end
        else
          release (LkProc p) ;;
          mret None);
  match r with Some v => mret v | None => mret (-1) end.

End proc.
