(* ===== verification/Uart.v ===== *)
(** * The UART and kernel output: [kernel/uart.c], [kernel/printf.c]

    A device register is read through the parameter [w_uart] and written to the
    trace [mmio].  [consputc] of [kernel/console.c] and [procdump] of
    [kernel/proc.c] are here because [printf] calls the one and the console
    the other. *)
From Stdlib Require Import Ascii String.
From S2P Require Import Prelude Layout KState Spinlock CString Vm Proc.

(** ** Registers *)

Definition RHR : Z := 0.
Definition THR : Z := 0.
Definition IER : Z := 1.
Definition IER_RX_ENABLE : Z := Z.shiftl 1 0.
Definition IER_TX_ENABLE : Z := Z.shiftl 1 1.
Definition FCR : Z := 2.
Definition FCR_FIFO_ENABLE : Z := Z.shiftl 1 0.
Definition FCR_FIFO_CLEAR : Z := Z.shiftl 3 1.
Definition ISR : Z := 2.
Definition LCR : Z := 3.
Definition LCR_EIGHT_BITS : Z := Z.shiftl 3 0.
Definition LCR_BAUD_LATCH : Z := Z.shiftl 1 7.
Definition LSR : Z := 5.
Definition LSR_RX_READY : Z := Z.shiftl 1 0.
Definition LSR_TX_IDLE : Z := Z.shiftl 1 5.

Definition BACKSPACE : Z := 0x100.

(** A store to a device register. *)
Definition io_write (a v : Z) : M () := modify (λ k, k <| mmio ::= λ l, l ++ [(a, v)] |>).

Section uart.
Context {W : World}.

Definition ReadReg (reg : Z) : M Z :=
  n ← gets uart_reads;
  modify (λ k, k <| uart_reads ::= S |>) ;;
  mret (u8 (w_uart n reg)).
Definition WriteReg (reg v : Z) : M () := io_write (UART0 + reg) (u8 v).

Definition uartinit : M () :=
  WriteReg IER 0x00 ;;
  WriteReg LCR LCR_BAUD_LATCH ;;
  WriteReg 0 0x03 ;;
  WriteReg 1 0x00 ;;
  WriteReg LCR LCR_EIGHT_BITS ;;
  WriteReg FCR (Z.lor FCR_FIFO_ENABLE FCR_FIFO_CLEAR) ;;
  WriteReg IER (Z.lor IER_TX_ENABLE IER_RX_ENABLE) ;;
  initlock LkTx.

(** [while(tx_busy != 0) sleep(&tx_chan, &tx_lock);] *)
Definition uart_wait : M () :=
  loop w_fuel
    (b ← gets tx_busy;
     if b =? 0 then mret (Some ()) else
     sleep ChTx LkTx ;;
     mret None).
Definition uartwrite (buf : list Z) : M () :=
  acquire LkTx ;;
  for_each buf (λ c,
    uart_wait ;;
    WriteReg THR c ;;
    modify (λ k, k <| tx_busy := 1 |>)) ;;
  release LkTx.

Definition uartputc_sync (c : Z) : M () :=
  p ← gets panicking;
  when (p =? 0) push_off ;;
  q ← gets panicked;
  if negb (q =? 0) then spin else
  loop w_fuel
    (x ← ReadReg LSR;
     mret (if Z.land x LSR_TX_IDLE =? 0 then None else Some ())) ;;
  WriteReg THR c ;;
  p ← gets panicking;
  when (p =? 0) pop_off.

Definition uartgetc : M Z :=
  x ← ReadReg LSR;
  if negb (Z.land x LSR_RX_READY =? 0) then ReadReg RHR else mret (-1).

(** [kernel/console.c] *)
Definition consputc (c : Z) : M () :=
  if c =? BACKSPACE then
    uartputc_sync 8 ;;
    uartputc_sync (ch " ") ;;
    uartputc_sync 8
  else uartputc_sync c.

(** ** Formatted output *)

Definition digits : list Z := str "0123456789abcdef".

(** [do buf[i++] = digits[x % base]; while((x /= base) != 0);] with the digits
    least significant first; a 64-bit number has at most 64 of them. *)
Fixpoint printint_loop (fuel : nat) (ds : list Z) (x base : Z) : list Z :=
  match fuel with
  | O => []
  | S fuel' =>
      (ds !!! Z.to_nat (x mod base)) ::
      (if x / base =? 0 then [] else printint_loop fuel' ds (x / base) base)
  end.
(** The contents of [buf], from the [long long] [xx]. *)
Definition printint_buf (ds : list Z) (xx base : Z) (sign : bool) : list Z :=
  let neg := sign && (xx <? 0) in
  let x := if neg then u64 (- xx) else u64 xx in
  let buf := printint_loop 64 ds x base in
  if neg then buf ++ [ch "-"] else buf.
Definition printint (xx base : Z) (sign : bool) : M () :=
  for_each (rev (printint_buf digits xx base sign)) consputc.

Fixpoint printptr_loop (n : nat) (ds : list Z) (x : Z) : list Z :=
  match n with
  | O => []
  | S n' => (ds !!! Z.to_nat (Z.shiftr x (8 * 8 - 4))) :: printptr_loop n' ds (u64 (Z.shiftl x 4))
  end.
Definition printptr (x : Z) : M () :=
  consputc (ch "0") ;;
  consputc (ch "x") ;;
  for_each (printptr_loop 16 digits x) consputc.

(** [long long] of a [uint64] argument. *)
Definition i64 (x : Z) : Z := (x + 2 ^ 63) mod 2 ^ 64 - 2 ^ 63.

(** The characters of a C string up to its NUL. *)
Fixpoint until_nul (l : list Z) : list Z :=
  match l with
  | [] => []
  | x :: l' => if x =? 0 then [] else x :: until_nul l'
  end.

(** The loop over the format, from the part of it that is left; each round
    consumes at least one character. *)
Fixpoint printf_loop (fuel : nat) (fmt : list Z) (ap : list varg) : M () :=
  match fuel, fmt with
  | _, [] => mret ()
  | O, _ => spin
  | S fuel', cx :: fmt' =>
      if cx =? 0 then mret () else
      if negb (cx =? ch "%") then
        consputc cx ;;
        printf_loop fuel' fmt' ap
      else
        let c0 := nth 0 fmt' 0 in
        let c1 := if negb (c0 =? 0) then nth 1 fmt' 0 else 0 in
        let c2 := if negb (c1 =? 0) then nth 2 fmt' 0 else 0 in
        let a := hd (VInt 0) ap in
        let ap' := tl ap in
        if c0 =? ch "d" then
          printint (i32 (va_int a)) 10 true ;; printf_loop fuel' (drop 1 fmt') ap'
        else if (c0 =? ch "l") && (c1 =? ch "d") then
          printint (i64 (va_int a)) 10 true ;; printf_loop fuel' (drop 2 fmt') ap'
        else if (c0 =? ch "l") && (c1 =? ch "l") && (c2 =? ch "d") then
          printint (i64 (va_int a)) 10 true ;; printf_loop fuel' (drop 3 fmt') ap'
        else if c0 =? ch "u" then
          printint (u32 (va_int a)) 10 false ;; printf_loop fuel' (drop 1 fmt') ap'
        else if (c0 =? ch "l") && (c1 =? ch "u") then
          printint (i64 (va_int a)) 10 false ;; printf_loop fuel' (drop 2 fmt') ap'
        else if (c0 =? ch "l") && (c1 =? ch "l") && (c2 =? ch "u") then
          printint (i64 (va_int a)) 10 false ;; printf_loop fuel' (drop 3 fmt') ap'
        else if c0 =? ch "x" then
          printint (u32 (va_int a)) 16 false ;; printf_loop fuel' (drop 1 fmt') ap'
        else if (c0 =? ch "l") && (c1 =? ch "x") then
          printint (i64 (va_int a)) 16 false ;; printf_loop fuel' (drop 2 fmt') ap'
        else if (c0 =? ch "l") && (c1 =? ch "l") && (c2 =? ch "x") then
          printint (i64 (va_int a)) 16 false ;; printf_loop fuel' (drop 3 fmt') ap'
        else if c0 =? ch "p" then
          printptr (u64 (va_int a)) ;; printf_loop fuel' (drop 1 fmt') ap'
        else if c0 =? ch "c" then
          consputc (u32 (va_int a)) ;; printf_loop fuel' (drop 1 fmt') ap'
        else if c0 =? ch "s" then
          for_each (until_nul (default (str "(null)") (va_str a))) consputc ;;
          printf_loop fuel' (drop 1 fmt') ap'
        else if c0 =? ch "%" then
          consputc (ch "%") ;; printf_loop fuel' (drop 1 fmt') ap
        else if c0 =? 0 then mret ()
        else
          consputc (ch "%") ;;
          consputc c0 ;;
          printf_loop fuel' (drop 1 fmt') ap
  end.
Definition printf_fmt (fmt : list Z) (ap : list varg) : M () :=
  p ← gets panicking;
  when (p =? 0) (acquire LkPr) ;;
  printf_loop (length fmt) fmt ap ;;
  p ← gets panicking;
  when (p =? 0) (release LkPr).
Definition printf (fmt : string) (ap : list varg) : M () := printf_fmt (str fmt) ap.

Definition printfinit : M () := initlock LkPr.

Definition newline : list Z := [10].

(** [panic(s)]: it prints and never returns.  Code that calls it has the
    outcome [Panic] in this model. *)
Definition panic_code (s : string) : M () :=
  modify (λ k, k <| panicking := 1 |>) ;;
  printf "panic: " [] ;;
  printf_fmt (str "%s" ++ newline) [VStr (Some (str s))] ;;
  modify (λ k, k <| panicked := 1 |>) ;;
  spin.

(** [kernel/proc.c] *)
Definition state_name (s : procstate) : string :=
  match s with
  | UNUSED => "unused" | USED => "used" | SLEEPING => "sleep "
  | RUNNABLE => "runble" | RUNNING => "run   " | ZOMBIE => "zombie"
  end.
Definition procdump : M () :=
  printf_fmt newline [] ;;
  for_each (seq 0 NPROC) (λ p,
    st ← read_proc p p_state;
    if bool_decide (st = UNUSED) then mret () else
    pid ← read_proc p p_pid;
    name ← read_proc p p_name;
    printf "%d %s %s" [VInt pid; VStr (Some (str (state_name st))); VStr (Some name)] ;;
    printf_fmt newline []).
End uart.
