(* ===== verification/Console.v ===== *)
(** * The console: [kernel/console.c] and [uartintr] of [kernel/uart.c] *)
From Stdlib Require Import Ascii String.
From S2P Require Import Prelude Layout KState Spinlock CString Vm Proc Uart.

Definition INPUT_BUF_SIZE : Z := 128.
(** [C(x)], Control-x. *)
Definition C (x : ascii) : Z := ch x - ch "@".

Definition write_cons (f : console -> console) : M () := modify (λ k, k <| cons ::= f |>).

Section console.
Context {L : Linker} {W : World}.

(** The rounds of [while(i < n)], each of up to 32 bytes. *)
Fixpoint consolewrite_loop (fuel : nat) (user_src : bool) (src i n : Z) : M Z :=
  match fuel with
  | O => spin
  | S fuel' =>
      if i <? n then
        let nn := if n - i <? 32 then n - i else 32 in
        '(r, buf) ← either_copyin user_src (u64 (src + i)) nn;
        if r =? -1 then mret i else
        uartwrite buf ;;
        consolewrite_loop fuel' user_src src (i + nn) n
      else mret i
  end.
Definition consolewrite (user_src : bool) (src n : Z) : M Z :=
  consolewrite_loop (S (Z.to_nat n)) user_src src 0 n.

(** [while(cons.r == cons.w)]; [true] when the process was killed, with the
    lock released. *)
Definition cons_wait : M bool :=
  loop w_fuel
    (cs ← gets cons;
     if cs_r cs =? cs_w cs then
       p ← myproc;
       match p with
       | None => panic "kerneltrap"
       | Some p =>
           k ← killed p;
           if negb (k =? 0) then
             release LkCons ;;
             mret (Some true)
           else
             sleep ChCons LkCons ;;
             mret None
       end
     else mret (Some false)).

(** [while(n > 0)]; the result is [target - n]. *)
Fixpoint consoleread_loop (n : nat) (user_dst : bool) (dst : Z) (target : nat) : M Z :=
  match n with
  | O =>
      release LkCons ;;
      mret (Z.of_nat target)
  | S n' =>
      dead ← cons_wait;
      if dead : bool then mret (-1) else
      c ← gets (λ k, cs_buf (cons k) !!! Z.to_nat (cs_r (cons k) mod INPUT_BUF_SIZE));
      write_cons (λ cs, cs <| cs_r := u32 (cs_r cs + 1) |>) ;;
      if c =? C "D" then
        when (bool_decide (n < target)%nat) (write_cons (λ cs, cs <| cs_r := u32 (cs_r cs - 1) |>)) ;;
        release LkCons ;;
        mret (Z.of_nat target - Z.of_nat n)
      else
        r ← either_copyout user_dst dst [c];
        if r =? -1 then
          release LkCons ;;
          mret (Z.of_nat target - Z.of_nat n)
        else if c =? 10 then
          release LkCons ;;
          mret (Z.of_nat target - Z.of_nat n')
        else consoleread_loop n' user_dst (u64 (dst + 1)) target
  end.
Definition consoleread (user_dst : bool) (dst n : Z) : M Z :=
  acquire LkCons ;;
  consoleread_loop (Z.to_nat n) user_dst dst (Z.to_nat n).

(** [case C('U')]: erase back to the start of the line. *)
Definition cons_kill : M () :=
  n ← gets (λ k, Z.to_nat (u32 (cs_e (cons k) - cs_w (cons k))));
  loop (S n)
    (cs ← gets cons;
     if negb (cs_e cs =? cs_w cs) &&
        negb (cs_buf cs !!! Z.to_nat (u32 (cs_e cs - 1) mod INPUT_BUF_SIZE) =? 10)
     then
       write_cons (λ cs, cs <| cs_e := u32 (cs_e cs - 1) |>) ;;
       consputc BACKSPACE ;;
       mret None
     else mret (Some ())).

Definition cons_erase : M () :=
  cs ← gets cons;
  when (negb (cs_e cs =? cs_w cs))
    (write_cons (λ cs, cs <| cs_e := u32 (cs_e cs - 1) |>) ;;
     consputc BACKSPACE).

(** [cons.buf[cons.e++ % INPUT_BUF_SIZE] = c]. *)
Definition cons_append (c : Z) (cs : console) : console :=
  cs <| cs_buf ::= upd (Z.to_nat (cs_e cs mod INPUT_BUF_SIZE)) (λ _, u8 c) |>
     <| cs_e := u32 (cs_e cs + 1) |>.

Definition cons_input (c : Z) : M () :=
  cs ← gets cons;
  when (negb (c =? 0) && (u32 (cs_e cs - cs_r cs) <? INPUT_BUF_SIZE))
    (let c := if c =? 13 then 10 else c in
     consputc c ;;
     write_cons (cons_append c) ;;
     cs ← gets cons;
     when ((c =? 10) || (c =? C "D") || (u32 (cs_e cs - cs_r cs) =? INPUT_BUF_SIZE))
       (write_cons (λ cs, cs <| cs_w := cs_e cs |>) ;;
        wakeup (Some ChCons))).

Definition consoleintr (c : Z) : M () :=
  acquire LkCons ;;
  (if c =? C "P" then procdump
   else if c =? C "U" then cons_kill
   else if (c =? C "H") || (c =? 0x7f) then cons_erase
   else cons_input c) ;;
  release LkCons.

Definition consoleinit : M () :=
  initlock LkCons ;;
  uartinit ;;
  modify (λ k, k <| devsw_read ::= upd (Z.to_nat CONSOLE) (λ _, Some consoleread_fn) |>) ;;
  modify (λ k, k <| devsw_write ::= upd (Z.to_nat CONSOLE) (λ _, Some consolewrite_fn) |>).

(** [kernel/uart.c] *)
Definition uartintr : M () :=
  ReadReg ISR ;;
  acquire LkTx ;;
  x ← ReadReg LSR;
  when (negb (Z.land x LSR_TX_IDLE =? 0))
    (modify (λ k, k <| tx_busy := 0 |>) ;;
     wakeup (Some ChTx)) ;;
  release LkTx ;;
  loop w_fuel
    (c ← uartgetc;
     if c =? -1 then mret (Some ()) else
     consoleintr c ;;
     mret None).
End console.
