(* ===== verification/Sleeplock.v ===== *)
(** * Sleep locks: [kernel/sleeplock.c] *)
From S2P Require Import Prelude Layout KState Spinlock CString Vm Proc.

(** The spinlock inside a sleep lock, and its address as a sleep channel. *)
Definition sl_lk (l : slid) : lockid :=
  match l with SlBuf i => LkBuf i | SlInode i => LkInode i end.
Definition sl_chan (l : slid) : chan :=
  match l with SlBuf i => ChBuf i | SlInode i => ChInode i end.

Definition write_sleeplock (l : slid) (f : sleeplock -> sleeplock) : M () :=
  modify (λ k, k <| sleeplocks ::= λ s, <[l := f (s !!! l)]> s |>).

Section sleeplock.
Context {W : World}.

Definition initsleeplock (l : slid) : M () :=
  initlock (sl_lk l) ;;
  write_sleeplock l (λ s, s <| sl_locked := 0 |>) ;;
  write_sleeplock l (λ s, s <| sl_pid := 0 |>).

(** [myproc()->pid]. *)
Definition my_pid : M Z :=
  p ← myproc;
  match p with
  | None => panic "kerneltrap"
  | Some p => read_proc p p_pid
  end.

Definition acquiresleep (l : slid) : M () :=
  acquire (sl_lk l) ;;
  loop w_fuel
    (locked ← gets (λ k, sl_locked (sleeplocks k !!! l));
     if negb (locked =? 0) then
       sleep (sl_chan l) (sl_lk l) ;;
       mret None
     else mret (Some ())) ;;
  write_sleeplock l (λ s, s <| sl_locked := 1 |>) ;;
  pid ← my_pid;
  write_sleeplock l (λ s, s <| sl_pid := pid |>) ;;
  release (sl_lk l).

Definition releasesleep (l : slid) : M () :=
  acquire (sl_lk l) ;;
  write_sleeplock l (λ s, s <| sl_locked := 0 |>) ;;
  write_sleeplock l (λ s, s <| sl_pid := 0 |>) ;;
  wakeup (Some (sl_chan l)) ;;
  release (sl_lk l).

Definition holdingsleep (l : slid) : M bool :=
  acquire (sl_lk l) ;;
  s ← gets (λ k, sleeplocks k !!! l);
  r ← (if negb (sl_locked s =? 0) then
         pid ← my_pid;
         mret (sl_pid s =? pid)
       else mret false);
  release (sl_lk l) ;;
  mret r.
End sleeplock.
