(* ===== verification/Virtio.v ===== *)
(** * The disk driver: [kernel/virtio_disk.c]

    The descriptors and rings the driver shares with the device are the fields
    of [vdisk]; the device's answers to register reads are [w_virtio], and what
    it does to the rings and the buffers while the caller sleeps is part of
    [w_run].  The memory barriers order stores this model already performs in
    order. *)
From S2P Require Import Prelude Layout KState Spinlock CString Kalloc Vm Proc Uart.

(** ** [kernel/virtio.h] *)
Definition VIRTIO_MMIO_MAGIC_VALUE : Z := 0x000.
Definition VIRTIO_MMIO_VERSION : Z := 0x004.
Definition VIRTIO_MMIO_DEVICE_ID : Z := 0x008.
Definition VIRTIO_MMIO_VENDOR_ID : Z := 0x00c.
Definition VIRTIO_MMIO_DEVICE_FEATURES : Z := 0x010.
Definition VIRTIO_MMIO_DRIVER_FEATURES : Z := 0x020.
Definition VIRTIO_MMIO_QUEUE_SEL : Z := 0x030.
Definition VIRTIO_MMIO_QUEUE_NUM_MAX : Z := 0x034.
Definition VIRTIO_MMIO_QUEUE_NUM : Z := 0x038.
Definition VIRTIO_MMIO_QUEUE_READY : Z := 0x044.
Definition VIRTIO_MMIO_QUEUE_NOTIFY : Z := 0x050.
Definition VIRTIO_MMIO_INTERRUPT_STATUS : Z := 0x060.
Definition VIRTIO_MMIO_INTERRUPT_ACK : Z := 0x064.
Definition VIRTIO_MMIO_STATUS : Z := 0x070.
Definition VIRTIO_MMIO_QUEUE_DESC_LOW : Z := 0x080.
Definition VIRTIO_MMIO_QUEUE_DESC_HIGH : Z := 0x084.
Definition VIRTIO_MMIO_DRIVER_DESC_LOW : Z := 0x090.
Definition VIRTIO_MMIO_DRIVER_DESC_HIGH : Z := 0x094.
Definition VIRTIO_MMIO_DEVICE_DESC_LOW : Z := 0x0a0.
Definition VIRTIO_MMIO_DEVICE_DESC_HIGH : Z := 0x0a4.
Definition VIRTIO_CONFIG_S_ACKNOWLEDGE : Z := 1.
Definition VIRTIO_CONFIG_S_DRIVER : Z := 2.
Definition VIRTIO_CONFIG_S_DRIVER_OK : Z := 4.
Definition VIRTIO_CONFIG_S_FEATURES_OK : Z := 8.
Definition VIRTIO_BLK_F_RO : Z := 5.
Definition VIRTIO_BLK_F_SCSI : Z := 7.
Definition VIRTIO_BLK_F_CONFIG_WCE : Z := 11.
Definition VIRTIO_BLK_F_MQ : Z := 12.
Definition VIRTIO_F_ANY_LAYOUT : Z := 27.
Definition VIRTIO_RING_F_INDIRECT_DESC : Z := 28.
Definition VIRTIO_RING_F_EVENT_IDX : Z := 29.
Definition NUM : nat := 8.
Definition VRING_DESC_F_NEXT : Z := 1.
Definition VRING_DESC_F_WRITE : Z := 2.
Definition VIRTIO_BLK_T_IN : Z := 0.
Definition VIRTIO_BLK_T_OUT : Z := 1.
(** [sizeof(struct virtio_blk_req)]. *)
Definition BLK_REQ_SIZE : Z := 16.

Definition read_vd {A} (f : vdisk -> A) : M A := gets (λ k, f (vdisk_state k)).
Definition write_vd (f : vdisk -> vdisk) : M () := modify (λ k, k <| vdisk_state ::= f |>).
Definition write_desc (i : nat) (f : virtq_desc -> virtq_desc) : M () :=
  write_vd (λ d, d <| vd_desc ::= upd i f |>).
Definition write_buf (b : nat) (f : buf -> buf) : M () := modify (λ k, k <| bufs ::= upd b f |>).

Section virtio.
Context {L : Linker} {W : World}.

(** Reading [*R(r)] and writing it. *)
Definition R (r : Z) : M Z :=
  n ← gets virtio_reads;
  modify (λ k, k <| virtio_reads ::= S |>) ;;
  mret (u32 (w_virtio n r)).
Definition R_write (r v : Z) : M () := io_write (VIRTIO0 + r) (u32 v).

(** Clearing the features the driver does not use; the complement of a
    negative [int] mask is extended to 64 bits. *)
Definition clear_feature (bit features : Z) : Z := Z.land features (Z.lnot (Z.shiftl 1 bit)).
Definition negotiate (features : Z) : Z :=
  clear_feature VIRTIO_RING_F_INDIRECT_DESC
    (clear_feature VIRTIO_RING_F_EVENT_IDX
      (clear_feature VIRTIO_F_ANY_LAYOUT
        (clear_feature VIRTIO_BLK_F_MQ
          (clear_feature VIRTIO_BLK_F_CONFIG_WCE
            (clear_feature VIRTIO_BLK_F_SCSI
              (clear_feature VIRTIO_BLK_F_RO features)))))).

Definition virtio_disk_init : M () :=
  initlock LkDisk ;;
  magic ← R VIRTIO_MMIO_MAGIC_VALUE;
  bad ← (if negb (magic =? 0x74726976) then mret true else
         v ← R VIRTIO_MMIO_VERSION;
         if negb (v =? 2) then mret true else
         d ← R VIRTIO_MMIO_DEVICE_ID;
         if negb (d =? 2) then mret true else
         v ← R VIRTIO_MMIO_VENDOR_ID;
         mret (negb (v =? 0x554d4551)));
  if bad : bool then panic "could not find virtio disk" else
  let status := 0 in
  R_write VIRTIO_MMIO_STATUS status ;;
  let status := Z.lor status VIRTIO_CONFIG_S_ACKNOWLEDGE in
  R_write VIRTIO_MMIO_STATUS status ;;
  let status := Z.lor status VIRTIO_CONFIG_S_DRIVER in
  R_write VIRTIO_MMIO_STATUS status ;;
  features ← R VIRTIO_MMIO_DEVICE_FEATURES;
  R_write VIRTIO_MMIO_DRIVER_FEATURES (negotiate features) ;;
  let status := Z.lor status VIRTIO_CONFIG_S_FEATURES_OK in
  R_write VIRTIO_MMIO_STATUS status ;;
  status ← R VIRTIO_MMIO_STATUS;
  if Z.land status VIRTIO_CONFIG_S_FEATURES_OK =? 0 then panic "virtio disk FEATURES_OK unset" else
  R_write VIRTIO_MMIO_QUEUE_SEL 0 ;;
  ready ← R VIRTIO_MMIO_QUEUE_READY;
  if negb (ready =? 0) then panic "virtio disk should not be ready" else
  max ← R VIRTIO_MMIO_QUEUE_NUM_MAX;
  if max =? 0 then panic "virtio disk has no queue 0" else
  if max <? Z.of_nat NUM then panic "virtio disk max queue too short" else
  desc ← kalloc;
  avail ← kalloc;
  used ← kalloc;
  write_vd (λ d, d <| vd_desc_page := desc |> <| vd_avail_page := avail |> <| vd_used_page := used |>) ;;
  if (desc =? 0) || (avail =? 0) || (used =? 0) then panic "virtio disk kalloc" else
  write_vd (λ d, d <| vd_desc := replicate NUM (mk_virtq_desc DmaNull 0 0 0) |>
                   <| vd_avail_idx := 0 |> <| vd_avail_ring := replicate NUM 0 |>
                   <| vd_dev_idx := 0 |> <| vd_used_ring := replicate NUM 0 |>) ;;
  R_write VIRTIO_MMIO_QUEUE_NUM (Z.of_nat NUM) ;;
  R_write VIRTIO_MMIO_QUEUE_DESC_LOW desc ;;
  R_write VIRTIO_MMIO_QUEUE_DESC_HIGH (Z.shiftr desc 32) ;;
  R_write VIRTIO_MMIO_DRIVER_DESC_LOW avail ;;
  R_write VIRTIO_MMIO_DRIVER_DESC_HIGH (Z.shiftr avail 32) ;;
  R_write VIRTIO_MMIO_DEVICE_DESC_LOW used ;;
  R_write VIRTIO_MMIO_DEVICE_DESC_HIGH (Z.shiftr used 32) ;;
  R_write VIRTIO_MMIO_QUEUE_READY 0x1 ;;
  for_each (seq 0 NUM) (λ i, write_vd (λ d, d <| vd_free ::= upd i (λ _, 1) |>)) ;;
  R_write VIRTIO_MMIO_STATUS (Z.lor status VIRTIO_CONFIG_S_DRIVER_OK).

(** ** Descriptors *)

Definition alloc_desc : M Z :=
  r ← for_first (seq 0 NUM) (λ i,
        f ← read_vd (λ d, vd_free d !!! i);
        if negb (f =? 0) then
          write_vd (λ d, d <| vd_free ::= upd i (λ _, 0) |>) ;;
          mret (Some (Z.of_nat i))
        else mret None);
  mret (default (-1) r).

Definition free_desc (i : Z) : M () :=
  if Z.of_nat NUM <=? i then panic "free_desc 1" else
  f ← read_vd (λ d, vd_free d !!! Z.to_nat i);
  if negb (f =? 0) then panic "free_desc 2" else
  write_desc (Z.to_nat i) (λ _, mk_virtq_desc DmaNull 0 0 0) ;;
  write_vd (λ d, d <| vd_free ::= upd (Z.to_nat i) (λ _, 1) |>) ;;
  wakeup (Some ChDiskFree).

(** A descriptor that is freed twice is a panic, so a chain ends within [NUM]
    rounds or panics in the next one. *)
Fixpoint free_chain_loop (fuel : nat) (i : Z) : M () :=
  match fuel with
  | O => spin
  | S fuel' =>
      flag ← read_vd (λ d, vq_flags (vd_desc d !!! Z.to_nat i));
      nxt ← read_vd (λ d, vq_next (vd_desc d !!! Z.to_nat i));
      free_desc i ;;
      if negb (Z.land flag VRING_DESC_F_NEXT =? 0) then free_chain_loop fuel' nxt
      else mret ()
  end.
Definition free_chain (i : Z) : M () := free_chain_loop (S NUM) i.

(** The loop of [alloc3_desc] with the descriptors already in [idx]. *)
Fixpoint alloc3_loop (left : nat) (idx : list Z) : M (option (list Z)) :=
  match left with
  | O => mret (Some idx)
  | S left' =>
      d ← alloc_desc;
      if d <? 0 then
        for_each idx free_desc ;;
        mret None
      else alloc3_loop left' (idx ++ [d])
  end.
(** [None] is the return value -1. *)
Definition alloc3_desc : M (option (list Z)) := alloc3_loop 3 [].

(** ** Requests *)

(** Formatting the three descriptors and [b] for the request [idx]. *)
Definition format_request (b : nat) (write : bool) (sector : Z) (i0 i1 i2 : nat) : M () :=
  write_vd (λ d, d <| vd_ops ::= upd i0 (λ _,
    mk_blk_req (if write then VIRTIO_BLK_T_OUT else VIRTIO_BLK_T_IN) 0 sector) |>) ;;
  write_desc i0 (λ _,
    mk_virtq_desc (DmaOp i0) BLK_REQ_SIZE VRING_DESC_F_NEXT (Z.of_nat i1)) ;;
  write_desc i1 (λ _,
    mk_virtq_desc (DmaData b) BSIZE
      (Z.lor (if write then 0 else VRING_DESC_F_WRITE) VRING_DESC_F_NEXT) (Z.of_nat i2)) ;;
  write_vd (λ d, d <| vd_info_status ::= upd i0 (λ _, 0xff) |>) ;;
  write_desc i2 (λ _, mk_virtq_desc (DmaStatus i0) 1 VRING_DESC_F_WRITE 0) ;;
  write_buf b (λ r, r <| b_disk := 1 |>) ;;
  write_vd (λ d, d <| vd_info_b ::= upd i0 (λ _, Some b) |>) ;;
  write_vd (λ d, d <| vd_avail_ring ::=
    upd (Z.to_nat (vd_avail_idx d mod Z.of_nat NUM)) (λ _, Z.of_nat i0) |>) ;;
  write_vd (λ d, d <| vd_avail_idx := u16 (vd_avail_idx d + 1) |>) ;;
  R_write VIRTIO_MMIO_QUEUE_NOTIFY 0.

Definition virtio_disk_rw (b : nat) (write : bool) : M () :=
  bno ← gets (λ k, b_blockno (bufs k !!! b));
  let sector := u32 (bno * (BSIZE / 512)) in
  acquire LkDisk ;;
  idx ← loop w_fuel
          (r ← alloc3_desc;
           match r with
           | Some idx => mret (Some idx)
           | None => sleep ChDiskFree LkDisk ;; mret None
           end);
  let i n := Z.to_nat (nth n idx 0) in
  format_request b write sector (i 0%nat) (i 1%nat) (i 2%nat) ;;
  loop w_fuel
    (d ← gets (λ k, b_disk (bufs k !!! b));
     if d =? 1 then
       sleep (ChBufIO b) LkDisk ;;
       mret None
     else mret (Some ())) ;;
  write_vd (λ d, d <| vd_info_b ::= upd (i 0%nat) (λ _, None) |>) ;;
  free_chain (nth 0 idx 0) ;;
  release LkDisk.

Definition virtio_disk_intr : M () :=
  acquire LkDisk ;;
  st ← R VIRTIO_MMIO_INTERRUPT_STATUS;
  R_write VIRTIO_MMIO_INTERRUPT_ACK (Z.land st 0x3) ;;
  n ← read_vd (λ d, Z.to_nat (u16 (vd_dev_idx d - vd_used_idx d)));
  loop (S n)
    (d ← read_vd id;
     if vd_used_idx d =? vd_dev_idx d then mret (Some ()) else
     let i := Z.to_nat (vd_used_ring d !!! Z.to_nat (vd_used_idx d mod Z.of_nat NUM)) in
     if negb (vd_info_status d !!! i =? 0) then panic "virtio_disk_intr status" else
     match vd_info_b d !!! i with
     | None => panic "kerneltrap"
     | Some b =>
         write_buf b (λ r, r <| b_disk := 0 |>) ;;
         wakeup (Some (ChBufIO b)) ;;
         write_vd (λ d, d <| vd_used_idx := u16 (vd_used_idx d + 1) |>) ;;
         mret None
     end) ;;
  release LkDisk.
End virtio.
