(* ===== verification/Bio.v ===== *)
(** * The buffer cache: [kernel/bio.c]

    The buffers are [bufs], indexed; entry [NBUF] is [bcache.head], the head of
    the list of all buffers through [prev] and [next]. *)
From S2P Require Import Prelude Layout KState Spinlock CString Vm Proc Sleeplock Virtio.

Definition HEAD : nat := NBUF.
Definition read_buf {A} (b : nat) (f : buf -> A) : M A := gets (λ k, f (bufs k !!! b)).

Section bio.
Context {L : Linker} {W : World}.

Definition binit : M () :=
  initlock LkBcache ;;
  write_buf HEAD (λ h, h <| b_prev := HEAD |>) ;;
  write_buf HEAD (λ h, h <| b_next := HEAD |>) ;;
  for_each (seq 0 NBUF) (λ b,
    n ← read_buf HEAD b_next;
    write_buf b (λ r, r <| b_next := n |>) ;;
    write_buf b (λ r, r <| b_prev := HEAD |>) ;;
    initsleeplock (SlBuf b) ;;
    write_buf n (λ r, r <| b_prev := b |>) ;;
    write_buf HEAD (λ h, h <| b_next := b |>)).

(** The first scan, from [b] along [next]: the buffer that caches the block.
    The list has [NBUF] buffers and the head. *)
Fixpoint bget_cached (fuel : nat) (b : nat) (dev blockno : Z) : M (option nat) :=
  match fuel with
  | O => spin
  | S fuel' =>
      if bool_decide (b = HEAD) then mret None else
      r ← gets (λ k, bufs k !!! b);
      if (b_dev r =? dev) && (b_blockno r =? blockno) then mret (Some b)
      else bget_cached fuel' (b_next r) dev blockno
  end.
(** The second scan, along [prev]: the least recently used unused buffer. *)
Fixpoint bget_unused (fuel : nat) (b : nat) : M (option nat) :=
  match fuel with
  | O => spin
  | S fuel' =>
      if bool_decide (b = HEAD) then mret None else
      r ← gets (λ k, bufs k !!! b);
      if b_refcnt r =? 0 then mret (Some b)
      else bget_unused fuel' (b_prev r)
  end.

Definition bget (dev blockno : Z) : M nat :=
  acquire LkBcache ;;
  first ← read_buf HEAD b_next;
  hit ← bget_cached (S NBUF) first dev blockno;
  match hit with
  | Some b =>
      write_buf b (λ r, r <| b_refcnt := u32 (b_refcnt r + 1) |>) ;;
      release LkBcache ;;
      acquiresleep (SlBuf b) ;;
      mret b
  | None =>
      last ← read_buf HEAD b_prev;
      free ← bget_unused (S NBUF) last;
      match free with
      | Some b =>
          write_buf b (λ r, r <| b_dev := dev |> <| b_blockno := blockno |> <| b_valid := 0 |>
                              <| b_refcnt := 1 |>) ;;
          release LkBcache ;;
          acquiresleep (SlBuf b) ;;
          mret b
      | None => panic "bget: no buffers"
      end
  end.

Definition bread (dev blockno : Z) : M nat :=
  b ← bget dev blockno;
  v ← read_buf b b_valid;
  when (v =? 0)
    (virtio_disk_rw b false ;;
     write_buf b (λ r, r <| b_valid := 1 |>)) ;;
  mret b.

Definition bwrite (b : nat) : M () :=
  h ← holdingsleep (SlBuf b);
  if negb h then panic "bwrite" else
  virtio_disk_rw b true.

Definition brelse (b : nat) : M () :=
  h ← holdingsleep (SlBuf b);
  if negb h then panic "brelse" else
  releasesleep (SlBuf b) ;;
  acquire LkBcache ;;
  write_buf b (λ r, r <| b_refcnt := u32 (b_refcnt r - 1) |>) ;;
  c ← read_buf b b_refcnt;
  when (c =? 0)
    (n ← read_buf b b_next;
     p ← read_buf b b_prev;
     write_buf n (λ r, r <| b_prev := p |>) ;;
     p ← read_buf b b_prev;
     n ← read_buf b b_next;
     write_buf p (λ r, r <| b_next := n |>) ;;
     hn ← read_buf HEAD b_next;
     write_buf b (λ r, r <| b_next := hn |>) ;;
     write_buf b (λ r, r <| b_prev := HEAD |>) ;;
     hn ← read_buf HEAD b_next;
     write_buf hn (λ r, r <| b_prev := b |>) ;;
     write_buf HEAD (λ r, r <| b_next := b |>)) ;;
  release LkBcache.

Definition bpin (b : nat) : M () :=
  acquire LkBcache ;;
  write_buf b (λ r, r <| b_refcnt := u32 (b_refcnt r + 1) |>) ;;
  release LkBcache.

Definition bunpin (b : nat) : M () :=
  acquire LkBcache ;;
  write_buf b (λ r, r <| b_refcnt := u32 (b_refcnt r - 1) |>) ;;
  release LkBcache.
End bio.
