(* ===== verification/Log.v ===== *)
(** * The write-ahead log: [kernel/log.c] *)
From Stdlib Require Import String.
From S2P Require Import Prelude Layout KState Spinlock CString Vm Proc Uart Sleeplock Virtio Bio.

Definition read_log {A} (f : logstate -> A) : M A := gets (λ k, f (log k)).
Definition write_log_state (f : logstate -> logstate) : M () := modify (λ k, k <| log ::= f |>).

(** [struct logheader] in the bytes of a block: [int n; int block[LOGBLOCKS]]. *)
Definition LOGHEADER_SIZE : Z := 4 + 4 * LOGBLOCKS.
Definition hdr_n (data : list Z) : Z := i32 (get_le 4 0 data).
Definition hdr_block (i : nat) (data : list Z) : Z := i32 (get_le 4 (4 + 4 * i) data).
Definition set_hdr_n (n : Z) (data : list Z) : list Z := put_le 4 0 (u32 n) data.
Definition set_hdr_block (i : nat) (b : Z) (data : list Z) : list Z := put_le 4 (4 + 4 * i) (u32 b) data.

Section log.
Context {L : Linker} {W : World}.

(** [for(tail = 0; tail < log.lh.n; tail++)]: the body never changes [lh.n]. *)
Definition for_tail (body : nat -> M ()) : M () :=
  n ← read_log lh_n;
  for_each (seq 0 (Z.to_nat n)) body.

Definition install_trans (recovering : bool) : M () :=
  for_tail (λ tail,
    dst ← read_log (λ l, lh_block l !!! tail);
    when recovering
      (printf_fmt (str "recovering tail %d dst %d" ++ newline) [VInt (Z.of_nat tail); VInt dst]) ;;
    dev ← read_log lg_dev;
    start ← read_log lg_start;
    lbuf ← bread dev (u32 (start + Z.of_nat tail + 1));
    dst ← read_log (λ l, lh_block l !!! tail);
    dbuf ← bread dev (u32 dst);
    data ← read_buf lbuf b_data;
    write_buf dbuf (λ b, b <| b_data := data |>) ;;
    bwrite dbuf ;;
    when (negb recovering) (bunpin dbuf) ;;
    brelse lbuf ;;
    brelse dbuf).

(** An on-disk count above LOGBLOCKS makes the loop write beyond [lh.block],
    which C leaves undefined: here the run stops. *)
Definition read_head : M () :=
  dev ← read_log lg_dev;
  start ← read_log lg_start;
  b ← bread dev (u32 start);
  data ← read_buf b b_data;
  write_log_state (λ l, l <| lh_n := hdr_n data |>) ;;
  for_tail (λ i,
    if (i <? Z.to_nat LOGBLOCKS)%nat
    then write_log_state (λ l, l <| lh_block ::= upd i (λ _, hdr_block i data) |>)
    else panic "kerneltrap") ;;
  brelse b.

Definition write_head : M () :=
  dev ← read_log lg_dev;
  start ← read_log lg_start;
  b ← bread dev (u32 start);
  n ← read_log lh_n;
  write_buf b (λ r, r <| b_data ::= set_hdr_n n |>) ;;
  for_tail (λ i,
    blk ← read_log (λ l, lh_block l !!! i);
    write_buf b (λ r, r <| b_data ::= set_hdr_block i blk |>)) ;;
  bwrite b ;;
  brelse b.

Definition recover_from_log : M () :=
  read_head ;;
  install_trans true ;;
  write_log_state (λ l, l <| lh_n := 0 |>) ;;
  write_head.

Definition initlog (dev : Z) (s : superblock) : M () :=
  if BSIZE <=? LOGHEADER_SIZE then panic "initlog: too big logheader" else
  initlock LkLog ;;
  write_log_state (λ l, l <| lg_start := i32 (sb_logstart s) |>) ;;
  write_log_state (λ l, l <| lg_dev := dev |>) ;;
  recover_from_log.

Definition begin_op : M () :=
  acquire LkLog ;;
  loop w_fuel
    (l ← read_log id;
     if negb (lg_committing l =? 0) then
       sleep ChLog LkLog ;;
       mret None
     else if LOGBLOCKS <? lh_n l + (lg_outstanding l + 1) * MAXOPBLOCKS then
       sleep ChLog LkLog ;;
       mret None
     else
       write_log_state (λ l, l <| lg_outstanding := i32 (lg_outstanding l + 1) |>) ;;
       release LkLog ;;
       mret (Some ())).

Definition write_log : M () :=
  for_tail (λ tail,
    dev ← read_log lg_dev;
    start ← read_log lg_start;
    to ← bread dev (u32 (start + Z.of_nat tail + 1));
    blk ← read_log (λ l, lh_block l !!! tail);
    from ← bread dev (u32 blk);
    data ← read_buf from b_data;
    write_buf to (λ b, b <| b_data := data |>) ;;
    bwrite to ;;
    brelse from ;;
    brelse to).

Definition commit : M () :=
  n ← read_log lh_n;
  when (0 <? n)
    (write_log ;;
     write_head ;;
     install_trans false ;;
     write_log_state (λ l, l <| lh_n := 0 |>) ;;
     write_head).

Definition end_op : M () :=
  acquire LkLog ;;
  write_log_state (λ l, l <| lg_outstanding := i32 (lg_outstanding l - 1) |>) ;;
  c ← read_log lg_committing;
  if negb (c =? 0) then panic "log.committing" else
  o ← read_log lg_outstanding;
  do_commit ←
    (if o =? 0 then
       write_log_state (λ l, l <| lg_committing := 1 |>) ;;
       mret true
     else
       wakeup (Some ChLog) ;;
       mret false);
  release LkLog ;;
  when do_commit
    (commit ;;
     acquire LkLog ;;
     write_log_state (λ l, l <| lg_committing := 0 |>) ;;
     wakeup (Some ChLog) ;;
     release LkLog).

(** [for (i = 0; i < log.lh.n; i++) if (log.lh.block[i] == b->blockno) break;] *)
Definition log_find (bno : Z) (l : logstate) : nat :=
  default (Z.to_nat (lh_n l))
    (head (filter (λ i, u32 (lh_block l !!! i) = bno) (seq 0 (Z.to_nat (lh_n l))))).

Definition log_write (b : nat) : M () :=
  acquire LkLog ;;
  l ← read_log id;
  if LOGBLOCKS <=? lh_n l then panic "too big a transaction" else
  if lg_outstanding l <? 1 then panic "log_write outside of trans" else
  bno ← read_buf b b_blockno;
  let i := log_find bno l in
  write_log_state (λ l, l <| lh_block ::= upd i (λ _, i32 bno) |>) ;;
  when (Z.of_nat i =? lh_n l)
    (bpin b ;;
     write_log_state (λ l, l <| lh_n := i32 (lh_n l + 1) |>)) ;;
  release LkLog.
End log.
