(* ===== verification/Fs.v ===== *)
(** * The file system: [kernel/fs.c]

    Blocks, inodes, directories and paths.  A [struct inode *] is an index in
    [itable]; a path or a name is a list of bytes, one past whose end reads as
    NUL.  The destination of [readi] and the source of [writei] are a user
    address, a kernel address, or a local variable of the caller, whose bytes
    are then the second result or the argument. *)
From Stdlib Require Import Ascii String.
From S2P Require Import Prelude Layout KState Spinlock CString Vm Proc Uart Sleeplock Virtio Bio.
From S2P Require Import Log.

Definition read_inode {A} (ip : nat) (f : inode -> A) : M A := gets (λ k, f (itable k !!! ip)).
Definition write_inode (ip : nat) (f : inode -> inode) : M () :=
  modify (λ k, k <| itable ::= upd ip f |>).
Definition read_sb {A} (f : superblock -> A) : M A := gets (λ k, f (sb k)).
Definition write_data (b : nat) (f : list Z -> list Z) : M () := write_buf b (λ r, r <| b_data ::= f |>).

(** ** Structures on disk *)

Definition superblock_of (data : list Z) : superblock :=
  mk_superblock (get_le 4 0 data) (get_le 4 4 data) (get_le 4 8 data) (get_le 4 12 data)
    (get_le 4 16 data) (get_le 4 20 data) (get_le 4 24 data) (get_le 4 28 data).

Definition IBLOCK (i : Z) (s : superblock) : Z := u32 (i / IPB + sb_inodestart s).
Definition BBLOCK (b : Z) (s : superblock) : Z := u32 (b / BPB + sb_bmapstart s).

(** The offset of inode [inum] in its block, and the fields of a
    [struct dinode] at an offset. *)
Definition dinode_off (inum : Z) : nat := Z.to_nat (inum mod IPB * DINODE_SIZE).
Definition d_type (o : nat) (data : list Z) : Z := i16 (get_le 2 o data).
Definition d_nlink (o : nat) (data : list Z) : Z := i16 (get_le 2 (o + 6) data).
Definition load_dinode (o : nat) (data : list Z) (ip : inode) : inode :=
  ip <| i_type := d_type o data |>
     <| i_major := i16 (get_le 2 (o + 2) data) |>
     <| i_minor := i16 (get_le 2 (o + 4) data) |>
     <| i_nlink := d_nlink o data |>
     <| i_size := get_le 4 (o + 8) data |>
     <| i_addrs := (λ i, get_le 4 (o + 12 + 4 * i) data) <$> seq 0 (S NDIRECT) |>.
Definition dinode_bytes (ip : inode) : list Z :=
  le_bytes 2 (u16 (i_type ip)) ++ le_bytes 2 (u16 (i_major ip)) ++
  le_bytes 2 (u16 (i_minor ip)) ++ le_bytes 2 (u16 (i_nlink ip)) ++
  le_bytes 4 (i_size ip) ++ concat (le_bytes 4 <$> i_addrs ip).
Definition store_dinode (o : nat) (ip : inode) (data : list Z) : list Z :=
  splice o (dinode_bytes ip) data.

Section fs.
Context {L : Linker} {W : World}.

Definition readsb (dev : Z) : M () :=
  bp ← bread dev 1;
  data ← read_buf bp b_data;
  modify (λ k, k <| sb := superblock_of data |>) ;;
  brelse bp.

(** ** Blocks *)

Definition bzero (dev bno : Z) : M () :=
  bp ← bread dev (u32 bno);
  write_data bp (λ _, replicate (Z.to_nat BSIZE) 0) ;;
  log_write bp ;;
  brelse bp.

(** [bp->data[bi/8] & m] with [m = 1 << (bi % 8)], and setting and clearing
    the bit. *)
Definition bit_mask (bi : Z) : Z := Z.shiftl 1 (bi mod 8).
Definition bit_set (bi : Z) (data : list Z) : bool :=
  negb (Z.land (data !!! Z.to_nat (bi / 8)) (bit_mask bi) =? 0).
Definition mark_used (bi : Z) (data : list Z) : list Z :=
  upd (Z.to_nat (bi / 8)) (λ x, Z.lor x (bit_mask bi)) data.
Definition mark_free (bi : Z) (data : list Z) : list Z :=
  upd (Z.to_nat (bi / 8)) (λ x, Z.land x (Z.lnot (bit_mask bi))) data.

(** [for(bi = 0; bi < BPB && b + bi < sb.size; bi++)]: the first free bit. *)
Fixpoint balloc_scan (left : nat) (bi : Z) (data : list Z) : option Z :=
  match left with
  | O => None
  | S left' => if bit_set bi data then balloc_scan left' (bi + 1) data else Some bi
  end.

(** [for(b = 0; b < sb.size; b += BPB)]. *)
Fixpoint balloc_loop (fuel : nat) (dev b : Z) : M Z :=
  match fuel with
  | O => spin
  | S fuel' =>
      s ← read_sb id;
      if b <? sb_size s then
        bp ← bread dev (BBLOCK b s);
        data ← read_buf bp b_data;
        match balloc_scan (Z.to_nat (Z.min BPB (sb_size s - b))) 0 data with
        | Some bi =>
            write_data bp (mark_used bi) ;;
            log_write bp ;;
            brelse bp ;;
            bzero dev (b + bi) ;;
            mret (b + bi)
        | None =>
            brelse bp ;;
            balloc_loop fuel' dev (b + BPB)
        end
      else
        printf_fmt (str "balloc: out of blocks" ++ newline) [] ;;
        mret 0
  end.
Definition balloc (dev : Z) : M Z :=
  s ← read_sb id;
  balloc_loop (S (Z.to_nat ((sb_size s + BPB - 1) / BPB))) dev 0.

Definition bfree (dev b : Z) : M () :=
  s ← read_sb id;
  bp ← bread dev (BBLOCK b s);
  let bi := b mod BPB in
  data ← read_buf bp b_data;
  if negb (bit_set bi data) then panic "freeing free block" else
  write_data bp (mark_free bi) ;;
  log_write bp ;;
  brelse bp.

(** ** Inodes *)

Definition iinit : M () :=
  initlock LkItable ;;
  for_each (seq 0 NINODE) (λ i, initsleeplock (SlInode i)).

(** The scan of [iget]: the entry for the inode, and the first empty one. *)
Fixpoint iget_scan (l : list nat) (tbl : list inode) (dev inum : Z) (empty : option nat)
  : option nat * option nat :=
  match l with
  | [] => (None, empty)
  | i :: l' =>
      let ip := tbl !!! i in
      if (0 <? i_ref ip) && (i_dev ip =? dev) && (i_inum ip =? inum) then (Some i, empty)
      else iget_scan l' tbl dev inum
             (if bool_decide (empty = None) && (i_ref ip =? 0) then Some i else empty)
  end.
Definition iget (dev inum : Z) : M nat :=
  acquire LkItable ;;
  tbl ← gets itable;
  match iget_scan (seq 0 NINODE) tbl dev inum None with
  | (Some ip, _) =>
      write_inode ip (λ i, i <| i_ref := i32 (i_ref i + 1) |>) ;;
      release LkItable ;;
      mret ip
  | (None, None) => panic "iget: no inodes"
  | (None, Some ip) =>
      write_inode ip (λ i, i <| i_dev := dev |> <| i_inum := inum |> <| i_ref := 1 |>
                             <| i_valid := 0 |>) ;;
      release LkItable ;;
      mret ip
  end.

Fixpoint ialloc_loop (left : nat) (dev inum type : Z) : M (option nat) :=
  match left with
  | O =>
      printf_fmt (str "ialloc: no inodes" ++ newline) [] ;;
      mret None
  | S left' =>
      s ← read_sb id;
      bp ← bread dev (IBLOCK inum s);
      data ← read_buf bp b_data;
      let o := dinode_off inum in
      if d_type o data =? 0 then
        write_data bp (λ d, put_le 2 o (u16 type)
          (splice o (replicate (Z.to_nat DINODE_SIZE) 0) d)) ;;
        log_write bp ;;
        brelse bp ;;
        ip ← iget dev inum;
        mret (Some ip)
      else
        brelse bp ;;
        ialloc_loop left' dev (inum + 1) type
  end.
Definition ialloc (dev type : Z) : M (option nat) :=
  n ← read_sb sb_ninodes;
  ialloc_loop (Z.to_nat (n - 1)) dev 1 type.

Definition iupdate (ip : nat) : M () :=
  s ← read_sb id;
  dev ← read_inode ip i_dev;
  inum ← read_inode ip i_inum;
  bp ← bread dev (IBLOCK inum s);
  r ← read_inode ip id;
  write_data bp (store_dinode (dinode_off inum) r) ;;
  log_write bp ;;
  brelse bp.

Definition idup (ip : nat) : M nat :=
  acquire LkItable ;;
  write_inode ip (λ i, i <| i_ref := i32 (i_ref i + 1) |>) ;;
  release LkItable ;;
  mret ip.

Definition ilock (ip : option nat) : M () :=
  match ip with
  | None => panic "ilock"
  | Some ip =>
      ref ← read_inode ip i_ref;
      if ref <? 1 then panic "ilock" else
      acquiresleep (SlInode ip) ;;
      v ← read_inode ip i_valid;
      when (v =? 0)
        (s ← read_sb id;
         dev ← read_inode ip i_dev;
         inum ← read_inode ip i_inum;
         bp ← bread dev (IBLOCK inum s);
         data ← read_buf bp b_data;
         write_inode ip (load_dinode (dinode_off inum) data) ;;
         brelse bp ;;
         write_inode ip (λ i, i <| i_valid := 1 |>) ;;
         t ← read_inode ip i_type;
         if t =? 0 then panic "ilock: no type" else mret ())
  end.

Definition iunlock (ip : option nat) : M () :=
  match ip with
  | None => panic "iunlock"
  | Some ip =>
      h ← holdingsleep (SlInode ip);
      if negb h then panic "iunlock" else
      ref ← read_inode ip i_ref;
      if ref <? 1 then panic "iunlock" else
      releasesleep (SlInode ip)
  end.

Definition itrunc (ip : nat) : M () :=
  for_each (seq 0 NDIRECT) (λ i,
    a ← read_inode ip (λ r, i_addrs r !!! i);
    when (negb (a =? 0))
      (dev ← read_inode ip i_dev;
       bfree dev a ;;
       write_inode ip (λ r, r <| i_addrs ::= upd i (λ _, 0) |>))) ;;
  a ← read_inode ip (λ r, i_addrs r !!! NDIRECT);
  when (negb (a =? 0))
    (dev ← read_inode ip i_dev;
     bp ← bread dev a;
     for_each (seq 0 (Z.to_nat NINDIRECT)) (λ j,
       aj ← read_buf bp (λ b, get_le 4 (4 * j) (b_data b));
       when (negb (aj =? 0)) (bfree dev aj)) ;;
     brelse bp ;;
     a ← read_inode ip (λ r, i_addrs r !!! NDIRECT);
     bfree dev a ;;
     write_inode ip (λ r, r <| i_addrs ::= upd NDIRECT (λ _, 0) |>)) ;;
  write_inode ip (λ r, r <| i_size := 0 |>) ;;
  iupdate ip.

Definition iput (ip : nat) : M () :=
  acquire LkItable ;;
  r ← read_inode ip id;
  when ((i_ref r =? 1) && negb (i_valid r =? 0) && (i_nlink r =? 0))
    (acquiresleep (SlInode ip) ;;
     release LkItable ;;
     itrunc ip ;;
     write_inode ip (λ i, i <| i_type := 0 |>) ;;
     iupdate ip ;;
     write_inode ip (λ i, i <| i_valid := 0 |>) ;;
     releasesleep (SlInode ip) ;;
     acquire LkItable) ;;
  write_inode ip (λ i, i <| i_ref := i32 (i_ref i - 1) |>) ;;
  release LkItable.

Definition iunlockput (ip : nat) : M () :=
  iunlock (Some ip) ;;
  iput ip.

Definition ireclaim (dev : Z) : M () :=
  n ← read_sb sb_ninodes;
  for_each (seq 1 (Z.to_nat (n - 1))) (λ i,
    let inum := Z.of_nat i in
    s ← read_sb id;
    bp ← bread dev (IBLOCK inum s);
    data ← read_buf bp b_data;
    let o := dinode_off inum in
    ip ← (if negb (d_type o data =? 0) && (d_nlink o data =? 0) then
            printf_fmt (str "ireclaim: orphaned inode %d" ++ newline) [VInt inum] ;;
            ip ← iget dev inum;
            mret (Some ip)
          else mret None);
    brelse bp ;;
    match ip with
    | None => mret ()
    | Some ip =>
        begin_op ;;
        ilock (Some ip) ;;
        iunlock (Some ip) ;;
        iput ip ;;
        end_op
    end).

Definition fsinit (dev : Z) : M () :=
  readsb dev ;;
  s ← read_sb id;
  if negb (sb_magic s =? FSMAGIC) then panic "invalid file system" else
  initlog dev s ;;
  ireclaim dev.

(** ** Inode content *)

Definition bmap (ip : nat) (bn : Z) : M Z :=
  dev ← read_inode ip i_dev;
  if bn <? Z.of_nat NDIRECT then
    addr ← read_inode ip (λ r, i_addrs r !!! Z.to_nat bn);
    if addr =? 0 then
      addr ← balloc dev;
      if addr =? 0 then mret 0 else
      write_inode ip (λ r, r <| i_addrs ::= upd (Z.to_nat bn) (λ _, addr) |>) ;;
      mret addr
    else mret addr
  else
    let bn := bn - Z.of_nat NDIRECT in
    if bn <? NINDIRECT then
      addr ← read_inode ip (λ r, i_addrs r !!! NDIRECT);
      addr ← (if addr =? 0 then
                addr ← balloc dev;
                when (negb (addr =? 0))
                  (write_inode ip (λ r, r <| i_addrs ::= upd NDIRECT (λ _, addr) |>)) ;;
                mret addr
              else mret addr);
      if addr =? 0 then mret 0 else
      bp ← bread dev addr;
      let o := Z.to_nat (4 * bn) in
      addr ← read_buf bp (λ b, get_le 4 o (b_data b));
      addr ← (if addr =? 0 then
                addr ← balloc dev;
                when (negb (addr =? 0))
                  (write_data bp (put_le 4 o addr) ;;
                   log_write bp) ;;
                mret addr
              else mret addr);
      brelse bp ;;
      mret addr
    else panic "bmap: out of range".

(** The bytes of a [struct stat], with the padding before [size]. *)
Definition stat_bytes (pad : list Z) (ip : inode) : list Z :=
  le_bytes 4 (i_dev ip) ++ le_bytes 4 (i_inum ip) ++ le_bytes 2 (u16 (i_type ip)) ++
  le_bytes 2 (u16 (i_nlink ip)) ++ pad ++ le_bytes 8 (i_size ip).
Definition stati (ip : nat) : M (list Z) := read_inode ip (stat_bytes w_pad).

Inductive iodst : Type := UserDst (va : Z) | KernDst (pa : Z) | LocalDst.
Definition copy_to (dst : iodst) (tot : Z) (bs : list Z) : M Z :=
  match dst with
  | UserDst va => either_copyout true (u64 (va + tot)) bs
  | KernDst pa => either_copyout false (u64 (pa + tot)) bs
  | LocalDst => mret 0
  end.

(** [acc] is what has been copied, [tot] its length. *)
Fixpoint readi_loop (fuel : nat) (ip : nat) (dst : iodst) (tot off n : Z) (acc : list Z)
  : M (Z * list Z) :=
  match fuel with
  | O => spin
  | S fuel' =>
      if tot <? n then
        addr ← bmap ip (off / BSIZE);
        if addr =? 0 then mret (i32 tot, acc) else
        dev ← read_inode ip i_dev;
        bp ← bread dev addr;
        let m := Z.min (n - tot) (BSIZE - off mod BSIZE) in
        bs ← read_buf bp (λ b, take (Z.to_nat m) (drop (Z.to_nat (off mod BSIZE)) (b_data b)));
        r ← copy_to dst tot bs;
        if r =? -1 then
          brelse bp ;;
          mret (-1, acc)
        else
          brelse bp ;;
          readi_loop fuel' ip dst (tot + m) (off + m) n (acc ++ bs)
      else mret (i32 tot, acc)
  end.
Definition readi (ip : nat) (dst : iodst) (off n : Z) : M (Z * list Z) :=
  size ← read_inode ip i_size;
  if (size <? off) || (u32 (off + n) <? off) then mret (0, []) else
  let n := if size <? u32 (off + n) then size - off else n in
  readi_loop (S (Z.to_nat n)) ip dst 0 off n [].

Inductive iosrc : Type := UserSrc (va : Z) | LocalSrc (bs : list Z).
Definition copy_from (src : iosrc) (tot m : Z) : M (Z * list Z) :=
  match src with
  | UserSrc va => either_copyin true (u64 (va + tot)) m
  | LocalSrc bs => mret (0, take (Z.to_nat m) (drop (Z.to_nat tot) bs))
  end.

(** The values of [tot] and [off] when the loop ends. *)
Fixpoint writei_loop (fuel : nat) (ip : nat) (src : iosrc) (tot off n : Z) : M (Z * Z) :=
  match fuel with
  | O => spin
  | S fuel' =>
      if tot <? n then
        addr ← bmap ip (off / BSIZE);
        if addr =? 0 then mret (tot, off) else
        dev ← read_inode ip i_dev;
        bp ← bread dev addr;
        let m := Z.min (n - tot) (BSIZE - off mod BSIZE) in
        '(r, bs) ← copy_from src tot m;
        write_data bp (splice (Z.to_nat (off mod BSIZE)) bs) ;;
        if r =? -1 then
          brelse bp ;;
          mret (tot, off)
        else
          log_write bp ;;
          brelse bp ;;
          writei_loop fuel' ip src (tot + m) (off + m) n
      else mret (tot, off)
  end.
Definition writei (ip : nat) (src : iosrc) (off n : Z) : M Z :=
  size ← read_inode ip i_size;
  if (size <? off) || (u32 (off + n) <? off) then mret (-1) else
  if MAXFILE * BSIZE <? u32 (off + n) then mret (-1) else
  '(tot, off) ← writei_loop (S (Z.to_nat n)) ip src 0 off n;
  write_inode ip (λ r, if i_size r <? off then r <| i_size := off |> else r) ;;
  iupdate ip ;;
  mret (i32 tot).

(** ** Directories *)

Definition namecmp (s t : list Z) : Z := strncmp_list (Z.to_nat DIRSIZ) s t.
Definition de_inum (de : list Z) : Z := get_le 2 0 de.
Definition de_name (de : list Z) : list Z := drop 2 de.

(** The entry's inode and its offset, which [poff] receives. *)
Fixpoint dirlookup_loop (fuel : nat) (dp : nat) (name : list Z) (off : Z) : M (option (nat * Z)) :=
  match fuel with
  | O => spin
  | S fuel' =>
      size ← read_inode dp i_size;
      if off <? size then
        '(r, de) ← readi dp LocalDst off DIRENT_SIZE;
        if negb (r =? DIRENT_SIZE) then panic "dirlookup read" else
        if negb (de_inum de =? 0) && (namecmp name (de_name de) =? 0) then
          dev ← read_inode dp i_dev;
          ip ← iget dev (de_inum de);
          mret (Some (ip, off))
        else dirlookup_loop fuel' dp name (off + DIRENT_SIZE)
      else mret None
  end.
Definition dirlookup (dp : nat) (name : list Z) : M (option (nat * Z)) :=
  t ← read_inode dp i_type;
  if negb (t =? T_DIR) then panic "dirlookup not DIR" else
  size ← read_inode dp i_size;
  dirlookup_loop (S (Z.to_nat (size / DIRENT_SIZE + 1))) dp name 0.

(** The offset of the first empty entry, or of the end. *)
Fixpoint dirlink_loop (fuel : nat) (dp : nat) (off : Z) : M Z :=
  match fuel with
  | O => spin
  | S fuel' =>
      size ← read_inode dp i_size;
      if off <? size then
        '(r, de) ← readi dp LocalDst off DIRENT_SIZE;
        if negb (r =? DIRENT_SIZE) then panic "dirlink read" else
        if de_inum de =? 0 then mret off
        else dirlink_loop fuel' dp (off + DIRENT_SIZE)
      else mret off
  end.
Definition dirent_bytes (name : list Z) (inum : Z) : list Z :=
  le_bytes 2 (u16 inum) ++ strncpy_list (Z.to_nat DIRSIZ) name.
Definition dirlink (dp : nat) (name : list Z) (inum : Z) : M Z :=
  r ← dirlookup dp name;
  match r with
  | Some (ip, _) =>
      iput ip ;;
      mret (-1)
  | None =>
      size ← read_inode dp i_size;
      off ← dirlink_loop (S (Z.to_nat (size / DIRENT_SIZE + 1))) dp 0;
      r ← writei dp (LocalSrc (dirent_bytes name inum)) off DIRENT_SIZE;
      if negb (r =? DIRENT_SIZE) then mret (-1) else mret 0
  end.

(** ** Paths *)

Definition slash : Z := ch "/".
Fixpoint skip_slashes (path : list Z) : list Z :=
  match path with
  | x :: path' => if x =? slash then skip_slashes path' else path
  | [] => []
  end.
(** [while( *path != '/' && *path != 0) path++;] *)
Fixpoint skip_name (path : list Z) : list Z * list Z :=
  match path with
  | x :: path' =>
      if negb (x =? slash) && negb (x =? 0) then
        let '(s, rest) := skip_name path' in (x :: s, rest)
      else ([], path)
  | [] => ([], [])
  end.
(** The rest of the path and the bytes stored in [name]; [None] for the null
    pointer. *)
Definition skipelem (path : list Z) : option (list Z * list Z) :=
  let path := skip_slashes path in
  if hd 0 path =? 0 then None else
  let '(s, path) := skip_name path in
  let name := if DIRSIZ <=? Z.of_nat (length s) then take (Z.to_nat DIRSIZ) s else s ++ [0] in
  Some (skip_slashes path, name).

Fixpoint namex_loop (fuel : nat) (ip : nat) (path : list Z) (parent : bool) (name : list Z)
  : M (option nat * list Z) :=
  match fuel with
  | O => spin
  | S fuel' =>
      match skipelem path with
      | None =>
          if parent then
            iput ip ;;
            mret (None, name)
          else mret (Some ip, name)
      | Some (path, name) =>
          ilock (Some ip) ;;
          t ← read_inode ip i_type;
          if negb (t =? T_DIR) then
            iunlockput ip ;;
            mret (None, name)
          else if parent && (hd 0 path =? 0) then
            iunlock (Some ip) ;;
            mret (Some ip, name)
          else
            next ← dirlookup ip name;
            match next with
            | None =>
                iunlockput ip ;;
                mret (None, name)
            | Some (next, _) =>
                iunlockput ip ;;
                namex_loop fuel' next path parent name
            end
      end
  end.
(** The inode, and the final content of [name]. *)
Definition namex (path : list Z) (parent : bool) : M (option nat * list Z) :=
  ip ← (if hd 0 path =? slash then iget ROOTDEV ROOTINO else
        p ← myproc;
        match p with
        | None => panic "kerneltrap"
        | Some p =>
            cwd ← read_proc p p_cwd;
            match cwd with
            | None => panic "kerneltrap"
            | Some ip => idup ip
            end
        end);
  namex_loop (S (length path)) ip path parent [].
Definition namei (path : list Z) : M (option nat) :=
  '(ip, _) ← namex path false;
  mret ip.
Definition nameiparent (path : list Z) : M (option nat * list Z) := namex path true.
End fs.
