(* ===== verification/Pipe.v ===== *)
(** * Pipes: [kernel/pipe.c]

    A pipe lives in a page [kalloc] returned; the structure in the page at [pi]
    is [pipes !!! pi].  [pipealloc] is in [File], with the file table. *)
From S2P Require Import Prelude Layout KState Spinlock CString Kalloc Vm Proc.

Definition PIPESIZE : Z := 512.

Definition read_pipe {A} (pi : Z) (f : pipe -> A) : M A := gets (λ k, f (pipes k !!! pi)).
Definition write_pipe (pi : Z) (f : pipe -> pipe) : M () :=
  modify (λ k, k <| pipes ::= λ s, <[pi := f (s !!! pi)]> s |>).

Section pipe.
Context {L : Linker} {W : World}.

Definition pipeclose (pi : Z) (writable : bool) : M () :=
  acquire (LkPipe pi) ;;
  (if writable then
     write_pipe pi (λ p, p <| pi_writeopen := 0 |>) ;;
     wakeup (Some (ChPipeR pi))
   else
     write_pipe pi (λ p, p <| pi_readopen := 0 |>) ;;
     wakeup (Some (ChPipeW pi))) ;;
  ro ← read_pipe pi pi_readopen;
  wo ← read_pipe pi pi_writeopen;
  if (ro =? 0) && (wo =? 0) then
    release (LkPipe pi) ;;
    modify (λ k, k <| pipes ::= delete pi |>) ;;
    kfree pi
  else release (LkPipe pi).

(** [pi->data[pi->nwrite++ % PIPESIZE] = ch]. *)
Definition pipe_put (c : Z) (p : pipe) : pipe :=
  p <| pi_data ::= upd (Z.to_nat (pi_nwrite p mod PIPESIZE)) (λ _, c) |>
    <| pi_nwrite := u32 (pi_nwrite p + 1) |>.

(** The rounds of [while(i < n)] up to the one that stores byte [i] or leaves
    the loop: [None] when the byte was stored, [Some true] for [return -1] and
    [Some false] for [break]. *)
Definition pipewrite_byte (pr : nat) (pi addr i : Z) : M (option bool) :=
  loop w_fuel
    (ro ← read_pipe pi pi_readopen;
     k ← (if ro =? 0 then mret 1 else killed pr);
     if negb (k =? 0) then
       release (LkPipe pi) ;;
       mret (Some (Some true))
     else
       p ← read_pipe pi id;
       if pi_nwrite p =? u32 (pi_nread p + PIPESIZE) then
         wakeup (Some (ChPipeR pi)) ;;
         sleep (ChPipeW pi) (LkPipe pi) ;;
         mret None
       else
         pt ← read_proc pr p_pagetable;
         '(r, bs) ← copyin pt (u64 (addr + i)) 1;
         if r =? -1 then mret (Some (Some false)) else
         write_pipe pi (pipe_put (hd 0 bs)) ;;
         mret (Some None)).

Fixpoint pipewrite_loop (left : nat) (pr : nat) (pi addr i : Z) : M Z :=
  match left with
  | O =>
      wakeup (Some (ChPipeR pi)) ;;
      release (LkPipe pi) ;;
      mret i
  | S left' =>
      r ← pipewrite_byte pr pi addr i;
      match r with
      | Some true => mret (-1)
      | Some false =>
          wakeup (Some (ChPipeR pi)) ;;
          release (LkPipe pi) ;;
          mret i
      | None => pipewrite_loop left' pr pi addr (i + 1)
      end
  end.
Definition pipewrite (pi addr n : Z) : M Z :=
  pr ← myproc;
  acquire (LkPipe pi) ;;
  match pr with
  | None => panic "kerneltrap"
  | Some pr => pipewrite_loop (Z.to_nat n) pr pi addr 0
  end.

(** [while(pi->nread == pi->nwrite && pi->writeopen)]; [true] for [return -1]. *)
Definition piperead_wait (pr : nat) (pi : Z) : M bool :=
  loop w_fuel
    (p ← read_pipe pi id;
     if (pi_nread p =? pi_nwrite p) && negb (pi_writeopen p =? 0) then
       k ← killed pr;
       if negb (k =? 0) then
         release (LkPipe pi) ;;
         mret (Some true)
       else
         sleep (ChPipeR pi) (LkPipe pi) ;;
         mret None
     else mret (Some false)).

(** The value of [i] when the copy loop ends. *)
Fixpoint piperead_loop (left : nat) (pr : nat) (pi addr i : Z) : M Z :=
  match left with
  | O => mret i
  | S left' =>
      p ← read_pipe pi id;
      if pi_nread p =? pi_nwrite p then mret i else
      let c := pi_data p !!! Z.to_nat (pi_nread p mod PIPESIZE) in
      pt ← read_proc pr p_pagetable;
      r ← copyout pt (u64 (addr + i)) [c];
      if r =? -1 then mret (if i =? 0 then -1 else i) else
      write_pipe pi (λ p, p <| pi_nread := u32 (pi_nread p + 1) |>) ;;
      piperead_loop left' pr pi addr (i + 1)
  end.
Definition piperead (pi addr n : Z) : M Z :=
  pr ← myproc;
  acquire (LkPipe pi) ;;
  match pr with
  | None => panic "kerneltrap"
  | Some pr =>
      dead ← piperead_wait pr pi;
      if dead : bool then mret (-1) else
      i ← piperead_loop (Z.to_nat n) pr pi addr 0;
      wakeup (Some (ChPipeW pi)) ;;
      release (LkPipe pi) ;;
      mret i
  end.
End pipe.
