(* ===== verification/File.v ===== *)
(** * Open files: [kernel/file.c] and [pipealloc] of [kernel/pipe.c] *)
From S2P Require Import Prelude Layout KState Spinlock CString Kalloc Vm Proc Console Log Fs Pipe.

Definition read_file {A} (f : nat) (g : file -> A) : M A := gets (λ k, g (ftable k !!! f)).
Definition write_file (f : nat) (g : file -> file) : M () :=
  modify (λ k, k <| ftable ::= upd f g |>).

Section file.
Context {L : Linker} {W : World}.

Definition fileinit : M () := initlock LkFtable.

Definition filealloc : M (option nat) :=
  acquire LkFtable ;;
  r ← for_first (seq 0 NFILE) (λ f,
        ref ← read_file f f_ref;
        if ref =? 0 then
          write_file f (λ r, r <| f_ref := 1 |>) ;;
          mret (Some f)
        else mret None);
  release LkFtable ;;
  mret r.

Definition filedup (f : nat) : M nat :=
  acquire LkFtable ;;
  ref ← read_file f f_ref;
  if ref <? 1 then panic "filedup" else
  write_file f (λ r, r <| f_ref := i32 (f_ref r + 1) |>) ;;
  release LkFtable ;;
  mret f.

Definition fileclose (f : nat) : M () :=
  acquire LkFtable ;;
  ref ← read_file f f_ref;
  if ref <? 1 then panic "fileclose" else
  write_file f (λ r, r <| f_ref := i32 (f_ref r - 1) |>) ;;
  ref ← read_file f f_ref;
  if 0 <? ref then release LkFtable else
  ff ← read_file f id;
  write_file f (λ r, r <| f_ref := 0 |> <| f_type := FD_NONE |>) ;;
  release LkFtable ;;
  match f_type ff with
  | FD_PIPE => pipeclose (f_pipe ff) (negb (f_writable ff =? 0))
  | FD_INODE | FD_DEVICE =>
      begin_op ;;
      match f_ip ff with
      | None => panic "kerneltrap"
      | Some ip => iput ip
      end ;;
      end_op
  | FD_NONE => mret ()
  end.

(** [kernel/pipe.c]: the two files, or [None] for the return value -1. *)
Definition pipealloc_bad (pi : Z) (f0 f1 : option nat) : M (option (nat * nat)) :=
  when (negb (pi =? 0)) (kfree pi) ;;
  match f0 with Some f => fileclose f | None => mret () end ;;
  match f1 with Some f => fileclose f | None => mret () end ;;
  mret None.
Definition pipealloc : M (option (nat * nat)) :=
  f0 ← filealloc;
  f1 ← (match f0 with None => mret None | Some _ => filealloc end);
  match f0, f1 with
  | Some r, Some w =>
      pi ← kalloc;
      if pi =? 0 then pipealloc_bad 0 f0 f1 else
      modify (λ k, k <| pipes ::= <[pi := mk_pipe (replicate (Z.to_nat PIPESIZE) 5) 0 0 1 1]> |>) ;;
      initlock (LkPipe pi) ;;
      write_file r (λ f, f <| f_type := FD_PIPE |> <| f_readable := 1 |> <| f_writable := 0 |>
                           <| f_pipe := pi |>) ;;
      write_file w (λ f, f <| f_type := FD_PIPE |> <| f_readable := 0 |> <| f_writable := 1 |>
                           <| f_pipe := pi |>) ;;
      mret (Some (r, w))
  | _, _ => pipealloc_bad 0 f0 f1
  end.

Definition filestat (f : nat) (addr : Z) : M Z :=
  p ← myproc;
  t ← read_file f f_type;
  if bool_decide (t = FD_INODE) || bool_decide (t = FD_DEVICE) then
    ip ← read_file f f_ip;
    ilock ip ;;
    st ← (match ip with Some ip => stati ip | None => panic "kerneltrap" end);
    iunlock ip ;;
    match p with
    | None => panic "kerneltrap"
    | Some p =>
        pt ← read_proc p p_pagetable;
        r ← copyout pt addr st;
        if r <? 0 then mret (-1) else mret 0
    end
  else mret (-1).

(** The entry of [devsw], null outside the table or where no driver has
    installed itself. *)
Definition devsw_entry (tbl : list (option dev_fn)) (major : Z) : option dev_fn :=
  if (major <? 0) || (NDEV <=? major) then None else tbl !!! Z.to_nat major.

Definition dev_io (d : dev_fn) (addr n : Z) : M Z :=
  match d with
  | consoleread_fn => consoleread true addr n
  | consolewrite_fn => consolewrite true addr n
  end.

Definition fileread (f : nat) (addr n : Z) : M Z :=
  readable ← read_file f f_readable;
  if readable =? 0 then mret (-1) else
  t ← read_file f f_type;
  match t with
  | FD_PIPE =>
      pi ← read_file f f_pipe;
      piperead pi addr n
  | FD_DEVICE =>
      major ← read_file f f_major;
      tbl ← gets devsw_read;
      match devsw_entry tbl major with
      | None => mret (-1)
      | Some d => dev_io d addr n
      end
  | FD_INODE =>
      ip ← read_file f f_ip;
      ilock ip ;;
      match ip with
      | None => panic "kerneltrap"
      | Some i =>
          off ← read_file f f_off;
          '(r, _) ← readi i (UserDst addr) off (u32 n);
          when (0 <? r) (write_file f (λ g, g <| f_off := u32 (f_off g + r) |>)) ;;
          iunlock ip ;;
          mret r
      end
  | FD_NONE => panic "fileread"
  end.

(** [int max = ((MAXOPBLOCKS-1-1-2) / 2) * BSIZE]. *)
Definition write_max : Z := (MAXOPBLOCKS - 1 - 1 - 2) / 2 * BSIZE.

(** [while(i < n)]: the value of [i] when it ends; each round writes at least
    one byte or leaves the loop. *)
Fixpoint filewrite_loop (fuel : nat) (f : nat) (addr i n : Z) : M Z :=
  match fuel with
  | O => spin
  | S fuel' =>
      if i <? n then
        let n1 := if write_max <? n - i then write_max else n - i in
        begin_op ;;
        ip ← read_file f f_ip;
        ilock ip ;;
        match ip with
        | None => panic "kerneltrap"
        | Some ino =>
            off ← read_file f f_off;
            r ← writei ino (UserSrc (u64 (addr + i))) off n1;
            when (0 <? r) (write_file f (λ g, g <| f_off := u32 (f_off g + r) |>)) ;;
            iunlock ip ;;
            end_op ;;
            if negb (r =? n1) then mret i
            else filewrite_loop fuel' f addr (i + r) n
        end
      else mret i
  end.

Definition filewrite (f : nat) (addr n : Z) : M Z :=
  writable ← read_file f f_writable;
  if writable =? 0 then mret (-1) else
  t ← read_file f f_type;
  match t with
  | FD_PIPE =>
      pi ← read_file f f_pipe;
      pipewrite pi addr n
  | FD_DEVICE =>
      major ← read_file f f_major;
      tbl ← gets devsw_write;
      match devsw_entry tbl major with
      | None => mret (-1)
      | Some d => dev_io d addr n
      end
  | FD_INODE =>
      i ← filewrite_loop (S (Z.to_nat n)) f addr 0 n;
      mret (if i =? n then n else -1)
  | FD_NONE => panic "filewrite"
  end.
End file.
