(* ===== verification/Trap.v ===== *)
(** * Traps and interrupts: [kernel/trap.c]

    The clock interrupt and the return to user space.  The trap handlers
    themselves, which call the device drivers and the system calls, are in
    [Usertrap]. *)
From S2P Require Import Prelude Layout KState Spinlock CString Kalloc Vm Proc.

(** Offsets in [struct trapframe]. *)
Definition tf_kernel_satp : Z := 0.
Definition tf_kernel_sp : Z := 8.
Definition tf_kernel_trap : Z := 16.
Definition tf_epc : Z := 24.
Definition tf_kernel_hartid : Z := 32.
Definition tf_sp : Z := 48.
Definition tf_a0 : Z := 112.
Definition tf_a1 : Z := 120.
Definition tf_a7 : Z := 168.
(** [sizeof(struct trapframe)]. *)
Definition TRAPFRAME_SIZE : Z := 288.

Definition clockintr : M () :=
  id ← cpuid;
  when (bool_decide (id = 0%nat))
    (acquire LkTicks ;;
     modify (λ k, k <| ticks := u32 (ticks k + 1) |>) ;;
     wakeup (Some ChTicks) ;;
     release LkTicks) ;;
  mlfq_tick ;;
  t ← read_csr r_time;
  write_csr (λ r, r <| r_stimecmp := u64 (t + 1000000) |>).

Definition trapinit : M () := initlock LkTicks.

Section trap.
Context {L : Linker}.

Definition trapinithart : M () := write_csr (λ r, r <| r_stvec := l_kernelvec |>).

Definition prepare_return : M () :=
  p ← myproc;
  match p with
  | None => panic "kerneltrap"
  | Some p =>
      intr_off ;;
      let trampoline_uservec := u64 (TRAMPOLINE + (l_uservec - l_trampoline)) in
      write_csr (λ r, r <| r_stvec := trampoline_uservec |>) ;;
      tf ← read_proc p p_trapframe;
      satp ← read_csr r_satp;
      store64 (tf + tf_kernel_satp) satp ;;
      kstack ← read_proc p p_kstack;
      store64 (tf + tf_kernel_sp) (u64 (kstack + PGSIZE)) ;;
      store64 (tf + tf_kernel_trap) l_usertrap ;;
      id ← cpuid;
      store64 (tf + tf_kernel_hartid) (Z.of_nat id) ;;
      x ← read_csr r_sstatus;
      let x := Z.land x (Z.lnot SSTATUS_SPP) in
      let x := Z.lor x SSTATUS_SPIE in
      write_csr (λ r, r <| r_sstatus := x |>) ;;
      epc ← load64 (tf + tf_epc);
      write_csr (λ r, r <| r_sepc := epc |>)
  end.

End trap.
