(* ===== verification/Exec.v ===== *)
(** * System call arguments and [exec]: [kernel/syscall.c], [kernel/exec.c] *)
From Stdlib Require Import String.
From S2P Require Import Prelude Layout KState Spinlock CString Kalloc Vm Proc Uart Log Fs Trap.

Section exec.
Context {L : Linker} {W : World}.

(** ** Fetching arguments *)

(** The current process; the code dereferences the pointer. *)
Definition curproc : M nat :=
  p ← myproc;
  match p with
  | Some p => mret p
  | None => panic "kerneltrap"
  end.

(** [None] is the return value -1. *)
Definition fetchaddr (addr : Z) : M (option Z) :=
  p ← curproc;
  sz ← read_proc p p_sz;
  if (sz <=? addr) || (sz <? u64 (addr + 8)) then mret None else
  pt ← read_proc p p_pagetable;
  '(r, bs) ← copyin pt addr 8;
  if negb (r =? 0) then mret None else mret (Some (le_val bs)).

(** The bytes stored in [buf] and, unless the result is -1, the string. *)
Definition fetchstr (addr max : Z) : M (list Z * option (list Z)) :=
  p ← curproc;
  pt ← read_proc p p_pagetable;
  '(r, bs) ← copyinstr pt addr max;
  if r <? 0 then mret (bs, None) else mret (bs, Some (until_nul bs)).

Definition argraw (n : nat) : M Z :=
  p ← curproc;
  tf ← read_proc p p_trapframe;
  if bool_decide (n <= 5)%nat then load64 (tf + tf_a0 + 8 * Z.of_nat n) else panic "argraw".
Definition argint (n : nat) : M Z :=
  a ← argraw n;
  mret (i32 a).
Definition argaddr (n : nat) : M Z := argraw n.
Definition argstr (n : nat) (max : Z) : M (option (list Z)) :=
  addr ← argaddr n;
  '(_, s) ← fetchstr addr max;
  mret s.

(** ** ELF files *)

Definition ELF_MAGIC : Z := 0x464C457F.
Definition ELF_PROG_LOAD : Z := 1.
Definition ELFHDR_SIZE : Z := 64.
Definition PROGHDR_SIZE : Z := 56.
Definition elf_magic (e : list Z) : Z := get_le 4 0 e.
Definition elf_entry (e : list Z) : Z := get_le 8 24 e.
Definition elf_phoff (e : list Z) : Z := get_le 8 32 e.
Definition elf_phnum (e : list Z) : Z := get_le 2 56 e.
Definition ph_type (h : list Z) : Z := get_le 4 0 h.
Definition ph_flags (h : list Z) : Z := get_le 4 4 h.
Definition ph_off (h : list Z) : Z := get_le 8 8 h.
Definition ph_vaddr (h : list Z) : Z := get_le 8 16 h.
Definition ph_filesz (h : list Z) : Z := get_le 8 32 h.
Definition ph_memsz (h : list Z) : Z := get_le 8 40 h.

Definition flags2perm (flags : Z) : Z :=
  let perm := if negb (Z.land flags 0x1 =? 0) then PTE_X else 0 in
  if negb (Z.land flags 0x2 =? 0) then Z.lor perm PTE_W else perm.

(** [for(i = 0; i < sz; i += PGSIZE)]. *)
Fixpoint loadseg_loop (fuel : nat) (pagetable va : Z) (ip : nat) (offset i sz : Z) : M Z :=
  match fuel with
  | O => spin
  | S fuel' =>
      if i <? sz then
        pa ← walkaddr pagetable (u64 (va + i));
        if pa =? 0 then panic "loadseg: address should exist" else
        let n := if sz - i <? PGSIZE then sz - i else PGSIZE in
        '(r, _) ← readi ip (KernDst pa) (u32 (offset + i)) n;
        if negb (r =? n) then mret (-1)
        else loadseg_loop fuel' pagetable va ip offset (i + PGSIZE) sz
      else mret 0
  end.
Definition loadseg (pagetable va : Z) (ip : nat) (offset sz : Z) : M Z :=
  loadseg_loop (S (Z.to_nat (sz / PGSIZE + 1))) pagetable va ip offset 0 sz.

(** The program headers: [inr sz] at the end of the loop, [inl sz] for
    [goto bad]. *)
Fixpoint load_segments (left : nat) (pagetable : Z) (ip : nat) (off sz : Z) : M (Z + Z) :=
  match left with
  | O => mret (inr sz)
  | S left' =>
      '(r, ph) ← readi ip LocalDst (u32 off) PROGHDR_SIZE;
      if negb (r =? PROGHDR_SIZE) then mret (inl sz) else
      let next := load_segments left' pagetable ip (i32 (off + PROGHDR_SIZE)) in
      if negb (ph_type ph =? ELF_PROG_LOAD) then next sz else
      if ph_memsz ph <? ph_filesz ph then mret (inl sz) else
      if u64 (ph_vaddr ph + ph_memsz ph) <? ph_vaddr ph then mret (inl sz) else
      if negb (ph_vaddr ph mod PGSIZE =? 0) then mret (inl sz) else
      sz1 ← uvmalloc pagetable sz (u64 (ph_vaddr ph + ph_memsz ph)) (flags2perm (ph_flags ph));
      if sz1 =? 0 then mret (inl sz) else
      r ← loadseg pagetable (ph_vaddr ph) ip (u32 (ph_off ph)) (u32 (ph_filesz ph));
      if r <? 0 then mret (inl sz1) else next sz1
  end.

(** An argument string: in a page of the kernel, or a literal. *)
Inductive karg : Type := ArgPage (pa : Z) | ArgLit (s : list Z).
Definition arg_string (a : karg) : M (list Z) :=
  match a with
  | ArgPage pa => gets (λ k, until_nul (bytes (Z.to_nat PGSIZE) (mem k) pa))
  | ArgLit s => mret s
  end.

(** [sp -= n; sp -= sp % 16;] *)
Definition push_sp (sp n : Z) : Z :=
  let sp := u64 (sp - n) in
  sp - sp mod 16.

(** Copying the strings to the new stack: the stack pointer and [ustack], or
    [None] for [goto bad]. *)
Fixpoint push_args (argv : list karg) (argc : nat) (pagetable sp stackbase : Z) (ustack : list Z)
  : M (option (Z * list Z)) :=
  match argv with
  | [] => mret (Some (sp, ustack))
  | a :: argv' =>
      if bool_decide (MAXARG <= argc)%nat then mret None else
      s ← arg_string a;
      let sp := push_sp sp (Z.of_nat (length s) + 1) in
      if sp <? stackbase then mret None else
      r ← copyout pagetable sp (s ++ [0]);
      if r <? 0 then mret None
      else push_args argv' (S argc) pagetable sp stackbase (ustack ++ [sp])
  end.

(** The part of the path after its last slash. *)
Fixpoint last_elem (path last : list Z) : list Z :=
  match path with
  | [] => last
  | x :: path' => last_elem path' (if x =? slash then path' else last)
  end.

(** [bad:], with [ip] still locked or already put. *)
Definition exec_bad (pagetable sz : Z) (ip : option nat) : M Z :=
  when (negb (pagetable =? 0)) (proc_freepagetable pagetable sz) ;;
  match ip with
  | Some ip =>
      iunlockput ip ;;
      end_op
  | None => mret ()
  end ;;
  mret (-1).

(** From [p = myproc()] after the program is loaded. *)
Definition exec_stack (path : list Z) (argv : list karg) (entry pagetable sz : Z) : M Z :=
  p ← curproc;
  oldsz ← read_proc p p_sz;
  let sz := PGROUNDUP sz in
  sz1 ← uvmalloc pagetable sz (u64 (sz + (USERSTACK + 1) * PGSIZE)) PTE_W;
  if sz1 =? 0 then exec_bad pagetable sz None else
  let sz := sz1 in
  uvmclear pagetable (u64 (sz - (USERSTACK + 1) * PGSIZE)) ;;
  let stackbase := u64 (sz - USERSTACK * PGSIZE) in
  r ← push_args argv 0 pagetable sz stackbase [];
  match r with
  | None => exec_bad pagetable sz None
  | Some (sp, ustack) =>
      let argc := Z.of_nat (length ustack) in
      let sp := push_sp sp ((argc + 1) * 8) in
      if sp <? stackbase then exec_bad pagetable sz None else
      r ← copyout pagetable sp (concat (le_bytes 8 <$> ustack ++ [0]));
      if r <? 0 then exec_bad pagetable sz None else
      tf ← read_proc p p_trapframe;
      store64 (tf + tf_a1) sp ;;
      write_proc p (λ r, r <| p_name ::= splice 0 (safestrcpy_list 15 (last_elem path path)) |>) ;;
      oldpagetable ← read_proc p p_pagetable;
      write_proc p (λ r, r <| p_pagetable := pagetable |>) ;;
      write_proc p (λ r, r <| p_sz := sz |>) ;;
      store64 (tf + tf_epc) entry ;;
      store64 (tf + tf_sp) sp ;;
      proc_freepagetable oldpagetable oldsz ;;
      mret argc
  end.

Definition kexec (path : list Z) (argv : list karg) : M Z :=
  p ← curproc;
  begin_op ;;
  ip ← namei path;
  match ip with
  | None =>
      end_op ;;
      mret (-1)
  | Some ip =>
      ilock (Some ip) ;;
      '(r, elf) ← readi ip LocalDst 0 ELFHDR_SIZE;
      if negb (r =? ELFHDR_SIZE) then exec_bad 0 0 (Some ip) else
      if negb (elf_magic elf =? ELF_MAGIC) then exec_bad 0 0 (Some ip) else
      pagetable ← proc_pagetable p;
      if pagetable =? 0 then exec_bad 0 0 (Some ip) else
      r ← load_segments (Z.to_nat (elf_phnum elf)) pagetable ip (i32 (elf_phoff elf)) 0;
      match r with
      | inl sz => exec_bad pagetable sz (Some ip)
      | inr sz =>
          iunlockput ip ;;
          end_op ;;
          exec_stack path argv (elf_entry elf) pagetable sz
      end
  end.
End exec.
