(* ===== verification/Sysfile.v ===== *)
(** * File system calls: [kernel/sysfile.c]

    The results are C [int]s; the dispatcher stores them as 64-bit values. *)
From Stdlib Require Import Ascii String.
From S2P Require Import Prelude Layout KState Spinlock CString Kalloc Vm Proc Uart Log Fs File.
From S2P Require Import Trap Exec.

Section sysfile.
Context {L : Linker} {W : World}.

(** The descriptor and its file; [None] is the return value -1. *)
Definition argfd (n : nat) : M (option (Z * nat)) :=
  fd ← argint n;
  if (fd <? 0) || (Z.of_nat NOFILE <=? fd) then mret None else
  p ← curproc;
  f ← read_proc p (λ r, p_ofile r !!! Z.to_nat fd);
  mret (match f with Some f => Some (fd, f) | None => None end).

Definition fdalloc (f : nat) : M Z :=
  p ← curproc;
  r ← for_first (seq 0 NOFILE) (λ fd,
        o ← read_proc p (λ r, p_ofile r !!! fd);
        match o with
        | None =>
            write_proc p (λ r, r <| p_ofile ::= upd fd (λ _, Some f) |>) ;;
            mret (Some (Z.of_nat fd))
        | Some _ => mret None
        end);
  mret (default (-1) r).

Definition set_ofile (p : nat) (fd : Z) (f : option nat) : M () :=
  write_proc p (λ r, r <| p_ofile ::= upd (Z.to_nat fd) (λ _, f) |>).

Definition sys_dup : M Z :=
  a ← argfd 0;
  match a with
  | None => mret (-1)
  | Some (_, f) =>
      fd ← fdalloc f;
      if fd <? 0 then mret (-1) else
      filedup f ;;
      mret fd
  end.

Definition sys_read : M Z :=
  p ← argaddr 1;
  n ← argint 2;
  a ← argfd 0;
  match a with
  | None => mret (-1)
  | Some (_, f) => fileread f p n
  end.

Definition sys_write : M Z :=
  p ← argaddr 1;
  n ← argint 2;
  a ← argfd 0;
  match a with
  | None => mret (-1)
  | Some (_, f) => filewrite f p n
  end.

Definition sys_close : M Z :=
  a ← argfd 0;
  match a with
  | None => mret (-1)
  | Some (fd, f) =>
      p ← curproc;
      set_ofile p fd None ;;
      fileclose f ;;
      mret 0
  end.

Definition sys_fstat : M Z :=
  st ← argaddr 1;
  a ← argfd 0;
  match a with
  | None => mret (-1)
  | Some (_, f) => filestat f st
  end.

(** [bad:] of [sys_link]. *)
Definition link_bad (ip : nat) : M Z :=
  ilock (Some ip) ;;
  write_inode ip (λ r, r <| i_nlink := i16 (i_nlink r - 1) |>) ;;
  iupdate ip ;;
  iunlockput ip ;;
  end_op ;;
  mret (-1).

Definition sys_link : M Z :=
  old ← argstr 0 MAXPATH;
  match old with
  | None => mret (-1)
  | Some old =>
  new ← argstr 1 MAXPATH;
  match new with
  | None => mret (-1)
  | Some new =>
  begin_op ;;
  ip ← namei old;
  match ip with
  | None =>
      end_op ;;
      mret (-1)
  | Some ip =>
      ilock (Some ip) ;;
      t ← read_inode ip i_type;
      if t =? T_DIR then
        iunlockput ip ;;
        end_op ;;
        mret (-1)
      else
        write_inode ip (λ r, r <| i_nlink := i16 (i_nlink r + 1) |>) ;;
        iupdate ip ;;
        iunlock (Some ip) ;;
        '(dp, name) ← nameiparent new;
        match dp with
        | None => link_bad ip
        | Some dp =>
            ilock (Some dp) ;;
            ddev ← read_inode dp i_dev;
            idev ← read_inode ip i_dev;
            inum ← read_inode ip i_inum;
            r ← (if negb (ddev =? idev) then mret (-1) else dirlink dp name inum);
            if r <? 0 then
              iunlockput dp ;;
              link_bad ip
            else
              iunlockput dp ;;
              iput ip ;;
              end_op ;;
              mret 0
        end
  end
  end
  end.

(** [for(off = 2*sizeof(de); off < dp->size; off += sizeof(de))]. *)
Fixpoint isdirempty_loop (fuel : nat) (dp : nat) (off : Z) : M bool :=
  match fuel with
  | O => spin
  | S fuel' =>
      size ← read_inode dp i_size;
      if off <? size then
        '(r, de) ← readi dp LocalDst off DIRENT_SIZE;
        if negb (r =? DIRENT_SIZE) then panic "isdirempty: readi" else
        if negb (de_inum de =? 0) then mret false
        else isdirempty_loop fuel' dp (off + DIRENT_SIZE)
      else mret true
  end.
Definition isdirempty (dp : nat) : M bool :=
  size ← read_inode dp i_size;
  isdirempty_loop (S (Z.to_nat (size / DIRENT_SIZE + 1))) dp (2 * DIRENT_SIZE).

Definition unlink_bad (dp : nat) : M Z :=
  iunlockput dp ;;
  end_op ;;
  mret (-1).

Definition sys_unlink : M Z :=
  path ← argstr 0 MAXPATH;
  match path with
  | None => mret (-1)
  | Some path =>
  begin_op ;;
  '(dp, name) ← nameiparent path;
  match dp with
  | None =>
      end_op ;;
      mret (-1)
  | Some dp =>
      ilock (Some dp) ;;
      if (namecmp name (str ".") =? 0) || (namecmp name (str "..") =? 0) then unlink_bad dp else
      e ← dirlookup dp name;
      match e with
      | None => unlink_bad dp
      | Some (ip, off) =>
          ilock (Some ip) ;;
          nlink ← read_inode ip i_nlink;
          if nlink <? 1 then panic "unlink: nlink < 1" else
          t ← read_inode ip i_type;
          full ← (if t =? T_DIR then e ← isdirempty ip; mret (negb e) else mret false);
          if full : bool then
            iunlockput ip ;;
            unlink_bad dp
          else
            r ← writei dp (LocalSrc (replicate (Z.to_nat DIRENT_SIZE) 0)) off DIRENT_SIZE;
            if negb (r =? DIRENT_SIZE) then panic "unlink: writei" else
            t ← read_inode ip i_type;
            when (t =? T_DIR)
              (write_inode dp (λ r, r <| i_nlink := i16 (i_nlink r - 1) |>) ;;
               iupdate dp) ;;
            iunlockput dp ;;
            write_inode ip (λ r, r <| i_nlink := i16 (i_nlink r - 1) |>) ;;
            iupdate ip ;;
            iunlockput ip ;;
            end_op ;;
            mret 0
      end
  end
  end.

(** [fail:] of [create]. *)
Definition create_fail (ip dp : nat) : M (option nat) :=
  write_inode ip (λ r, r <| i_nlink := 0 |>) ;;
  iupdate ip ;;
  iunlockput ip ;;
  iunlockput dp ;;
  mret None.

(** The entries a new directory starts with. *)
Definition create_dots (ip dp : nat) : M Z :=
  inum ← read_inode ip i_inum;
  r ← dirlink ip (str ".") inum;
  if r <? 0 then mret (-1) else
  parent ← read_inode dp i_inum;
  dirlink ip (str "..") parent.

Definition create (path : list Z) (type major minor : Z) : M (option nat) :=
  '(dp, name) ← nameiparent path;
  match dp with
  | None => mret None
  | Some dp =>
      ilock (Some dp) ;;
      e ← dirlookup dp name;
      match e with
      | Some (ip, _) =>
          iunlockput dp ;;
          ilock (Some ip) ;;
          t ← read_inode ip i_type;
          if (type =? T_FILE) && ((t =? T_FILE) || (t =? T_DEVICE)) then mret (Some ip) else
          iunlockput ip ;;
          mret None
      | None =>
          dev ← read_inode dp i_dev;
          ip ← ialloc dev type;
          match ip with
          | None =>
              iunlockput dp ;;
              mret None
          | Some ip =>
              ilock (Some ip) ;;
              write_inode ip (λ r, r <| i_major := major |> <| i_minor := minor |>
                                     <| i_nlink := 1 |>) ;;
              iupdate ip ;;
              r ← (if type =? T_DIR then create_dots ip dp else mret 0);
              if r <? 0 then create_fail ip dp else
              inum ← read_inode ip i_inum;
              r ← dirlink dp name inum;
              if r <? 0 then create_fail ip dp else
              when (type =? T_DIR)
                (write_inode dp (λ r, r <| i_nlink := i16 (i_nlink r + 1) |>) ;;
                 iupdate dp) ;;
              iunlockput dp ;;
              mret (Some ip)
          end
      end
  end.

(** The inode [sys_open] opens, locked; [None] after [end_op] for the return
    value -1. *)
Definition open_inode (path : list Z) (omode : Z) : M (option nat) :=
  if negb (Z.land omode O_CREATE =? 0) then
    ip ← create path T_FILE 0 0;
    match ip with
    | None => end_op ;; mret None
    | Some ip => mret (Some ip)
    end
  else
    ip ← namei path;
    match ip with
    | None => end_op ;; mret None
    | Some ip =>
        ilock (Some ip) ;;
        t ← read_inode ip i_type;
        if (t =? T_DIR) && negb (omode =? O_RDONLY) then
          iunlockput ip ;;
          end_op ;;
          mret None
        else mret (Some ip)
    end.

Definition sys_open : M Z :=
  omode ← argint 1;
  path ← argstr 0 MAXPATH;
  match path with
  | None => mret (-1)
  | Some path =>
  begin_op ;;
  ip ← open_inode path omode;
  match ip with
  | None => mret (-1)
  | Some ip =>
      r ← read_inode ip id;
      if (i_type r =? T_DEVICE) && ((i_major r <? 0) || (NDEV <=? i_major r)) then
        iunlockput ip ;;
        end_op ;;
        mret (-1)
      else
        f ← filealloc;
        fd ← (match f with None => mret (-1) | Some f => fdalloc f end);
        match f with
        | Some f =>
            if fd <? 0 then
              fileclose f ;;
              iunlockput ip ;;
              end_op ;;
              mret (-1)
            else
              r ← read_inode ip id;
              (if i_type r =? T_DEVICE then
                 write_file f (λ g, g <| f_type := FD_DEVICE |> <| f_major := i_major r |>)
               else
                 write_file f (λ g, g <| f_type := FD_INODE |> <| f_off := 0 |>)) ;;
              write_file f (λ g, g <| f_ip := Some ip |>
                <| f_readable := Z.b2z (Z.land omode O_WRONLY =? 0) |>
                <| f_writable := Z.b2z (negb (Z.land omode O_WRONLY =? 0) ||
                                        negb (Z.land omode O_RDWR =? 0)) |>) ;;
              when (negb (Z.land omode O_TRUNC =? 0) && (i_type r =? T_FILE)) (itrunc ip) ;;
              iunlock (Some ip) ;;
              end_op ;;
              mret fd
        | None =>
            iunlockput ip ;;
            end_op ;;
            mret (-1)
        end
  end
  end.

Definition sys_mkdir : M Z :=
  begin_op ;;
  path ← argstr 0 MAXPATH;
  ip ← (match path with None => mret None | Some path => create path T_DIR 0 0 end);
  match ip with
  | None =>
      end_op ;;
      mret (-1)
  | Some ip =>
      iunlockput ip ;;
      end_op ;;
      mret 0
  end.

Definition sys_mknod : M Z :=
  begin_op ;;
  major ← argint 1;
  minor ← argint 2;
  path ← argstr 0 MAXPATH;
  ip ← (match path with
        | None => mret None
        | Some path => create path T_DEVICE (i16 major) (i16 minor)
        end);
  match ip with
  | None =>
      end_op ;;
      mret (-1)
  | Some ip =>
      iunlockput ip ;;
      end_op ;;
      mret 0
  end.

Definition sys_chdir : M Z :=
  p ← curproc;
  begin_op ;;
  path ← argstr 0 MAXPATH;
  ip ← (match path with None => mret None | Some path => namei path end);
  match ip with
  | None =>
      end_op ;;
      mret (-1)
  | Some ip =>
      ilock (Some ip) ;;
      t ← read_inode ip i_type;
      if negb (t =? T_DIR) then
        iunlockput ip ;;
        end_op ;;
        mret (-1)
      else
        iunlock (Some ip) ;;
        cwd ← read_proc p p_cwd;
        match cwd with Some c => iput c | None => panic "kerneltrap" end ;;
        end_op ;;
        write_proc p (λ r, r <| p_cwd := Some ip |>) ;;
        mret 0
  end.

(** The pages of the argument strings, and whether the loop ended in [break]
    rather than in [goto bad]. *)
Fixpoint exec_args (left : nat) (uargv : Z) (argv : list Z) : M (list Z * bool) :=
  match left with
  | O => mret (argv, false)
  | S left' =>
      a ← fetchaddr (u64 (uargv + 8 * Z.of_nat (length argv)));
      match a with
      | None => mret (argv, false)
      | Some uarg =>
          if uarg =? 0 then mret (argv, true) else
          pg ← kalloc;
          if pg =? 0 then mret (argv, false) else
          '(bs, s) ← fetchstr uarg PGSIZE;
          modify (λ k, k <| mem ::= write_bytes pg bs |>) ;;
          match s with
          | None => mret (argv ++ [pg], false)
          | Some _ => exec_args left' uargv (argv ++ [pg])
          end
      end
  end.

Definition sys_exec : M Z :=
  uargv ← argaddr 1;
  path ← argstr 0 MAXPATH;
  match path with
  | None => mret (-1)
  | Some path =>
      '(argv, ok) ← exec_args MAXARG uargv [];
      if ok : bool then
        ret ← kexec path (ArgPage <$> argv);
        for_each argv kfree ;;
        mret ret
      else
        for_each argv kfree ;;
        mret (-1)
  end.

Definition sys_pipe : M Z :=
  p ← curproc;
  fdarray ← argaddr 0;
  a ← pipealloc;
  match a with
  | None => mret (-1)
  | Some (rf, wf) =>
      fd0 ← fdalloc rf;
      fd1 ← (if fd0 <? 0 then mret (-1) else fdalloc wf);
      if (fd0 <? 0) || (fd1 <? 0) then
        when (0 <=? fd0) (set_ofile p fd0 None) ;;
        fileclose rf ;;
        fileclose wf ;;
        mret (-1)
      else
        pt ← read_proc p p_pagetable;
        r ← copyout pt fdarray (le_bytes 4 (u32 fd0));
        r ← (if r <? 0 then mret r else copyout pt (u64 (fdarray + 4)) (le_bytes 4 (u32 fd1)));
        if r <? 0 then
          set_ofile p fd0 None ;;
          set_ofile p fd1 None ;;
          fileclose rf ;;
          fileclose wf ;;
          mret (-1)
        else mret 0
  end.
End sysfile.
