(* ===== verification/Syscall.v ===== *)
(** * Fork, exit and the system calls: the rest of [kernel/proc.c],
    [kernel/sysproc.c], [kernel/syscall.c] *)
From Stdlib Require Import String.
From S2P Require Import Prelude Layout KState Spinlock CString Kalloc Vm Proc Uart Log Fs File.
From S2P Require Import Trap Exec Sysfile.

(** [kernel/vm.h] *)

Section syscall.
Context {L : Linker} {W : World}.

(** ** [kernel/proc.c] *)

Definition userinit : M () :=
  p ← allocproc;
  modify (λ k, k <| initproc := p |>) ;;
  match p with
  | None => panic "kerneltrap"
  | Some p =>
      cwd ← namei (str "/");
      write_proc p (λ r, r <| p_cwd := cwd |>) ;;
      write_proc p (λ r, r <| p_state := RUNNABLE |>) ;;
      release (LkProc p)
  end.

Definition kfork : M Z :=
  me ← myproc;
  np ← allocproc;
  match np with
  | None => mret (-1)
  | Some np =>
      match me with
      | None => panic "kerneltrap"
      | Some p =>
          ppt ← read_proc p p_pagetable;
          npt ← read_proc np p_pagetable;
          psz ← read_proc p p_sz;
          r ← uvmcopy ppt npt psz;
          if r <? 0 then
            freeproc np ;;
            release (LkProc np) ;;
            mret (-1)
          else
            psz ← read_proc p p_sz;
            write_proc np (λ r, r <| p_sz := psz |>) ;;
            ptf ← read_proc p p_trapframe;
            ntf ← read_proc np p_trapframe;
            do_memmove ntf ptf TRAPFRAME_SIZE ;;
            store64 (ntf + tf_a0) 0 ;;
            for_each (seq 0 NOFILE) (λ i,
              f ← read_proc p (λ r, p_ofile r !!! i);
              match f with
              | None => mret ()
              | Some f =>
                  f ← filedup f;
                  write_proc np (λ r, r <| p_ofile ::= upd i (λ _, Some f) |>)
              end) ;;
            cwd ← read_proc p p_cwd;
            match cwd with
            | None => panic "kerneltrap"
            | Some c =>
                c ← idup c;
                write_proc np (λ r, r <| p_cwd := Some c |>)
            end ;;
            name ← read_proc p p_name;
            write_proc np (λ r, r <| p_name ::= splice 0 (safestrcpy_list 15 name) |>) ;;
            pid ← read_proc np p_pid;
            release (LkProc np) ;;
            acquire LkWait ;;
            write_proc np (λ r, r <| p_parent := Some p |>) ;;
            release LkWait ;;
            acquire (LkProc np) ;;
            write_proc np (λ r, r <| p_state := RUNNABLE |>) ;;
            release (LkProc np) ;;
            mret pid
      end
  end.

(** It never returns: [sched] is not resumed, or the code panics. *)
Definition kexit (status : Z) : M () :=
  p ← curproc;
  ip ← gets initproc;
  if bool_decide (ip = Some p) then panic "init exiting" else
  for_each (seq 0 NOFILE) (λ fd,
    f ← read_proc p (λ r, p_ofile r !!! fd);
    match f with
    | None => mret ()
    | Some f =>
        fileclose f ;;
        write_proc p (λ r, r <| p_ofile ::= upd fd (λ _, None) |>)
    end) ;;
  begin_op ;;
  cwd ← read_proc p p_cwd;
  match cwd with None => panic "kerneltrap" | Some c => iput c end ;;
  end_op ;;
  write_proc p (λ r, r <| p_cwd := None |>) ;;
  acquire LkWait ;;
  reparent p ;;
  parent ← read_proc p p_parent;
  wakeup (ChProc <$> parent) ;;
  acquire (LkProc p) ;;
  write_proc p (λ r, r <| p_xstate := status |>) ;;
  write_proc p (λ r, r <| p_state := ZOMBIE |>) ;;
  t ← gets ticks;
  write_proc p (λ r, r <| p_end_time := t |>) ;;
  release LkWait ;;
  sched ;;
  panic "zombie exit".

(** The new process' first run: the value for [satp], with which the
    trampoline then enters user space. *)
Definition forkret : M Z :=
  p ← curproc;
  release (LkProc p) ;;
  first ← gets forkret_first;
  when (negb (first =? 0))
    (fsinit ROOTDEV ;;
     modify (λ k, k <| forkret_first := 0 |>) ;;
     r ← kexec (str "/init") [ArgLit (str "/init")];
     tf ← read_proc p p_trapframe;
     store64 (tf + tf_a0) (u64 r) ;;
     a0 ← load64 (tf + tf_a0);
     if a0 =? u64 (-1) then panic "exec" else mret ()) ;;
  prepare_return ;;
  pt ← read_proc p p_pagetable;
  mret (MAKE_SATP pt).

(** ** [kernel/sysproc.c] *)

Definition sys_exit : M Z :=
  n ← argint 0;
  kexit n ;;
  mret 0.

Definition sys_getpid : M Z :=
  p ← curproc;
  read_proc p p_pid.

Definition sys_fork : M Z := kfork.

Definition sys_wait : M Z :=
  p ← argaddr 0;
  kwait p.

Definition sys_sbrk : M Z :=
  n ← argint 0;
  t ← argint 1;
  p ← curproc;
  addr ← read_proc p p_sz;
  if (t =? SBRK_EAGER) || (n <? 0) then
    r ← growproc n;
    if r <? 0 then mret (-1) else mret addr
  else
    if u64 (addr + n) <? addr then mret (-1) else
    if TRAPFRAME <? u64 (addr + n) then mret (-1) else
    p ← curproc;
    write_proc p (λ r, r <| p_sz := u64 (p_sz r + n) |>) ;;
    mret addr.

(** [while(ticks - ticks0 < n)], the difference as a [uint]. *)
Definition ticks_wait (ticks0 n : Z) : M Z :=
  loop w_fuel
    (t ← gets ticks;
     if u32 (t - ticks0) <? n then
       p ← curproc;
       k ← killed p;
       if negb (k =? 0) then
         release LkTicks ;;
         mret (Some (-1))
       else
         sleep ChTicks LkTicks ;;
         mret None
     else
       release LkTicks ;;
       mret (Some 0)).

Definition sys_pause : M Z :=
  n ← argint 0;
  let n := if n <? 0 then 0 else n in
  acquire LkTicks ;;
  ticks0 ← gets ticks;
  ticks_wait ticks0 n.

Definition sys_kill : M Z :=
  pid ← argint 0;
  kkill pid.

Definition sys_uptime : M Z :=
  acquire LkTicks ;;
  xticks ← gets ticks;
  release LkTicks ;;
  mret xticks.

Definition sys_sleep : M Z :=
  n ← argint 0;
  if n <? 0 then mret (-1) else
  acquire LkTicks ;;
  ticks0 ← gets ticks;
  ticks_wait ticks0 n.

Definition sys_getprocinfo : M Z :=
  pid ← argint 0;
  addr ← argaddr 1;
  getprocinfo pid addr.

(** ** [kernel/syscall.c] *)

(** The table [syscalls], by the numbers of [kernel/syscall.h]. *)
Definition syscalls (num : Z) : option (M Z) :=
  match num with
  | 1 => Some sys_fork
  | 2 => Some sys_exit
  | 3 => Some sys_wait
  | 4 => Some sys_pipe
  | 5 => Some sys_read
  | 6 => Some sys_kill
  | 7 => Some sys_exec
  | 8 => Some sys_fstat
  | 9 => Some sys_chdir
  | 10 => Some sys_dup
  | 11 => Some sys_getpid
  | 12 => Some sys_sbrk
  | 13 => Some sys_pause
  | 14 => Some sys_uptime
  | 15 => Some sys_open
  | 16 => Some sys_write
  | 17 => Some sys_mknod
  | 18 => Some sys_unlink
  | 19 => Some sys_link
  | 20 => Some sys_mkdir
  | 21 => Some sys_close
  | 22 => Some sys_getprocinfo
  | 23 => Some sys_sleep
  | _ => None
  end.

Definition syscall : M () :=
  p ← curproc;
  tf ← read_proc p p_trapframe;
  a7 ← load64 (tf + tf_a7);
  let num := i32 a7 in
  match syscalls num with
  | Some f =>
      r ← f;
      store64 (tf + tf_a0) (u64 r)
  | None =>
      pid ← read_proc p p_pid;
      name ← read_proc p p_name;
      printf_fmt (str "%d %s: unknown sys call %d" ++ newline)
        [VInt pid; VStr (Some name); VInt num] ;;
      store64 (tf + tf_a0) (u64 (-1))
  end.
End syscall.
