(* ===== verification/Usertrap.v ===== *)
(** * Trap handlers and booting: [kernel/trap.c], [kernel/plic.c],
    [kernel/main.c], [kernel/start.c] *)
From Stdlib Require Import String.
From S2P Require Import Prelude Layout KState Spinlock CString Kalloc Vm Proc Uart Console.
From S2P Require Import Sleeplock Virtio Bio Log Fs File Trap Exec Sysfile Syscall.

(** [kernel/memlayout.h] *)
Definition PLIC_SENABLE (hart : Z) : Z := PLIC + 0x2080 + hart * 0x100.
Definition PLIC_SPRIORITY (hart : Z) : Z := PLIC + 0x201000 + hart * 0x2000.
Definition PLIC_SCLAIM (hart : Z) : Z := PLIC + 0x201004 + hart * 0x2000.

Section usertrap.
Context {L : Linker} {W : World}.

(** ** The interrupt controller *)

Definition plicinit : M () :=
  io_write (PLIC + UART0_IRQ * 4) 1 ;;
  io_write (PLIC + VIRTIO0_IRQ * 4) 1.

Definition plicinithart : M () :=
  hart ← cpuid;
  io_write (PLIC_SENABLE (Z.of_nat hart)) (Z.lor (Z.shiftl 1 UART0_IRQ) (Z.shiftl 1 VIRTIO0_IRQ)) ;;
  io_write (PLIC_SPRIORITY (Z.of_nat hart)) 0.

Definition plic_claim : M Z :=
  n ← gets plic_reads;
  modify (λ k, k <| plic_reads ::= S |>) ;;
  mret (i32 (w_plic n)).

Definition plic_complete (irq : Z) : M () :=
  hart ← cpuid;
  io_write (PLIC_SCLAIM (Z.of_nat hart)) (u32 irq).

(** ** Traps *)

Definition devintr : M Z :=
  scause ← read_csr r_scause;
  if scause =? 0x8000000000000009 then
    irq ← plic_claim;
    (if irq =? UART0_IRQ then uartintr
     else if irq =? VIRTIO0_IRQ then virtio_disk_intr
     else when (negb (irq =? 0))
       (printf_fmt (str "unexpected interrupt irq=%d" ++ newline) [VInt irq])) ;;
    when (negb (irq =? 0)) (plic_complete irq) ;;
    mret 1
  else if scause =? 0x8000000000000005 then
    clockintr ;;
    mret 2
  else mret 0.

(** The body of [usertrap] up to the last test of [killed]: [which_dev]. *)
Definition usertrap_cause (p : nat) : M Z :=
  scause ← read_csr r_scause;
  if scause =? 8 then
    k ← killed p;
    when (negb (k =? 0)) (kexit (-1)) ;;
    tf ← read_proc p p_trapframe;
    epc ← load64 (tf + tf_epc);
    store64 (tf + tf_epc) (u64 (epc + 4)) ;;
    intr_on ;;
    syscall ;;
    mret 0
  else
    d ← devintr;
    if negb (d =? 0) then mret d
    else
      scause ← read_csr r_scause;
      stval ← read_csr r_stval;
      pt ← read_proc p p_pagetable;
      r ← (if (scause =? 15) || (scause =? 13) then vmfault pt stval else mret 0);
      if negb (r =? 0) then mret 0
      else
        pid ← read_proc p p_pid;
        printf_fmt (str "usertrap(): unexpected scause 0x%lx pid=%d" ++ newline)
          [VInt scause; VInt pid] ;;
        sepc ← read_csr r_sepc;
        printf_fmt (str "            sepc=0x%lx stval=0x%lx" ++ newline) [VInt sepc; VInt stval] ;;
        setkilled p ;;
        mret 0.

(** The result is the [satp] the trampoline switches to. *)
Definition usertrap : M Z :=
  x ← read_csr r_sstatus;
  if negb (Z.land x SSTATUS_SPP =? 0) then panic "usertrap: not from user mode" else
  write_csr (λ r, r <| r_stvec := l_kernelvec |>) ;;
  p ← curproc;
  tf ← read_proc p p_trapframe;
  sepc ← read_csr r_sepc;
  store64 (tf + tf_epc) sepc ;;
  which_dev ← usertrap_cause p;
  k ← killed p;
  when (negb (k =? 0)) (kexit (-1)) ;;
  when (which_dev =? 2) yield ;;
  prepare_return ;;
  pt ← read_proc p p_pagetable;
  mret (MAKE_SATP pt).

Definition kerneltrap : M () :=
  sepc ← read_csr r_sepc;
  sstatus ← read_csr r_sstatus;
  scause ← read_csr r_scause;
  if Z.land sstatus SSTATUS_SPP =? 0 then panic "kerneltrap: not from supervisor mode" else
  on ← intr_get;
  if on : bool then panic "kerneltrap: interrupts enabled" else
  which_dev ← devintr;
  if which_dev =? 0 then
    sepc' ← read_csr r_sepc;
    stval ← read_csr r_stval;
    printf_fmt (str "scause=0x%lx sepc=0x%lx stval=0x%lx" ++ newline)
      [VInt scause; VInt sepc'; VInt stval] ;;
    panic "kerneltrap"
  else
    me ← (if which_dev =? 2 then myproc else mret None);
    when (bool_decide (is_Some me)) yield ;;
    write_csr (λ r, r <| r_sepc := sepc |>) ;;
    write_csr (λ r, r <| r_sstatus := sstatus |>).

(** ** Booting *)

(** [main] up to [scheduler()]. *)
Definition main : M () :=
  id ← cpuid;
  if bool_decide (id = 0%nat) then
    consoleinit ;;
    printfinit ;;
    printf_fmt newline [] ;;
    printf_fmt (str "xv6 kernel is booting" ++ newline) [] ;;
    printf_fmt newline [] ;;
    kinit ;;
    kvminit ;;
    kvminithart ;;
    procinit ;;
    trapinit ;;
    trapinithart ;;
    plicinit ;;
    plicinithart ;;
    binit ;;
    iinit ;;
    fileinit ;;
    virtio_disk_init ;;
    userinit ;;
    modify (λ k, k <| started := 1 |>)
  else
    s ← gets started;
    if s =? 0 then spin else
    id ← cpuid;
    printf_fmt (str "hart %d starting" ++ newline) [VInt (Z.of_nat id)] ;;
    kvminithart ;;
    trapinithart ;;
    plicinithart.
End usertrap.
