(* ===== verification/SchedEq.v ===== *)
(** * What the scheduling operations do to the process table

    Equations for the operations of [Proc] that schedule processes, for a hart
    that can take the locks of the process table. *)
From S2P Require Import Prelude Layout KState Spinlock Proc.
From S2P Require Import Vm.

(** ** Loops over the process table *)

Lemma foldl_upd_imap {A} `{Inhabited A} (f : nat -> A -> A) (l : list A) :
  foldl (λ s i, upd i (f i) s) l (seq 0 (length l)) = imap f l.
Proof.
  assert (∀ n, (n <= length l)%nat ->
    foldl (λ s i, upd i (f i) s) l (seq 0 n) = imap f (take n l) ++ drop n l) as Hn.
  { induction n as [|n IH]; intros Hn; [done|].
    rewrite seq_S, foldl_app, IH by lia. cbn [foldl Nat.add].
    destruct (lookup_lt_is_Some_2 l n) as [x Hx]; [lia|].
    rewrite (take_S_r _ _ _ Hx), imap_app, <- (app_assoc (imap f (take n l))).
    rewrite (drop_S _ _ _ Hx). cbn [imap].
    assert (length (imap f (take n l)) = n) as El by (rewrite length_imap, length_take; lia).
    unfold upd. rewrite list_lookup_total_alt, lookup_app_r by lia.
    rewrite El, Nat.sub_diag. cbn.
    rewrite insert_app_r_alt by lia. rewrite El, Nat.sub_diag. cbn.
    rewrite length_take_le, Nat.add_0_r by lia. done. }
  rewrite Hn, drop_all, app_nil_r, take_ge by lia. done.
Qed.

Definition set_table (ps : list proc) (m : machine) (k : kernel) : kernel :=
  k <| procs := ps |> <| mach := m |>.

(** A loop over the table whose iteration [i] changes entry [i] and leaves the
    hart as [m'] every time. *)
Lemma table_loop (f : nat -> proc -> proc) (body : nat -> M ()) k m' :
  length (procs k) = NPROC ->
  (∀ i ps m, (i < NPROC)%nat -> length ps = NPROC -> m = mach k ∨ m = m' ->
    body i (set_table ps m k) = Ret () (set_table (upd i (f i) ps) m' k)) ->
  for_each (seq 0 NPROC) body k = Ret () (set_table (imap f (procs k)) m' k).
Proof.
  intros Hlen Hbody.
  assert (∀ l ps m, Forall (λ i, (i < NPROC)%nat) l -> length ps = NPROC ->
      m = mach k ∨ m = m' -> l ≠ [] ->
      for_each l body (set_table ps m k) =
      Ret () (set_table (foldl (λ s i, upd i (f i) s) ps l) m' k)) as Hl.
  { induction l as [|i l IH]; intros ps m Hi Hps Hm Hne; [done|].
    apply Forall_cons in Hi as [Hi Hl]. cbn.
    rewrite (bind_Ret _ _ _ _ _ (Hbody i ps m Hi Hps Hm)).
    destruct l as [|j l]; [done|]. apply IH; [done|by rewrite length_upd|by right|done]. }
  rewrite <- foldl_upd_imap, Hlen.
  transitivity (for_each (seq 0 NPROC) body (set_table (procs k) (mach k) k)); [by destruct k|].
  apply Hl; [|done|by left|done]. apply Forall_forall. intros i. rewrite elem_of_seq. lia.
Qed.

(** The locks of the process table can be taken on this hart. *)
Record table_ok (k : kernel) : Prop := {
  table_hart : hart_ok 2 (mach k);
  table_free : ∀ i, (i < NPROC)%nat -> lock_free (LkProc i) (mach k);
  table_length : length (procs k) = NPROC;
}.

Lemma table_lock k i : table_ok k -> (i < NPROC)%nat -> can_lock (LkProc i) (mach k).
Proof. intros [] ?. split; auto. Qed.

(** A world in which a thread that is switched out is not resumed: a run stops
    at its first [swtch]. *)
Definition stopped : World := {|
  w_run _ := None; w_fuel := 1; w_uart _ _ := 0; w_plic _ := 0; w_virtio _ _ := 0; w_pad := [0; 0; 0; 0];
|}.

Section equations.
Context {W : World}.
Implicit Types k : kernel.

Lemma boost_all_priorities_eq k :
  length (procs k) = NPROC ->
  boost_all_priorities k = Ret () (k <| procs ::= fmap boost_proc |>).
Proof.
  intros Hlen. unfold boost_all_priorities.
  rewrite (table_loop (const boost_proc) _ k (mach k)); [|done|].
  - rewrite imap_const. by destruct k.
  - by intros i ps m _ _ [->| ->].
Qed.

(** A timer tick on the process table: the boost on every
    [STARVATION_THRESHOLD]th one, then the charge to the running process. *)
Definition tick_procs (c : Z) (me : option nat) (ps : list proc) : list proc :=
  let ps := if STARVATION_THRESHOLD <=? c then boost_proc <$> ps else ps in
  match me with Some p => upd p tick_proc ps | None => ps end.

Lemma mlfq_tick_eq k :
  hart_ok 1 (mach k) -> length (procs k) = NPROC -> 0 <= starvation_counter k < 2 ^ 31 - 1 ->
  mlfq_tick k =
    Ret () (k <| starvation_counter :=
                   if STARVATION_THRESHOLD <=? starvation_counter k + 1 then 0
                   else starvation_counter k + 1 |>
              <| procs ::= tick_procs (starvation_counter k + 1) (c_proc (my_cpu (mach k))) |>
              <| mach ::= touch |>).
Proof.
  intros Hh Hlen Hs. unfold mlfq_tick. rewrite bind_myproc by done.
  rewrite bind_modify, bind_gets. cbn [starvation_counter set set_starvation_counter set_mach].
  rewrite i32_small by lia. unfold tick_procs.
  destruct (STARVATION_THRESHOLD <=? starvation_counter k + 1); cbn [when].
  - rewrite bind_bind. erewrite bind_Ret by (apply boost_all_priorities_eq; exact Hlen).
    rewrite bind_modify. destruct (c_proc (my_cpu (mach k))); keq.
  - rewrite bind_ret. destruct (c_proc (my_cpu (mach k))); keq.
Qed.

Lemma wakeup_eq ch k :
  table_ok k ->
  wakeup ch k =
    Ret () (k <| procs ::= imap (λ i p,
              if bool_decide (c_proc (my_cpu (mach k)) = Some i) then p else wakeup_proc ch p) |>
              <| mach ::= touch |>).
Proof.
  intros [Hh Hf Hlen]. unfold wakeup. pose proof Hh as [Hc _ _ _].
  rewrite (table_loop (λ i p,
              if bool_decide (c_proc (my_cpu (mach k)) = Some i) then p else wakeup_proc ch p)
             _ k (touch (mach k))); [done|done|].
  intros i ps m Hi Hps Hm.
  assert (hart_ok 2 m ∧ c_proc (my_cpu m) = c_proc (my_cpu (mach k)) ∧ touch m = touch (mach k)
          ∧ lock_free (LkProc i) m) as (Hhm & Em & Et & Hl).
  { destruct Hm as [->| ->]; split_and!; auto using touch_ok, c_proc_touch, touch_idemp.
    apply Hf, Hi. }
  rewrite bind_myproc by (by apply (hart_ok_mono 2)).
  replace ((set_table ps m k) <| mach ::= touch |>) with (set_table ps (touch (mach k)) k)
    by (rewrite <- Et; done).
  cbn [mach set_table set set_mach]. rewrite Em. case_bool_decide as E1; cbn [when].
  - assert (can_lock (LkProc i) (touch (mach k))) as Hlk
      by (split; [by apply touch_ok|apply Hf, Hi]).
    step_acquire Hlk. unfold write_proc. rewrite bind_modify. step_release Hlk.
    change (mach (set_table ps (touch (mach k)) k)) with (touch (mach k)).
    rewrite touch_idemp, bool_decide_false by done. unfold set_table. keq.
  - rewrite bool_decide_true by (destruct (decide (c_proc (my_cpu (mach k)) = Some i)); done). unfold mret, ST_ret.
    by rewrite upd_id by (rewrite ?Hps; done).
Qed.

(** The process [p] runs on this hart, outside any critical section. *)
Record runs (p : nat) (k : kernel) : Prop := {
  runs_table : table_ok k;
  runs_idx : (p < NPROC)%nat;
  runs_proc : c_proc (my_cpu (mach k)) = Some p;
  runs_noff : c_noff (my_cpu (mach k)) = 0;
}.

(** [sched], called with only [p->lock] held and the state changed. *)
Lemma sched_eq p k m :
  mach k = acquired (LkProc p) m -> hart_ok 2 m ->
  c_proc (my_cpu m) = Some p -> c_noff (my_cpu m) = 0 ->
  p_state (procs k !!! p) ≠ RUNNING ->
  sched k = (swtch ;; sched_ret (c_intena (my_cpu (mach k)))) k.
Proof.
  intros Hm Hh Hp Hn Hst. pose proof Hh as [Hc _ _ _].
  assert (hart_ok 1 (mach k)) as Hh' by (rewrite Hm; by apply acquired_ok).
  pose proof (touch_acquired (LkProc p) m ltac:(by apply (hart_ok_mono 2))) as Et.
  pose proof (my_cpu_acquired (LkProc p) m Hc) as Ec.
  pose proof (lookup_total_correct _ _ _ (acquired_held (LkProc p) m)) as Hl.
  rewrite <- Hm in Et, Ec, Hl. rewrite Hp, Hn in Ec. cbn in Ec.
  assert (intr_enabled (mach k) = false) as He by (apply (hart_off 1 _ Hh'); by rewrite Ec).
  clear Hm. unfold sched.
  set (tail := λ i, swtch ;; sched_ret i).
  change ((swtch ;; sched_ret (c_intena (my_cpu (mach k)))) k)
    with (tail (c_intena (my_cpu (mach k))) k). clearbody tail.
  destruct k as [mk]. cbn in *.
  rewrite bind_myproc by (by apply (hart_ok_mono 1)). unfold set, set_mach.
  cbn [mach]. rewrite Et, Ec. cbn [c_proc].
  unfold my_cpu, intr_enabled, my_csr in *.
  unfold holding, read_cpu, intr_get, on_mach, Hart.holding, Hart.read_cpu, Hart.intr_get,
    Hart.read_csr, Hart.read_lock, Hart.mycpu, Hart.cpuid, read_proc. mcompute.
  cbn. rewrite Hl. cbn. rewrite bool_decide_true by done. cbn. rewrite Ec.
  cbn [c_noff]. change (negb (0 + 1 =? 1)) with false. unfold set_mach. cbn.
  rewrite bool_decide_false by done. cbn. rewrite He. cbn. by rewrite Ec.
Qed.

(** [yield] on the process and on the hart. *)
Definition yield_proc (p : proc) : proc :=
  (if bool_decide (p_state p = RUNNING) then p <| p_yielded_io := 1 |> else p)
    <| p_state := RUNNABLE |>.
Definition yield_state (p : nat) (k : kernel) : kernel :=
  k <| procs ::= upd p yield_proc |> <| mach := acquired (LkProc p) (mach k) |>.

Lemma runs_touch p k : runs p k -> runs p (k <| mach ::= touch |>).
Proof.
  intros [[Hh Hf Hl] Hi Hp Hn]. pose proof Hh as [Hc _ _ _]. split; [split| | |];
    change (mach (k <| mach ::= touch |>)) with (touch (mach k)).
  - by apply touch_ok.
  - done.
  - done.
  - done.
  - by rewrite my_cpu_touch.
  - by rewrite my_cpu_touch.
Qed.

(** The interrupt flag a switched out thread takes along. *)
Definition saved_intena (m : machine) : Z := c_intena (my_cpu m).

Lemma yield_eq p k :
  runs p k ->
  yield k = (swtch ;; yield_ret p (saved_intena (mach (yield_state p k)))) (yield_state p k).
Proof.
  intros [[Hh Hf Hl] Hi Hp Hn]. pose proof Hh as [Hc _ _ _]. unfold yield.
  rewrite bind_myproc by (by apply (hart_ok_mono 2)). rewrite Hp.
  assert (can_lock (LkProc p) (touch (mach k))) as Hlk
    by (apply can_lock_touch; split; auto).
  step_acquire Hlk. unfold read_proc, write_proc. rewrite bind_gets.
  rewrite acquired_touch by done.
  destruct k as [m0 ? ? ? ps]; cbn in *.
  case_bool_decide as E; cbn [when]; rewrite ?bind_ret, !bind_modify.
  all: erewrite bind_eq;
    [|apply (sched_eq p _ m0);
      [done..|kcbv; rewrite ?upd_upd, upd_eq by (by rewrite ?length_upd, Hl); done]].
  all: rewrite bind_bind; lazymatch goal with |- _ ?s = _ ?s' => assert (s = s') as Es end;
    [|by rewrite Es].
  all: unfold yield_state; kcbv; f_equal; rewrite ?upd_upd by (by rewrite Hl);
    apply upd_ext; unfold yield_proc; cbn; by case_bool_decide.
Qed.

(** [sleep], called with [lk] held and nothing else. *)
Definition sleep_proc (ch : chan) (p : proc) : proc :=
  p <| p_chan := Some ch |> <| p_state := SLEEPING |>.
Definition sleep_state (p : nat) (ch : chan) (m : machine) (k : kernel) : kernel :=
  k <| procs ::= upd p (sleep_proc ch) |> <| mach := acquired (LkProc p) m |>.

Lemma sleep_eq p ch lk k m :
  runs p (k <| mach := m |>) -> mach k = acquired lk m -> lk ≠ LkProc p -> lock_free lk m ->
  sleep ch lk k =
    (swtch ;; sleep_ret p lk (saved_intena (mach (sleep_state p ch m k)))) (sleep_state p ch m k).
Proof.
  intros [[Hh Hf Hl] Hi Hp Hn] Hm Hne Hlk. destruct k as [m0 ? ? ? ps]; cbn in *; subst m0.
  pose proof Hh as [Hc _ _ _]. unfold sleep.
  rewrite bind_myproc by (cbn; apply acquired_ok; [done|by apply (hart_ok_mono 2)]).
  cbn [mach]. rewrite my_cpu_acquired by done. cbn [c_proc]. rewrite Hp.
  assert (lock_free (LkProc p) m) as Hfp by (by apply Hf).
  erewrite bind_Ret.
  2:{ unfold acquire, on_mach. kcbv. rewrite touch_acquired by (by apply (hart_ok_mono 2)).
      rewrite acquire_free; [reflexivity| |by apply acquired_free].
      apply acquired_ok; [done|by apply (hart_ok_mono 2)]. }
  erewrite bind_Ret.
  2:{ unfold release, on_mach. kcbv. rewrite release_outer; [reflexivity|done| |done].
      by apply (hart_ok_mono 2). }
  unfold write_proc. rewrite !bind_modify.
  erewrite bind_eq; [|apply (sched_eq p _ m); [done..|]].
  - rewrite bind_bind. lazymatch goal with |- _ ?s = _ ?s' => assert (s = s') as Es end;
      [|by rewrite Es].
    unfold sleep_state. kcbv. f_equal. by rewrite upd_upd by (by rewrite Hl).
  - kcbv. rewrite upd_upd, upd_eq by (by rewrite Hl). done.
Qed.

(** The scheduler takes back the CPU from [p]. *)
Lemma scheduler_ret_eq p k m :
  mach k = acquired (LkProc p) m -> can_lock (LkProc p) m ->
  scheduler_ret p k =
    Ret () (k <| procs ::= upd p (λ r, r <| p_last_scheduled := ticks k |>) |>
              <| mach := touch (set_proc None m) |>).
Proof.
  intros Hm [Hh Hl]. unfold scheduler_ret. rewrite bind_gets. unfold write_proc. rewrite bind_modify.
  erewrite bind_Ret.
  2:{ unfold write_cpu, on_mach, Hart.write_cpu, modify. cbn. kcbv. reflexivity. }
  erewrite release_step with (m := set_proc None m).
  - keq.
  - rewrite <- set_proc_acquired, <- Hm. keq.
  - split; [by apply set_proc_ok|done].
Qed.

(** The process [p] is resumed after its [yield]. *)
Lemma yield_ret_eq p intena k m :
  mach k = acquired (LkProc p) m -> can_lock (LkProc p) m -> c_noff (my_cpu m) = 0 ->
  yield_ret p intena k = Ret () (k <| mach := resumed intena m |>).
Proof.
  intros Hm [Hh Hl] Hn. unfold yield_ret, sched_ret, write_cpu, release, on_mach.
  pose proof (release_resumed (LkProc p) m intena ltac:(by apply (hart_ok_mono 2)) Hn Hl) as E.
  unfold Hart.write_cpu in *. rewrite bind_modify in E.
  unfold modify. mcompute. rewrite Hm. revert E. kcbv. by intros ->.
Qed.

Lemma sleep_ret_eq p lk intena k m :
  mach k = acquired (LkProc p) m -> can_lock (LkProc p) m -> c_noff (my_cpu m) = 0 ->
  can_lock lk (resumed intena m) ->
  sleep_ret p lk intena k =
    Ret () (k <| procs ::= upd p (λ r, r <| p_chan := None |>) |>
              <| mach := acquired lk (resumed intena m) |>).
Proof.
  intros Hm Hl Hn Hlk. unfold sleep_ret.
  assert (∀ k', mach k' = mach k ->
    (sched_ret intena ;; release (LkProc p)) k' = Ret () (k' <| mach := resumed intena m |>)) as Hk.
  { intros k' E. apply (yield_ret_eq p intena k' m); [congruence|done..]. }
  specialize (Hk (k <| procs ::= upd p (λ r, r <| p_chan := None |>) |>)). specialize (Hk eq_refl).
  unfold sched_ret, write_cpu, on_mach, Hart.write_cpu, write_proc, modify in *.
  revert Hk. mcompute. kcbv. intros Hk. rewrite Hk. kcbv.
  rewrite (acquire_step lk _ (resumed intena m)); [keq|reflexivity|exact Hlk].
Qed.

(** ** The scheduler's choice *)

(** The first runnable process of a level, and of the levels in order. *)
Definition eligible (ps : list proc) (pr : Z) (i : nat) : bool :=
  bool_decide (p_state (ps !!! i) = RUNNABLE) && (p_priority (ps !!! i) =? pr).
Definition pick_level (ps : list proc) (pr : Z) : option nat :=
  head (filter (λ i, eligible ps pr i = true) (seq 0 NPROC)).
Definition pick (ps : list proc) : option nat :=
  head (omap (pick_level ps) [MLFQ_HIGH; MLFQ_MEDIUM; MLFQ_LOW]).

(** [intr_on(); intr_off()]. *)
Definition sched_entry (m : machine) : machine :=
  m <| m_csrs ::= upd (m_hart m) (λ r, r <| r_sstatus ::= λ x,
         Z.land (Z.lor x SSTATUS_SIE) (Z.lnot SSTATUS_SIE) |>) |>.

Definition dispatch_state (i : nat) (k : kernel) : kernel :=
  k <| procs ::= upd i (dispatch_proc (ticks k)) |>
    <| mach := acquired (LkProc i) (set_proc (Some i) (mach k)) |>.

Lemma scheduler_try_eq pr i k :
  table_ok k -> (i < NPROC)%nat ->
  scheduler_try pr i k = if eligible (procs k) pr i then Ret (Some i) (dispatch_state i k)
                     else Ret None (k <| mach ::= touch |>).
Proof.
  intros Hk Hi. pose proof (table_lock k i Hk Hi) as Hlk. unfold scheduler_try.
  step_acquire Hlk. unfold read_proc. rewrite !bind_gets. unfold eligible.
  change (procs (k <| mach := acquired (LkProc i) (mach k) |>)) with (procs k).
  destruct (bool_decide _ && _).
  - rewrite bind_gets. unfold write_cpu, on_mach, Hart.write_cpu, write_proc. mcompute.
    unfold dispatch_state. rewrite <- set_proc_acquired. keq.
  - step_release Hlk. keq.
Qed.

Lemma table_ok_mach k m :
  table_ok k -> hart_ok 2 m -> m_locks m = m_locks (mach k) -> table_ok (k <| mach := m |>).
Proof. intros [Hh Hf Hl] Hm E. split; [done| |done]. unfold lock_free. intros i Hi. cbn. by rewrite E; apply Hf. Qed.

Lemma table_ok_touch k : table_ok k -> table_ok (k <| mach ::= touch |>).
Proof. intros Hk. apply (table_ok_mach k); [done| |done]. apply touch_ok, Hk. Qed.

Lemma dispatch_touch i k : table_ok k ->
  dispatch_state i (k <| mach ::= touch |>) = dispatch_state i k.
Proof.
  intros Hk. unfold dispatch_state. kcbv. rewrite set_proc_touch, acquired_touch; [done|].
  apply (set_proc_ok 2 _ (mach k)), Hk.
Qed.

Lemma scan_level_eq pr l k :
  table_ok k -> Forall (λ i, (i < NPROC)%nat) l -> l ≠ [] ->
  for_first l (scheduler_try pr) k =
    match head (filter (λ i, eligible (procs k) pr i = true) l) with
    | Some i => Ret (Some i) (dispatch_state i k)
    | None => Ret None (k <| mach ::= touch |>)
    end.
Proof.
  intros Hk. revert k Hk. induction l as [|i l IH]; intros k Hk Hl Hne; [done|].
  apply Forall_cons in Hl as [Hi Hl]. cbn [for_first].
  pose proof (scheduler_try_eq pr i k Hk Hi) as E. rewrite filter_cons.
  destruct (eligible (procs k) pr i) eqn:Ei; rewrite (bind_Ret _ _ _ _ _ E); [by rewrite decide_True|].
  rewrite decide_False by done. destruct l as [|j l]; [done|].
  rewrite IH by (done || by apply table_ok_touch).
  change (procs (k <| mach ::= touch |>)) with (procs k).
  destruct (head _); [by rewrite dispatch_touch|].
  f_equal. kcbv. rewrite touch_idemp; [done|]. apply Hk.
Qed.

Lemma scheduler_pass_eq k :
  table_ok k -> c_noff (my_cpu (mach k)) = 0 ->
  scheduler_pass k =
    match pick (procs k) with
    | Some i => Ret (Some i) (dispatch_state i (k <| mach ::= sched_entry |>))
    | None => Ret None (k <| mach := touch (sched_entry (mach k)) |>)
    end.
Proof.
  intros Hk Hn. pose proof Hk as [[Hc Hr Hno _] Hf Hlen].
  set (k1 := k <| mach ::= sched_entry |>).
  assert (hart_ok 2 (sched_entry (mach k))) as Hh.
  { split; [done|cbn; by rewrite length_upd|done|]. unfold my_cpu in *. cbn. rewrite Hn. lia. }
  assert (table_ok k1) as Hk1 by (by apply (table_ok_mach k)).
  unfold scheduler_pass. erewrite bind_Ret; [|reflexivity]. erewrite bind_Ret.
  2:{ instantiate (1 := k1). instantiate (1 := ()). unfold k1, intr_off, on_mach, Hart.intr_off, Hart.write_csr, modify.
      unfold sched_entry. kcbv. do 2 f_equal. cbn. f_equal. rewrite upd_upd by done. done. }
  assert (Forall (λ i, (i < NPROC)%nat) (seq 0 NPROC)) as Hseq
    by (apply Forall_forall; intros i; rewrite elem_of_seq; lia).
  assert (∀ pr k2, k2 = k1 ∨ k2 = k1 <| mach ::= touch |> ->
    for_first (seq 0 NPROC) (scheduler_try pr) k2 =
      match pick_level (procs k) pr with
      | Some i => Ret (Some i) (dispatch_state i k1)
      | None => Ret None (k1 <| mach ::= touch |>)
      end) as Hlev.
  { intros pr k2 [->| ->]; rewrite scan_level_eq by (done || by apply table_ok_touch); [done|].
    change (procs (k1 <| mach ::= touch |>)) with (procs k).
    unfold pick_level. destruct (head _); [by rewrite dispatch_touch|].
    f_equal. kcbv. rewrite touch_idemp; [done|]. apply Hh. }
  unfold pick. cbn [omap list_omap].
  change (for_first [MLFQ_HIGH; MLFQ_MEDIUM; MLFQ_LOW]
            (λ pr, for_first (seq 0 NPROC) (scheduler_try pr)) k1 = 
    match head (omap (pick_level (procs k)) [MLFQ_HIGH; MLFQ_MEDIUM; MLFQ_LOW]) with
    | Some i => Ret (Some i) (dispatch_state i k1)
    | None => Ret None (k1 <| mach ::= touch |>)
    end).
  cbn [for_first]. unfold mbind, ST_bind, mret, ST_ret.
  rewrite (Hlev _ k1) by auto. cbn [omap list_omap].
  destruct (pick_level (procs k) MLFQ_HIGH); [done|].
  rewrite Hlev by auto. destruct (pick_level (procs k) MLFQ_MEDIUM); [done|].
  rewrite Hlev by auto. by destruct (pick_level (procs k) MLFQ_LOW).
Qed.
End equations.
