(* ===== verification/Demo.v ===== *)
(** * Concrete kernel states

    States after boot on which the model is evaluated. *)
From S2P Require Import Prelude Layout KState Spinlock Proc SchedEq.

(** All locks initialized and free; hart 0 runs [cur]; the process table is
    [ps]; interrupts are on. *)
Definition demo (ps : list proc) (cur : option nat) : kernel :=
  kernel_init
    <| mach := mk_machine 0 (<[0%nat := mk_cpu cur 0 0]> (replicate NCPU inhabitant))
         (replicate NCPU (mk_csrs SSTATUS_SIE 0 0 0 0 0 0 0))
         (list_to_map ((λ l, (l, mk_spinlock 0 None)) <$> static_locks)) |>
    <| procs := ps |>.

Lemma demo_lock ps cur l : l ∈ static_locks -> lock_free l (mach (demo ps cur)).
Proof.
  intros Hl. apply elem_of_list_to_map_1.
  - rewrite <- list_fmap_compose. rewrite (list_fmap_ext _ id) by done.
    rewrite list_fmap_id. apply static_locks_nodup.
  - apply list_elem_of_fmap. by exists l.
Qed.

Lemma demo_hart ps cur : hart_ok 2 (mach (demo ps cur)).
Proof. split; [cbn; lia..| |]; done. Qed.

Lemma demo_table ps cur : length ps = NPROC -> table_ok (demo ps cur).
Proof.
  intros Hl. split; [apply demo_hart| |done]. intros i Hi. apply demo_lock.
  unfold static_locks. rewrite !elem_of_app. right. left. apply list_elem_of_fmap.
  exists i. split; [done|]. rewrite elem_of_seq. lia.
Qed.

(** A process table from the first entries, the others free. *)
Definition table (l : list proc) : list proc := l ++ replicate (NPROC - length l) proc0.

Lemma length_table l : (length l <= NPROC)%nat -> length (table l) = NPROC.
Proof. intros. unfold table. rewrite length_app, length_replicate. lia. Qed.

(** A process in state [st] with identifier [pid] at priority [pr]. *)
Definition demo_proc (st : procstate) (pid pr : Z) : proc :=
  (init_mlfq_fields 0 proc0) <| p_state := st |> <| p_pid := pid |> <| p_priority := pr |>
    <| p_timeslice := get_timeslice pr |>.

(** Process 0 runs on hart 0, 1 and 2 are runnable, 3 sleeps. *)
Definition demo_ps : list proc :=
  table [demo_proc RUNNING 1 0; demo_proc RUNNABLE 2 2; demo_proc RUNNABLE 3 1;
         (demo_proc SLEEPING 4 0) <| p_chan := Some ChTicks |>].
Definition demo_k : kernel := demo demo_ps (Some 0%nat).
