(* ===== verification/FsView.v ===== *)
(** * Running file system code

    A judgement for the code of one process that has the system for itself:
    every other slot of the process table is unused, just allocated or a
    zombie, so no other process runs, is ready or sleeps.
    [vq p ls m v a ls' v'] says that [m], run by process [p] with the
    spinlocks [ls] held (the last one taken first) on the file system state
    [v], returns [a] and leaves the locks [ls'] held and the state [v'].
    Machine and process table only matter through [okh]. *)
From S2P Require Import Prelude Layout KState Spinlock CString Vm Proc Uart Sleeplock Virtio Bio.
From S2P Require Import Log SchedEq.

(** The memory, the open files, and what of the running process the code
    that moves data to and from it needs. *)
#[projections(primitive)] Record uview : Type := mk_uview {
  uv_mem : memory;
  uv_files : list file;
  uv_sz : Z;
  uv_pagetable : Z;
  uv_trapframe : Z;
  uv_ofile : list (option nat);
}.
#[export] Instance set_uv_mem : Setter uv_mem := λ f r,
  mk_uview (f (uv_mem r)) (uv_files r) (uv_sz r) (uv_pagetable r) (uv_trapframe r) (uv_ofile r).
#[export] Instance set_uv_files : Setter uv_files := λ f r,
  mk_uview (uv_mem r) (f (uv_files r)) (uv_sz r) (uv_pagetable r) (uv_trapframe r) (uv_ofile r).
Definition user_of (p : nat) (k : kernel) : uview :=
  let r := procs k !!! p in mk_uview (mem k) (ftable k) (p_sz r) (p_pagetable r) (p_trapframe r) (p_ofile r).

(** The part of the kernel state the file system works on. *)
#[projections(primitive)] Record fsview : Type := mk_fsview {
  v_bufs : list buf;
  v_sl : gmap slid sleeplock;
  v_log : logstate;
  v_sb : superblock;
  v_itable : list inode;
  v_image : gmap Z (list Z);
  v_writes : list (Z * list Z);
  v_vd : vdisk;
  v_pid : Z; (* the pid of the running process *)
  v_user : uview;
}.

#[export] Instance set_v_bufs : Setter v_bufs := λ f r,
  mk_fsview (f (v_bufs r)) (v_sl r) (v_log r) (v_sb r) (v_itable r) (v_image r)
  (v_writes r) (v_vd r) (v_pid r) (v_user r).
#[export] Instance set_v_sl : Setter v_sl := λ f r,
  mk_fsview (v_bufs r) (f (v_sl r)) (v_log r) (v_sb r) (v_itable r) (v_image r)
  (v_writes r) (v_vd r) (v_pid r) (v_user r).
#[export] Instance set_v_log : Setter v_log := λ f r,
  mk_fsview (v_bufs r) (v_sl r) (f (v_log r)) (v_sb r) (v_itable r) (v_image r)
  (v_writes r) (v_vd r) (v_pid r) (v_user r).
#[export] Instance set_v_sb : Setter v_sb := λ f r,
  mk_fsview (v_bufs r) (v_sl r) (v_log r) (f (v_sb r)) (v_itable r) (v_image r)
  (v_writes r) (v_vd r) (v_pid r) (v_user r).
#[export] Instance set_v_itable : Setter v_itable := λ f r,
  mk_fsview (v_bufs r) (v_sl r) (v_log r) (v_sb r) (f (v_itable r)) (v_image r)
  (v_writes r) (v_vd r) (v_pid r) (v_user r).
#[export] Instance set_v_image : Setter v_image := λ f r,
  mk_fsview (v_bufs r) (v_sl r) (v_log r) (v_sb r) (v_itable r) (f (v_image r))
  (v_writes r) (v_vd r) (v_pid r) (v_user r).
#[export] Instance set_v_writes : Setter v_writes := λ f r,
  mk_fsview (v_bufs r) (v_sl r) (v_log r) (v_sb r) (v_itable r) (v_image r) (f
  (v_writes r)) (v_vd r) (v_pid r) (v_user r).
#[export] Instance set_v_vd : Setter v_vd := λ f r,
  mk_fsview (v_bufs r) (v_sl r) (v_log r) (v_sb r) (v_itable r) (v_image r)
  (v_writes r) (f (v_vd r)) (v_pid r) (v_user r).
#[export] Instance set_v_pid : Setter v_pid := λ f r,
  mk_fsview (v_bufs r) (v_sl r) (v_log r) (v_sb r) (v_itable r) (v_image r)
  (v_writes r) (v_vd r) (f (v_pid r)) (v_user r).
#[export] Instance set_v_user : Setter v_user := λ f r,
  mk_fsview (v_bufs r) (v_sl r) (v_log r) (v_sb r) (v_itable r) (v_image r)
  (v_writes r) (v_vd r) (v_pid r) (f (v_user r)).

Ltac vcbv :=
  cbv [set set_v_bufs set_v_sl set_v_log set_v_sb set_v_itable set_v_image set_v_writes set_v_vd
    set_v_pid set_v_user v_bufs v_sl v_log v_sb v_itable v_image v_writes v_vd v_pid v_user].
Tactic Notation "vcbn" :=
  cbn [set set_v_bufs set_v_sl set_v_log set_v_sb set_v_itable set_v_image set_v_writes set_v_vd
    set_v_pid set_v_user v_bufs v_sl v_log v_sb v_itable v_image v_writes v_vd v_pid v_user].
Tactic Notation "vcbn" "in" hyp(H) :=
  cbn [set set_v_bufs set_v_sl set_v_log set_v_sb set_v_itable set_v_image set_v_writes set_v_vd
    set_v_pid set_v_user v_bufs v_sl v_log v_sb v_itable v_image v_writes v_vd v_pid v_user] in H.

Definition fsv (p : nat) (k : kernel) : fsview :=
  mk_fsview (bufs k) (sleeplocks k) (log k) (sb k) (itable k) (image k) (writes k)
    (vdisk_state k) (p_pid (procs k !!! p)) (user_of p k).

(** ** The executing hart *)

(** A hart that runs [p] outside critical sections, all locks free. *)
Record base_ok (p : nat) (m : machine) : Prop := {
  base_hart : hart_ok 20 m;
  base_noff : c_noff (my_cpu m) = 0;
  base_proc : c_proc (my_cpu m) = Some p;
  base_free l : l ∈ static_locks -> lock_free l m;
}.

(** The machine after taking the locks [ls], the head of the list last. *)
Abbreviation nest ls m := (foldr acquired m ls).

Section nest.
Context (p : nat) (m : machine) (Hm : base_ok p m).

Lemma nest_cpu ls : (m_hart (nest ls m) < length (m_cpus (nest ls m)))%nat ∧
  c_proc (my_cpu (nest ls m)) = Some p ∧ c_noff (my_cpu (nest ls m)) = Z.of_nat (length ls).
Proof.
  induction ls as [|l ls (Hc & Hp & Hn)]; cbn [foldr length].
  - destruct Hm as [[Hc _ _ _] Hn Hp _]. done.
  - rewrite my_cpu_acquired by done. cbn [c_proc c_noff]. split_and!; [|done|lia].
    cbn. by rewrite length_upd.
Qed.

Lemma nest_hart d ls : 0 <= d -> d + Z.of_nat (length ls) <= 20 -> hart_ok d (nest ls m).
Proof.
  intros Hd Hl. assert (hart_ok (d + Z.of_nat (length ls)) m) as H
    by (apply (hart_ok_mono 20); [done|apply Hm]). clear Hl.
  revert d Hd H. induction ls as [|l ls IH]; intros d Hd H; cbn [foldr].
  - by rewrite Z.add_0_r in H.
  - apply acquired_ok; [done|]. apply IH; [lia|].
    by replace (d + 1 + Z.of_nat (length ls)) with (d + Z.of_nat (length (l :: ls))) by (cbn; lia).
Qed.

Lemma nest_free l ls : l ∈ static_locks -> l ∉ ls -> lock_free l (nest ls m).
Proof.
  intros Hl. induction ls as [|l' ls IH]; cbn [foldr]; [intros _; by apply Hm|].
  intros [Hne Hn]%not_elem_of_cons. apply acquired_free; [congruence|by apply IH].
Qed.

Lemma nest_lock l ls :
  l ∈ static_locks -> l ∉ ls -> (length ls <= 8)%nat -> can_lock l (nest ls m).
Proof. intros. split; [apply nest_hart; lia|by apply nest_free]. Qed.

Lemma nest_touch ls : ls ≠ [] -> touch (nest ls m) = nest ls m.
Proof.
  intros Hl. destruct (nest_cpu ls) as (Hc & _ & Hn). apply touch_nested; [done|].
  destruct ls; cbn in *; [done|lia].
Qed.
End nest.

Lemma base_touch p m : base_ok p m -> base_ok p (touch m).
Proof.
  intros [Hh Hn Hp Hf]. pose proof Hh as [Hc _ _ _].
  split; rewrite ?my_cpu_touch by done; [by apply touch_ok|done..].
Qed.

(** ** The system around the process *)

Definition idle_state (s : procstate) : Prop := s ≠ SLEEPING ∧ s ≠ RUNNABLE ∧ s ≠ RUNNING.

Record okh (p : nat) (ls : list lockid) (k : kernel) : Prop := {
  oh_mach : ∃ m, base_ok p m ∧ mach k = nest ls m;
  oh_nodup : NoDup ls;
  oh_static l : l ∈ ls -> l ∈ static_locks ∧ ∀ i, l ≠ LkProc i;
  oh_depth : (length ls <= 4)%nat;
  oh_p : (p < NPROC)%nat;
  oh_procs : length (procs k) = NPROC;
  oh_alone i : i ≠ p -> idle_state (p_state (procs k !!! i));
  oh_running : p_state (procs k !!! p) = RUNNING;
  oh_prio : 0 <= p_priority (procs k !!! p) <= 2;
  oh_panic : panicking k = 0 ∧ panicked k = 0;
}.

Lemma okh_frame p ls k k' :
  mach k' = mach k -> procs k' = procs k -> panicking k' = panicking k -> panicked k' = panicked k ->
  okh p ls k -> okh p ls k'.
Proof. intros E1 E2 E3 E4 []. split; rewrite ?E1, ?E2, ?E3, ?E4; done. Qed.

Lemma okh_mach p ls ls' k m :
  okh p ls k -> base_ok p m -> NoDup ls' -> (∀ l, l ∈ ls' -> l ∈ static_locks ∧ ∀ i, l ≠ LkProc i) ->
  (length ls' <= 4)%nat -> okh p ls' (k <| mach := nest ls' m |>).
Proof. intros []. split; try done. by exists m. Qed.

Definition vq (p : nat) (ls : list lockid) {A} (m : M A) (v : fsview) (a : A)
    (ls' : list lockid) (v' : fsview) : Prop :=
  ∀ k, okh p ls k -> fsv p k = v -> ∃ k', m k = Ret a k' ∧ okh p ls' k' ∧ fsv p k' = v'.

Section rules.
Context {W : World} (p : nat).
Implicit Types (ls : list lockid) (v : fsview).

Lemma vq_bind {A B} ls ls1 ls2 (m : M A) (f : A -> M B) v v1 v2 a b :
  vq p ls m v a ls1 v1 -> vq p ls1 (f a) v1 b ls2 v2 -> vq p ls (m ≫= f) v b ls2 v2.
Proof.
  intros Hm Hf k Hk Hv. destruct (Hm k Hk Hv) as (k1 & E & Hk1 & Hv1).
  rewrite (bind_Ret _ _ _ _ _ E). by apply Hf.
Qed.

Lemma vq_ret {A} ls (a : A) v : vq p ls (mret a) v a ls v.
Proof. intros k Hk Hv. by exists k. Qed.

Lemma vq_gets {A} ls (f : kernel -> A) (g : fsview -> A) v :
  (∀ k, f k = g (fsv p k)) -> vq p ls (gets f) v (g v) ls v.
Proof. intros E k Hk <-. exists k. unfold gets. by rewrite E. Qed.

Lemma vq_modify ls (f : kernel -> kernel) (g : fsview -> fsview) v :
  (∀ k, mach (f k) = mach k ∧ procs (f k) = procs k ∧ panicking (f k) = panicking k ∧
    panicked (f k) = panicked k ∧ fsv p (f k) = g (fsv p k)) ->
  vq p ls (modify f) v () ls (g v).
Proof.
  intros E k Hk <-. exists (f k). destruct (E k) as (E1 & E2 & E3 & E4 & E5).
  split_and!; [done| |done]. by apply (okh_frame p ls k).
Qed.

Lemma vq_when_true ls (m : M ()) v a ls' v' : vq p ls m v a ls' v' -> vq p ls (when true m) v a ls' v'.
Proof. done. Qed.
Lemma vq_when_false ls (m : M ()) v : vq p ls (when false m) v () ls v.
Proof. apply vq_ret. Qed.

Lemma vq_loop_done {A} ls n (body : M (option A)) v a ls' v' :
  vq p ls body v (Some a) ls' v' -> (0 < n)%nat -> vq p ls (loop n body) v a ls' v'.
Proof. intros Hb Hn. destruct n as [|n]; [lia|]. cbn. eapply vq_bind; [exact Hb|apply vq_ret]. Qed.
Lemma vq_loop_next {A} ls n (body : M (option A)) v v1 a ls1 ls' v' :
  vq p ls body v None ls1 v1 -> vq p ls1 (loop n body) v1 a ls' v' -> vq p ls (loop (S n) body) v a ls' v'.
Proof. intros Hb Hl. cbn. eapply vq_bind; [exact Hb|exact Hl]. Qed.

Lemma vq_first_done {I A} ls i (l : list I) (body : I -> M (option A)) v a ls' v' :
  vq p ls (body i) v (Some a) ls' v' -> vq p ls (for_first (i :: l) body) v (Some a) ls' v'.
Proof. intros Hb. cbn. eapply vq_bind; [exact Hb|apply vq_ret]. Qed.
Lemma vq_first_next {I A} ls i (l : list I) (body : I -> M (option A)) v v1 a ls1 ls' v' :
  vq p ls (body i) v None ls1 v1 -> vq p ls1 (for_first l body) v1 a ls' v' ->
  vq p ls (for_first (i :: l) body) v a ls' v'.
Proof. intros Hb Hl. cbn. eapply vq_bind; [exact Hb|exact Hl]. Qed.

(** The accessors. *)
Lemma vq_read_buf {A} ls b (f : buf -> A) v : vq p ls (read_buf b f) v (f (v_bufs v !!! b)) ls v.
Proof. exact (vq_gets ls _ (λ v, f (v_bufs v !!! b)) v (λ k, eq_refl)). Qed.
Lemma vq_read_buf_as {A} ls b (f : buf -> A) v x :
  f (v_bufs v !!! b) = x -> vq p ls (read_buf b f) v x ls v.
Proof. intros <-. apply vq_read_buf. Qed.
Lemma vq_write_buf ls b f v : vq p ls (write_buf b f) v () ls (v <| v_bufs ::= upd b f |>).
Proof. by apply (vq_modify ls _ (λ v, v <| v_bufs ::= upd b f |>)). Qed.
Lemma vq_read_vd {A} ls (f : vdisk -> A) v : vq p ls (read_vd f) v (f (v_vd v)) ls v.
Proof. exact (vq_gets ls _ (λ v, f (v_vd v)) v (λ k, eq_refl)). Qed.
Lemma vq_write_vd ls f v : vq p ls (write_vd f) v () ls (v <| v_vd ::= f |>).
Proof. by apply (vq_modify ls _ (λ v, v <| v_vd ::= f |>)). Qed.
Lemma vq_io_write ls a x v : vq p ls (io_write a x) v () ls v.
Proof. by apply (vq_modify ls _ id). Qed.
Lemma vq_read_log {A} ls (f : logstate -> A) v : vq p ls (read_log f) v (f (v_log v)) ls v.
Proof. exact (vq_gets ls _ (λ v, f (v_log v)) v (λ k, eq_refl)). Qed.
Lemma vq_read_log_as {A} ls (f : logstate -> A) v x :
  f (v_log v) = x -> vq p ls (read_log f) v x ls v.
Proof. intros <-. apply vq_read_log. Qed.
Lemma vq_write_log ls f v : vq p ls (write_log_state f) v () ls (v <| v_log ::= f |>).
Proof. by apply (vq_modify ls _ (λ v, v <| v_log ::= f |>)). Qed.
Lemma vq_write_sleeplock ls l f v :
  vq p ls (write_sleeplock l f) v () ls (v <| v_sl ::= λ s, <[l := f (s !!! l)]> s |>).
Proof. by apply (vq_modify ls _ (λ v, v <| v_sl ::= λ s, <[l := f (s !!! l)]> s |>)). Qed.
Lemma vq_read_sleeplock {A} ls l (f : sleeplock -> A) v :
  vq p ls (gets (λ k, f (sleeplocks k !!! l))) v (f (v_sl v !!! l)) ls v.
Proof. exact (vq_gets ls _ (λ v, f (v_sl v !!! l)) v (λ k, eq_refl)). Qed.
Lemma vq_read_sleeplock_as {A} ls l (f : sleeplock -> A) v x :
  f (v_sl v !!! l) = x -> vq p ls (gets (λ k, f (sleeplocks k !!! l))) v x ls v.
Proof. intros <-. apply vq_read_sleeplock. Qed.
(** A loop whose rounds each take [v] to [step i v] and keep [P]. *)
Lemma vq_for_each {I} ls (l : list I) (body : I -> M ()) (P : list I -> fsview -> Prop)
    (step : I -> fsview -> fsview) v :
  (∀ i l' v, P (i :: l') v -> vq p ls (body i) v () ls (step i v) ∧ P l' (step i v)) ->
  P l v -> vq p ls (for_each l body) v () ls (foldl (λ v i, step i v) v l).
Proof.
  intros Hb. revert v. induction l as [|i l IH]; intros v Hv; [apply vq_ret|]. cbn.
  destruct (Hb i l v Hv) as [Hi Hl]. eapply vq_bind; [exact Hi|]. by apply IH.
Qed.

Lemma vq_acquire ls l v :
  l ∈ static_locks -> (∀ i, l ≠ LkProc i) -> l ∉ ls -> (length ls < 4)%nat ->
  vq p ls (acquire l) v () (l :: ls) v.
Proof.
  intros Hs Hl Hn Hlen k Hk <-. pose proof Hk as [(m & Hm & E) ? Hst ? ? ? ? ? ? ?].
  eexists. split; [|split].
  - apply acquire_step; [exact E|]. apply (nest_lock p); [done..|lia].
  - apply (okh_mach p ls (l :: ls) k m); [done|done|by constructor| |cbn; lia].
    intros l' [->|?]%elem_of_cons; [done|by apply Hst].
  - done.
Qed.

Lemma vq_release ls l v : vq p (l :: ls) (release l) v () ls v.
Proof.
  intros k Hk <-. pose proof Hk as [(m & Hm & E) [Hn Hnd]%NoDup_cons Hst Hlen ? ? ? ? ? ?].
  cbn in Hlen. destruct (Hst l ltac:(by left)) as [Hls _].
  eexists. split; [|split].
  - apply (release_step l k (nest ls m)); [exact E|]. apply (nest_lock p); [done..|lia].
  - assert (∀ l', l' ∈ ls -> l' ∈ static_locks ∧ ∀ i, l' ≠ LkProc i) as Hst'
      by (intros; apply Hst; by right).
    destruct ls as [|l' ls].
    + apply (okh_mach p [l] [] k (touch m)); [done|by apply base_touch|done|done|cbn; lia].
    + rewrite (nest_touch p m Hm) by done.
      apply (okh_mach p (l :: l' :: ls) (l' :: ls) k m); [done..|cbn in *; lia].
  - done.
Qed.

Lemma vq_myproc ls v : vq p ls myproc v (Some p) ls v.
Proof.
  intros k Hk <-. pose proof Hk as [(m & Hm & E) Hnd Hst Hlen ? ? ? ? ? ?].
  destruct (nest_cpu p m Hm ls) as (_ & Hp & _).
  eexists. split; [|split].
  - rewrite <- Hp, <- E. apply myproc_eq. rewrite E. apply (nest_hart p m Hm); lia.
  - destruct ls as [|l ls].
    + cbn in E. replace (k <| mach ::= touch |>) with (k <| mach := nest [] (touch m) |>)
        by (rewrite <- E; done).
      apply (okh_mach p [] [] k (touch m)); [done|by apply base_touch|done..].
    + replace (k <| mach ::= touch |>) with (k <| mach := nest (l :: ls) m |>)
        by (rewrite <- (nest_touch p m Hm (l :: ls)), <- E by done; done).
      by apply (okh_mach p (l :: ls) (l :: ls) k m).
  - done.
Qed.

Lemma vq_my_pid ls v : vq p ls my_pid v (v_pid v) ls v.
Proof.
  eapply vq_bind; [apply vq_myproc|]. exact (vq_gets ls _ v_pid v (λ k, eq_refl)).
Qed.

(** Nobody sleeps, so nobody is woken. *)
Lemma vq_wakeup ls ch v : vq p ls (wakeup ch) v () ls v.
Proof.
  intros k Hk <-. pose proof Hk as [(m & Hm & E) Hnd Hst Hlen Hp Hps Hal Hr ? ?].
  assert (table_ok k) as Ht.
  { split; rewrite ?E; [apply (nest_hart p m Hm); lia| |done]. intros i Hi.
    apply (nest_free p m Hm); [by apply static_proc|].
    intros Hin. destruct (Hst _ Hin) as [_ Hni]. by destruct (Hni i). }
  destruct (nest_cpu p m Hm ls) as (_ & Hcp & _). rewrite <- E in Hcp.
  pose proof (wakeup_eq ch k Ht) as Ew. rewrite Hcp in Ew.
  assert (imap (λ i r, if bool_decide (Some p = Some i) then r else wakeup_proc ch r) (procs k)
          = procs k) as Ei.
  { apply list_eq. intros i. rewrite list_lookup_imap. destruct (procs k !! i) as [r|] eqn:El; [|done].
    cbn. f_equal. case_bool_decide as Hi; [done|]. unfold wakeup_proc.
    rewrite bool_decide_false; [done|]. apply list_lookup_total_correct in El. subst r.
    apply (Hal i). congruence. }
  exists (k <| mach ::= touch |>). split_and!.
  - rewrite Ew.
    enough (k <| procs ::= imap (λ i r, if bool_decide (Some p = Some i) then r
      else wakeup_proc ch r) |> = k) as -> by done.
    clear -Ei. destruct k. kcbn in Ei. kcbv. by rewrite Ei.
  - destruct (vq_myproc ls (fsv p k) k Hk eq_refl) as (k' & E' & Hk' & _).
    rewrite myproc_eq in E' by (rewrite E; apply (nest_hart p m Hm); lia).
    by injection E' as _ <-.
  - done.
Qed.
End rules.

(** One step of a [vq] proof: the first command by the lemma [H]. *)
Tactic Notation "vstep" uconstr(H) := eapply vq_bind; [apply H|]; cbv beta.
(** The last step by [H], up to an equality of states. *)
Tactic Notation "vlast" uconstr(H) :=
  lazymatch goal with |- vq _ _ _ ?v1 _ _ ?v2 =>
    let E := fresh in enough (v1 = v2) as E; [rewrite E; apply H|] end.
