(* ===== verification/Disk.v ===== *)
(** * The disk behind the driver

    What the file system code may assume of the disk: [DiskWorld] states what
    happens between a process going to sleep on its request and its being
    resumed.  [virtio_disk_rw_spec] is the driver's contract to the buffer
    cache under that assumption, and [disk_world] a system that meets it: a
    virtio block device, the driver's interrupt handler and the scheduler. *)
From S2P Require Import Prelude Layout KState Spinlock CString Vm Proc Uart Sleeplock Virtio Bio.
From S2P Require Import Log SchedEq FsView.

(** ** Requests *)

(** The device has been given one request and has not looked at it: the chain
    of descriptors from [i0] asks for a transfer of block [bno] from or into
    the buffer [b]. *)
Record pending (b i0 : nat) (write : bool) (bno : Z) (d : vdisk) : Prop := {
  pd_range : 0 <= vd_dev_idx d < 2 ^ 16;
  pd_avail : vd_avail_idx d = u16 (vd_dev_idx d + 1);
  pd_used : vd_used_idx d = vd_dev_idx d;
  pd_first : vd_avail_ring d !!! Z.to_nat (vd_dev_idx d mod 8) = Z.of_nat i0;
  pd_i0 : (i0 < 8)%nat;
  pd_op : vd_ops d !!! i0 =
    mk_blk_req (if write then VIRTIO_BLK_T_OUT else VIRTIO_BLK_T_IN) 0 (bno * 2);
  pd_chain : ∃ i1 i2,
    vd_desc d !!! i0 = mk_virtq_desc (DmaOp i0) BLK_REQ_SIZE VRING_DESC_F_NEXT (Z.of_nat i1) ∧
    vd_desc d !!! i1 = mk_virtq_desc (DmaData b) BSIZE
      (Z.lor (if write then 0 else VRING_DESC_F_WRITE) VRING_DESC_F_NEXT) (Z.of_nat i2) ∧
    vd_desc d !!! i2 = mk_virtq_desc (DmaStatus i0) 1 VRING_DESC_F_WRITE 0;
  pd_info : vd_info_b d !!! i0 = Some b;
  pd_status : length (vd_info_status d) = 8%nat;
  pd_ring : length (vd_used_ring d) = 8%nat;
}.

(** The transfer itself. *)
Definition transfer (b : nat) (write : bool) (bno : Z) (v : fsview) : fsview :=
  if write then
    v <| v_image ::= <[bno := b_data (v_bufs v !!! b)]> |>
      <| v_writes ::= λ w, w ++ [(bno, b_data (v_bufs v !!! b))] |>
  else v <| v_bufs ::= upd b (λ r, r <| b_data := v_image v !!! bno |>) |>.
(** The device's report of a finished request, and the driver's of having seen it. *)
Definition reported (i0 : nat) (d : vdisk) : vdisk :=
  d <| vd_info_status ::= upd i0 (λ _, 0) |>
    <| vd_used_ring ::= upd (Z.to_nat (vd_dev_idx d mod 8)) (λ _, Z.of_nat i0) |>
    <| vd_dev_idx := u16 (vd_dev_idx d + 1) |>.
Definition seen (d : vdisk) : vdisk := d <| vd_used_idx := u16 (vd_used_idx d + 1) |>.

(** ** The system around a waiting process *)

(** [p] has been switched out in [sleep] on channel [ch]. *)
Record parked (p : nat) (ch : chan) (k : kernel) : Prop := {
  pk_mach : ∃ m, base_ok p m ∧ mach k = acquired (LkProc p) m;
  pk_p : (p < NPROC)%nat;
  pk_procs : length (procs k) = NPROC;
  pk_alone i : i ≠ p -> idle_state (p_state (procs k !!! i));
  pk_state : p_state (procs k !!! p) = SLEEPING;
  pk_chan : p_chan (procs k !!! p) = Some ch;
  pk_prio : 0 <= p_priority (procs k !!! p) <= 2;
  pk_panic : panicking k = 0 ∧ panicked k = 0;
}.
(** It has been switched in again. *)
Record woken (p : nat) (k : kernel) : Prop := {
  wk_mach : ∃ m, base_ok p m ∧ mach k = acquired (LkProc p) m;
  wk_procs : length (procs k) = NPROC;
  wk_alone i : i ≠ p -> idle_state (p_state (procs k !!! i));
  wk_state : p_state (procs k !!! p) = RUNNING;
  wk_prio : 0 <= p_priority (procs k !!! p) <= 2;
  wk_panic : panicking k = 0 ∧ panicked k = 0;
}.

(** The promise of the system: a process that sleeps on a pending request is
    resumed when the transfer is done, and the transmitter of the serial port
    is always ready. *)
Class DiskWorld (W : World) : Prop := {
  disk_fuel : (2 <= w_fuel)%nat;
  disk_uart n : w_uart n 5 = 32;
  disk_run p b i0 write bno k :
    parked p (ChBufIO b) k -> (b < length (bufs k))%nat -> pending b i0 write bno (vdisk_state k) ->
    ∃ k', w_run k = Some k' ∧ woken p k' ∧
      fsv p k' = (transfer b write bno (fsv p k)) <| v_bufs ::= upd b (λ r, r <| b_disk := 0 |>) |>
                   <| v_vd ::= λ d, seen (reported i0 d) |>;
}.

Section sleep.
Context {W : World} {DW : DiskWorld W} (p : nat).

Lemma base_resumed intena m : base_ok p m -> base_ok p (resumed intena m).
Proof.
  intros [[Hc Hr Hn Ho] Hz Hp Hf]. unfold my_cpu in *. split; [split| | |]; unfold my_cpu; cbn;
    rewrite ?length_upd, ?upd_eq by done; cbn; try done. by rewrite Hz.
Qed.

Lemma vq_sleep_io b i0 write bno v :
  (b < length (v_bufs v))%nat -> pending b i0 write bno (v_vd v) ->
  vq p [LkDisk] (sleep (ChBufIO b) LkDisk) v () [LkDisk]
    ((transfer b write bno v) <| v_bufs ::= upd b (λ r, r <| b_disk := 0 |>) |>
       <| v_vd ::= λ d, seen (reported i0 d) |>).
Proof.
  intros Hb Hd k Hk <-. pose proof Hk as [(m & Hm & E) Hnd Hst Hlen Hp Hps Hal Hr Hpr Hpan].
  cbn [foldr] in E. set (k1 := sleep_state p (ChBufIO b) m k).
  assert (LkDisk ∈ static_locks) as Hdl by (by apply Hst; left).
  assert (runs p (k <| mach := m |>)) as Hruns.
  { split; [split| | |]; try done; try apply Hm.
    - apply (hart_ok_mono 20); [lia|apply Hm].
    - intros i Hi. apply Hm. by apply static_proc. }
  assert (sleep (ChBufIO b) LkDisk k =
    (swtch ;; sleep_ret p LkDisk (saved_intena (mach k1))) k1) as Es.
  { apply sleep_eq; [done..|]. by apply Hm. }
  assert (parked p (ChBufIO b) k1) as Hk1.
  { assert (p < length (procs k))%nat by (by rewrite Hps).
    split; try done; cbn; rewrite ?length_upd, ?upd_eq by done; try done.
    - by exists m.
    - intros i Hi. rewrite upd_ne by done. by apply Hal. }
  assert (fsv p k1 = fsv p k) as Ev.
  { unfold fsv, user_of, k1, sleep_state. cbn. rewrite upd_eq by (by rewrite Hps). done. }
  destruct (disk_run p b i0 write bno k1 Hk1) as (k2 & Ew & [(m2 & Hm2 & E2) Hps2 Hal2 Hr2 Hpr2 Hpan2] & Ev2);
    [done..|]. rewrite Ev in Ev2. clearbody k1.
  rewrite Es. erewrite bind_Ret by (unfold swtch; rewrite Ew; reflexivity).
  set (i := saved_intena (mach k1)). pose proof (base_resumed i m2 Hm2) as Hm3.
  eexists. split; [apply (sleep_ret_eq p LkDisk i k2 m2); [done| |apply Hm2|]|].
  - split; [apply (hart_ok_mono 20); [lia|apply Hm2]|apply Hm2; by apply static_proc].
  - split; [apply (hart_ok_mono 20); [lia|apply Hm3]|by apply Hm3].
  - assert (p < length (procs k2))%nat as Hp2 by (by rewrite Hps2).
    split; [split; try done; cbn; rewrite ?length_upd, ?upd_eq by done; try done|].
    + by exists (resumed i m2).
    + intros j Hj. rewrite upd_ne by done. by apply Hal2.
    + rewrite <- Ev2. unfold fsv, user_of. cbn. by rewrite upd_eq.
Qed.
End sleep.

(** ** The driver *)

(** No request is in progress and all descriptors are free. *)
Record disk_idle (d : vdisk) : Prop := {
  di_range : 0 <= vd_dev_idx d < 2 ^ 16;
  di_avail : vd_avail_idx d = vd_dev_idx d;
  di_used : vd_used_idx d = vd_dev_idx d;
  di_free : vd_free d = replicate 8 1;
  di_desc : length (vd_desc d) = 8%nat;
  di_aring : length (vd_avail_ring d) = 8%nat;
  di_uring : length (vd_used_ring d) = 8%nat;
  di_info : length (vd_info_b d) = 8%nat;
  di_status : length (vd_info_status d) = 8%nat;
  di_ops : length (vd_ops d) = 8%nat;
}.

(** The device state after formatting a request with descriptors 0, 1 and 2. *)
Definition requested (b : nat) (write : bool) (sector : Z) (d : vdisk) : vdisk :=
  let ring := upd (Z.to_nat (vd_avail_idx d mod Z.of_nat NUM)) (λ _, 0) (vd_avail_ring d) in
  d <| vd_free := [0; 0; 0; 1; 1; 1; 1; 1] |>
    <| vd_ops ::= upd 0 (λ _,
         mk_blk_req (if write then VIRTIO_BLK_T_OUT else VIRTIO_BLK_T_IN) 0 sector) |>
    <| vd_desc ::= λ l, upd 2 (λ _, mk_virtq_desc (DmaStatus 0) 1 VRING_DESC_F_WRITE 0)
         (upd 1 (λ _, mk_virtq_desc (DmaData b) BSIZE
            (Z.lor (if write then 0 else VRING_DESC_F_WRITE) VRING_DESC_F_NEXT) 2)
         (upd 0 (λ _, mk_virtq_desc (DmaOp 0) BLK_REQ_SIZE VRING_DESC_F_NEXT 1) l)) |>
    <| vd_info_status ::= upd 0 (λ _, 0xff) |>
    <| vd_info_b ::= upd 0 (λ _, Some b) |>
    <| vd_avail_ring := ring |>
    <| vd_avail_idx := u16 (vd_avail_idx d + 1) |>.

(** And after the request has been reported and its descriptors freed. *)
Definition idle_again (d : vdisk) : vdisk :=
  d <| vd_info_b ::= upd 0 (λ _, None) |>
    <| vd_desc ::= λ l, upd 2 (λ _, mk_virtq_desc DmaNull 0 0 0)
         (upd 1 (λ _, mk_virtq_desc DmaNull 0 0 0) (upd 0 (λ _, mk_virtq_desc DmaNull 0 0 0) l)) |>
    <| vd_free := replicate 8 1 |>.

Lemma u16_succ x : 0 <= u16 (x + 1) < 2 ^ 16.
Proof. unfold u16. apply Z.mod_pos_bound. lia. Qed.

Section driver.
Context {W : World} {DW : DiskWorld W} (p : nat).

Lemma requested_pending b write bno d :
  disk_idle d -> pending b 0 write bno (requested b write (bno * 2) d).
Proof.
  intros []. assert (Z.to_nat (vd_dev_idx d mod 8) < 8)%nat as Hi
    by (pose proof (Z.mod_pos_bound (vd_dev_idx d) 8); lia).
  split; try done; cbn; rewrite ?di_avail0; try done.
  - by rewrite upd_eq by (by rewrite di_aring0).
  - lia.
  - by rewrite upd_eq by (rewrite di_ops0; lia).
  - exists 1%nat, 2%nat. split_and!.
    + rewrite !upd_ne by done. by rewrite upd_eq by (rewrite di_desc0; lia).
    + rewrite upd_ne by done. by rewrite upd_eq by (rewrite length_upd, di_desc0; lia).
    + by rewrite upd_eq by (rewrite !length_upd, di_desc0; lia).
  - by rewrite upd_eq by (rewrite di_info0; lia).
  - by rewrite length_upd.
Qed.

Lemma idle_again_idle b write sector d :
  disk_idle d -> disk_idle (idle_again (seen (reported 0 (requested b write sector d)))).
Proof.
  intros []. split; cbn; rewrite ?length_upd, ?di_used0, ?di_avail0; try done. apply u16_succ.
Qed.

(** The first free descriptor is taken; here the first [i] are taken already. *)
Definition taken (i : nat) : list Z := replicate i 0 ++ replicate (8 - i) 1.

Lemma vq_alloc_desc ls v i :
  (i < 3)%nat -> vd_free (v_vd v) = taken i ->
  vq p ls alloc_desc v (Z.of_nat i) ls (v <| v_vd ::= λ d, d <| vd_free := taken (S i) |> |>).
Proof.
  intros Hi Ev. unfold alloc_desc.
  eapply vq_bind with (a := Some (Z.of_nat i)); [|apply vq_ret].
  set (body := λ i, read_vd _ ≫= _).
  assert (∀ j, vd_free (v_vd v) !!! j = 0 -> vq p ls (body j) v None ls v) as Hno.
  { intros j Hj. unfold body. vstep vq_read_vd. rewrite Hj. apply vq_ret. }
  assert (vq p ls (body i) v (Some (Z.of_nat i)) ls
    (v <| v_vd ::= λ d, d <| vd_free ::= upd i (λ _, 0) |> |>)) as Hyes.
  { unfold body. vstep vq_read_vd. rewrite Ev.
    do 3 (destruct i as [|i]; [vstep vq_write_vd; apply vq_ret|]). lia. }
  replace (v <| v_vd ::= λ d, d <| vd_free := taken (S i) |> |>)
    with (v <| v_vd ::= λ d, d <| vd_free ::= upd i (λ _, 0) |> |>).
  2:{ unfold set, set_v_vd, set_vd_free. rewrite Ev. do 3 (destruct i as [|i]; [done|]). lia. }
  clearbody body.
  destruct i as [|[|[|i]]]; [..|lia]; cbn [seq NUM];
    repeat (eapply vq_first_next; [apply Hno; by rewrite Ev|]); by apply vq_first_done.
Qed.

Lemma vq_alloc3_desc ls v :
  vd_free (v_vd v) = replicate 8 1 ->
  vq p ls alloc3_desc v (Some [0; 1; 2]) ls
    (v <| v_vd ::= λ d, d <| vd_free := [0; 0; 0; 1; 1; 1; 1; 1] |> |>).
Proof.
  intros Ev. unfold alloc3_desc. cbn [alloc3_loop].
  vstep (vq_alloc_desc ls v 0); [lia|exact Ev|].
  vstep (vq_alloc_desc ls _ 1); [lia|done|].
  vstep (vq_alloc_desc ls _ 2); [lia|done|].
  apply vq_ret.
Qed.

Lemma vq_free_desc ls v i :
  0 <= i < 8 -> vd_free (v_vd v) !!! Z.to_nat i = 0 ->
  vq p ls (free_desc i) v () ls
    (v <| v_vd ::= λ d, d <| vd_desc ::= upd (Z.to_nat i) (λ _, mk_virtq_desc DmaNull 0 0 0) |>
                         <| vd_free ::= upd (Z.to_nat i) (λ _, 1) |> |>).
Proof.
  intros Hi Hf. unfold free_desc. replace (Z.of_nat NUM <=? i) with false by (change (Z.of_nat NUM) with 8; lia).
  vstep vq_read_vd. rewrite Hf. vstep vq_write_vd. vstep vq_write_vd. apply vq_wakeup.
Qed.

Lemma vq_format_request ls v b write sector :
  vq p ls (format_request b write sector 0 1 2)
    (v <| v_vd ::= λ d, d <| vd_free := [0; 0; 0; 1; 1; 1; 1; 1] |> |>) () ls
    (v <| v_bufs ::= upd b (λ r, r <| b_disk := 1 |>) |> <| v_vd ::= requested b write sector |>).
Proof.
  unfold format_request, write_desc.
  do 5 vstep vq_write_vd. vstep vq_write_buf. do 3 vstep vq_write_vd. apply vq_io_write.
Qed.

Lemma vq_free_link fuel ls v i x v' :
  0 <= i < 8 -> vd_free (v_vd v) !!! Z.to_nat i = 0 -> vd_desc (v_vd v) !!! Z.to_nat i = x ->
  let v1 := v <| v_vd ::= λ d, d <| vd_desc ::= upd (Z.to_nat i) (λ _, mk_virtq_desc DmaNull 0 0 0) |>
                                <| vd_free ::= upd (Z.to_nat i) (λ _, 1) |> |> in
  (if Z.land (vq_flags x) VRING_DESC_F_NEXT =? 0 then v' = v1
   else vq p ls (free_chain_loop fuel (vq_next x)) v1 () ls v') ->
  vq p ls (free_chain_loop (S fuel) i) v () ls v'.
Proof.
  intros Hi Hf <- v1 Hv. cbn [free_chain_loop]. vstep vq_read_vd. vstep vq_read_vd.
  vstep vq_free_desc; [done..|]. fold v1. destruct (Z.land _ _ =? 0); [subst; apply vq_ret|exact Hv].
Qed.

Lemma vq_free_chain ls v b write sector d :
  disk_idle d -> v_vd v = seen (reported 0 (requested b write sector d)) ->
  vq p ls (free_chain 0) (v <| v_vd ::= λ d, d <| vd_info_b ::= upd 0 (λ _, None) |> |>) () ls
    (v <| v_vd ::= idle_again |>).
Proof.
  intros [] Ev. unfold free_chain.
  assert (vd_free (v_vd v) = [0; 0; 0; 1; 1; 1; 1; 1]) as Hf by (by rewrite Ev).
  assert (length (vd_desc d) = 8%nat) as Hl by done.
  eapply vq_free_link; [lia|cbn; by rewrite Hf| |].
  { cbn. rewrite Ev. cbn. rewrite !upd_ne, upd_eq by lia. done. }
  cbn [vq_flags vq_next Z.eqb Z.land VRING_DESC_F_NEXT Pos.land].
  eapply vq_free_link; [lia|cbn; by rewrite Hf| |].
  { cbn. rewrite Ev. cbn. rewrite !upd_ne, upd_eq by (rewrite ?length_upd; lia). done. }
  cbn [vq_flags vq_next]. replace (Z.land _ VRING_DESC_F_NEXT =? 0) with false by (by destruct write).
  eapply vq_free_link; [lia|cbn; by rewrite Hf| |].
  { cbn. rewrite Ev. cbn. rewrite !upd_ne, upd_eq by (rewrite ?length_upd; lia). done. }
  cbn [vq_flags]. change (Z.land VRING_DESC_F_WRITE VRING_DESC_F_NEXT =? 0) with true.
  clear -Hf. cbv iota. destruct v as [? ? ? ? ? ? ? d ?]. vcbv. f_equal.
  destruct d. cbn in Hf. subst vd_free. reflexivity.
Qed.

Lemma length_transfer b write bno v : length (v_bufs (transfer b write bno v)) = length (v_bufs v).
Proof. destruct write; cbn; by rewrite ?length_upd. Qed.

(** Setting and clearing [disk] around a transfer. *)
Lemma transfer_disk b write bno v d d' :
  (b < length (v_bufs v))%nat ->
  (transfer b write bno (v <| v_bufs ::= upd b (λ r, r <| b_disk := 1 |>) |> <| v_vd := d |>))
    <| v_bufs ::= upd b (λ r, r <| b_disk := 0 |>) |> <| v_vd := d' |> =
  (transfer b write bno v) <| v_bufs ::= upd b (λ r, r <| b_disk := 0 |>) |> <| v_vd := d' |>.
Proof.
  intros Hb. destruct v. cbn in Hb. destruct write; unfold transfer; vcbv.
  - rewrite upd_eq, upd_upd by done. done.
  - rewrite !upd_upd by (by rewrite ?length_upd). done.
Qed.

(** The driver's contract: block [bno] of the disk is read into the buffer or
    written from it, and the device is idle again. *)
Lemma virtio_disk_rw_spec v b write bno :
  (b < length (v_bufs v))%nat -> b_blockno (v_bufs v !!! b) = bno -> 0 <= bno < 2 ^ 31 ->
  disk_idle (v_vd v) ->
  ∃ d, disk_idle d ∧
    vq p [] (virtio_disk_rw b write) v () []
      ((transfer b write bno v) <| v_bufs ::= upd b (λ r, r <| b_disk := 0 |>) |> <| v_vd := d |>).
Proof.
  intros Hb <- Hbno Hd. set (bno := b_blockno (v_bufs v !!! b)) in *.
  set (d1 := seen (reported 0 (requested b write (bno * 2) (v_vd v)))).
  exists (idle_again d1). split; [by apply idle_again_idle|].
  unfold virtio_disk_rw. vstep (vq_read_buf p [] b b_blockno).
  replace (u32 (b_blockno (v_bufs v !!! b) * (BSIZE / 512))) with (bno * 2)
    by (change (BSIZE / 512) with 2; unfold u32, bno in *; rewrite Z.mod_small; lia).
  vstep vq_acquire; [by apply static_lock|done|set_solver|cbn; lia|].
  pose proof disk_fuel as Hfuel. destruct w_fuel as [|[|fuel]] eqn:Ef; [lia..|].
  eapply vq_bind; [apply vq_loop_done; [|lia]|].
  { vstep vq_alloc3_desc; [apply Hd|]. apply vq_ret. }
  cbv beta. change (Z.to_nat (nth 0 [0; 1; 2] 0)) with 0%nat.
  change (Z.to_nat (nth 1 [0; 1; 2] 0)) with 1%nat. change (Z.to_nat (nth 2 [0; 1; 2] 0)) with 2%nat.
  vstep vq_format_request.
  set (v1 := v <| v_bufs ::= _ |> <| v_vd ::= _ |>).
  assert (b_disk (v_bufs v1 !!! b) = 1) as E1 by (unfold v1; vcbn; by rewrite upd_eq).
  assert (pending b 0 write bno (v_vd v1)) as Hp1 by (by apply requested_pending).
  assert (b < length (v_bufs v1))%nat as Hb1 by (unfold v1; vcbn; by rewrite length_upd).
  set (v2 := (transfer b write bno v1) <| v_bufs ::= upd b (λ r, r <| b_disk := 0 |>) |>
                 <| v_vd ::= λ d, seen (reported 0 d) |>).
  assert (v_vd v2 = d1) as Ed by (by destruct write).
  assert (b_disk (v_bufs v2 !!! b) = 0) as E2
    by (unfold v2; vcbn; by rewrite upd_eq by (by rewrite length_transfer)).
  replace ((transfer b write bno v) <| v_bufs ::= _ |> <| v_vd := _ |>)
    with (v2 <| v_vd ::= idle_again |>) by (rewrite <- Ed; by apply transfer_disk).
  assert (vq p [LkDisk] (sleep (ChBufIO b) LkDisk) v1 () [LkDisk] v2) as Hs by (by apply vq_sleep_io).
  clearbody v2. eapply vq_bind.
  { eapply (vq_loop_next p _ (S fuel) _ v1 v2); [|apply vq_loop_done; [|lia]].
    - vstep (vq_read_buf_as p _ b b_disk); [exact E1|].
      vstep Hs. apply vq_ret.
    - vstep (vq_read_buf_as p _ b b_disk); [exact E2|apply vq_ret]. }
  cbv beta. vstep vq_write_vd. vstep (vq_free_chain _ v2 b write (bno * 2) (v_vd v)); [done..|].
  apply vq_release.
Qed.
End driver.

(** ** A system that keeps the promise *)

(** A virtio block device serves the next chain of the available ring. *)
Definition device (k : kernel) : kernel :=
  let d := vdisk_state k in
  if vd_dev_idx d =? vd_avail_idx d then k else
  let i0 := Z.to_nat (vd_avail_ring d !!! Z.to_nat (vd_dev_idx d mod 8)) in
  let d0 := vd_desc d !!! i0 in
  let d1 := vd_desc d !!! Z.to_nat (vq_next d0) in
  let d2 := vd_desc d !!! Z.to_nat (vq_next d1) in
  match vq_addr d0, vq_addr d1, vq_addr d2 with
  | DmaOp o, DmaData b, DmaStatus s =>
      let bno := rq_sector (vd_ops d !!! o) / 2 in
      let data := b_data (bufs k !!! b) in
      let k :=
        if rq_type (vd_ops d !!! o) =? VIRTIO_BLK_T_OUT then
          k <| image ::= <[bno := data]> |> <| writes ::= λ w, w ++ [(bno, data)] |>
        else k <| bufs ::= upd b (λ r, r <| b_data := image k !!! bno |>) |> in
      k <| vdisk_state ::= λ d,
        d <| vd_info_status ::= upd s (λ _, 0) |>
          <| vd_used_ring ::= upd (Z.to_nat (vd_dev_idx d mod 8)) (λ _, Z.of_nat i0) |>
          <| vd_dev_idx := u16 (vd_dev_idx d + 1) |> |>
  | _, _, _ => k
  end.

Definition idle_world : World := {|
  w_run _ := None;
  w_fuel := 100;
  w_uart _ _ := 32;
  w_plic _ := 0;
  w_virtio _ _ := 1;
  w_pad := [0; 0; 0; 0];
|}.

(** The scheduler takes the CPU back from [p], the device serves the request,
    its interrupt is handled, and the scheduler looks for a process. *)
Definition while_asleep (p : nat) : M () :=
  scheduler_ret p ;;
  modify device ;;
  virtio_disk_intr (W := idle_world).
Definition disk_system : M (option nat) :=
  me ← read_cpu c_proc;
  match me with
  | None => mret None
  | Some p =>
      while_asleep p ;;
      scheduler_pass
  end.
Definition disk_world : World := {|
  w_run k := match disk_system k with Ret (Some _) k' => Some k' | _ => None end;
  w_fuel := 100;
  w_uart _ _ := 32;
  w_plic _ := 0;
  w_virtio _ _ := 1;
  w_pad := [0; 0; 0; 0];
|}.

Lemma device_eq p b i0 write bno k :
  pending b i0 write bno (vdisk_state k) ->
  fsv p (device k) = (transfer b write bno (fsv p k)) <| v_vd ::= reported i0 |> ∧
  mach (device k) = mach k ∧ procs (device k) = procs k ∧
  panicking (device k) = panicking k ∧ panicked (device k) = panicked k.
Proof.
  intros [Hr Ha Hu Hf Hi Ho (i1 & i2 & E0 & E1 & E2) Hb Hs Hg]. unfold device.
  replace (vd_dev_idx (vdisk_state k) =? vd_avail_idx (vdisk_state k)) with false.
  2:{ symmetry. apply Z.eqb_neq. rewrite Ha. unfold u16. intros E.
      destruct (decide (vd_dev_idx (vdisk_state k) = 65535)) as [E'|]; [by rewrite E' in E|].
      rewrite Z.mod_small in E; lia. }
  rewrite Hf, Nat2Z.id, E0. cbn [vq_next vq_addr]. rewrite Nat2Z.id, E1. cbn [vq_next vq_addr].
  rewrite Nat2Z.id, E2. cbn [vq_addr]. rewrite Ho. cbn [rq_sector rq_type].
  rewrite Z.div_mul by done. destruct write; done.
Qed.

(** The interrupt handler, with one request to report and no current process. *)
Lemma virtio_disk_intr_eq {W : World} b i k :
  table_ok k -> hart_ok 3 (mach k) -> lock_free LkDisk (mach k) -> c_proc (my_cpu (mach k)) = None ->
  let d := vdisk_state k in
  0 <= vd_used_idx d < 2 ^ 16 -> vd_dev_idx d = u16 (vd_used_idx d + 1) ->
  vd_used_ring d !!! Z.to_nat (vd_used_idx d mod 8) = Z.of_nat i ->
  vd_info_status d !!! i = 0 -> vd_info_b d !!! i = Some b ->
  ∃ k', virtio_disk_intr k = Ret () k' ∧ mach k' = touch (mach k) ∧
    procs k' = wakeup_proc (Some (ChBufIO b)) <$> procs k ∧
    panicking k' = panicking k ∧ panicked k' = panicked k ∧ (mem k' = mem k ∧ ftable k' = ftable k) ∧
    (∀ p, fsv p k' =
       (fsv p k) <| v_bufs ::= upd b (λ r, r <| b_disk := 0 |>) |> <| v_vd ::= seen |>
                 <| v_pid := p_pid (procs k' !!! p) |> <| v_user := user_of p k' |>).
Proof.
  intros Hk Hh Hl Hp d Hr Hdev Hring Hst Hib.
  assert (can_lock LkDisk (mach k)) as Hlk by (by split; [apply Hk|]).
  assert ((vd_used_idx d =? vd_dev_idx d) = false) as Hne.
  { apply Z.eqb_neq. rewrite Hdev. unfold u16. intros E.
    destruct (decide (vd_used_idx d = 65535)) as [E'|]; [by rewrite E' in E|].
    rewrite Z.mod_small in E; lia. }
  unfold virtio_disk_intr. step_acquire Hlk. unfold R, R_write, io_write, read_vd.
  rewrite bind_bind, bind_gets, bind_bind, bind_modify, bind_ret, bind_modify, bind_gets.
  match goal with |- ∃ k', (_ ≫= _) ?s = _ ∧ _ => set (k1 := s) end.
  assert (vdisk_state k1 = d) as Ed by done. assert (mach k1 = acquired LkDisk (mach k)) as Em by done.
  assert (procs k1 = procs k) as Ep by done.
  assert (table_ok (k1 <| bufs ::= upd b (λ r, r <| b_disk := 0 |>) |>)) as Ht.
  { split; kcbn; rewrite ?Em, ?Ep; [by apply acquired_ok| |apply Hk].
    intros j Hj. apply acquired_free; [done|by apply Hk]. }
  rewrite Ed.
  replace (Z.to_nat (u16 (vd_dev_idx d - vd_used_idx d))) with 1%nat.
  2:{ rewrite Hdev. unfold u16. rewrite Zminus_mod_idemp_l.
      by replace (vd_used_idx d + 1 - vd_used_idx d) with 1 by lia. }
  match goal with |- context [loop 2 ?m] => set (body := m) end.
  set (k2 := k1 <| bufs ::= upd b (λ r, r <| b_disk := 0 |>) |>
    <| procs ::= imap (λ i p, if bool_decide (c_proc (my_cpu (mach k1)) = Some i) then p
                              else wakeup_proc (Some (ChBufIO b)) p) |>
    <| mach ::= touch |> <| vdisk_state ::= seen |>).
  assert (body k1 = Ret None k2) as E1.
  { unfold body. rewrite bind_gets. unfold id. rewrite Ed, Hne. change (Z.of_nat NUM) with 8.
    rewrite Hring, Nat2Z.id, Hst, Hib. cbn [negb Z.eqb]. unfold write_buf, write_vd.
    rewrite bind_modify. erewrite bind_Ret by (apply (wakeup_eq _ _ Ht)). rewrite bind_modify. done. }
  assert (body k2 = Ret (Some ()) k2) as E2.
  { unfold body. rewrite bind_gets. unfold id, k2. kcbn. rewrite Ed. cbn. by rewrite Hdev, Z.eqb_refl. }
  assert (loop 2 body k1 = Ret () k2) as E3.
  { cbn [loop]. rewrite (bind_Ret _ _ _ _ _ E1). by rewrite (bind_Ret _ _ _ _ _ E2). }
  assert (mach k2 = acquired LkDisk (mach k)) as Em2
    by (unfold k2; kcbn; rewrite Em; by apply touch_acquired, (hart_ok_mono 3)).
  rewrite (bind_Ret _ _ _ _ _ E3), (release_step LkDisk k2 (mach k) Em2 Hlk).
  eexists. split; [reflexivity|]. split; [done|]. split; [|split_and!; [done..|]].
  - unfold k2. kcbn. rewrite Em, Ep, my_cpu_acquired by apply Hh. cbn [c_proc]. rewrite Hp.
    apply imap_const.
  - done.
Qed.

(** With one runnable process the scheduler chooses it. *)
Lemma head_filter_unique {A} (P : A -> bool) (l : list A) x :
  x ∈ l -> (∀ y, P y = true -> y = x) ->
  head (filter (λ y, P y = true) l) = if P x then Some x else None.
Proof.
  intros Hx Hu. destruct (filter _ l) as [|y l'] eqn:E.
  - destruct (P x) eqn:Hp; [|done]. assert (x ∈ filter (λ y, P y = true) l) as Hin
      by (by apply list_elem_of_filter). rewrite E in Hin. by apply not_elem_of_nil in Hin.
  - assert (y ∈ filter (λ y, P y = true) l) as [Hy _]%list_elem_of_filter by (rewrite E; by left).
    pose proof (Hu y Hy) as ->. by rewrite Hy.
Qed.

Lemma pick_only ps p :
  (p < NPROC)%nat -> p_state (ps !!! p) = RUNNABLE -> 0 <= p_priority (ps !!! p) <= 2 ->
  (∀ i, i ≠ p -> p_state (ps !!! i) ≠ RUNNABLE) -> pick ps = Some p.
Proof.
  intros Hp Hs Hr Ho.
  assert (∀ pr, pick_level ps pr = if p_priority (ps !!! p) =? pr then Some p else None) as Hl.
  { intros pr. unfold pick_level. rewrite (head_filter_unique _ _ p).
    - unfold eligible. by rewrite Hs.
    - rewrite elem_of_seq. lia.
    - unfold eligible. intros i [Hi%bool_decide_eq_true _]%andb_true_iff.
      destruct (decide (i = p)); [done|]. by apply Ho in Hi. }
  unfold pick. cbn [omap list_omap]. rewrite !Hl.
  assert (p_priority (ps !!! p) = 0 ∨ p_priority (ps !!! p) = 1 ∨ p_priority (ps !!! p) = 2)
    as [->|[->| ->]] by lia; done.
Qed.

Lemma base_set_proc p m' :
  hart_ok 20 m' -> c_noff (my_cpu m') = 0 -> (∀ l, l ∈ static_locks -> lock_free l m') ->
  base_ok p (set_proc (Some p) m').
Proof.
  intros Hh Hn Hf. pose proof Hh as [Hc _ _ _].
  split; rewrite ?my_cpu_set_proc by done; [by apply set_proc_ok|done..].
Qed.

Lemma sched_entry_ok m :
  hart_ok 20 m -> c_noff (my_cpu m) = 0 ->
  hart_ok 20 (sched_entry m) ∧ c_noff (my_cpu (sched_entry m)) = 0.
Proof.
  intros [Hc Hr Hn Ho] Hz. split; [|done]. split; cbn; rewrite ?length_upd; try done.
  unfold my_cpu in *. cbn. rewrite Hz. lia.
Qed.

(** The request is served while the process sleeps. *)
Lemma request_served p b i0 write bno k m :
  parked p (ChBufIO b) k -> base_ok p m -> mach k = acquired (LkProc p) m ->
  (b < length (bufs k))%nat -> pending b i0 write bno (vdisk_state k) ->
  ∃ k', while_asleep p k = Ret () k' ∧
    mach k' = touch (set_proc None m) ∧ length (procs k') = NPROC ∧
    (∀ i, i ≠ p -> idle_state (p_state (procs k' !!! i))) ∧
    p_state (procs k' !!! p) = RUNNABLE ∧ 0 <= p_priority (procs k' !!! p) <= 2 ∧
    (panicking k' = 0 ∧ panicked k' = 0) ∧
    fsv p k' = (transfer b write bno (fsv p k)) <| v_bufs ::= upd b (λ r, r <| b_disk := 0 |>) |>
                   <| v_vd ::= λ d, seen (reported i0 d) |>.
Proof.
  intros [_ Hp Hl Ha Hs Hc Hpr Hpan] [Hh Hn Hcp Hf] Em Hb Hd.
  pose proof Hh as [Hcpu _ _ _]. set (m1 := touch (set_proc None m)).
  assert (hart_ok 20 m1) as Hh1 by (by apply touch_ok, set_proc_ok).
  set (k1 := k <| procs ::= upd p (λ r, r <| p_last_scheduled := ticks k |>) |> <| mach := m1 |>).
  assert (scheduler_ret p k = Ret () k1) as E1.
  { apply scheduler_ret_eq; [done|]. split; [by apply (hart_ok_mono 20)|by apply Hf, static_proc]. }
  assert (user_of p k1 = user_of p k) as Eu1.
  { unfold user_of, k1. cbn. by rewrite upd_eq by (by rewrite Hl). }
  assert (∀ i, p_state (procs k1 !!! i) = p_state (procs k !!! i) ∧
    p_chan (procs k1 !!! i) = p_chan (procs k !!! i) ∧ p_pid (procs k1 !!! i) = p_pid (procs k !!! i) ∧
    p_priority (procs k1 !!! i) = p_priority (procs k !!! i)) as H1.
  { intros i. unfold k1. cbn. destruct (decide (i = p)) as [->|]; [|by rewrite upd_ne].
    by rewrite upd_eq by (by rewrite Hl). }
  assert (length (procs k1) = NPROC) as Hl1 by (unfold k1; cbn; by rewrite length_upd).
  destruct (device_eq p b i0 write bno k1 Hd) as (Ev2 & Em2 & Ep2 & Epan2 & Epan2').
  assert (mach k1 = m1 ∧ panicking k1 = 0 ∧ panicked k1 = 0) as (Em1 & Hpan1 & Hpan1') by done.
  assert (fsv p k1 = fsv p k) as Ev1 by (unfold fsv; destruct (H1 p) as (_ & _ & -> & _); by rewrite Eu1).
  rewrite Ev1 in Ev2. clearbody k1. remember (device k1) as k2 eqn:Ek2.
  pose proof (f_equal v_vd Ev2) as Evd. destruct Hd as [Hr Hav Hu Hfi Hi _ _ Hib Hst Hri].
  assert (v_vd (transfer b write bno (fsv p k)) = vdisk_state k) as Et by (by destruct write).
  vcbn in Evd. rewrite Et in Evd. change (v_vd (fsv p k2)) with (vdisk_state k2) in Evd.
  destruct (virtio_disk_intr_eq (W := idle_world) b i0 k2) as (k3 & E3 & Em3 & Ep3 & Epan3 & Epan3' & [Emem3 Eft3] & Ev3).
  { split; [rewrite Em2, Em1; by apply (hart_ok_mono 20)| |by rewrite Ep2].
    rewrite Em2, Em1. intros j Hj. by apply Hf, static_proc. }
  1-3: rewrite Em2, Em1.
  { by apply (hart_ok_mono 20). }
  { by apply Hf, static_lock. }
  { unfold m1. rewrite c_proc_touch by apply (set_proc_ok 20 None m Hh). by rewrite my_cpu_set_proc. }
  1-5: rewrite Evd; cbn; rewrite ?Hu; try done.
  { rewrite upd_eq; [done|]. rewrite Hri. pose proof (Z.mod_pos_bound (vd_dev_idx (vdisk_state k)) 8). lia. }
  { rewrite upd_eq; [done|]. by rewrite Hst. }
  assert (∀ i, procs k3 !!! i = wakeup_proc (Some (ChBufIO b)) (procs k1 !!! i)) as Hw.
  { intros i. rewrite Ep3, Ep2, !list_lookup_total_alt, list_lookup_fmap. by destruct (procs k1 !! i). }
  assert (p_priority (procs k3 !!! p) = p_priority (procs k !!! p)) as Hpk.
  { rewrite Hw. destruct (H1 p) as (_ & _ & _ & Hpp). unfold wakeup_proc. by destruct (_ && _). }
  exists k3. rewrite Hpk. split_and!; [| | | | |by apply Hpr..| | |].
  - unfold while_asleep. rewrite (bind_Ret _ _ _ _ _ E1), bind_modify, <- Ek2. exact E3.
  - rewrite Em3, Em2, Em1. apply touch_idemp, (set_proc_ok 20 None m Hh).
  - by rewrite Ep3, length_fmap, Ep2.
  - intros i Hip. rewrite Hw. unfold wakeup_proc. destruct (H1 i) as (Hsi & _).
    rewrite bool_decide_false by (rewrite Hsi; by apply Ha). cbn. rewrite Hsi. by apply Ha.
  - rewrite Hw. unfold wakeup_proc. destruct (H1 p) as (-> & -> & _).
    by rewrite Hs, Hc, !bool_decide_true.
  - by rewrite Epan3, Epan2.
  - by rewrite Epan3', Epan2'.
  - rewrite Ev3, Ev2, Hw. assert (p_pid (wakeup_proc (Some (ChBufIO b)) (procs k1 !!! p)) = v_pid (fsv p k)) as ->.
    { destruct (H1 p) as (_ & _ & Hpid & _). unfold wakeup_proc. by destruct (_ && _). }
    assert (user_of p k3 = v_user (fsv p k)) as ->; [|by destruct write].
    assert (user_of p k2 = user_of p k) as Eu2 by (pose proof (f_equal v_user Ev2) as E; by destruct write).
    change (v_user (fsv p k)) with (user_of p k). rewrite <- Eu2. unfold user_of. rewrite Hw, Emem3, Eft3, Ep2.
    unfold wakeup_proc. by destruct (_ && _).
Qed.

#[export] Instance disk_world_ok : DiskWorld disk_world.
Proof.
  split; [cbn; lia|done|]. intros p b i0 write bno k Hpk Hb Hd.
  pose proof Hpk as [(m & Hm & Em) Hp _ _ _ _ _ _]. pose proof Hm as [Hh Hn Hcp Hf].
  pose proof Hh as [Hcpu _ _ _].
  destruct (request_served p b i0 write bno k m) as (k3 & E3 & Em3 & Hl & Ha & Hs & Hpr & Hpan & Ev); [done..|].
  set (m1 := touch (set_proc None m)) in *.
  assert (hart_ok 20 m1) as Hh1 by (by apply touch_ok, set_proc_ok).
  assert (c_noff (my_cpu m1) = 0) as Hn1.
  { unfold m1. rewrite my_cpu_touch, my_cpu_set_proc; [done..|]. apply (set_proc_ok 20 None m Hh). }
  assert (∀ l, l ∈ static_locks -> lock_free l m1) as Hf1 by done. clearbody m1.
  destruct (sched_entry_ok m1 Hh1 Hn1) as [Hh2 Hn2].
  assert (table_ok k3) as Ht.
  { split; rewrite ?Em3; [by apply (hart_ok_mono 20)| |done]. intros j Hj. by apply Hf1, static_proc. }
  assert (pick (procs k3) = Some p) as Epk by (apply pick_only; [done..|]; intros i Hi; by apply Ha).
  pose proof (scheduler_pass_eq k3 Ht ltac:(by rewrite Em3)) as E4. rewrite Epk in E4.
  set (k4 := dispatch_state p _) in E4. exists k4.
  assert (procs k4 = upd p (dispatch_proc (ticks k3)) (procs k3)) as Ep4 by done.
  assert (mach k4 = acquired (LkProc p) (set_proc (Some p) (sched_entry m1))) as Em4
    by (unfold k4, dispatch_state; kcbn; by rewrite Em3).
  assert (fsv p k4 = (fsv p k3) <| v_pid := p_pid (procs k4 !!! p) |> <| v_user := user_of p k4 |>) as Ev4 by done.
  assert (panicking k4 = panicking k3 ∧ panicked k4 = panicked k3) as [Epan Epan'] by done.
  assert (mem k4 = mem k3 ∧ ftable k4 = ftable k3) as Emf by done.
  clearbody k4. split_and!.
  - change (w_run k) with (match disk_system k with Ret (Some _) k' => Some k' | _ => None end).
    enough (disk_system k = Ret (Some p) k4) as -> by done.
    unfold disk_system. rewrite bind_read_cpu, Em.
    change (m_cpus (acquired (LkProc p) m) !!! m_hart (acquired (LkProc p) m))
      with (my_cpu (acquired (LkProc p) m)). rewrite my_cpu_acquired by done. cbn [c_proc]. rewrite Hcp.
    by rewrite (bind_Ret _ _ _ _ _ E3).
  - split.
    + exists (set_proc (Some p) (sched_entry m1)). split; [by apply base_set_proc|done].
    + by rewrite Ep4, length_upd.
    + intros i Hi. rewrite Ep4, upd_ne by done. by apply Ha.
    + rewrite Ep4, upd_eq by (by rewrite Hl). by unfold dispatch_proc; destruct (_ =? 0).
    + rewrite Ep4, upd_eq by (by rewrite Hl). by unfold dispatch_proc; destruct (_ =? 0).
    + by rewrite Epan, Epan'.
  - assert (p_pid (procs k4 !!! p) = v_pid (fsv p k3)) as Epid.
    { rewrite Ep4, upd_eq by (by rewrite Hl). by unfold dispatch_proc; destruct (_ =? 0). }
    assert (user_of p k4 = v_user (fsv p k3)) as Eu.
    { change (user_of p k4 = user_of p k3). unfold user_of. rewrite Ep4, upd_eq by (by rewrite Hl).
      destruct Emf as [-> ->]. by unfold dispatch_proc; destruct (_ =? 0). }
    by rewrite Ev4, Epid, Eu, <- Ev.
Qed.

(** ** Messages on the console *)
Section printing.
Context {W : World} {DW : DiskWorld W} (p : nat).

Lemma okh_touch ls k : okh p ls k -> okh p ls (k <| mach ::= touch |>).
Proof.
  intros Hk. destruct (vq_myproc p ls (fsv p k) k Hk eq_refl) as (k' & E & Hk' & _).
  pose proof Hk as [(m & Hm & Em) _ _ Hlen _ _ _ _ _ _].
  rewrite myproc_eq in E; [by injection E as _ <-|]. rewrite Em. apply (nest_hart p m Hm); lia.
Qed.

Lemma vq_uartputc_sync ls c v : vq p ls (uartputc_sync c) v () ls v.
Proof.
  intros k Hk <-. pose proof Hk as [(m & Hm & Em) _ _ Hlen _ _ _ _ _ [Hp1 Hp2]].
  assert (hart_ok 1 (mach k)) as Hh by (rewrite Em; apply (nest_hart p m Hm); lia).
  pose proof disk_fuel as Hf. destruct w_fuel as [|fuel] eqn:Ef; [lia|].
  set (k1 := k <| uart_reads ::= S |> <| mmio ::= λ l, l ++ [(UART0 + THR, u8 c)] |>).
  exists (k1 <| mach ::= touch |>). split.
  - unfold uartputc_sync. erewrite bind_gets_as by exact Hp1. cbn [Z.eqb when].
    erewrite bind_Ret by (unfold push_off, on_mach; rewrite push_off_pushed by done; reflexivity).
    erewrite bind_gets_as by exact Hp2. rewrite Ef. cbn [Z.eqb negb loop].
    rewrite bind_bind. unfold ReadReg, WriteReg, io_write. rewrite !bind_bind, bind_gets, !bind_bind, bind_modify.
    rewrite !bind_ret. rewrite disk_uart. change (Z.land (u8 32) LSR_TX_IDLE =? 0) with false. cbv iota.
    rewrite !bind_ret, bind_modify. erewrite bind_gets_as by exact Hp1. cbn [Z.eqb when].
    unfold pop_off, on_mach. kcbn. rewrite pop_off_pushed by done. done.
  - split; [|done]. apply okh_touch. by apply (okh_frame p ls k).
Qed.

Lemma vq_consputc ls c v : vq p ls (consputc c) v () ls v.
Proof.
  unfold consputc. destruct (c =? BACKSPACE); [do 2 vstep vq_uartputc_sync|]; apply vq_uartputc_sync.
Qed.

Lemma vq_each {I} ls (l : list I) (body : I -> M ()) v :
  (∀ i, vq p ls (body i) v () ls v) -> vq p ls (for_each l body) v () ls v.
Proof. intros Hb. induction l as [|i l IH]; [apply vq_ret|]. cbn. vstep Hb. exact IH. Qed.

(** [printf] returns, whatever the format and the arguments. *)
Lemma vq_printf_loop ls fuel fmt ap v :
  (length fmt <= fuel)%nat -> vq p ls (printf_loop fuel fmt ap) v () ls v.
Proof.
  assert (∀ xx base sign, vq p ls (printint xx base sign) v () ls v) as Hint
    by (intros; apply vq_each; intros; apply vq_consputc).
  assert (∀ x, vq p ls (printptr x) v () ls v) as Hptr
    by (intros; do 2 vstep vq_consputc; apply vq_each; intros; apply vq_consputc).
  revert fmt ap. induction fuel as [|fuel IH]; intros [|cx fmt] ap Hl; cbn [length] in Hl; try lia; try apply vq_ret.
  assert (∀ n ap, vq p ls (printf_loop fuel (drop n fmt) ap) v () ls v) as Hd
    by (intros; apply IH; rewrite length_drop; lia).
  cbn [printf_loop]. repeat case_match;
    first [ apply vq_ret | vstep Hint; apply Hd | vstep Hptr; apply Hd
          | vstep vq_consputc; apply Hd | vstep vq_consputc; vstep vq_consputc; apply Hd
          | vstep vq_consputc; apply IH; lia
          | eapply vq_bind; [apply vq_each; intros; apply vq_consputc|]; apply Hd ].
Qed.

Lemma vq_printf_fmt ls fmt ap v :
  LkPr ∉ ls -> (length ls < 4)%nat -> vq p ls (printf_fmt fmt ap) v () ls v.
Proof.
  intros Hl Hlen k Hk Hv. pose proof Hk as [_ _ _ _ _ _ _ _ _ [Hp _]].
  assert (vq p ls (acquire LkPr ;; printf_loop (length fmt) fmt ap) v () (LkPr :: ls) v) as H1.
  { vstep vq_acquire; [by apply static_lock|done..|]. by apply vq_printf_loop. }
  destruct (H1 k Hk Hv) as (k1 & E1 & Hk1 & Hv1).
  destruct (vq_release p ls LkPr v k1 Hk1 Hv1) as (k2 & E2 & Hk2 & Hv2).
  exists k2. split; [|done]. unfold printf_fmt. erewrite bind_gets_as by exact Hp. cbn [Z.eqb when].
  rewrite <- bind_bind. rewrite (bind_Ret _ _ _ _ _ E1).
  pose proof Hk1 as [_ _ _ _ _ _ _ _ _ [Hp1 _]]. erewrite bind_gets_as by exact Hp1. done.
Qed.
End printing.
