(* ===== verification/Bcache.v ===== *)
(** * The buffer cache's contract

    [bread], [bwrite], [brelse], [bpin] and [bunpin] against an abstract cache:
    the buffers the running process holds, and the pinned blocks with the
    contents they will have.  [bcache_ok] relates the two; it contains the
    structure of the LRU list, so every scan of it terminates. *)
From S2P Require Import Prelude Layout KState Spinlock CString Vm Proc Uart Sleeplock Virtio Bio.
From S2P Require Import Log SchedEq FsView Disk.

(** ** The doubly linked list *)

(** From [x] along [next] through the buffers [l] to [y], and back along [prev]. *)
Fixpoint seg (bs : list buf) (x : nat) (l : list nat) (y : nat) : Prop :=
  match l with
  | [] => b_next (bs !!! x) = y ∧ b_prev (bs !!! y) = x
  | a :: l => b_next (bs !!! x) = a ∧ b_prev (bs !!! a) = x ∧ seg bs a l y
  end.

Lemma seg_app bs x l1 a l2 y : seg bs x (l1 ++ a :: l2) y <-> seg bs x l1 a ∧ seg bs a l2 y.
Proof. revert x. induction l1 as [|b l1 IH]; intros x; cbn; [tauto|]. rewrite IH. tauto. Qed.

Lemma seg_first bs x l y : seg bs x l y -> b_next (bs !!! x) = hd y l.
Proof. destruct l; cbn; tauto. Qed.

Lemma seg_last bs x l y : seg bs x l y -> b_prev (bs !!! y) = List.last l x.
Proof.
  revert x. induction l as [|a l IH]; intros x; cbn; [tauto|]. intros (_ & _ & H).
  rewrite (IH a H). destruct l as [|b l]; [done|]. clear. revert b. induction l as [|c l IH]; [done|].
  intros b. exact (IH c).
Qed.

(** The list only depends on [next] at its start and on [prev] at its end. *)
Lemma seg_ext bs bs' x l y :
  (∀ i, i = x ∨ i ∈ l -> b_next (bs' !!! i) = b_next (bs !!! i)) ->
  (∀ i, i = y ∨ i ∈ l -> b_prev (bs' !!! i) = b_prev (bs !!! i)) ->
  seg bs x l y -> seg bs' x l y.
Proof.
  revert x. induction l as [|a l IH]; intros x Hn Hp; cbn.
  - rewrite Hn, Hp by auto. done.
  - intros (H1 & H2 & H3). rewrite Hn, Hp by (auto || (right; by left)). split_and!; [done..|].
    apply IH; [| |done]; intros i [->|Hi]; auto.
    + apply Hn. right. by left.
    + apply Hn. right. by right.
    + apply Hp. right. by right.
Qed.

(** Changes to the other fields do not matter. *)
Definition links_same (bs bs' : list buf) : Prop :=
  ∀ i, b_next (bs' !!! i) = b_next (bs !!! i) ∧ b_prev (bs' !!! i) = b_prev (bs !!! i).
Lemma seg_same bs bs' x l y : links_same bs bs' -> seg bs x l y -> seg bs' x l y.
Proof. intros H. apply seg_ext; intros i _; apply H. Qed.
Lemma links_same_upd b f bs :
  (∀ r, b_next (f r) = b_next r ∧ b_prev (f r) = b_prev r) -> links_same bs (upd b f bs).
Proof.
  intros Hf i. destruct (decide (b < length bs)%nat); [|by rewrite upd_ge by lia].
  rewrite upd_lookup by done. case_decide; [|done]. apply Hf.
Qed.

Section links.
Context (bs : list buf) (i j x : nat).

Lemma next_set_prev : b_next (upd i (λ r, r <| b_prev := x |>) bs !!! j) = b_next (bs !!! j).
Proof.
  destruct (decide (i < length bs)%nat); [|by rewrite upd_ge by lia].
  rewrite upd_lookup by done. by case_decide.
Qed.
Lemma prev_set_next : b_prev (upd i (λ r, r <| b_next := x |>) bs !!! j) = b_prev (bs !!! j).
Proof.
  destruct (decide (i < length bs)%nat); [|by rewrite upd_ge by lia].
  rewrite upd_lookup by done. by case_decide.
Qed.
Lemma prev_set_prev : (i < length bs)%nat ->
  b_prev (upd i (λ r, r <| b_prev := x |>) bs !!! j) = if decide (i = j) then x else b_prev (bs !!! j).
Proof. intros. rewrite upd_lookup by done. by case_decide. Qed.
Lemma next_set_next : (i < length bs)%nat ->
  b_next (upd i (λ r, r <| b_next := x |>) bs !!! j) = if decide (i = j) then x else b_next (bs !!! j).
Proof. intros. rewrite upd_lookup by done. by case_decide. Qed.
End links.

(** [b->next->prev = b->prev; b->prev->next = b->next]. *)
Definition unlink (b : nat) (bs : list buf) : list buf :=
  let bs1 := upd (b_next (bs !!! b)) (λ r, r <| b_prev := b_prev (bs !!! b) |>) bs in
  upd (b_prev (bs1 !!! b)) (λ r, r <| b_next := b_next (bs1 !!! b) |>) bs1.
(** [b->next = head.next; b->prev = &head; head.next->prev = b; head.next = b]. *)
Definition link_front (b : nat) (bs : list buf) : list buf :=
  let bs1 := upd b (λ r, r <| b_next := b_next (bs !!! HEAD) |>) bs in
  let bs2 := upd b (λ r, r <| b_prev := HEAD |>) bs1 in
  let bs3 := upd (b_next (bs2 !!! HEAD)) (λ r, r <| b_prev := b |>) bs2 in
  upd HEAD (λ r, r <| b_next := b |>) bs3.

Lemma last_in {A} (l : list A) x : List.last l x = x ∨ List.last l x ∈ l.
Proof.
  destruct l as [|a l] using rev_ind; [by left|right]. rewrite List.last_last. set_solver.
Qed.
Lemma hd_in {A} (l : list A) y : hd y l = y ∨ hd y l ∈ l.
Proof. destruct l; [by left|right; by left]. Qed.

(** A path whose last arc is redirected to [z]. *)
Lemma seg_retarget bs bs' x l b z :
  NoDup (x :: l) -> seg bs x l b ->
  (∀ i, i = x ∨ i ∈ l -> b_next (bs' !!! i) = if decide (List.last l x = i) then z else b_next (bs !!! i)) ->
  (∀ i, i ∈ l -> b_prev (bs' !!! i) = b_prev (bs !!! i)) ->
  b_prev (bs' !!! z) = List.last l x ->
  seg bs' x l z.
Proof.
  intros Hnd Hs Hn Hp Hz. destruct l as [|p l _] using rev_ind.
  - cbn in *. by rewrite Hn, decide_True by auto.
  - rewrite List.last_last in *. apply seg_app in Hs as [Hs _]. apply seg_app.
    apply NoDup_cons in Hnd as [Hx (_ & Hpl & _)%NoDup_app]. split.
    + revert Hs. apply seg_ext.
      * intros i Hi. rewrite Hn, decide_False; [done| |set_solver]. intros <-. set_solver.
      * intros i Hi. apply Hp. set_solver.
    + cbn. split; [|done]. rewrite Hn, decide_True; [done..|set_solver].
Qed.

Lemma seg_unlink bs x l1 b l2 y :
  Forall (λ i, (i < length bs)%nat) (x :: y :: b :: l1 ++ l2) ->
  NoDup (b :: l1 ++ l2) -> x ∉ b :: l1 ++ l2 -> y ∉ b :: l1 ++ l2 ->
  seg bs x l1 b -> seg bs b l2 y -> seg (unlink b bs) x (l1 ++ l2) y.
Proof.
  intros Hin Hnd Hx Hy H1 H2. pose proof (seg_last _ _ _ _ H1) as Hp. pose proof (seg_first _ _ _ _ H2) as Hn.
  rewrite Forall_forall in Hin. pose proof (last_in l1 x) as Hpl. pose proof (hd_in l2 y) as Hnl.
  apply NoDup_cons in Hnd as [Hb (Hnd1 & Hd & Hnd2)%NoDup_app].
  set (p := List.last l1 x) in *. set (n := hd y l2) in *.
  assert (p < length bs ∧ n < length bs)%nat as [Hpi Hni] by (split; apply Hin; set_solver).
  rewrite not_elem_of_cons, not_elem_of_app in Hx, Hy. rewrite not_elem_of_app in Hb.
  destruct Hx as (Hxb & Hxl & Hx2), Hy as (Hyb & Hy1 & Hy2), Hb as [Hb1 Hb2].
  assert (p ≠ b ∧ n ≠ b) as [Hpb Hnb] by (split; intros ->; destruct Hpl, Hnl; congruence).
  assert (∀ i, i ∈ l1 -> n ≠ i) as Hnl1 by (intros i Hi <-; destruct Hnl as [E|E]; [congruence|by destruct (Hd n)]).
  assert (∀ i, i ∈ l2 -> p ≠ i) as Hpl2 by (intros i Hi <-; destruct Hpl as [E|E]; [congruence|by destruct (Hd p)]).
  assert (∀ i, b_next (unlink b bs !!! i) = if decide (p = i) then n else b_next (bs !!! i)) as En.
  { intros i. unfold unlink. rewrite Hn, Hp, next_set_prev, Hn, prev_set_prev, decide_False, Hp by done.
    by rewrite next_set_next, next_set_prev by (by rewrite length_upd). }
  assert (∀ i, b_prev (unlink b bs !!! i) = if decide (n = i) then p else b_prev (bs !!! i)) as Ep.
  { intros i. unfold unlink. by rewrite prev_set_next, Hn, Hp, prev_set_prev. }
  assert (seg (unlink b bs) x l1 n) as Hs1.
  { apply (seg_retarget bs _ x l1 b n); [by constructor|done|intros; apply En| |].
    - intros i Hi. by rewrite Ep, decide_False by (by apply Hnl1).
    - by rewrite Ep, decide_True. }
  destruct l2 as [|a l2]; [by rewrite app_nil_r|]. apply seg_app. split; [done|].
  cbn in n, H2. subst n. destruct H2 as (_ & _ & H2). revert H2. apply NoDup_cons in Hnd2 as [Ha _].
  assert (∀ i, i = y ∨ i ∈ l2 -> a ≠ i) as Ha' by (clear -Ha Hy2; set_solver).
  apply seg_ext; intros i Hi; [rewrite En, decide_False|rewrite Ep, decide_False]; [done| |done|by apply Ha'].
  apply Hpl2. clear -Hi. set_solver.
Qed.

Lemma seg_link_front bs b l :
  (b < length bs)%nat -> (HEAD < length bs)%nat -> Forall (λ i, (i < length bs)%nat) l ->
  b ≠ HEAD -> b ∉ l -> HEAD ∉ l -> NoDup l ->
  seg bs HEAD l HEAD -> seg (link_front b bs) HEAD (b :: l) HEAD.
Proof.
  intros Hb Hh Hl Hne Hbl Hhl Hnd Hs. pose proof (seg_first _ _ _ _ Hs) as Hn.
  pose proof (hd_in l HEAD) as Hnl. rewrite Forall_forall in Hl. set (n := hd HEAD l) in *.
  assert (n < length bs)%nat as Hni by (destruct Hnl as [->|Hi]; auto).
  assert (n ≠ b) as Hnb by (destruct Hnl as [->|Hi]; [done|set_solver]).
  assert (∀ i, b_next (link_front b bs !!! i) =
    if decide (HEAD = i) then b else if decide (b = i) then n else b_next (bs !!! i)) as En.
  { intros i. unfold link_front. rewrite next_set_next by (by rewrite !length_upd).
    case_decide; [done|]. by rewrite !next_set_prev, next_set_next, Hn. }
  assert (∀ i, b_prev (link_front b bs !!! i) =
    if decide (n = i) then b else if decide (b = i) then HEAD else b_prev (bs !!! i)) as Ep.
  { intros i. unfold link_front. rewrite prev_set_next.
    rewrite next_set_prev, next_set_next, decide_False, Hn by done.
    rewrite prev_set_prev by (by rewrite !length_upd). case_decide; [done|].
    by rewrite prev_set_prev, prev_set_next by (by rewrite length_upd). }
  cbn. split_and!.
  - by rewrite En, decide_True.
  - by rewrite Ep, decide_False, decide_True.
  - destruct l as [|a l]; cbn in n, Hs |- *; subst n.
    + by rewrite En, Ep, decide_False, !decide_True.
    + destruct Hs as (_ & _ & Hs). apply NoDup_cons in Hnd as [Ha _].
      rewrite En, Ep, decide_False, !decide_True by done. split_and!; [done..|].
      apply not_elem_of_cons in Hbl as [Hba Hbl], Hhl as [Hha Hhl].
      revert Hs. apply seg_ext; intros i Hi; [rewrite En|rewrite Ep]; rewrite !decide_False; try done;
        clear En Ep; intros <-; destruct Hi; congruence.
Qed.

(** ** Sleep locks that are free *)
Section sleeplocks.
Context {W : World} {DW : DiskWorld W} (p : nat).

(** The sleep lock of a buffer or of an entry of the inode table. *)
Definition slock (l : slid) : Prop := match l with SlBuf b => (b < NBUF)%nat | SlInode i => (i < NINODE)%nat end.
Lemma slock_static l : slock l -> sl_lk l ∈ static_locks ∧ ∀ i, sl_lk l ≠ LkProc i.
Proof. intros H. split; [|by destruct l]. destruct l; [by apply static_buf|by apply static_inode]. Qed.

Lemma vq_acquiresleep l v :
  slock l -> sl_locked (v_sl v !!! l) = 0 ->
  vq p [] (acquiresleep l) v () [] (v <| v_sl ::= <[l := mk_sleeplock 1 (v_pid v)]> |>).
Proof.
  intros [Hs Hnp]%slock_static Hl. pose proof disk_fuel as Hf. unfold acquiresleep.
  vstep vq_acquire; [done|done|apply not_elem_of_nil|cbn; lia|].
  eapply vq_bind.
  { eapply vq_loop_done; [|lia]. vstep (vq_read_sleeplock_as p _ _ sl_locked); [exact Hl|apply vq_ret]. }
  vstep vq_write_sleeplock. vstep vq_my_pid. vstep vq_write_sleeplock.
  vlast vq_release.
  vcbv. by rewrite lookup_total_insert_eq, insert_insert_eq.
Qed.

Lemma vq_releasesleep l v :
  slock l ->
  vq p [] (releasesleep l) v () [] (v <| v_sl ::= <[l := mk_sleeplock 0 0]> |>).
Proof.
  intros [Hs Hnp]%slock_static. unfold releasesleep.
  vstep vq_acquire; [done|done|apply not_elem_of_nil|cbn; lia|].
  vstep vq_write_sleeplock. vstep vq_write_sleeplock. vstep vq_wakeup.
  vlast vq_release.
  vcbv. by rewrite lookup_total_insert_eq, insert_insert_eq.
Qed.

Lemma vq_holdingsleep l v :
  slock l -> v_sl v !!! l = mk_sleeplock 1 (v_pid v) ->
  vq p [] (holdingsleep l) v true [] v.
Proof.
  intros [Hs Hnp]%slock_static Hl. unfold holdingsleep.
  vstep vq_acquire; [done|done|apply not_elem_of_nil|cbn; lia|].
  vstep (vq_read_sleeplock_as p _ _ id); [exact Hl|]. cbn [sl_locked sl_pid].
  change (negb (1 =? 0)) with true. cbv iota.
  eapply vq_bind; [vstep vq_my_pid; apply vq_ret|]. cbv beta. rewrite Z.eqb_refl.
  vstep vq_release. apply vq_ret.
Qed.
End sleeplocks.

(** ** The abstract cache *)

(** The buffers the running process has locked, with their block and its data
    once it has been read, the pinned blocks with their data, and the entries of
    the inode table the process has locked. *)
#[projections(primitive)] Record cache : Type := mk_caches {
  held : gmap nat (Z * option (list Z));
  pins : gmap Z (list Z);
  ilk : gset nat;
}.
#[export] Instance set_held : Setter held := λ f r, mk_caches (f (held r)) (pins r) (ilk r).
#[export] Instance set_pins : Setter pins := λ f r, mk_caches (held r) (f (pins r)) (ilk r).
#[export] Instance set_ilk : Setter ilk := λ f r, mk_caches (held r) (pins r) (f (ilk r)).
Abbreviation mk_cache h P := (mk_caches h P ∅).

(** The references to a buffer. *)
Definition refs (c : cache) (b : nat) (r : buf) : Z :=
  (if held c !! b is Some _ then 1 else 0) +
  (if decide (b_dev r = ROOTDEV ∧ is_Some (pins c !! b_blockno r)) then 1 else 0).

(** What a block holds for the rest of the kernel. *)
Definition content (c : cache) (v : fsview) (bno : Z) : list Z :=
  default (v_image v !!! bno) (pins c !! bno).

Record buf_ok (c : cache) (v : fsview) (b : nat) (r : buf) : Prop := {
  bo_dev : b_dev r = 0 ∨ b_dev r = ROOTDEV;
  bo_bno : 0 <= b_blockno r < 2 ^ 31;
  bo_ref : b_refcnt r = refs c b r;
  bo_held bno d : held c !! b = Some (bno, d) ->
    b_dev r = ROOTDEV ∧ b_blockno r = bno ∧ v_sl v !!! SlBuf b = mk_sleeplock 1 (v_pid v) ∧
    match d with Some data => b_valid r = 1 ∧ b_data r = data | None => b_valid r = 0 end;
  bo_free : held c !! b = None -> sl_locked (v_sl v !!! SlBuf b) = 0;
  bo_data : held c !! b = None -> b_dev r = ROOTDEV ->
    b_valid r = 1 ∧ b_data r = content c v (b_blockno r);
}.

Record bcache_ok (c : cache) (v : fsview) : Prop := {
  bc_len : length (v_bufs v) = S NBUF;
  bc_ring : ∃ l, l ≡ₚ seq 0 NBUF ∧ seg (v_bufs v) HEAD l HEAD;
  bc_buf b : (b < NBUF)%nat -> buf_ok c v b (v_bufs v !!! b);
  bc_held b : is_Some (held c !! b) -> (b < NBUF)%nat;
  bc_unique i j : (i < NBUF)%nat -> (j < NBUF)%nat ->
    b_dev (v_bufs v !!! i) = ROOTDEV -> b_dev (v_bufs v !!! j) = ROOTDEV ->
    b_blockno (v_bufs v !!! i) = b_blockno (v_bufs v !!! j) -> i = j;
  bc_pins bno data : pins c !! bno = Some data ->
    ∃ b, (b < NBUF)%nat ∧ b_dev (v_bufs v !!! b) = ROOTDEV ∧ b_blockno (v_bufs v !!! b) = bno ∧
      b_valid (v_bufs v !!! b) = 1;
  bc_idle : disk_idle (v_vd v);
  bc_ilk i : if decide (i ∈ ilk c) then v_sl v !!! SlInode i = mk_sleeplock 1 (v_pid v)
    else sl_locked (v_sl v !!! SlInode i) = 0;
}.

(** What the cache's operations leave alone. *)
Definition rest (v : fsview) : logstate * superblock * list inode * Z * uview :=
  (v_log v, v_sb v, v_itable v, v_pid v, v_user v).
Definition disk (v : fsview) : gmap Z (list Z) * list (Z * list Z) := (v_image v, v_writes v).

(** ** The scans *)
Section scans.
Context {W : World} (p : nat).

Definition caches (dev bno : Z) (v : fsview) (b : nat) : bool :=
  (b_dev (v_bufs v !!! b) =? dev) && (b_blockno (v_bufs v !!! b) =? bno).
Definition unused (v : fsview) (b : nat) : bool := b_refcnt (v_bufs v !!! b) =? 0.

Lemma vq_bget_cached ls dev bno v fuel x l :
  seg (v_bufs v) x l HEAD -> HEAD ∉ l -> (length l < fuel)%nat ->
  vq p ls (bget_cached fuel (b_next (v_bufs v !!! x)) dev bno) v
    (head (filter (λ b, caches dev bno v b = true) l)) ls v.
Proof.
  revert x fuel. induction l as [|b l IH]; intros x fuel Hs Hh Hl; destruct fuel as [|fuel]; cbn in Hl; try lia.
  - cbn in Hs. destruct Hs as [-> _]. cbn. apply vq_ret.
  - destruct Hs as (-> & _ & Hs). apply not_elem_of_cons in Hh as [Hb Hh].
    cbn [bget_cached]. rewrite bool_decide_false by done.
    vstep (vq_read_buf p _ b id). unfold id. rewrite filter_cons.
    change ((b_dev (v_bufs v !!! b) =? dev) && (b_blockno (v_bufs v !!! b) =? bno))
      with (caches dev bno v b).
    destruct (caches dev bno v b); [rewrite decide_True by done; apply vq_ret|].
    rewrite decide_False by done. apply IH; [done..|lia].
Qed.

Lemma vq_bget_unused ls v fuel l y :
  seg (v_bufs v) HEAD l y -> HEAD ∉ l -> (length l < fuel)%nat ->
  vq p ls (bget_unused fuel (b_prev (v_bufs v !!! y))) v
    (head (filter (λ b, unused v b = true) (reverse l))) ls v.
Proof.
  revert y fuel. induction l as [|b l IH] using rev_ind; intros y fuel Hs Hh Hl;
    rewrite ?length_app in Hl; destruct fuel as [|fuel]; cbn in Hl; try lia.
  - cbn in Hs. destruct Hs as [_ ->]. cbn. apply vq_ret.
  - apply seg_app in Hs as [Hs [_ ->]]. rewrite not_elem_of_app, list_elem_of_singleton in Hh.
    destruct Hh as [Hh Hb]. cbn [bget_unused]. rewrite bool_decide_false by done.
    vstep (vq_read_buf p _ b id). unfold id. rewrite reverse_snoc, filter_cons.
    change (b_refcnt (v_bufs v !!! b) =? 0) with (unused v b).
    destruct (unused v b); [rewrite decide_True by done; apply vq_ret|].
    rewrite decide_False by done. apply IH; [done..|lia].
Qed.
End scans.

Lemma head_filter_Some {A} (P : A -> bool) (l : list A) x :
  head (filter (λ y, P y = true) l) = Some x -> x ∈ l ∧ P x = true.
Proof.
  intros E. assert (x ∈ filter (λ y, P y = true) l) as [? ?]%list_elem_of_filter; [|done].
  destruct (filter _ l); [done|]. cbn in E. injection E as ->. by left.
Qed.
Lemma head_filter_None {A} (P : A -> bool) (l : list A) :
  head (filter (λ y, P y = true) l) = None -> ∀ x, x ∈ l -> P x = false.
Proof.
  intros E x Hx. destruct (P x) eqn:Hp; [|done].
  assert (x ∈ filter (λ y, P y = true) l) as Hin by (by apply list_elem_of_filter).
  destruct (filter _ l); [by apply not_elem_of_nil in Hin|done].
Qed.

(** While fewer than [NBUF] references are out there is an unused buffer. *)
Lemma unused_exists c v :
  bcache_ok c v -> (size (held c) + size (pins c) < NBUF)%nat ->
  ∃ b, (b < NBUF)%nat ∧ b_refcnt (v_bufs v !!! b) = 0.
Proof.
  intros Hc Hs.
  destruct (decide (Exists (λ b, b_refcnt (v_bufs v !!! b) = 0) (seq 0 NBUF))) as [He|Hn].
  { apply Exists_exists in He as (b & [_ Hb]%elem_of_seq & E). exists b. split; [lia|done]. }
  exfalso. rewrite <- Forall_Exists_neg, Forall_forall in Hn.
  set (f := λ b, if held c !! b is Some _ then inl b else inr (b_blockno (v_bufs v !!! b)) : nat + Z).
  assert (∀ b, b ∈ seq 0 NBUF -> held c !! b = None ->
    b_dev (v_bufs v !!! b) = ROOTDEV ∧ is_Some (pins c !! b_blockno (v_bufs v !!! b))) as Hp.
  { intros b Hb Eh. specialize (Hn b Hb). apply elem_of_seq in Hb.
    destruct (bc_buf c v Hc b) as [_ _ Er _ _ _]; [lia|]. rewrite Er in Hn. unfold refs in Hn.
    rewrite Eh in Hn. by case_decide. }
  assert (f <$> seq 0 NBUF ⊆+ (inl <$> elements (dom (held c))) ++ (inr <$> elements (dom (pins c)))) as Hsub.
  { apply NoDup_submseteq.
    - apply NoDup_fmap_2_strong; [|apply NoDup_seq]. intros i j Hi Hj. unfold f.
      destruct (held c !! i) eqn:Ei, (held c !! j) eqn:Ej; try done; [by intros [= ->]|].
      destruct (Hp i Hi Ei) as [Hdi _], (Hp j Hj Ej) as [Hdj _]. intros [= E].
      apply elem_of_seq in Hi, Hj. eapply bc_unique; [done|lia..|done|done|done].
    - intros x (b & -> & Hb)%list_elem_of_fmap. unfold f. rewrite elem_of_app, !list_elem_of_fmap.
      destruct (held c !! b) eqn:Eb.
      + left. exists b. split; [done|]. apply elem_of_elements, elem_of_dom. by eexists.
      + right. eexists. split; [done|]. apply elem_of_elements, elem_of_dom. by apply Hp. }
  apply submseteq_length in Hsub. revert Hsub.
  rewrite length_app, !length_fmap, length_seq.
  change (length (elements (dom (held c)))) with (size (dom (held c))).
  change (length (elements (dom (pins c)))) with (size (dom (pins c))). rewrite !size_dom. lia.
Qed.

(** ** Changing one buffer *)

Lemma refs_range c b r : 0 <= refs c b r <= 2.
Proof. unfold refs. destruct (held c !! b); case_decide; lia. Qed.

Lemma ring_upd b f v :
  (∀ r, b_next (f r) = b_next r ∧ b_prev (f r) = b_prev r) ->
  (∃ l, l ≡ₚ seq 0 NBUF ∧ seg (v_bufs v) HEAD l HEAD) ->
  ∃ l, l ≡ₚ seq 0 NBUF ∧ seg (upd b f (v_bufs v)) HEAD l HEAD.
Proof.
  intros Hf (l & Hl & Hs). exists l. split; [done|].
  apply (seg_same (v_bufs v)); [by apply links_same_upd|done].
Qed.

(** A change of buffer [b] by [f] that keeps the list, the device and the block
    number keeps the cache's invariant if it keeps that of the buffer. *)
Lemma bcache_upd c c' v v' b f :
  bcache_ok c v -> (b < NBUF)%nat ->
  v_bufs v' = upd b f (v_bufs v) -> (∀ r, b_next (f r) = b_next r ∧ b_prev (f r) = b_prev r) ->
  (∀ l, l ≠ SlBuf b -> v_sl v' !!! l = v_sl v !!! l) -> v_pid v' = v_pid v -> disk_idle (v_vd v') ->
  (∀ i, i ≠ b -> held c' !! i = held c !! i) -> ilk c' = ilk c ->
  (∀ i, (i < NBUF)%nat -> i ≠ b -> b_dev (v_bufs v !!! i) = ROOTDEV ->
     let bno := b_blockno (v_bufs v !!! i) in
     pins c' !! bno = pins c !! bno ∧ v_image v' !!! bno = v_image v !!! bno) ->
  (let r := f (v_bufs v !!! b) in buf_ok c' v' b r ∧
     (∀ j, (j < NBUF)%nat -> j ≠ b -> b_dev r = ROOTDEV -> b_dev (v_bufs v !!! j) = ROOTDEV ->
        b_blockno (v_bufs v !!! j) ≠ b_blockno r) ∧
     (∀ bno, is_Some (pins c' !! bno) -> b_dev r = ROOTDEV ∧ b_blockno r = bno ∧ b_valid r = 1 ∨
        ∃ i, (i < NBUF)%nat ∧ i ≠ b ∧ b_dev (v_bufs v !!! i) = ROOTDEV ∧
          b_blockno (v_bufs v !!! i) = bno ∧ b_valid (v_bufs v !!! i) = 1)) ->
  bcache_ok c' v'.
Proof.
  intros Hc Hb Ev Hf Hsl Hpid Hidle Hh Hilk Hcont (Hbuf & Huniq & Hpin).
  pose proof Hc as [Hlen Hring Hbufs Hheld Hun _ _ Hlk].
  assert (b < length (v_bufs v))%nat as Hbl by (rewrite Hlen; lia).
  split; rewrite ?Ev, ?length_upd; [done|by apply ring_upd| | | | |done|].
  - intros i Hi. rewrite upd_lookup by done. case_decide as E; [by subst|].
    destruct (Hbufs i Hi) as [Hd Hn Hr Ho Hfr Hda]. assert (i ≠ b) as Ei by done.
    split; rewrite ?Hh, ?Hpid by done; rewrite ?Hsl by congruence; [done..| |exact Ho|done|].
    + rewrite Hr. unfold refs. rewrite Hh by done. f_equal.
      destruct (decide (b_dev (v_bufs v !!! i) = ROOTDEV)) as [Hdi|].
      * destruct (Hcont i Hi Ei Hdi) as [-> _]. done.
      * rewrite !decide_False by tauto. done.
    + intros H1 H2. destruct (Hda H1 H2) as [H3 ->]. split; [done|].
      unfold content. by destruct (Hcont i Hi Ei H2) as [-> ->].
  - intros i. destruct (decide (i = b)) as [->|]; [done|]. rewrite Hh by done. apply Hheld.
  - intros i j Hi Hj. rewrite !upd_lookup by done. case_decide as Ei; case_decide as Ej; subst; [done|..].
    + intros H1 H2 H3. exfalso. by apply (Huniq j Hj); [congruence|..].
    + intros H1 H2 H3. exfalso. by apply (Huniq i Hi); [congruence|..].
    + by apply Hun.
  - intros bno data Hp. destruct (Hpin bno) as [(H1 & H2 & H3)|(i & Hi & Hne & H1 & H2 & H3)]; [by eexists| |].
    + exists b. by rewrite upd_eq.
    + exists i. by rewrite upd_ne.
  - intros i. rewrite Hilk, Hpid, Hsl by done. apply Hlk.
Qed.

(** ** The operations *)
Section ops.
Context {W : World} {DW : DiskWorld W} (p : nat).

(** The running process holds no buffer of the block. *)
Definition not_held (c : cache) (bno : Z) : Prop := ∀ b d, held c !! b ≠ Some (bno, d).

Definition hold (b : nat) (bno : Z) (d : option (list Z)) (c : cache) : cache :=
  c <| held ::= <[b := (bno, d)]> |>.

Lemma refs_hold c b x r : held c !! b = None ->
  refs (c <| held ::= <[b := x]> |>) b r = refs c b r + 1.
Proof. intros E. unfold refs. cbn. rewrite lookup_insert_eq, E. case_decide; lia. Qed.

(** Taking buffer [b], changed by [f], for block [bno]. *)
Lemma bcache_hold c v b bno d f :
  bcache_ok c v -> (b < NBUF)%nat -> held c !! b = None -> 0 <= bno < 2 ^ 31 ->
  (∀ r, b_next (f r) = b_next r ∧ b_prev (f r) = b_prev r) ->
  let r := f (v_bufs v !!! b) in
  b_dev r = ROOTDEV -> b_blockno r = bno -> b_refcnt r = refs c b r + 1 ->
  match d with Some data => b_valid r = 1 ∧ b_data r = data | None => b_valid r = 0 end ->
  (∀ j, (j < NBUF)%nat -> j ≠ b -> b_dev (v_bufs v !!! j) = ROOTDEV -> b_blockno (v_bufs v !!! j) ≠ bno) ->
  (is_Some (pins c !! bno) -> b_valid r = 1) ->
  (b_dev (v_bufs v !!! b) = ROOTDEV -> is_Some (pins c !! b_blockno (v_bufs v !!! b)) ->
     b_blockno (v_bufs v !!! b) = bno) ->
  bcache_ok (hold b bno d c)
    (v <| v_bufs ::= upd b f |> <| v_sl ::= <[SlBuf b := mk_sleeplock 1 (v_pid v)]> |>).
Proof.
  intros Hc Hb Hh Hbno Hf r Hdev Hblk Href Hd Hun Hpin Hold.
  apply (bcache_upd c _ v _ b f); [done..| |done| | |done|done|]; vcbn.
  - intros i Hi. rewrite lookup_total_insert_ne by congruence. done.
  - apply Hc.
  - intros i Hi. cbn. by rewrite lookup_insert_ne.
  - fold r. split_and!.
    + split; cbn.
      * by right.
      * by rewrite Hblk.
      * rewrite Href. symmetry. by apply refs_hold.
      * rewrite lookup_insert_eq. intros ?? [= <- <-]. by rewrite lookup_total_insert_eq.
      * by rewrite lookup_insert_eq.
      * by rewrite lookup_insert_eq.
    + intros j Hj Hne _ Hdj. rewrite Hblk. by apply Hun.
    + intros bno' Hp. destruct (decide (bno' = bno)) as [->|Hne]; [left; auto|right].
      destruct Hp as [data Hp]. destruct (bc_pins c v Hc bno' data Hp) as (i & Hi & H1 & H2 & H3).
      exists i. split_and!; try done. intros ->. apply Hne. rewrite <- H2.
      apply Hold; [done|]. rewrite H2. by eexists.
Qed.

(** The block is cached in [b]. *)
Lemma bcache_hit c v bno b :
  bcache_ok c v -> (b < NBUF)%nat -> not_held c bno ->
  b_dev (v_bufs v !!! b) = ROOTDEV -> b_blockno (v_bufs v !!! b) = bno ->
  held c !! b = None ∧
  bcache_ok (hold b bno (Some (content c v bno)) c)
    (v <| v_bufs ::= upd b (λ r, r <| b_refcnt := u32 (b_refcnt r + 1) |>) |>
       <| v_sl ::= <[SlBuf b := mk_sleeplock 1 (v_pid v)]> |>).
Proof.
  intros Hc Hb Hnh Hdev Hblk. pose proof Hc as [_ _ Hbufs _ Hun _ _].
  destruct (Hbufs b Hb) as [_ Hbno Hr Ho Hfr Hda]. rewrite Hblk in Hbno, Hda.
  assert (held c !! b = None) as Hh.
  { destruct (held c !! b) as [[bno' d]|] eqn:E; [|done]. destruct (Ho _ _ eq_refl) as (_ & E2 & _).
    exfalso. apply (Hnh b d). congruence. }
  split; [done|]. destruct (Hda Hh Hdev) as [Hval Hdat]. pose proof (refs_range c b (v_bufs v !!! b)).
  apply bcache_hold; try done.
  - change (u32 (b_refcnt (v_bufs v !!! b) + 1) = refs c b (v_bufs v !!! b) + 1).
    rewrite Hr. apply u32_small. lia.
  - intros j Hj Hne Hdj E. apply Hne. by apply Hun; [..|congruence].
Qed.

(** It is not, and the unused buffer [b] is recycled. *)
Lemma bcache_miss c v bno b :
  bcache_ok c v -> (b < NBUF)%nat -> 0 <= bno < 2 ^ 31 ->
  (∀ j, (j < NBUF)%nat -> b_dev (v_bufs v !!! j) = ROOTDEV -> b_blockno (v_bufs v !!! j) ≠ bno) ->
  b_refcnt (v_bufs v !!! b) = 0 ->
  held c !! b = None ∧ pins c !! bno = None ∧
  bcache_ok (hold b bno None c)
    (v <| v_bufs ::= upd b (λ r, r <| b_dev := ROOTDEV |> <| b_blockno := bno |> <| b_valid := 0 |>
                                   <| b_refcnt := 1 |>) |>
       <| v_sl ::= <[SlBuf b := mk_sleeplock 1 (v_pid v)]> |>).
Proof.
  intros Hc Hb Hbno Hnone Hz. pose proof Hc as [_ _ Hbufs _ _ Hpins _].
  destruct (Hbufs b Hb) as [_ _ Hr _ _ _]. rewrite Hr in Hz. unfold refs in Hz.
  destruct (held c !! b) eqn:Hh; [case_decide; lia|]. case_decide as Hnp; [lia|].
  assert (pins c !! bno = None) as Hp.
  { destruct (pins c !! bno) eqn:E; [|done]. destruct (Hpins _ _ E) as (j & Hj & H1 & H2 & _).
    by destruct (Hnone j Hj H1). }
  split_and!; [done..|]. apply bcache_hold; try done.
  - cbn. unfold refs. cbn. rewrite Hh, Hp, decide_False; [done|]. by intros [_ [? ?]].
  - auto.
  - rewrite Hp. by intros [? ?].
  - intros H1 H2. by destruct Hnp.
Qed.

Lemma bget_spec c v bno :
  bcache_ok c v -> 0 <= bno < 2 ^ 31 -> not_held c bno ->
  (size (held c) + size (pins c) < NBUF)%nat ->
  ∃ b d v', vq p [] (bget ROOTDEV bno) v b [] v' ∧ bcache_ok (hold b bno d c) v' ∧
    rest v' = rest v ∧ disk v' = disk v ∧ (b < NBUF)%nat ∧ held c !! b = None ∧
    match d with Some data => data = content c v bno | None => pins c !! bno = None end.
Proof.
  intros Hc Hbno Hnh Hsz. pose proof Hc as [Hlen (l & Hl & Hs) Hbufs _ _ _ _].
  assert (∀ b, b ∈ l <-> (b < NBUF)%nat) as Hin by (intros b; rewrite Hl, elem_of_seq; lia).
  assert (HEAD ∉ l) as HHl by (rewrite Hin; unfold HEAD; lia).
  assert (length l < S NBUF)%nat as Hll by (rewrite Hl, length_seq; lia).
  pose proof (vq_bget_cached p [LkBcache] ROOTDEV bno v (S NBUF) HEAD l Hs HHl Hll) as Hscan.
  pose proof (vq_bget_unused p [LkBcache] v (S NBUF) l HEAD Hs HHl Hll) as Hscan2.
  assert (∀ {A} (m : M A) v a v', vq p [LkBcache] m v a [] v' ->
    vq p [] (acquire LkBcache ;; m) v a [] v') as Hacq.
  { intros A m v1 a v2 Hm. vstep vq_acquire; [by apply static_lock|done|apply not_elem_of_nil|cbn; lia|done]. }
  unfold bget.
  destruct (head (filter (λ b, caches ROOTDEV bno v b = true) l)) as [b|] eqn:Ehit.
  - apply head_filter_Some in Ehit as [Hb%Hin [Hdev%Z.eqb_eq Hblk%Z.eqb_eq]%andb_true_iff].
    destruct (bcache_hit c v bno b) as [Hh Hok]; [done..|]. destruct (Hbufs b Hb) as [_ _ _ _ Hfr _].
    exists b, (Some (content c v bno)). eexists. split; [|split; [exact Hok|done]].
    apply Hacq. vstep vq_read_buf. vstep Hscan. cbv iota. vstep vq_write_buf. vstep vq_release.
    vstep vq_acquiresleep; [done|vcbn; by apply Hfr|]. apply vq_ret.
  - destruct (head (filter (λ b, unused v b = true) (reverse l))) as [b|] eqn:Efree.
    2:{ destruct (unused_exists c v Hc Hsz) as (b & Hb & Hz).
        pose proof (head_filter_None _ _ Efree b) as Hn. unfold unused in Hn. rewrite Hz in Hn.
        apply Hin in Hb. by rewrite elem_of_reverse in Hn; apply Hn in Hb. }
    apply head_filter_Some in Efree as [Hb Hz%Z.eqb_eq]. apply elem_of_reverse, Hin in Hb.
    destruct (bcache_miss c v bno b) as (Hh & Hp & Hok); [done..| |done|].
    { intros j Hj Hdj Ej. pose proof (head_filter_None _ _ Ehit j) as Hn. unfold caches in Hn.
      rewrite Hdj, Ej, !Z.eqb_refl in Hn. apply Hin in Hj. by apply Hn in Hj. }
    destruct (Hbufs b Hb) as [_ _ _ _ Hfr _].
    exists b, None. eexists. split; [|split; [exact Hok|done]].
    apply Hacq. vstep vq_read_buf. vstep Hscan. cbv iota. vstep vq_read_buf. vstep Hscan2. cbv iota.
    vstep vq_write_buf. vstep vq_release. vstep vq_acquiresleep; [done|vcbn; by apply Hfr|]. apply vq_ret.
Qed.

(** Changing the data of a held buffer, and its block on the disk. *)
Lemma bcache_set c v v' b bno d data f :
  bcache_ok c v -> held c !! b = Some (bno, d) ->
  v_bufs v' = upd b f (v_bufs v) ->
  (∀ r, b_next (f r) = b_next r ∧ b_prev (f r) = b_prev r ∧ b_dev (f r) = b_dev r ∧
        b_blockno (f r) = b_blockno r ∧ b_refcnt (f r) = b_refcnt r) ->
  b_valid (f (v_bufs v !!! b)) = 1 -> b_data (f (v_bufs v !!! b)) = data ->
  v_sl v' = v_sl v -> v_pid v' = v_pid v -> disk_idle (v_vd v') ->
  (∀ i, i ≠ bno -> v_image v' !!! i = v_image v !!! i) ->
  bcache_ok (hold b bno (Some data) c) v'.
Proof.
  intros Hc Hh Ev Hf Hval Hdat Hsl Hpid Hidle Himg.
  pose proof Hc as [_ _ Hbufs Hheld Hun Hpins _]. assert (b < NBUF)%nat as Hb by (apply Hheld; by eexists).
  destruct (Hbufs b Hb) as [Hd Hbno Hr Ho _ _]. destruct (Ho _ _ Hh) as (Hdev & Hblk & Hlk & _).
  destruct (Hf (v_bufs v !!! b)) as (_ & _ & F3 & F4 & F5).
  apply (bcache_upd c _ v _ b f); [done|done|done| |by rewrite Hsl|done|done| |done| |].
  - intros r. destruct (Hf r) as (? & ? & _). done.
  - intros i Hi. cbn. by rewrite lookup_insert_ne.
  - intros i Hi Hne Hdi bno'. split; [done|]. apply Himg. intros E. apply Hne. apply Hun; [done..|].
    unfold bno' in E. congruence.
  - cbv zeta. split_and!.
    + split; rewrite ?F3, ?F4, ?F5; try done.
      * rewrite Hr. unfold refs. cbn. rewrite lookup_insert_eq, Hh, F3, F4. done.
      * cbn. rewrite lookup_insert_eq. intros ?? [= <- <-]. by rewrite Hsl, Hpid.
      * cbn. by rewrite lookup_insert_eq.
      * cbn. by rewrite lookup_insert_eq.
    + intros j Hj Hne _ Hdj. rewrite F4. intros E. apply Hne. by apply Hun.
    + intros bno' [data' Hp]. destruct (Hpins bno' data' Hp) as (i & Hi & H1 & H2 & H3).
      destruct (decide (i = b)) as [->|]; [left; by rewrite F3, F4|right]. by exists i.
Qed.

Lemma hold_hold b bno d d' c : hold b bno d (hold b bno d' c) = hold b bno d c.
Proof. unfold hold, set, set_held. cbn. by rewrite insert_insert_eq. Qed.

Lemma bread_spec c v bno :
  bcache_ok c v -> 0 <= bno < 2 ^ 31 -> not_held c bno ->
  (size (held c) + size (pins c) < NBUF)%nat ->
  ∃ b v', vq p [] (bread ROOTDEV bno) v b [] v' ∧
    bcache_ok (hold b bno (Some (content c v bno)) c) v' ∧
    rest v' = rest v ∧ disk v' = disk v ∧ (b < NBUF)%nat ∧ held c !! b = None.
Proof.
  intros Hc Hbno Hnh Hsz.
  destruct (bget_spec c v bno) as (b & d & v1 & Hget & Hok & Hrest & Hdisk & Hb & Hh & Hd); [done..|].
  destruct (bc_buf _ _ Hok b Hb) as [_ _ _ Ho _ _].
  destruct (Ho bno d) as (Hdev & Hblk & Hlk & Hval); [apply lookup_insert_eq|].
  destruct d as [data|].
  - exists b, v1. split; [|by subst data]. unfold bread. vstep Hget.
    vstep (vq_read_buf_as p _ b b_valid _ 1); [apply Hval|]. vstep vq_ret. apply vq_ret.
  - destruct (virtio_disk_rw_spec p v1 b false bno) as (dk & Hidle & Hrw).
    { rewrite (bc_len _ _ Hok). lia. }
    { done. }
    { done. }
    { apply Hok. }
    exists b. eexists. split; [|split; [|split_and!]].
    + unfold bread. vstep Hget. vstep (vq_read_buf_as p _ b b_valid _ 0); [apply Hval|].
      eapply vq_bind; [apply vq_when_true; vstep Hrw; apply vq_write_buf|]. apply vq_ret.
    + unfold content. rewrite Hd. cbn [default]. rewrite <- (hold_hold b bno _ None c).
      assert (v_image v1 = v_image v) as Ei by (by injection Hdisk).
      unfold transfer. apply (bcache_set _ v1 _ b bno None _
        (λ r, r <| b_data := v_image v1 !!! bno |> <| b_disk := 0 |> <| b_valid := 1 |>));
        try done; [apply lookup_insert_eq|vcbn; by rewrite !upd_upd|cbn; by rewrite Ei].
    + exact Hrest.
    + exact Hdisk.
    + exact Hb.
    + exact Hh.
Qed.

Lemma bwrite_spec c v b bno data :
  bcache_ok c v -> held c !! b = Some (bno, Some data) ->
  ∃ v', vq p [] (bwrite b) v () [] v' ∧ bcache_ok c v' ∧ rest v' = rest v ∧
    v_image v' = <[bno := data]> (v_image v) ∧ v_writes v' = v_writes v ++ [(bno, data)].
Proof.
  intros Hc Hh. assert (b < NBUF)%nat as Hb by (apply (bc_held _ _ Hc); by eexists).
  destruct (bc_buf _ _ Hc b Hb) as [_ Hrange _ Ho _ _]. destruct (Ho _ _ Hh) as (Hdev & Hblk & Hlk & Hval & Hdat).
  rewrite Hblk in Hrange.
  destruct (virtio_disk_rw_spec p v b true bno) as (dk & Hidle & Hrw).
  { rewrite (bc_len _ _ Hc). lia. }
  { done. }
  { done. }
  { apply Hc. }
  eexists. split; [|split; [|split; [|split]]].
  - unfold bwrite. vstep vq_holdingsleep; [done..|]. cbn [negb]. exact Hrw.
  - assert (c = hold b bno (Some data) c) as Ec
      by (unfold hold, set, set_held; cbn; by rewrite insert_id).
    rewrite Ec. unfold transfer. apply (bcache_set c v _ b bno (Some data) data (λ r, r <| b_disk := 0 |>)); try done.
    intros i Hi. vcbn. by rewrite lookup_total_insert_ne.
  - done.
  - unfold transfer. vcbn. by rewrite Hdat.
  - unfold transfer. vcbn. by rewrite Hdat.
Qed.

Lemma write_data_spec c v b bno data f :
  bcache_ok c v -> held c !! b = Some (bno, Some data) ->
  ∃ v', vq p [] (write_buf b (λ r, r <| b_data ::= f |>)) v () [] v' ∧
    bcache_ok (hold b bno (Some (f data)) c) v' ∧ rest v' = rest v ∧ disk v' = disk v.
Proof.
  intros Hc Hh. assert (b < NBUF)%nat as Hb by (apply (bc_held _ _ Hc); by eexists).
  destruct (bc_buf _ _ Hc b Hb) as [_ _ _ Ho _ _]. destruct (Ho _ _ Hh) as (Hdev & Hblk & Hlk & Hval & Hdat).
  eexists. split; [apply vq_write_buf|]. split; [|done].
  apply (bcache_set c v _ b bno (Some data) _ (λ r, r <| b_data ::= f |>)); try done.
  - cbn. by rewrite Hdat.
  - apply Hc.
Qed.

(** ** Giving buffers back *)

(** Changing the list only. *)
Definition unlinked (r : buf) : buf := r <| b_next := 0%nat |> <| b_prev := 0%nat |>.
Lemma bcache_links c v bs :
  bcache_ok c v -> length bs = length (v_bufs v) ->
  (∀ i, unlinked (bs !!! i) = unlinked (v_bufs v !!! i)) ->
  (∃ l, l ≡ₚ seq 0 NBUF ∧ seg bs HEAD l HEAD) -> bcache_ok c (v <| v_bufs := bs |>).
Proof.
  intros [Hlen _ Hbufs Hheld Hun Hpins Hidle Hlks] El Eb Hring.
  assert (∀ i, b_dev (bs !!! i) = b_dev (v_bufs v !!! i) ∧ b_blockno (bs !!! i) = b_blockno (v_bufs v !!! i) ∧
    b_refcnt (bs !!! i) = b_refcnt (v_bufs v !!! i) ∧ b_valid (bs !!! i) = b_valid (v_bufs v !!! i) ∧
    b_data (bs !!! i) = b_data (v_bufs v !!! i)) as E.
  { intros i. specialize (Eb i). unfold unlinked in Eb. injection Eb as E1 E2 E3 E4 E5 E6. done. }
  split; vcbn; [by rewrite El|done| |done| | |done|done].
  - intros b Hb. destruct (E b) as (E1 & E2 & E3 & E4 & E5). destruct (Hbufs b Hb) as [H1 H2 H3 H4 H5 H6].
    split; rewrite ?E1, ?E2, ?E3, ?E4, ?E5; try done. rewrite H3. unfold refs. by rewrite E1, E2.
  - intros i j. destruct (E i) as (-> & -> & _), (E j) as (-> & -> & _). apply Hun.
  - intros bno data Hp. destruct (Hpins _ _ Hp) as (b & Hb). exists b.
    by destruct (E b) as (-> & -> & _ & -> & _).
Qed.

Lemma unlinked_set b f bs i :
  (∀ r, unlinked (f r) = unlinked r) -> unlinked (upd b f bs !!! i) = unlinked (bs !!! i).
Proof.
  intros Hf. destruct (decide (b < length bs)%nat); [|by rewrite upd_ge by lia].
  rewrite upd_lookup by done. by case_decide.
Qed.

Lemma bcache_front c v b :
  bcache_ok c v -> (b < NBUF)%nat -> bcache_ok c (v <| v_bufs ::= λ bs, link_front b (unlink b bs) |>).
Proof.
  intros Hc Hb. pose proof Hc as [Hlen (l & Hl & Hs) _ _ _ _ _].
  change (v <| v_bufs ::= λ bs, link_front b (unlink b bs) |>)
    with (v <| v_bufs := link_front b (unlink b (v_bufs v)) |>).
  apply bcache_links; [done|..].
  - unfold link_front, unlink. by rewrite !length_upd.
  - intros i. unfold link_front, unlink. by rewrite !unlinked_set.
  - assert (b ∈ l) as (l1 & l2 & ->)%list_elem_of_split by (rewrite Hl, elem_of_seq; lia).
    assert (b :: l1 ++ l2 ≡ₚ seq 0 NBUF) as Hp by (by rewrite <- Hl, Permutation_middle).
    exists (b :: l1 ++ l2). split; [done|].
    assert (NoDup (b :: l1 ++ l2)) as Hnd by (rewrite Hp; apply NoDup_seq).
    assert (∀ i, i ∈ b :: l1 ++ l2 -> (i < NBUF)%nat) as Hin by (intros i; rewrite Hp, elem_of_seq; lia).
    assert (HEAD ∉ b :: l1 ++ l2) as HH by (intros H%Hin; unfold HEAD in H; lia).
    assert (Forall (λ i, (i < length (v_bufs v))%nat) (b :: l1 ++ l2)) as Hall.
    { apply Forall_forall. intros i Hi%Hin. rewrite Hlen. lia. }
    assert (HEAD < length (v_bufs v))%nat as Hhl by (rewrite Hlen; unfold HEAD; lia).
    apply seg_app in Hs as [Hs1 Hs2].
    assert (length (unlink b (v_bufs v)) = length (v_bufs v)) as El by (unfold unlink; by rewrite !length_upd).
    apply seg_link_front; rewrite ?El; try done.
    + rewrite Hlen. lia.
    + by apply Forall_cons in Hall as [_ ?].
    + unfold HEAD. lia.
    + by apply NoDup_cons in Hnd as [? _].
    + by apply not_elem_of_cons in HH as [_ ?].
    + by apply NoDup_cons in Hnd as [_ ?].
    + apply seg_unlink; try done. by do 2 (constructor; [done|]).
Qed.

Definition released (b : nat) (bno : Z) (data : list Z) (c : cache) : cache :=
  c <| held ::= delete b |> <| pins ::= alter (λ _, data) bno |>.
Lemma pins_released b bno data c bno' : bno' ≠ bno -> pins (released b bno data c) !! bno' = pins c !! bno'.
Proof. intros. cbn. by rewrite lookup_alter_ne. Qed.

Lemma bcache_release c v b bno data :
  bcache_ok c v -> held c !! b = Some (bno, Some data) ->
  (pins c !! bno = None -> data = v_image v !!! bno) ->
  bcache_ok (released b bno data c)
    (v <| v_sl ::= <[SlBuf b := mk_sleeplock 0 0]> |>
       <| v_bufs ::= upd b (λ r, r <| b_refcnt := u32 (b_refcnt r - 1) |>) |>).
Proof.
  intros Hc Hh Hclean. pose proof Hc as [_ _ Hbufs Hheld Hun Hpins _].
  assert (b < NBUF)%nat as Hb by (apply Hheld; by eexists).
  destruct (Hbufs b Hb) as [Hd Hbno Hr Ho _ _]. destruct (Ho _ _ Hh) as (Hdev & Hblk & Hlk & Hval & Hdat).
  assert (refs (released b bno data c) b (v_bufs v !!! b) = refs c b (v_bufs v !!! b) - 1) as Eref.
  { unfold refs. cbn. rewrite lookup_delete_eq, Hh, Hblk, lookup_alter_eq.
    destruct (pins c !! bno); cbn.
    - by rewrite !decide_True by (split; [done|by eexists]).
    - by rewrite !decide_False by (by intros [_ [? ?]]). }
  pose proof (refs_range (released b bno data c) b (v_bufs v !!! b)) as Hrange.
  eapply (bcache_upd c _ v _ b); [done|done|done|done| |done| | |done| |]; vcbn.
  - intros i Hi. by rewrite lookup_total_insert_ne by congruence.
  - apply Hc.
  - intros i Hi. cbn. by rewrite lookup_delete_ne.
  - intros i Hi Hne Hdi. split; [|done]. apply pins_released. intros E. apply Hne. by apply Hun; [..|congruence].
  - split_and!.
    + split; cbn; try done.
      * change (u32 (b_refcnt (v_bufs v !!! b) - 1) = refs (released b bno data c) b (v_bufs v !!! b)).
        rewrite Hr, Eref. apply u32_small. lia.
      * by rewrite lookup_delete_eq.
      * by rewrite lookup_total_insert_eq.
      * intros _ _. split; [done|]. rewrite Hdat, Hblk. unfold content. cbn. rewrite lookup_alter_eq.
        destruct (pins c !! bno); [done|]. by apply Hclean.
    + intros j Hj Hne _ Hdj. cbn. intros E. apply Hne. by apply Hun.
    + intros bno' Hp. assert (is_Some (pins c !! bno')) as [data' Hp'].
      { cbn in Hp. destruct (decide (bno' = bno)) as [->|]; [|by rewrite lookup_alter_ne in Hp].
        rewrite lookup_alter_eq in Hp. by destruct (pins c !! bno). }
      destruct (Hpins bno' data' Hp') as (i & Hi & H1 & H2 & H3).
      destruct (decide (i = b)) as [->|]; [by left|right]. by exists i.
Qed.

Lemma brelse_spec c v b bno data :
  bcache_ok c v -> held c !! b = Some (bno, Some data) ->
  (pins c !! bno = None -> data = v_image v !!! bno) ->
  ∃ v', vq p [] (brelse b) v () [] v' ∧ bcache_ok (released b bno data c) v' ∧
    rest v' = rest v ∧ disk v' = disk v.
Proof.
  intros Hc Hh Hclean. assert (b < NBUF)%nat as Hb by (apply (bc_held _ _ Hc); by eexists).
  destruct (bc_buf _ _ Hc b Hb) as [_ _ _ Ho _ _]. destruct (Ho _ _ Hh) as (_ & _ & Hlk & _).
  pose proof (bcache_release c v b bno data Hc Hh Hclean) as Hok.
  set (v1 := v <| v_sl ::= _ |> <| v_bufs ::= _ |>) in *.
  assert (rest v1 = rest v ∧ disk v1 = disk v) as [Hrest Hdisk] by done.
  exists (if b_refcnt (v_bufs v1 !!! b) =? 0 then v1 <| v_bufs ::= λ bs, link_front b (unlink b bs) |> else v1).
  split; [|destruct (_ =? 0); [split; [by apply bcache_front|done]|done]].
  unfold brelse. vstep vq_holdingsleep; [done..|]. cbn [negb]. vstep vq_releasesleep; [done|].
  vstep vq_acquire; [by apply static_lock|done|apply not_elem_of_nil|cbn; lia|].
  vstep vq_write_buf. fold v1. clearbody v1. vstep vq_read_buf.
  eapply vq_bind; [|apply vq_release].
  destruct (b_refcnt (v_bufs v1 !!! b) =? 0); [apply vq_when_true|apply vq_when_false].
  do 2 vstep vq_read_buf. vstep vq_write_buf. do 2 vstep vq_read_buf. vstep vq_write_buf.
  vstep vq_read_buf. do 2 vstep vq_write_buf. vstep vq_read_buf. vstep vq_write_buf.
  apply vq_write_buf.
Qed.

(** ** Pins *)

Lemma bcache_pins c c' v b bno data f d :
  bcache_ok c v -> held c !! b = Some (bno, Some data) -> held c' = held c -> ilk c' = ilk c ->
  (∀ i, i ≠ bno -> pins c' !! i = pins c !! i) -> d = -1 ∨ d = 1 ->
  f = (λ r, r <| b_refcnt := u32 (b_refcnt r + d) |>) ->
  refs c' b (v_bufs v !!! b) = refs c b (v_bufs v !!! b) + d ->
  bcache_ok c' (v <| v_bufs ::= upd b f |>).
Proof.
  intros Hc Hh Ehd Eilk Hpin Hd -> Eref. pose proof Hc as [_ _ Hbufs Hheld Hun Hpins _].
  assert (b < NBUF)%nat as Hb by (apply Hheld; by eexists).
  destruct (Hbufs b Hb) as [Hdev Hbno Hr Ho Hfr Hda]. destruct (Ho _ _ Hh) as (Hdev' & Hblk & Hlk & Hval & Hdat).
  pose proof (refs_range c' b (v_bufs v !!! b)) as Hrange.
  eapply (bcache_upd c _ v _ b); [done|done|done|done|done|done|apply Hc|by rewrite Ehd|done| |]; vcbn.
  - intros i Hi Hne Hdi. split; [|done]. apply Hpin. intros E. apply Hne. by apply Hun; [..|congruence].
  - split_and!.
    + split; rewrite ?Ehd, ?Hh; try done.
      * change (u32 (b_refcnt (v_bufs v !!! b) + d) = refs c' b (v_bufs v !!! b)).
        rewrite Hr, Eref. apply u32_small. rewrite <- Eref. lia.
      * intros ?? [= <- <-]. done.
    + intros j Hj Hne _ Hdj. cbn. intros E. apply Hne. by apply Hun.
    + intros bno' [data' Hp]. destruct (decide (bno' = bno)) as [->|Hne]; [by left|right].
      rewrite Hpin in Hp by done. destruct (Hpins bno' data' Hp) as (i & Hi & H1 & H2 & H3).
      exists i. split_and!; try done. intros ->. congruence.
Qed.

Lemma bpin_spec c v ls b bno data :
  bcache_ok c v -> held c !! b = Some (bno, Some data) -> pins c !! bno = None ->
  LkBcache ∉ ls -> (length ls < 4)%nat ->
  ∃ v', vq p ls (bpin b) v () ls v' ∧ bcache_ok (c <| pins ::= <[bno := data]> |>) v' ∧
    rest v' = rest v ∧ disk v' = disk v.
Proof.
  intros Hc Hh Hp Hls Hlen. assert (b < NBUF)%nat as Hb by (apply (bc_held _ _ Hc); by eexists).
  destruct (bc_buf _ _ Hc b Hb) as [_ _ _ Ho _ _]. destruct (Ho _ _ Hh) as (Hdev & Hblk & _).
  eexists. split; [|split; [eapply (bcache_pins c _ v b bno data _ 1); try done|done]].
  - unfold bpin. vstep vq_acquire; [by apply static_lock|done|done|done|].
    vstep vq_write_buf. apply vq_release.
  - intros i Hi. cbn. by rewrite lookup_insert_ne.
  - by right.
  - unfold refs. cbn. rewrite Hh, Hblk, lookup_insert_eq, decide_True by (split; [done|by eexists]).
    rewrite Hp, decide_False by (by intros [_ [? ?]]). lia.
Qed.

Lemma bunpin_spec c v b bno data :
  bcache_ok c v -> held c !! b = Some (bno, Some data) -> is_Some (pins c !! bno) ->
  ∃ v', vq p [] (bunpin b) v () [] v' ∧ bcache_ok (c <| pins ::= delete bno |>) v' ∧
    rest v' = rest v ∧ disk v' = disk v.
Proof.
  intros Hc Hh Hp. assert (b < NBUF)%nat as Hb by (apply (bc_held _ _ Hc); by eexists).
  destruct (bc_buf _ _ Hc b Hb) as [_ _ _ Ho _ _]. destruct (Ho _ _ Hh) as (Hdev & Hblk & _).
  eexists. split; [|split; [eapply (bcache_pins c _ v b bno data _ (-1)); try done|done]].
  - unfold bunpin. vstep vq_acquire; [by apply static_lock|done|apply not_elem_of_nil|cbn; lia|].
    vstep vq_write_buf. apply vq_release.
  - intros i Hi. cbn. by rewrite lookup_delete_ne.
  - by left.
  - unfold refs. cbn. rewrite Hh, Hblk, lookup_delete_eq, decide_False by (by intros [_ [? ?]]).
    rewrite decide_True by done. lia.
Qed.
End ops.

(** ** Initialization *)

(** [binit]'s round for buffer [b] and the state before the first round. *)
Definition binit_step (k : kernel) (b : nat) : kernel :=
  k <| mach ::= λ m, m <| m_locks ::= <[LkBuf b := mk_spinlock 0 None]> |> |>
    <| bufs ::= link_front b |> <| sleeplocks ::= <[SlBuf b := mk_sleeplock 0 0]> |>.
Definition binit_start (k : kernel) : kernel :=
  k <| mach ::= λ m, m <| m_locks ::= <[LkBcache := mk_spinlock 0 None]> |> |>
    <| bufs ::= λ l, upd HEAD (λ h, h <| b_next := HEAD |>) (upd HEAD (λ h, h <| b_prev := HEAD |>) l) |>.

Lemma link_front_early b bs : (b < length bs)%nat -> b ≠ HEAD ->
  link_front b bs =
  upd HEAD (λ r, r <| b_next := b |>) (upd (b_next (bs !!! HEAD)) (λ r, r <| b_prev := b |>)
    (upd b (λ r, r <| b_prev := HEAD |>) (upd b (λ r, r <| b_next := b_next (bs !!! HEAD) |>) bs))).
Proof.
  intros Hb Hne. unfold link_front. do 2 f_equal. by rewrite next_set_prev, next_set_next, decide_False.
Qed.

Lemma binit_eq k :
  length (bufs k) = S NBUF -> binit k = Ret () (foldl binit_step (binit_start k) (seq 0 NBUF)).
Proof.
  intros Hl. unfold binit. erewrite bind_Ret by reflexivity. unfold write_buf. rewrite !bind_modify.
  lazymatch goal with |- for_each _ _ ?k1 = _ => change k1 with (binit_start k) end.
  assert (length (bufs (binit_start k)) = S NBUF) as Hl1 by (unfold binit_start; cbn; by rewrite !length_upd).
  assert (∀ b, b ∈ seq 0 NBUF -> (b < NBUF)%nat) as Hin by (intros b; rewrite elem_of_seq; lia).
  generalize dependent (binit_start k). generalize dependent (seq 0 NBUF). clear k Hl.
  induction l as [|b l IH]; intros Hin k Hl; [done|]. cbn [for_each foldl].
  assert (b < NBUF)%nat as Hb by (apply Hin; by left).
  erewrite bind_Ret; [apply IH|].
  - intros b' Hb'. apply Hin. by right.
  - unfold binit_step, link_front. cbn. by rewrite !length_upd.
  - unfold read_buf, initsleeplock, write_sleeplock, initlock, on_mach, Hart.initlock. mcompute.
    pose proof (link_front_early b (bufs k) ltac:(lia) ltac:(unfold HEAD; lia)) as E.
    unfold binit_step. destruct k. kcbn in E. kcbv. rewrite E, lookup_total_insert_eq, insert_insert_eq. reflexivity.
Qed.

Section init.
Context (p : nat) (k0 : kernel).
Context (Hlen : length (bufs k0) = S NBUF).

(** The state when the buffers [l] are linked. *)
Record binit_inv (l : list nat) (k : kernel) : Prop := {
  bi_len : length (bufs k) = S NBUF;
  bi_seg : seg (bufs k) HEAD l HEAD;
  bi_same i : unlinked (bufs k !!! i) = unlinked (bufs k0 !!! i);
  bi_sl b : b ∈ l -> sl_locked (sleeplocks k !!! SlBuf b) = 0;
  bi_inodes i : sleeplocks k !!! SlInode i = sleeplocks k0 !!! SlInode i;
}.

Lemma binit_start_inv : binit_inv [] (binit_start k0).
Proof.
  assert (HEAD < length (bufs k0))%nat as Hh by (rewrite Hlen; unfold HEAD; lia).
  split; unfold binit_start; cbn.
  - by rewrite !length_upd.
  - rewrite next_set_next, decide_True by (by rewrite ?length_upd).
    by rewrite prev_set_next, prev_set_prev, decide_True.
  - intros i. by rewrite !unlinked_set.
  - by intros b ?%not_elem_of_nil.
  - done.
Qed.

Lemma binit_step_inv l b k :
  binit_inv l k -> (b < NBUF)%nat -> b ∉ l -> Forall (λ i, (i < NBUF)%nat) l -> NoDup l ->
  binit_inv (b :: l) (binit_step k b).
Proof.
  intros [H1 H2 H3 H4 H5] Hb Hnb Hl Hnd. split; unfold binit_step; cbn [bufs sleeplocks set set_bufs set_sleeplocks set_mach].
  - unfold link_front. by rewrite !length_upd.
  - apply seg_link_front; rewrite ?H1; unfold HEAD in *; try done; try lia.
    + eapply Forall_impl; [exact Hl|]. cbn. lia.
    + rewrite Forall_forall in Hl. intros ?%Hl. lia.
  - intros i. unfold link_front. by rewrite !unlinked_set.
  - intros b' [->|Hb']%elem_of_cons; [by rewrite lookup_total_insert_eq|].
    destruct (decide (b' = b)) as [->|]; [done|]. rewrite lookup_total_insert_ne by congruence. by apply H4.
  - intros i. by rewrite lookup_total_insert_ne.
Qed.

Lemma binit_run : binit_inv (reverse (seq 0 NBUF)) (foldl binit_step (binit_start k0) (seq 0 NBUF)).
Proof.
  assert (∀ n, (n <= NBUF)%nat -> binit_inv (reverse (seq 0 n)) (foldl binit_step (binit_start k0) (seq 0 n))) as H;
    [|exact (H NBUF (le_n _))].
  induction n as [|n IH]; intros Hn; [exact binit_start_inv|].
  rewrite seq_S, reverse_snoc, foldl_app. apply binit_step_inv; [apply IH; lia|cbn; lia|..].
  - rewrite elem_of_reverse, elem_of_seq. lia.
  - apply Forall_forall. intros i. rewrite elem_of_reverse, elem_of_seq. lia.
  - rewrite reverse_Permutation. apply NoDup_seq.
Qed.

(** [binit] changes nothing but the buffers, their locks and their sleep locks. *)
Lemma binit_frame l : let k := foldl binit_step (binit_start k0) l in
  log k = log k0 ∧ image k = image k0 ∧ writes k = writes k0 ∧ vdisk_state k = vdisk_state k0 ∧
  procs k = procs k0 ∧ panicking k = panicking k0 ∧ panicked k = panicked k0 ∧
  ∃ ls, mach k = (mach k0) <| m_locks ::= λ m, foldr (λ l, <[l := mk_spinlock 0 None]>) m ls |>.
Proof.
  cbv zeta. induction l as [|b l IH] using rev_ind.
  - split_and!; try done. by exists [LkBcache].
  - rewrite foldl_app. cbn. destruct IH as (? & ? & ? & ? & ? & ? & ? & ls & E).
    split_and!; try done. exists (LkBuf b :: ls). by rewrite E.
Qed.

Lemma binit_inv_ok l k :
  (∀ b, (b < NBUF)%nat -> b_dev (bufs k0 !!! b) = 0 ∧ b_blockno (bufs k0 !!! b) = 0 ∧ b_refcnt (bufs k0 !!! b) = 0) ->
  (∀ i, sl_locked (sleeplocks k0 !!! SlInode i) = 0) ->
  disk_idle (vdisk_state k) -> l ≡ₚ seq 0 NBUF -> binit_inv l k -> bcache_ok (mk_cache ∅ ∅) (fsv p k).
Proof.
  intros Hz Hi Hd Hl [H1 H2 H3 H4 H5].
  assert (∀ b, (b < NBUF)%nat -> b_dev (bufs k !!! b) = 0 ∧ b_blockno (bufs k !!! b) = 0 ∧
    b_refcnt (bufs k !!! b) = 0) as E.
  { intros b Hb. specialize (H3 b). unfold unlinked in H3. injection H3 as _ _ E3 E4 E5 _.
    rewrite E3, E4, E5. by apply Hz. }
  split; cbn.
  - done.
  - by exists l.
  - intros b Hb. destruct (E b Hb) as (E1 & E2 & E3). split; cbn; rewrite ?lookup_empty; try done.
    + by left.
    + rewrite E2. lia.
    + rewrite E3. unfold refs. cbn. rewrite !lookup_empty, decide_False; [done|]. by intros [_ [? ?]].
    + intros _. apply H4. rewrite Hl, elem_of_seq. lia.
    + rewrite E1. done.
  - intros b [? H]. by rewrite lookup_empty in H.
  - intros i j Hij _ Hdi. destruct (E i Hij) as [E1 _]. by rewrite E1 in Hdi.
  - intros bno data H. by rewrite lookup_empty in H.
  - done.
  - intros i. rewrite decide_False by apply not_elem_of_empty. by rewrite H5.
Qed.

Lemma binit_ok :
  (∀ b, (b < NBUF)%nat -> b_dev (bufs k0 !!! b) = 0 ∧ b_blockno (bufs k0 !!! b) = 0 ∧ b_refcnt (bufs k0 !!! b) = 0) ->
  (∀ i, sl_locked (sleeplocks k0 !!! SlInode i) = 0) -> disk_idle (vdisk_state k0) ->
  ∃ k, binit k0 = Ret () k ∧ bcache_ok (mk_cache ∅ ∅) (fsv p k).
Proof.
  intros Hz Hi Hd. exists (foldl binit_step (binit_start k0) (seq 0 NBUF)). split; [exact (binit_eq k0 Hlen)|].
  apply (binit_inv_ok (reverse (seq 0 NBUF)) _ Hz Hi); [|apply reverse_Permutation|exact binit_run].
  destruct (binit_frame (seq 0 NBUF)) as (_ & _ & _ & Ed & _). rewrite Ed. exact Hd.
Qed.
End init.
