(* ===== verification/LogSpec.v ===== *)
(** * Transactions

    The log's operations against the abstract state of [Bcache]: the trace of
    block writes that [commit] gives to the disk, and what [recover_from_log]
    makes of the disk after a crash at any point of that trace. *)
From S2P Require Import Prelude Layout KState Spinlock CString Vm Proc Uart Sleeplock Virtio Bio.
From S2P Require Import Log SchedEq FsView Disk Bcache.

(** ** The state a transaction sees *)
#[projections(primitive)] Record astate : Type := mk_astate {
  a_cache : cache;
  a_log : logstate;
  a_image : gmap Z (list Z);
  a_writes : list (Z * list Z);
  a_other : superblock * list inode * uview;
}.
#[export] Instance set_a_cache : Setter a_cache := λ f r,
  mk_astate (f (a_cache r)) (a_log r) (a_image r) (a_writes r) (a_other r).
#[export] Instance set_a_log : Setter a_log := λ f r,
  mk_astate (a_cache r) (f (a_log r)) (a_image r) (a_writes r) (a_other r).
#[export] Instance set_a_image : Setter a_image := λ f r,
  mk_astate (a_cache r) (a_log r) (f (a_image r)) (a_writes r) (a_other r).
#[export] Instance set_a_writes : Setter a_writes := λ f r,
  mk_astate (a_cache r) (a_log r) (a_image r) (f (a_writes r)) (a_other r).

Record rel (α : astate) (v : fsview) : Prop := {
  rel_cache : bcache_ok (a_cache α) v;
  rel_log : v_log v = a_log α;
  rel_image : v_image v = a_image α;
  rel_writes : v_writes v = a_writes α;
  rel_other : (v_sb v, v_itable v, v_user v) = a_other α;
}.

(** What a block holds, whether or not it is on the disk yet. *)
Definition logical (α : astate) (bno : Z) : list Z :=
  default (a_image α !!! bno) (pins (a_cache α) !! bno).

(** A block write reaches the disk. *)
Definition put (bno : Z) (data : list Z) (α : astate) : astate :=
  α <| a_image ::= <[bno := data]> |> <| a_writes ::= λ w, w ++ [(bno, data)] |>.

(** Running [m] from [α] with the locks [ls] held: it returns with the locks
    [ls'] held, in a state and with a result in [Q]. *)
Definition trl (p : nat) (ls : list lockid) {A} (α : astate) (m : M A) (ls' : list lockid)
    (Q : A -> astate -> Prop) : Prop :=
  ∀ v, rel α v -> ∃ a v' α', vq p ls m v a ls' v' ∧ rel α' v' ∧ Q a α'.
Abbreviation tr p α m Q := (trl p [] α m [] Q).

Section tr.
Context {W : World} {DW : DiskWorld W} (p : nat).
Implicit Types α : astate.

Lemma tr_bind {A B} ls ls1 ls2 α (m : M A) (f : A -> M B) Q1 Q :
  trl p ls α m ls1 Q1 -> (∀ a α', Q1 a α' -> trl p ls1 α' (f a) ls2 Q) -> trl p ls α (m ≫= f) ls2 Q.
Proof.
  intros Hm Hf v Hv. destruct (Hm v Hv) as (a & v1 & α1 & Hq & Hv1 & HQ1).
  destruct (Hf a α1 HQ1 v1 Hv1) as (b & v2 & α2 & Hq2 & Hv2 & HQ).
  exists b, v2, α2. split; [|done]. by eapply vq_bind.
Qed.
Lemma tr_ret {A} ls α (a : A) (Q : A -> astate -> Prop) : Q a α -> trl p ls α (mret a) ls Q.
Proof. intros HQ v Hv. exists a, v, α. split; [apply vq_ret|done]. Qed.
Lemma tr_mono {A} ls ls' α (m : M A) (Q Q' : A -> astate -> Prop) :
  trl p ls α m ls' Q -> (∀ a α', Q a α' -> Q' a α') -> trl p ls α m ls' Q'.
Proof. intros Hm HQ v Hv. destruct (Hm v Hv) as (a & v1 & α1 & ? & ? & ?). exists a, v1, α1. auto. Qed.

Lemma tr_same {A} ls ls' α (m : M A) a :
  (∀ v, vq p ls m v a ls' v) -> trl p ls α m ls' (λ x α', x = a ∧ α' = α).
Proof. intros Hm v Hv. exists a, v, α. done. Qed.
Lemma tr_return {A} ls α (a : A) : trl p ls α (mret a) ls (λ x α', x = a ∧ α' = α).
Proof. apply tr_same. intros v. apply vq_ret. Qed.
Lemma tr_read_log {A} ls α (f : logstate -> A) x :
  f (a_log α) = x -> trl p ls α (read_log f) ls (λ y α', y = x ∧ α' = α).
Proof.
  intros <- v Hv. exists (f (a_log α)), v, α. split; [|done]. apply vq_read_log_as. by rewrite (rel_log _ _ Hv).
Qed.

Lemma bcache_frame c v v' :
  v_bufs v' = v_bufs v -> v_sl v' = v_sl v -> v_image v' = v_image v -> v_pid v' = v_pid v ->
  v_vd v' = v_vd v -> bcache_ok c v -> bcache_ok c v'.
Proof.
  intros E1 E2 E3 E4 E5 [H1 H2 Hb H4 H5 H6 H7 H8]. split; rewrite ?E1, ?E2, ?E4, ?E5; try done.
  intros b Hlt. destruct (Hb b Hlt). split; rewrite ?E2, ?E4; try done.
  unfold content. by rewrite E3.
Qed.

Lemma tr_write_log ls α f : trl p ls α (write_log_state f) ls (λ _ α', α' = α <| a_log ::= f |>).
Proof.
  intros v [Hc Hl Hi Hw Ho]. exists (), (v <| v_log ::= f |>), (α <| a_log ::= f |>).
  split; [apply vq_write_log|]. split; [|done]. split; try done.
  - by apply (bcache_frame _ v).
  - vcbn. by rewrite Hl.
Qed.

Lemma tr_for_seq n (body : nat -> M ()) (F : nat -> astate) :
  (∀ i, (i < n)%nat -> tr p (F i) (body i) (λ _ α', α' = F (S i))) ->
  tr p (F 0%nat) (for_each (seq 0 n) body) (λ _ α', α' = F n).
Proof.
  intros Hb. assert (∀ j, (j <= n)%nat ->
    tr p (F j) (for_each (seq j (n - j)) body) (λ _ α', α' = F n)) as H.
  { intros j Hj. remember (n - j)%nat as k eqn:Ek. revert j Hj Ek. induction k as [|k IH]; intros j Hj Ek.
    - assert (j = n) as -> by lia. by apply tr_ret.
    - cbn. eapply tr_bind; [apply Hb; lia|]. intros [] α' ->. apply IH; lia. }
  specialize (H 0%nat). rewrite Nat.sub_0_r in H. apply H. lia.
Qed.

(** The cache's operations. *)
Lemma rest_other v v' α : rest v' = rest v -> rel α v -> v_log v' = a_log α ∧ (v_sb v', v_itable v', v_user v') = a_other α.
Proof. intros E [_ Hl _ _ Ho]. injection E as E1 E2 E3 E4 E5. by rewrite E1, E2, E3, E5. Qed.

Lemma rel_step c α v v' :
  rel α v -> bcache_ok c v' -> rest v' = rest v -> disk v' = disk v -> rel (α <| a_cache := c |>) v'.
Proof.
  intros Hv Hc Hr Hd. destruct (rest_other v v' α Hr Hv) as [H1 H2]. injection Hd as D1 D2.
  destruct Hv. split; try done; by rewrite ?D1, ?D2.
Qed.

Lemma tr_bread α bno :
  0 <= bno < 2 ^ 31 -> not_held (a_cache α) bno ->
  (size (held (a_cache α)) + size (pins (a_cache α)) < NBUF)%nat ->
  tr p α (bread ROOTDEV bno) (λ b α', held (a_cache α) !! b = None ∧
    α' = α <| a_cache ::= hold b bno (Some (logical α bno)) |>).
Proof.
  intros Hb Hn Hs v Hv. pose proof Hv as [Hc _ Hi _ _].
  destruct (bread_spec p (a_cache α) v bno Hc Hb Hn Hs) as (b & v' & Hq & Hc' & Hr & Hd & _ & Hh).
  exists b, v'. eexists. split; [done|]. split; [|split; [done|reflexivity]].
  assert (content (a_cache α) v bno = logical α bno) as E by (unfold content, logical; by rewrite Hi).
  rewrite E in Hc'. by apply (rel_step _ α v).
Qed.

Lemma tr_bwrite α b bno data :
  held (a_cache α) !! b = Some (bno, Some data) -> tr p α (bwrite b) (λ _ α', α' = put bno data α).
Proof.
  intros Hh v Hv. pose proof Hv as [Hc _ Hi Hw _].
  destruct (bwrite_spec p (a_cache α) v b bno data Hc Hh) as (v' & Hq & Hc' & Hr & Hi' & Hw').
  exists (), v'. eexists. split; [done|]. split; [|reflexivity].
  destruct (rest_other v v' α Hr Hv) as [H1 H2]. split; try done.
  - by rewrite Hi', Hi.
  - by rewrite Hw', Hw.
Qed.

Lemma tr_write_data α b bno data f :
  held (a_cache α) !! b = Some (bno, Some data) ->
  tr p α (write_buf b (λ r, r <| b_data ::= f |>))
    (λ _ α', α' = α <| a_cache ::= hold b bno (Some (f data)) |>).
Proof.
  intros Hh v Hv. pose proof Hv as [Hc _ _ _ _].
  destruct (write_data_spec p (a_cache α) v b bno data f Hc Hh) as (v' & Hq & Hc' & Hr & Hd).
  exists (), v'. eexists. split; [done|]. split; [|reflexivity]. by apply (rel_step _ α v).
Qed.

Lemma tr_read_data α b bno data :
  held (a_cache α) !! b = Some (bno, Some data) -> tr p α (read_buf b b_data) (λ x α', x = data ∧ α' = α).
Proof.
  intros Hh v Hv. exists data, v, α. split; [|done]. apply vq_read_buf_as.
  pose proof (rel_cache _ _ Hv) as Hc. assert (b < NBUF)%nat as Hb by (apply (bc_held _ _ Hc); by eexists).
  destruct (bc_buf _ _ Hc b Hb) as [_ _ _ Ho _ _]. by destruct (Ho _ _ Hh) as (_ & _ & _ & _ & ?).
Qed.

Lemma tr_brelse α b bno data :
  held (a_cache α) !! b = Some (bno, Some data) ->
  (pins (a_cache α) !! bno = None -> data = a_image α !!! bno) ->
  tr p α (brelse b) (λ _ α', α' = α <| a_cache ::= released b bno data |>).
Proof.
  intros Hh Hcl v Hv. pose proof Hv as [Hc _ Hi _ _]. rewrite <- Hi in Hcl.
  destruct (brelse_spec p (a_cache α) v b bno data Hc Hh Hcl) as (v' & Hq & Hc' & Hr & Hd).
  exists (), v'. eexists. split; [done|]. split; [|reflexivity]. by apply (rel_step _ α v).
Qed.

Lemma tr_bunpin α b bno data :
  held (a_cache α) !! b = Some (bno, Some data) -> is_Some (pins (a_cache α) !! bno) ->
  tr p α (bunpin b) (λ _ α', α' = α <| a_cache ::= λ c, c <| pins ::= delete bno |> |>).
Proof.
  intros Hh Hp v Hv. pose proof Hv as [Hc _ _ _ _].
  destruct (bunpin_spec p (a_cache α) v b bno data Hc Hh Hp) as (v' & Hq & Hc' & Hr & Hd).
  exists (), v'. eexists. split; [done|]. split; [|reflexivity]. by apply (rel_step _ α v).
Qed.
End tr.

(** ** Traces of block writes *)
Definition puts (l : list (Z * list Z)) (α : astate) : astate := foldl (λ α x, put x.1 x.2 α) α l.

Lemma puts_snoc l x α : puts (l ++ [x]) α = put x.1 x.2 (puts l α).
Proof. unfold puts. by rewrite foldl_app. Qed.
Lemma puts_app l l' α : puts (l ++ l') α = puts l' (puts l α).
Proof. unfold puts. by rewrite foldl_app. Qed.

(** The disk after the writes [l]. *)
Definition written (l : list (Z * list Z)) (img : gmap Z (list Z)) : gmap Z (list Z) :=
  foldl (λ img x, <[x.1 := x.2]> img) img l.
Lemma written_app l l' img : written (l ++ l') img = written l' (written l img).
Proof. unfold written. by rewrite foldl_app. Qed.

Lemma puts_eq l α :
  puts l α = α <| a_image ::= written l |> <| a_writes ::= λ w, w ++ l |>.
Proof.
  induction l as [|x l IH] using rev_ind.
  - destruct α. unfold puts, set, set_a_image, set_a_writes. cbn. by rewrite app_nil_r.
  - rewrite puts_snoc, IH. unfold put, set, set_a_image, set_a_writes. cbn.
    rewrite written_app, <- app_assoc. by destruct x.
Qed.
Lemma puts_cache l α : a_cache (puts l α) = a_cache α.
Proof. by rewrite puts_eq. Qed.
Lemma puts_log l α : a_log (puts l α) = a_log α.
Proof. by rewrite puts_eq. Qed.
Lemma puts_image l α : a_image (puts l α) = written l (a_image α).
Proof. by rewrite puts_eq. Qed.

Lemma written_notin l img b : b ∉ l.*1 -> written l img !!! b = img !!! b.
Proof.
  induction l as [|x l IH] using rev_ind; [done|]. rewrite fmap_app, not_elem_of_app, written_app.
  cbn. intros [Hl Hx]. rewrite lookup_total_insert_ne by set_solver. by apply IH.
Qed.
Lemma written_last l b d l' img : b ∉ l'.*1 -> written (l ++ (b, d) :: l') img !!! b = d.
Proof.
  intros Hb. change ((b, d) :: l') with ([(b, d)] ++ l'). rewrite !written_app, written_notin by done.
  cbn. apply lookup_total_insert_eq.
Qed.

Lemma written_in l img b d : NoDup l.*1 -> (b, d) ∈ l -> written l img !!! b = d.
Proof.
  intros Hnd (l1 & l2 & ->)%list_elem_of_split. apply written_last.
  rewrite fmap_app, fmap_cons in Hnd. by apply NoDup_app in Hnd as (_ & _ & [? _]%NoDup_cons).
Qed.

(** ** Reading and writing one block through the cache *)

Lemma cache_release2 c to from B1 B2 x d :
  held c !! to = None -> held c !! from = None -> to ≠ from ->
  pins c !! B1 = None -> pins c !! B2 = Some d ->
  released to B1 d (released from B2 d
    (hold to B1 (Some d) (hold from B2 (Some d) (hold to B1 x c)))) = c.
Proof.
  intros Ht Hf Hne H1 H2. destruct c as [h P]. unfold released, hold, set, set_held, set_pins. cbn in *.
  f_equal; apply map_eq; intros i.
  - destruct (decide (i = to)) as [->|]; [by rewrite lookup_delete_eq|rewrite lookup_delete_ne by done].
    destruct (decide (i = from)) as [->|]; [by rewrite lookup_delete_eq|rewrite lookup_delete_ne by done].
    by rewrite !lookup_insert_ne by done.
  - destruct (decide (i = B1)) as [->|]; [rewrite lookup_alter_eq|rewrite lookup_alter_ne by done].
    + rewrite lookup_alter_ne by congruence. by rewrite H1.
    + destruct (decide (i = B2)) as [->|]; [rewrite lookup_alter_eq|by rewrite lookup_alter_ne by done].
      by rewrite H2.
Qed.

Lemma size_hold b x c : held c !! b = None -> size (held (c <| held ::= <[b := x]> |>)) = S (size (held c)).
Proof. intros. cbn. by rewrite map_size_insert_None. Qed.

Section log.
Context {W : World} {DW : DiskWorld W} (p : nat).

(** [write_log]'s round: block [B2] is copied to block [B1] of the log. *)
Lemma tr_log_copy α B1 B2 d g :
  g (a_log α) = B2 -> held (a_cache α) = ∅ -> 0 <= B1 < 2 ^ 31 -> 0 <= B2 < 2 ^ 31 -> B1 ≠ B2 ->
  pins (a_cache α) !! B1 = None -> pins (a_cache α) !! B2 = Some d ->
  (S (size (pins (a_cache α))) < NBUF)%nat ->
  tr p α
    (to ← bread ROOTDEV B1;
     blk ← read_log g;
     from ← bread ROOTDEV (u32 blk);
     data ← read_buf from b_data;
     write_buf to (λ b, b <| b_data := data |>) ;;
     bwrite to ;;
     brelse from ;;
     brelse to) (λ _ α', α' = put B1 d α).
Proof.
  intros Hg Hh HB1 HB2 Hne H1 H2 Hsz.
  eapply tr_bind; [apply tr_bread; [done|intros ??; by rewrite Hh|rewrite Hh, map_size_empty; lia]|].
  intros to α1 [Hto ->]. eapply tr_bind; [apply tr_read_log; exact Hg|]. intros ? ? [-> ->].
  rewrite u32_small by lia.
  eapply tr_bind; [apply tr_bread; [done| |]|].
  - intros b x. cbn. rewrite Hh. intros [[-> [= -> <-]]|[_ []%lookup_empty_Some]]%lookup_insert_Some. done.
  - cbn. rewrite Hh, map_size_insert_None, map_size_empty by done. lia.
  - intros from α2 [Hfrom ->]. cbn in Hfrom. apply lookup_insert_None in Hfrom as [Hfrom Htf].
    assert (logical (α <| a_cache ::= hold to B1 (Some (logical α B1)) |>) B2 = d) as ->
      by (unfold logical; cbn; by rewrite H2).
    eapply tr_bind; [apply (tr_read_data p _ from B2 d), lookup_insert_eq|]. intros ? ? [-> ->].
    eapply tr_bind; [eapply (tr_write_data p _ to B1 _ (λ _, d))|].
    { cbn. by rewrite lookup_insert_ne, lookup_insert_eq by done. }
    intros [] ? ->. eapply tr_bind; [eapply (tr_bwrite p _ to B1 d), lookup_insert_eq|].
    intros [] ? ->. eapply tr_bind; [eapply (tr_brelse p _ from B2 d)|].
    { cbn. by rewrite lookup_insert_ne, lookup_insert_eq by done. }
    { cbn. by rewrite H2. }
    intros [] ? ->. eapply tr_mono; [eapply (tr_brelse p _ to B1 d)|].
    { cbn. by rewrite lookup_delete_ne, lookup_insert_eq by done. }
    { intros _. cbn. by rewrite lookup_total_insert_eq. }
    intros [] ? ->.
    transitivity ((put B1 d α) <| a_cache := released to B1 d (released from B2 d
      (hold to B1 (Some d) (hold from B2 (Some d) (hold to B1 (Some (logical α B1)) (a_cache α))))) |>); [done|].
    by rewrite cache_release2.
Qed.
End log.

(** ** The log's header and its blocks *)

(** The in-memory header names the blocks [bl], on a log that starts at [s]. *)
Record log_at (s : Z) (bl : list Z) (lg : logstate) : Prop := {
  la_start : lg_start lg = s;
  la_dev : lg_dev lg = ROOTDEV;
  la_n : lh_n lg = Z.of_nat (length bl);
  la_block i b : bl !! i = Some b -> lh_block lg !!! i = b;
}.
(** They are distinct blocks outside the log. *)
Record homes (s : Z) (bl : list Z) : Prop := {
  ho_nodup : NoDup bl;
  ho_range b : b ∈ bl -> 0 <= b < 2 ^ 31;
  ho_home b : b ∈ bl -> ¬ (s <= b <= s + LOGBLOCKS);
  ho_start : 0 <= s ∧ s + LOGBLOCKS < 2 ^ 31;
  ho_len : (length bl <= 30)%nat;
}.
(** The log's blocks hold [ds]. *)
Definition logged (s : Z) (ds : list (list Z)) : list (Z * list Z) :=
  imap (λ i d, (s + Z.of_nat i + 1, d)) ds.

Lemma logged_lookup s ds i d : ds !! i = Some d -> logged s ds !! i = Some (s + Z.of_nat i + 1, d).
Proof. intros E. unfold logged. by rewrite list_lookup_imap, E. Qed.
Lemma logged_length s ds : length (logged s ds) = length ds.
Proof. apply length_imap. Qed.

Section tx.
Context (s : Z) (bl : list Z) (ds : list (list Z)) (Hb : homes s bl) (Hlen : length ds = length bl).

Lemma tx_lookup i : (i < length bl)%nat -> ∃ b d, bl !! i = Some b ∧ ds !! i = Some d ∧
  (list_to_map (zip bl ds) : gmap Z (list Z)) !! b = Some d ∧ 0 <= b < 2 ^ 31 ∧
  ¬ (s <= b <= s + LOGBLOCKS) ∧ s <= s + Z.of_nat i + 1 <= s + LOGBLOCKS ∧ s + LOGBLOCKS < 2 ^ 31 ∧ 0 <= s.
Proof.
  intros Hi. destruct Hb as [Hnd Hr Hh Hs Hl].
  destruct (lookup_lt_is_Some_2 bl i Hi) as [b Eb].
  destruct (lookup_lt_is_Some_2 ds i ltac:(lia)) as [d Ed].
  assert (b ∈ bl) as Hbl by (by eapply list_elem_of_lookup_2).
  exists b, d. split_and!; try done; try (by apply Hr); try (by apply Hh).
  - apply elem_of_list_to_map_1; [by rewrite fst_zip by lia|].
    apply list_elem_of_lookup_2 with i. rewrite lookup_zip_with, Eb. cbn. by rewrite Ed.
  - lia.
  - change LOGBLOCKS with 30. lia.
  - lia.
  - lia.
Qed.

Lemma tx_size : size (list_to_map (zip bl ds) : gmap Z (list Z)) = length bl.
Proof.
  destruct Hb as [Hnd _ _ _ _]. rewrite map_size_list_to_map by (by rewrite fst_zip by lia).
  rewrite length_zip_with. lia.
Qed.

Lemma tx_log_unpinned i : (i <= Z.to_nat LOGBLOCKS)%nat ->
  (list_to_map (zip bl ds) : gmap Z (list Z)) !! (s + Z.of_nat i) = None.
Proof.
  intros Hi. apply not_elem_of_list_to_map_1. rewrite fst_zip by lia.
  intros Hin. apply (ho_home s bl Hb) in Hin. change LOGBLOCKS with 30 in *. lia.
Qed.
End tx.

(** The header block naming [bl], written over the block's old contents. *)
Definition header_blocks (bl : list Z) (n : nat) (old : list Z) : list Z :=
  foldl (λ x i, set_hdr_block i (bl !!! i) x) old (seq 0 n).
Lemma header_blocks_S bl n old :
  header_blocks bl (S n) old = set_hdr_block n (bl !!! n) (header_blocks bl n old).
Proof. unfold header_blocks. by rewrite seq_S, foldl_app. Qed.
Definition header (bl : list Z) (old : list Z) : list Z :=
  header_blocks bl (length bl) (set_hdr_n (Z.of_nat (length bl)) old).

(** The header names what was put into it. *)
Lemma length_header_blocks bl n old : (4 + 4 * n <= length old)%nat ->
  length (header_blocks bl n old) = length old.
Proof.
  induction n as [|n IH]; intros Hn; [done|]. rewrite header_blocks_S. unfold set_hdr_block.
  rewrite length_put_le; rewrite IH; lia.
Qed.
Lemma header_blocks_get bl n old i : (4 + 4 * n <= length old)%nat -> (i < n)%nat ->
  0 <= bl !!! i < 2 ^ 31 -> hdr_block i (header_blocks bl n old) = bl !!! i.
Proof.
  induction n as [|n IH]; intros Hn Hi Hb; [lia|]. rewrite header_blocks_S. unfold hdr_block, set_hdr_block.
  pose proof (length_header_blocks bl n old ltac:(lia)) as El.
  destruct (decide (i = n)) as [->|].
  - rewrite get_put_le; [|lia|unfold u32; change (256 ^ Z.of_nat 4) with (2 ^ 32); apply Z.mod_pos_bound; lia].
    rewrite u32_small by lia. unfold i32. rewrite Z.mod_small; lia.
  - rewrite get_put_le_ne by lia. apply IH; lia.
Qed.
Lemma header_n bl old : (128 <= length old)%nat -> (length bl <= 30)%nat ->
  hdr_n (header bl old) = Z.of_nat (length bl).
Proof.
  intros Hl Hb. unfold header, hdr_n.
  assert (∀ n old', (4 + 4 * n <= length old')%nat ->
    get_le 4 0 (header_blocks bl n old') = get_le 4 0 old') as Hk.
  { induction n as [|n IH]; intros old' Hn; [done|]. rewrite header_blocks_S. unfold set_hdr_block.
    rewrite get_put_le_ne by (rewrite ?length_header_blocks; lia). apply IH. lia. }
  rewrite Hk by (unfold set_hdr_n; rewrite length_put_le; lia). unfold set_hdr_n.
  rewrite get_put_le; [|lia|unfold u32; change (256 ^ Z.of_nat 4) with (2 ^ 32); apply Z.mod_pos_bound; lia].
  rewrite u32_small by lia. unfold i32. rewrite Z.mod_small; lia.
Qed.
Lemma header_block bl old i : (128 <= length old)%nat -> (length bl <= 30)%nat -> (i < length bl)%nat ->
  0 <= bl !!! i < 2 ^ 31 -> hdr_block i (header bl old) = bl !!! i.
Proof.
  intros. apply header_blocks_get; try done. unfold set_hdr_n. rewrite length_put_le; lia.
Qed.
Lemma length_header bl old : (128 <= length old)%nat -> (length bl <= 30)%nat ->
  length (header bl old) = length old.
Proof.
  intros. unfold header, set_hdr_n. rewrite length_header_blocks; rewrite length_put_le; lia.
Qed.

(** The header on the disk names the blocks [bl]. *)
Definition header_names (bl : list Z) (h : list Z) : Prop :=
  hdr_n h = Z.of_nat (length bl) ∧ ∀ i b, bl !! i = Some b -> hdr_block i h = b.

Lemma header_header_names s bl old : (128 <= length old)%nat -> homes s bl -> header_names bl (header bl old).
Proof.
  intros Hl Hb. pose proof (ho_len s bl Hb). split; [apply header_n; lia|]. intros i b Ei.
  pose proof (list_lookup_total_correct _ _ _ Ei) as Et. pose proof (lookup_lt_Some _ _ _ Ei).
  rewrite <- Et. apply header_block; [done|lia|done|]. rewrite Et. apply (ho_range s bl Hb).
  by eapply list_elem_of_lookup_2.
Qed.

Lemma cache_release1 c b bno d : held c !! b = None -> pins c !! bno = None ->
  released b bno d (hold b bno (Some d) c) = c.
Proof.
  intros Hh Hp. destruct c as [h P]. unfold released, hold, set, set_held, set_pins. cbn in *.
  f_equal; [by rewrite delete_insert_id|]. apply map_eq. intros i.
  destruct (decide (i = bno)) as [->|]; [by rewrite lookup_alter_eq, Hp|by rewrite lookup_alter_ne].
Qed.

Section log2.
Context {W : World} {DW : DiskWorld W} (p : nat).
Context (s : Z) (bl : list Z) (ds : list (list Z)) (Hb : homes s bl) (Hlen : length ds = length bl).
(** Two buffers are left for the commit itself. *)
Context (Hsmall : (length bl <= 28)%nat).

Lemma write_log_spec α :
  log_at s bl (a_log α) -> held (a_cache α) = ∅ -> pins (a_cache α) = list_to_map (zip bl ds) ->
  tr p α write_log (λ _ α', α' = puts (logged s ds) α).
Proof.
  intros [Hs Hd Hn Hbk] Hh Hp. unfold write_log, for_tail.
  eapply tr_bind; [apply tr_read_log; exact Hn|]. intros ? ? [-> ->]. rewrite Nat2Z.id.
  replace (puts (logged s ds) α) with (puts (take (length bl) (logged s ds)) α)
    by (by rewrite take_ge by (by rewrite logged_length, Hlen)).
  apply (tr_for_seq p (length bl) _ (λ i, puts (take i (logged s ds)) α)). intros i Hi.
  destruct (tx_lookup s bl ds Hb Hlen i Hi) as (b & d & Eb & Ed & Em & Hr & Hout & Hin & Hs1 & Hs2).
  eapply tr_bind; [apply tr_read_log; rewrite puts_log; exact Hd|]. intros ? ? [-> ->].
  eapply tr_bind; [apply tr_read_log; rewrite puts_log; exact Hs|]. intros ? ? [-> ->].
  rewrite u32_small by lia.
  eapply tr_mono; [apply (tr_log_copy p _ (s + Z.of_nat i + 1) b d);
    rewrite ?puts_log, ?puts_cache, ?Hp; [by apply Hbk|done|lia|done|lia| |done|]|].
  - replace (s + Z.of_nat i + 1) with (s + Z.of_nat (S i)) by lia. apply (tx_log_unpinned s bl ds Hb Hlen (S i)).
    change (Z.to_nat LOGBLOCKS) with 30%nat. pose proof (ho_len s bl Hb). lia.
  - rewrite (tx_size s bl ds Hb Hlen). pose proof (ho_len s bl Hb). unfold NBUF. lia.
  - intros [] ? ->. by rewrite (take_S_r _ _ _ (logged_lookup s ds i d Ed)), puts_snoc.
Qed.

Lemma write_head_spec bl' α :
  log_at s bl' (a_log α) -> 0 <= s < 2 ^ 31 -> held (a_cache α) = ∅ -> pins (a_cache α) !! s = None ->
  (size (pins (a_cache α)) < NBUF)%nat ->
  tr p α write_head (λ _ α', α' = put s (header bl' (a_image α !!! s)) α).
Proof.
  intros [Hs Hd Hn Hbk] Hr Hh Hp Hsz. unfold write_head, for_tail.
  eapply tr_bind; [apply tr_read_log; exact Hd|]. intros ? ? [-> ->].
  eapply tr_bind; [apply tr_read_log; exact Hs|]. intros ? ? [-> ->]. rewrite u32_small by lia.
  eapply tr_bind; [apply tr_bread; [done|intros ??; by rewrite Hh|rewrite Hh, map_size_empty; lia]|].
  intros b ? [Hhb ->]. unfold logical. rewrite Hp. cbn [default].
  eapply tr_bind; [apply tr_read_log; exact Hn|]. intros ? ? [-> ->].
  eapply tr_bind; [eapply tr_write_data, lookup_insert_eq|]. intros [] ? ->.
  set (x0 := set_hdr_n (Z.of_nat (length bl')) (a_image α !!! s)).
  set (F := λ i, α <| a_cache ::= hold b s (Some (header_blocks bl' i x0)) |>).
  replace (α <| a_cache ::= _ |> <| a_cache ::= _ |>) with (F 0%nat)
    by (unfold F, set, set_a_cache; cbn; by rewrite hold_hold).
  eapply tr_bind.
  { eapply tr_bind; [apply tr_read_log; exact Hn|]. intros ? ? [-> ->]. rewrite Nat2Z.id.
    apply (tr_for_seq p (length bl') _ F). intros i Hi.
    destruct (lookup_lt_is_Some_2 bl' i Hi) as [bi Ei].
    eapply tr_bind; [apply tr_read_log; by apply Hbk|]. intros ? ? [-> ->].
    eapply tr_mono; [eapply tr_write_data, lookup_insert_eq|]. intros [] ? ->.
    unfold F. rewrite header_blocks_S, (list_lookup_total_correct _ _ _ Ei).
    unfold set, set_a_cache. cbn [a_cache a_log a_image a_writes a_other]. by rewrite hold_hold. }
  intros [] ? ->. eapply tr_bind; [eapply tr_bwrite, lookup_insert_eq|]. intros [] ? ->.
  eapply tr_mono; [eapply tr_brelse; [apply lookup_insert_eq|]|].
  - intros _. cbn. by rewrite lookup_total_insert_eq.
  - intros [] ? ->.
    transitivity ((put s (header bl' (a_image α !!! s)) α) <| a_cache := released b s (header bl' (a_image α !!! s))
      (hold b s (Some (header bl' (a_image α !!! s))) (a_cache α)) |>); [done|].
    by rewrite cache_release1.
Qed.

Lemma tr_printf α fmt ap : tr p α (printf_fmt fmt ap) (λ _ α', α' = α).
Proof.
  intros v Hv. exists (), v, α. split; [|done]. apply vq_printf_fmt; [apply not_elem_of_nil|cbn; lia].
Qed.

Lemma cache_install c lb db B1 B2 x d :
  held c !! lb = None -> held c !! db = None -> lb ≠ db -> pins c !! B1 = None -> B1 ≠ B2 ->
  released db B2 d (released lb B1 d ((hold db B2 (Some d) (hold db B2 x (hold lb B1 (Some d) c)))
    <| pins ::= delete B2 |>)) = c <| pins ::= delete B2 |>.
Proof.
  intros Hl Hd Hne H1 HB. destruct c as [h P]. unfold released, hold, set, set_held, set_pins. cbn in *.
  f_equal; apply map_eq; intros i.
  - destruct (decide (i = db)) as [->|]; [by rewrite lookup_delete_eq|rewrite lookup_delete_ne by done].
    destruct (decide (i = lb)) as [->|]; [by rewrite lookup_delete_eq|rewrite lookup_delete_ne by done].
    by rewrite !lookup_insert_ne by done.
  - destruct (decide (i = B2)) as [->|].
    + rewrite lookup_alter_eq, lookup_alter_ne by done. by rewrite lookup_delete_eq.
    + rewrite lookup_alter_ne by done. destruct (decide (i = B1)) as [->|].
      * rewrite lookup_alter_eq, lookup_delete_ne, H1 by done. done.
      * by rewrite lookup_alter_ne.
Qed.

(** A round of [install_trans]: block [B1] of the log is copied to [B2]. *)
Lemma tr_install_copy α (recovering : bool) B1 B2 d g :
  g (a_log α) = B2 -> held (a_cache α) = ∅ -> 0 <= B1 < 2 ^ 31 -> 0 <= B2 < 2 ^ 31 -> B1 ≠ B2 ->
  pins (a_cache α) !! B1 = None -> a_image α !!! B1 = d ->
  (if recovering then pins (a_cache α) !! B2 = None else is_Some (pins (a_cache α) !! B2)) ->
  (S (size (pins (a_cache α))) < NBUF)%nat ->
  tr p α
    (lbuf ← bread ROOTDEV B1;
     dst ← read_log g;
     dbuf ← bread ROOTDEV (u32 dst);
     data ← read_buf lbuf b_data;
     write_buf dbuf (λ b, b <| b_data := data |>) ;;
     bwrite dbuf ;;
     when (negb recovering) (bunpin dbuf) ;;
     brelse lbuf ;;
     brelse dbuf) (λ _ α', α' = (put B2 d α) <| a_cache ::= λ c, c <| pins ::= delete B2 |> |>).
Proof.
  intros Hg Hh HB1 HB2 Hne H1 Hi H2 Hsz.
  eapply tr_bind; [apply tr_bread; [done|intros ??; by rewrite Hh|rewrite Hh, map_size_empty; lia]|].
  intros lb ? [Hlb ->]. eapply tr_bind; [apply tr_read_log; exact Hg|]. intros ? ? [-> ->].
  rewrite u32_small by lia. unfold logical at 1. rewrite H1. cbn [default]. rewrite Hi.
  eapply tr_bind; [apply tr_bread; [done| |]|].
  { intros b x. cbn. rewrite Hh. intros [[-> [= -> <-]]|[_ []%lookup_empty_Some]]%lookup_insert_Some. done. }
  { cbn. rewrite Hh, map_size_insert_None, map_size_empty by done. lia. }
  intros db ? [Hdb ->]. cbn in Hdb. apply lookup_insert_None in Hdb as [Hdb Hld].
  set (x := logical _ B2). clearbody x.
  eapply tr_bind; [eapply (tr_read_data p _ lb B1 d); cbn; by rewrite lookup_insert_ne, lookup_insert_eq by done|].
  intros ? ? [-> ->]. eapply tr_bind; [eapply (tr_write_data p _ db B2 _ (λ _, d)), lookup_insert_eq|].
  intros [] ? ->. eapply tr_bind; [eapply (tr_bwrite p _ db B2 d), lookup_insert_eq|]. intros [] ? ->.
  set (α1 := put B2 d _).
  assert (pins (a_cache α1) = pins (a_cache α)) as Ep by done.
  eapply (tr_bind p [] [] [] α1 _ _ (λ _ α', α' = α1 <| a_cache ::= λ c, c <| pins ::= delete B2 |> |>)).
  { destruct recovering; cbn [negb when].
    - apply tr_ret. unfold set, set_a_cache. cbn. unfold set, set_pins. cbn. by rewrite delete_id.
    - eapply tr_mono; [eapply (tr_bunpin p _ db B2 d), H2; apply lookup_insert_eq|]. by intros [] ? ->. }
  intros [] ? ->. eapply tr_bind; [eapply (tr_brelse p _ lb B1 d)|].
  { cbn. by rewrite !lookup_insert_ne, lookup_insert_eq by done. }
  { intros _. cbn. by rewrite lookup_total_insert_ne by done. }
  intros [] ? ->. eapply tr_mono; [eapply (tr_brelse p _ db B2 d)|].
  { cbn. by rewrite lookup_delete_ne, lookup_insert_eq by done. }
  { intros _. cbn. by rewrite lookup_total_insert_eq. }
  intros [] ? ->.
  transitivity ((put B2 d α) <| a_cache := released db B2 d (released lb B1 d
    ((hold db B2 (Some d) (hold db B2 (Some x) (hold lb B1 (Some d) (a_cache α)))) <| pins ::= delete B2 |>)) |>);
    [done|]. by rewrite cache_install.
Qed.

(** The pins that are left when the first [i] blocks are installed. *)
Definition unpinned (recovering : bool) (i : nat) : gmap Z (list Z) :=
  if recovering then ∅ else list_to_map (drop i (zip bl ds)).

Lemma zip_lookup i b d : bl !! i = Some b -> ds !! i = Some d -> zip bl ds !! i = Some (b, d).
Proof. clear Hsmall. intros E1 E2. rewrite lookup_zip_with, E1. cbn. by rewrite E2. Qed.

Lemma tx_rest i b d : bl !! i = Some b -> ds !! i = Some d ->
  drop i (zip bl ds) = (b, d) :: drop (S i) (zip bl ds) ∧
  (∀ recovering, delete b (unpinned recovering i) = unpinned recovering (S i)) ∧
  (∀ recovering x, s <= x <= s + LOGBLOCKS -> unpinned recovering i !! x = None) ∧
  (∀ recovering, size (unpinned recovering i) <= length bl)%nat.
Proof. clear Hsmall.
  intros E1 E2. pose proof (zip_lookup i b d E1 E2) as E.
  assert (drop i (zip bl ds) = (b, d) :: drop (S i) (zip bl ds)) as Ed by (by apply drop_S).
  assert ((zip bl ds).*1 = bl) as Ef by (apply fst_zip; lia).
  assert (NoDup (drop i (zip bl ds)).*1) as Hnd.
  { rewrite fmap_drop, Ef. eapply sublist_NoDup; [apply Hb|apply sublist_drop]. }
  split; [done|]. split_and!; intros [|]; unfold unpinned; try done.
  - rewrite Ed in Hnd |- *. cbn in *. apply NoDup_cons in Hnd as [Hn _]. apply delete_insert_id.
    by apply not_elem_of_list_to_map_1.
  - intros x Hx. apply not_elem_of_list_to_map_1. rewrite fmap_drop, Ef. intros Hin.
    apply (ho_home s bl Hb x); [|done]. eapply elem_of_submseteq; [done|].
    apply sublist_submseteq, sublist_drop.
  - rewrite map_size_empty. lia.
  - rewrite map_size_list_to_map, length_drop, length_zip_with by done. lia.
Qed.

Lemma install_trans_spec α recovering :
  log_at s bl (a_log α) -> held (a_cache α) = ∅ -> ilk (a_cache α) = ∅ -> pins (a_cache α) = unpinned recovering 0 ->
  (∀ i d, ds !! i = Some d -> a_image α !!! (s + Z.of_nat i + 1) = d) ->
  tr p α (install_trans recovering)
    (λ _ α', α' = (puts (zip bl ds) α) <| a_cache := mk_cache ∅ ∅ |>).
Proof.
  intros [Hs Hd Hn Hbk] Hh Hk Hp Himg. unfold install_trans, for_tail.
  eapply tr_bind; [apply tr_read_log; exact Hn|]. intros ? ? [-> ->]. rewrite Nat2Z.id.
  set (F := λ i, (puts (take i (zip bl ds)) α) <| a_cache := mk_cache ∅ (unpinned recovering i) |>).
  replace α with (F 0%nat) at 1
    by (unfold F, set, set_a_cache; cbn; rewrite <- Hp, <- Hh, <- Hk; by destruct α as [[] ? ? ? ?]).
  replace ((puts (zip bl ds) α) <| a_cache := _ |>) with (F (length bl)).
  2:{ unfold F, unpinned. assert (length (zip bl ds) = length bl) as El by (rewrite length_zip_with; lia).
      rewrite take_ge, drop_ge by lia. by destruct recovering. }
  apply (tr_for_seq p (length bl) _ F). intros i Hi.
  destruct (tx_lookup s bl ds Hb Hlen i Hi) as (b & d & Eb & Ed & Em & Hr & Hout & Hin & Hs1 & Hs2).
  destruct (tx_rest i b d Eb Ed) as (Ez & Edel & Hnone & Hsz).
  assert (a_log (F i) = a_log α) as Elog by (unfold F; cbn; apply puts_log).
  eapply tr_bind; [apply tr_read_log; reflexivity|]. intros ? ? [-> ->].
  eapply (tr_bind p [] [] [] _ _ _ (λ _ α', α' = F i)).
  { destruct recovering; [apply tr_printf|by apply tr_ret]. }
  intros [] ? ->. eapply tr_bind; [apply tr_read_log; rewrite Elog; exact Hd|]. intros ? ? [-> ->].
  eapply tr_bind; [apply tr_read_log; rewrite Elog; exact Hs|]. intros ? ? [-> ->].
  rewrite u32_small by lia.
  eapply tr_mono; [apply (tr_install_copy (F i) recovering (s + Z.of_nat i + 1) b d)|].
  - rewrite Elog. by apply Hbk.
  - done.
  - lia.
  - done.
  - lia.
  - apply (Hnone recovering). lia.
  - unfold F. cbn. rewrite puts_image, written_notin; [by apply Himg|]. intros Hin'.
    apply (ho_home s bl Hb (s + Z.of_nat i + 1)); [|done]. rewrite fmap_take, fst_zip in Hin' by lia.
    eapply elem_of_submseteq; [done|]. apply sublist_submseteq, sublist_take.
  - unfold F. cbn. destruct recovering; [done|]. cbn. rewrite Ez. cbn. rewrite lookup_insert_eq. by eexists.
  - cbn. pose proof (Hsz recovering). pose proof (ho_len s bl Hb). unfold NBUF. lia.
  - intros [] ? ->. unfold F. rewrite (take_S_r _ _ _ (zip_lookup i b d Eb Ed)), puts_snoc.
    unfold set, set_a_cache. cbn. unfold set, set_pins. cbn. by rewrite Edel.
Qed.

(** The writes of a commit: the log's blocks, the header, the blocks in their
    places, the empty header. *)
Definition commit_trace (old : list Z) : list (Z * list Z) :=
  logged s ds ++ (s, header bl old) :: zip bl ds ++ [(s, header [] (header bl old))].

Lemma logged_keys x : x ∈ (logged s ds).*1 -> s < x <= s + LOGBLOCKS.
Proof. clear Hsmall.
  intros (y & -> & (i & Hi)%list_elem_of_lookup_1)%list_elem_of_fmap.
  unfold logged in Hi. rewrite list_lookup_imap in Hi. destruct (ds !! i) eqn:E; [|done].
  injection Hi as <-. apply lookup_lt_Some in E. pose proof (ho_len s bl Hb). change LOGBLOCKS with 30. cbn. lia.
Qed.
Lemma logged_nodup : NoDup (logged s ds).*1.
Proof. clear Hsmall.
  unfold logged. rewrite fmap_imap. apply NoDup_alt. intros i j x. rewrite !list_lookup_imap.
  destruct (ds !! i), (ds !! j); cbn; try done. intros [= <-] [= E]. lia.
Qed.
Lemma zip_keys x : x ∈ (zip bl ds).*1 -> ¬ (s <= x <= s + LOGBLOCKS).
Proof. clear Hsmall. rewrite fst_zip by lia. apply Hb. Qed.

Lemma commit_spec α :
  log_at s bl (a_log α) -> held (a_cache α) = ∅ -> ilk (a_cache α) = ∅ -> pins (a_cache α) = list_to_map (zip bl ds) ->
  bl ≠ [] ->
  tr p α commit (λ _ α', α' = (puts (commit_trace (a_image α !!! s)) α)
    <| a_cache := mk_cache ∅ ∅ |> <| a_log ::= λ l, l <| lh_n := 0 |> |>).
Proof.
  intros Hl Hh Hlk Hp Hne. pose proof Hl as [Hs Hd Hn Hbk]. pose proof (ho_start s bl Hb) as Hst.
  assert (0 <= s < 2 ^ 31) as Hsr by (change LOGBLOCKS with 30 in *; lia).
  unfold commit. eapply tr_bind; [apply tr_read_log; exact Hn|]. intros ? ? [-> ->].
  assert (length bl ≠ 0%nat) as Hln by (by intros ?%nil_length_inv).
  assert ((0 <? Z.of_nat (length bl)) = true) as -> by (apply Z.ltb_lt; lia). cbn [when].
  eapply tr_bind; [by apply write_log_spec|]. intros [] ? ->.
  assert (s ∉ (logged s ds).*1) as Hsl by (intros H%logged_keys; lia).
  assert (a_image (puts (logged s ds) α) !!! s = a_image α !!! s) as E0
    by (by rewrite puts_image, written_notin).
  eapply tr_bind; [apply (write_head_spec bl); rewrite ?puts_log, ?puts_cache, ?Hp; try done|].
  { replace s with (s + Z.of_nat 0) by lia. apply (tx_log_unpinned s bl ds Hb Hlen). lia. }
  { rewrite (tx_size s bl ds Hb Hlen). pose proof (ho_len s bl Hb). unfold NBUF. lia. }
  rewrite E0. intros [] ? ->. set (h1 := header bl (a_image α !!! s)).
  change (put s h1 (puts (logged s ds) α)) with (put (s, h1).1 (s, h1).2 (puts (logged s ds) α)).
  rewrite <- puts_snoc. set (l1 := logged s ds ++ [(s, h1)]).
  assert (∀ x, x ∈ l1.*1 -> s <= x <= s + LOGBLOCKS) as Hk1.
  { intros x. unfold l1. rewrite fmap_app, elem_of_app. intros [H%logged_keys|H%list_elem_of_singleton]; [lia|].
    cbn in H. subst x. change LOGBLOCKS with 30. lia. }
  eapply tr_bind; [apply (install_trans_spec (puts l1 α) false)|].
  - by rewrite puts_log.
  - by rewrite puts_cache.
  - by rewrite puts_cache.
  - by rewrite puts_cache.
  - intros i d Ed. rewrite puts_image. apply written_in.
    + unfold l1. rewrite fmap_app. apply NoDup_app. split_and!; [apply logged_nodup| |apply NoDup_singleton].
      intros x H%logged_keys H2%list_elem_of_singleton. cbn in H2. lia.
    + apply elem_of_app. left. eapply list_elem_of_lookup_2. by apply logged_lookup.
  - intros [] ? ->. eapply tr_bind; [apply tr_write_log|]. intros [] ? ->.
    set (α2 := (puts (zip bl ds) (puts l1 α)) <| a_cache := mk_cache ∅ ∅ |> <| a_log ::= λ l, l <| lh_n := 0 |> |>).
    assert (a_log α2 = (a_log α) <| lh_n := 0 |>) as El by (unfold α2; cbn; by rewrite !puts_log).
    assert (a_image α2 !!! s = h1) as Ei.
    { unfold α2. cbn. rewrite !puts_image, written_notin by (intros H%zip_keys; change LOGBLOCKS with 30 in *; lia).
      unfold l1. apply written_last. apply not_elem_of_nil. }
    eapply tr_mono; [apply (write_head_spec [] α2);
      [rewrite El; by split|done|done|done|cbn; rewrite map_size_empty; unfold NBUF; lia]|].
    intros [] ? ->. rewrite Ei. unfold commit_trace. fold h1.
    change ((s, h1) :: zip bl ds ++ [(s, header [] h1)]) with ([(s, h1)] ++ zip bl ds ++ [(s, header [] h1)]).
    rewrite (app_assoc (logged s ds)). fold l1. unfold α2, put. rewrite !puts_eq.
    unfold set, set_a_cache, set_a_log, set_a_image, set_a_writes. cbn. rewrite !written_app.
    by rewrite <- !app_assoc.
Qed.

(** ** Recovery *)

(** [log.lh.block[i] = lh->block[i]] for the first [n] blocks. *)
Definition load_blocks (data : list Z) (n : nat) (lg : logstate) : logstate :=
  foldl (λ l i, l <| lh_block ::= upd i (λ _, hdr_block i data) |>) lg (seq 0 n).
Lemma load_blocks_S data n lg :
  load_blocks data (S n) lg = (load_blocks data n lg) <| lh_block ::= upd n (λ _, hdr_block n data) |>.
Proof. unfold load_blocks. by rewrite seq_S, foldl_app. Qed.
(** The counters [begin_op] and [end_op] use. *)
Definition idle (lg : logstate) : Z * Z := (lg_outstanding lg, lg_committing lg).
Lemma load_blocks_same data n lg :
  lh_n (load_blocks data n lg) = lh_n lg ∧ lg_start (load_blocks data n lg) = lg_start lg ∧
  lg_dev (load_blocks data n lg) = lg_dev lg ∧
  length (lh_block (load_blocks data n lg)) = length (lh_block lg) ∧
  idle (load_blocks data n lg) = idle lg.
Proof.
  induction n as [|n (IH1 & IH2 & IH3 & IH4 & IH5)]; [done|]. rewrite load_blocks_S. cbn. by rewrite length_upd.
Qed.
Lemma load_blocks_get data n lg i : (n <= length (lh_block lg))%nat -> (i < n)%nat ->
  lh_block (load_blocks data n lg) !!! i = hdr_block i data.
Proof. clear Hsmall.
  induction n as [|n IH]; intros Hn Hi; [lia|]. rewrite load_blocks_S. cbn.
  destruct (load_blocks_same data n lg) as (_ & _ & _ & El & _).
  rewrite upd_lookup by (rewrite El; lia). case_decide as E; [by subst|]. apply IH; lia.
Qed.

Lemma read_head_spec α h :
  lg_start (a_log α) = s -> lg_dev (a_log α) = ROOTDEV -> length (lh_block (a_log α)) = Z.to_nat LOGBLOCKS ->
  held (a_cache α) = ∅ -> pins (a_cache α) = ∅ -> a_image α !!! s = h -> header_names bl h ->
  tr p α read_head (λ _ α', log_at s bl (a_log α') ∧ α' = α <| a_log := a_log α' |> ∧
    length (lh_block (a_log α')) = Z.to_nat LOGBLOCKS ∧ idle (a_log α') = idle (a_log α)).
Proof. clear Hsmall.
  intros Hs Hd Hl Hh Hp Hi [Hn Hbk]. pose proof (ho_start s bl Hb) as Hst.
  assert (0 <= s < 2 ^ 31) as Hsr by (change LOGBLOCKS with 30 in *; lia).
  pose proof (ho_len s bl Hb) as Hbl. unfold read_head, for_tail.
  eapply tr_bind; [apply tr_read_log; exact Hd|]. intros ? ? [-> ->].
  eapply tr_bind; [apply tr_read_log; exact Hs|]. intros ? ? [-> ->]. rewrite u32_small by lia.
  eapply tr_bind; [apply tr_bread; [done|intros ??; by rewrite Hh|rewrite Hh, Hp, !map_size_empty; unfold NBUF; lia]|].
  intros b ? [Hhb ->]. unfold logical. rewrite Hp, lookup_empty, Hi. cbn [default].
  eapply tr_bind; [eapply tr_read_data, lookup_insert_eq|]. intros ? ? [-> ->].
  eapply tr_bind; [apply tr_write_log|]. intros [] ? ->.
  set (lg := (a_log α) <| lh_n := hdr_n h |>).
  set (F := λ i, α <| a_cache ::= hold b s (Some h) |> <| a_log := load_blocks h i lg |>).
  change (α <| a_cache ::= _ |> <| a_log ::= _ |>) with (F 0%nat).
  eapply tr_bind.
  { eapply tr_bind; [apply tr_read_log; exact Hn|]. intros ? ? [-> ->]. rewrite Nat2Z.id.
    apply (tr_for_seq p (length bl) _ F). intros i Hlt. change (Z.to_nat LOGBLOCKS) with 30%nat.
    rewrite (proj2 (Nat.ltb_lt i 30)) by lia. eapply tr_mono; [apply tr_write_log|].
    intros [] ? ->. unfold F. by rewrite load_blocks_S. }
  intros [] ? ->. eapply tr_mono; [eapply (tr_brelse p _ b s h); [apply lookup_insert_eq|done]|].
  intros [] ? ->. destruct (load_blocks_same h (length bl) lg) as (E1 & E2 & E3 & E4 & E5).
  split_and!.
  - change (log_at s bl (load_blocks h (length bl) lg)). split; [by rewrite E2|by rewrite E3|by rewrite E1|]. intros i bi Ei. pose proof (lookup_lt_Some _ _ _ Ei).
    rewrite load_blocks_get; [by apply Hbk| |done]. change (length (lh_block lg)) with (length (lh_block (a_log α))).
    rewrite Hl. change (Z.to_nat LOGBLOCKS) with 30%nat. lia.
  - transitivity (α <| a_log := load_blocks h (length bl) lg |>
      <| a_cache := released b s h (hold b s (Some h) (a_cache α)) |>); [done|].
    rewrite cache_release1; [done..|by rewrite Hp].
  - exact (eq_trans E4 Hl).
  - exact E5.
Qed.

Lemma recover_spec α h :
  lg_start (a_log α) = s -> lg_dev (a_log α) = ROOTDEV -> length (lh_block (a_log α)) = Z.to_nat LOGBLOCKS ->
  a_cache α = mk_cache ∅ ∅ -> a_image α !!! s = h -> header_names bl h ->
  (∀ i d, ds !! i = Some d -> a_image α !!! (s + Z.of_nat i + 1) = d) ->
  tr p α recover_from_log (λ _ α', log_at s [] (a_log α') ∧ length (lh_block (a_log α')) = Z.to_nat LOGBLOCKS ∧
    idle (a_log α') = idle (a_log α) ∧ α' = (puts (zip bl ds ++ [(s, header [] h)]) α) <| a_log := a_log α' |>).
Proof.
  intros Hs Hd Hl Hc Hi Hnm Hds. pose proof (ho_start s bl Hb) as Hst.
  assert (0 <= s < 2 ^ 31) as Hsr by (change LOGBLOCKS with 30 in *; lia).
  unfold recover_from_log. eapply tr_bind; [apply (read_head_spec α h); try done; by rewrite Hc|].
  intros [] α1 (Hl1 & E1 & Hlen1 & Hidle1). remember (a_log α1) as lg1 eqn:Elg. clear Elg. subst α1.
  set (α1 := α <| a_log := lg1 |>).
  eapply tr_bind; [apply (install_trans_spec α1 true); [done|exact (f_equal held Hc)|exact (f_equal ilk Hc)|exact (f_equal pins Hc)|exact Hds]|].
  intros [] ? ->. eapply tr_bind; [apply tr_write_log|]. intros [] ? ->.
  set (α2 := (puts (zip bl ds) α1) <| a_cache := mk_cache ∅ ∅ |> <| a_log ::= λ l, l <| lh_n := 0 |> |>).
  assert (a_log α2 = lg1 <| lh_n := 0 |>) as El by (unfold α2; cbn; by rewrite puts_log).
  assert (a_image α2 !!! s = h) as Ei.
  { unfold α2. cbn. rewrite puts_image, written_notin by (intros H%zip_keys; change LOGBLOCKS with 30 in *; lia).
    done. }
  destruct Hl1 as [L1 L2 L3 L4].
  eapply tr_mono; [apply (write_head_spec [] α2);
    [rewrite El; by split|done|done|done|cbn; rewrite map_size_empty; unfold NBUF; lia]|].
  intros [] ? ->. rewrite Ei. change (a_log (put s (header [] h) α2)) with (a_log α2). rewrite El.
  split_and!; [by split|done|done|]. rewrite puts_app. unfold α2. rewrite !puts_eq, <- Hc. done.
Qed.
End log2.
