(* ===== verification/Txn.v ===== *)
(** * Atomic transactions

    A file system operation is a sequence of block updates between [begin_op]
    and [end_op].  [transaction_atomic] joins the whole storage stack: whatever
    prefix of the block writes of such a sequence reaches the disk before a
    crash, also if the last block is only half written, running [initlog] on
    that disk makes either all of the updates or none of them visible. *)
From S2P Require Import Prelude Layout KState Spinlock CString Vm Proc Uart Sleeplock Virtio Bio.
From S2P Require Import Log SchedEq Demo FsView Disk Bcache LogSpec.

(** Between transactions: the header, in memory and on the disk, is empty and
    no block is pinned. *)
Record quiet (s : Z) (α : astate) : Prop := {
  qu_log : log_at s [] (a_log α);
  qu_cap : length (lh_block (a_log α)) = Z.to_nat LOGBLOCKS;
  qu_out : lg_outstanding (a_log α) = 0;
  qu_comm : lg_committing (a_log α) = 0;
  qu_cache : a_cache α = mk_cache ∅ ∅;
}.

(** [o] operations are in progress and have written the blocks [bl]. *)
Record in_tx (s o : Z) (bl : list Z) (α : astate) : Prop := {
  it_log : log_at s bl (a_log α);
  it_cap : length (lh_block (a_log α)) = Z.to_nat LOGBLOCKS;
  it_out : lg_outstanding (a_log α) = o;
  it_comm : lg_committing (a_log α) = 0;
  it_homes : homes s bl;
  it_pins : dom (pins (a_cache α)) = list_to_set bl;
}.

(** What the operations of a transaction leave alone. *)
Definition same_disk (α α' : astate) : Prop :=
  a_image α' = a_image α ∧ a_writes α' = a_writes α ∧ a_other α' = a_other α.

Section txn.
Context {W : World} {DW : DiskWorld W} (p : nat) (s : Z).

Lemma tr_acquire ls l α : l ∈ static_locks -> (∀ i, l ≠ LkProc i) -> l ∉ ls -> (length ls < 4)%nat ->
  trl p ls α (acquire l) (l :: ls) (λ x α', x = () ∧ α' = α).
Proof. intros. apply tr_same. intros v. by apply vq_acquire. Qed.
Lemma tr_release ls l α : trl p (l :: ls) α (release l) ls (λ x α', x = () ∧ α' = α).
Proof. apply tr_same. intros v. apply vq_release. Qed.
Lemma tr_wakeup ls ch α : trl p ls α (wakeup ch) ls (λ x α', x = () ∧ α' = α).
Proof. apply tr_same. intros v. apply vq_wakeup. Qed.
Lemma tr_loop_done {A} ls ls' n (body : M (option A)) α Q :
  trl p ls α body ls' (λ r α', ∃ a, r = Some a ∧ Q a α') -> (0 < n)%nat -> trl p ls α (loop n body) ls' Q.
Proof.
  intros Hb Hn v Hv. destruct (Hb v Hv) as (r & v' & α' & Hq & Hv' & a & -> & HQ).
  exists a, v', α'. split; [|done]. by apply vq_loop_done.
Qed.

Lemma tr_lock_log {A} α (m : M A) ls' Q :
  trl p [LkLog] α m ls' Q -> trl p [] α (acquire LkLog ;; m) ls' Q.
Proof.
  intros Hm. eapply tr_bind; [apply tr_acquire; [by apply static_lock|done|apply not_elem_of_nil|cbn; lia]|].
  by intros [] ? [_ ->].
Qed.

Lemma quiet_in_tx α : 0 <= s ∧ s + LOGBLOCKS < 2 ^ 31 -> quiet s α -> in_tx s 0 [] α.
Proof.
  intros Hs [Hl Hcap Ho Hc Hca]. split; try done.
  - split; try done; [apply NoDup_nil_2|by intros b ?%not_elem_of_nil..|cbn; lia].
  - rewrite Hca. apply dom_empty_L.
Qed.

(** [begin_op] does not wait if the log has room for one more operation. *)
Lemma begin_op_spec o bl α :
  in_tx s o bl α -> 0 <= o -> Z.of_nat (length bl) + (o + 1) * MAXOPBLOCKS <= LOGBLOCKS ->
  tr p α begin_op (λ _ α', in_tx s (o + 1) bl α' ∧ same_disk α α' ∧ a_cache α' = a_cache α).
Proof.
  intros [Hl Hcap Ho Hc Hh Hp] Hpos Hroom. pose proof disk_fuel. unfold begin_op. apply tr_lock_log.
  apply tr_loop_done; [|lia]. eapply tr_bind; [by apply (tr_read_log p _ _ id)|]. intros ? ? [-> ->].
  unfold id. rewrite Hc. change (negb (0 =? 0)) with false. cbv iota. destruct Hl as [H1 H2 H3 H4].
  rewrite H3, Ho. replace (LOGBLOCKS <? Z.of_nat (length bl) + (o + 1) * MAXOPBLOCKS) with false by lia.
  eapply tr_bind; [apply tr_write_log|]. intros [] ? ->.
  eapply tr_bind; [apply tr_release|]. intros [] ? [_ ->]. apply tr_ret. exists (). split; [done|].
  split; [|done]. split; try done. cbn. rewrite Ho, i32_small; [done|].
  change LOGBLOCKS with 30 in Hroom. change MAXOPBLOCKS with 10 in Hroom. lia.
Qed.

(** [log_find] finds the block, or the first free entry. *)
Lemma log_find_spec bl lg bno :
  log_at s bl lg -> (∀ b, b ∈ bl -> 0 <= b < 2 ^ 31) -> NoDup bl -> 0 <= bno < 2 ^ 31 ->
  (∃ i, bl !! i = Some bno ∧ log_find bno lg = i) ∨ ((bno ∉ bl) ∧ log_find bno lg = length bl).
Proof.
  intros [_ _ Hn Hbk] Hr Hnd Hbno. unfold log_find. rewrite Hn, Nat2Z.id.
  set (P := λ i, u32 (lh_block lg !!! i) = bno).
  assert (∀ i b, bl !! i = Some b -> P i <-> b = bno) as HP.
  { intros i b Ei. unfold P. rewrite (Hbk i b Ei), u32_small; [done|].
    assert (0 <= b < 2 ^ 31) by (apply Hr; by eapply list_elem_of_lookup_2). lia. }
  destruct (filter P (seq 0 (length bl))) as [|i l] eqn:E.
  - right. split; [|done]. intros (i & Ei)%list_elem_of_lookup_1.
    assert (i ∈ filter P (seq 0 (length bl))) as Hin.
    { apply list_elem_of_filter. split; [by apply (HP i bno)|]. apply lookup_lt_Some in Ei.
      rewrite elem_of_seq. lia. }
    rewrite E in Hin. by apply not_elem_of_nil in Hin.
  - left. assert (i ∈ filter P (seq 0 (length bl))) as [HPi Hi]%list_elem_of_filter by (rewrite E; by left).
    apply elem_of_seq in Hi. destruct (lookup_lt_is_Some_2 bl i ltac:(lia)) as [b Eb].
    apply (HP i b Eb) in HPi as ->. exists i. done.
Qed.

Lemma tr_read_bno ls α b bno d :
  held (a_cache α) !! b = Some (bno, d) -> trl p ls α (read_buf b b_blockno) ls (λ x α', x = bno ∧ α' = α).
Proof.
  intros Hh v Hv. exists bno, v, α. split; [|done]. apply vq_read_buf_as.
  pose proof (rel_cache _ _ Hv) as Hc. assert (b < NBUF)%nat as Hb by (apply (bc_held _ _ Hc); by eexists).
  destruct (bc_buf _ _ Hc b Hb) as [_ _ _ Ho _ _]. by destruct (Ho _ _ Hh) as (_ & ? & _).
Qed.
Lemma tr_bpin ls α b bno data :
  held (a_cache α) !! b = Some (bno, Some data) -> pins (a_cache α) !! bno = None ->
  LkBcache ∉ ls -> (length ls < 4)%nat ->
  trl p ls α (bpin b) ls (λ _ α', α' = α <| a_cache ::= λ c, c <| pins ::= <[bno := data]> |> |>).
Proof.
  intros Hh Hp Hls Hlen v Hv. pose proof Hv as [Hc _ _ _ _].
  destruct (bpin_spec p (a_cache α) v ls b bno data Hc Hh Hp Hls Hlen) as (v' & Hq & Hc' & Hr & Hd).
  exists (), v'. eexists. split; [done|]. split; [|reflexivity]. by apply (rel_step _ α v).
Qed.

(** [log_write] records the block once. *)
Lemma log_write_spec o bl α b bno data :
  in_tx s o bl α -> 1 <= o -> held (a_cache α) !! b = Some (bno, Some data) ->
  0 <= bno < 2 ^ 31 -> ¬ (s <= bno <= s + LOGBLOCKS) -> (length bl < 30)%nat ->
  tr p α (log_write b) (λ _ α', ∃ bl', in_tx s o bl' α' ∧ same_disk α α' ∧ (length bl' <= S (length bl))%nat ∧
    held (a_cache α') = held (a_cache α) ∧ ilk (a_cache α') = ilk (a_cache α) ∧
    pins (a_cache α') = (if decide (bno ∈ bl) then pins (a_cache α) else <[bno := data]> (pins (a_cache α)))).
Proof.
  intros [Hl Hcap Ho Hc Hh Hp] Hpos Hb Hr Hout Hlen. pose proof Hl as [H1 H2 H3 H4].
  unfold log_write. apply tr_lock_log. eapply tr_bind; [by apply (tr_read_log p _ _ id)|].
  intros ? ? [-> ->]. unfold id. rewrite H3, Ho.
  replace (LOGBLOCKS <=? Z.of_nat (length bl)) with false
    by (symmetry; apply Z.leb_gt; change LOGBLOCKS with 30; lia).
  replace (o <? 1) with false by lia.
  eapply tr_bind; [by eapply tr_read_bno|]. intros ? ? [-> ->].
  eapply tr_bind; [apply tr_write_log|]. intros [] ? ->. rewrite i32_small by lia.
  destruct (log_find_spec bl (a_log α) bno Hl) as [(i & Ei & ->)|[Hni ->]]; [apply Hh|apply Hh|done|..].
  - pose proof (lookup_lt_Some _ _ _ Ei) as Hi.
    assert (upd i (λ _, bno) (lh_block (a_log α)) = lh_block (a_log α)) as Eu.
    { apply upd_id; [rewrite Hcap; change (Z.to_nat LOGBLOCKS) with 30%nat; lia|]. symmetry. by apply H4. }
    replace (Z.of_nat i =? Z.of_nat (length bl)) with false by (symmetry; apply Z.eqb_neq; lia). cbn [when].
    eapply tr_bind; [by apply (tr_ret p _ _ _ (λ _ α', α' = α <| a_log ::= λ l, l <| lh_block ::= upd i (λ _, bno) |> |>))|].
    intros [] ? ->. eapply tr_mono; [apply tr_release|]. intros [] ? [_ ->].
    exists bl. assert (bno ∈ bl) as Hin by (by eapply list_elem_of_lookup_2).
    rewrite decide_True by done. split_and!; try done; [|lia].
    unfold set, set_a_log, set_lh_block. cbn. rewrite Eu. done.
  - rewrite Z.eqb_refl. cbn [when].
    assert (pins (a_cache α) !! bno = None) as Hpn
      by (apply not_elem_of_dom; rewrite Hp; by rewrite elem_of_list_to_set).
    eapply tr_bind.
    { eapply tr_bind; [eapply (tr_bpin [LkLog] _ b bno data); [done|done|set_solver|cbn; lia]|]. intros [] ? ->.
      apply tr_write_log. }
    intros [] ? ->. eapply tr_mono; [apply tr_release|]. intros [] ? [_ ->].
    exists (bl ++ [bno]). rewrite decide_False by done.
    assert (length (bl ++ [bno]) = S (length bl)) as El by (rewrite length_app; cbn; lia).
    split_and!; try done; [|lia]. split; cbn; try done.
    + split; cbn; try done.
      * rewrite H3, El, i32_small by lia. lia.
      * intros j bj [Ej|[Hj Ej]]%lookup_app_Some.
        -- rewrite upd_ne by (apply lookup_lt_Some in Ej; lia). by apply H4.
        -- apply list_lookup_singleton_Some in Ej as [Ej <-]. replace j with (length bl) by lia.
           apply upd_eq. rewrite Hcap. change (Z.to_nat LOGBLOCKS) with 30%nat. lia.
    + by rewrite length_upd.
    + destruct Hh as [Hnd Hra Hho Hst Hle]. split; [|..|done|lia].
      * apply NoDup_app. split_and!; [done| |apply NoDup_singleton]. intros x Hx ->%list_elem_of_singleton. done.
      * intros x [Hx| ->%list_elem_of_singleton]%elem_of_app; [by apply Hra|done].
      * intros x [Hx| ->%list_elem_of_singleton]%elem_of_app; [by apply Hho|done].
    + rewrite dom_insert_L, Hp, list_to_set_app_L. cbn. set_solver.
Qed.

(** ** The updates of a transaction *)

(** Read a block, change its data, log it and release it. *)
Definition update (u : Z * (list Z -> list Z)) : M () :=
  b ← bread ROOTDEV u.1;
  write_buf b (λ r, r <| b_data ::= u.2 |>) ;;
  log_write b ;;
  brelse b.
Definition transaction (us : list (Z * (list Z -> list Z))) : M () :=
  begin_op ;;
  for_each us update ;;
  end_op.
(** The updates' effect on the data [x] of block [b]. *)
Definition applied (us : list (Z * (list Z -> list Z))) (b : Z) (x : list Z) : list Z :=
  foldl (λ x u, if decide (u.1 = b) then u.2 x else x) x us.

Lemma in_tx_size o bl α : in_tx s o bl α -> size (pins (a_cache α)) = length bl.
Proof.
  intros [_ _ _ _ [Hnd _ _ _ _] Hp]. rewrite <- size_dom, Hp. by apply size_list_to_set.
Qed.

Lemma update_spec o bl α bno f :
  in_tx s o bl α -> 1 <= o -> held (a_cache α) = ∅ -> ilk (a_cache α) = ∅ -> 0 <= bno < 2 ^ 31 -> ¬ (s <= bno <= s + LOGBLOCKS) ->
  (length bl < 30)%nat ->
  tr p α (update (bno, f)) (λ _ α', ∃ bl', in_tx s o bl' α' ∧ same_disk α α' ∧ (length bl' <= S (length bl))%nat ∧
    a_cache α' = mk_cache ∅ (<[bno := f (logical α bno)]> (pins (a_cache α)))).
Proof.
  intros Ht Hpos Hh Hlk Hr Hout Hlen. pose proof (in_tx_size o bl α Ht) as Hsz. unfold update. cbn [fst snd].
  eapply tr_bind; [apply tr_bread; [done|intros ??; by rewrite Hh|rewrite Hh, map_size_empty, Hsz; unfold NBUF; lia]|].
  intros b ? [Hb ->]. eapply tr_bind; [eapply tr_write_data, lookup_insert_eq|]. intros [] ? ->.
  set (x := f (logical α bno)).
  eapply tr_bind; [apply (log_write_spec o bl _ b bno x)|]; try done.
  { destruct Ht. by split. }
  { apply lookup_insert_eq. }
  intros [] α1 (bl' & Ht1 & (E1 & E2 & E3) & Hl1 & Hh1 & Hlk1 & Hp1).
  cbn in Hh1. rewrite insert_insert_eq in Hh1. cbn in Hp1.
  assert (held (a_cache α1) !! b = Some (bno, Some x)) as Hb1 by (rewrite Hh1; apply lookup_insert_eq).
  assert (is_Some (pins (a_cache α1) !! bno)) as Hpi.
  { rewrite Hp1. case_decide as Hin; [|rewrite lookup_insert_eq; by eexists].
    apply elem_of_dom. destruct Ht as [_ _ _ _ _ ->]. by apply elem_of_list_to_set. }
  eapply tr_mono; [apply (tr_brelse p _ b bno x Hb1)|].
  { intros E. rewrite E in Hpi. by destruct Hpi. }
  intros [] ? ->. exists bl'. split_and!; try done.
  - destruct Ht1 as [H1 H2 H3 H4 H5 H6]. split; try done. cbn. by rewrite dom_alter_L.
  - cbn. unfold released, set, set_held, set_pins. cbn. f_equal.
    + rewrite Hh1, Hh. by apply delete_insert_id.
    + rewrite Hp1. case_decide as Hin; [|by rewrite alter_insert_eq].
      apply map_eq. intros i. destruct (decide (i = bno)) as [->|];
        [|by rewrite lookup_alter_ne, lookup_insert_ne by done].
      rewrite lookup_alter_eq, lookup_insert_eq. rewrite Hp1 in Hpi.
      destruct Hpi as [y ->]. done.
    + by rewrite Hlk1.
Qed.

Lemma updates_spec us o bl α :
  in_tx s o bl α -> 1 <= o -> held (a_cache α) = ∅ -> ilk (a_cache α) = ∅ ->
  Forall (λ u, 0 <= u.1 < 2 ^ 31 ∧ ¬ (s <= u.1 <= s + LOGBLOCKS)) us -> (length bl + length us <= 30)%nat ->
  tr p α (for_each us update) (λ _ α', ∃ bl', in_tx s o bl' α' ∧ same_disk α α' ∧ (held (a_cache α') = ∅ ∧ ilk (a_cache α') = ∅) ∧
    (length bl' <= length bl + length us)%nat ∧ (∀ b, b ∈ bl' <-> b ∈ bl ∨ b ∈ us.*1) ∧
    ∀ b, logical α' b = applied us b (logical α b)).
Proof.
  revert bl α. induction us as [|[bno f] us IH]; intros bl α Ht Hpos Hh Hlk Hus Hlen.
  - apply tr_ret. exists bl. split_and!; try done; try (cbn; lia). intros b. cbn. rewrite elem_of_nil. tauto.
  - apply Forall_cons in Hus as [[Hr Ho] Hus]. cbn in Hr, Ho, Hlen. cbn [for_each].
    eapply tr_bind; [apply (update_spec o bl α bno f); try done; lia|].
    intros [] α1 (bl1 & Ht1 & (E1 & E2 & E3) & Hl1 & Hc1).
    eapply tr_mono; [apply (IH bl1 α1); try done; [by rewrite Hc1|by rewrite Hc1|lia]|].
    intros [] α2 (bl2 & Ht2 & (E4 & E5 & E6) & [Hh2 Hlk2] & Hl2 & Hin & Hlog). exists bl2. split_and!; try done.
    + split_and!; congruence.
    + cbn. lia.
    + assert (∀ b, b ∈ bl1 <-> b = bno ∨ b ∈ bl) as Hin1.
      { intros b. rewrite <- !(elem_of_list_to_set (C := gset Z)).
        rewrite <- (it_pins _ _ _ _ Ht1), <- (it_pins _ _ _ _ Ht), Hc1. cbn.
        by rewrite dom_insert_L, elem_of_union, elem_of_singleton. }
      intros b. rewrite Hin, Hin1. cbn. rewrite elem_of_cons. tauto.
    + intros b. rewrite Hlog. cbn. f_equal. unfold logical. rewrite Hc1, E1. cbn.
      case_decide as E; [subst b; by rewrite lookup_insert_eq|by rewrite lookup_insert_ne].
Qed.

(** ** Committing *)

(** The data to be committed, in the order of the header. *)
Definition tx_data (bl : list Z) (P : gmap Z (list Z)) : list (list Z) := (λ b, P !!! b) <$> bl.
Lemma tx_data_map bl (P : gmap Z (list Z)) :
  NoDup bl -> dom P = list_to_set bl -> P = list_to_map (zip bl (tx_data bl P)).
Proof.
  intros Hnd Hd. unfold tx_data. apply map_eq. intros b.
  assert (zip bl ((λ b, P !!! b) <$> bl) = (λ b, (b, P !!! b)) <$> bl) as Ez.
  { clear. induction bl as [|x bl IH]; [done|]. cbn. by rewrite IH. }
  rewrite Ez. destruct (P !! b) as [d|] eqn:E; symmetry.
  - apply elem_of_list_to_map_1; [rewrite <- list_fmap_compose; by rewrite list_fmap_id|].
    apply list_elem_of_fmap. exists b. rewrite (lookup_total_correct _ _ _ E). split; [done|].
    assert (b ∈ dom P) as Hb by (apply elem_of_dom; by eexists). rewrite Hd in Hb. by apply elem_of_list_to_set in Hb.
  - apply not_elem_of_list_to_map_1. rewrite <- list_fmap_compose. unfold compose. cbn. rewrite list_fmap_id.
    intros Hb. assert (b ∈ dom P) as Hin by (rewrite Hd; by apply elem_of_list_to_set).
    apply elem_of_dom in Hin as [? ?]. congruence.
Qed.

Lemma end_op_spec bl α :
  in_tx s 1 bl α -> held (a_cache α) = ∅ -> ilk (a_cache α) = ∅ -> (length bl <= 28)%nat ->
  tr p α end_op (λ _ α', quiet s α' ∧ ∃ T,
    T = (if decide (bl = []) then [] else commit_trace s bl (tx_data bl (pins (a_cache α))) (a_image α !!! s)) ∧
    a_image α' = written T (a_image α) ∧ a_writes α' = a_writes α ++ T ∧ a_other α' = a_other α).
Proof.
  intros [Hl Hcap Ho Hc Hh Hp] Hhe Hlk Hsm. unfold end_op. apply tr_lock_log.
  eapply tr_bind; [apply tr_write_log|]. intros [] ? ->.
  eapply tr_bind; [apply tr_read_log; exact Hc|]. intros ? ? [-> ->]. cbn [negb Z.eqb].
  eapply tr_bind; [apply (tr_read_log p _ _ _ 0); cbn; by rewrite Ho|]. intros ? ? [-> ->]. cbn [Z.eqb].
  set (α1 := α <| a_log ::= λ l, l <| lg_outstanding := i32 (lg_outstanding l - 1) |> |>
               <| a_log ::= λ l, l <| lg_committing := 1 |> |>).
  eapply (tr_bind p _ _ _ _ _ _ (λ x α', x = true ∧ α' = α1)).
  { eapply tr_bind; [apply tr_write_log|]. intros [] ? ->. by apply tr_ret. }
  intros ? ? [-> ->]. eapply tr_bind; [apply tr_release|]. intros [] ? [_ ->]. cbn [when].
  set (T := if decide (bl = []) then [] else _).
  assert (log_at s bl (a_log α1)) as Hl1 by (by destruct Hl).
  assert (i32 (lg_outstanding (a_log α) - 1) = 0) as E0 by (by rewrite Ho).
  eapply (tr_bind p [] [] [] _ _ _ (λ _ α', a_log α' = (a_log α1) <| lh_n := 0 |> ∧ a_cache α' = mk_cache ∅ ∅ ∧
    a_image α' = written T (a_image α) ∧ a_writes α' = a_writes α ++ T ∧ a_other α' = a_other α)).
  - unfold T. case_decide as Ebl.
    + subst bl. unfold commit. eapply tr_bind; [apply (tr_read_log p _ _ _ 0); apply Hl1|]. intros ? ? [-> ->].
      apply tr_ret. rewrite app_nil_r. split_and!; try done.
      * destruct Hl as [_ _ E _]. unfold α1, set, set_a_log, set_lh_n. destruct (a_log α). cbn in *. by subst.
      * cbn. destruct (a_cache α) as [h P lk]. cbn in *. subst h lk. f_equal. by apply dom_empty_inv_L.
    + eapply tr_mono; [apply (commit_spec p s bl (tx_data bl (pins (a_cache α)))); try done|].
      * unfold tx_data. by rewrite length_fmap.
      * cbn. by apply tx_data_map; [apply Hh|].
      * intros [] ? ->. cbn. by rewrite !puts_eq.
  - intros [] α2 (L2 & C2 & I2 & W2 & O2). apply tr_lock_log.
    eapply tr_bind; [apply tr_write_log|]. intros [] ? ->. eapply tr_bind; [apply tr_wakeup|].
    intros [] ? [_ ->]. eapply tr_mono; [apply tr_release|]. intros [] ? [_ ->].
    split; [|exists T; done]. destruct Hl as [H1 H2 H3 H4].
    split; cbn; rewrite ?L2; done.
Qed.

(** A transaction on a quiet log. *)
Lemma transaction_spec us α :
  0 <= s ∧ s + LOGBLOCKS < 2 ^ 31 -> quiet s α ->
  Forall (λ u, 0 <= u.1 < 2 ^ 31 ∧ ¬ (s <= u.1 <= s + LOGBLOCKS)) us -> (length us <= 28)%nat ->
  tr p α (transaction us) (λ _ α', quiet s α' ∧ ∃ bl ds,
    homes s bl ∧ length ds = length bl ∧ (length bl <= 28)%nat ∧
    (∀ b, default (a_image α !!! b) ((list_to_map (zip bl ds) : gmap Z (list Z)) !! b) =
          applied us b (a_image α !!! b)) ∧
    let T := if decide (bl = []) then [] else commit_trace s bl ds (a_image α !!! s) in
    a_image α' = written T (a_image α) ∧ a_writes α' = a_writes α ++ T ∧ a_other α' = a_other α).
Proof.
  intros Hs Hq Hus Hlen. unfold transaction.
  eapply tr_bind; [apply (begin_op_spec 0 []); [by apply quiet_in_tx|lia|done]|].
  intros [] α1 (Ht1 & (E1 & E2 & E3) & C1). assert (a_cache α = mk_cache ∅ ∅) as C0 by apply Hq.
  eapply tr_bind; [apply (updates_spec us 1 [] α1); try done; [by rewrite C1, C0|by rewrite C1, C0|cbn; lia]|].
  intros [] α2 (bl & Ht2 & (E4 & E5 & E6) & [Hh2 Hlk2] & Hl2 & _ & Hlog).
  eapply tr_mono; [apply (end_op_spec bl); try done; cbn in Hl2; lia|].
  intros [] α3 (Hq3 & T & -> & I3 & W3 & O3). split; [done|].
  exists bl, (tx_data bl (pins (a_cache α2))). destruct Ht2 as [_ _ _ _ Hh Hp].
  rewrite E4, E1 in I3. rewrite E4, E1, E5, E2 in W3. split_and!; try done.
  - unfold tx_data. by rewrite length_fmap.
  - cbn in Hl2. lia.
  - intros b. rewrite <- tx_data_map by (done || apply Hh). specialize (Hlog b). unfold logical in Hlog.
    rewrite E4, E1, C1, C0 in Hlog. exact Hlog.
  - congruence.
Qed.
End txn.

(** ** Crashes *)

(** A block of two sectors of which some were written. *)
Definition torn (first second : bool) (old new : list Z) : list Z :=
  take 512 (if first then new else old) ++ drop 512 (if second then new else old).
(** The disk when the first [n] of the writes [T] are done and the sectors
    [first] and [second] of the next. *)
Definition crash_image (T : list (Z * list Z)) (n : nat) (first second : bool)
    (img : gmap Z (list Z)) : gmap Z (list Z) :=
  let img' := written (take n T) img in
  match T !! n with
  | Some (b, d) => <[b := torn first second (img' !!! b) d]> img'
  | None => img'
  end.

(** The header is within the first sector. *)
Lemma get_le_prefix n off l l' :
  (n + off <= 512)%nat -> take 512 l = take 512 l' -> get_le n off l = get_le n off l'.
Proof.
  intros Hn E. unfold get_le. f_equal.
  assert (∀ x : list Z, take n (drop off x) = take n (drop off (take 512 x))) as H.
  { intros x. apply list_eq. intros i. destruct (decide (i < n)%nat); [|by rewrite !lookup_take_ge by lia].
    rewrite !lookup_take_lt, !lookup_drop by done. by rewrite lookup_take_lt by lia. }
  by rewrite H, E, <- H.
Qed.
Lemma header_names_prefix bl h h' :
  (length bl <= 30)%nat -> take 512 h = take 512 h' -> header_names bl h -> header_names bl h'.
Proof.
  intros Hl E [Hn Hb]. split.
  - rewrite <- Hn. unfold hdr_n. by rewrite (get_le_prefix 4 0 h' h) by (lia || done).
  - intros i b Ei. rewrite <- (Hb i b Ei). unfold hdr_block. apply lookup_lt_Some in Ei.
    by rewrite (get_le_prefix 4 (4 + 4 * i) h' h) by (lia || done).
Qed.
Lemma torn_prefix f1 f2 old new :
  (512 <= length old)%nat -> (512 <= length new)%nat ->
  take 512 (torn f1 f2 old new) = take 512 (if f1 then new else old).
Proof.
  intros. unfold torn. rewrite take_app_length'; [done|]. destruct f1; rewrite length_take; lia.
Qed.

Lemma written_zip bl ds (img : gmap Z (list Z)) b :
  NoDup bl -> length ds = length bl ->
  written (zip bl ds) img !!! b = default (img !!! b) ((list_to_map (zip bl ds) : gmap Z (list Z)) !! b).
Proof.
  intros Hnd Hl. destruct (list_to_map (zip bl ds) !! b) as [d|] eqn:E; cbn.
  - apply written_in; [by rewrite fst_zip by lia|]. by apply elem_of_list_to_map_2 in E.
  - apply written_notin. by apply not_elem_of_list_to_map_2 in E.
Qed.

(** The blocks outside the log. *)
Definition home (s b : Z) : Prop := ¬ (s <= b <= s + LOGBLOCKS).
Lemma start_in s : s <= s <= s + LOGBLOCKS.
Proof. change LOGBLOCKS with 30. lia. Qed.
Lemma start_not_home s : ¬ home s s.
Proof. intros H. apply H, start_in. Qed.
Lemma home_ne s b : home s b -> b ≠ s.
Proof. intros Hhm ->. by apply (start_not_home s). Qed.

Section crash.
Context (s : Z) (bl : list Z) (ds : list (list Z)) (Hb : homes s bl) (Hlen : length ds = length bl).
Context (img : gmap Z (list Z)) (Hh0 : header_names [] (img !!! s)) (Hl0 : length (img !!! s) = 1024%nat).
Let h1 := header bl (img !!! s).
Let h2 := header [] h1.
Definition new_data (b : Z) : list Z :=
  default (img !!! b) ((list_to_map (zip bl ds) : gmap Z (list Z)) !! b).

(** What recovery may find: an empty header over the old or the new blocks, or
    a full header and log. *)
Definition recoverable (I : gmap Z (list Z)) : Prop :=
  (header_names [] (I !!! s) ∧ ∀ b, home s b -> I !!! b = img !!! b) ∨
  (header_names [] (I !!! s) ∧ ∀ b, home s b -> I !!! b = new_data b) ∨
  (header_names bl (I !!! s) ∧ (∀ i d, ds !! i = Some d -> I !!! (s + Z.of_nat i + 1) = d) ∧
   ∀ b, home s b -> b ∉ bl -> I !!! b = img !!! b).


Lemma h1_names : header_names bl h1 ∧ length h1 = 1024%nat.
Proof.
  pose proof (ho_len s bl Hb). split; [apply (header_header_names s); [lia|done]|].
  unfold h1. rewrite length_header; lia.
Qed.
Lemma h2_names : header_names [] h2 ∧ length h2 = 1024%nat.
Proof.
  destruct h1_names as [_ El]. split; [|unfold h2; rewrite length_header; cbn; lia].
  split; [apply header_n; cbn; lia|done].
Qed.

(** Writing the log touches no home s block, and installing no block of the log. *)
Lemma logged_home n b X : home s b -> written (take n (logged s ds)) X !!! b = X !!! b.
Proof.
  intros Hhm. apply written_notin. intros Hin. apply Hhm.
  assert (b ∈ (logged s ds).*1) as H%(logged_keys s bl ds Hb Hlen); [|lia].
  rewrite fmap_take in Hin. eapply elem_of_submseteq; [done|]. apply sublist_submseteq, sublist_take.
Qed.
Lemma logged_start n X : written (take n (logged s ds)) X !!! s = X !!! s.
Proof.
  apply written_notin. intros Hin.
  assert (s ∈ (logged s ds).*1) as H%(logged_keys s bl ds Hb Hlen); [|lia].
  rewrite fmap_take in Hin. eapply elem_of_submseteq; [done|]. apply sublist_submseteq, sublist_take.
Qed.
Lemma logged_data i d X : ds !! i = Some d -> written (logged s ds) X !!! (s + Z.of_nat i + 1) = d.
Proof.
  intros Ei. apply written_in; [by apply (logged_nodup s bl)|]. eapply list_elem_of_lookup_2. by apply logged_lookup.
Qed.
Lemma install_log n b X : ¬ home s b -> written (take n (zip bl ds)) X !!! b = X !!! b.
Proof.
  intros Hhm. apply written_notin. intros Hin. apply Hhm. rewrite fmap_take, fst_zip in Hin by lia.
  apply (ho_home s bl Hb). eapply elem_of_submseteq; [done|]. apply sublist_submseteq, sublist_take.
Qed.
Lemma install_other n b X : b ∉ bl -> written (take n (zip bl ds)) X !!! b = X !!! b.
Proof.
  intros Hhm. apply written_notin. intros Hin. apply Hhm. rewrite fmap_take, fst_zip in Hin by lia.
  eapply elem_of_submseteq; [done|]. apply sublist_submseteq, sublist_take.
Qed.
Lemma log_not_home i : (i < length ds)%nat -> ¬ home s (s + Z.of_nat i + 1).
Proof. pose proof (ho_len s bl Hb). intros Hi Hhm. apply Hhm. change LOGBLOCKS with 30. lia. Qed.

(** The disk in the middle of installing: any contents for the blocks of the
    transaction, everything else as after the commit point. *)
Lemma installing_recoverable I h :
  I !!! s = h -> header_names bl h ->
  (∀ i d, ds !! i = Some d -> I !!! (s + Z.of_nat i + 1) = d) ->
  (∀ b, home s b -> b ∉ bl -> I !!! b = img !!! b) -> recoverable I.
Proof. intros <- Hn Hd Ho. right. right. done. Qed.


(** The disk with the log written, and with the header. *)
Let X := written (logged s ds) img.
Let Y := <[s := h1]> X.
Lemma X_start : X !!! s = img !!! s.
Proof. unfold X. rewrite <- (take_ge (logged s ds) (length ds)) by (by rewrite logged_length). apply logged_start. Qed.
Lemma X_home b : home s b -> X !!! b = img !!! b.
Proof. unfold X. rewrite <- (take_ge (logged s ds) (length ds)) by (by rewrite logged_length). apply logged_home. Qed.
Lemma Y_other b : b ≠ s -> Y !!! b = X !!! b.
Proof. intros. by apply lookup_total_insert_ne. Qed.
Lemma Y_data i d : ds !! i = Some d -> Y !!! (s + Z.of_nat i + 1) = d.
Proof. intros Ed. rewrite Y_other by lia. by apply logged_data. Qed.
Lemma Y_home b : home s b -> Y !!! b = img !!! b.
Proof. intros Hhm. rewrite Y_other by (by apply home_ne). by apply X_home. Qed.
(** And with the first [j] blocks installed. *)
Lemma installed_log j : let I := written (take j (zip bl ds)) Y in
  I !!! s = h1 ∧ (∀ i d, ds !! i = Some d -> I !!! (s + Z.of_nat i + 1) = d) ∧
  (∀ b, home s b -> b ∉ bl -> I !!! b = img !!! b).
Proof.
  cbv zeta. split_and!.
  - rewrite install_log by apply start_not_home. apply lookup_total_insert_eq.
  - intros i d Ed. rewrite install_log by (apply log_not_home; by eapply lookup_lt_Some). by apply Y_data.
  - intros b Hhm Hb'. rewrite install_other by done. by apply Y_home.
Qed.
Lemma installed_all b : home s b -> written (zip bl ds) Y !!! b = new_data b.
Proof.
  intros Hhm. rewrite written_zip; [|apply Hb|done]. unfold new_data. by rewrite Y_home.
Qed.

Lemma crash_log n f1 f2 d : ds !! n = Some d ->
  recoverable (let img' := written (take n (logged s ds)) img in
    <[s + Z.of_nat n + 1 := torn f1 f2 (img' !!! (s + Z.of_nat n + 1)) d]> img').
Proof.
  intros Ed. cbv zeta. apply lookup_lt_Some in Ed. left. split.
  - rewrite lookup_total_insert_ne by lia. by rewrite logged_start.
  - intros b Hhm. rewrite lookup_total_insert_ne by (intros <-; by apply (log_not_home n) in Hhm).
    by apply logged_home.
Qed.

Lemma crash_header f1 f2 : recoverable (<[s := torn f1 f2 (X !!! s) h1]> X).
Proof.
  destruct h1_names as [Hn1 Hl1]. rewrite X_start.
  destruct f1; [right; right|left]; (split; [rewrite lookup_total_insert_eq|]).
  - apply (header_names_prefix bl h1); [pose proof (ho_len s bl Hb); lia| |done]. by rewrite torn_prefix by lia.
  - split; [intros i d Ed|intros b Hhm _]; rewrite lookup_total_insert_ne.
    + by apply logged_data.
    + lia.
    + by apply X_home.
    + by apply not_eq_sym, home_ne.
  - apply (header_names_prefix [] (img !!! s)); [cbn; lia| |done]. by rewrite torn_prefix by lia.
  - intros b Hhm. rewrite lookup_total_insert_ne by (by apply not_eq_sym, home_ne). by apply X_home.
Qed.

Lemma crash_install j b x : bl !! j = Some b ->
  recoverable (<[b := x]> (written (take j (zip bl ds)) Y)).
Proof.
  intros Eb. assert (b ∈ bl) as Hin by (by eapply list_elem_of_lookup_2).
  pose proof (ho_home s bl Hb b Hin) as Hhm. destruct (installed_log j) as (I1 & I2 & I3).
  destruct h1_names as [Hn1 _].
  apply (installing_recoverable _ h1); [|done|..].
  - rewrite lookup_total_insert_ne by (by apply home_ne). done.
  - intros i di Ed. rewrite lookup_total_insert_ne; [by apply I2|]. intros ->.
    apply (log_not_home i); [by eapply lookup_lt_Some|done].
  - intros b' Hhm' Hb'. rewrite lookup_total_insert_ne by (intros ->; done). by apply I3.
Qed.

Lemma crash_clear f1 f2 :
  recoverable (let I := written (zip bl ds) Y in <[s := torn f1 f2 (I !!! s) h2]> I).
Proof.
  cbv zeta. destruct (installed_log (length bl)) as (I1 & I2 & I3).
  rewrite take_ge in I1, I2, I3 by (rewrite length_zip_with; lia). rewrite I1.
  destruct h1_names as [Hn1 Hl1], h2_names as [Hn2 Hl2].
  destruct f1; [right; left; split|apply (installing_recoverable _ (torn false f2 h1 h2))].
  - rewrite lookup_total_insert_eq. apply (header_names_prefix [] h2); [cbn; lia| |done]. by rewrite torn_prefix by lia.
  - intros b Hhm. rewrite lookup_total_insert_ne by (by apply not_eq_sym, home_ne). by apply installed_all.
  - apply lookup_total_insert_eq.
  - apply (header_names_prefix bl h1); [pose proof (ho_len s bl Hb); lia| |done]. by rewrite torn_prefix by lia.
  - intros i d Ed. rewrite lookup_total_insert_ne by lia. by apply I2.
  - intros b Hhm Hb'. rewrite lookup_total_insert_ne by (by apply not_eq_sym, home_ne). by apply I3.
Qed.

Lemma crash_done : recoverable (<[s := h2]> (written (zip bl ds) Y)).
Proof.
  right. left. split; [rewrite lookup_total_insert_eq; apply h2_names|].
  intros b Hhm. rewrite lookup_total_insert_ne by (by apply not_eq_sym, home_ne). by apply installed_all.
Qed.

Lemma crash_recoverable n f1 f2 : recoverable (crash_image (commit_trace s bl ds (img !!! s)) n f1 f2 img).
Proof.
  unfold crash_image.
  change (commit_trace s bl ds (img !!! s)) with (logged s ds ++ [(s, h1)] ++ zip bl ds ++ [(s, h2)]).
  assert (length (zip bl ds) = length ds) as Ez by (rewrite length_zip_with; lia).
  pose proof (logged_length s ds) as El.
  destruct (decide (n < length ds)%nat) as [Hlt|].
  { destruct (lookup_lt_is_Some_2 ds n Hlt) as [d Ed].
    rewrite take_app_le, lookup_app_l, (logged_lookup s ds n d Ed) by lia. by apply crash_log. }
  destruct (decide (n = length ds)) as [->|].
  { rewrite <- El, take_app_length, lookup_app_r, Nat.sub_diag by lia. apply crash_header. }
  set (j := (n - S (length ds))%nat).
  replace n with (length (logged s ds ++ [(s, h1)]) + j)%nat by (rewrite length_app; cbn; lia).
  rewrite app_assoc, take_app_add, lookup_app_r, Nat.add_sub', written_app by lia.
  replace (written (logged s ds ++ [(s, h1)]) img) with Y by (by rewrite written_app).
  destruct (decide (j < length ds)%nat) as [Hj|].
  { destruct (lookup_lt_is_Some_2 bl j ltac:(lia)) as [b Eb], (lookup_lt_is_Some_2 ds j Hj) as [d Ed].
    rewrite take_app_le, lookup_app_l by lia. rewrite lookup_zip_with, Eb. cbn. rewrite Ed. cbn.
    by apply (crash_install j). }
  destruct (decide (j = length ds)) as [->|].
  { rewrite <- Ez, take_app_length, lookup_app_r, Nat.sub_diag by lia. apply crash_clear. }
  rewrite take_ge, lookup_ge_None_2 by (rewrite length_app; cbn; lia). rewrite written_app. apply crash_done.
Qed.

(** The whole commit. *)
Lemma commit_image :
  let I := written (commit_trace s bl ds (img !!! s)) img in
  header_names [] (I !!! s) ∧ length (I !!! s) = 1024%nat ∧ ∀ b, home s b -> I !!! b = new_data b.
Proof.
  cbv zeta. change (commit_trace s bl ds (img !!! s)) with (logged s ds ++ [(s, h1)] ++ zip bl ds ++ [(s, h2)]).
  rewrite !written_app. change (written [(s, h1)] (written (logged s ds) img)) with Y.
  change (written [(s, h2)] ?x) with (<[s := h2]> x). rewrite lookup_total_insert_eq.
  destruct h2_names. split_and!; [done..|]. intros b Hhm.
  rewrite lookup_total_insert_ne by (by apply not_eq_sym, home_ne). by apply installed_all.
Qed.

(** The header block keeps its size. *)
Lemma written_size l I : (∀ d, (s, d) ∈ l -> length d = 1024%nat) -> length (I !!! s) = 1024%nat ->
  length (written l I !!! s) = 1024%nat.
Proof.
  intros Hl HI. induction l as [|[b d] l IH] using rev_ind; [done|]. rewrite written_app. cbn.
  destruct (decide (b = s)) as [->|].
  - rewrite lookup_total_insert_eq. apply Hl. set_solver.
  - rewrite lookup_total_insert_ne by done. apply IH. intros d' Hd'. apply Hl. set_solver.
Qed.
Lemma commit_trace_size d : (s, d) ∈ commit_trace s bl ds (img !!! s) -> length d = 1024%nat.
Proof.
  unfold commit_trace. fold h1. fold h2. rewrite elem_of_app, elem_of_cons, elem_of_app, list_elem_of_singleton.
  intros [Hin|[[= ->]|[Hin|[= ->]]]]; [|apply h1_names| |apply h2_names]; exfalso;
    apply (list_elem_of_fmap_2 fst) in Hin; cbn in Hin.
  - apply (logged_keys s bl ds Hb Hlen) in Hin. lia.
  - apply (zip_keys s bl ds Hb Hlen) in Hin. by apply Hin, (start_in s).
Qed.
Lemma torn_size f1 f2 old new : length old = 1024%nat -> length new = 1024%nat -> length (torn f1 f2 old new) = 1024%nat.
Proof. intros. unfold torn. rewrite length_app, length_take, length_drop. destruct f1, f2; lia. Qed.
Lemma crash_size n f1 f2 :
  length (crash_image (commit_trace s bl ds (img !!! s)) n f1 f2 img !!! s) = 1024%nat.
Proof.
  unfold crash_image. set (T := commit_trace s bl ds (img !!! s)).
  assert (length (written (take n T) img !!! s) = 1024%nat) as Hw.
  { apply written_size; [|done]. intros d Hd. apply commit_trace_size.
    eapply elem_of_submseteq; [done|]. apply sublist_submseteq, sublist_take. }
  destruct (T !! n) as [[b d]|] eqn:E; [|done]. destruct (decide (b = s)) as [->|].
  - rewrite lookup_total_insert_eq. apply torn_size; [done|]. apply commit_trace_size. by eapply list_elem_of_lookup_2.
  - by rewrite lookup_total_insert_ne.
Qed.
End crash.

(** ** The theorem *)

(** The storage stack at rest, the log at block [s]. *)
Record at_rest (p : nat) (s : Z) (k : kernel) : Prop := {
  ar_runs : okh p [] k;
  ar_cache : bcache_ok (mk_cache ∅ ∅) (fsv p k);
  ar_log : log_at s [] (log k);
  ar_cap : length (lh_block (log k)) = Z.to_nat LOGBLOCKS;
  ar_out : lg_outstanding (log k) = 0;
  ar_comm : lg_committing (log k) = 0;
  ar_header : header_names [] (image k !!! s);
  ar_size : length (image k !!! s) = 1024%nat;
}.
(** A freshly booted kernel with the disk [img]. *)
Record booted (p : nat) (img : gmap Z (list Z)) (k : kernel) : Prop := {
  bo_runs : okh p [] k;
  bo_cache : bcache_ok (mk_cache ∅ ∅) (fsv p k);
  bo_cap : length (lh_block (log k)) = Z.to_nat LOGBLOCKS;
  bo_out : lg_outstanding (log k) = 0;
  bo_comm : lg_committing (log k) = 0;
  bo_image : image k = img;
}.

Section theorem.
Context {W : World} {DW : DiskWorld W} (p : nat) (s : Z).

Definition abstract (k : kernel) (c : cache) : astate :=
  mk_astate c (log k) (image k) (writes k) (sb k, itable k, user_of p k).
Lemma rel_abstract k c : bcache_ok c (fsv p k) -> rel (abstract k c) (fsv p k).
Proof. intros. by split. Qed.
Lemma rel_kernel α k : rel α (fsv p k) -> log k = a_log α ∧ image k = a_image α ∧ writes k = a_writes α.
Proof. by intros []. Qed.

(** From judgements on abstract states to the code. *)
Lemma tr_run {A} α (m : M A) Q k :
  tr p α m Q -> okh p [] k -> rel α (fsv p k) ->
  ∃ a k' α', m k = Ret a k' ∧ okh p [] k' ∧ rel α' (fsv p k') ∧ Q a α'.
Proof.
  intros Hm Hk Hv. destruct (Hm (fsv p k) Hv) as (a & v' & α' & Hq & Hr & HQ).
  destruct (Hq k Hk eq_refl) as (k' & E & Hk' & <-). by exists a, k', α'.
Qed.

Lemma vq_initlock ls l v : l ∈ static_locks -> l ∉ ls -> vq p ls (initlock l) v () ls v.
Proof.
  intros Hl Hn k Hk <-. pose proof Hk as [(m & Hm & Em) _ _ _ _ _ _ _ _ _].
  exists k. split; [|done]. unfold initlock, on_mach, Hart.initlock, modify.
  pose proof (nest_free p m Hm l ls Hl Hn) as Hf. rewrite <- Em in Hf. unfold lock_free in Hf.
  do 2 f_equal. destruct k as [mk]. cbn in *. destruct mk as [h cs rs lks]. cbn in *. unfold set, set_m_locks. cbn.
  by rewrite insert_id.
Qed.

(** [initlog] installs what the header on the disk names. *)
Lemma initlog_spec bl ds α sblk :
  i32 (sb_logstart sblk) = s -> homes s bl -> length ds = length bl -> (length bl <= 28)%nat ->
  length (lh_block (a_log α)) = Z.to_nat LOGBLOCKS ->
  lg_outstanding (a_log α) = 0 -> lg_committing (a_log α) = 0 ->
  a_cache α = mk_cache ∅ ∅ -> header_names bl (a_image α !!! s) ->
  (∀ i d, ds !! i = Some d -> a_image α !!! (s + Z.of_nat i + 1) = d) ->
  tr p α (initlog ROOTDEV sblk) (λ _ α', log_at s [] (a_log α') ∧
    length (lh_block (a_log α')) = Z.to_nat LOGBLOCKS ∧ idle (a_log α') = (0, 0) ∧
    a_cache α' = mk_cache ∅ ∅ ∧ a_image α' = written (zip bl ds ++ [(s, header [] (a_image α !!! s))]) (a_image α)).
Proof.
  intros Es Hb Hlen Hsm Hcap Ho Hc Hca Hn Hd. unfold initlog.
  change (BSIZE <=? LOGHEADER_SIZE) with false. cbv iota.
  eapply tr_bind; [apply tr_same; intros v; apply vq_initlock; [by apply static_lock|apply not_elem_of_nil]|].
  intros [] ? [_ ->]. eapply tr_bind; [apply tr_write_log|]. intros [] ? ->.
  eapply tr_bind; [apply tr_write_log|]. intros [] ? ->.
  eapply tr_mono; [by eapply (recover_spec p s bl ds Hb Hlen Hsm)|].
  intros [] α' (Hl & Hcap' & Hid & E).
  split_and!; try done; [unfold idle in Hid; cbn in Hid; by rewrite Ho, Hc in Hid|..];
    rewrite E; cbn; [by rewrite puts_cache|by rewrite puts_image].
Qed.

(** What the recovered image holds outside the log. *)
Lemma recovered_home bl ds I h b : homes s bl -> length ds = length bl -> home s b ->
  written (zip bl ds ++ [(s, h)]) I !!! b =
  default (I !!! b) ((list_to_map (zip bl ds) : gmap Z (list Z)) !! b).
Proof.
  intros Hb Hlen Hhm. rewrite written_app. cbn.
  rewrite lookup_total_insert_ne by (apply not_eq_sym; by apply home_ne).
  apply written_zip; [apply Hb|done].
Qed.

Lemma homes_nil : 0 <= s ∧ s + LOGBLOCKS < 2 ^ 31 -> homes s [].
Proof. intros. split; try done; [apply NoDup_nil_2|by intros b ?%not_elem_of_nil..|cbn; lia]. Qed.

Lemma initlog_run bl ds I kb sblk :
  homes s bl -> length ds = length bl -> (length bl <= 28)%nat -> header_names bl (I !!! s) ->
  (∀ i d, ds !! i = Some d -> I !!! (s + Z.of_nat i + 1) = d) -> length (I !!! s) = 1024%nat ->
  booted p I kb -> i32 (sb_logstart sblk) = s ->
  ∃ kr, initlog ROOTDEV sblk kb = Ret () kr ∧ at_rest p s kr ∧
    ∀ b, home s b -> image kr !!! b = default (I !!! b) ((list_to_map (zip bl ds) : gmap Z (list Z)) !! b).
Proof.
  intros Hb Hlen Hsm Hn Hd Hsz [Hk Hc Hcap Ho Hcm <-] Es.
  pose proof (initlog_spec bl ds (abstract kb (mk_cache ∅ ∅)) sblk Es Hb Hlen Hsm Hcap Ho Hcm eq_refl Hn Hd) as Htr.
  destruct (tr_run _ _ _ kb Htr Hk (rel_abstract kb _ Hc)) as ([] & kr & α & E & Hkr & Hrel & Hl & Hcap' & [= Hout Hcomm] & Hca & Him).
  destruct (rel_kernel α kr Hrel) as (El & Ei & _). cbn in Him.
  exists kr. split; [done|]. rewrite <- El in *.
  assert (image kr !!! s = header [] (image kb !!! s)) as Eh.
  { rewrite Ei, Him. apply written_last. apply not_elem_of_nil. }
  split; [|intros b Hhm; rewrite Ei, Him; by apply recovered_home].
  split; try done.
  - rewrite <- Hca. apply Hrel.
  - rewrite Eh. split; [apply header_n; cbn; lia|done].
  - rewrite Eh, length_header; [done|lia|cbn; lia].
Qed.

Lemma recovery bl ds img I kb sblk :
  homes s bl -> length ds = length bl -> (length bl <= 28)%nat -> recoverable s bl ds img I -> length (I !!! s) = 1024%nat ->
  booted p I kb -> i32 (sb_logstart sblk) = s ->
  ∃ kr, initlog ROOTDEV sblk kb = Ret () kr ∧ at_rest p s kr ∧
    ((∀ b, home s b -> image kr !!! b = img !!! b) ∨ (∀ b, home s b -> image kr !!! b = new_data bl ds img b)).
Proof.
  intros Hb Hlen Hsm Hrec Hsz Hbt Es. pose proof (homes_nil (ho_start s bl Hb)) as Hnil.
  destruct Hrec as [[Hn Ho]|[[Hn Ho]|(Hn & Hd & Ho)]].
  1,2: destruct (initlog_run [] [] I kb sblk) as (kr & E & Hr & Him); [done|done|cbn; lia|done..|];
    exists kr; (split; [done|]); (split; [done|]).
  - left. intros b Hhm. rewrite Him by done. cbn. by apply Ho.
  - right. intros b Hhm. rewrite Him by done. cbn. by apply Ho.
  - destruct (initlog_run bl ds I kb sblk) as (kr & E & Hr & Him); [done..|].
    exists kr. split; [done|]. split; [done|]. right. intros b Hhm. rewrite Him by done. unfold new_data.
    destruct (list_to_map (zip bl ds) !! b) eqn:Eb; [done|]. cbn. apply Ho; [done|].
    apply not_elem_of_list_to_map_2 in Eb. by rewrite fst_zip in Eb by lia.
Qed.

(** C1. File-system transactions are atomic, across crashes too.  A process that
    runs [begin_op], any updates of at most 28 blocks through the buffer cache
    and [log_write], and [end_op], returns, and the disk then has exactly the
    updates.  If the machine stops after any prefix of the disk writes this
    made, in the middle of a write too (a disk sector of 512 bytes is the unit
    that is written or not), then [initlog] of the next boot leaves a disk that
    has outside the log either none of the updates or all of them. *)
Theorem transaction_atomic us k :
  0 <= s ∧ s + LOGBLOCKS < 2 ^ 31 -> at_rest p s k ->
  Forall (λ u, 0 <= u.1 < 2 ^ 31 ∧ home s u.1) us -> (length us <= 28)%nat ->
  ∃ k' T, transaction us k = Ret () k' ∧ at_rest p s k' ∧ writes k' = writes k ++ T ∧
    (∀ b, home s b -> image k' !!! b = applied us b (image k !!! b)) ∧
    ∀ n first second kb sblk,
      booted p (crash_image T n first second (image k)) kb -> i32 (sb_logstart sblk) = s ->
      ∃ kr, initlog ROOTDEV sblk kb = Ret () kr ∧ at_rest p s kr ∧
        ((∀ b, home s b -> image kr !!! b = image k !!! b) ∨
         (∀ b, home s b -> image kr !!! b = applied us b (image k !!! b))).
Proof.
  intros Hs [Hk Hc Hl Hcap Ho Hcm Hh Hsz] Hus Hlen.
  assert (quiet s (abstract k (mk_cache ∅ ∅))) as Hq by (by split).
  pose proof (transaction_spec p s us (abstract k (mk_cache ∅ ∅)) Hs Hq Hus Hlen) as Htr.
  destruct (tr_run _ _ _ k Htr Hk (rel_abstract k _ Hc))
    as ([] & k' & α & E & Hk' & Hrel & [Hql Hqc Hqo Hqm Hqa] & bl & ds & Hb & Hld & Hsm & Hnew & HT & HW & _).
  destruct (rel_kernel α k' Hrel) as (El & Ei & Ew).
  change (a_image (abstract k _)) with (image k) in *. change (a_writes (abstract k _)) with (writes k) in *.
  set (T := if decide (bl = []) then [] else _) in HT, HW.
  assert (header_names [] (written T (image k) !!! s) ∧ length (written T (image k) !!! s) = 1024%nat ∧
    ∀ b, home s b -> written T (image k) !!! b = new_data bl ds (image k) b) as (F1 & F2 & F3).
  { unfold T. case_decide as Ebl; [subst bl; done|by apply commit_image]. }
  exists k', T. split_and!; [done| |by rewrite Ew, HW| |].
  - rewrite <- El in *. split; try done; [rewrite <- Hqa; apply Hrel|by rewrite Ei, HT..].
  - intros b Hhm. rewrite Ei, HT, F3 by done. apply Hnew.
  - intros n f1 f2 kb sblk Hbt Es.
    assert (recoverable s bl ds (image k) (crash_image T n f1 f2 (image k)) ∧
      length (crash_image T n f1 f2 (image k) !!! s) = 1024%nat) as [Hcr Hcs].
    { unfold T. case_decide as Ebl; [|split; [by apply crash_recoverable|by apply crash_size]].
      unfold crash_image. rewrite lookup_nil, take_nil. split; [by left|done]. }
    destruct (recovery bl ds (image k) _ kb sblk Hb Hld Hsm Hcr Hcs Hbt Es) as (kr & Er & Hr & [Ho'|Ho']);
      exists kr; (split; [done|]); (split; [done|]); [by left|right].
    intros b Hhm. rewrite Ho' by done. apply Hnew.
Qed.
End theorem.

(** ** An example *)

(** Process 0 runs alone; the log starts at block 2, and the disk holds [img]
    and is idle. *)
Definition demo_disk (img : gmap Z (list Z)) : kernel :=
  (demo (table [demo_proc RUNNING 1 0]) (Some 0%nat))
    <| vdisk_state := mk_vdisk 0 0 0 (replicate 8 inhabitant) 0 (replicate 8 0) 0 (replicate 8 0)
         (replicate 8 1) 0 (replicate 8 None) (replicate 8 0) (replicate 8 inhabitant) |>
    <| log := mk_logstate 2 0 0 ROOTDEV 0 (replicate (Z.to_nat LOGBLOCKS) 0) |>
    <| image := img |>.
Definition demo_boot (img : gmap Z (list Z)) : kernel :=
  foldl binit_step (binit_start (demo_disk img)) (seq 0 NBUF).
Definition demo_fs : kernel := demo_boot {[ 2 := replicate 1024 0 ]}.

Lemma demo_binit img : binit (demo_disk img) = Ret () (demo_boot img).
Proof. apply binit_eq. done. Qed.

Lemma locks_still_free l m ls : lock_free l m ->
  lock_free l (m <| m_locks ::= λ f, foldr (λ l, <[l := mk_spinlock 0 None]>) f ls |>).
Proof.
  intros Hf. unfold lock_free in *. cbn. induction ls as [|l' ls IH]; [done|]. cbn.
  destruct (decide (l = l')) as [->|]; [apply lookup_insert_eq|by rewrite lookup_insert_ne].
Qed.

Lemma demo_cache img : bcache_ok (mk_cache ∅ ∅) (fsv 0 (demo_boot img)).
Proof.
  destruct (binit_ok 0 (demo_disk img)) as (k & E & Hk).
  - reflexivity.
  - intros b Hb. change (bufs (demo_disk img)) with (replicate (S NBUF) (inhabitant : buf)).
    rewrite lookup_total_replicate_2 by lia. split_and!; reflexivity.
  - reflexivity.
  - by split.
  - rewrite demo_binit in E. injection E as E. rewrite E. exact Hk.
Qed.

Lemma demo_boot_frame img :
  log (demo_boot img) = log (demo_disk img) ∧ image (demo_boot img) = img ∧ okh 0 [] (demo_boot img).
Proof.
  destruct (binit_frame (demo_disk img) (seq 0 NBUF)) as (El & Ei & _ & Ed & Ep & Epa & Epb & ls & Em).
  fold (demo_boot img) in El, Ei, Ed, Ep, Epa, Epb, Em. split; [exact El|]. split; [exact Ei|].
  split; rewrite ?Ep, ?Epa, ?Epb; try done; [|apply NoDup_nil_2|by intros l ?%not_elem_of_nil|cbn; lia|unfold NPROC; lia|].
  - eexists. split; [|exact Em]. split; try done.
    + split; [cbn; lia..| |]; done.
    + intros l Hl. apply locks_still_free. by apply demo_lock.
  - intros i Hi. destruct i as [|i]; [done|].
    change (procs (demo_disk img) !!! S i) with (replicate 63 proc0 !!! i).
    rewrite list_lookup_total_alt. destruct (replicate 63 proc0 !! i) eqn:E; [|done].
    apply lookup_replicate in E as [-> _]. done.
Qed.

(** Any disk image can be the one a kernel boots with. *)
Lemma demo_booted img : booted 0 img (demo_boot img).
Proof.
  destruct (demo_boot_frame img) as (El & Ei & Hk).
  split; rewrite ?El; [exact Hk|apply demo_cache|done..].
Qed.

Lemma demo_rest : at_rest 0 2 demo_fs.
Proof.
  destruct (demo_boot_frame {[ 2 := replicate 1024 0 ]}) as (El & Ei & Hk). fold demo_fs in El, Ei, Hk.
  split; rewrite ?El, ?Ei; [exact Hk|apply demo_cache|by split|reflexivity|reflexivity|reflexivity|by split|reflexivity].
Qed.

Definition demo_sb : superblock := mk_superblock 0x10203040 2000 1900 200 31 2 33 46.

Definition demo_updates : list (Z * (list Z -> list Z)) :=
  [(100, λ _, replicate 1024 7); (101, λ _, replicate 1024 8)].

Lemma transaction_atomic_witness :
  at_rest 0 2 demo_fs ∧
  ∃ k' T, transaction (W := disk_world) demo_updates demo_fs = Ret () k' ∧
    image k' !!! 100 = replicate 1024 7 ∧
    ∀ n first second, ∃ kr,
      initlog (W := disk_world) ROOTDEV demo_sb (demo_boot (crash_image T n first second (image demo_fs))) = Ret () kr ∧
      (image kr !!! 100 = image demo_fs !!! 100 ∧ image kr !!! 101 = image demo_fs !!! 101 ∨
       image kr !!! 100 = replicate 1024 7 ∧ image kr !!! 101 = replicate 1024 8).
Proof.
  split; [exact demo_rest|].
  assert (home 2 100 ∧ home 2 101) as [H1 H2] by (unfold home; change LOGBLOCKS with 30; lia).
  destruct (transaction_atomic (W := disk_world) 0 2 demo_updates demo_fs) as (k' & T & E & _ & _ & Hi & Hc).
  - change LOGBLOCKS with 30. lia.
  - exact demo_rest.
  - repeat constructor; cbn; try lia; assumption.
  - cbn. lia.
  - exists k', T. split; [exact E|]. split; [rewrite (Hi 100 H1); reflexivity|].
    intros n f1 f2. destruct (Hc n f1 f2 _ demo_sb (demo_booted _) eq_refl) as (kr & Er & _ & [Ho|Ho]);
      exists kr; (split; [exact Er|]); [left|right].
    + split; [exact (Ho 100 H1)|exact (Ho 101 H2)].
    + split; [rewrite (Ho 100 H1)|rewrite (Ho 101 H2)]; reflexivity.
Defined.
