(* ===== verification/FsTx.v ===== *)
(** * File system code inside a transaction

    A judgement for the code of [fs.c] that runs between [begin_op] and
    [end_op].  Its states [st] are the buffers the process holds, the blocks the
    transaction has logged and the inode table; [blk] is what a block holds for
    the code, whether or not it has reached the disk. *)
From S2P Require Import Prelude Layout KState Spinlock CString Vm Proc Uart Sleeplock Virtio Bio.
From S2P Require Import Log Fs SchedEq FsView Disk Bcache LogSpec Txn.

#[projections(primitive)] Record st : Type := mk_st {
  s_held : gmap nat (Z * option (list Z));
  s_pins : gmap Z (list Z);
  s_inodes : list inode;
  s_ilk : gset nat; (* the inodes the process has locked *)
  s_user : uview;
}.
#[export] Instance set_s_held : Setter s_held := λ f r,
  mk_st (f (s_held r)) (s_pins r) (s_inodes r) (s_ilk r) (s_user r).
#[export] Instance set_s_pins : Setter s_pins := λ f r,
  mk_st (s_held r) (f (s_pins r)) (s_inodes r) (s_ilk r) (s_user r).
#[export] Instance set_s_inodes : Setter s_inodes := λ f r,
  mk_st (s_held r) (s_pins r) (f (s_inodes r)) (s_ilk r) (s_user r).
#[export] Instance set_s_ilk : Setter s_ilk := λ f r,
  mk_st (s_held r) (s_pins r) (s_inodes r) (f (s_ilk r)) (s_user r).
#[export] Instance set_s_user : Setter s_user := λ f r,
  mk_st (s_held r) (s_pins r) (s_inodes r) (s_ilk r) (f (s_user r)).
(** Between transactions. *)
Abbreviation start p k := (mk_st ∅ ∅ (itable k) ∅ (user_of p k)).

Section fstx.
Context {W : World} {DW : DiskWorld W} (p : nat) (s : Z).
Context (img : gmap Z (list Z)) (wr : list (Z * list Z)) (sbk : superblock) (o : Z).
Implicit Types (σ : st) (bno : Z).

Definition blk σ bno : list Z := default (img !!! bno) (s_pins σ !! bno).

(** [o] operations are in progress; disk, superblock and the writes so far are
    those the transaction started with. *)
Definition stx σ (α : astate) : Prop :=
  ∃ bl, in_tx s o bl α ∧ a_cache α = mk_caches (s_held σ) (s_pins σ) (s_ilk σ) ∧
    a_image α = img ∧ a_writes α = wr ∧ a_other α = (sbk, s_inodes σ, s_user σ).

Definition fsl (ls : list lockid) σ {A} (m : M A) (ls' : list lockid) (Q : A -> st -> Prop) : Prop :=
  ∀ α, stx σ α -> trl p ls α m ls' (λ x α', ∃ σ', stx σ' α' ∧ Q x σ').
Abbreviation fs σ m Q := (fsl [] σ m [] Q).

Lemma fs_bind {A B} ls ls1 ls2 σ (m : M A) (f : A -> M B) Q1 Q :
  fsl ls σ m ls1 Q1 -> (∀ a σ', Q1 a σ' -> fsl ls1 σ' (f a) ls2 Q) -> fsl ls σ (m ≫= f) ls2 Q.
Proof.
  intros Hm Hf α Hα. eapply tr_bind; [by apply Hm|]. intros a α' (σ' & Hα' & HQ). by apply (Hf a σ' HQ).
Qed.
Lemma fs_ret {A} ls σ (a : A) (Q : A -> st -> Prop) : Q a σ -> fsl ls σ (mret a) ls Q.
Proof. intros HQ α Hα. apply tr_ret. by exists σ. Qed.
Lemma fs_return {A} ls σ (a : A) : fsl ls σ (mret a) ls (λ x σ', x = a ∧ σ' = σ).
Proof. by apply fs_ret. Qed.
Lemma fs_mono {A} ls ls' σ (m : M A) (Q Q' : A -> st -> Prop) :
  fsl ls σ m ls' Q -> (∀ a σ', Q a σ' -> Q' a σ') -> fsl ls σ m ls' Q'.
Proof. intros Hm HQ α Hα. eapply tr_mono; [by apply Hm|]. intros a α' (σ' & ? & ?). exists σ'. auto. Qed.
Lemma fs_same {A} ls ls' σ (m : M A) a :
  (∀ v, vq p ls m v a ls' v) -> fsl ls σ m ls' (λ x σ', x = a ∧ σ' = σ).
Proof. intros Hm α Hα. eapply tr_mono; [by apply tr_same|]. intros x α' [-> ->]. by exists σ. Qed.

(** ** Blocks *)

Definition st_hold (b : nat) bno (d : list Z) σ : st := σ <| s_held ::= <[b := (bno, Some d)]> |>.
Definition st_release (b : nat) bno (d : list Z) σ : st :=
  σ <| s_held ::= delete b |> <| s_pins ::= alter (λ _, d) bno |>.
Definition st_pin bno (d : list Z) σ : st :=
  if s_pins σ !! bno is Some _ then σ else σ <| s_pins ::= <[bno := d]> |>.
(** The block [bno] changed to [d]. *)
Definition st_put bno (d : list Z) σ : st := σ <| s_pins ::= <[bno := d]> |>.
Definition unheld σ bno : Prop := ∀ b d, s_held σ !! b ≠ Some (bno, d).

Lemma stx_frame σ σ' α α' :
  stx σ α -> a_log α' = a_log α -> a_cache α' = mk_caches (s_held σ') (s_pins σ') (s_ilk σ') ->
  dom (s_pins σ') = dom (s_pins σ) -> a_image α' = a_image α -> a_writes α' = a_writes α ->
  a_other α' = (sbk, s_inodes σ', s_user σ') -> stx σ' α'.
Proof.
  intros (bl & [H1 H2 H3 H4 H5 H6] & Hc & Hi & Hw & Ho) El Ec Ed Ei Ew Eo.
  exists bl. split_and!; [|done|congruence..|done]. split; rewrite ?El; try done.
  rewrite Ec. cbn. rewrite Ed. by rewrite Hc in H6.
Qed.

Lemma fs_bread σ bno :
  0 <= bno < 2 ^ 31 -> unheld σ bno -> (size (s_held σ) + size (s_pins σ) < NBUF)%nat ->
  fs σ (bread ROOTDEV bno) (λ b σ', s_held σ !! b = None ∧ σ' = st_hold b bno (blk σ bno) σ).
Proof.
  intros Hb Hn Hs α Hα. pose proof Hα as (bl & Ht & Hc & Hi & _ & Ho).
  eapply tr_mono; [apply tr_bread; rewrite ?Hc; done|]. rewrite Hc. cbn.
  intros b α' [Hh ->]. exists (st_hold b bno (blk σ bno) σ). split; [|done].
  apply (stx_frame σ _ α); try done. cbn. rewrite Hc. unfold logical, hold. cbn. by rewrite Hc, Hi.
Qed.

Lemma fs_read_buf {A} σ b bno d (f : list Z -> A) :
  s_held σ !! b = Some (bno, Some d) -> fs σ (read_buf b (λ r, f (b_data r))) (λ x σ', x = f d ∧ σ' = σ).
Proof.
  intros Hh α Hα v Hv. pose proof Hα as (bl & _ & Ec & _). pose proof (rel_cache _ _ Hv) as Hc.
  assert (held (a_cache α) !! b = Some (bno, Some d)) as Hh' by (by rewrite Ec).
  assert (b < NBUF)%nat as Hb by (apply (bc_held _ _ Hc); by eexists).
  destruct (bc_buf _ _ Hc b Hb) as [_ _ _ Hob _ _]. destruct (Hob _ _ Hh') as (_ & _ & _ & _ & Ed).
  exists (f d), v, α. split; [|split; [done|by exists σ]]. apply vq_read_buf_as. by rewrite Ed.
Qed.

Lemma fs_write_data σ b bno d f :
  s_held σ !! b = Some (bno, Some d) -> fs σ (write_data b f) (λ _ σ', σ' = st_hold b bno (f d) σ).
Proof.
  intros Hh α Hα. pose proof Hα as (bl & _ & Hc & _ & _ & Ho).
  eapply tr_mono; [apply (tr_write_data p α b bno d f); by rewrite Hc|].
  intros [] α' ->. eexists. split; [|done]. apply (stx_frame σ _ α); try done.
  cbn. by rewrite Hc.
Qed.

Lemma fs_log_write σ b bno d :
  1 <= o -> s_held σ !! b = Some (bno, Some d) -> 0 <= bno < 2 ^ 31 -> home s bno -> (size (s_pins σ) < NBUF)%nat ->
  fs σ (log_write b) (λ _ σ', σ' = st_pin bno d σ).
Proof.
  intros Hpos Hh Hr Hhm Hs α Hα. pose proof Hα as (bl & Ht & Hc & Hi & Hw & Ho).
  pose proof (in_tx_size s o bl α Ht) as Hsz. rewrite Hc in Hsz. cbn in Hsz. unfold NBUF in Hs.
  eapply tr_mono; [apply (log_write_spec p s o bl α b bno d); try done; [by rewrite Hc|lia]|].
  intros [] α' (bl' & Ht' & (E1 & E2 & E3) & _ & Hh' & Hlk' & Hp'). eexists. split; [|done].
  exists bl'. split_and!; [done| |congruence..|].
  - destruct (a_cache α') as [h P lk]. cbn in Hh', Hlk', Hp'. subst h lk P. rewrite Hc. cbn.
    assert (bno ∈ bl <-> is_Some (s_pins σ !! bno)) as Hin.
    { rewrite <- elem_of_dom. pose proof (it_pins _ _ _ _ Ht) as E. rewrite Hc in E. cbn in E. rewrite E.
      by rewrite elem_of_list_to_set. }
    unfold st_pin. destruct (s_pins σ !! bno) eqn:E.
    + rewrite decide_True by (apply Hin; by eexists). done.
    + rewrite decide_False by (intros H%Hin; by destruct H). done.
  - rewrite E3, Ho. unfold st_pin. by destruct (s_pins σ !! bno).
Qed.

Lemma fs_brelse σ b bno d :
  s_held σ !! b = Some (bno, Some d) -> (s_pins σ !! bno = None -> d = img !!! bno) ->
  fs σ (brelse b) (λ _ σ', σ' = st_release b bno d σ).
Proof.
  intros Hh Hcl α Hα. pose proof Hα as (bl & _ & Hc & Hi & _ & Ho).
  eapply tr_mono; [apply (tr_brelse p α b bno d); rewrite ?Hc, ?Hi; done|].
  intros [] α' ->. eexists. split; [|done]. apply (stx_frame σ _ α); try done.
  - cbn. by rewrite Hc.
  - cbn. apply dom_alter_L.
Qed.

(** ** The inode table and the superblock *)

Lemma fs_read_inode {A} ls σ ip (f : inode -> A) :
  fsl ls σ (read_inode ip f) ls (λ x σ', x = f (s_inodes σ !!! ip) ∧ σ' = σ).
Proof.
  intros α Hα v Hv. pose proof Hα as (bl & _ & _ & _ & _ & Ho). pose proof (rel_other _ _ Hv) as E.
  rewrite Ho in E. injection E as _ E _. exists (f (s_inodes σ !!! ip)), v, α.
  split; [|split; [done|by exists σ]]. rewrite <- E.
  exact (vq_gets p ls _ (λ v, f (v_itable v !!! ip)) v (λ k, eq_refl)).
Qed.
Lemma fs_read_inodes ls σ : fsl ls σ (gets itable) ls (λ x σ', x = s_inodes σ ∧ σ' = σ).
Proof.
  intros α Hα v Hv. pose proof Hα as (bl & _ & _ & _ & _ & Ho). pose proof (rel_other _ _ Hv) as E.
  rewrite Ho in E. injection E as _ E _. exists (s_inodes σ), v, α.
  split; [|split; [done|by exists σ]]. rewrite <- E. exact (vq_gets p ls _ v_itable v (λ k, eq_refl)).
Qed.
Lemma fs_write_inode ls σ ip f :
  fsl ls σ (write_inode ip f) ls (λ _ σ', σ' = σ <| s_inodes ::= upd ip f |>).
Proof.
  intros α Hα v Hv. pose proof Hα as (bl & _ & Hc & _ & _ & Ho). pose proof Hv as [R1 R2 R3 R4 R5].
  rewrite Ho in R5. injection R5 as Es Ei Eu.
  exists (), (v <| v_itable ::= upd ip f |>),
    (mk_astate (a_cache α) (a_log α) (a_image α) (a_writes α) (sbk, upd ip f (s_inodes σ), s_user σ)).
  split; [by apply (vq_modify p ls _ (λ v, v <| v_itable ::= upd ip f |>))|]. split.
  - split; try done; [by apply (bcache_frame _ v)|]. cbn. by rewrite Es, Ei, Eu.
  - exists (σ <| s_inodes ::= upd ip f |>). split; [|done]. by apply (stx_frame σ _ α).
Qed.
Lemma fs_read_sb {A} ls σ (f : superblock -> A) :
  fsl ls σ (read_sb f) ls (λ x σ', x = f sbk ∧ σ' = σ).
Proof.
  intros α Hα v Hv. pose proof Hα as (bl & _ & _ & _ & _ & Ho). pose proof (rel_other _ _ Hv) as E.
  rewrite Ho in E. injection E as E _ _. exists (f sbk), v, α. split; [|split; [done|by exists σ]].
  rewrite <- E. exact (vq_gets p ls _ (λ v, f (v_sb v)) v (λ k, eq_refl)).
Qed.

(** ** Whole accesses *)

Lemma blk_put σ bno d b : blk (st_put bno d σ) b = if decide (b = bno) then d else blk σ b.
Proof.
  unfold blk, st_put. cbn. case_decide as E; [subst; by rewrite lookup_insert_eq|by rewrite lookup_insert_ne].
Qed.

Lemma alter_id_default (P : gmap Z (list Z)) bno x : alter (λ _, default x (P !! bno)) bno P = P.
Proof.
  apply map_eq. intros i. destruct (decide (i = bno)) as [->|]; [|by rewrite lookup_alter_ne].
  rewrite lookup_alter_eq. by destruct (P !! bno).
Qed.

(** A buffer that was only read is given back. *)
Lemma fs_brelse_clean σ b bno :
  s_held σ !! b = None -> fs (st_hold b bno (blk σ bno) σ) (brelse b) (λ _ σ', σ' = σ).
Proof.
  intros Hh. eapply fs_mono; [apply (fs_brelse _ b bno (blk σ bno))|].
  - apply lookup_insert_eq.
  - intros E. unfold blk. cbn in E. by rewrite E.
  - intros [] σ' ->. unfold st_release, st_hold, blk, set, set_s_held, set_s_pins. cbn.
    rewrite delete_insert_id, alter_id_default by done. by destruct σ.
Qed.

(** Logging a held buffer and giving it back puts its data in the block. *)
Lemma st_release_pin σ b bno d : s_held σ !! b = None ->
  st_release b bno d (st_pin bno d (st_hold b bno d σ)) = st_put bno d σ.
Proof.
  intros Hh. unfold st_release, st_pin, st_hold, st_put, set, set_s_held, set_s_pins. cbn.
  destruct (s_pins σ !! bno) as [y|] eqn:E; cbn; rewrite delete_insert_id by done; f_equal.
  - apply map_eq. intros i. destruct (decide (i = bno)) as [->|];
      [by rewrite lookup_alter_eq, lookup_insert_eq, E|by rewrite lookup_alter_ne, lookup_insert_ne].
  - by rewrite alter_insert_eq.
Qed.
Lemma fs_brelse_pinned σ b bno d : s_held σ !! b = None ->
  fs (st_pin bno d (st_hold b bno d σ)) (brelse b) (λ _ σ', σ' = st_put bno d σ).
Proof.
  intros Hh. eapply fs_mono; [apply (fs_brelse _ b bno d)|intros [] ? ->; by apply st_release_pin];
    unfold st_pin; cbn; destruct (s_pins σ !! bno) eqn:E; cbn; rewrite ?E, ?lookup_insert_eq; done.
Qed.
Lemma fs_log_pin σ b bno d :
  1 <= o -> 0 <= bno < 2 ^ 31 -> home s bno -> (size (s_pins σ) < NBUF)%nat ->
  fs (st_hold b bno d σ) (log_write b) (λ _ σ', σ' = st_pin bno d (st_hold b bno d σ)).
Proof. intros. apply (fs_log_write _ b bno d); try done. apply lookup_insert_eq. Qed.
End fstx.

Abbreviation fs p s img wr sbk o σ m Q := (fsl p s img wr sbk o [] σ m [] Q).

(** ** Whole transactions *)

(** [m] between [begin_op] and [end_op]. *)
Definition in_op {W : World} {A} (m : M A) : M A :=
  begin_op ;;
  a ← m;
  end_op ;;
  mret a.

Section atomic.
Context {W : World} {DW : DiskWorld W} (p : nat) (s : Z).
Context {A : Type} (m : M A) (Q : A -> st -> Prop).

Lemma tr_in_op α σ0 T0 U0 :
  0 <= s ∧ s + LOGBLOCKS < 2 ^ 31 -> quiet s α -> a_other α = (σ0, T0, U0) ->
  fs p s (a_image α) (a_writes α) σ0 1 (mk_st ∅ ∅ T0 ∅ U0) m Q ->
  (∀ a σ, Q a σ -> s_held σ = ∅ ∧ s_ilk σ = ∅ ∧ (size (s_pins σ) <= 28)%nat) ->
  tr p α (in_op m) (λ a α', quiet s α' ∧ ∃ σ bl ds, Q a σ ∧ a_other α' = (σ0, s_inodes σ, s_user σ) ∧
    homes s bl ∧ length ds = length bl ∧ (length bl <= 28)%nat ∧ length bl = size (s_pins σ) ∧
    (∀ b, default (a_image α !!! b) ((list_to_map (zip bl ds) : gmap Z (list Z)) !! b) = blk (a_image α) σ b) ∧
    let T := if decide (bl = []) then [] else commit_trace s bl ds (a_image α !!! s) in
    a_image α' = written T (a_image α) ∧ a_writes α' = a_writes α ++ T).
Proof.
  intros Hs Hq Ho Hm HQ. unfold in_op.
  eapply tr_bind; [apply (begin_op_spec p s 0 []); [by apply quiet_in_tx|lia|done]|].
  intros [] α1 (Ht1 & (E1 & E2 & E3) & C1). assert (a_cache α = mk_cache ∅ ∅) as C0 by apply Hq.
  eapply tr_bind; [apply Hm|].
  { exists []. split_and!; [done|by rewrite C1, C0|done..|by rewrite E3]. }
  intros a α2 (σ & (bl & Ht2 & C2 & I2 & W2 & O2) & HQa). destruct (HQ a σ HQa) as (Hh & Hlk & Hsz).
  pose proof (in_tx_size s 1 bl α2 Ht2) as Hl. rewrite C2 in Hl. cbn in Hl.
  eapply tr_bind; [apply (end_op_spec p s bl); [done|by rewrite C2|by rewrite C2|lia]|].
  intros [] α3 (Hq3 & T & -> & I3 & W3 & O3). apply tr_ret. split; [done|].
  exists σ, bl, (tx_data bl (s_pins σ)). destruct Ht2 as [_ _ _ _ Hb Hp]. rewrite C2 in Hp, I3, W3. cbn in Hp, I3, W3.
  rewrite I2 in I3. rewrite I2, W2 in W3.
  split_and!; [done|congruence|done|unfold tx_data; by rewrite length_fmap|lia|done| |done|done].
  intros b. rewrite <- tx_data_map by (done || apply Hb). done.
Qed.

(** A transaction returns with its blocks on the disk; after a crash in the
    middle of it recovery leaves all or none of them. *)
Lemma in_op_atomic k :
  0 <= s ∧ s + LOGBLOCKS < 2 ^ 31 -> at_rest p s k ->
  fs p s (image k) (writes k) (sb k) 1 (start p k) m Q ->
  (∀ a σ, Q a σ -> s_held σ = ∅ ∧ s_ilk σ = ∅ ∧ (size (s_pins σ) <= 28)%nat) ->
  ∃ a σ k' T, in_op m k = Ret a k' ∧ Q a σ ∧ at_rest p s k' ∧ sb k' = sb k ∧ itable k' = s_inodes σ ∧
    user_of p k' = s_user σ ∧
    writes k' = writes k ++ T ∧ image k' = written T (image k) ∧ (length T <= 2 * size (s_pins σ) + 2)%nat ∧
    (∀ b, home s b -> image k' !!! b = blk (image k) σ b) ∧
    ∀ n first second kb sblk,
      booted p (crash_image T n first second (image k)) kb -> i32 (sb_logstart sblk) = s ->
      ∃ kr, initlog ROOTDEV sblk kb = Ret () kr ∧ at_rest p s kr ∧
        ((∀ b, home s b -> image kr !!! b = image k !!! b) ∨ (∀ b, home s b -> image kr !!! b = image k' !!! b)).
Proof.
  intros Hs [Hk Hc Hl Hcap Ho Hcm Hh Hsz] Hm HQ.
  assert (quiet s (abstract p k (mk_cache ∅ ∅))) as Hq by (by split).
  pose proof (tr_in_op (abstract p k (mk_cache ∅ ∅)) (sb k) (itable k) (user_of p k) Hs Hq eq_refl Hm HQ) as Htr.
  destruct (tr_run p _ _ _ k Htr Hk (rel_abstract p k _ Hc))
    as (a & k' & α & E & Hk' & Hrel & [Hql Hqc Hqo Hqm Hqa] & σ & bl & ds & HQa & HO & Hb & Hld & Hsm & Hsp & Hnew & HT & HW).
  destruct (rel_kernel p α k' Hrel) as (El & Ei & Ew). pose proof (rel_other _ _ Hrel) as Eo. rewrite HO in Eo.
  injection Eo as Esb Eit Eus. change (a_image (abstract p k _)) with (image k) in *. change (a_writes (abstract p k _)) with (writes k) in *.
  set (T := if decide (bl = []) then [] else _) in HT, HW.
  assert (header_names [] (written T (image k) !!! s) ∧ length (written T (image k) !!! s) = 1024%nat ∧
    ∀ b, home s b -> written T (image k) !!! b = new_data bl ds (image k) b) as (F1 & F2 & F3).
  { unfold T. case_decide as Ebl; [subst bl; done|by apply commit_image]. }
  assert (∀ b, home s b -> image k' !!! b = new_data bl ds (image k) b) as F4
    by (intros b Hb'; rewrite Ei, HT; by apply F3).
  exists a, σ, k', T. split_and!; [done..| |done|done|done|by rewrite Ew, HW|by rewrite Ei, HT| | |].
  - rewrite <- El in *. split; try done; [rewrite <- Hqa; apply Hrel|by rewrite Ei, HT..].
  - unfold T. case_decide; [cbn; lia|]. unfold commit_trace. rewrite !length_app, logged_length. cbn.
    rewrite length_app, length_zip_with. cbn. lia.
  - intros b Hhm. rewrite F4 by done. apply Hnew.
  - intros n f1 f2 kb sblk Hbt Es.
    assert (recoverable s bl ds (image k) (crash_image T n f1 f2 (image k)) ∧
      length (crash_image T n f1 f2 (image k) !!! s) = 1024%nat) as [Hcr Hcs].
    { unfold T. case_decide as Ebl; [|split; [by apply crash_recoverable|by apply crash_size]].
      unfold crash_image. rewrite lookup_nil, take_nil. split; [by left|done]. }
    destruct (recovery p s bl ds (image k) _ kb sblk Hb Hld Hsm Hcr Hcs Hbt Es) as (kr & Er & Hr & [Ho'|Ho']);
      exists kr; (split; [done|]); (split; [done|]); [by left|right].
    intros b Hhm. rewrite Ho', F4 by done. done.
Qed.
End atomic.

(** Code that only reads, outside of transactions. *)
Section reading.
Context {W : World} {DW : DiskWorld W} (p : nat) (s : Z).
Lemma read_run {A} (m : M A) (Q : A -> st -> Prop) k :
  0 <= s ∧ s + LOGBLOCKS < 2 ^ 31 -> at_rest p s k ->
  fs p s (image k) (writes k) (sb k) 0 (start p k) m Q ->
  (∀ a σ, Q a σ -> s_held σ = ∅ ∧ s_ilk σ = ∅ ∧ s_pins σ = ∅) ->
  ∃ a σ k', m k = Ret a k' ∧ Q a σ ∧ at_rest p s k' ∧ image k' = image k ∧ itable k' = s_inodes σ ∧ sb k' = sb k ∧
    user_of p k' = s_user σ.
Proof.
  intros Hs Hk Hm HQ. pose proof Hk as [Hr Hc Hl Hcap Ho Hcm Hh Hsz].
  set (α := abstract p k (mk_cache ∅ ∅)).
  assert (stx s (image k) (writes k) (sb k) 0 (start p k) α) as Hα.
  { exists []. split_and!; [|done..]. apply quiet_in_tx; [done|by split]. }
  destruct (tr_run p α m _ k (Hm α Hα) Hr (rel_abstract p k _ Hc))
    as (a & k' & α' & E & Hk' & Hrel & σ & (bl & Ht & C & I & Wr & O) & Ha).
  destruct (HQ a σ Ha) as (Eh & Ek & Ep). destruct (rel_kernel p α' k' Hrel) as (El & Ei & _).
  pose proof (rel_other _ _ Hrel) as Eo. rewrite O in Eo. injection Eo as Esb Eit Eus.
  assert (bl = []) as ->.
  { pose proof (in_tx_size s 0 bl α' Ht) as Hlen. rewrite C, Ep in Hlen. cbn in Hlen.
    rewrite map_size_empty in Hlen. by destruct bl. }
  exists a, σ, k'. split_and!; [done|done| |congruence|done|done|done].
  destruct Ht as [T1 T2 T3 T4 T5 T6]. rewrite <- El in *.
  split; try done; [|by rewrite Ei, I..].
  pose proof (rel_cache _ _ Hrel) as Hc'. by rewrite C, Eh, Ek, Ep in Hc'.
Qed.
End reading.
