(* ===== verification/FsSpec.v ===== *)
(** * Files as byte arrays

    What the block allocator, the block map and the read and write of an inode
    do to the blocks of the file system. *)
From S2P Require Import Prelude Layout KState Spinlock CString Vm Proc Uart Sleeplock Virtio Bio.
From S2P Require Import Log Fs SchedEq FsView Disk Bcache LogSpec Txn FsTx.

(** ** The bitmap *)

Lemma testbit_mask bi j : 0 <= j -> Z.testbit (bit_mask bi) j = bool_decide (j = bi mod 8).
Proof.
  intros Hj. unfold bit_mask. pose proof (Z.mod_pos_bound bi 8). rewrite Z.shiftl_1_l, Z.pow2_bits_eqb by lia.
  case_bool_decide; [by subst; rewrite Z.eqb_refl|]. apply Z.eqb_neq. congruence.
Qed.

Lemma bit_set_testbit bi data :
  bit_set bi data = Z.testbit (data !!! Z.to_nat (bi / 8)) (bi mod 8).
Proof.
  unfold bit_set. pose proof (Z.mod_pos_bound bi 8). set (x := data !!! _).
  destruct (Z.testbit x (bi mod 8)) eqn:E.
  - apply negb_true_iff, Z.eqb_neq. intros H0.
    assert (Z.testbit (Z.land x (bit_mask bi)) (bi mod 8) = true) as Ht
      by (rewrite Z.land_spec, E, testbit_mask by lia; by apply bool_decide_true).
    rewrite H0, Z.bits_0 in Ht. done.
  - apply negb_false_iff, Z.eqb_eq. apply Z.bits_inj'. intros n Hn. rewrite Z.land_spec, Z.bits_0, testbit_mask by done.
    case_bool_decide as Hb; [by subst n; rewrite E|apply andb_false_r].
Qed.

Lemma bit_set_mark_used bi bj data : 0 <= bi -> 0 <= bj -> bi / 8 < Z.of_nat (length data) ->
  bit_set bj (mark_used bi data) = bool_decide (bi = bj) || bit_set bj data.
Proof.
  intros Hi Hj Hl. rewrite !bit_set_testbit. unfold mark_used.
  assert (0 <= bi / 8 ∧ 0 <= bj / 8 ∧ 0 <= bj mod 8) as (Hbi & Hbj & Hm) by zlia.
  rewrite upd_lookup by lia. destruct (decide (Z.to_nat (bi / 8) = Z.to_nat (bj / 8))) as [E|E].
  - rewrite Z.lor_spec, testbit_mask, orb_comm by lia. f_equal.
    apply Z2Nat.inj in E; [|done..]. apply bool_decide_ext. clear -E. zlia.
  - rewrite bool_decide_false; [done|]. intros ->. done.
Qed.
Lemma length_mark_used bi data : length (mark_used bi data) = length data.
Proof. apply length_upd. Qed.

(** [balloc] takes the first bit that is clear. *)
Lemma balloc_scan_spec left bi data :
  match balloc_scan left bi data with
  | Some b => bi <= b < bi + Z.of_nat left ∧ bit_set b data = false ∧ ∀ j, bi <= j < b -> bit_set j data = true
  | None => ∀ j, bi <= j < bi + Z.of_nat left -> bit_set j data = true
  end.
Proof.
  revert bi. induction left as [|left IH]; intros bi; cbn; [intros j; lia|].
  destruct (bit_set bi data) eqn:E; [|split_and!; [lia..|done|intros j; lia]].
  specialize (IH (bi + 1)). destruct (balloc_scan left (bi + 1) data) as [b|].
  - destruct IH as (H1 & H2 & H3). split_and!; [lia..|done|]. intros j Hj.
    destruct (decide (j = bi)) as [->|]; [done|]. apply H3. lia.
  - intros j Hj. destruct (decide (j = bi)) as [->|]; [done|]. apply IH. lia.
Qed.

(** ** Who owns which block *)

(** The layout [mkfs] gives the disk: the log, the inodes, one bitmap block and
    the data blocks. *)
Record layout (s : Z) (S : superblock) : Prop := {
  lay_log : 0 <= s ∧ s + LOGBLOCKS < sb_inodestart S;
  lay_inodes : 0 < sb_ninodes S ∧ sb_inodestart S + (sb_ninodes S - 1) / IPB < sb_bmapstart S;
  lay_size : sb_bmapstart S < sb_size S <= BPB;
}.

(** The address in slot [i] of an inode with the addresses [a]: 0 to 11 are the
    direct blocks, 12 the indirect block and 13 to 268 the addresses in it. *)
Definition slot (B : Z -> list Z) (a : list Z) (i : nat) : Z :=
  if (i <=? NDIRECT)%nat then a !!! i
  else if a !!! NDIRECT =? 0 then 0 else get_le 4 (4 * (i - 13)) (B (a !!! NDIRECT)).
Definition NSLOT : nat := 269.
(** The slot of block [bn] of a file. *)
Definition slot_of (bn : Z) : nat := if bn <? 12 then Z.to_nat bn else S (Z.to_nat bn).

Definition zeros : list Z := replicate (Z.to_nat BSIZE) 0.

Definition aset (n : Z) (a : list Z) (A : Z -> list Z) : Z -> list Z := λ m, if decide (m = n) then a else A m.
Definition bset (b : Z) (d : list Z) (B : Z -> list Z) : Z -> list Z := λ x, if decide (x = b) then d else B x.

Lemma aset_eq n a A : aset n a A n = a.
Proof. unfold aset. by rewrite decide_True. Qed.
Lemma aset_ne n m a A : m ≠ n -> aset n a A m = A m.
Proof. intros. unfold aset. by rewrite decide_False. Qed.
Lemma bset_eq b d B : bset b d B b = d.
Proof. unfold bset. by rewrite decide_True. Qed.
Lemma bset_ne b b' d B : b' ≠ b -> bset b d B b' = B b'.
Proof. intros. unfold bset. by rewrite decide_False. Qed.

(** A slot only depends on the indirect block. *)
Lemma slot_ext B B' a i : (a !!! NDIRECT ≠ 0 -> B' (a !!! NDIRECT) = B (a !!! NDIRECT)) -> slot B' a i = slot B a i.
Proof.
  intros H. unfold slot. destruct (i <=? NDIRECT)%nat; [done|]. destruct (Z.eqb_spec (a !!! NDIRECT) 0); [done|].
  by rewrite H.
Qed.
Lemma slot_indirect B a : slot B a NDIRECT = a !!! NDIRECT.
Proof. done. Qed.

Lemma slot_zero B a i : (NDIRECT < i)%nat -> a !!! NDIRECT = 0 -> slot B a i = 0.
Proof. intros Hi E. unfold slot. rewrite E. by destruct (Nat.leb_spec i NDIRECT); [lia|]. Qed.
Lemma slot_entry B a i : (NDIRECT < i)%nat -> a !!! NDIRECT ≠ 0 ->
  slot B a i = get_le 4 (4 * (i - 13)) (B (a !!! NDIRECT)).
Proof.
  intros Hi E. unfold slot. destruct (Nat.leb_spec i NDIRECT); [lia|]. by destruct (Z.eqb_spec (a !!! NDIRECT) 0).
Qed.

Lemma get_le_zeros k o : get_le k o zeros = 0.
Proof.
  unfold get_le, zeros. rewrite drop_replicate, take_replicate. generalize (k `min` (Z.to_nat BSIZE - o))%nat as x.
  induction x as [|x IH]; [done|]. cbn. by rewrite IH.
Qed.

Lemma size_le_list (X Y : gset Z) (l : list Z) : (∀ b, b ∈ X -> b ∈ Y ∨ b ∈ l) -> (size X <= size Y + length l)%nat.
Proof.
  intros H. unfold size, set_size, compose. rewrite <- length_app. apply submseteq_length, NoDup_submseteq; [apply NoDup_elements|].
  intros x Hx%elem_of_elements. rewrite elem_of_app, elem_of_elements. by apply H.
Qed.
Lemma length_filter_remove `{EqDecision X} (P Q : X -> Prop) `{∀ x, Decision (P x), ∀ x, Decision (Q x)} (l : list X) a :
  NoDup l -> a ∈ l -> P a -> (∀ x, x ∈ l -> Q x <-> P x ∧ x ≠ a) -> length (filter P l) = S (length (filter Q l)).
Proof.
  intros Hnd Ha HPa HQ. rewrite <- (length_cons a). apply Permutation_length, NoDup_Permutation.
  - by apply NoDup_filter.
  - apply NoDup_cons. split; [|by apply NoDup_filter]. intros [Hq _]%list_elem_of_filter. by apply HQ in Hq as [_ []].
  - intros x. rewrite elem_of_cons, !list_elem_of_filter. destruct (decide (x = a)) as [->|]; naive_solver.
Qed.

Section owners.
Context (s : Z) (sbk : superblock) (Hlay : layout s sbk).
Let bm := sb_bmapstart sbk.
Implicit Types (B : Z -> list Z) (A : Z -> list Z) (n : Z) (i : nat).

Definition used B (b : Z) : Prop := bit_set b (B bm) = true.
Definition datab (b : Z) : Prop := bm < b < sb_size sbk.
Definition ino n : Prop := 0 <= n < sb_ninodes sbk.

(** The blocks [B] and the addresses [A] of every inode fit together: every
    address is a data block in use, and is in one slot of one inode only. *)
Record wf B A : Prop := {
  wf_bm : length (B bm) = Z.to_nat BSIZE;
  wf_meta b : 0 <= b <= bm -> used B b;
  wf_addrs n : ino n -> length (A n) = S NDIRECT;
  wf_iblock n : ino n -> length (B (IBLOCK n sbk)) = Z.to_nat BSIZE;
  wf_data n i : ino n -> (i < NSLOT)%nat -> let b := slot B (A n) i in b ≠ 0 ->
    datab b ∧ used B b ∧ length (B b) = Z.to_nat BSIZE;
  wf_inj n i m j : ino n -> ino m -> (i < NSLOT)%nat -> (j < NSLOT)%nat ->
    slot B (A n) i = slot B (A m) j -> slot B (A n) i ≠ 0 -> n = m ∧ i = j;
}.

Lemma bm_pos : 0 < bm ∧ bm < sb_size sbk ∧ sb_size sbk <= 8192 ∧ home s bm ∧ 0 <= s.
Proof.
  destruct Hlay as [[H1 H2] [H3 H4] [H5 H6]]. fold bm in H4, H5. unfold home. change LOGBLOCKS with 30 in *.
  change IPB with 16 in H4. change BPB with 8192 in H6.
  assert (0 <= (sb_ninodes sbk - 1) / 16) by (apply Z.div_pos; lia). lia.
Qed.
Lemma data_range b : datab b -> 0 < b < 8192 ∧ home s b ∧ b ≠ bm.
Proof.
  intros [H1 H2]. destruct bm_pos as (P1 & P2 & P3 & P4 & P5). unfold home in *. change LOGBLOCKS with 30 in *.
  destruct Hlay as [[_ H3] [H4 H5] _]. fold bm in H5. change LOGBLOCKS with 30 in *.
  change IPB with 16 in H5. assert (0 <= (sb_ninodes sbk - 1) / 16) by (apply Z.div_pos; lia). lia.
Qed.

(** *** Taking a free block *)
Definition alloc (a : Z) B : Z -> list Z := bset a zeros (bset bm (mark_used a (B bm)) B).

Lemma alloc_at a B : alloc a B a = zeros.
Proof. apply bset_eq. Qed.
Lemma alloc_bm a B : datab a -> alloc a B bm = mark_used a (B bm).
Proof. intros Ha%data_range. unfold alloc. rewrite bset_ne by (symmetry; apply Ha). apply bset_eq. Qed.
Lemma alloc_other a B b : b ≠ a -> b ≠ bm -> alloc a B b = B b.
Proof. intros. unfold alloc. by rewrite !bset_ne. Qed.
Lemma alloc_length a B b : datab a -> b ≠ a -> length (alloc a B b) = length (B b).
Proof.
  intros Ha Hb. destruct (decide (b = bm)) as [->|]; [|by rewrite alloc_other].
  by rewrite alloc_bm, length_mark_used.
Qed.

Lemma alloc_used a B b : length (B bm) = Z.to_nat BSIZE -> datab a -> 0 <= b ->
  used (alloc a B) b <-> b = a ∨ used B b.
Proof.
  intros Hl Ha Hb. unfold used. rewrite alloc_bm by done. apply data_range in Ha as [Ha _].
  rewrite bit_set_mark_used; [|lia..|rewrite Hl; change (Z.of_nat (Z.to_nat BSIZE)) with 1024; zlia].
  rewrite orb_true_iff, bool_decide_eq_true. naive_solver.
Qed.

Lemma iblock_range n : ino n -> 0 <= IBLOCK n sbk < bm ∧ home s (IBLOCK n sbk) ∧ IBLOCK n sbk = n / IPB + sb_inodestart sbk.
Proof.
  intros [H1 H2]. destruct Hlay as [[L1 L2] [L3 L4] [L5 L6]]. fold bm in L4, L5. unfold home.
  change LOGBLOCKS with 30 in *. change BPB with 8192 in L6. change IPB with 16 in *.
  assert (0 <= n / 16 <= (sb_ninodes sbk - 1) / 16) by (split; [apply Z.div_pos; lia|apply Z.div_le_mono; lia]).
  unfold IBLOCK. change IPB with 16. rewrite u32_small by lia. lia.
Qed.

(** A block in use that no inode has. *)
Definition fresh B A (a : Z) : Prop :=
  datab a ∧ used B a ∧ length (B a) = Z.to_nat BSIZE ∧
  ∀ n i, ino n -> (i < NSLOT)%nat -> slot B (A n) i ≠ a.

Lemma slot_alloc B A a n i : wf B A -> datab a -> ¬ used B a -> ino n -> slot (alloc a B) (A n) i = slot B (A n) i.
Proof.
  intros Hwf Ha Hu Hn. apply slot_ext. intros Hc.
  destruct (wf_data _ _ Hwf n NDIRECT Hn) as (D1 & D2 & _); [unfold NSLOT, NDIRECT; lia|done|].
  rewrite slot_indirect in D1, D2. apply alloc_other; [by intros E; rewrite E in D2|by apply data_range].
Qed.

Lemma wf_alloc B A a : wf B A -> datab a -> ¬ used B a -> wf (alloc a B) A ∧ fresh (alloc a B) A a.
Proof.
  intros Hwf Ha Hu. pose proof (slot_alloc B A a) as Hs. pose proof (data_range a Ha) as (R1 & R2 & R3).
  pose proof Hwf as [W1 W2 W3 W4 W5 W6]. pose proof bm_pos as (P1 & P2 & _).
  split; [split|].
  - rewrite alloc_length; [done..|]. done.
  - intros b Hb. apply alloc_used; [done..|lia|]. right. by apply W2.
  - done.
  - intros n Hn. pose proof (iblock_range n Hn). rewrite alloc_length; [by apply W4|done|]. destruct Ha. lia.
  - intros n i Hn Hi. cbv zeta. rewrite Hs by done. intros Hb. destruct (W5 n i Hn Hi Hb) as (D1 & D2 & D3).
    split_and!; [done| |].
    + apply alloc_used; [done..| |by right]. apply data_range in D1. lia.
    + rewrite alloc_length; [done..|]. intros E. by rewrite E in D2.
  - intros n i m j Hn Hm Hi Hj. rewrite !Hs by done. by apply W6.
  - split_and!; [done| |by rewrite alloc_at|].
    + apply alloc_used; [done..|lia|by left].
    + intros n i Hn Hi E. rewrite Hs in E by done. destruct (W5 n i Hn Hi) as (_ & D2 & _); [rewrite E; lia|].
      by rewrite E in D2.
Qed.

(** *** Putting a block into a slot *)
Lemma wf_add_slot B A B' A' n i a :
  wf B A -> fresh B A a -> ino n ->
  (∀ m j, ino m -> (j < NSLOT)%nat ->
     slot B' (A' m) j = if decide (m = n ∧ j = i) then a else slot B (A m) j) ->
  B' bm = B bm -> (∀ b, length (B' b) = length (B b)) -> (∀ m, ino m -> length (A' m) = S NDIRECT) -> wf B' A'.
Proof.
  intros [W1 W2 W3 W4 W5 W6] (F1 & F2 & F3 & F4) Hn Hs Ebm El Ea. split; unfold used; rewrite ?Ebm; try done.
  - intros m Hm. rewrite El. by apply W4.
  - intros m j Hm Hj. cbv zeta. rewrite Hs, El by done. case_decide as E; [done|]. by apply W5.
  - intros m j m' j' Hm Hm' Hj Hj'. rewrite !Hs by done. repeat case_decide; try done.
    + intros _. naive_solver.
    + intros E _. symmetry in E. by apply F4 in E.
    + intros E _. by apply F4 in E.
    + by apply W6.
Qed.

(** A direct block or the indirect block. *)
Lemma slot_assign B A n i a j : wf B A -> ino n -> (i <= NDIRECT)%nat -> slot B (A n) i = 0 -> a ≠ 0 -> B a = zeros ->
  slot B (upd i (λ _, a) (A n)) j = if decide (j = i) then a else slot B (A n) j.
Proof.
  intros Hwf Hn Hi E0 Ha Hz. pose proof (wf_addrs _ _ Hwf n Hn) as Hl. case_decide as Ej.
  - subst j. unfold slot. destruct (Nat.leb_spec i NDIRECT); [|lia]. apply upd_eq. rewrite Hl. lia.
  - destruct (decide (j <= NDIRECT)%nat) as [Hj|Hj].
    { unfold slot. destruct (Nat.leb_spec j NDIRECT); [|lia]. apply upd_ne. congruence. }
    destruct (decide (i = NDIRECT)) as [->|Hne].
    + rewrite slot_indirect in E0. rewrite (slot_zero B (A n) j) by (done || lia).
      rewrite slot_entry; rewrite ?upd_eq; try (rewrite Hl; lia); try done; [|lia].
      rewrite Hz. apply get_le_zeros.
    + unfold slot. destruct (Nat.leb_spec j NDIRECT); [lia|]. by rewrite upd_ne.
Qed.

Lemma wf_assign B A n i a : wf B A -> ino n -> (i <= NDIRECT)%nat -> slot B (A n) i = 0 -> fresh B A a -> B a = zeros ->
  wf B (aset n (upd i (λ _, a) (A n)) A).
Proof.
  intros Hwf Hn Hi E0 Hf Hz. assert (a ≠ 0) as Ha0 by (destruct Hf as [Ha%data_range _]; lia).
  apply (wf_add_slot B A B _ n i a); try done.
  - intros m j Hm Hj. destruct (decide (m = n)) as [->|].
    + rewrite aset_eq, (slot_assign B A) by done. repeat case_decide; naive_solver.
    + rewrite aset_ne, decide_False by naive_solver. done.
  - intros m Hm. destruct (decide (m = n)) as [->|]; [rewrite aset_eq, length_upd|rewrite aset_ne by done];
      by apply (wf_addrs _ _ Hwf).
Qed.

(** An entry of the indirect block. *)
Definition set_entry (c : Z) (i : nat) (a : Z) B : Z -> list Z := bset c (put_le 4 (4 * (i - 13)) a (B c)) B.

Lemma slot_set_entry B A n i a m j : wf B A -> ino n -> ino m -> (NDIRECT < i < NSLOT)%nat -> (j < NSLOT)%nat ->
  A n !!! NDIRECT ≠ 0 -> 0 <= a < 2 ^ 32 ->
  slot (set_entry (A n !!! NDIRECT) i a B) (A m) j = if decide (m = n ∧ j = i) then a else slot B (A m) j.
Proof.
  intros Hwf Hn Hm Hi Hj Hc Ha. set (c := A n !!! NDIRECT) in *.
  assert (NDIRECT < NSLOT)%nat as HN by (unfold NDIRECT, NSLOT; lia).
  destruct (wf_data _ _ Hwf n NDIRECT Hn HN Hc) as (D1 & D2 & D3). rewrite slot_indirect in D1, D2, D3.
  fold c in D1, D2, D3. unfold set_entry.
  destruct (decide (j <= NDIRECT)%nat) as [Hj'|Hj'].
  { rewrite decide_False by lia. unfold slot. by destruct (Nat.leb_spec j NDIRECT); [|lia]. }
  destruct (decide (A m !!! NDIRECT = 0)) as [E0|E0].
  { rewrite decide_False by (intros [-> _]; done). by rewrite !slot_zero by (done || lia). }
  rewrite !slot_entry by (done || lia). destruct (decide (m = n)) as [->|Hne].
  - fold c. rewrite bset_eq. unfold NDIRECT, NSLOT in *.
    assert (Z.to_nat BSIZE = 1024%nat) as EB by done. rewrite EB in D3.
    case_decide as Eji; [destruct Eji as [_ ->]; apply get_put_le; [lia|done]|].
    apply get_put_le_ne; [lia|]. lia.
  - rewrite decide_False by naive_solver. rewrite bset_ne; [done|]. intros E.
    destruct (wf_inj _ _ Hwf m NDIRECT n NDIRECT Hm Hn HN HN); [by rewrite !slot_indirect|done|done].
Qed.

Lemma wf_set_entry B A n i a : wf B A -> ino n -> (NDIRECT < i < NSLOT)%nat -> A n !!! NDIRECT ≠ 0 -> fresh B A a ->
  wf (set_entry (A n !!! NDIRECT) i a B) A.
Proof.
  intros Hwf Hn Hi Hc Hf. assert (NDIRECT < NSLOT)%nat as HN by (unfold NDIRECT, NSLOT; lia).
  destruct (wf_data _ _ Hwf n NDIRECT Hn HN Hc) as (D1 & D2 & D3). rewrite slot_indirect in D1, D2, D3.
  apply (wf_add_slot B A _ _ n i a); try done.
  - intros m j Hm Hj. apply slot_set_entry; try done. destruct Hf as [Ha%data_range _]. lia.
  - unfold set_entry. apply bset_ne. symmetry. by apply data_range.
  - intros b. unfold set_entry, bset. case_decide; [subst b|done]. apply length_put_le. rewrite D3.
    change (Z.to_nat BSIZE) with 1024%nat. unfold NDIRECT, NSLOT in *. lia.
  - apply Hwf.
Qed.

(** *** Extending an inode *)

(** Inode [n] may get new blocks; nothing else changes but the bitmap, the
    indirect block and the blocks in the slots [ks]. *)
Record ext n (ks : list nat) B A B' A' : Prop := {
  ext_wf : wf B' A';
  ext_other m : m ≠ n -> A' m = A m;
  ext_slot i : (i < NSLOT)%nat -> slot B (A n) i ≠ 0 -> slot B' (A' n) i = slot B (A n) i;
  ext_keep b : (datab b -> used B b) -> b ≠ bm -> (b = A' n !!! NDIRECT -> b = 0) ->
    (∀ j, j ∈ ks -> (j < NSLOT)%nat -> b = slot B' (A' n) j -> b = 0) -> B' b = B b;
  ext_used b : 0 <= b -> used B b -> used B' b;
}.

Lemma wf_ext B A B' A' : (∀ b, B' b = B b) -> (∀ n, A' n = A n) -> wf B A -> wf B' A'.
Proof.
  intros EB EA [W1 W2 W3 W4 W5 W6].
  assert (∀ n i, slot B' (A' n) i = slot B (A n) i) as Es by (intros n i; rewrite EA; apply slot_ext; intros; apply EB).
  split; unfold used in *; rewrite ?EB; try done.
  - intros n Hn. rewrite EA. by apply W3.
  - intros n Hn. rewrite EB. by apply W4.
  - intros n i. cbv zeta. rewrite Es, EB. apply W5.
  - intros n i m j. rewrite !Es. apply W6.
Qed.

Lemma ext_refl n B A B' : (∀ b, B' b = B b) -> wf B A -> ext n [] B A B' A.
Proof.
  intros EB Hwf. split; try done.
  - by apply (wf_ext B A).
  - intros i Hi _. apply slot_ext. intros; apply EB.
  - intros b _. unfold used. by rewrite EB.
Qed.

Lemma ext_trans n ks ks' B A B1 A1 B2 A2 :
  ino n -> ext n ks B A B1 A1 -> ext n ks' B1 A1 B2 A2 -> ext n (ks ++ ks') B A B2 A2.
Proof.
  intros Hn [E1 E2 E3 E4 E5] [F1 F2 F3 F4 F5].
  assert (NDIRECT < NSLOT)%nat as HN by (unfold NDIRECT, NSLOT; lia). split; [done|..].
  - intros m Hm. by rewrite F2, E2.
  - intros i Hi H0. rewrite <- (E3 i Hi H0). apply F3; [done|]. by rewrite E3.
  - intros b Hu Hb Hi Hk. rewrite F4; [apply E4; try done| |done|done|].
    + intros E. destruct (decide (A1 n !!! NDIRECT = 0)); [congruence|]. apply Hi.
      rewrite E. symmetry. by apply (F3 NDIRECT).
    + intros j Hj Hl E. destruct (decide (b = 0)); [done|]. apply (Hk j); [by apply elem_of_app; left|done|].
      rewrite E. symmetry. apply F3; [done|congruence].
    + intros Hd. apply E5; [apply data_range in Hd; lia|by apply Hu].
    + intros j Hj. apply Hk, elem_of_app. by right.
  - intros b Hb Hu. apply F5; [done|]. by apply E5.
Qed.

Lemma ext_assign B A n i a B' A' : wf B A -> ino n -> (i <= NDIRECT)%nat -> slot B (A n) i = 0 -> datab a -> ¬ used B a ->
  (∀ b, B' b = alloc a B b) -> (∀ m, A' m = aset n (upd i (λ _, a) (A n)) A m) -> ext n [] B A B' A' ∧
  slot B' (A' n) i = a.
Proof.
  intros Hwf Hn Hi E0 Ha Hu EB EA. rewrite EA, aset_eq. destruct (wf_alloc B A a Hwf Ha Hu) as [Hwf1 Hf].
  pose proof (data_range a Ha) as (R1 & R2 & R3).
  assert (∀ j, slot B' (upd i (λ _, a) (A n)) j = if decide (j = i) then a else slot B (A n) j) as Es.
  { intros j. rewrite (slot_ext (alloc a B)) by (intros; apply EB).
    rewrite (slot_assign (alloc a B) A); [by rewrite slot_alloc|done..|by rewrite slot_alloc|lia|apply alloc_at]. }
  split; [split|rewrite Es; by rewrite decide_True].
  - eapply wf_ext; [exact EB|exact EA|]. apply wf_assign; try done; [by rewrite slot_alloc|apply alloc_at].
  - intros m Hm. by rewrite EA, aset_ne.
  - intros j Hj H0. rewrite EA, aset_eq, Es. case_decide; [by subst j|done].
  - intros b Hb Hne _ _. rewrite EB. apply alloc_other; [|done]. intros ->. by apply Hu, Hb.
  - intros b Hb Hub. unfold used. rewrite EB. apply alloc_used; [apply Hwf|done..|by right].
Qed.

Lemma ext_entry B A n i a B' : wf B A -> ino n -> (NDIRECT < i < NSLOT)%nat -> A n !!! NDIRECT ≠ 0 ->
  slot B (A n) i = 0 -> datab a -> ¬ used B a ->
  (∀ b, B' b = set_entry (A n !!! NDIRECT) i a (alloc a B) b) -> ext n [] B A B' A ∧ slot B' (A n) i = a.
Proof.
  intros Hwf Hn Hi Hc E0 Ha Hu EB. destruct (wf_alloc B A a Hwf Ha Hu) as [Hwf1 Hf].
  pose proof (data_range a Ha) as (R1 & R2 & R3).
  assert (∀ m j, ino m -> (j < NSLOT)%nat -> slot B' (A m) j = if decide (m = n ∧ j = i) then a else slot B (A m) j) as Es.
  { intros m j Hm Hj. rewrite (slot_ext _ B') by (intros; apply EB).
    rewrite (slot_set_entry (alloc a B) A n i a m j) by (try done; lia). by rewrite slot_alloc. }
  split; [split|rewrite Es by (done || lia); by rewrite decide_True].
  - eapply wf_ext; [exact EB|done|]. by apply wf_set_entry.
  - done.
  - intros j Hj H0. rewrite Es by done. case_decide as E; [destruct E as [_ ->]; done|done].
  - intros b Hb Hne Hi' _. rewrite EB. unfold set_entry, bset. case_decide as E.
    + specialize (Hi' E). congruence.
    + apply alloc_other; [|done]. intros ->. by apply Hu, Hb.
  - intros b Hb Hub. unfold used. rewrite EB. unfold set_entry. rewrite bset_ne.
    + apply alloc_used; [apply Hwf|done..|by right].
    + destruct (wf_data _ _ Hwf n NDIRECT Hn) as (D & _); [unfold NDIRECT, NSLOT; lia|done|].
      apply data_range in D as (_ & _ & D). symmetry. exact D.
Qed.

(** *** Free blocks *)
Definition nfree B : nat := length (filter (λ b, bit_set b (B bm) = false) (seqZ 0 (sb_size sbk))).

Lemma nfree_alloc a B B' : length (B bm) = Z.to_nat BSIZE -> datab a -> ¬ used B a -> B' bm = alloc a B bm ->
  nfree B = S (nfree B').
Proof.
  intros Hl Ha Hu EB. pose proof (data_range a Ha) as (R1 & _). unfold nfree. rewrite EB, alloc_bm by done.
  apply (length_filter_remove _ _ _ a).
  - apply NoDup_seqZ.
  - apply elem_of_seqZ. destruct Ha. lia.
  - by apply not_true_is_false.
  - intros x Hx%elem_of_seqZ.
    rewrite bit_set_mark_used; [|lia..|rewrite Hl; change (Z.of_nat (Z.to_nat BSIZE)) with 1024; zlia].
    rewrite orb_false_iff, bool_decide_eq_false. naive_solver.
Qed.
End owners.

(** ** The block allocator and the block map *)
Section code.
Context {L : Linker} {W : World} {DW : DiskWorld W} (p : nat) (s : Z).
Context (img : gmap Z (list Z)) (wr : list (Z * list Z)) (sbk : superblock) (o : Z) (Hlay : layout s sbk).
Local Abbreviation bm := (sb_bmapstart sbk).
Local Abbreviation fs σ m Q := (fsl p s img wr sbk o [] σ m [] Q).
Local Abbreviation blk := (blk img).
Local Abbreviation isused := (used sbk).
Local Abbreviation datab := (datab sbk).
Local Abbreviation wf := (wf sbk).
Local Abbreviation frees := (nfree sbk).
Implicit Types (σ : st) (A : Z -> list Z).

Context (Hpos : 1 <= o).

Definition st_alloc (a : Z) σ : st := st_put a zeros (st_put bm (mark_used a (blk σ bm)) σ).

Lemma blk_alloc a σ b : blk (st_alloc a σ) b = alloc sbk a (blk σ) b.
Proof. unfold st_alloc, alloc, bset. rewrite !blk_put. done. Qed.
Lemma size_put σ b d : (size (s_pins (st_put b d σ)) <= S (size (s_pins σ)))%nat.
Proof.
  cbn. destruct (s_pins σ !! b) eqn:E; [rewrite map_size_insert_Some by done; lia|].
  by rewrite map_size_insert_None.
Qed.

Lemma BBLOCK_eq b : 0 <= b < 8192 -> BBLOCK b sbk = bm.
Proof.
  intros Hb. destruct (bm_pos s sbk Hlay) as (P1 & P2 & P3 & _). unfold BBLOCK. change BPB with 8192.
  rewrite Z.div_small, u32_small by lia. done.
Qed.

Lemma nfree_exists σ : (0 < frees (blk σ))%nat -> ∃ b, 0 <= b < sb_size sbk ∧ bit_set b (blk σ bm) = false.
Proof.
  unfold nfree. destruct (filter _ _) as [|b l] eqn:E; [cbn; lia|]. intros _. exists b.
  assert (b ∈ b :: l) as Hb by (by left). rewrite <- E in Hb. apply list_elem_of_filter in Hb as [Hb Hr].
  apply elem_of_seqZ in Hr. split; [lia|done].
Qed.

Lemma fs_bzero σ b : 0 <= b < 2 ^ 31 -> home s b -> unheld σ b -> (size (s_held σ) + size (s_pins σ) < NBUF)%nat ->
  fs σ (bzero ROOTDEV b) (λ _ σ', σ' = st_put b zeros σ).
Proof.
  intros Hb Hh Hu Hs. unfold bzero. rewrite u32_small by lia.
  eapply fs_bind; [by apply fs_bread|]. intros bp ? [Hbp ->].
  eapply fs_bind; [apply (fs_write_data _ _ _ _ _ _ _ bp b (blk σ b)), lookup_insert_eq|]. intros [] ? ->.
  assert (st_hold bp b ((λ _, replicate (Z.to_nat BSIZE) 0) (blk σ b)) (st_hold bp b (blk σ b) σ) = st_hold bp b zeros σ) as ->
    by (unfold st_hold, set, set_s_held; cbn; by rewrite insert_insert_eq).
  eapply fs_bind; [apply fs_log_pin; try done; lia|]. intros [] ? ->. by apply fs_brelse_pinned.
Qed.

(** [balloc] finds a free block, marks and clears it. *)
Lemma fs_balloc σ A : wf (blk σ) A -> (0 < frees (blk σ))%nat -> unheld σ bm ->
  (∀ b bno d, s_held σ !! b = Some (bno, d) -> isused (blk σ) bno) ->
  (S (size (s_held σ) + size (s_pins σ)) < NBUF)%nat ->
  fs σ (balloc ROOTDEV) (λ a σ', datab a ∧ ¬ isused (blk σ) a ∧ σ' = st_alloc a σ).
Proof.
  intros Hwf Hfree Hub Hheld Hs. destruct (bm_pos s sbk Hlay) as (P1 & P2 & P3 & P4 & P5).
  unfold balloc. eapply fs_bind; [apply fs_read_sb|]. intros ? ? [-> ->]. unfold id.
  cbn [balloc_loop]. eapply fs_bind; [apply fs_read_sb|]. intros ? ? [-> ->]. unfold id.
  replace (0 <? sb_size sbk) with true by (symmetry; lia). rewrite BBLOCK_eq by lia.
  eapply fs_bind; [apply fs_bread; [lia|done|lia]|]. intros bp ? [Hbp ->].
  eapply fs_bind; [apply (fs_read_buf _ _ _ _ _ _ _ bp bm (blk σ bm) id), lookup_insert_eq|]. intros ? ? [-> ->]. unfold id.
  pose proof (balloc_scan_spec (Z.to_nat (Z.min BPB (sb_size sbk - 0))) 0 (blk σ bm)) as Hscan.
  replace (Z.of_nat (Z.to_nat (Z.min BPB (sb_size sbk - 0)))) with (sb_size sbk) in Hscan
    by (change BPB with 8192; lia).
  destruct (balloc_scan _ 0 (blk σ bm)) as [a|].
  2: { destruct (nfree_exists σ Hfree) as (b & Hb & Eb). rewrite Hscan in Eb by lia. done. }
  destruct Hscan as (Ha & Ea & _).
  assert (datab a) as Hd.
  { split; [|lia]. destruct (decide (a <= bm)); [|lia].
    assert (isused (blk σ) a) as Hu by (apply (wf_meta _ _ _ Hwf); lia). unfold used in Hu. congruence. }
  assert (¬ isused (blk σ) a) as Hnu by (unfold used; congruence).
  pose proof (data_range s sbk Hlay a Hd) as (R1 & R2 & R3). rewrite Z.add_0_l.
  eapply fs_bind; [apply (fs_write_data _ _ _ _ _ _ _ bp bm (blk σ bm)), lookup_insert_eq|]. intros [] ? ->.
  assert (st_hold bp bm (mark_used a (blk σ bm)) (st_hold bp bm (blk σ bm) σ) = st_hold bp bm (mark_used a (blk σ bm)) σ) as ->
    by (unfold st_hold, set, set_s_held; cbn; by rewrite insert_insert_eq).
  eapply fs_bind; [apply fs_log_pin; try done; lia|]. intros [] ? ->.
  eapply fs_bind; [by apply fs_brelse_pinned|]. intros [] ? ->.
  pose proof (size_put σ bm (mark_used a (blk σ bm))) as Hsz.
  eapply fs_bind; [apply fs_bzero; [lia|done| |cbn in *; lia]|].
  - intros b d Hh. cbn in Hh. by apply Hheld in Hh.
  - intros [] ? ->. by apply fs_ret.
Qed.

(** *** An inode in the table *)
Context (ip : nat) (n : Z) (A0 : Z -> list Z) (Hn : ino sbk n).
Definition addrs σ : list Z := i_addrs (s_inodes σ !!! ip).
(** The addresses of all inodes: of [n] those in the table. *)
Definition A_of σ : Z -> list Z := aset n (addrs σ) A0.

Record good σ : Prop := {
  g_wf : wf (blk σ) (A_of σ);
  g_held : s_held σ = ∅;
  g_dev : i_dev (s_inodes σ !!! ip) = ROOTDEV;
  g_ip : (ip < length (s_inodes σ))%nat;
}.

(** From [σ] to [σ'] inode [n] may have got blocks, and the transaction has
    logged at most the bitmap, the indirect block and the blocks of [js], and
    changed of the blocks in use at most those of [ks]. *)
Record step (js ks : list nat) σ σ' : Prop := {
  st_good : good σ';
  st_inodes : s_inodes σ' = upd ip (λ r, r <| i_addrs := addrs σ' |>) (s_inodes σ);
  st_ext : ext sbk n ks (blk σ) (A_of σ) (blk σ') (A_of σ');
  st_dom b : is_Some (s_pins σ' !! b) -> is_Some (s_pins σ !! b) ∨ b = bm ∨
    (b ≠ 0 ∧ (b = addrs σ' !!! NDIRECT ∨ ∃ j, j ∈ js ∧ (j < NSLOT)%nat ∧ b = slot (blk σ') (addrs σ') j));
  st_rest : s_ilk σ' = s_ilk σ ∧ s_user σ' = s_user σ;
}.
Definition room σ : Z := Z.of_nat (frees (blk σ)) - (if addrs σ !!! NDIRECT =? 0 then 1 else 0).

Lemma step_refl js σ : good σ -> step js [] σ σ.
Proof.
  intros Hg. split; [done|symmetry; apply upd_id; [apply Hg|done]| |by left|done].
  apply ext_refl; [done|apply Hg].
Qed.

Lemma step_addrs js ks σ σ' i : step js ks σ σ' -> (i < NSLOT)%nat -> slot (blk σ) (addrs σ) i ≠ 0 ->
  slot (blk σ') (addrs σ') i = slot (blk σ) (addrs σ) i.
Proof.
  intros Hs Hi H0. pose proof (ext_slot _ _ _ _ _ _ _ (st_ext _ _ _ _ Hs) i Hi) as E.
  unfold A_of in E. rewrite !aset_eq in E. by apply E.
Qed.

Lemma step_trans js ks js' ks' σ σ1 σ2 :
  step js ks σ σ1 -> step js' ks' σ1 σ2 -> step (js ++ js') (ks ++ ks') σ σ2.
Proof.
  intros H1 H2. pose proof H1 as [G1 I1 E1 D1 [K1 U1]]. pose proof H2 as [G2 I2 E2 D2 [K2 U2]]. split; [done|..|split; congruence].
  - rewrite I2, I1, upd_upd. done.
  - by apply (ext_trans s sbk Hlay n ks ks' _ _ (blk σ1) (A_of σ1)).
  - intros b Hb. destruct (D2 b Hb) as [Hb1|[->|(Hb0 & [->|(j & Hj & Hl & ->)])]]; [|by right; left|by right; right; auto|].
    + destruct (D1 b Hb1) as [?|[->|(Hb0 & [->|(j & Hj & Hl & ->)])]]; [by left|by right; left|right; right; split; [done|]..].
      * left. symmetry. apply (step_addrs js' ks' σ1 σ2 NDIRECT H2); [unfold NDIRECT, NSLOT; lia|done].
      * right. exists j. split_and!; [by apply elem_of_app; left|done|]. symmetry. by apply (step_addrs js' ks').
    + right. right. split; [done|]. right. exists j. split_and!; [by apply elem_of_app; right|done..].
Qed.

Lemma A_of_n σ : A_of σ n = addrs σ.
Proof. apply aset_eq. Qed.

Lemma step_assign σ i a :
  good σ -> (i <= NDIRECT)%nat -> slot (blk σ) (addrs σ) i = 0 -> datab a -> ¬ isused (blk σ) a ->
  let σ' := (st_alloc a σ) <| s_inodes ::= upd ip (λ r, r <| i_addrs ::= upd i (λ _, a) |>) |> in
  step [i] [] σ σ' ∧ slot (blk σ') (addrs σ') i = a ∧ addrs σ' = upd i (λ _, a) (addrs σ) ∧
  frees (blk σ) = S (frees (blk σ')).
Proof.
  intros [Hwf Hh Hd Hip] Hi E0 Ha Hu. cbv zeta. set (σ' := (st_alloc a σ) <| s_inodes ::= _ |>).
  assert (∀ b, blk σ' b = alloc sbk a (blk σ) b) as EB by (intros b; apply (blk_alloc a σ)).
  assert (addrs σ' = upd i (λ _, a) (addrs σ)) as Ea by (unfold addrs, σ'; cbn; by rewrite upd_eq).
  destruct (ext_assign s sbk Hlay (blk σ) (A_of σ) n i a (blk σ') (A_of σ')) as [Hext Hsl]; try done.
  { by rewrite A_of_n. }
  { intros m. unfold A_of at 1. rewrite Ea, A_of_n. unfold aset, A_of, aset. by case_decide. }
  rewrite A_of_n in Hsl. split_and!; [|done|done|].
  - split; [split|..].
    + apply Hext.
    + exact Hh.
    + unfold σ'. cbn. by rewrite upd_eq.
    + unfold σ'. cbn. by rewrite length_upd.
    + unfold σ' at 1. cbn. apply upd_ext. fold (addrs σ). by rewrite Ea.
    + exact Hext.
    + intros b [x Hb]. unfold σ' in Hb. cbn in Hb. apply lookup_insert_Some in Hb as [[<- _]|[_ Hb]].
      * right. right. split; [destruct Ha; pose proof (bm_pos s sbk Hlay); lia|]. right. exists i. split_and!; [by left| |done].
        unfold NDIRECT, NSLOT in *. lia.
      * apply lookup_insert_Some in Hb as [[<- _]|[_ Hb]]; [by right; left|left; by eexists].
    + done.
  - apply (nfree_alloc s sbk Hlay a); [apply Hwf|done..|apply EB].
Qed.

Lemma step_entry σ i a :
  good σ -> (NDIRECT < i < NSLOT)%nat -> addrs σ !!! NDIRECT ≠ 0 -> slot (blk σ) (addrs σ) i = 0 ->
  datab a -> ¬ isused (blk σ) a ->
  let c := addrs σ !!! NDIRECT in
  let σ' := st_put c (put_le 4 (4 * (i - 13)) a (blk σ c)) (st_alloc a σ) in
  step [i] [] σ σ' ∧ slot (blk σ') (addrs σ') i = a ∧ frees (blk σ) = S (frees (blk σ')).
Proof.
  intros [Hwf Hh Hd Hip] Hi Hc E0 Ha Hu c. cbv zeta. set (σ' := st_put _ _ _).
  assert (datab c ∧ isused (blk σ) c) as [Dc Uc].
  { destruct (wf_data _ _ _ Hwf n NDIRECT Hn) as (D1 & D2 & _); [unfold NDIRECT, NSLOT; lia|by rewrite A_of_n|].
    rewrite A_of_n in D1, D2. done. }
  pose proof (data_range s sbk Hlay c Dc) as (R1 & R2 & R3).
  assert (c ≠ a) as Hca by (intros E; rewrite E in Uc; done).
  assert (∀ b, blk σ' b = set_entry (A_of σ n !!! NDIRECT) i a (alloc sbk a (blk σ)) b) as EB.
  { intros b. unfold σ', set_entry, bset. rewrite A_of_n. fold c. rewrite blk_put.
    case_decide; [|apply blk_alloc]. by rewrite alloc_other. }
  destruct (ext_entry s sbk Hlay (blk σ) (A_of σ) n i a (blk σ')) as [Hext Hsl]; try done; [by rewrite A_of_n..|].
  rewrite A_of_n in Hsl. split_and!; [|done|].
  - split; [split|..]; try done.
    + apply Hext.
    + symmetry. by apply upd_id.
    + intros b [x Hb]. unfold σ' in Hb. cbn in Hb. apply lookup_insert_Some in Hb as [[<- _]|[_ Hb]].
      { right. right. split; [exact Hc|]. by left. }
      apply lookup_insert_Some in Hb as [[<- _]|[_ Hb]].
      * right. right. split; [destruct Ha; pose proof (bm_pos s sbk Hlay); lia|]. right. exists i. split_and!; [by left|lia|done].
      * apply lookup_insert_Some in Hb as [[<- _]|[_ Hb]]; [by right; left|left; by eexists].
  - apply (nfree_alloc s sbk Hlay a); [apply Hwf|done..|]. rewrite EB, A_of_n. unfold set_entry. by rewrite bset_ne.
Qed.

Lemma step_size js ks σ σ' : step js ks σ σ' -> (size (s_pins σ') <= size (s_pins σ) + (2 + length js))%nat.
Proof.
  intros Hs. rewrite <- !size_dom, <- (length_fmap (λ j, slot (blk σ') (addrs σ') j) js).
  apply (size_le_list _ _ (bm :: addrs σ' !!! NDIRECT :: ((λ j, slot (blk σ') (addrs σ') j) <$> js))).
  intros b Hb%elem_of_dom. rewrite elem_of_dom, !elem_of_cons, list_elem_of_fmap.
  destruct (st_dom _ _ _ _ Hs b Hb) as [?|[?|(_ & [?|(j & ? & _ & ?)])]]; [by left|by right; left|by right; right; left|].
  right. right. right. by exists j.
Qed.

Lemma step_indirect σ σ' : step [NDIRECT] [] σ σ' -> step [] [] σ σ'.
Proof.
  intros [H1 H2 H3 H4 H5]. split; [done|done|done| |done]. intros b Hb.
  destruct (H4 b Hb) as [?|[?|(? & [?|(j & Hj & _ & ->)])]]; [by left|by right; left|by right; right; auto|].
  apply list_elem_of_singleton in Hj as ->. right. right. split; [done|]. by left.
Qed.

(** The indirect block, allocated when there is none. *)
Lemma fs_indirect σ : good σ -> (size (s_pins σ) <= 25)%nat -> 0 <= room σ ->
  fs σ (if addrs σ !!! NDIRECT =? 0 then
          addr ← balloc ROOTDEV;
          when (negb (addr =? 0)) (write_inode ip (λ r, r <| i_addrs ::= upd NDIRECT (λ _, addr) |>)) ;;
          mret addr
        else mret (addrs σ !!! NDIRECT))
    (λ c σ', c = addrs σ' !!! NDIRECT ∧ c ≠ 0 ∧ step [] [] σ σ' ∧ room σ <= room σ').
Proof.
  intros Hg Hs Hr. pose proof Hg as [Hwf Hh Hd Hip]. unfold room in Hr |- *.
  destruct (Z.eqb_spec (addrs σ !!! NDIRECT) 0) as [E0|E0].
  2: { apply fs_ret. split_and!; [done..|by apply step_refl|].
       destruct (Z.eqb_spec (addrs σ !!! NDIRECT) 0); [done|lia]. }
  eapply fs_bind; [apply (fs_balloc σ (A_of σ)); try done; [lia|intros b d; by rewrite Hh|intros b bno d; by rewrite Hh|]|].
  { rewrite Hh, map_size_empty. unfold NBUF. lia. }
  intros a ? (Ha & Hu & ->). pose proof (data_range s sbk Hlay a Ha) as (R1 & R2 & R3).
  destruct (Z.eqb_spec a 0); [lia|]. cbn [negb when].
  eapply fs_bind; [apply fs_write_inode|]. intros [] ? ->.
  destruct (step_assign σ NDIRECT a Hg) as (Hst & Hsl & _ & Hf); [done|done|done|done|].
  apply fs_ret. rewrite slot_indirect in Hsl. split_and!; [by rewrite Hsl|done|by apply step_indirect|].
  destruct (Z.eqb_spec (addrs ((st_alloc a σ) <| s_inodes ::= upd ip (λ r, r <| i_addrs ::= upd NDIRECT (λ _, a) |>) |>) !!! NDIRECT) 0);
    [congruence|lia].
Qed.

(** The entry [i] of the indirect block. *)
Lemma fs_entry σ i : good σ -> (size (s_pins σ) <= 27)%nat -> (NDIRECT < i < NSLOT)%nat ->
  addrs σ !!! NDIRECT ≠ 0 -> slot (blk σ) (addrs σ) i = 0 -> 1 <= room σ ->
  fs σ (bp ← bread ROOTDEV (addrs σ !!! NDIRECT);
        addr ← read_buf bp (λ b, get_le 4 (4 * (i - 13)) (b_data b));
        addr ← (if addr =? 0 then
                  addr ← balloc ROOTDEV;
                  when (negb (addr =? 0)) (write_data bp (put_le 4 (4 * (i - 13)) addr) ;; log_write bp) ;;
                  mret addr
                else mret addr);
        brelse bp ;;
        mret addr)
    (λ a σ', a = slot (blk σ') (addrs σ') i ∧ a ≠ 0 ∧ step [i] [] σ σ' ∧ room σ - 1 <= room σ').
Proof.
  intros Hg Hs Hi Hc E0 Hr. pose proof Hg as [Hwf Hh Hd Hip]. set (c := addrs σ !!! NDIRECT) in *.
  destruct (wf_data _ _ _ Hwf n NDIRECT Hn) as (D1 & D2 & _); [unfold NDIRECT, NSLOT; lia|by rewrite A_of_n|].
  rewrite A_of_n, slot_indirect in D1, D2. fold c in D1, D2.
  pose proof (data_range s sbk Hlay c D1) as (R1 & R2 & R3). unfold NBUF.
  eapply fs_bind; [apply fs_bread; [lia|intros b d; by rewrite Hh|rewrite Hh, map_size_empty; unfold NBUF; lia]|].
  intros bp ? [Hbp ->].
  eapply fs_bind; [apply (fs_read_buf _ _ _ _ _ _ _ bp c (blk σ c)), lookup_insert_eq|]. intros ? ? [-> ->].
  cbv beta. rewrite slot_entry in E0 by (done || lia). fold c in E0. rewrite E0. cbn [Z.eqb].
  unfold room in Hr |- *. fold c in Hr. destruct (Z.eqb_spec c 0) as [|_]; [done|].
  assert (∀ b, blk (st_hold bp c (blk σ c) σ) b = blk σ b) as Eb by done.
  eapply (fs_bind _ _ _ _ _ _ _ _ _ _ _ _ (λ a σ', datab a ∧ ¬ isused (blk σ) a ∧
    let d := put_le 4 (4 * (i - 13)) a (blk σ c) in σ' = st_pin c d (st_hold bp c d (st_alloc a σ)))).
  - eapply fs_bind; [apply (fs_balloc (st_hold bp c (blk σ c) σ) (A_of σ)); try done; [change (blk (st_hold bp c (blk σ c) σ)) with (blk σ); lia|..]|].
    + intros b d. cbn. rewrite Hh. intros [[_ [= E _]]|[_ []%lookup_empty_Some]]%lookup_insert_Some. by apply R3.
    + intros b bno d. cbn. rewrite Hh. intros [[_ [= <- _]]|[_ []%lookup_empty_Some]]%lookup_insert_Some. done.
    + cbn. rewrite Hh, insert_empty, map_size_singleton. unfold NBUF. lia.
    + intros a ? (Ha & Hu & ->). pose proof (data_range s sbk Hlay a Ha) as (Q1 & _).
      destruct (Z.eqb_spec a 0); [lia|]. cbn [negb when].
      set (d := put_le 4 (4 * (i - 13)) a (blk σ c)).
      eapply (fs_bind _ _ _ _ _ _ _ _ _ _ _ _ (λ _ σ', σ' = st_pin c d (st_hold bp c d (st_alloc a σ)))).
      * eapply fs_bind; [apply (fs_write_data _ _ _ _ _ _ _ bp c (blk σ c)), lookup_insert_eq|]. intros [] ? ->. fold d.
        assert (st_hold bp c d (st_alloc a (st_hold bp c (blk σ c) σ)) = st_hold bp c d (st_alloc a σ)) as ->
          by (unfold st_hold, st_alloc, st_put, set, set_s_held, set_s_pins; cbn; by rewrite insert_insert_eq).
        apply fs_log_pin; [done|lia|done|]. unfold st_alloc.
        pose proof (size_put (st_put bm (mark_used a (blk σ bm)) σ) a zeros).
        pose proof (size_put σ bm (mark_used a (blk σ bm))). unfold NBUF. lia.
      * intros [] ? ->. apply fs_ret. done.
  - intros a ? (Ha & Hu & ->). eapply fs_bind; [by apply fs_brelse_pinned|]. intros [] ? ->. apply fs_ret.
    destruct (step_entry σ i a Hg Hi Hc) as (Hst & Hsl & Hf); [by rewrite slot_entry by (done || lia)|done|done|].
    fold c in Hst, Hsl, Hf. split_and!; [by rewrite Hsl|apply (data_range s sbk Hlay) in Ha; lia|done|].
    change (addrs (st_put c _ _)) with (addrs σ). fold c. destruct (Z.eqb_spec c 0); [done|lia].
Qed.

Lemma fs_entry_present σ i : good σ -> (size (s_pins σ) <= 27)%nat -> (NDIRECT < i < NSLOT)%nat ->
  addrs σ !!! NDIRECT ≠ 0 -> slot (blk σ) (addrs σ) i ≠ 0 ->
  fs σ (bp ← bread ROOTDEV (addrs σ !!! NDIRECT);
        addr ← read_buf bp (λ b, get_le 4 (4 * (i - 13)) (b_data b));
        addr ← (if addr =? 0 then
                  addr ← balloc ROOTDEV;
                  when (negb (addr =? 0)) (write_data bp (put_le 4 (4 * (i - 13)) addr) ;; log_write bp) ;;
                  mret addr
                else mret addr);
        brelse bp ;;
        mret addr)
    (λ a σ', a = slot (blk σ) (addrs σ) i ∧ σ' = σ).
Proof.
  intros [Hwf Hh Hd Hip] Hs Hi Hc E0. set (c := addrs σ !!! NDIRECT) in *.
  destruct (wf_data _ _ _ Hwf n NDIRECT Hn) as (D1 & D2 & _); [unfold NDIRECT, NSLOT; lia|by rewrite A_of_n|].
  rewrite A_of_n, slot_indirect in D1, D2. apply (data_range s sbk Hlay) in D1 as (R1 & R2 & R3). fold c in R1.
  rewrite slot_entry in E0 |- * by (done || lia). fold c in E0 |- *.
  eapply fs_bind; [apply fs_bread; [lia|intros b d; by rewrite Hh|rewrite Hh, map_size_empty; unfold NBUF; lia]|].
  intros bp ? [Hbp ->].
  eapply fs_bind; [apply (fs_read_buf _ _ _ _ _ _ _ bp c (blk σ c)), lookup_insert_eq|]. intros ? ? [-> ->].
  destruct (Z.eqb_spec (get_le 4 (4 * (i - 13)) (blk σ c)) 0) as [|_]; [done|].
  eapply fs_bind; [apply fs_return|]. intros ? ? [-> ->].
  eapply fs_bind; [by apply fs_brelse_clean|]. intros [] ? ->. by apply fs_ret.
Qed.

Lemma slot_of_range bn : 0 <= bn < MAXFILE -> (slot_of bn < NSLOT)%nat ∧ slot_of bn ≠ NDIRECT ∧
  (12 <= bn -> slot_of bn = S (Z.to_nat bn) ∧ (NDIRECT < slot_of bn)%nat ∧ Z.to_nat (4 * (bn - 12)) = (4 * (slot_of bn - 13))%nat).
Proof.
  change MAXFILE with 268. unfold slot_of, NSLOT, NDIRECT. intros. destruct (Z.ltb_spec bn 12); lia.
Qed.
Lemma slot_direct B a i : (i <= NDIRECT)%nat -> slot B a i = a !!! i.
Proof. intros. unfold slot. by destruct (Nat.leb_spec i NDIRECT); [|lia]. Qed.

(** [bmap] on a block the file has. *)
Lemma bmap_present σ bn : good σ -> 0 <= bn < MAXFILE -> (size (s_pins σ) <= 25)%nat ->
  let a := slot (blk σ) (addrs σ) (slot_of bn) in a ≠ 0 -> fs σ (bmap ip bn) (λ x σ', x = a ∧ σ' = σ).
Proof.
  intros Hg Hbn Hs a Ha. pose proof Hg as [Hwf Hh Hd Hip]. destruct (slot_of_range bn Hbn) as (Hsl & _ & Hge).
  unfold bmap. eapply fs_bind; [apply fs_read_inode|]. intros dev ? [Hdev ->].
  assert (dev = ROOTDEV) as -> by (rewrite Hdev; exact Hd). clear Hdev.
  change (Z.of_nat NDIRECT) with 12. destruct (Z.ltb_spec bn 12) as [Hlt|Hb].
  - assert (slot_of bn = Z.to_nat bn) as Es by (unfold slot_of; by destruct (Z.ltb_spec bn 12); [|lia]).
    eapply fs_bind; [apply fs_read_inode|]. intros x ? [-> ->]. fold (addrs σ). unfold a in *.
    rewrite Es, slot_direct in * by (unfold NDIRECT; lia).
    destruct (Z.eqb_spec (addrs σ !!! Z.to_nat bn) 0); [done|]. by apply fs_ret.
  - destruct (Hge Hb) as (_ & Hi & ->). change MAXFILE with 268 in Hbn. change NINDIRECT with 256.
    replace (bn - 12 <? 256) with true by (symmetry; lia).
    assert (addrs σ !!! NDIRECT ≠ 0) as Hc by (intros E; apply Ha, slot_zero; done).
    eapply fs_bind; [apply fs_read_inode|]. intros x ? [-> ->]. fold (addrs σ).
    eapply (fs_bind _ _ _ _ _ _ _ _ _ _ _ _ (λ x σ', x = addrs σ !!! NDIRECT ∧ σ' = σ)).
    { destruct (Z.eqb_spec (addrs σ !!! NDIRECT) 0); [done|]. by apply fs_ret. }
    intros ? ? [-> ->]. destruct (Z.eqb_spec (addrs σ !!! NDIRECT) 0) as [|_]; [done|].
    apply fs_entry_present; done || lia.
Qed.

(** [bmap] on any block: the file has it afterwards. *)
Lemma bmap_spec σ bn : good σ -> 0 <= bn < MAXFILE -> (size (s_pins σ) <= 25)%nat -> 1 <= room σ ->
  fs σ (bmap ip bn) (λ a σ', a = slot (blk σ') (addrs σ') (slot_of bn) ∧ a ≠ 0 ∧ step [slot_of bn] [] σ σ' ∧
    room σ - 1 <= room σ').
Proof.
  intros Hg Hbn Hs Hr. destruct (decide (slot (blk σ) (addrs σ) (slot_of bn) = 0)) as [E0|E0].
  2: { eapply fs_mono; [by apply bmap_present|]. intros a ? [-> ->]. split_and!; [done..|by apply step_refl|lia]. }
  pose proof Hg as [Hwf Hh Hd Hip]. destruct (slot_of_range bn Hbn) as (Hsl & _ & Hge).
  unfold bmap. eapply fs_bind; [apply fs_read_inode|]. intros dev ? [Hdev ->].
  assert (dev = ROOTDEV) as -> by (rewrite Hdev; exact Hd). clear Hdev.
  change (Z.of_nat NDIRECT) with 12. destruct (Z.ltb_spec bn 12) as [Hlt|Hb].
  - assert (slot_of bn = Z.to_nat bn) as Es by (unfold slot_of; by destruct (Z.ltb_spec bn 12); [|lia]).
    rewrite Es in *. assert (Z.to_nat bn <= NDIRECT)%nat as Hi by (unfold NDIRECT; lia).
    eapply fs_bind; [apply fs_read_inode|]. intros x ? [-> ->]. fold (addrs σ).
    pose proof E0 as E1. rewrite slot_direct in E1 by done. rewrite E1. cbn [Z.eqb].
    assert (0 < frees (blk σ))%nat as Hf by (unfold room in Hr; destruct (_ =? 0); lia).
    eapply fs_bind; [apply (fs_balloc σ (A_of σ)); try done; [intros b d; by rewrite Hh|intros b bno d; by rewrite Hh|]|].
    { rewrite Hh, map_size_empty. unfold NBUF. lia. }
    intros a ? (Ha & Hu & ->). pose proof (data_range s sbk Hlay a Ha) as (R1 & _). destruct (Z.eqb_spec a 0); [lia|].
    eapply fs_bind; [apply fs_write_inode|]. intros [] ? ->. apply fs_ret.
    destruct (step_assign σ (Z.to_nat bn) a Hg Hi E0 Ha Hu) as (Hst & Hsl' & Had & Hf'). rewrite Hsl'.
    split_and!; [done..|]. unfold room. rewrite Had, upd_ne by (unfold NDIRECT; lia). lia.
  - destruct (Hge Hb) as (_ & Hi & ->). change MAXFILE with 268 in Hbn. change NINDIRECT with 256.
    replace (bn - 12 <? 256) with true by (symmetry; lia).
    eapply fs_bind; [apply fs_read_inode|]. intros x ? [-> ->]. fold (addrs σ).
    eapply fs_bind; [apply fs_indirect; [done..|lia]|]. intros c σ1 (-> & Hc & Hst1 & Hr1).
    destruct (Z.eqb_spec (addrs σ1 !!! NDIRECT) 0) as [|_]; [done|].
    pose proof (step_size _ _ _ _ Hst1) as Hs1. cbn in Hs1. pose proof (st_good _ _ _ _ Hst1) as Hg1.
    destruct (decide (slot (blk σ1) (addrs σ1) (slot_of bn) = 0)) as [E1|E1].
    + eapply fs_mono; [apply fs_entry; [done|lia|done|done|done|lia]|].
      intros a σ2 (-> & Ha & Hst2 & Hr2). split_and!; [done..| |lia]. by apply (step_trans [] [] [slot_of bn] [] σ σ1).
    + eapply fs_mono; [apply fs_entry_present; [done|lia|done|done|done]|].
      intros a ? [-> ->]. split_and!; [done..| |lia].
      apply (step_trans [] [] [slot_of bn] [] σ σ1); [done|]. by apply step_refl.
Qed.
End code.
