(* ===== verification/FsFile.v ===== *)
(** * Reading and writing the content of a file

    [readi] and [writei] on the blocks of an inode: the content of a file is an
    array of bytes that [writei] changes and [readi] returns. *)
From S2P Require Import Prelude Layout KState Spinlock CString Vm Proc Uart Sleeplock Virtio Bio.
From S2P Require Import Log Fs SchedEq FsView Disk Bcache LogSpec Txn FsTx FsSpec.

(** The slots of the blocks with the bytes [off] to [off + k - 1]. *)
Definition slots (off k : Z) : list nat :=
  if 0 <? k then slot_of <$> seqZ (off / BSIZE) ((off + k - 1) / BSIZE - off / BSIZE + 1) else [].

Lemma slots_cons off k m : 0 <= off -> 0 < k -> m = Z.min k (BSIZE - off mod BSIZE) ->
  slots off k = slot_of (off / BSIZE) :: slots (off + m) (k - m).
Proof.
  intros Ho Hk ->. unfold slots, BSIZE. replace (0 <? k) with true by (symmetry; lia).
  destruct (Z.min_spec k (1024 - off mod 1024)) as [[H1 ->]|[H1 ->]].
  - replace (0 <? k - k) with false by (symmetry; lia).
    replace ((off + k - 1) / 1024 - off / 1024 + 1) with 1 by zlia. done.
  - destruct (Z.ltb_spec 0 (k - (1024 - off mod 1024))) as [H2|H2].
    + replace (off + (1024 - off mod 1024) + (k - (1024 - off mod 1024)) - 1) with (off + k - 1) by lia.
      replace ((off + (1024 - off mod 1024)) / 1024) with (Z.succ (off / 1024)) by zlia.
      rewrite (seqZ_cons (off / 1024)) by zlia. cbn. do 2 f_equal. f_equal. lia.
    + replace ((off + k - 1) / 1024 - off / 1024 + 1) with 1 by zlia. done.
Qed.

Section file.
Context {L : Linker} {W : World} {DW : DiskWorld W} (p : nat) (s : Z).
Context (img : gmap Z (list Z)) (wr : list (Z * list Z)) (sbk : superblock) (nop : Z) (Hlay : layout s sbk).
Context (ip : nat) (n : Z) (A0 : Z -> list Z) (Hn : ino sbk n).
Local Abbreviation fs σ m Q := (fsl p s img wr sbk nop [] σ m [] Q).
Local Abbreviation blk := (blk img).
Local Abbreviation bm := (sb_bmapstart sbk).
Local Abbreviation good := (good img sbk ip n A0).
Local Abbreviation step := (step img sbk ip n A0).
Local Abbreviation room := (room img sbk ip).
Local Abbreviation addrs := (addrs ip).
Implicit Types (σ : st).

(** The block number, the block and the byte of the file at an offset. *)
Definition baddr σ (bn : Z) : Z := slot (blk σ) (addrs σ) (slot_of bn).
Definition byte σ (off : Z) : Z := blk σ (baddr σ (off / BSIZE)) !!! Z.to_nat (off mod BSIZE).
Definition bytes σ (off k : Z) : list Z := (λ i, byte σ (off + i)) <$> seqZ 0 k.
(** The blocks of the first [size] bytes are there. *)
Definition whole σ (size : Z) : Prop := ∀ off, 0 <= off < size -> baddr σ (off / BSIZE) ≠ 0.

Lemma fbytes_app σ off j k : 0 <= j <= k -> bytes σ off k = bytes σ off j ++ bytes σ (off + j) (k - j).
Proof.
  intros Hj. unfold bytes. replace k with (j + (k - j)) at 1 by lia. rewrite seqZ_app, fmap_app by lia. f_equal.
  rewrite Z.add_0_l. replace (seqZ j (k - j)) with (Z.add j <$> seqZ 0 (k - j)) by (rewrite fmap_add_seqZ; f_equal; lia).
  rewrite <- list_fmap_compose. apply list_fmap_ext. intros i x _. cbn. f_equal. lia.
Qed.

Lemma baddr_ok σ bn : good σ -> 0 <= bn < MAXFILE -> baddr σ bn ≠ 0 ->
  datab sbk (baddr σ bn) ∧ used sbk (blk σ) (baddr σ bn) ∧ length (blk σ (baddr σ bn)) = Z.to_nat BSIZE.
Proof.
  intros Hg Hbn H0. pose proof (wf_data _ _ _ (g_wf _ _ _ _ _ _ Hg) n (slot_of bn) Hn) as Hd. cbv zeta in Hd.
  rewrite A_of_n in Hd. apply Hd; [|done]. by apply slot_of_range.
Qed.

Lemma byte_run σ off m : good σ -> 0 <= off -> off / BSIZE < MAXFILE -> baddr σ (off / BSIZE) ≠ 0 ->
  0 <= m <= BSIZE - off mod BSIZE ->
  take (Z.to_nat m) (drop (Z.to_nat (off mod BSIZE)) (blk σ (baddr σ (off / BSIZE)))) = bytes σ off m.
Proof.
  intros Hg Ho Hlt H0 Hm. assert (0 <= off / BSIZE) as Hq by (apply Z.div_pos; [done|unfold BSIZE; lia]).
  destruct (baddr_ok σ (off / BSIZE) Hg) as (_ & _ & Hl); [done..|].
  unfold BSIZE in *. apply list_eq. intros i. destruct (decide (i < Z.to_nat m)%nat) as [Hi|Hi].
  - rewrite lookup_take_lt, lookup_drop by done. unfold bytes. rewrite list_lookup_fmap, lookup_seqZ_lt by lia. cbn.
    unfold byte, BSIZE. replace ((off + (0 + Z.of_nat i)) / 1024) with (off / 1024) by zlia.
    replace (Z.to_nat ((off + (0 + Z.of_nat i)) mod 1024)) with (Z.to_nat (off mod 1024) + i)%nat by zlia.
    apply list_lookup_lookup_total_lt. rewrite Hl. change (Z.to_nat 1024) with 1024%nat. zlia.
  - rewrite lookup_take_ge by lia. symmetry. apply lookup_ge_None. unfold bytes. rewrite length_fmap, length_seqZ. lia.
Qed.

(** ** Reading *)
Lemma readi_loop_spec fuel tot off k acc σ :
  good σ -> (size (s_pins σ) <= 25)%nat -> 0 <= off -> 0 <= tot <= k -> (Z.to_nat (k - tot) < fuel)%nat -> k < 2 ^ 31 ->
  off + (k - tot) <= MAXFILE * BSIZE -> whole σ (off + (k - tot)) ->
  fs σ (readi_loop fuel ip LocalDst tot off k acc) (λ x σ', x = (k, acc ++ bytes σ off (k - tot)) ∧ σ' = σ).
Proof.
  intros Hg Hs. revert tot off acc. induction fuel as [|fuel IH]; intros tot off acc Ho Ht Hf Hk Hmax Hw; [lia|].
  cbn [readi_loop]. destruct (Z.ltb_spec tot k) as [Hlt|Hge].
  2: { apply fs_ret. replace (k - tot) with 0 by lia. rewrite i32_small by lia. replace tot with k by lia.
       by rewrite app_nil_r. }
  assert (baddr σ (off / BSIZE) ≠ 0) as Hb by (apply Hw; lia).
  assert (0 <= off / BSIZE < MAXFILE) as Hbn by (unfold BSIZE in *; change MAXFILE with 268 in *; zlia).
  destruct (baddr_ok σ (off / BSIZE) Hg Hbn Hb) as (D1 & _). apply (data_range s sbk Hlay) in D1 as (R1 & _).
  eapply fs_bind; [by apply (bmap_present p s img wr sbk nop Hlay ip n A0)|]. intros ? ? [-> ->]. fold (baddr σ (off / BSIZE)).
  destruct (Z.eqb_spec (baddr σ (off / BSIZE)) 0) as [|_]; [done|].
  eapply fs_bind; [apply fs_read_inode|]. intros dev ? [Hdev ->].
  assert (dev = ROOTDEV) as -> by (rewrite Hdev; apply Hg). clear Hdev.
  eapply fs_bind; [apply fs_bread; [lia|intros b d; by rewrite (g_held _ _ _ _ _ _ Hg)|]|].
  { rewrite (g_held _ _ _ _ _ _ Hg), map_size_empty. unfold NBUF. lia. }
  intros bp ? [Hbp ->]. set (m := Z.min (k - tot) (BSIZE - off mod BSIZE)).
  eapply fs_bind; [apply (fs_read_buf _ _ _ _ _ _ _ bp (baddr σ (off / BSIZE)) (blk σ (baddr σ (off / BSIZE)))
    (λ d, take (Z.to_nat m) (drop (Z.to_nat (off mod BSIZE)) d))), lookup_insert_eq|]. intros ? ? [-> ->].
  assert (0 < m <= BSIZE - off mod BSIZE ∧ m <= k - tot) as Hm.
  { unfold m, BSIZE. pose proof (Z.mod_pos_bound off 1024). lia. }
  rewrite byte_run by (done || lia). cbn [copy_to].
  eapply fs_bind; [apply fs_return|]. intros ? ? [-> ->]. cbn [Z.eqb].
  eapply fs_bind; [by apply fs_brelse_clean|]. intros [] ? ->.
  eapply fs_mono; [apply IH; try lia|].
  - replace (off + m + (k - (tot + m))) with (off + (k - tot)) by lia. done.
  - intros x ? [-> ->]. split; [|done]. f_equal. rewrite <- app_assoc. f_equal.
    rewrite (fbytes_app σ off m (k - tot)) by lia. do 2 f_equal. lia.
Qed.

(** [readi] returns what the file has from [off], at most [k] bytes and at most
    up to its end. *)
Lemma readi_spec σ off k : let len := i_size (s_inodes σ !!! ip) in
  good σ -> (size (s_pins σ) <= 25)%nat -> 0 <= off < 2 ^ 31 -> 0 <= k < 2 ^ 31 ->
  0 <= len <= MAXFILE * BSIZE -> whole σ len ->
  fs σ (readi ip LocalDst off k) (λ x σ',
    let k' := Z.max 0 (Z.min k (len - off)) in x = (k', bytes σ off k') ∧ σ' = σ).
Proof.
  intros len Hg Hs Ho Hk Hsz Hw. unfold readi. eapply fs_bind; [apply fs_read_inode|]. intros sz ? [Esz ->].
  assert (sz = len) as -> by exact Esz. clear Esz. rewrite (u32_small (off + k)) by lia.
  replace (off + k <? off) with false by (symmetry; lia). rewrite orb_false_r.
  destruct (Z.ltb_spec len off) as [Hlt|Hge].
  { apply fs_ret. rewrite Z.max_l by lia. done. }
  set (k' := if len <? off + k then len - off else k).
  assert (k' = Z.max 0 (Z.min k (len - off)) ∧ 0 <= k' ∧ off + k' <= len) as (Ek & Hk0 & Hk1)
    by (unfold k'; destruct (Z.ltb_spec len (off + k)); lia).
  rewrite <- Ek. cbv zeta. change MAXFILE with 268 in *. unfold BSIZE in *.
  eapply fs_mono; [apply readi_loop_spec; try done; try lia|].
  - rewrite Z.sub_0_r. change MAXFILE with 268. unfold BSIZE. lia.
  - intros o Hoo. apply Hw. lia.
  - intros x ? [-> ->]. cbn. by rewrite Z.sub_0_r.
Qed.

(** ** Writing *)

(** Changing the data of a block of the file changes no address. *)
Lemma slot_put σ bn d m j : good σ -> 0 <= bn < MAXFILE -> baddr σ bn ≠ 0 -> ino sbk m -> (j < NSLOT)%nat ->
  slot (blk (st_put (baddr σ bn) d σ)) (A_of ip n A0 σ m) j = slot (blk σ) (A_of ip n A0 σ m) j.
Proof.
  intros Hg Hbn H0 Hm Hj. apply slot_ext. intros Hc. rewrite blk_put. case_decide as E; [|done]. exfalso.
  destruct (slot_of_range bn Hbn) as (Hsl & Hne & _).
  destruct (wf_inj _ _ _ (g_wf _ _ _ _ _ _ Hg) m NDIRECT n (slot_of bn)) as [_ Hi]; try done.
  - unfold NDIRECT, NSLOT. lia.
  - by rewrite slot_indirect, A_of_n.
Qed.

Lemma step_write σ bn d : good σ -> 0 <= bn < MAXFILE -> baddr σ bn ≠ 0 -> length d = Z.to_nat BSIZE ->
  step [slot_of bn] [slot_of bn] σ (st_put (baddr σ bn) d σ).
Proof.
  intros Hg Hbn H0 Hl. destruct (baddr_ok σ bn Hg Hbn H0) as (D1 & D2 & D3).
  pose proof (data_range s sbk Hlay _ D1) as (R1 & R2 & R3). set (a := baddr σ bn) in *.
  pose proof (slot_put σ bn d) as Hsl. fold a in Hsl. destruct (slot_of_range bn Hbn) as (Hlt & Hne & _).
  assert (∀ b, length (blk (st_put a d σ) b) = length (blk σ b)) as El
    by (intros b; rewrite blk_put; case_decide; [subst b; congruence|done]).
  assert (blk (st_put a d σ) bm = blk σ bm) as Ebm by (rewrite blk_put; by rewrite decide_False by congruence).
  pose proof Hg as [[W1 W2 W3 W4 W5 W6] G2 G3 G4].
  assert (FsSpec.wf sbk (blk (st_put a d σ)) (A_of ip n A0 σ)) as Hwf.
  { split; unfold used; rewrite ?Ebm, ?El; try done.
    - intros m Hm. rewrite El. by apply W4.
    - intros m j Hm Hj. cbv zeta. rewrite Hsl, El by done. by apply W5.
    - intros m j m' j' Hm Hm' Hj Hj'. rewrite !Hsl by done. by apply W6. }
  assert (∀ j, (j < NSLOT)%nat -> slot (blk (st_put a d σ)) (addrs σ) j = slot (blk σ) (addrs σ) j) as Hsn.
  { intros j Hj. pose proof (Hsl n j Hg Hbn H0 Hn Hj) as E. by rewrite A_of_n in E. }
  split; [by split|symmetry; by apply upd_id|split; [done|done|..]| |done].
  - intros j Hj _. by apply Hsl.
  - intros b Hu Hb Hi Hk. rewrite blk_put. case_decide as E; [|done]. exfalso. apply H0.
    rewrite <- E. apply (Hk (slot_of bn)); [by left|done|]. change (A_of ip n A0 (st_put a d σ)) with (A_of ip n A0 σ).
    rewrite Hsl by done. rewrite A_of_n, E. done.
  - intros b Hb. unfold used. by rewrite Ebm.
  - intros b [x Hb]. cbn in Hb. apply lookup_insert_Some in Hb as [[<- _]|[_ Hb]]; [|left; by eexists].
    right. right. split; [lia|]. right. exists (slot_of bn). split_and!; [by left|done|].
    change (FsSpec.addrs ip (st_put a d σ)) with (addrs σ). by rewrite Hsn.
Qed.

(** Blocks that were there before keep their bytes unless their slot changes. *)
Lemma slot_of_inj bn bn' : 0 <= bn < MAXFILE -> 0 <= bn' < MAXFILE -> slot_of bn = slot_of bn' -> bn = bn'.
Proof.
  change MAXFILE with 268. unfold slot_of. intros. destruct (Z.ltb_spec bn 12), (Z.ltb_spec bn' 12); lia.
Qed.
Lemma step_baddr js ks σ σ' bn : step js ks σ σ' -> 0 <= bn < MAXFILE -> baddr σ bn ≠ 0 -> baddr σ' bn = baddr σ bn.
Proof. intros Hs Hbn H0. unfold baddr. eapply step_addrs; [done|by apply slot_of_range|done]. Qed.
Lemma step_block js ks σ σ' bn : good σ -> step js ks σ σ' -> 0 <= bn < MAXFILE -> baddr σ bn ≠ 0 -> slot_of bn ∉ ks ->
  blk σ' (baddr σ' bn) = blk σ (baddr σ bn).
Proof.
  intros Hg Hs Hbn H0 Hk. destruct (baddr_ok σ bn Hg Hbn H0) as (D1 & D2 & D3).
  pose proof (data_range s sbk Hlay _ D1) as (R1 & R2 & R3). pose proof (step_baddr js ks σ σ' bn Hs Hbn H0) as Eb.
  destruct (slot_of_range bn Hbn) as (Hlt & Hne & _). pose proof (st_good _ _ _ _ _ _ _ _ _ Hs) as Hg'.
  pose proof (wf_inj _ _ _ (g_wf _ _ _ _ _ _ Hg') n (slot_of bn) n) as Hinj.
  rewrite A_of_n in Hinj. rewrite Eb. apply (st_ext _ _ _ _ _ _ _ _ _ Hs); try done.
  - intros E. exfalso. rewrite A_of_n in E. destruct (Hinj NDIRECT) as [_ Hi]; try done.
    + unfold NDIRECT, NSLOT. lia.
    + rewrite slot_indirect. change (slot (blk σ') (addrs σ') (slot_of bn)) with (baddr σ' bn). congruence.
    + change (slot (blk σ') (addrs σ') (slot_of bn)) with (baddr σ' bn). congruence.
  - intros j Hj Hjl E. exfalso. rewrite A_of_n in E. destruct (Hinj j) as [_ Hi]; try done.
    + change (slot (blk σ') (addrs σ') (slot_of bn)) with (baddr σ' bn). congruence.
    + change (slot (blk σ') (addrs σ') (slot_of bn)) with (baddr σ' bn). congruence.
    + by rewrite Hi in Hk.
Qed.

Lemma step_sub js js' ks σ σ' : (∀ j, j ∈ js -> j ∈ js') -> step js ks σ σ' -> step js' ks σ σ'.
Proof.
  intros Hj [H1 H2 H3 H4 H5]. split; [done|done|done| |done]. intros b Hb.
  destruct (H4 b Hb) as [?|[?|(? & [?|(j & ? & ?)])]]; [by left|by right; left|by right; right; auto|].
  right. right. split; [done|]. right. exists j. auto.
Qed.
Lemma room_put σ b d : b ≠ bm -> room (st_put b d σ) = room σ.
Proof.
  intros Hb. unfold FsSpec.room, nfree. change (FsSpec.addrs ip (st_put b d σ)) with (addrs σ).
  rewrite blk_put. by rewrite decide_False.
Qed.

(** A source that has the bytes [bs], for a process that sees [U]. *)
Context (Hpos : 1 <= nop) (src : iosrc) (bs : list Z).
Definition source (U : uview) : Prop := ∀ σ tot m, s_user σ = U -> 0 <= tot -> 0 <= m -> tot + m <= Z.of_nat (length bs) ->
  fs σ (copy_from src tot m) (λ x σ', x = (0, take (Z.to_nat m) (drop (Z.to_nat tot) bs)) ∧ σ' = σ).
Context (U : uview) (Hsrc : source U).

(** One round of the loop: [m] bytes within one block. *)
Record round (tot off m : Z) σ σ' : Prop := {
  ro_step : step [slot_of (off / BSIZE)] [slot_of (off / BSIZE)] σ σ';
  ro_there : baddr σ' (off / BSIZE) ≠ 0;
  ro_new o : off <= o < off + m -> byte σ' o = bs !!! Z.to_nat (tot + (o - off));
  ro_old o : 0 <= o < MAXFILE * BSIZE -> baddr σ (o / BSIZE) ≠ 0 -> ¬ (off <= o < off + m) -> byte σ' o = byte σ o;
}.

Lemma round_spec tot off m σ σ1 : good σ -> 0 <= off -> 0 <= tot -> 0 < m <= BSIZE - off mod BSIZE ->
  off + m <= MAXFILE * BSIZE -> tot + m <= Z.of_nat (length bs) ->
  step [slot_of (off / BSIZE)] [] σ σ1 -> baddr σ1 (off / BSIZE) ≠ 0 ->
  round tot off m σ (st_put (baddr σ1 (off / BSIZE))
    (splice (Z.to_nat (off mod BSIZE)) (take (Z.to_nat m) (drop (Z.to_nat tot) bs)) (blk σ1 (baddr σ1 (off / BSIZE)))) σ1).
Proof.
  intros Hg Ho Ht Hm Hmax Hlen Hs1 Ha. set (bn := off / BSIZE) in *.
  assert (0 <= bn < MAXFILE) as Hbn by (unfold bn, BSIZE in *; change MAXFILE with 268 in *; zlia).
  pose proof (st_good _ _ _ _ _ _ _ _ _ Hs1) as Hg1. destruct (baddr_ok σ1 bn Hg1 Hbn Ha) as (D1 & D2 & D3).
  set (bs' := take _ _). assert (length bs' = Z.to_nat m) as Hb' by (unfold bs'; rewrite length_take, length_drop; lia).
  set (a := baddr σ1 bn) in *. set (d := splice _ _ _).
  assert (Z.to_nat (off mod BSIZE) + length bs' <= length (blk σ1 a))%nat as Hfit.
  { rewrite D3, Hb'. unfold BSIZE in *. pose proof (Z.mod_pos_bound off 1024). lia. }
  pose proof (step_write σ1 bn d Hg1 Hbn Ha) as Hs2. fold a in Hs2.
  specialize (Hs2 ltac:(unfold d; by rewrite length_splice)).
  assert (step [slot_of bn] [slot_of bn] σ (st_put a d σ1)) as Hs.
  { apply (step_sub ([slot_of bn] ++ [slot_of bn])); [set_solver|]. by apply (step_trans s img sbk Hlay ip n A0 Hn [_] [] [_] [_] σ σ1). }
  assert (baddr (st_put a d σ1) bn = a) as Ea by (by apply (step_baddr [slot_of bn] [slot_of bn] σ1)).
  assert (blk (st_put a d σ1) a = d) as Ed by (rewrite blk_put; by rewrite decide_True).
  split; fold bn; [done|by rewrite Ea|..].
  - intros o Hoo. assert (o / BSIZE = bn) as Eo by (unfold bn, BSIZE in *; zlia).
    unfold byte. rewrite Eo, Ea, Ed. unfold d. rewrite lookup_total_splice by lia.
    rewrite decide_True by (rewrite Hb'; unfold bn, BSIZE in *; zlia).
    unfold bs'. rewrite lookup_total_take_drop by (unfold BSIZE in *; zlia). f_equal. unfold bn, BSIZE in *; zlia.
  - intros o Hoo Hb Hout. assert (0 <= o / BSIZE < MAXFILE) as Hobn by (unfold BSIZE in *; change MAXFILE with 268 in *; zlia).
    destruct (decide (o / BSIZE = bn)) as [Eo|Eo].
    + unfold byte. rewrite Eo in *. rewrite Ea, Ed. unfold d. rewrite lookup_total_splice by lia.
      rewrite decide_False by (rewrite Hb'; unfold bn, BSIZE in *; zlia).
      f_equal. unfold a. apply (step_block [slot_of bn] [] σ σ1); try done. apply not_elem_of_nil.
    + unfold byte. f_equal. apply (step_block [slot_of bn] [slot_of bn]); try done.
      intros Hin%list_elem_of_singleton. by apply slot_of_inj in Hin.
Qed.

(** The bytes from [off] on are those of the source from [tot] on. *)
Record wrote (js : list nat) (tot off len : Z) σ σ' : Prop := {
  wo_step : step js js σ σ';
  wo_new o : off <= o < off + len -> baddr σ' (o / BSIZE) ≠ 0 ∧ byte σ' o = bs !!! Z.to_nat (tot + (o - off));
  wo_old o : 0 <= o < MAXFILE * BSIZE -> baddr σ (o / BSIZE) ≠ 0 -> ¬ (off <= o < off + len) ->
    baddr σ' (o / BSIZE) ≠ 0 ∧ byte σ' o = byte σ o;
  wo_room : room σ - Z.of_nat (length js) <= room σ';
}.

Lemma wrote_nil tot off σ : good σ -> wrote [] tot off 0 σ σ.
Proof. intros Hg. split; [by apply step_refl|intros o; lia|done|cbn; lia]. Qed.

Lemma wrote_round js tot off m len σ σ1 σ2 : 0 <= off -> 0 <= tot -> 0 < m <= BSIZE - off mod BSIZE -> m <= len ->
  off + len <= MAXFILE * BSIZE -> room σ - 1 <= room σ1 ->
  round tot off m σ σ1 -> wrote js (tot + m) (off + m) (len - m) σ1 σ2 ->
  wrote (slot_of (off / BSIZE) :: js) tot off len σ σ2.
Proof.
  intros Ho Ht Hm Hlen Hmax Hrm [R1 R2 R3 R4] [W1 W2 W3 W4].
  assert (∀ o, 0 <= o < MAXFILE * BSIZE -> 0 <= o / BSIZE < MAXFILE) as Hb
    by (intros o; unfold BSIZE; change MAXFILE with 268; intros; zlia).
  split.
  - by apply (step_trans s img sbk Hlay ip n A0 Hn [_] [_] js js σ σ1).
  - intros o Hoo. destruct (decide (o < off + m)) as [Hlt|Hge].
    + assert (o / BSIZE = off / BSIZE) as Eo by (unfold BSIZE in *; zlia).
      destruct (W3 o) as [E1 E2]; [lia|by rewrite Eo|lia|]. split; [done|]. rewrite E2. apply R3. lia.
    + destruct (W2 o) as [E1 E2]; [lia|]. split; [done|]. rewrite E2. do 2 f_equal. lia.
  - intros o Hoo H0 Hout. destruct (W3 o) as [E1 E2]; [done| |lia|].
    + rewrite (step_baddr _ _ _ _ _ R1) by auto. done.
    + split; [done|]. rewrite E2. apply R4; [done|done|lia].
  - cbn [length]. lia.
Qed.

Lemma writei_loop_spec σ0 js0 fuel tot off k σ :
  s_user σ0 = U -> step js0 js0 σ0 σ -> 0 <= off -> 0 <= tot <= k -> k <= Z.of_nat (length bs) ->
  (Z.to_nat (k - tot) < fuel)%nat -> off + (k - tot) <= MAXFILE * BSIZE ->
  (size (s_pins σ0) + 2 + length js0 + length (slots off (k - tot)) <= 25)%nat ->
  Z.of_nat (length (slots off (k - tot))) <= room σ ->
  fs σ (writei_loop fuel ip src tot off k)
    (λ x σ', x = (k, off + (k - tot)) ∧ wrote (slots off (k - tot)) tot off (k - tot) σ σ').
Proof.
  intros HU. revert js0 tot off σ. induction fuel as [|fuel IH]; intros js0 tot off σ Hs0 Ho Ht Hk Hf Hmax Hsz Hroom; [lia|].
  pose proof (st_good _ _ _ _ _ _ _ _ _ Hs0) as Hg. cbn [writei_loop]. destruct (Z.ltb_spec tot k) as [Hlt|Hge].
  2: { apply fs_ret. assert (tot = k) as -> by lia. rewrite Z.sub_diag, Z.add_0_r. split; [done|]. by apply wrote_nil. }
  set (m := Z.min (k - tot) (BSIZE - off mod BSIZE)).
  rewrite (slots_cons off (k - tot) m) in Hsz, Hroom |- * by (done || lia). cbn [length] in Hsz, Hroom.
  assert (0 < m <= BSIZE - off mod BSIZE ∧ m <= k - tot) as [Hm1 Hm2].
  { unfold m, BSIZE. pose proof (Z.mod_pos_bound off 1024). lia. }
  assert (0 <= off / BSIZE < MAXFILE) as Hbn by (unfold BSIZE in *; change MAXFILE with 268 in *; zlia).
  pose proof (step_size _ _ _ _ _ _ _ _ _ Hs0) as Hsz0.
  eapply fs_bind; [apply (bmap_spec p s img wr sbk nop Hlay Hpos ip n A0 Hn); [done|done|lia|lia]|].
  intros a σ1 (Ea & Ha & Hs1 & Hr1). change (a = baddr σ1 (off / BSIZE)) in Ea. subst a.
  destruct (Z.eqb_spec (baddr σ1 (off / BSIZE)) 0) as [|_]; [done|].
  pose proof (st_good _ _ _ _ _ _ _ _ _ Hs1) as Hg1. pose proof (g_held _ _ _ _ _ _ Hg1) as Hh1.
  eapply fs_bind; [apply fs_read_inode|]. intros dev ? [Hdev ->].
  assert (dev = ROOTDEV) as -> by (rewrite Hdev; apply Hg1). clear Hdev.
  destruct (baddr_ok σ1 (off / BSIZE) Hg1 Hbn Ha) as (D1 & _). apply (data_range s sbk Hlay) in D1 as (Q1 & Q2 & Q3).
  pose proof (step_size _ _ _ _ _ _ _ _ _ (step_trans s img sbk Hlay ip n A0 Hn _ _ _ _ σ0 σ σ1 Hs0 Hs1)) as Hsz1.
  rewrite length_app in Hsz1. cbn [length] in Hsz1.
  eapply fs_bind; [apply fs_bread; [lia|intros b d; by rewrite Hh1|rewrite Hh1, map_size_empty; unfold NBUF; lia]|].
  intros bp ? [Hbp ->]. fold m. eapply fs_bind; [apply Hsrc; [|lia..]|].
  { destruct (st_rest _ _ _ _ _ _ _ _ _ Hs0) as [_ E0], (st_rest _ _ _ _ _ _ _ _ _ Hs1) as [_ E1]. cbn. congruence. }
  intros ? ? [-> ->]. cbv beta iota.
  eapply fs_bind; [apply (fs_write_data _ _ _ _ _ _ _ bp (baddr σ1 (off / BSIZE)) (blk σ1 (baddr σ1 (off / BSIZE)))), lookup_insert_eq|].
  intros [] ? ->. cbn [Z.eqb].
  pose proof (round_spec tot off m σ σ1 Hg Ho (proj1 Ht) Hm1 ltac:(lia) ltac:(lia) Hs1 Ha) as Hround.
  set (d := splice _ _ _) in Hround |- *. set (b := baddr σ1 (off / BSIZE)) in *.
  assert (st_hold bp b d (st_hold bp b (blk σ1 b) σ1) = st_hold bp b d σ1) as ->
    by (unfold st_hold, set, set_s_held; cbn; by rewrite insert_insert_eq).
  eapply fs_bind; [apply fs_log_pin; [done|lia|done|unfold NBUF; lia]|]. intros [] ? ->.
  eapply fs_bind; [by apply fs_brelse_pinned|]. intros [] ? ->.
  assert (step (js0 ++ [slot_of (off / BSIZE)]) (js0 ++ [slot_of (off / BSIZE)]) σ0 (st_put b d σ1)) as Hs2
    by (apply (step_trans s img sbk Hlay ip n A0 Hn _ _ _ _ σ0 σ); [done|apply Hround]).
  replace (k - tot - m) with (k - (tot + m)) in * by lia.
  eapply fs_mono; [apply (IH _ (tot + m) (off + m) _ Hs2); try lia|].
  - rewrite length_app. cbn [length]. lia.
  - rewrite room_put by done. lia.
  - intros x σ2 [-> Hw]. split; [f_equal; lia|].
    apply (wrote_round _ tot off m (k - tot) σ (st_put b d σ1)); try done; try lia; [by rewrite room_put by done|].
    by replace (k - tot - m) with (k - (tot + m)) by lia.
Qed.
End file.
