(* ===== verification/FsDisk.v ===== *)
(** * File writes on the disk

    The inodes and the file contents that a disk holds, and what a file write
    makes of them: [file_write_atomic] joins [writei], the block map, the
    allocator, the log and the buffer cache. *)
From S2P Require Import Prelude Layout KState Spinlock CString Vm Proc Uart Sleeplock Virtio Bio.
From S2P Require Import Log Fs SchedEq Demo FsView Disk Bcache LogSpec Txn FsTx FsSpec FsFile.

(** ** Inodes on the disk *)

Lemma get_le_inside n j off bs l : (off + length bs <= length l)%nat -> (j + n <= length bs)%nat ->
  get_le n (off + j) (splice off bs l) = get_le n j bs.
Proof.
  intros Hl Hj. unfold get_le. f_equal. apply list_eq. intros i.
  destruct (decide (i < n)%nat); [|by rewrite !lookup_take_ge by lia].
  rewrite !lookup_take_lt, !lookup_drop by done. unfold splice.
  rewrite lookup_app_r by (rewrite length_take; lia). rewrite length_take.
  rewrite lookup_app_l by lia. f_equal. lia.
Qed.
Lemma get_le_outside n o off bs l : (off + length bs <= length l)%nat -> (o + n <= off ∨ off + length bs <= o)%nat ->
  get_le n o (splice off bs l) = get_le n o l.
Proof.
  intros Hl [H|H]; unfold get_le; f_equal; [by apply splice_before; lia|by apply splice_after; lia].
Qed.
Lemma get_le_app_r n j l l' : get_le n (length l + j) (l ++ l') = get_le n j l'.
Proof. unfold get_le. by rewrite drop_app_add. Qed.
Lemma get_le_concat n l i : (i < length l)%nat -> Forall (λ x, 0 <= x < 256 ^ Z.of_nat n) l ->
  get_le n (n * i) (concat (le_bytes n <$> l)) = l !!! i.
Proof.
  revert i. induction l as [|x l IH]; intros i Hi Hl; cbn in Hi; [lia|]. apply Forall_cons in Hl as [Hx Hl].
  cbn [fmap list_fmap concat]. destruct i as [|i].
  - rewrite Nat.mul_0_r. cbn [lookup_total list_lookup_total]. unfold get_le. rewrite drop_0.
    rewrite <- (length_le_bytes n x) at 1. rewrite take_app_length. by apply le_val_bytes.
  - replace (n * S i)%nat with (length (le_bytes n x) + n * i)%nat by (rewrite length_le_bytes; lia).
    rewrite get_le_app_r. cbn. apply IH; [lia|done].
Qed.
Lemma length_concat_bytes n l : length (concat (le_bytes n <$> l)) = (n * length l)%nat.
Proof. induction l as [|x l IH]; cbn; [lia|]. rewrite length_app, length_le_bytes, IH. lia. Qed.

(** The first 12 bytes of a [struct dinode]. *)
Definition dinode_head (r : inode) : list Z :=
  le_bytes 2 (u16 (i_type r)) ++ le_bytes 2 (u16 (i_major r)) ++
  le_bytes 2 (u16 (i_minor r)) ++ le_bytes 2 (u16 (i_nlink r)) ++ le_bytes 4 (i_size r).
Lemma dinode_split r : dinode_bytes r = dinode_head r ++ concat (le_bytes 4 <$> i_addrs r).
Proof. unfold dinode_bytes, dinode_head. by rewrite <- !app_assoc. Qed.
Lemma length_dinode r : length (i_addrs r) = S NDIRECT -> length (dinode_bytes r) = 64%nat.
Proof. intros E. rewrite dinode_split, length_app, length_concat_bytes, E. reflexivity. Qed.

Lemma dinode_size r : 0 <= i_size r < 2 ^ 32 -> get_le 4 8 (dinode_bytes r) = i_size r.
Proof.
  intros H. unfold dinode_bytes. rewrite !app_assoc.
  change 8%nat with (length (((le_bytes 2 (u16 (i_type r)) ++ le_bytes 2 (u16 (i_major r))) ++
    le_bytes 2 (u16 (i_minor r))) ++ le_bytes 2 (u16 (i_nlink r))) + 0)%nat.
  rewrite <- (app_assoc _ (le_bytes 4 (i_size r))), get_le_app_r.
  unfold get_le. rewrite drop_0. rewrite <- (length_le_bytes 4 (i_size r)) at 1. rewrite take_app_length.
  by apply le_val_bytes.
Qed.
Lemma dinode_addr r i : (i < length (i_addrs r))%nat -> Forall (λ x, 0 <= x < 2 ^ 32) (i_addrs r) ->
  get_le 4 (12 + 4 * i) (dinode_bytes r) = i_addrs r !!! i.
Proof.
  intros Hi Hf. rewrite dinode_split. change 12%nat with (length (dinode_head r)). rewrite get_le_app_r.
  by apply get_le_concat.
Qed.

Section disk.
Context (s : Z) (sbk : superblock) (Hlay : layout s sbk).
Implicit Types (B : Z -> list Z) (m : Z).

(** The addresses and the size of inode [m]. *)
Definition daddrs B m : list Z := (λ i, get_le 4 (dinode_off m + 12 + 4 * i) (B (IBLOCK m sbk))) <$> seq 0 (S NDIRECT).
Definition dsize B m : Z := get_le 4 (dinode_off m + 8) (B (IBLOCK m sbk)).
Definition dblock B m (bn : Z) : Z := slot B (daddrs B m) (slot_of bn).
(** The content of the file. *)
Definition dbytes B m : list Z :=
  (λ o, B (dblock B m (o / BSIZE)) !!! Z.to_nat (o mod BSIZE)) <$> seqZ 0 (dsize B m).

(** A well-formed file system. *)
Record fsys B : Prop := {
  fy_wf : wf sbk B (daddrs B);
  fy_size m : ino sbk m -> 0 <= dsize B m <= MAXFILE * BSIZE;
  fy_whole m o : ino sbk m -> 0 <= o < dsize B m -> dblock B m (o / BSIZE) ≠ 0;
}.

Lemma length_daddrs B m : length (daddrs B m) = S NDIRECT.
Proof. unfold daddrs. by rewrite length_fmap, length_seq. Qed.
Lemma daddrs_lookup B m i : (i < S NDIRECT)%nat ->
  daddrs B m !!! i = get_le 4 (dinode_off m + 12 + 4 * i) (B (IBLOCK m sbk)).
Proof. intros Hi. unfold daddrs. by rewrite list_lookup_total_alt, list_lookup_fmap, lookup_seq_lt. Qed.

(** It is all in blocks outside the log. *)
Lemma fsys_ext B B' : (∀ b, home s b -> B' b = B b) -> fsys B -> fsys B' ∧ ∀ m, ino sbk m -> dbytes B' m = dbytes B m.
Proof.
  intros E [F1 F2 F3].
  assert (∀ m, ino sbk m -> B' (IBLOCK m sbk) = B (IBLOCK m sbk)) as Ei
    by (intros m Hm; apply E; by apply (iblock_range s sbk Hlay)).
  assert (∀ m, ino sbk m -> daddrs B' m = daddrs B m) as Ea by (intros m Hm; unfold daddrs; by rewrite Ei).
  assert (∀ m, ino sbk m -> dsize B' m = dsize B m) as Es by (intros m Hm; unfold dsize; by rewrite Ei).
  assert (∀ m i, ino sbk m -> slot B' (daddrs B' m) i = slot B (daddrs B m) i) as Esl.
  { intros m i Hm. rewrite Ea by done. apply slot_ext. intros Hc. apply E.
    destruct (wf_data _ _ _ F1 m NDIRECT Hm) as (D & _); [unfold NDIRECT, NSLOT; lia|done|].
    rewrite slot_indirect in D. by apply (data_range s sbk Hlay). }
  assert (B' (sb_bmapstart sbk) = B (sb_bmapstart sbk)) as Eb by (apply E; apply (bm_pos s sbk Hlay)).
  assert (∀ m o, ino sbk m -> dblock B' m o = dblock B m o) as Ed by (intros; by apply Esl).
  assert (∀ m i, ino sbk m -> (i < NSLOT)%nat -> let b := slot B (daddrs B m) i in b ≠ 0 -> B' b = B b) as Eblk.
  { intros m i Hm Hi b Hb. apply E. destruct (wf_data _ _ _ F1 m i Hm Hi Hb) as (D & _). by apply (data_range s sbk Hlay). }
  split; [split|].
  - pose proof F1 as [W1 W2 W3 W4 W5 W6]. split; unfold used; rewrite ?Eb; try done.
    + intros m Hm. rewrite Ei by done. by apply W4.
    + intros m i Hm Hi. cbv zeta. rewrite Esl by done. intros Hb. rewrite Eblk by done. by apply W5.
    + intros m i m' i' Hm Hm' Hi Hi'. rewrite !Esl by done. by apply W6.
  - intros m Hm. rewrite Es by done. by apply F2.
  - intros m o Hm. rewrite Es, Ed by done. by apply F3.
  - intros m Hm. unfold dbytes. rewrite Es by done. apply list_fmap_ext. intros i o Ho.
    apply list_elem_of_lookup_2, elem_of_seqZ in Ho. rewrite Ed by done.
    assert (dblock B m (o / BSIZE) ≠ 0) as Hb by (apply F3; [done|lia]).
    unfold dblock in *. rewrite Eblk; [done|done| |done]. apply slot_of_range.
    pose proof (F2 m Hm). unfold BSIZE in *. change MAXFILE with 268 in *. zlia.
Qed.
End disk.

(** ** [iupdate] and [writei] *)
Section write.
Context {L : Linker} {W : World} {DW : DiskWorld W} (p : nat) (s : Z).
Context (img : gmap Z (list Z)) (wr : list (Z * list Z)) (sbk : superblock) (nop : Z) (Hlay : layout s sbk).
Context (ip : nat) (n : Z) (A0 : Z -> list Z) (Hn : ino sbk n).
Local Abbreviation fs σ m Q := (fsl p s img wr sbk nop [] σ m [] Q).
Local Abbreviation blk := (blk img).
Local Abbreviation good := (good img sbk ip n A0).
Local Abbreviation addrs := (addrs ip).
Implicit Types (σ : st).

Definition updated σ : st :=
  st_put (IBLOCK n sbk) (store_dinode (dinode_off n) (s_inodes σ !!! ip) (blk σ (IBLOCK n sbk))) σ.

Context (Hpos : 1 <= nop).
Lemma fs_iupdate σ : s_held σ = ∅ -> i_dev (s_inodes σ !!! ip) = ROOTDEV -> i_inum (s_inodes σ !!! ip) = n ->
  (size (s_pins σ) < NBUF)%nat -> fs σ (iupdate ip) (λ _ σ', σ' = updated σ).
Proof.
  intros Hh Hd Hi Hs. unfold iupdate. eapply fs_bind; [apply fs_read_sb|]. intros ? ? [-> ->]. unfold id.
  eapply fs_bind; [apply fs_read_inode|]. intros dev ? [Hdev ->]. assert (dev = ROOTDEV) as -> by (rewrite Hdev; exact Hd).
  eapply fs_bind; [apply fs_read_inode|]. intros inum ? [Hinum ->]. assert (inum = n) as -> by (rewrite Hinum; exact Hi).
  destruct (iblock_range s sbk Hlay n Hn) as (R1 & R2 & _). pose proof (bm_pos s sbk Hlay) as (P1 & P2 & P3 & _).
  eapply fs_bind; [apply fs_bread; [lia|intros b d; by rewrite Hh|rewrite Hh, map_size_empty; lia]|].
  intros bp ? [Hbp ->]. eapply fs_bind; [apply fs_read_inode|]. intros r ? [-> ->].
  eapply fs_bind; [apply (fs_write_data _ _ _ _ _ _ _ bp (IBLOCK n sbk) (blk σ (IBLOCK n sbk))), lookup_insert_eq|].
  intros [] ? ->. unfold id.
  assert (∀ d d', st_hold bp (IBLOCK n sbk) d (st_hold bp (IBLOCK n sbk) d' σ) = st_hold bp (IBLOCK n sbk) d σ) as ->
    by (intros; unfold st_hold, set, set_s_held; cbn; by rewrite insert_insert_eq).
  eapply fs_bind; [apply fs_log_pin; [done|lia|done|lia]|]. intros [] ? ->. by apply fs_brelse_pinned.
Qed.

(** The size after a write up to [e]. *)
Definition resized (e : Z) σ : st := σ <| s_inodes ::= upd ip (λ r, if i_size r <? e then r <| i_size := e |> else r) |>.

Lemma writei_spec src bs off σ : let k := Z.of_nat (length bs) in
  good σ -> source p s img wr sbk nop src bs (s_user σ) -> i_inum (s_inodes σ !!! ip) = n ->
  0 <= off <= i_size (s_inodes σ !!! ip) -> off + k <= MAXFILE * BSIZE ->
  (size (s_pins σ) + 2 + length (slots off k) <= 25)%nat -> Z.of_nat (length (slots off k)) <= room img sbk ip σ ->
  fs σ (writei ip src off k) (λ x σ', x = k ∧
    ∃ σ1, wrote img sbk ip n A0 bs (slots off k) 0 off k σ σ1 ∧ σ' = updated (resized (off + k) σ1)).
Proof.
  intros k Hg Hsrc Hi Ho Hmax Hsz Hroom. change (MAXFILE * BSIZE) with 274432 in Hmax. assert (0 <= k) by (unfold k; lia).
  unfold writei. eapply fs_bind; [apply fs_read_inode|]. intros z ? [Hz ->].
  assert (z = i_size (s_inodes σ !!! ip)) as -> by exact Hz. clear Hz.
  rewrite (u32_small (off + k)) by lia. change (MAXFILE * BSIZE) with 274432.
  replace (_ || _) with false by (symmetry; apply orb_false_iff; split; [apply Z.ltb_ge|]; lia).
  replace (274432 <? off + k) with false by (symmetry; lia).
  eapply fs_bind.
  { apply (writei_loop_spec p s img wr sbk nop Hlay ip n A0 Hn Hpos src bs (s_user σ) Hsrc σ [] _ 0 off k σ);
      rewrite ?Z.sub_0_r; try done; try lia; [by apply step_refl|]. cbn [length]. lia. }
  rewrite Z.sub_0_r. intros ? σ1 [-> Hw]. cbv beta iota.
  eapply fs_bind; [apply fs_write_inode|]. intros [] ? ->.
  pose proof (wo_step _ _ _ _ _ _ _ _ _ _ _ _ Hw) as Hst. pose proof Hst as [[_ Gh Gd Gip] Hin _ _ _].
  pose proof (step_size _ _ _ _ _ _ _ _ _ Hst) as Hs1.
  assert (i_inum (s_inodes σ1 !!! ip) = n) as Hi1 by (rewrite Hin, upd_eq; [exact Hi|apply Hg]).
  eapply fs_bind; [apply fs_iupdate; cbn; rewrite ?upd_eq by done|].
  - exact Gh.
  - by destruct (_ <? _).
  - by destruct (_ <? _).
  - unfold NBUF. lia.
  - intros [] ? ->. apply fs_ret. split; [by rewrite i32_small by lia|]. exists σ1. done.
Qed.
End write.

(** Entry [ip] of the inode table is the inode [n] of the disk [B]. *)
Record in_sync (sbk : superblock) (B : Z -> list Z) (n : Z) (ip : nat) (T : list inode) : Prop := {
  sy_ip : (ip < length T)%nat;
  sy_dev : i_dev (T !!! ip) = ROOTDEV;
  sy_inum : i_inum (T !!! ip) = n;
  sy_addrs : i_addrs (T !!! ip) = daddrs sbk B n;
  sy_size : i_size (T !!! ip) = dsize sbk B n;
}.

Lemma in_sync_ext sbk B B' n ip T : B' (IBLOCK n sbk) = B (IBLOCK n sbk) -> in_sync sbk B n ip T -> in_sync sbk B' n ip T.
Proof. intros E [S1 S2 S3 S4 S5]. split; try done; [rewrite S4; unfold daddrs|rewrite S5; unfold dsize]; by rewrite E. Qed.

(** ** What a write makes of the disk *)
Section effect.
Context {W : World} (s : Z) (img : gmap Z (list Z)) (sbk : superblock) (Hlay : layout s sbk).
Context (ip : nat) (n : Z) (Hn : ino sbk n) (σ σ1 : st).
Local Abbreviation blk := (blk img).
Local Abbreviation B := (blk σ).
Local Abbreviation B1 := (blk σ1).
Local Abbreviation bm := (sb_bmapstart sbk).
Local Abbreviation A0 := (daddrs sbk B).
Context (Hf : fsys sbk B) (Hg : good img sbk ip n A0 σ).
Context (Haddr : addrs ip σ = A0 n) (Hsize : i_size (s_inodes σ !!! ip) = dsize sbk B n).

Section step.
Context (js ks : list nat) (Hst : step img sbk ip n A0 js ks σ σ1).
Local Abbreviation A1 := (A_of ip n A0 σ1).

Lemma A_of_start m : A_of ip n A0 σ m = A0 m.
Proof. unfold A_of, aset. case_decide; [by subst|done]. Qed.
Lemma A1_ne m : m ≠ n -> A1 m = A0 m.
Proof. intros. unfold A_of. by rewrite aset_ne. Qed.
Lemma A1_n : A1 n = addrs ip σ1.
Proof. apply A_of_n. Qed.
Lemma wf1 : wf sbk B1 A1.
Proof. apply Hst. Qed.

Lemma meta_kept b : 0 <= b < bm -> B1 b = B b.
Proof.
  intros Hb. assert (∀ i, (i < NSLOT)%nat -> b = slot B1 (A1 n) i -> b = 0) as Hs.
  { intros i Hi E. destruct (decide (b = 0)); [done|].
    destruct (wf_data _ _ _ wf1 n i Hn Hi) as ([D _] & _); [congruence|]. rewrite <- E in D. lia. }
  apply (st_ext _ _ _ _ _ _ _ _ _ Hst); [|lia| |].
  - intros [D _]. lia.
  - intros E. apply (Hs NDIRECT); [unfold NDIRECT, NSLOT; lia|done].
  - intros j _ Hj E. by apply (Hs j).
Qed.

(** The blocks of the other inodes. *)
Lemma other_block m i b : ino sbk m -> m ≠ n -> (i < NSLOT)%nat -> slot B (A0 m) i = b -> slot B1 (A0 m) i = b -> b ≠ 0 -> B1 b = B b.
Proof.
  intros Hm Hne Hi E E1 Hb. pose proof (wf_data _ _ _ (fy_wf _ _ Hf) m i Hm Hi) as Hd. cbv zeta in Hd. rewrite E in Hd.
  destruct (Hd Hb) as (D1 & D2 & _). pose proof (data_range s sbk Hlay b D1) as (_ & _ & R3).
  assert (∀ j, (j < NSLOT)%nat -> b = slot B1 (A1 n) j -> b = 0) as Hs.
  { intros j Hj Ej. destruct (wf_inj _ _ _ wf1 m i n j Hm Hn Hi Hj) as [? _]; rewrite ?A1_ne by done; congruence. }
  apply (st_ext _ _ _ _ _ _ _ _ _ Hst); [done|done| |].
  - intros Ej. apply (Hs NDIRECT); [unfold NDIRECT, NSLOT; lia|done].
  - intros j _ Hj Ej. by apply (Hs j).
Qed.
Lemma other_slot m i : ino sbk m -> m ≠ n -> slot B1 (A0 m) i = slot B (A0 m) i.
Proof.
  intros Hm Hne. apply slot_ext. intros Hc. apply (other_block m NDIRECT); try done. unfold NDIRECT, NSLOT. lia.
Qed.

Lemma addrs_range m : ino sbk m -> Forall (λ x, 0 <= x < 2 ^ 32) (A1 m).
Proof.
  intros Hm. apply Forall_lookup. intros i x Hx. pose proof (lookup_lt_Some _ _ _ Hx) as Hi.
  rewrite (wf_addrs _ _ _ wf1 m Hm) in Hi. apply list_lookup_total_correct in Hx. destruct (decide (x = 0)); [lia|].
  assert (slot B1 (A1 m) i = x) as Es by (rewrite slot_direct by (unfold NDIRECT in *; lia); done).
  destruct (wf_data _ _ _ wf1 m i Hm) as (D & _); [unfold NDIRECT, NSLOT in *; lia|congruence|].
  rewrite Es in D. apply (data_range s sbk Hlay) in D. lia.
Qed.
End step.

Context (bs : list Z) (off : Z).
Local Abbreviation len := (Z.of_nat (length bs)).
Context (Hoff : 0 <= off <= dsize sbk B n) (Hmax : off + len <= MAXFILE * BSIZE).
Context (Hw : wrote img sbk ip n A0 bs (slots off len) 0 off len σ σ1).
Local Abbreviation Hst := (wo_step _ _ _ _ _ _ _ _ _ _ _ _ Hw).
Local Abbreviation A1 := (A_of ip n A0 σ1).
Local Abbreviation σ' := (updated img sbk ip n (resized ip (off + len) σ1)).
Local Abbreviation B' := (blk σ').

(** The inode after the write. *)
Lemma inode_after : let r := s_inodes σ' !!! ip in
  i_addrs r = addrs ip σ1 ∧ i_size r = Z.max (dsize sbk B n) (off + len) ∧
  i_dev r = i_dev (s_inodes σ !!! ip) ∧ i_inum r = i_inum (s_inodes σ !!! ip) ∧ i_valid r = i_valid (s_inodes σ !!! ip).
Proof.
  pose proof Hst as [[_ _ _ G4] Hin _ _ _].
  assert (s_inodes σ1 !!! ip = (s_inodes σ !!! ip) <| i_addrs := addrs ip σ1 |>) as E
    by (rewrite Hin at 1; apply upd_eq, Hg).
  assert (s_inodes σ' !!! ip = if i_size (s_inodes σ1 !!! ip) <? off + len
    then (s_inodes σ1 !!! ip) <| i_size := off + len |> else s_inodes σ1 !!! ip) as E'
    by exact (upd_eq ip (λ r, if i_size r <? off + len then r <| i_size := off + len |> else r) (s_inodes σ1) G4).
  cbv zeta. rewrite E', E. cbn. rewrite Hsize. destruct (Z.ltb_spec (dsize sbk B n) (off + len)); cbn; rewrite ?Hsize; split_and!; try done; lia.
Qed.
Lemma block_after b : B' b = if decide (b = IBLOCK n sbk) then
  splice (dinode_off n) (dinode_bytes (s_inodes σ' !!! ip)) (B (IBLOCK n sbk)) else B1 b.
Proof.
  unfold updated. rewrite blk_put. case_decide; [|done]. unfold store_dinode. f_equal.
  apply (meta_kept _ _ Hst). apply (iblock_range s sbk Hlay n Hn).
Qed.

Lemma dinode_off_range m : 0 <= m -> (dinode_off m + 64 <= 1024)%nat.
Proof. intros. unfold dinode_off. change IPB with 16. change DINODE_SIZE with 64. zlia. Qed.
Lemma length_dinode_after : length (dinode_bytes (s_inodes σ' !!! ip)) = 64%nat.
Proof.
  apply length_dinode. destruct inode_after as [-> _]. pose proof (wf_addrs _ _ _ (wf1 _ _ Hst) n Hn) as E.
  by rewrite A1_n in E.
Qed.

(** A field of a dinode after the write. *)
Lemma field_other m k j : ino sbk m -> m ≠ n -> (j + k <= 64)%nat ->
  get_le k (dinode_off m + j) (B' (IBLOCK m sbk)) = get_le k (dinode_off m + j) (B (IBLOCK m sbk)).
Proof.
  intros Hm Hne Hj. rewrite block_after. pose proof (iblock_range s sbk Hlay m Hm) as (R1 & _ & E1).
  case_decide as E; [|by rewrite (meta_kept _ _ Hst)].
  rewrite E. pose proof (iblock_range s sbk Hlay n Hn) as (_ & _ & E2). pose proof length_dinode_after as Hl.
  destruct Hm as [Hm _], Hn as [Hn' _]. pose proof (dinode_off_range n Hn').
  rewrite get_le_outside; [done|rewrite Hl, (wf_iblock _ _ _ (fy_wf _ _ Hf) n Hn); exact (dinode_off_range n Hn')|].
  rewrite Hl. rewrite E1, E2 in E. unfold dinode_off in *. change IPB with 16 in *. change DINODE_SIZE with 64 in *.
  assert (m mod 16 ≠ n mod 16) by zlia. assert (0 <= m mod 16 ∧ 0 <= n mod 16) by zlia. lia.
Qed.
Lemma field_same k j : (j + k <= 64)%nat ->
  get_le k (dinode_off n + j) (B' (IBLOCK n sbk)) = get_le k j (dinode_bytes (s_inodes σ' !!! ip)).
Proof.
  intros Hj. rewrite block_after, decide_True by done. pose proof length_dinode_after as Hl. destruct Hn as [Hn' _].
  apply get_le_inside; rewrite Hl; [|done]. rewrite (wf_iblock _ _ _ (fy_wf _ _ Hf) n Hn). exact (dinode_off_range n Hn').
Qed.

Lemma daddrs_after m : ino sbk m -> daddrs sbk B' m = A1 m.
Proof.
  intros Hm. destruct (decide (m = n)) as [->|Hne].
  - rewrite A1_n. destruct inode_after as (Ea & _). pose proof (wf_addrs _ _ _ (wf1 _ _ Hst) n Hn) as El.
    rewrite A1_n in El. apply list_eq_total; [by rewrite length_daddrs|]. rewrite length_daddrs. intros i Hi.
    rewrite daddrs_lookup, <- Nat.add_assoc, field_same by (done || (unfold NDIRECT in *; lia)).
    rewrite dinode_addr; rewrite Ea; [done|by rewrite El|].
    pose proof (addrs_range _ _ Hst n Hn) as Hr. by rewrite A1_n in Hr.
  - rewrite A1_ne by done. apply list_eq_total; [by rewrite !length_daddrs|]. rewrite length_daddrs. intros i Hi.
    rewrite !daddrs_lookup, <- Nat.add_assoc, field_other by (done || (unfold NDIRECT in *; lia)). done.
Qed.
Lemma dsize_after m : ino sbk m ->
  dsize sbk B' m = if decide (m = n) then Z.max (dsize sbk B n) (off + len) else dsize sbk B m.
Proof.
  intros Hm. unfold dsize at 1. case_decide as E; [subst m|by rewrite field_other by (done || lia)].
  rewrite field_same by lia. destruct inode_after as (_ & Es & _). rewrite dinode_size; rewrite Es; [done|].
  pose proof (fy_size _ _ Hf n Hn). change (MAXFILE * BSIZE) with 274432 in *. lia.
Qed.

Lemma data_not_inode b : datab sbk b -> b ≠ IBLOCK n sbk.
Proof. intros [D _] ->. pose proof (iblock_range s sbk Hlay n Hn). lia. Qed.
Lemma slot_after m i : ino sbk m -> slot B' (daddrs sbk B' m) i = slot B1 (A1 m) i.
Proof.
  intros Hm. rewrite daddrs_after by done. apply slot_ext. intros Hc. rewrite block_after.
  destruct (wf_data _ _ _ (wf1 _ _ Hst) m NDIRECT Hm) as (D & _); [unfold NDIRECT, NSLOT; lia|done|].
  rewrite decide_False; [done|]. by apply data_not_inode.
Qed.
Lemma data_after m i : ino sbk m -> (i < NSLOT)%nat -> let b := slot B1 (A1 m) i in b ≠ 0 -> B' b = B1 b.
Proof.
  intros Hm Hi b Hb. destruct (wf_data _ _ _ (wf1 _ _ Hst) m i Hm Hi Hb) as (D & _).
  rewrite block_after, decide_False; [done|]. by apply data_not_inode.
Qed.

Lemma wf_after : wf sbk B' (daddrs sbk B').
Proof.
  pose proof (wf1 _ _ Hst) as [W1 W2 W3 W4 W5 W6]. pose proof (iblock_range s sbk Hlay n Hn) as (R1 & _).
  assert (B' bm = B1 bm) as Eb by (rewrite block_after; by rewrite decide_False by lia).
  split; unfold used; rewrite ?Eb; try done.
  - intros m Hm. rewrite block_after. case_decide as E; [|by apply W4].
    pose proof (wf_iblock _ _ _ (fy_wf _ _ Hf) n Hn) as El. rewrite length_splice; [done|].
    rewrite length_dinode_after, El. destruct Hn as [Hn' _]. exact (dinode_off_range n Hn').
  - intros m i Hm Hi. cbv zeta. rewrite slot_after by done. intros Hb. rewrite data_after by done. by apply W5.
  - intros m i m' i' Hm Hm' Hi Hi'. rewrite !slot_after by done. by apply W6.
Qed.

Lemma off_block o : 0 <= o < MAXFILE * BSIZE -> 0 <= o / BSIZE < MAXFILE.
Proof. unfold BSIZE. change MAXFILE with 268. intros. zlia. Qed.

(** The blocks of the files and their data. *)
Lemma dblock_after m bn : ino sbk m -> dblock sbk B' m bn = slot B1 (A1 m) (slot_of bn).
Proof. apply slot_after. Qed.
Lemma byte_after o : 0 <= o < Z.max (dsize sbk B n) (off + len) ->
  dblock sbk B' n (o / BSIZE) ≠ 0 ∧
  B' (dblock sbk B' n (o / BSIZE)) !!! Z.to_nat (o mod BSIZE) =
  if decide (off <= o < off + len) then bs !!! Z.to_nat (o - off)
  else B (dblock sbk B n (o / BSIZE)) !!! Z.to_nat (o mod BSIZE).
Proof.
  intros Ho. pose proof (fy_size _ _ Hf n Hn) as Hsz.
  assert (0 <= o < MAXFILE * BSIZE) as Hoo by lia. pose proof (off_block o Hoo) as Hob.
  destruct (slot_of_range (o / BSIZE) Hob) as (Hsl & _). rewrite dblock_after, A1_n by done.
  change (slot B1 (addrs ip σ1) (slot_of (o / BSIZE))) with (baddr img ip σ1 (o / BSIZE)).
  assert (baddr img ip σ1 (o / BSIZE) ≠ 0 -> B' (baddr img ip σ1 (o / BSIZE)) = B1 (baddr img ip σ1 (o / BSIZE))) as Ed.
  { pose proof (data_after n (slot_of (o / BSIZE)) Hn Hsl) as Hd. rewrite A1_n in Hd. exact Hd. }
  case_decide as Hin.
  - destruct (wo_new _ _ _ _ _ _ _ _ _ _ _ _ Hw o Hin) as [H1 H2]. split; [done|]. rewrite Ed by done. exact H2.
  - assert (baddr img ip σ (o / BSIZE) = dblock sbk B n (o / BSIZE)) as Eb by (unfold baddr, dblock; by rewrite Haddr).
    destruct (wo_old _ _ _ _ _ _ _ _ _ _ _ _ Hw o Hoo) as [H1 H2]; [|done|].
    + rewrite Eb. apply (fy_whole _ _ Hf); [done|lia].
    + split; [done|]. rewrite Ed by done. unfold byte in H2. by rewrite H2, Eb.
Qed.

Lemma fsys_after : fsys sbk B'.
Proof.
  split; [exact wf_after|..].
  - intros m Hm. rewrite dsize_after by done. pose proof (fy_size _ _ Hf m Hm). case_decide; [subst m; lia|done].
  - intros m o Hm. rewrite dsize_after by done. case_decide as E; intros Ho.
    + subst m. by apply byte_after.
    + rewrite dblock_after, A1_ne by done. rewrite (other_slot _ _ Hst) by done. by apply (fy_whole _ _ Hf).
Qed.

Lemma length_dbytes B0 m : 0 <= dsize sbk B0 m -> length (dbytes sbk B0 m) = Z.to_nat (dsize sbk B0 m).
Proof. intros. unfold dbytes. by rewrite length_fmap, length_seqZ. Qed.
Lemma lookup_dbytes B0 m i : (i < length (dbytes sbk B0 m))%nat -> let o := Z.of_nat i in
  dbytes sbk B0 m !!! i = B0 (dblock sbk B0 m (o / BSIZE)) !!! Z.to_nat (o mod BSIZE).
Proof.
  unfold dbytes. rewrite length_fmap, length_seqZ. intros Hi. rewrite list_lookup_total_alt, list_lookup_fmap, lookup_seqZ_lt by lia.
  done.
Qed.

Lemma dbytes_after : dbytes sbk B' n = splice (Z.to_nat off) bs (dbytes sbk B n).
Proof.
  pose proof (fy_size _ _ Hf n Hn) as Hsz. pose proof (dsize_after n Hn) as Es. rewrite decide_True in Es by done.
  pose proof (length_dbytes B' n) as L1. pose proof (length_dbytes B n) as L2.
  rewrite Es in L1. specialize (L1 ltac:(lia)). specialize (L2 ltac:(lia)).
  assert (length (splice (Z.to_nat off) bs (dbytes sbk B n)) = Z.to_nat (Z.max (dsize sbk B n) (off + len))) as L3.
  { unfold splice. rewrite !length_app, length_take, length_drop, L2. lia. }
  apply list_eq_total; [by rewrite L1, L3|]. rewrite L1. intros i Hi. rewrite lookup_dbytes by lia.
  destruct (byte_after (Z.of_nat i)) as [_ ->]; [lia|]. rewrite lookup_total_splice by lia.
  case_decide as H1; case_decide as H2; try (exfalso; lia); [f_equal; lia|]. by rewrite lookup_dbytes by lia.
Qed.
Lemma dbytes_other m : ino sbk m -> m ≠ n -> dbytes sbk B' m = dbytes sbk B m.
Proof.
  intros Hm Hne. pose proof (fy_size _ _ Hf m Hm) as Hsz. unfold dbytes. rewrite dsize_after, decide_False by done.
  apply list_fmap_ext. intros i o Ho. apply list_elem_of_lookup_2, elem_of_seqZ in Ho. f_equal.
  assert (0 <= o / BSIZE < MAXFILE) as Hob by (apply off_block; lia). destruct (slot_of_range (o / BSIZE) Hob) as (Hsl & _).
  assert (dblock sbk B m (o / BSIZE) ≠ 0) as H0 by (apply (fy_whole _ _ Hf); [done|lia]).
  assert (slot B1 (A1 m) (slot_of (o / BSIZE)) = dblock sbk B m (o / BSIZE)) as Es
    by (rewrite A1_ne by done; by apply (other_slot _ _ Hst)).
  rewrite dblock_after, data_after by (done || congruence). rewrite Es.
  apply (other_block _ _ Hst m (slot_of (o / BSIZE))); try done. by apply (other_slot _ _ Hst).
Qed.

Lemma nfree_after : (nfree sbk B <= nfree sbk B' + S (length (slots off len)))%nat.
Proof.
  pose proof (wo_room _ _ _ _ _ _ _ _ _ _ _ _ Hw) as Hr. pose proof (iblock_range s sbk Hlay n Hn) as (R1 & _).
  assert (nfree sbk B' = nfree sbk B1) as -> by (unfold nfree; rewrite block_after; by rewrite decide_False by lia).
  unfold room in Hr. destruct (_ =? 0), (_ =? 0); lia.
Qed.
Lemma inodes_after : ∃ a z, s_inodes σ' = upd ip (λ r, r <| i_addrs := a |> <| i_size := z |>) (s_inodes σ).
Proof.
  pose proof Hst as [[_ _ _ G4] Hin _ _ _]. exists (addrs ip σ1), (i_size (s_inodes σ' !!! ip)).
  change (s_inodes σ') with (upd ip (λ r, if i_size r <? off + len then r <| i_size := off + len |> else r) (s_inodes σ1)).
  rewrite (upd_eq ip _ (s_inodes σ1)) by done. rewrite Hin, upd_upd. apply upd_ext. cbn.
  rewrite upd_eq by apply Hg. cbn. by destruct (_ <? _).
Qed.

Lemma in_sync_after : i_inum (s_inodes σ !!! ip) = n -> in_sync sbk B' n ip (s_inodes σ').
Proof.
  intros Hi. destruct inode_after as (E1 & E2 & E3 & E4 & _). split.
  - cbn. rewrite length_upd. apply Hst.
  - rewrite E3. apply Hg.
  - by rewrite E4.
  - by rewrite E1, daddrs_after, A1_n.
  - by rewrite E2, dsize_after, decide_True.
Qed.
End effect.

(** ** A file write as a transaction *)

Lemma length_slots off k : 0 <= off -> k <= 3 * BSIZE -> (length (slots off k) <= 4)%nat.
Proof.
  intros Ho Hk. unfold slots. destruct (Z.ltb_spec 0 k); [|cbn; lia]. rewrite length_fmap, length_seqZ. unfold BSIZE in *. zlia.
Qed.

Section theorem.
Context {L : Linker} {W : World} {DW : DiskWorld W} (p : nat) (s : Z) (k : kernel).
Local Abbreviation disk k := (λ b, image k !!! b).
Context (Hlay : layout s (sb k)) (Hk : at_rest p s k) (Hf : fsys (sb k) (disk k)).

Lemma good_start ip n : ino (sb k) n -> in_sync (sb k) (disk k) n ip (itable k) ->
  good (image k) (sb k) ip n (daddrs (sb k) (disk k)) (start p k).
Proof.
  intros Hn [S1 S2 S3 S4 S5]. split; try done.
  eapply wf_ext; [done| |apply Hf]. intros m. unfold A_of, aset, addrs. cbn. case_decide; [by subst|done].
Qed.

Lemma log_range : 0 <= s ∧ s + LOGBLOCKS < 2 ^ 31.
Proof.
  pose proof (bm_pos s (sb k) Hlay) as (P1 & P2 & P3 & _). destruct Hlay as [[H1 H2] [H3 H4] _].
  change IPB with 16 in H4. assert (0 <= (sb_ninodes (sb k) - 1) / 16) by (apply Z.div_pos; lia). lia.
Qed.

Lemma room_start ip off len : (length (slots off len) <= 4)%nat -> (5 <= nfree (sb k) (disk k))%nat ->
  Z.of_nat (length (slots off len)) <= room (image k) (sb k) ip (start p k).
Proof.
  intros Hsl Hfree. unfold room. change (nfree (sb k) (blk (image k) (start p k))) with (nfree (sb k) (disk k)).
  destruct (_ =? 0); lia.
Qed.

(** A transaction that writes [bs] at [off] of the file [n] takes [k] to [k'],
    with the writes [T] to the disk. *)
Record file_written (ip : nat) (n : Z) (bs : list Z) (off : Z) (k' : kernel) (T : list (Z * list Z)) : Prop := {
  fw_rest : at_rest p s k';
  fw_sb : sb k' = sb k;
  fw_writes : writes k' = writes k ++ T;
  fw_image : image k' = written T (image k);
  fw_log : Z.of_nat (length T) <= 2 * MAXOPBLOCKS + 2;
  fw_fsys : fsys (sb k) (disk k');
  fw_sync : in_sync (sb k) (disk k') n ip (itable k');
  fw_bytes : dbytes (sb k) (disk k') n = splice (Z.to_nat off) bs (dbytes (sb k) (disk k) n);
  fw_other m : ino (sb k) m -> m ≠ n -> dbytes (sb k) (disk k') m = dbytes (sb k) (disk k) m;
  fw_free : (nfree (sb k) (disk k) <= nfree (sb k) (disk k') + 5)%nat;
  fw_inodes : ∃ a z, itable k' = upd ip (λ r, r <| i_addrs := a |> <| i_size := z |>) (itable k);
  fw_crash i first second kb sblk :
    booted p (crash_image T i first second (image k)) kb -> i32 (sb_logstart sblk) = s ->
    ∃ kr, initlog ROOTDEV sblk kb = Ret () kr ∧ at_rest p s kr ∧ fsys (sb k) (disk kr) ∧
      ((∀ m, ino (sb k) m -> dbytes (sb k) (disk kr) m = dbytes (sb k) (disk k) m) ∨
       (∀ m, ino (sb k) m -> dbytes (sb k) (disk kr) m = dbytes (sb k) (disk k') m));
}.

Lemma st_eta σ lk U : s_ilk σ = lk -> s_user σ = U -> σ = σ <| s_ilk := lk |> <| s_user := U |>.
Proof. by intros <- <-. Qed.

(** Code that does what [writei] does is an atomic change of one file.  It may
    lock inodes meanwhile, and leaves the process and the open files as [U]. *)
Lemma write_atomic {A} (m : M A) (x : A) ip n bs off (lk : gset nat) (U : uview) :
  let len := Z.of_nat (length bs) in let σ := (start p k) <| s_ilk := lk |> in
  ino (sb k) n -> in_sync (sb k) (disk k) n ip (itable k) ->
  0 <= off <= dsize (sb k) (disk k) n -> off + len <= MAXFILE * BSIZE -> len <= 3 * BSIZE ->
  fs p s (image k) (writes k) (sb k) 1 (start p k) m (λ y σ', y = x ∧
    ∃ σ1, wrote (image k) (sb k) ip n (daddrs (sb k) (disk k)) bs (slots off len) 0 off len σ σ1 ∧
      σ' = (updated (image k) (sb k) ip n (resized ip (off + len) σ1)) <| s_ilk := ∅ |> <| s_user := U |>) ->
  ∃ k' T, in_op m k = Ret x k' ∧ user_of p k' = U ∧ file_written ip n bs off k' T.
Proof.
  intros len σ Hn Hsy Ho Hmax Hlen Hwr.
  assert (good (image k) (sb k) ip n (daddrs (sb k) (disk k)) σ) as Hg by (destruct (good_start ip n Hn Hsy); by split).
  pose proof Hsy as [S1 S2 S3 S4 S5]. pose proof (length_slots off len (proj1 Ho) Hlen) as Hsl.
  assert (∀ σ1, wrote (image k) (sb k) ip n (daddrs (sb k) (disk k)) bs (slots off len) 0 off len σ σ1 ->
    let σ' := updated (image k) (sb k) ip n (resized ip (off + len) σ1) in
    s_held σ' = ∅ ∧ (size (s_pins σ') <= 7)%nat) as Hpins.
  { intros σ1 Hw. pose proof (wo_step _ _ _ _ _ _ _ _ _ _ _ _ Hw) as Hst.
    pose proof (step_size _ _ _ _ _ _ _ _ _ Hst) as Hs1. pose proof Hst as [[_ Gh _ _] _ _ _ _]. split; [exact Gh|].
    change (s_pins σ) with (∅ : gmap Z (list Z)) in Hs1. rewrite map_size_empty in Hs1.
    unfold updated. etransitivity; [apply size_put|]. change (s_pins (resized ip (off + len) σ1)) with (s_pins σ1). lia. }
  destruct (in_op_atomic p s _ _ k log_range Hk Hwr)
    as (y & σ' & k' & T & E & (-> & σ1 & Hw & ->) & Hr & Esb & Eit & Eus & Ew & Eim & HlT & Him & Hcr).
  { intros y σ' (_ & σ1 & Hw & ->). destruct (Hpins σ1 Hw) as (? & ?). split_and!; [done..|cbn in *; lia]. }
  destruct (Hpins σ1 Hw) as (_ & Hp7). exists k', T. split; [done|]. split; [exact Eus|].
  set (σ' := updated (image k) (sb k) ip n (resized ip (off + len) σ1)) in *. change (itable k' = s_inodes σ') in Eit.
  change (∀ b, home s b -> image k' !!! b = blk (image k) σ' b) in Him.
  pose proof (fsys_after s (image k) (sb k) Hlay ip n Hn σ σ1 Hf Hg S4 S5 bs off Ho Hmax Hw) as Hf'.
  pose proof (dbytes_after s (image k) (sb k) Hlay ip n Hn σ σ1 Hf Hg S4 S5 bs off Ho Hmax Hw) as Hb.
  pose proof (dbytes_other s (image k) (sb k) Hlay ip n Hn σ σ1 Hf Hg S5 bs off Ho Hmax Hw) as Hm.
  pose proof (nfree_after s (image k) (sb k) Hlay ip n Hn σ σ1 bs off Hw) as Hfr.
  pose proof (inodes_after (image k) (sb k) ip n σ σ1 Hg bs off Hw) as Hin.
  fold len in Hf', Hb, Hm, Hfr, Hin. fold σ' in Hf', Hb, Hm, Hfr, Hin.
  destruct (fsys_ext s (sb k) Hlay (blk (image k) σ') (disk k') Him Hf') as [Hfk Hbk].
  split; try done.
  - change (s_pins (_ <| s_user := U |>)) with (s_pins σ') in HlT. change MAXOPBLOCKS with 10. lia.
  - rewrite Eit. apply (in_sync_ext _ (blk (image k) σ')); [apply Him; by apply (iblock_range s (sb k) Hlay)|].
    by apply (in_sync_after s (image k) (sb k) Hlay ip n Hn σ σ1 Hf Hg S5 bs off Ho Hmax Hw).
  - by rewrite Hbk.
  - intros j Hj Hne. rewrite Hbk by done. by apply Hm.
  - assert (nfree (sb k) (disk k') = nfree (sb k) (blk (image k) σ')) as ->.
    { unfold nfree. rewrite Him; [done|]. apply (bm_pos s (sb k) Hlay). }
    change (nfree (sb k) (disk k)) with (nfree (sb k) (blk (image k) σ)). lia.
  - rewrite Eit. exact Hin.
  - intros i f1 f2 kb sblk Hbt Es. destruct (Hcr i f1 f2 kb sblk Hbt Es) as (kr & Er & Hrr & Hold).
    exists kr. split; [done|]. split; [done|].
    destruct Hold as [H|H].
    + destruct (fsys_ext s (sb k) Hlay (disk k) (disk kr) H Hf). auto.
    + destruct (fsys_ext s (sb k) Hlay (disk k') (disk kr) H Hfk). auto.
Qed.

Lemma write_atomic_plain {A} (m : M A) (x : A) ip n bs off :
  let len := Z.of_nat (length bs) in
  ino (sb k) n -> in_sync (sb k) (disk k) n ip (itable k) ->
  0 <= off <= dsize (sb k) (disk k) n -> off + len <= MAXFILE * BSIZE -> len <= 3 * BSIZE ->
  fs p s (image k) (writes k) (sb k) 1 (start p k) m (λ y σ', y = x ∧
    ∃ σ1, wrote (image k) (sb k) ip n (daddrs (sb k) (disk k)) bs (slots off len) 0 off len (start p k) σ1 ∧
      σ' = updated (image k) (sb k) ip n (resized ip (off + len) σ1)) ->
  ∃ k' T, in_op m k = Ret x k' ∧ user_of p k' = user_of p k ∧ file_written ip n bs off k' T.
Proof.
  intros len Hn Hsy Ho Hmax Hlen Hm. apply (write_atomic m x ip n bs off ∅ (user_of p k)); try done.
  eapply fs_mono; [exact Hm|]. intros y σ' (-> & σ1 & Hw & ->). split; [done|]. exists σ1. split; [done|].
  destruct (st_rest _ _ _ _ _ _ _ _ _ (wo_step _ _ _ _ _ _ _ _ _ _ _ _ Hw)) as [E1 E2]. by apply st_eta.
Qed.

(** C3. A write to a file is atomic.  In a file system whose inodes have
    distinct data blocks that the bitmap marks as used, with 5 blocks free,
    [writei] of at most as many bytes as [filewrite] writes at a time (3 blocks),
    at an offset within the file and not beyond the largest size, between [begin_op] and [end_op],
    returns the number of bytes; the file on the disk then has the new bytes at
    the offset and everything else as before, also when blocks and the indirect
    block had to be allocated; the other files are unchanged, the file system is
    well-formed, and the log took at most [MAXOPBLOCKS] blocks.  After a crash at
    any point of the disk writes, recovery leaves a well-formed file system in
    which either all files are as before or all are as after the write. *)
Theorem file_write_atomic ip n src bs off :
  let len := Z.of_nat (length bs) in
  ino (sb k) n -> in_sync (sb k) (disk k) n ip (itable k) ->
  source p s (image k) (writes k) (sb k) 1 src bs (user_of p k) ->
  0 <= off <= dsize (sb k) (disk k) n -> off + len <= MAXFILE * BSIZE -> len <= 3 * BSIZE ->
  (5 <= nfree (sb k) (disk k))%nat ->
  ∃ k' T, in_op (writei ip src off len) k = Ret len k' ∧ at_rest p s k' ∧ sb k' = sb k ∧
    writes k' = writes k ++ T ∧ Z.of_nat (length T) <= 2 * MAXOPBLOCKS + 2 ∧
    fsys (sb k) (disk k') ∧ in_sync (sb k) (disk k') n ip (itable k') ∧
    dbytes (sb k) (disk k') n = splice (Z.to_nat off) bs (dbytes (sb k) (disk k) n) ∧
    (∀ m, ino (sb k) m -> m ≠ n -> dbytes (sb k) (disk k') m = dbytes (sb k) (disk k) m) ∧
    ∀ i first second kb sblk,
      booted p (crash_image T i first second (image k)) kb -> i32 (sb_logstart sblk) = s ->
      ∃ kr, initlog ROOTDEV sblk kb = Ret () kr ∧ at_rest p s kr ∧ fsys (sb k) (disk kr) ∧
        ((∀ m, ino (sb k) m -> dbytes (sb k) (disk kr) m = dbytes (sb k) (disk k) m) ∨
         (∀ m, ino (sb k) m -> dbytes (sb k) (disk kr) m = dbytes (sb k) (disk k') m)).
Proof.
  intros len Hn Hsy Hsrc Ho Hmax Hlen Hfree. pose proof (good_start ip n Hn Hsy) as Hg. pose proof Hsy as [S1 S2 S3 S4 S5].
  pose proof (length_slots off len (proj1 Ho) Hlen) as Hsl.
  destruct (write_atomic_plain (writei ip src off len) len ip n bs off) as (k' & T & E & _ & Hw); try done.
  - apply (writei_spec p s (image k) (writes k) (sb k) 1 Hlay ip n (daddrs (sb k) (disk k)) Hn ltac:(lia) src bs off (start p k)); try done.
    + cbn [s_inodes]. by rewrite S5.
    + cbn [s_pins]. rewrite map_size_empty. fold len. lia.
    + by apply room_start.
  - destruct Hw. exists k', T. split_and!; done.
Qed.

Lemma baddr_start ip n o : in_sync (sb k) (disk k) n ip (itable k) ->
  baddr (image k) ip (start p k) o = dblock (sb k) (disk k) n o.
Proof. intros [S1 S2 S3 S4 S5]. unfold baddr, dblock, addrs. cbn [s_inodes]. rewrite S4. by apply slot_ext. Qed.
Lemma whole_start ip n : ino (sb k) n -> in_sync (sb k) (disk k) n ip (itable k) ->
  whole (image k) ip (start p k) (dsize (sb k) (disk k) n).
Proof. intros Hn Hsy o Ho. rewrite (baddr_start ip n _ Hsy). by apply (fy_whole _ _ Hf). Qed.
Lemma bytes_start ip n off m : in_sync (sb k) (disk k) n ip (itable k) -> 0 <= off -> 0 <= m ->
  0 <= dsize (sb k) (disk k) n -> m = 0 ∨ off + m <= dsize (sb k) (disk k) n ->
  bytes (image k) ip (start p k) off m = take (Z.to_nat m) (drop (Z.to_nat off) (dbytes (sb k) (disk k) n)).
Proof.
  intros Hsy Ho Hm Hsz Hom. apply list_eq. intros i. unfold bytes, byte. destruct (decide (i < Z.to_nat m)%nat) as [Hi|Hi].
  - rewrite list_lookup_fmap, lookup_seqZ_lt, lookup_take_lt, lookup_drop by lia. unfold dbytes.
    rewrite list_lookup_fmap, lookup_seqZ_lt by lia. cbn [fmap option_fmap option_map].
    replace (off + (0 + Z.of_nat i)) with (0 + Z.of_nat (Z.to_nat off + i)) by lia. by rewrite (baddr_start ip n _ Hsy).
  - rewrite list_lookup_fmap, lookup_seqZ_ge by lia. symmetry. apply lookup_ge_None. rewrite length_take. lia.
Qed.

(** C10. [readi] returns the bytes of the file from the offset on, up to the end
    of the file, and changes nothing. *)
Theorem file_read ip n off len :
  ino (sb k) n -> in_sync (sb k) (disk k) n ip (itable k) -> 0 <= off < 2 ^ 31 -> 0 <= len < 2 ^ 31 ->
  let bs := take (Z.to_nat len) (drop (Z.to_nat off) (dbytes (sb k) (disk k) n)) in
  ∃ k', readi ip LocalDst off len k = Ret (Z.of_nat (length bs), bs) k' ∧
    at_rest p s k' ∧ image k' = image k ∧ itable k' = itable k.
Proof.
  intros Hn Hsy Ho Hlen bs. pose proof (good_start ip n Hn Hsy) as Hg. pose proof Hsy as [S1 S2 S3 S4 S5].
  set (σ := start p k) in *. pose proof (fy_size _ _ Hf n Hn) as Hsz.
  pose proof (readi_spec p s (image k) (writes k) (sb k) 0 Hlay ip n _ Hn σ off len Hg) as Hrd. cbv zeta in Hrd.
  change (s_inodes σ) with (itable k) in Hrd. rewrite S5 in Hrd. change (s_pins σ) with (∅ : gmap Z (list Z)) in Hrd.
  rewrite map_size_empty in Hrd. specialize (Hrd ltac:(lia) Ho Hlen Hsz (whole_start ip n Hn Hsy)).
  destruct (read_run p s _ _ k log_range Hk Hrd) as (a & σ' & k' & E & (-> & ->) & Hr & Ei & Et & Esb); [by intros ? ? [_ ->]|].
  exists k'. split_and!; [|done..]. rewrite E. f_equal. unfold σ. rewrite (bytes_start ip n off _ Hsy) by lia.
  set (d := dsize (sb k) (disk k) n) in *. assert (length (dbytes (sb k) (disk k) n) = Z.to_nat d) as El by (by rewrite length_dbytes by lia).
  assert (take (Z.to_nat (Z.max 0 (Z.min len (d - off)))) (drop (Z.to_nat off) (dbytes (sb k) (disk k) n)) = bs) as ->.
  { unfold bs. destruct (decide (d - off <= len)).
    - rewrite !take_ge; [done|rewrite length_drop; lia..].
    - f_equal. lia. }
  f_equal. unfold bs. rewrite length_take, length_drop, El. lia.
Qed.
End theorem.
