(* ===== verification/FsDir.v ===== *)
(** * Directories as finite maps

    A directory file is a sequence of entries; [dmap] is the finite map from
    names to inode numbers it stands for.  [dirlookup] looks a name up in that
    map and [dirlink] inserts one. *)
From S2P Require Import Prelude Layout KState Spinlock CString Vm Proc Uart Sleeplock Virtio Bio.
From S2P Require Import Log Fs SchedEq Demo FsView Disk Bcache LogSpec Txn FsTx FsSpec FsFile FsDisk.

(** ** Names *)

(** What a name is stored as. *)
Definition key (name : list Z) : list Z := strncpy_list (Z.to_nat DIRSIZ) name.

Lemma strncpy_list_length n l : length (strncpy_list n l) = n.
Proof. revert l. induction n as [|n IH]; intros l; cbn; [done|]. destruct (_ =? 0); cbn; [by rewrite length_replicate|by rewrite IH]. Qed.
Lemma strncmp_list_key n p q : strncmp_list n p q = 0 <-> strncpy_list n p = strncpy_list n q.
Proof.
  revert p q. induction n as [|n IH]; intros p q; [done|]. cbn. destruct (Z.eqb_spec (hd 0 p) 0) as [Ep|Ep]; cbn.
  - rewrite Ep. destruct (Z.eqb_spec (hd 0 q) 0) as [Eq|Eq]; cbn; [by rewrite Eq|].
    split; [lia|]. intros [= E _]. congruence.
  - destruct (Z.eqb_spec (hd 0 p) (hd 0 q)) as [E|E].
    + rewrite <- E. destruct (Z.eqb_spec (hd 0 p) 0); [done|]. cbn. rewrite IH. split; [by intros ->|by intros [= ->]].
    + split; [lia|]. destruct (Z.eqb_spec (hd 0 q) 0); cbn; intros [= E' _]; congruence.
Qed.
Lemma namecmp_key p q : namecmp p q = 0 <-> key p = key q.
Proof. apply strncmp_list_key. Qed.
Lemma strncpy_list_idemp n p : strncpy_list n (strncpy_list n p) = strncpy_list n p.
Proof.
  revert p. induction n as [|n IH]; intros p; [done|]. cbn. destruct (Z.eqb_spec (hd 0 p) 0) as [E|E]; cbn; [done|].
  destruct (Z.eqb_spec (hd 0 p) 0); [done|]. cbn. by rewrite IH.
Qed.
Lemma key_key p : key (key p) = key p.
Proof. apply strncpy_list_idemp. Qed.

(** ** Entries *)
Definition dirents (l : list Z) : list (list Z) := (λ i, take 16 (drop (16 * i) l)) <$> seq 0 (length l / 16).
Definition live (de : list Z) : Prop := de_inum de ≠ 0.
#[export] Instance live_dec de : Decision (live de) := decide (de_inum de ≠ 0).
Definition binding (de : list Z) : list Z * Z := (key (de_name de), de_inum de).
(** The first entry with a name counts. *)
Definition emap (es : list (list Z)) : gmap (list Z) Z := list_to_map (binding <$> filter live es).
Definition dmap (l : list Z) : gmap (list Z) Z := emap (dirents l).

Definition is_match (name : list Z) (de : list Z) : Prop := live de ∧ key (de_name de) = key name.
#[export] Instance is_match_dec name de : Decision (is_match name de) := decide (live de ∧ _ = _).

Lemma dirents_lookup l i : (i < length l / 16)%nat -> dirents l !! i = Some (take 16 (drop (16 * i) l)).
Proof. intros Hi. unfold dirents. by rewrite list_lookup_fmap, lookup_seq_lt. Qed.
Lemma length_dirents l : length (dirents l) = (length l / 16)%nat.
Proof. unfold dirents. by rewrite length_fmap, length_seq. Qed.

Lemma emap_app es es' : emap (es ++ es') = emap es ∪ emap es'.
Proof. unfold emap. by rewrite filter_app, fmap_app, list_to_map_app. Qed.
Lemma emap_cons de es : emap (de :: es) = if decide (live de) then <[key (de_name de) := de_inum de]> (emap es) else emap es.
Proof. unfold emap. rewrite filter_cons. by case_decide. Qed.

(** The map through the first match. *)
Lemma emap_find name es : emap es !! key name = de_inum ∘ snd <$> list_find (is_match name) es.
Proof.
  induction es as [|de es IH]; [done|]. rewrite emap_cons. cbn [list_find].
  destruct (decide (live de)) as [Hl|Hl].
  - destruct (decide (key (de_name de) = key name)) as [E|E].
    + rewrite (decide_True (P := is_match name de)) by done. by rewrite E, lookup_insert_eq.
    + rewrite (decide_False (P := is_match name de)) by (by intros [_ ?]).
      rewrite lookup_insert_ne, IH by done. by destruct (list_find _ es) as [[]|].
  - rewrite (decide_False (P := is_match name de)) by (by intros [? _]). rewrite IH. by destruct (list_find _ es) as [[]|].
Qed.
Lemma emap_None name es : emap es !! key name = None <-> Forall (λ de, ¬ is_match name de) es.
Proof. rewrite emap_find, <- list_find_None. rewrite fmap_None. done. Qed.

(** A new name in a free entry, or behind the last. *)
Lemma emap_insert name inum es j de : emap es !! key name = None -> inum ≠ 0 ->
  de_inum de = inum -> key (de_name de) = key name -> (∀ e, es !! j = Some e -> ¬ live e) ->
  emap (take j es ++ de :: drop (S j) es) = <[key name := inum]> (emap es).
Proof.
  intros Hn H0 Ei Ek Hfree. assert (live de) as Hl by (unfold live; congruence).
  assert (emap es = emap (take j es) ∪ emap (drop (S j) es)) as E.
  { rewrite <- (take_drop j es) at 1. rewrite emap_app. f_equal. destruct (es !! j) as [e|] eqn:Ej.
    - rewrite (drop_S _ _ _ Ej), emap_cons, decide_False by (by apply Hfree). done.
    - apply lookup_ge_None in Ej. by rewrite !drop_ge by lia. }
  rewrite emap_app, emap_cons, decide_True, E, Ek, Ei by done. symmetry. apply insert_union_r.
  rewrite E in Hn. by apply lookup_union_None in Hn as [? _].
Qed.

Lemma dirents_splice l e j : length e = 16%nat -> (length l mod 16 = 0)%nat -> (j <= length l / 16)%nat ->
  dirents (splice (16 * j) e l) = take j (dirents l) ++ e :: drop (S j) (dirents l).
Proof.
  intros He Hm Hj. pose proof (Nat.div_mod_eq (length l) 16) as Hd.
  assert (length (splice (16 * j) e l) = Nat.max (length l) (16 * j + 16)) as Hl.
  { unfold splice. rewrite !length_app, length_take, length_drop, He. lia. }
  assert (length (splice (16 * j) e l) / 16 = Nat.max (length l / 16) (S j))%nat as Hq.
  { rewrite Hl. destruct (Nat.max_spec (length l) (16 * j + 16)) as [[H1 ->]|[H1 ->]].
    - replace (16 * j + 16)%nat with (S j * 16)%nat by lia. rewrite Nat.div_mul by done. lia.
    - lia. }
  apply list_eq. intros i. destruct (decide (i < Nat.max (length l / 16) (S j))%nat) as [Hi|Hi].
  2: { rewrite !lookup_ge_None_2; [done|..].
       - rewrite length_app, length_cons, length_take, length_drop, length_dirents. lia.
       - rewrite length_dirents. lia. }
  rewrite dirents_lookup by lia. destruct (decide (i < j)%nat) as [Hlt|Hge].
  { rewrite lookup_app_l by (rewrite length_take, length_dirents; lia). rewrite lookup_take_lt, dirents_lookup by lia.
    f_equal. apply splice_before; rewrite ?He; lia. }
  assert (length (take j (dirents l)) = j) as Et by (rewrite length_take, length_dirents; lia).
  rewrite lookup_app_r, Et by lia. destruct (decide (i = j)) as [->|Hne].
  { rewrite Nat.sub_diag. cbn. f_equal. unfold splice. rewrite drop_app_length' by (rewrite length_take; lia).
    rewrite <- He. apply take_app_length. }
  destruct (i - j)%nat as [|q] eqn:Eq; [lia|]. change ((e :: drop (S j) (dirents l)) !! S q) with (drop (S j) (dirents l) !! q). rewrite lookup_drop, dirents_lookup by lia.
  replace (S j + q)%nat with i by lia. f_equal. apply splice_after; rewrite ?He; lia.
Qed.

(** ** The inode table *)
Definition cached (T : list inode) (dev inum : Z) (i : nat) : Prop :=
  0 < i_ref (T !!! i) ∧ i_dev (T !!! i) = dev ∧ i_inum (T !!! i) = inum.
(** [iget] counts a reference to the inode's entry, or makes one. *)
Definition igot (dev inum : Z) (T : list inode) (ip : nat) (T' : list inode) : Prop :=
  (ip < NINODE)%nat ∧
  (cached T dev inum ip ∧ T' = upd ip (λ i, i <| i_ref := i32 (i_ref i + 1) |>) T ∨
   (∀ i, (i < NINODE)%nat -> ¬ cached T dev inum i) ∧ i_ref (T !!! ip) = 0 ∧
   T' = upd ip (λ i, i <| i_dev := dev |> <| i_inum := inum |> <| i_ref := 1 |> <| i_valid := 0 |>) T).

Lemma iget_scan_spec l T dev inum e :
  match iget_scan l T dev inum e with
  | (Some i, _) => i ∈ l ∧ cached T dev inum i
  | (None, e') => (∀ i, i ∈ l -> ¬ cached T dev inum i) ∧
      match e' with Some i => e = Some i ∨ (i ∈ l ∧ i_ref (T !!! i) = 0)
      | None => e = None ∧ ∀ i, i ∈ l -> i_ref (T !!! i) ≠ 0 end
  end.
Proof.
  revert e. induction l as [|i l IH]; intros e; cbn [iget_scan].
  { split; [by intros i ?%not_elem_of_nil|]. destruct e; [by left|]. split; [done|]. by intros i ?%not_elem_of_nil. }
  destruct (0 <? i_ref (T !!! i)) eqn:E1; destruct (i_dev (T !!! i) =? dev) eqn:E2; destruct (i_inum (T !!! i) =? inum) eqn:E3; cbn [andb].
  1: { split; [by left|]. unfold cached. lia. }
  all: assert (¬ cached T dev inum i) as Hnc by (unfold cached; lia);
    specialize (IH (if bool_decide (e = None) && (i_ref (T !!! i) =? 0) then Some i else e));
    destruct (iget_scan l T dev inum _) as [[j|] e']; [destruct IH; split; [by right|done]|];
    destruct IH as [IH1 IH2]; (split; [intros j [->|Hj]%elem_of_cons; [done|by apply IH1]|]);
    destruct e' as [j|].
  all: try (destruct IH2 as [IH2|[IH2 IH3]]; [|right; split; [by right|done]];
    destruct (bool_decide_reflect (e = None)); cbn [andb] in IH2; [|by left];
    destruct (Z.eqb_spec (i_ref (T !!! i)) 0); [|by left]; right; injection IH2 as <-; split; [by left|done]).
  all: destruct IH2 as [IH2 IH3]; destruct (bool_decide_reflect (e = None)); cbn [andb] in IH2; [|done];
    destruct (Z.eqb_spec (i_ref (T !!! i)) 0); [done|]; (split; [done|]); intros j [->|Hj]%elem_of_cons; [done|by apply IH3].
Qed.

(** The entry [dirlink] uses. *)
Definition first_free (l : list (list Z)) : nat :=
  match list_find (λ de, ¬ live de) l with Some (j, _) => j | None => length l end.
Lemma first_free_bound es : (first_free es <= length es)%nat.
Proof.
  unfold first_free. destruct (list_find _ es) as [[j de]|] eqn:E; [|done].
  apply list_find_Some in E as (E & _). apply lookup_lt_Some in E. lia.
Qed.
Lemma length_dirent name inum : length (dirent_bytes name inum) = 16%nat.
Proof. unfold dirent_bytes. rewrite length_app, length_le_bytes, strncpy_list_length. done. Qed.

Section dir.
Context {L : Linker} {W : World} {DW : DiskWorld W} (p : nat) (s : Z).
Context (img : gmap Z (list Z)) (wr : list (Z * list Z)) (sbk : superblock) (nop : Z).
Local Abbreviation fs σ m Q := (fsl p s img wr sbk nop [] σ m [] Q).
Implicit Types (σ : st).

Lemma fs_acquire σ ls l : l ∈ static_locks -> (∀ i, l ≠ LkProc i) -> l ∉ ls -> (length ls < 4)%nat ->
  fsl p s img wr sbk nop ls σ (acquire l) (l :: ls) (λ _ σ', σ' = σ).
Proof. intros. eapply fs_mono; [apply fs_same; intros v; by apply vq_acquire|]. by intros ? ? [_ ->]. Qed.
Lemma fs_release σ ls l : fsl p s img wr sbk nop (l :: ls) σ (release l) ls (λ _ σ', σ' = σ).
Proof. eapply fs_mono; [apply fs_same; intros v; apply vq_release|]. by intros ? ? [_ ->]. Qed.

Lemma fs_iget σ dev inum : (∃ i, (i < NINODE)%nat ∧ (cached (s_inodes σ) dev inum i ∨ i_ref (s_inodes σ !!! i) = 0)) ->
  fs σ (iget dev inum) (λ ip σ', ∃ T', igot dev inum (s_inodes σ) ip T' ∧ σ' = σ <| s_inodes := T' |>).
Proof.
  intros (i0 & Hi0 & Hroom). unfold iget.
  eapply fs_bind; [apply fs_acquire; [by apply static_lock|done|apply not_elem_of_nil|cbn; lia]|]. intros [] ? ->.
  eapply fs_bind; [apply fs_read_inodes|]. intros ? ? [-> ->].
  pose proof (iget_scan_spec (seq 0 NINODE) (s_inodes σ) dev inum None) as Hscan.
  destruct (iget_scan _ _ _ _ _) as [[ip|] e].
  - destruct Hscan as [Hip%elem_of_seq Hc].
    eapply fs_bind; [apply fs_write_inode|]. intros [] ? ->. eapply fs_bind; [apply fs_release|]. intros [] ? ->.
    apply fs_ret. eexists. split; [split; [lia|left; split; [done|reflexivity]]|done].
  - destruct Hscan as [Hnc He]. destruct e as [ip|].
    2: { destruct He as [_ He]. exfalso. destruct Hroom as [Hc|Hr].
         - apply (Hnc i0); [apply elem_of_seq; lia|done].
         - apply (He i0); [apply elem_of_seq; lia|done]. }
    destruct He as [|[Hip%elem_of_seq Hr]]; [done|].
    eapply fs_bind; [apply fs_write_inode|]. intros [] ? ->. eapply fs_bind; [apply fs_release|]. intros [] ? ->.
    apply fs_ret. eexists. split; [split; [lia|right; split_and!; [|done|reflexivity]]|done].
    intros i Hi. apply Hnc, elem_of_seq. lia.
Qed.

(** ** A directory *)
Context (Hlay : layout s sbk) (dp : nat) (n : Z) (A0 : Z -> list Z) (Hn : ino sbk n).
Context (σ : st) (Hg : good img sbk dp n A0 σ) (Hpins : (size (s_pins σ) <= 20)%nat).
Local Abbreviation dsz := (i_size (s_inodes σ !!! dp)).
Context (Hsz : 0 <= dsz <= MAXFILE * BSIZE) (Hw : whole img dp σ dsz) (H16 : dsz mod 16 = 0).
Local Abbreviation content := (bytes img dp σ 0 dsz).

Lemma length_content : length content = Z.to_nat dsz.
Proof. unfold bytes. by rewrite length_fmap, length_seqZ. Qed.
Lemma nents : Z.of_nat (length (dirents content)) * 16 = dsz.
Proof.
  rewrite length_dirents, length_content, Nat2Z.inj_div, Z2Nat.id by lia. change (Z.of_nat 16) with 16. zlia.
Qed.
Lemma read_entry i : (i < length (dirents content))%nat ->
  fs σ (readi dp LocalDst (16 * Z.of_nat i) DIRENT_SIZE) (λ x σ', ∃ de, dirents content !! i = Some de ∧ x = (16, de) ∧ σ' = σ).
Proof.
  intros Hi. pose proof nents as He. change (MAXFILE * BSIZE) with 274432 in Hsz.
  eapply fs_mono; [apply (readi_spec p s img wr sbk nop Hlay dp n A0 Hn σ (16 * Z.of_nat i) DIRENT_SIZE);
    unfold DIRENT_SIZE; change (MAXFILE * BSIZE) with 274432; try done; try lia|].
  cbv zeta. unfold DIRENT_SIZE. intros x σ' [-> ->]. replace (Z.max 0 _) with 16 by lia.
  exists (take 16 (drop (16 * i) content)). rewrite length_dirents in Hi. split; [by apply dirents_lookup|].
  split; [|done]. f_equal. apply list_eq. intros j. unfold bytes. destruct (decide (j < 16)%nat) as [Hj|Hj].
  - rewrite lookup_take_lt, lookup_drop, !list_lookup_fmap, !lookup_seqZ_lt by (rewrite length_dirents in He; lia).
    cbn. do 2 f_equal. lia.
  - rewrite lookup_take_ge by lia. apply lookup_ge_None. rewrite length_fmap, length_seqZ. lia.
Qed.

Lemma is_match_eq name de : negb (de_inum de =? 0) && (namecmp name (de_name de) =? 0) = bool_decide (is_match name de).
Proof.
  unfold is_match, live. destruct (Z.eqb_spec (de_inum de) 0); cbn.
  - symmetry. apply bool_decide_eq_false. naive_solver.
  - destruct (Z.eqb_spec (namecmp name (de_name de)) 0) as [E|E]; symmetry.
    + apply bool_decide_eq_true. split; [done|]. symmetry. by apply namecmp_key.
    + apply bool_decide_eq_false. intros [_ Ek]. apply E, namecmp_key. done.
Qed.

Lemma drop_entry i de : dirents content !! i = Some de -> drop i (dirents content) = de :: drop (S i) (dirents content).
Proof. apply drop_S. Qed.

(** There is an entry of the inode table for [inum]. *)
Definition inode_room (T : list inode) (inum : Z) : Prop :=
  ∃ i, (i < NINODE)%nat ∧ (cached T ROOTDEV inum i ∨ i_ref (T !!! i) = 0).

Definition found name (i : nat) (r : option (nat * Z)) σ' : Prop :=
  match list_find (is_match name) (drop i (dirents content)) with
  | None => r = None ∧ σ' = σ
  | Some (j, de) => ∃ ip T', r = Some (ip, 16 * Z.of_nat (i + j)) ∧ igot ROOTDEV (de_inum de) (s_inodes σ) ip T' ∧
      σ' = σ <| s_inodes := T' |>
  end.

Lemma dirlookup_loop_spec name fuel i :
  (∀ de, de ∈ dirents content -> is_match name de -> inode_room (s_inodes σ) (de_inum de)) -> (i <= length (dirents content))%nat ->
  (length (dirents content) - i < fuel)%nat -> fs σ (dirlookup_loop fuel dp name (16 * Z.of_nat i)) (found name i).
Proof.
  intros Hroom. revert i. induction fuel as [|fuel IH]; intros i Hi Hf; [lia|]. pose proof nents as He. cbn [dirlookup_loop].
  eapply fs_bind; [apply fs_read_inode|]. intros z ? [Ez ->]. assert (z = dsz) as -> by exact Ez.
  destruct (Z.ltb_spec (16 * Z.of_nat i) dsz) as [Hlt|Hge].
  2: { apply fs_ret. unfold found. by rewrite drop_ge by lia. }
  eapply fs_bind; [apply (read_entry i); lia|]. intros ? ? (de & Ede & -> & ->). cbv beta iota.
  change (negb (16 =? DIRENT_SIZE)) with false. cbv iota. rewrite is_match_eq. unfold found.
  rewrite (drop_entry i de Ede). cbn [list_find]. case_bool_decide as Hm.
  - rewrite decide_True by done. eapply fs_bind; [apply fs_read_inode|]. intros dev ? [Ed ->].
    assert (dev = ROOTDEV) as -> by (rewrite Ed; apply Hg).
    eapply fs_bind; [apply fs_iget, Hroom; [by eapply list_elem_of_lookup_2|done]|]. intros ip ? (T' & HT & ->). apply fs_ret. exists ip, T'.
    by rewrite Nat.add_0_r.
  - rewrite decide_False by done. replace (16 * Z.of_nat i + DIRENT_SIZE) with (16 * Z.of_nat (S i)) by (unfold DIRENT_SIZE; lia).
    eapply fs_mono; [apply IH; lia|]. unfold found. intros r σ'.
    destruct (list_find (is_match name) (drop (S i) (dirents content))) as [[j de']|]; [|done].
    cbn. intros (ip & T' & -> & HT & ->). exists ip, T'. split_and!; [do 2 f_equal; lia|done..].
Qed.

Context (Hdir : i_type (s_inodes σ !!! dp) = T_DIR).
Lemma dirlookup_spec name :
  (∀ de, de ∈ dirents content -> is_match name de -> inode_room (s_inodes σ) (de_inum de)) ->
  fs σ (dirlookup dp name) (found name 0).
Proof.
  intros Hroom. unfold dirlookup. eapply fs_bind; [apply fs_read_inode|]. intros t ? [Et ->].
  assert (t = T_DIR) as -> by (rewrite Et; exact Hdir). change (negb (T_DIR =? T_DIR)) with false. cbv iota.
  eapply fs_bind; [apply fs_read_inode|]. intros z ? [Ez ->]. assert (z = dsz) as -> by exact Ez.
  apply (dirlookup_loop_spec name _ 0); [done|lia|]. pose proof nents. unfold DIRENT_SIZE. zlia.
Qed.

Lemma dirlink_loop_spec fuel i : (i <= length (dirents content))%nat -> (length (dirents content) - i < fuel)%nat ->
  fs σ (dirlink_loop fuel dp (16 * Z.of_nat i))
    (λ x σ', x = 16 * Z.of_nat (i + first_free (drop i (dirents content))) ∧ σ' = σ).
Proof.
  revert i. induction fuel as [|fuel IH]; intros i Hi Hf; [lia|]. pose proof nents as He. cbn [dirlink_loop].
  eapply fs_bind; [apply fs_read_inode|]. intros z ? [Ez ->]. assert (z = dsz) as -> by exact Ez.
  destruct (Z.ltb_spec (16 * Z.of_nat i) dsz) as [Hlt|Hge].
  2: { apply fs_ret. rewrite drop_ge by lia. unfold first_free. cbn. split; [lia|done]. }
  eapply fs_bind; [apply (read_entry i); lia|]. intros ? ? (de & Ede & -> & ->). cbv beta iota.
  change (negb (16 =? DIRENT_SIZE)) with false. cbv iota. unfold first_free.
  rewrite (drop_entry i de Ede). cbn [list_find]. destruct (Z.eqb_spec (de_inum de) 0) as [E|E].
  - rewrite decide_True by (unfold live; tauto). apply fs_ret. by rewrite Nat.add_0_r.
  - rewrite decide_False by (unfold live; tauto).
    replace (16 * Z.of_nat i + DIRENT_SIZE) with (16 * Z.of_nat (S i)) by (unfold DIRENT_SIZE; lia).
    eapply fs_mono; [apply IH; lia|]. intros x σ' [-> ->]. split; [|done]. unfold first_free.
    destruct (list_find _ (drop (S i) (dirents content))) as [[j de']|]; cbn; lia.
Qed.

Lemma source_local bs U : source p s img wr sbk nop (LocalSrc bs) bs U.
Proof. intros σ0 tot m _ Ht Hm Hl. apply fs_return. Qed.

Local Abbreviation free_off := (16 * Z.of_nat (first_free (dirents content))).
Lemma first_free_le : (first_free (dirents content) <= length (dirents content))%nat.
Proof. apply first_free_bound. Qed.
Lemma slots_free : (length (slots free_off 16) <= 4)%nat.
Proof. apply length_slots; unfold BSIZE; lia. Qed.

Lemma dirlink_spec name inum : 1 <= nop -> (size (s_pins σ) <= 19)%nat -> emap (dirents content) !! key name = None ->
  i_inum (s_inodes σ !!! dp) = n -> dsz + 16 <= MAXFILE * BSIZE ->
  Z.of_nat (length (slots free_off 16)) <= room img sbk dp σ ->
  fs σ (dirlink dp name inum) (λ x σ', x = 0 ∧
    ∃ σ1, wrote img sbk dp n A0 (dirent_bytes name inum) (slots free_off 16) 0 free_off 16 σ σ1 ∧
      σ' = updated img sbk dp n (resized dp (free_off + 16) σ1)).
Proof.
  intros Hpos Hps Hnone Hi Hmax Hrm. pose proof nents as He. pose proof first_free_le as Hff.
  pose proof Hnone as Hno. rewrite emap_None, <- list_find_None in Hno.
  unfold dirlink. eapply fs_bind; [apply dirlookup_spec|].
  { intros de Hde Hm. apply emap_None in Hnone. rewrite Forall_forall in Hnone. by destruct (Hnone de Hde). }
  intros r σ'. unfold found. rewrite drop_0, Hno. intros [-> ->].
  eapply fs_bind; [apply fs_read_inode|]. intros z ? [Ez ->]. assert (z = dsz) as -> by exact Ez.
  eapply fs_bind; [apply (dirlink_loop_spec _ 0); [lia|unfold DIRENT_SIZE; zlia]|]. rewrite drop_0, Nat.add_0_l.
  intros ? ? [-> ->]. change DIRENT_SIZE with (Z.of_nat 16). rewrite <- (length_dirent name inum).
  eapply fs_bind; [apply (writei_spec p s img wr sbk nop Hlay dp n A0 Hn Hpos _ (dirent_bytes name inum));
    rewrite ?length_dirent; change (Z.of_nat 16) with 16; try done; try lia|].
  - apply source_local.
  - pose proof slots_free. lia.
  - rewrite length_dirent. change (Z.of_nat 16) with 16. intros ? σ' (-> & σ1 & Hw1 & ->).
    change (negb (16 =? 16)) with false. cbv iota. apply fs_ret. split; [done|]. by exists σ1.
Qed.
End dir.

Lemma de_inum_bytes name inum : 0 <= inum < 2 ^ 16 -> de_inum (dirent_bytes name inum) = inum.
Proof.
  intros Hi. unfold de_inum, dirent_bytes, get_le. rewrite drop_0.
  rewrite <- (length_le_bytes 2 (u16 inum)) at 1. rewrite take_app_length, le_val_bytes by (unfold u16; cbn; zlia).
  unfold u16. by rewrite Z.mod_small.
Qed.
Lemma de_name_bytes name inum : de_name (dirent_bytes name inum) = key name.
Proof. unfold de_name, dirent_bytes, key. by rewrite drop_app_length' by (rewrite length_le_bytes; done). Qed.

Lemma first_free_free (es : list (list Z)) e : es !! first_free es = Some e -> ¬ live e.
Proof.
  unfold first_free. destruct (list_find _ es) as [[j de]|] eqn:E.
  - apply list_find_Some in E as (E & Hl & _). intros. by simplify_eq.
  - intros ?%lookup_lt_Some. lia.
Qed.

(** The content of the directory after the new entry is written. *)
Lemma dmap_linked name inum l : (length l mod 16 = 0)%nat -> dmap l !! key name = None -> 0 < inum < 2 ^ 16 ->
  dmap (splice (16 * first_free (dirents l)) (dirent_bytes name inum) l) = <[key name := inum]> (dmap l).
Proof.
  intros Hl Hn Hi. pose proof (first_free_bound (dirents l)) as Hff. rewrite length_dirents in Hff.
  unfold dmap in *. rewrite dirents_splice by (done || apply length_dirent).
  apply emap_insert; try done; [lia|apply de_inum_bytes; lia|by rewrite de_name_bytes, key_key|apply first_free_free].
Qed.

Section directory.
Context {L : Linker} {W : World} {DW : DiskWorld W} (p : nat) (s : Z) (k : kernel).
Local Abbreviation disk k := (λ b, image k !!! b).
Context (Hlay : layout s (sb k)) (Hk : at_rest p s k) (Hf : fsys (sb k) (disk k)).
Context (dp : nat) (n : Z) (Hn : ino (sb k) n) (Hsy : in_sync (sb k) (disk k) n dp (itable k)).
Context (Hdir : i_type (itable k !!! dp) = T_DIR) (H16 : dsize (sb k) (disk k) n mod 16 = 0).
Local Abbreviation σ0 := (start p k).

Lemma content_start : bytes (image k) dp σ0 0 (i_size (itable k !!! dp)) = dbytes (sb k) (disk k) n.
Proof.
  pose proof (fy_size _ _ Hf n Hn) as Hsz. pose proof Hsy as [S1 S2 S3 S4 S5].
  rewrite S5, (bytes_start p k dp n 0 _ Hsy) by lia. rewrite drop_0, take_ge; [done|]. rewrite length_dbytes; lia.
Qed.


(** C4. Adding a name to a directory is an atomic update of a map.  For a name
    the directory does not have, [dirlink] between [begin_op] and [end_op]
    returns 0 and the directory on the disk maps the name, cut to [DIRSIZ]
    bytes, to the inode and every other name as before, whether a free entry
    was reused or the directory grew; the other files are unchanged.  After a
    crash at any point recovery leaves a well-formed file system with the
    directory as before or with the name added. *)
Theorem dirlink_atomic name inum :
  dmap (dbytes (sb k) (disk k) n) !! key name = None -> 0 < inum < 2 ^ 16 ->
  dsize (sb k) (disk k) n + 16 <= MAXFILE * BSIZE -> (5 <= nfree (sb k) (disk k))%nat ->
  let linked := <[key name := inum]> (dmap (dbytes (sb k) (disk k) n)) in
  ∃ k' T, in_op (dirlink dp name inum) k = Ret 0 k' ∧ at_rest p s k' ∧ sb k' = sb k ∧
    writes k' = writes k ++ T ∧ Z.of_nat (length T) <= 2 * MAXOPBLOCKS + 2 ∧
    fsys (sb k) (disk k') ∧ in_sync (sb k) (disk k') n dp (itable k') ∧
    dmap (dbytes (sb k) (disk k') n) = linked ∧
    (∀ m, ino (sb k) m -> m ≠ n -> dbytes (sb k) (disk k') m = dbytes (sb k) (disk k) m) ∧
    ∀ i first second kb sblk,
      booted p (crash_image T i first second (image k)) kb -> i32 (sb_logstart sblk) = s ->
      ∃ kr, initlog ROOTDEV sblk kb = Ret () kr ∧ at_rest p s kr ∧ fsys (sb k) (disk kr) ∧
        (∀ m, ino (sb k) m -> m ≠ n -> dbytes (sb k) (disk kr) m = dbytes (sb k) (disk k) m) ∧
        (dmap (dbytes (sb k) (disk kr) n) = dmap (dbytes (sb k) (disk k) n) ∨
         dmap (dbytes (sb k) (disk kr) n) = linked).
Proof.
  intros Hno Hi Hmax Hfree linked. pose proof (fy_size _ _ Hf n Hn) as Hsz. pose proof Hsy as [S1 S2 S3 S4 S5].
  pose proof content_start as Ec. set (l := dbytes (sb k) (disk k) n) in *.
  assert (length l = Z.to_nat (dsize (sb k) (disk k) n)) as El by (unfold l; rewrite length_dbytes; lia).
  pose proof (first_free_bound (dirents l)) as Hff. rewrite length_dirents in Hff.
  assert (length l mod 16 = 0)%nat as Hl16 by (apply Nat2Z.inj; rewrite Nat2Z.inj_mod, El, Z2Nat.id by lia; exact H16).
  pose proof (dirlink_spec p s (image k) (writes k) (sb k) 1 Hlay dp n (daddrs (sb k) (disk k)) Hn σ0
    (good_start p k Hf dp n Hn Hsy)) as Hsp.
  change (s_inodes σ0) with (itable k) in Hsp. change (s_pins σ0) with (∅ : gmap Z (list Z)) in Hsp.
  rewrite Ec, S5, map_size_empty in Hsp.
  set (off := 16 * Z.of_nat (first_free (dirents l))) in *.
  assert (off <= dsize (sb k) (disk k) n) as Hoff by (pose proof (Nat.Div0.mul_div_le (length l) 16); unfold off; lia).
  specialize (Hsp ltac:(lia) Hsz (whole_start p k Hf dp n Hn Hsy) H16 Hdir name inum ltac:(lia) ltac:(lia) Hno S3 Hmax
    (room_start p k dp off 16 (length_slots off 16 ltac:(lia) ltac:(unfold BSIZE; lia)) Hfree)).
  pose proof (write_atomic_plain p s k Hlay Hk Hf (dirlink dp name inum) 0 dp n (dirent_bytes name inum) off Hn Hsy) as Hat.
  cbv zeta in Hat. rewrite length_dirent in Hat. change (Z.of_nat 16) with 16 in Hat.
  destruct (Hat ltac:(lia) ltac:(lia) ltac:(unfold BSIZE; lia) Hsp)
    as (k' & T & E1 & _ & [E2 E3 E4 _ E5 E6 E7 E8 E9 _ _ E10]).
  assert (dmap (dbytes (sb k) (disk k') n) = linked) as Hd.
  { rewrite E8. replace (Z.to_nat off) with (16 * first_free (dirents l))%nat by (unfold off; lia). by apply dmap_linked. }
  exists k', T. split_and!; try done. intros i f1 f2 kb sblk Hb Es.
  destruct (E10 i f1 f2 kb sblk Hb Es) as (kr & R1 & R2 & R3 & R4). exists kr. split_and!; try done.
  - intros m Hm Hne. destruct R4 as [R|R]; rewrite R by done; [done|by apply E9].
  - destruct R4 as [R|R]; rewrite R by done; [by left|by right].
Qed.

(** C9. Looking a name up is looking it up in the map.  With a free entry in the
    inode table, [dirlookup] answers exactly as the map of the directory on the
    disk: nothing when the name, cut to [DIRSIZ] bytes, has no entry, and
    otherwise a counted reference to the inode the map gives, with the offset of
    an entry that has this name and this inode; the disk is unchanged. *)
Theorem dirlookup_map name :
  (∃ i, (i < NINODE)%nat ∧ i_ref (itable k !!! i) = 0) ->
  let l := dbytes (sb k) (disk k) n in
  ∃ r k', dirlookup dp name k = Ret r k' ∧ at_rest p s k' ∧ image k' = image k ∧
    match dmap l !! key name with
    | None => r = None ∧ itable k' = itable k
    | Some inum => ∃ ip j de, r = Some (ip, 16 * Z.of_nat j) ∧ igot ROOTDEV inum (itable k) ip (itable k') ∧
        dirents l !! j = Some de ∧ de_inum de = inum ∧ key (de_name de) = key name
    end.
Proof.
  intros (i & Hi & Href) l. pose proof (fy_size _ _ Hf n Hn) as Hsz. pose proof Hsy as [S1 S2 S3 S4 S5].
  pose proof content_start as Ec. fold l in Ec.
  pose proof (dirlookup_spec p s (image k) (writes k) (sb k) 0 Hlay dp n (daddrs (sb k) (disk k)) Hn σ0
    (good_start p k Hf dp n Hn Hsy)) as Hsp.
  change (s_inodes σ0) with (itable k) in Hsp. change (s_pins σ0) with (∅ : gmap Z (list Z)) in Hsp.
  rewrite Ec, S5, map_size_empty in Hsp.
  specialize (Hsp ltac:(lia) Hsz (whole_start p k Hf dp n Hn Hsy) H16 Hdir name).
  destruct (read_run p s _ _ k (log_range s k Hlay) Hk (Hsp ltac:(intros; exists i; auto)))
    as (r & σ' & k' & E & HQ & Hr & Ei & Et & Esb).
  { intros a σ. unfold found. case_match; [|by intros [_ ->]]. case_match. by intros (? & ? & _ & _ & ->). }
  exists r, k'. split_and!; [done..|]. unfold dmap. rewrite emap_find. unfold found in HQ.
  change (s_inodes σ0) with (itable k) in HQ. rewrite Ec, drop_0 in HQ.
  destruct (list_find (is_match name) (dirents l)) as [[j de]|] eqn:El; cbn [fmap option_fmap option_map].
  - destruct HQ as (ip & T' & -> & Hg & ->). apply list_find_Some in El as (El & [_ Hk2] & _).
    exists ip, j, de. rewrite Et. done.
  - destruct HQ as [-> ->]. by rewrite Et.
Qed.
End directory.
