(* ===== verification/FsWrite.v ===== *)
(** * Writing a file from user memory

    [filewrite] moves bytes of a process into a file, in pieces that are each a
    transaction.  The file on the disk afterwards has the bytes of the process,
    and after a crash a whole number of the pieces. *)
From S2P Require Import Prelude Layout KState Spinlock CString Vm PageTable VmSpec VmCopy Proc Uart Sleeplock Virtio Bio.
From S2P Require Import Log Fs File SchedEq Demo FsView Disk Bcache LogSpec Txn FsTx FsSpec FsFile FsDisk.

(** ** Locked inodes and open files *)
Section locks.
Context {L : Linker} {W : World} {DW : DiskWorld W} (p : nat) (s : Z).
Context (img : gmap Z (list Z)) (wr : list (Z * list Z)) (sbk : superblock) (nop : Z).
Local Abbreviation fs σ m Q := (fsl p s img wr sbk nop [] σ m [] Q).
Implicit Types (σ : st).

(** A change of the sleep lock of an inode. *)
Lemma bcache_ilk c v i x (I : gset nat) : bcache_ok c v ->
  (∀ j, j ≠ i -> j ∈ I <-> j ∈ ilk c) -> (if decide (i ∈ I) then x = mk_sleeplock 1 (v_pid v) else sl_locked x = 0) ->
  bcache_ok (c <| ilk := I |>) (v <| v_sl ::= <[SlInode i := x]> |>).
Proof.
  intros [H1 H2 Hb H4 H5 H6 H7 H8] Hj Hx. split; try done.
  - intros b Hlt. destruct (Hb b Hlt) as [B1 B2 B3 B4 B5 B6]. split; try done.
    + intros bno d. vcbn. rewrite lookup_total_insert_ne by done. apply B4.
    + vcbn. rewrite lookup_total_insert_ne by done. exact B5.
  - intros j. vcbn. cbn [ilk]. destruct (decide (j = i)) as [->|Hne]; [by rewrite lookup_total_insert_eq|].
    rewrite lookup_total_insert_ne by congruence. specialize (H8 j). specialize (Hj j Hne).
    destruct (decide (j ∈ ilk c)); [rewrite decide_True|rewrite decide_False]; tauto.
Qed.

Lemma fs_ilk {A} σ (m : M A) i x I a :
  (∀ v, sl_locked (v_sl v !!! SlInode i) = 0 ∨ i ∈ s_ilk σ -> (i ∈ s_ilk σ -> v_sl v !!! SlInode i = mk_sleeplock 1 (v_pid v)) ->
     vq p [] m v a [] (v <| v_sl ::= <[SlInode i := x (v_pid v)]> |>)) ->
  (∀ j, j ≠ i -> j ∈ I <-> j ∈ s_ilk σ) ->
  (∀ pid, if decide (i ∈ I) then x pid = mk_sleeplock 1 pid else sl_locked (x pid) = 0) ->
  fs σ m (λ y σ', y = a ∧ σ' = σ <| s_ilk := I |>).
Proof.
  intros Hm Hj Hx α Hα v Hv. pose proof Hα as (bl & [T1 T2 T3 T4 T5 T6] & Hc & Hi & Hw & Ho).
  pose proof Hv as [R1 R2 R3 R4 R5]. pose proof (bc_ilk _ _ R1 i) as Hli. rewrite Hc in Hli. cbn in Hli.
  exists a. eexists. exists (α <| a_cache ::= λ c, c <| ilk := I |> |>). split; [apply Hm|].
  - destruct (decide (i ∈ s_ilk σ)); [by right|by left].
  - intros Hin. by rewrite decide_True in Hli.
  - split; [split; try done|].
    + apply bcache_ilk; [done| |by apply Hx]. rewrite Hc. exact Hj.
    + exists (σ <| s_ilk := I |>). split; [|done]. exists bl. split_and!; [by split|cbn; by rewrite Hc|done..].
Qed.

Lemma fs_acquiresleep σ i : (i < NINODE)%nat -> i ∉ s_ilk σ ->
  fs σ (acquiresleep (SlInode i)) (λ _ σ', σ' = σ <| s_ilk := {[i]} ∪ s_ilk σ |>).
Proof.
  intros Hi Hn. eapply fs_mono; [apply (fs_ilk σ _ i (λ pid, mk_sleeplock 1 pid) ({[i]} ∪ s_ilk σ) ())|by intros ? ? [_ ->]].
  - intros v [Hl|Hl] _; [|done]. by apply vq_acquiresleep.
  - set_solver.
  - intros pid. rewrite decide_True by set_solver. done.
Qed.
Lemma fs_releasesleep σ i : (i < NINODE)%nat ->
  fs σ (releasesleep (SlInode i)) (λ _ σ', σ' = σ <| s_ilk := s_ilk σ ∖ {[i]} |>).
Proof.
  intros Hi. eapply fs_mono; [apply (fs_ilk σ _ i (λ _, mk_sleeplock 0 0) (s_ilk σ ∖ {[i]}) ())|by intros ? ? [_ ->]].
  - intros v _ _. by apply vq_releasesleep.
  - set_solver.
  - intros pid. rewrite decide_False by set_solver. done.
Qed.
Lemma fs_holdingsleep σ i : (i < NINODE)%nat -> i ∈ s_ilk σ ->
  fs σ (holdingsleep (SlInode i)) (λ x σ', x = true ∧ σ' = σ).
Proof.
  intros Hi Hin α Hα v Hv. pose proof Hα as (bl & _ & Hc & _). pose proof (bc_ilk _ _ (rel_cache _ _ Hv) i) as Hli.
  rewrite Hc in Hli. cbn in Hli. rewrite decide_True in Hli by done.
  exists true, v, α. split; [by apply vq_holdingsleep|]. split; [done|]. by exists σ.
Qed.

Lemma fs_read_file {A} σ f (g : file -> A) :
  fs σ (read_file f g) (λ x σ', x = g (uv_files (s_user σ) !!! f) ∧ σ' = σ).
Proof.
  intros α Hα v Hv. pose proof Hα as (bl & _ & _ & _ & _ & Ho). pose proof (rel_other _ _ Hv) as E.
  rewrite Ho in E. injection E as _ _ E. exists (g (uv_files (s_user σ) !!! f)), v, α.
  split; [|split; [done|by exists σ]]. rewrite <- E. exact (vq_gets p [] _ (λ v, g (uv_files (v_user v) !!! f)) v (λ k, eq_refl)).
Qed.
Lemma fs_write_file σ f g :
  fs σ (write_file f g) (λ _ σ', σ' = σ <| s_user ::= λ u, u <| uv_files ::= upd f g |> |>).
Proof.
  intros α Hα v Hv. pose proof Hα as (bl & _ & Hc & _ & _ & Ho). pose proof Hv as [R1 R2 R3 R4 R5].
  rewrite Ho in R5. injection R5 as Es Ei Eu.
  exists (), (v <| v_user ::= λ u, u <| uv_files ::= upd f g |> |>),
    (mk_astate (a_cache α) (a_log α) (a_image α) (a_writes α) (sbk, s_inodes σ, (s_user σ) <| uv_files ::= upd f g |>)).
  split; [by apply (vq_modify p [] _ (λ v, v <| v_user ::= λ u, u <| uv_files ::= upd f g |> |>))|]. split.
  - split; try done; [by apply (bcache_frame _ v)|]. cbn. by rewrite Es, Ei, Eu.
  - eexists. split; [|done]. by eapply stx_frame.
Qed.

(** [ilock] of an inode that has been read from the disk. *)
Lemma fs_ilock σ i : (i < NINODE)%nat -> i ∉ s_ilk σ -> 1 <= i_ref (s_inodes σ !!! i) -> i_valid (s_inodes σ !!! i) = 1 ->
  fs σ (ilock (Some i)) (λ _ σ', σ' = σ <| s_ilk := {[i]} ∪ s_ilk σ |>).
Proof.
  intros Hi Hn Hr Hv. unfold ilock. eapply fs_bind; [apply fs_read_inode|]. intros ref ? [Eref ->].
  assert (ref = i_ref (s_inodes σ !!! i)) as -> by exact Eref. rewrite (proj2 (Z.ltb_ge _ 1)) by done.
  eapply fs_bind; [by apply fs_acquiresleep|]. intros [] ? ->.
  eapply fs_bind; [apply fs_read_inode|]. intros x ? [Ex ->].
  assert (x = 1) as -> by (rewrite Ex; exact Hv). cbn [Z.eqb when]. by apply fs_ret.
Qed.
Lemma fs_iunlock σ i : (i < NINODE)%nat -> i ∈ s_ilk σ -> 1 <= i_ref (s_inodes σ !!! i) ->
  fs σ (iunlock (Some i)) (λ _ σ', σ' = σ <| s_ilk := s_ilk σ ∖ {[i]} |>).
Proof.
  intros Hi Hin Hr. unfold iunlock. eapply fs_bind; [by apply fs_holdingsleep|]. intros ? ? [-> ->]. cbn [negb].
  eapply fs_bind; [apply fs_read_inode|]. intros ref ? [Eref ->].
  assert (ref = i_ref (s_inodes σ !!! i)) as -> by exact Eref. rewrite (proj2 (Z.ltb_ge _ 1)) by done.
  by apply fs_releasesleep.
Qed.

(** The memory of the process as a source. *)
Lemma ubytes_sub r a n tot m mm : (m + tot <= n)%nat ->
  take m (drop tot (ubytes r n mm a)) = ubytes r m mm (a + Z.of_nat tot).
Proof.
  intros H. replace n with (tot + (m + (n - tot - m)))%nat by lia. rewrite ubytes_app, drop_app_length' by (by rewrite length_ubytes).
  by rewrite ubytes_app, take_app_length' by (by rewrite length_ubytes).
Qed.

Lemma vq_copyin v a n : 0 <= a -> 0 <= n -> a + n <= MAXVA -> let U := v_user v in
  (∀ va, touches a n va -> present (uv_pagetable U) (uv_mem U) va) ->
  vq p [] (either_copyin true a n) v (0, ubytes (uv_pagetable U) (Z.to_nat n) (uv_mem U) a) [] v.
Proof.
  intros Ha Hn Hmax U Hp. unfold either_copyin. eapply vq_bind; [apply vq_myproc|]. cbv beta iota.
  eapply vq_bind; [exact (vq_gets p [] _ (λ v, uv_pagetable (v_user v)) v (λ k, eq_refl))|]. cbv beta.
  intros k Hk Hv. exists k. split; [|done]. unfold copyin. fold U.
  assert (mem k = uv_mem U) as Em by (unfold U; by rewrite <- Hv). rewrite <- Em in Hp |- *.
  by rewrite copyin_loop_present by (done || lia).
Qed.

Lemma source_user U a n : 0 <= a -> 0 <= n -> a + n <= MAXVA ->
  (∀ va, touches a n va -> present (uv_pagetable U) (uv_mem U) va) ->
  source p s img wr sbk nop (UserSrc a) (ubytes (uv_pagetable U) (Z.to_nat n) (uv_mem U) a) U.
Proof.
  intros Ha Hn Hmax Hp σ tot m HU Ht Hm Hl. rewrite length_ubytes in Hl. cbn [copy_from].
  rewrite ubytes_sub by lia. rewrite Z2Nat.id by lia.
  rewrite u64_small by (change MAXVA with (2 ^ 38) in *; lia).
  intros α Hα v Hv. pose proof Hα as (bl & _ & _ & _ & _ & Ho). pose proof (rel_other _ _ Hv) as E.
  rewrite Ho in E. injection E as _ _ E. rewrite HU in E. eexists _, v, α.
  split; [|split; [done|exists σ; split; [done|split; [reflexivity|done]]]]. rewrite <- E. apply vq_copyin; [lia..|].
  rewrite E. intros va (H1 & H2 & H3 & H4). apply Hp. unfold touches. lia.
Qed.
End locks.

(** ** One piece *)

(** What [filewrite] does between [begin_op] and [end_op]. *)
Definition write_piece {L : Linker} {W : World} (f : nat) (addr i n1 : Z) : M Z :=
  ip ← read_file f f_ip;
  ilock ip ;;
  match ip with
  | None => panic "kerneltrap"
  | Some ino =>
      off ← read_file f f_off;
      r ← writei ino (UserSrc (u64 (addr + i))) off n1;
      when (0 <? r) (write_file f (λ g, g <| f_off := u32 (f_off g + r) |>)) ;;
      iunlock ip ;;
      mret r
  end.
Definition piece (m : Z) : Z := if write_max <? m then write_max else m.

Lemma filewrite_loop_piece {L : Linker} {W : World} fuel f addr i n k : i < n ->
  filewrite_loop (S fuel) f addr i n k =
  (r ← in_op (write_piece f addr i (piece (n - i)));
   if negb (r =? piece (n - i)) then mret i else filewrite_loop fuel f addr (i + r) n) k.
Proof.
  intros Hi. cbn [filewrite_loop]. rewrite (proj2 (Z.ltb_lt i n)) by done. fold (piece (n - i)).
  unfold in_op. rewrite bind_bind. apply bind_ext. intros [] k1 _. unfold write_piece.
  rewrite !bind_bind. apply bind_ext. intros [ip|] k2 _.
  2:{ rewrite !bind_bind. apply bind_ext. intros [] k3 _. done. }
  rewrite !bind_bind. apply bind_ext. intros [] k3 _.
  rewrite !bind_bind. apply bind_ext. intros off k4 _.
  rewrite !bind_bind. apply bind_ext. intros r k5 _.
  rewrite !bind_bind. apply bind_ext. intros [] k6 _.
  rewrite !bind_bind. apply bind_ext. intros [] k7 _.
  rewrite bind_ret. rewrite !bind_bind. apply bind_ext. intros [] k8 _. done.
Qed.

(** [f] is a file open for writing on the inode [n], which is entry [ip] of the
    inode table, at offset [off]. *)
Record open_file (k : kernel) (f ip : nat) (n off : Z) : Prop := {
  of_f : (f < length (ftable k))%nat;
  of_type : f_type (ftable k !!! f) = FD_INODE;
  of_writable : f_writable (ftable k !!! f) ≠ 0;
  of_ip : f_ip (ftable k !!! f) = Some ip;
  of_off : f_off (ftable k !!! f) = off;
  of_slot : (ip < NINODE)%nat;
  of_ref : 1 <= i_ref (itable k !!! ip);
  of_valid : i_valid (itable k !!! ip) = 1;
}.

Section piece.
Context {L : Linker} {W : World} {DW : DiskWorld W} (p : nat) (s : Z) (k : kernel).
Local Abbreviation disk k := (λ b, image k !!! b).
Context (Hlay : layout s (sb k)) (Hk : at_rest p s k) (Hf : fsys (sb k) (disk k)).
Context (f ip : nat) (n off : Z) (Hn : ino (sb k) n) (Hsy : in_sync (sb k) (disk k) n ip (itable k)).
Context (Ho : open_file k f ip n off).
Local Abbreviation pt := (p_pagetable (procs k !!! p)).

(** The call of [writei], with the inode locked. *)
Lemma piece_writei addr i m : 0 < m <= 3 * BSIZE -> 0 <= addr + i -> addr + i + m <= MAXVA ->
  (∀ va, touches (addr + i) m va -> present pt (mem k) va) ->
  0 <= off <= dsize (sb k) (disk k) n -> off + m <= MAXFILE * BSIZE -> (5 <= nfree (sb k) (disk k))%nat ->
  let bs := ubytes pt (Z.to_nat m) (mem k) (addr + i) in
  let σ := (start p k) <| s_ilk := {[ip]} ∪ ∅ |> in
  fsl p s (image k) (writes k) (sb k) 1 [] σ (writei ip (UserSrc (addr + i)) off m) [] (λ x σ', x = m ∧
    ∃ σ1, wrote (image k) (sb k) ip n (daddrs (sb k) (disk k)) bs (slots off m) 0 off m σ σ1 ∧
      σ' = updated (image k) (sb k) ip n (resized ip (off + m) σ1)).
Proof.
  intros Hm Ha Hmax Hp Hoff Hend Hfree bs σ. pose proof Hsy as [S1 S2 S3 S4 S5].
  assert (Z.of_nat (length bs) = m) as Hbs by (unfold bs; rewrite length_ubytes; lia).
  pose proof (length_slots off m (proj1 Hoff) (proj2 Hm)) as Hsl.
  pose proof (writei_spec p s (image k) (writes k) (sb k) 1 Hlay ip n (daddrs (sb k) (disk k)) Hn ltac:(lia)
    (UserSrc (addr + i)) bs off σ) as Hwr. cbv zeta in Hwr. rewrite Hbs in Hwr. apply Hwr; try done.
  - destruct (good_start p k Hf ip n Hn Hsy). by split.
  - apply source_user; try done; lia.
  - change (i_size (s_inodes σ !!! ip)) with (i_size (itable k !!! ip)). by rewrite S5.
  - change (s_pins σ) with (∅ : gmap Z (list Z)). rewrite map_size_empty. lia.
  - by apply room_start.
Qed.

Lemma piece_atomic addr i m : 0 < m <= 3 * BSIZE -> 0 <= addr + i -> addr + i + m <= MAXVA ->
  (∀ va, touches (addr + i) m va -> present pt (mem k) va) ->
  0 <= off <= dsize (sb k) (disk k) n -> off + m <= MAXFILE * BSIZE -> (5 <= nfree (sb k) (disk k))%nat ->
  ∃ k' T, in_op (write_piece f addr i m) k = Ret m k' ∧
    user_of p k' = (user_of p k) <| uv_files ::= upd f (λ g, g <| f_off := u32 (f_off g + m) |>) |> ∧
    file_written p s k ip n (ubytes pt (Z.to_nat m) (mem k) (addr + i)) off k' T.
Proof.
  intros Hm Ha Hmax Hp Hoff Hend Hfree. destruct Ho as [O1 O2 O3 O4 O5 O6 O7 O8]. pose proof Hsy as [S1 S2 S3 S4 S5].
  set (bs := ubytes pt (Z.to_nat m) (mem k) (addr + i)). set (U := (user_of p k) <| uv_files ::= _ |>).
  assert (Z.of_nat (length bs) = m) as Hbs by (unfold bs; rewrite length_ubytes; lia).
  pose proof (write_atomic p s k Hlay Hk Hf (write_piece f addr i m) m ip n bs off ({[ip]} ∪ ∅) U) as Hat.
  cbv zeta in Hat. rewrite Hbs in Hat. apply Hat; try (done || lia). clear Hat.
  unfold write_piece. eapply fs_bind; [apply fs_read_file|]. intros x ? [Ex ->].
  assert (x = Some ip) as -> by (rewrite Ex; exact O4).
  eapply fs_bind; [apply fs_ilock; [done|apply not_elem_of_empty|done|done]|]. intros [] ? ->. cbv iota.
  eapply fs_bind; [apply fs_read_file|]. intros x ? [Ex' ->]. assert (x = off) as -> by (rewrite Ex'; exact O5).
  rewrite (u64_small (addr + i)) by (change MAXVA with (2 ^ 38) in *; lia).
  eapply fs_bind; [by apply piece_writei|]. intros ? ? (-> & σ1 & Hw & ->).
  pose proof (wo_step _ _ _ _ _ _ _ _ _ _ _ _ Hw) as Hst. pose proof Hst as [_ Hin _ _ [Hlk Hus]].
  rewrite (proj2 (Z.ltb_lt 0 m)) by lia. cbn [when]. eapply fs_bind; [apply fs_write_file|]. intros [] ? ->.
  eapply fs_bind; [apply fs_iunlock; [done| |]|].
  - change (ip ∈ s_ilk σ1). rewrite Hlk. change (ip ∈ ({[ip]} ∪ ∅ : gset nat)). set_solver.
  - change (1 <= i_ref (upd ip (λ r, if i_size r <? off + m then r <| i_size := off + m |> else r) (s_inodes σ1) !!! ip)).
    rewrite Hin, upd_eq by (rewrite length_upd; exact S1). rewrite upd_eq by exact S1. by destruct (_ <? _).
  - intros [] ? ->. apply fs_ret. split; [done|]. exists σ1. split; [done|].
    change (s_ilk _ ∖ {[ip]}) with (s_ilk σ1 ∖ {[ip]}). rewrite Hlk.
    assert (s_ilk ((start p k) <| s_ilk := {[ip]} ∪ ∅ |>) ∖ {[ip]} = ∅) as -> by (change (({[ip]} ∪ ∅) ∖ {[ip]} = (∅ : gset nat)); set_solver).
    change (s_user ((start p k) <| s_ilk := {[ip]} ∪ ∅ |>)) with (user_of p k) in Hus. unfold U. rewrite <- Hus. done.
Qed.
End piece.

(** ** A sequence of pieces *)
Lemma splice_splice off bs bs' l : (off <= length l)%nat ->
  splice (off + length bs) bs' (splice off bs l) = splice off (bs ++ bs') l.
Proof.
  intros H. assert (length (take off l) = off) as Hl by (rewrite length_take; lia).
  unfold splice at 1. unfold splice at 1 2. rewrite (app_assoc (take off l) bs).
  rewrite take_app_length' by (rewrite length_app; lia).
  rewrite <- Nat.add_assoc. unfold splice. rewrite <- !app_assoc. do 3 f_equal.
  rewrite (app_assoc (take off l) bs), drop_app_ge by (rewrite length_app; lia).
  rewrite drop_drop, !length_app. f_equal. lia.
Qed.
Lemma splice_nil off l : splice off [] l = l.
Proof. unfold splice. cbn. by rewrite Nat.add_0_r, take_drop. Qed.

Lemma crash_image_app T1 T2 i first second img :
  crash_image (T1 ++ T2) i first second img =
  if decide (i < length T1)%nat then crash_image T1 i first second img
  else crash_image T2 (i - length T1) first second (written T1 img).
Proof.
  unfold crash_image. case_decide as Hi.
  - by rewrite take_app_le, lookup_app_l by lia.
  - by rewrite take_app_ge, written_app, lookup_app_r by lia.
Qed.

(** The bytes [bs] at [off] have become part of the file [n] on the disk by the
    writes [T], and the open file [f] has moved past them.  After a crash within
    [T], the file has a part of [bs] that is all of it or ends with a piece. *)
Record file_saved {L : Linker} {W : World} (p : nat) (s : Z) (k : kernel) (f ip : nat) (n : Z) (bs : list Z) (off : Z)
    (k' : kernel) (T : list (Z * list Z)) : Prop := {
  sv_rest : at_rest p s k';
  sv_sb : sb k' = sb k;
  sv_writes : writes k' = writes k ++ T;
  sv_image : image k' = written T (image k);
  sv_fsys : fsys (sb k) (λ b, image k' !!! b);
  sv_sync : in_sync (sb k) (λ b, image k' !!! b) n ip (itable k');
  sv_user : user_of p k' = (user_of p k) <| uv_files ::= upd f (λ g, g <| f_off := u32 (f_off g + Z.of_nat (length bs)) |>) |>;
  sv_bytes : dbytes (sb k) (λ b, image k' !!! b) n = splice (Z.to_nat off) bs (dbytes (sb k) (λ b, image k !!! b) n);
  sv_other m : ino (sb k) m -> m ≠ n -> dbytes (sb k) (λ b, image k' !!! b) m = dbytes (sb k) (λ b, image k !!! b) m;
  sv_crash i first second kb sblk :
    booted p (crash_image T i first second (image k)) kb -> i32 (sb_logstart sblk) = s ->
    ∃ kr c, initlog ROOTDEV sblk kb = Ret () kr ∧ at_rest p s kr ∧ fsys (sb k) (λ b, image kr !!! b) ∧
      (c = length bs ∨ (c < length bs)%nat ∧ Z.of_nat c mod write_max = 0) ∧
      dbytes (sb k) (λ b, image kr !!! b) n = splice (Z.to_nat off) (take c bs) (dbytes (sb k) (λ b, image k !!! b) n) ∧
      ∀ m, ino (sb k) m -> m ≠ n -> dbytes (sb k) (λ b, image kr !!! b) m = dbytes (sb k) (λ b, image k !!! b) m;
}.

Section pieces.
Context {L : Linker} {W : World} {DW : DiskWorld W} (p : nat) (s : Z) (f ip : nat) (n : Z).
Local Abbreviation disk k := (λ b, image k !!! b).

Lemma saved_one k bs off k' T : ino (sb k) n -> bs ≠ [] ->
  file_written p s k ip n bs off k' T ->
  user_of p k' = (user_of p k) <| uv_files ::= upd f (λ g, g <| f_off := u32 (f_off g + Z.of_nat (length bs)) |>) |> ->
  file_saved p s k f ip n bs off k' T.
Proof.
  intros Hn Hbs [F1 F2 F3 F4 F5 F6 F7 F8 F9 F10 F11 F12] Hu. split; try done.
  intros i first second kb sblk Hb Hs. destruct (F12 i first second kb sblk Hb Hs) as (kr & E & Hr & Hf & [Hc|Hc]).
  - exists kr, 0%nat. split_and!; try done; [right; destruct bs; [done|cbn; split; [lia|done]]| |auto].
    by rewrite take_0, splice_nil, Hc.
  - exists kr, (length bs). split_and!; try done; [by left| |].
    + by rewrite firstn_all, Hc, F8.
    + intros m Hm Hne. rewrite Hc by done. by apply F9.
Qed.

Lemma saved_app k bs1 off k1 T1 bs2 k2 T2 : ino (sb k) n -> fsys (sb k) (disk k) -> 0 <= off <= dsize (sb k) (disk k) n ->
  Z.of_nat (length bs1) = write_max -> bs2 ≠ [] ->
  file_saved p s k f ip n bs1 off k1 T1 -> file_saved p s k1 f ip n bs2 (off + Z.of_nat (length bs1)) k2 T2 ->
  file_saved p s k f ip n (bs1 ++ bs2) off k2 (T1 ++ T2).
Proof.
  intros Hn Hf Hoff Hl1 Hb2 [A1 A2 A3 A4 A5 A6 A7 A8 A9 A10] [B1 B2 B3 B4 B5 B6 B7 B8 B9 B10]. rewrite A2 in *.
  assert (∀ l', splice (Z.to_nat (off + Z.of_nat (length bs1))) l' (dbytes (sb k) (disk k1) n) =
    splice (Z.to_nat off) (bs1 ++ l') (dbytes (sb k) (disk k) n)) as Hsp.
  { intros l'. rewrite A8, Z2Nat.inj_add, Nat2Z.id by lia. apply splice_splice. rewrite length_dbytes; lia. }
  assert (∀ m, ino (sb k) m -> m ≠ n -> dbytes (sb k) (disk k2) m = dbytes (sb k) (disk k) m) as Ho
    by (intros m Hm Hne; rewrite B9 by done; by apply A9).
  split; try done.
  - by rewrite B3, A3, app_assoc.
  - by rewrite B4, A4, written_app.
  - rewrite B7, A7, length_app. cbn. unfold set, set_uv_files. cbn. f_equal. rewrite upd_upd. apply upd_ext. cbn.
    unfold set, set_f_off. cbn. f_equal. unfold u32. rewrite Zplus_mod_idemp_l. f_equal. lia.
  - by rewrite B8, Hsp.
  - intros i first second kb sblk Hb Hs. rewrite crash_image_app in Hb. case_decide as Hi.
    + destruct (A10 i first second kb sblk Hb Hs) as (kr & c & E & Hr & Hfr & Hc & Hby & Hot).
      assert (c <= length bs1)%nat by lia. exists kr, c. split_and!; try done.
      * right. rewrite length_app. destruct bs2; [done|]. cbn. split; [lia|]. destruct Hc as [->|[_ Hc]]; [|done].
        by rewrite Hl1.
      * by rewrite take_app_le.
    + rewrite <- A4 in Hb. destruct (B10 _ first second kb sblk Hb Hs) as (kr & c & E & Hr & Hfr & Hc & Hby & Hot).
      exists kr, (length bs1 + c)%nat. split_and!; try done.
      * rewrite length_app. destruct Hc as [->|[Hc Hm]]; [by left|right]. split; [lia|].
        rewrite Nat2Z.inj_add, Hl1. rewrite <- Zplus_mod_idemp_r, Hm, Z.add_0_r. done.
      * rewrite Hby, Hsp, take_app_add. done.
      * intros m Hm Hne. rewrite Hot by done. by apply A9.
Qed.
End pieces.

(** ** The loop *)
Section filewrite.
Context {L : Linker} {W : World} {DW : DiskWorld W} (p : nat) (s : Z) (f ip : nat) (n : Z).
Local Abbreviation disk k := (λ b, image k !!! b).
Local Abbreviation pt k := (p_pagetable (procs k !!! p)).

Lemma open_after k bs off k' T m : open_file k f ip n off -> 0 <= off -> 0 <= m -> off + m <= MAXFILE * BSIZE ->
  file_written p s k ip n bs off k' T ->
  user_of p k' = (user_of p k) <| uv_files ::= upd f (λ g, g <| f_off := u32 (f_off g + m) |>) |> ->
  open_file k' f ip n (off + m).
Proof.
  intros [O1 O2 O3 O4 O5 O6 O7 O8] Ho Hm Hmax Hw Hu. pose proof (f_equal uv_files Hu) as Ef.
  change (ftable k' = upd f (λ g, g <| f_off := u32 (f_off g + m) |>) (ftable k)) in Ef.
  destruct (fw_inodes _ _ _ _ _ _ _ _ _ Hw) as (a & z & Ei).
  assert (i_ref (itable k' !!! ip) = i_ref (itable k !!! ip) ∧ i_valid (itable k' !!! ip) = i_valid (itable k !!! ip)) as [R1 R2].
  { rewrite Ei. destruct (decide (ip < length (itable k))%nat); [by rewrite upd_eq|by rewrite upd_ge by lia]. }
  split; rewrite ?R1, ?R2, ?Ef, ?length_upd, ?upd_eq by done; try done. cbn. rewrite O5. apply u32_small.
  change (MAXFILE * BSIZE) with 274432 in *. lia.
Qed.

Lemma dsize_grown k bs off k' T : ino (sb k) n -> fsys (sb k) (disk k) -> 0 <= off <= dsize (sb k) (disk k) n ->
  file_written p s k ip n bs off k' T -> off + Z.of_nat (length bs) <= dsize (sb k) (disk k') n.
Proof.
  intros Hn Hf Ho Hw. pose proof (f_equal length (fw_bytes _ _ _ _ _ _ _ _ _ Hw)) as E.
  pose proof (fy_size _ _ (fw_fsys _ _ _ _ _ _ _ _ _ Hw) n Hn). pose proof (fy_size _ _ Hf n Hn).
  unfold splice in E. rewrite !length_app, length_take, length_drop, !length_dbytes in E; lia.
Qed.

(** The bytes at [a], of [n] bytes in memory, are all in pages of the process. *)
Local Abbreviation mapped k a m := (∀ va, touches a m va -> present (pt k) (mem k) va).

Lemma filewrite_loop_spec fuel : ∀ k off addr i len, 0 <= i < len -> (Z.to_nat (len - i) < fuel)%nat ->
  layout s (sb k) -> at_rest p s k -> fsys (sb k) (disk k) -> ino (sb k) n -> in_sync (sb k) (disk k) n ip (itable k) ->
  open_file k f ip n off -> 0 <= addr -> addr + len <= MAXVA -> mapped k (addr + i) (len - i) ->
  0 <= off <= dsize (sb k) (disk k) n -> off + (len - i) <= MAXFILE * BSIZE ->
  5 * ((len - i + write_max - 1) / write_max) <= Z.of_nat (nfree (sb k) (disk k)) ->
  ∃ k' T, filewrite_loop fuel f addr i len k = Ret len k' ∧
    file_saved p s k f ip n (ubytes (pt k) (Z.to_nat (len - i)) (mem k) (addr + i)) off k' T.
Proof.
  induction fuel as [|fuel IH]; [lia|].
  intros k off addr i len Hi Hfu Hlay Hk Hf Hn Hsy Ho Ha Hmax Hp Hoff Hend Hfree. rewrite filewrite_loop_piece by lia.
  change write_max with 3072 in Hfree. set (m := piece (len - i)).
  assert (0 < m <= len - i ∧ (m = 3072 ∨ m = len - i ∧ len - i <= 3072)) as [Hm Hm'].
  { unfold m, piece. change write_max with 3072. destruct (Z.ltb_spec 3072 (len - i)); lia. }
  destruct (piece_atomic p s k Hlay Hk Hf f ip n off Hn Hsy Ho addr i m) as (k1 & T1 & E & Hu & Hw).
  all: try (unfold BSIZE in *; lia).
  { intros va Hva. apply Hp. unfold touches in *. lia. }
  { enough (1 <= (len - i + 3072 - 1) / 3072) by lia. apply Z.div_le_lower_bound; lia. }
  rewrite (bind_Ret _ _ _ _ _ E). rewrite (Z.eqb_refl m). cbn [negb].
  set (bs := ubytes (pt k) (Z.to_nat m) (mem k) (addr + i)) in *.
  assert (Z.of_nat (length bs) = m) as Hbs by (unfold bs; rewrite length_ubytes; lia).
  assert (bs ≠ []) as Hne by (intros ->; cbn in Hbs; lia).
  pose proof (saved_one p s f ip n k bs off k1 T1 Hn Hne Hw) as Hs1. rewrite Hbs in Hs1. specialize (Hs1 Hu).
  destruct (decide (m = len - i)) as [->|Hlt].
  - exists k1, T1. split; [|done]. destruct fuel as [|fuel']; [lia|]. cbn [filewrite_loop].
    rewrite Z.add_sub_assoc, Z.add_sub_swap, Z.sub_diag, Z.add_0_l, Z.ltb_irrefl. done.
  - assert (m = 3072) as Em by lia.
    pose proof (fw_sb _ _ _ _ _ _ _ _ _ Hw) as Esb.
    assert (mem k1 = mem k) as Emem by exact (f_equal uv_mem Hu).
    assert (pt k1 = pt k) as Ept by exact (f_equal uv_pagetable Hu).
    pose proof (dsize_grown k bs off k1 T1 Hn Hf Hoff Hw) as Hg. rewrite Hbs in Hg.
    pose proof (fw_free _ _ _ _ _ _ _ _ _ Hw) as Hfr.
    destruct (IH k1 (off + m) addr (i + m) len) as (k2 & T2 & E2 & Hs2); rewrite ?Esb, ?Emem, ?Ept; try (apply Hw); try done; try lia.
    + by eapply open_after; [..|exact Hw|]; try done; lia.
    + intros va Hva. apply Hp. unfold touches in *. lia.
    + change write_max with 3072. rewrite Em.
      replace (len - i + 3072 - 1) with ((len - (i + 3072) + 3072 - 1) + 1 * 3072) in Hfree by lia.
      rewrite Z.div_add in Hfree by lia. lia.
    + exists k2, (T1 ++ T2). split; [exact E2|]. rewrite Emem, Ept in Hs2.
      replace (Z.to_nat (len - i)) with (Z.to_nat m + Z.to_nat (len - (i + m)))%nat by lia. rewrite ubytes_app. fold bs.
      replace (addr + i + Z.of_nat (Z.to_nat m)) with (addr + (i + m)) by lia.
      apply (saved_app p s f ip n k bs off k1 T1); try done.
      * change write_max with 3072. lia.
      * intros E3. apply (f_equal length) in E3. rewrite length_ubytes in E3. cbn in E3. lia.
      * by rewrite Hbs.
Qed.

(** C2. [filewrite] of [len] bytes at [addr] to a file open at [off], when the
    process has the pages and the disk has the blocks, returns [len].  The file
    then has the bytes of the process at [off], its offset has moved by [len],
    memory and the other files are as before, and the disk is a file system.
    If the machine stops at any of the writes of the disk, even in the middle
    of one, what the next boot recovers is a file system with the bytes of the
    file replaced by a prefix of the [len] bytes: all of it, or one that ends
    where a transaction ends. *)
Theorem filewrite_prefix k off addr len : 0 < len ->
  layout s (sb k) -> at_rest p s k -> fsys (sb k) (disk k) -> ino (sb k) n -> in_sync (sb k) (disk k) n ip (itable k) ->
  open_file k f ip n off -> 0 <= addr -> addr + len <= MAXVA -> mapped k addr len ->
  0 <= off <= dsize (sb k) (disk k) n -> off + len <= MAXFILE * BSIZE ->
  5 * ((len + write_max - 1) / write_max) <= Z.of_nat (nfree (sb k) (disk k)) ->
  let bs := ubytes (pt k) (Z.to_nat len) (mem k) addr in
  ∃ k' T, filewrite f addr len k = Ret len k' ∧ at_rest p s k' ∧ writes k' = writes k ++ T ∧
    mem k' = mem k ∧ ftable k' = upd f (λ g, g <| f_off := off + len |>) (ftable k) ∧
    fsys (sb k) (disk k') ∧ in_sync (sb k) (disk k') n ip (itable k') ∧
    dbytes (sb k) (disk k') n = splice (Z.to_nat off) bs (dbytes (sb k) (disk k) n) ∧
    (∀ m, ino (sb k) m -> m ≠ n -> dbytes (sb k) (disk k') m = dbytes (sb k) (disk k) m) ∧
    ∀ i first second kb sblk, booted p (crash_image T i first second (image k)) kb -> i32 (sb_logstart sblk) = s ->
      ∃ kr c, initlog ROOTDEV sblk kb = Ret () kr ∧ at_rest p s kr ∧ fsys (sb k) (disk kr) ∧
        (c = length bs ∨ (c < length bs)%nat ∧ Z.of_nat c mod write_max = 0) ∧
        dbytes (sb k) (disk kr) n = splice (Z.to_nat off) (take c bs) (dbytes (sb k) (disk k) n) ∧
        ∀ m, ino (sb k) m -> m ≠ n -> dbytes (sb k) (disk kr) m = dbytes (sb k) (disk k) m.
Proof.
  intros Hlen Hlay Hk Hf Hn Hsy Ho Ha Hmax Hp Hoff Hend Hfree bs.
  destruct (filewrite_loop_spec (S (Z.to_nat len)) k off addr 0 len) as (k' & T & E & Hs);
    rewrite ?Z.sub_0_r, ?Z.add_0_r; try done; try lia.
  rewrite Z.sub_0_r, Z.add_0_r in Hs. fold bs in Hs. destruct Hs as [A1 A2 A3 A4 A5 A6 A7 A8 A9 A10].
  assert (Z.of_nat (length bs) = len) as Hbs by (unfold bs; rewrite length_ubytes; lia). rewrite Hbs in A7.
  exists k', T. split; [|split_and!; try done].
  - unfold filewrite, read_file. rewrite bind_gets. destruct (Z.eqb_spec (f_writable (ftable k !!! f)) 0); [by destruct (of_writable _ _ _ _ _ Ho)|].
    rewrite (bind_gets_as _ _ k FD_INODE (of_type _ _ _ _ _ Ho)), (bind_Ret _ _ _ _ _ E), Z.eqb_refl. done.
  - exact (f_equal uv_mem A7).
  - pose proof (f_equal uv_files A7) as Ef. etransitivity; [exact Ef|]. apply upd_ext. unfold set, set_f_off. cbn.
    rewrite (of_off _ _ _ _ _ Ho), u32_small by (change (MAXFILE * BSIZE) with 274432 in *; lia). done.
Qed.
End filewrite.
