(* ===== verification/FsDemo.v ===== *)
(** * An example file system

    A small disk with the file system of [mkfs]: the log, one block of inodes,
    the bitmap and one block of the root directory.  It has the properties the
    theorems about files and directories ask for, and they are applied to it. *)
From S2P Require Import Prelude Layout KState Spinlock CString Vm PageTable VmSpec VmCopy Proc Uart Sleeplock Virtio Bio.
From S2P Require Import Log Fs File SchedEq Demo FsView Disk Bcache LogSpec Txn FsTx FsSpec FsFile FsDisk FsDir FsWrite.

#[local] Existing Instance disk_world.

(** The log is in blocks 2 to 32, the inodes in 33, the bitmap in 34. *)
Definition small_sb : superblock := mk_superblock 0x10203040 60 25 16 31 2 33 34.
(** The root directory: inode 1, with one block of two entries. *)
Definition root : inode := mk_inode ROOTDEV 1 1 1 T_DIR 0 0 1 32 (40 :: replicate 12 0).
Definition root_entries : list Z := dirent_bytes (str ".") 1 ++ dirent_bytes (str "..") 1.
(** Blocks 0 to 34 and block 40 are in use. *)
Definition small_bitmap : list Z := [255; 255; 255; 255; 7; 1] ++ replicate 1018 0.
Definition small_image : gmap Z (list Z) :=
  <[2 := zeros]> (<[33 := splice 64 (dinode_bytes root) zeros]> (<[34 := small_bitmap]>
    {[40 := splice 0 root_entries zeros]})).
Definition small_fs : kernel := (demo_boot small_image) <| sb := small_sb |>
  <| itable := root :: replicate 49 inhabitant |>.

Lemma bcache_mounted c p S T k : bcache_ok c (fsv p k) -> bcache_ok c (fsv p (k <| sb := S |> <| itable := T |>)).
Proof. by apply bcache_frame. Qed.
Lemma small_rest : at_rest 0 2 small_fs.
Proof.
  destruct (demo_boot_frame small_image) as (El & Ei & Hk).
  assert (log small_fs = log (demo_disk small_image)) as El' by exact El.
  assert (image small_fs = small_image) as Ei' by exact Ei.
  split; rewrite ?El', ?Ei'.
  - by apply (okh_frame _ _ (demo_boot small_image)).
  - apply bcache_mounted, demo_cache.
  - by split.
  - reflexivity.
  - reflexivity.
  - reflexivity.
  - by split.
  - reflexivity.
Qed.
Lemma small_layout : layout 2 small_sb.
Proof. split; split; by vm_compute. Qed.

Local Abbreviation B := (λ b, small_image !!! b).
Lemma small_iblock m : ino small_sb m -> small_image !!! IBLOCK m small_sb = splice 64 (dinode_bytes root) zeros.
Proof.
  intros Hm. unfold ino in Hm. cbn in Hm. replace (IBLOCK m small_sb) with 33; [done|].
  unfold IBLOCK, u32. change IPB with 16. cbn. zlia.
Qed.
Lemma small_field m j w : ino small_sb m -> (j + w <= 64)%nat ->
  get_le w (dinode_off m + j) (small_image !!! IBLOCK m small_sb) = if decide (m = 1) then get_le w j (dinode_bytes root) else 0.
Proof.
  intros Hm Hj. rewrite small_iblock by done. unfold ino in Hm. cbn in Hm. pose proof (length_dinode root eq_refl) as Hl.
  assert (length zeros = 1024%nat) as Hz by (unfold zeros; by rewrite length_replicate).
  assert (dinode_off m = 64 * Z.to_nat m)%nat as -> by (unfold dinode_off; change IPB with 16; change DINODE_SIZE with 64; zlia).
  case_decide as E.
  - rewrite E. apply get_le_inside; rewrite ?Hl, ?Hz; lia.
  - rewrite get_le_outside; [apply get_le_zeros|rewrite ?Hl, ?Hz; lia..].
Qed.
Lemma small_size m : ino small_sb m -> dsize small_sb B m = if decide (m = 1) then 32 else 0.
Proof. intros Hm. unfold dsize. rewrite small_field by (done || lia). case_decide; [|done]. by apply dinode_size. Qed.
Lemma root_size : dsize small_sb B 1 = 32.
Proof. by rewrite small_size. Qed.
Lemma small_addr m i : ino small_sb m -> (i < 13)%nat ->
  daddrs small_sb B m !!! i = if decide (m = 1 ∧ i = 0%nat) then 40 else 0.
Proof.
  intros Hm Hi. rewrite daddrs_lookup by (unfold NDIRECT; lia). rewrite <- Nat.add_assoc, small_field by (done || lia).
  destruct (decide (m = 1)) as [->|]; [|by rewrite decide_False by tauto].
  rewrite dinode_addr; [|cbn; lia|repeat constructor; lia].
  destruct i as [|i]; [done|]. rewrite decide_False by lia. cbn. change (replicate 12 0 !!! i = 0). by rewrite lookup_total_replicate_2 by lia.
Qed.
Lemma small_slot m i : ino small_sb m -> (i < NSLOT)%nat ->
  slot B (daddrs small_sb B m) i = if decide (m = 1 ∧ i = 0%nat) then 40 else 0.
Proof.
  intros Hm Hi. unfold slot. destruct (Nat.leb_spec i NDIRECT) as [H|H].
  - apply small_addr; [done|unfold NDIRECT in H; lia].
  - rewrite small_addr by (done || (unfold NDIRECT; lia)). rewrite (decide_False (P := _ ∧ NDIRECT = _)) by (unfold NDIRECT; lia).
    rewrite decide_False by lia. done.
Qed.
Lemma small_used b : 0 <= b <= 34 ∨ b = 40 -> used small_sb B b.
Proof.
  intros Hb. assert (forallb (λ b, bit_set b small_bitmap) (40 :: seqZ 0 35) = true) as HF by reflexivity.
  rewrite forallb_forall in HF. apply HF. rewrite <- list_elem_of_In, elem_of_cons, elem_of_seqZ. lia.
Qed.

Lemma small_fsys : fsys small_sb B.
Proof.
  split.
  - split.
    + reflexivity.
    + intros b Hb. apply small_used. cbn in Hb. lia.
    + intros m Hm. apply length_daddrs.
    + intros m Hm. by rewrite small_iblock.
    + intros m i Hm Hi. cbv zeta. rewrite small_slot by done. case_decide; [|done]. intros _.
      split; [split; reflexivity|]. split; [apply small_used; lia|reflexivity].
    + intros m i m' i' Hm Hm' Hi Hi'. rewrite !small_slot by done. repeat case_decide; naive_solver.
  - intros m Hm. rewrite small_size by done. change (MAXFILE * BSIZE) with 274432. case_decide; lia.
  - intros m o Hm Ho. rewrite small_size in Ho by done. case_decide; [subst|lia].
    replace (o / BSIZE) with 0 by (unfold BSIZE; zlia). unfold dblock. rewrite small_slot by (done || unfold slot_of, NSLOT; cbn; lia). done.
Qed.
Lemma small_sync : in_sync small_sb B 1 0 (itable small_fs).
Proof.
  assert (ino small_sb 1) as H1 by done. change (itable small_fs) with (root :: replicate 49 inhabitant).
  split; [cbn; lia|done|done|..].
  - apply list_eq_total; [by rewrite length_daddrs|]. intros i Hi. rewrite small_addr by done.
    change (i_addrs ((root :: replicate 49 inhabitant) !!! 0%nat)) with (40 :: replicate 12 0). destruct i as [|i]; [done|].
    rewrite decide_False by lia. change (replicate 12 0 !!! i = 0). cbn in Hi. by rewrite lookup_total_replicate_2 by lia.
  - by rewrite small_size.
Qed.

Lemma small_image_eq : image small_fs = small_image.
Proof. destruct (demo_boot_frame small_image) as (_ & Ei & _). exact Ei. Qed.
Lemma small_free : (5 <= nfree small_sb B)%nat.
Proof. unfold nfree. vm_compute. lia. Qed.

(** Two blocks more for the root directory's file. *)
Definition some_bytes : list Z := replicate 2000 7.
Lemma file_write_atomic_witness : ∃ k' T,
  in_op (writei 0 (LocalSrc some_bytes) 32 2000) small_fs = Ret 2000 k' ∧
  fsys small_sb (λ b, image k' !!! b) ∧
  dbytes small_sb (λ b, image k' !!! b) 1 = splice 32 some_bytes (dbytes small_sb B 1) ∧
  ∀ i first second, ∃ kr,
    initlog ROOTDEV small_sb (demo_boot (crash_image T i first second (image small_fs))) = Ret () kr ∧
    (dbytes small_sb (λ b, image kr !!! b) 1 = dbytes small_sb B 1 ∨
     dbytes small_sb (λ b, image kr !!! b) 1 = splice 32 some_bytes (dbytes small_sb B 1)).
Proof.
  pose proof (file_write_atomic 0 2 small_fs small_layout small_rest) as H.
  change (sb small_fs) with small_sb in H. rewrite small_image_eq in H.
  assert (ino small_sb 1) as H1 by done.
  destruct (H small_fsys 0%nat 1 (LocalSrc some_bytes) some_bytes 32 H1 small_sync) as (k' & T & E1 & _ & _ & _ & _ & E2 & _ & E3 & _ & E4).
  - intros σ tot m _ Ht Hm Hl. apply fs_return.
  - rewrite root_size. lia.
  - by vm_compute.
  - by vm_compute.
  - exact small_free.
  - exists k', T. rewrite small_image_eq. split; [exact E1|]. split; [exact E2|]. split; [exact E3|].
    intros i f1 f2. destruct (E4 i f1 f2 _ small_sb (demo_booted _) eq_refl) as (kr & Er & _ & _ & [Ho|Ho]);
      exists kr; (split; [exact Er|]); rewrite (Ho 1 H1); [by left|by right].
Defined.

Lemma file_read_witness : ∃ k', readi 0 LocalDst 16 100 small_fs = Ret (16, drop 16 (dbytes small_sb B 1)) k' ∧ image k' = small_image.
Proof.
  pose proof (file_read 0 2 small_fs small_layout small_rest) as H.
  change (sb small_fs) with small_sb in H. rewrite small_image_eq in H.
  destruct (H small_fsys 0%nat 1 16 100) as (k' & E & _ & Ei & _); [done|exact small_sync|lia|lia|].
  exists k'. split; [|exact Ei]. rewrite E. assert (length (dbytes small_sb B 1) = 32%nat) as Hl
    by (rewrite length_dbytes; rewrite root_size; done).
  rewrite length_take, length_drop, Hl, take_ge by (rewrite length_drop, Hl; lia). done.
Defined.

Lemma small_dbytes : dbytes small_sb B 1 = root_entries.
Proof.
  apply list_eq_total; [rewrite length_dbytes; rewrite root_size; done|].
  intros i. rewrite length_dbytes; rewrite root_size; [|lia]. intros Hi. change (Z.to_nat 32) with 32%nat in Hi.
  unfold dbytes. rewrite root_size. rewrite (list_lookup_total_alt (_ <$> _)), list_lookup_fmap, lookup_seqZ_lt by lia.
  cbn [fmap option_fmap option_map default]. replace ((0 + Z.of_nat i) / BSIZE) with 0 by (unfold BSIZE; zlia).
  replace ((0 + Z.of_nat i) mod BSIZE) with (Z.of_nat i) by (unfold BSIZE; zlia).
  unfold dblock. rewrite small_slot by (done || (unfold slot_of, NSLOT; cbn; lia)). rewrite Nat2Z.id.
  change (slot_of 0) with 0%nat. rewrite decide_True by done. change (small_image !!! 40) with (splice 0 root_entries zeros).
  assert (splice 0 root_entries zeros = root_entries ++ drop 32 zeros) as -> by reflexivity.
  by rewrite lookup_total_app_l by exact Hi.
Qed.

Lemma dirlookup_map_witness : ∃ ip off k', dirlookup 0 (str "..") small_fs = Ret (Some (ip, off)) k' ∧
  igot ROOTDEV 1 (itable small_fs) ip (itable k').
Proof.
  pose proof (dirlookup_map 0 2 small_fs small_layout small_rest) as H.
  change (sb small_fs) with small_sb in H. rewrite small_image_eq in H.
  specialize (H small_fsys 0%nat 1 ltac:(done) small_sync eq_refl). rewrite root_size, small_dbytes in H.
  destruct (H eq_refl (str "..")) as (r & k' & E & _ & _ & Hm); [exists 1%nat; split; [by apply Nat.ltb_lt|done]|].
  assert (dmap root_entries !! key (str "..") = Some 1) as Ed by (by vm_compute). rewrite Ed in Hm.
  destruct Hm as (ip & j & de & -> & Hg & _). exists ip, (16 * Z.of_nat j), k'. split; [exact E|exact Hg].
Defined.
Lemma dirlink_atomic_witness : ∃ k', in_op (dirlink 0 (str "a") 2) small_fs = Ret 0 k' ∧
  dmap (dbytes small_sb (λ b, image k' !!! b) 1) = <[key (str "a") := 2]> (dmap root_entries).
Proof.
  pose proof (dirlink_atomic 0 2 small_fs small_layout small_rest) as H.
  change (sb small_fs) with small_sb in H. rewrite small_image_eq in H.
  specialize (H small_fsys 0%nat 1 ltac:(done) small_sync eq_refl). rewrite root_size in H.
  destruct (H eq_refl (str "a") 2) as (k' & T & E & _ & _ & _ & _ & _ & _ & Ed & _).
  - rewrite small_dbytes. by vm_compute.
  - lia.
  - by vm_compute.
  - exact small_free.
  - exists k'. split; [exact E|]. rewrite Ed, small_dbytes. reflexivity.
Defined.

(** A process with one page of memory, at 0x3000, and the root directory's file
    open for writing after its 32 bytes. *)
Definition user_mem : memory :=
  let V := Z.lor (Z.lor PTE_V PTE_R) (Z.lor PTE_W PTE_U) in
  st64 (st64 (st64 (st8 ∅ 0x3005 104) 0 (Z.lor (PA2PTE 0x1000) PTE_V)) 0x1000 (Z.lor (PA2PTE 0x2000) PTE_V))
    0x2000 (Z.lor (PA2PTE 0x3000) V).
Definition user_files : list file := mk_file FD_INODE 1 1 1 0 (Some 0%nat) 32 0 :: replicate 99 inhabitant.
Definition user_fs : kernel := small_fs <| mem := user_mem |> <| ftable := user_files |>.

Lemma user_frame p s k m l : at_rest p s k -> at_rest p s (k <| mem := m |> <| ftable := l |>).
Proof.
  intros [A1 A2 A3 A4 A5 A6 A7 A8]. split; try done; [by apply (okh_frame _ _ k)|]. by apply (bcache_frame _ (fsv p k)).
Qed.
Lemma user_pagetable : p_pagetable (procs user_fs !!! 0%nat) = 0.
Proof.
  destruct (binit_frame (demo_disk small_image) (seq 0 NBUF)) as (_ & _ & _ & _ & Ep & _).
  change (procs user_fs) with (procs (demo_boot small_image)).
  assert (procs (demo_boot small_image) = procs (demo_disk small_image)) as -> by exact Ep. reflexivity.
Qed.
Lemma user_page : present 0 user_mem 0.
Proof. split; [by vm_compute|]. split; [by split; vm_compute|]. split; [by vm_compute|]. exists 0x2000. by split; vm_compute. Qed.
Lemma user_open : open_file user_fs 0 0 1 32.
Proof. split; [cbn; lia|reflexivity|discriminate|reflexivity|reflexivity|unfold NINODE; lia|discriminate|reflexivity]. Qed.
Lemma many_free : 10 <= Z.of_nat (nfree small_sb B).
Proof. unfold nfree. vm_compute. discriminate. Qed.

(** 4000 bytes, in two transactions. *)
Lemma filewrite_prefix_witness : ∃ k' T,
  let bs := ubytes 0 4000 user_mem 0 in
  filewrite 0 0 4000 user_fs = Ret 4000 k' ∧
  dbytes small_sb (λ b, image k' !!! b) 1 = splice 32 bs (dbytes small_sb B 1) ∧
  ∀ i first second, ∃ kr c,
    initlog ROOTDEV small_sb (demo_boot (crash_image T i first second (image user_fs))) = Ret () kr ∧
    (c = 4000%nat ∨ (c < 4000)%nat ∧ Z.of_nat c mod write_max = 0) ∧
    dbytes small_sb (λ b, image kr !!! b) 1 = splice 32 (take c bs) (dbytes small_sb B 1).
Proof.
  pose proof (filewrite_prefix 0 2 0 0 1 user_fs 32 0 4000 ltac:(lia) small_layout (user_frame _ _ _ _ _ small_rest)) as H.
  change (sb user_fs) with small_sb in H. change (image user_fs) with (image small_fs) in H. rewrite small_image_eq, user_pagetable in H.
  assert (ino small_sb 1) as H1 by done.
  destruct (H small_fsys H1 small_sync user_open) as (k' & T & E1 & _ & _ & _ & _ & _ & _ & E2 & _ & E3).
  - lia.
  - by vm_compute.
  - intros va (_ & Hm & H2 & H3). replace va with 0 by (unfold PGSIZE in *; zlia). exact user_page.
  - rewrite root_size. lia.
  - by vm_compute.
  - exact many_free.
  - exists k', T. change (mem user_fs) with user_mem in *. split; [exact E1|]. split; [exact E2|]. intros i f1 f2.
    change (image user_fs) with (image small_fs). rewrite small_image_eq.
    destruct (E3 i f1 f2 _ small_sb (demo_booted _) eq_refl) as (kr & c & Er & _ & _ & Hc & Hb & _).
    rewrite length_ubytes in Hc. exists kr, c. split; [exact Er|]. split; [exact Hc|exact Hb].
Defined.
