(* ===== verification/Blockdev.v ===== *)
(** The block store of [kernel/bio.c] and [kernel/virtio_disk.c]: reading and
    writing blocks through the buffer cache and the disk driver refines an
    array of blocks. *)
From S2P Require Import Prelude Layout KState Spinlock CString Proc Sleeplock Virtio Bio Log Fs.
From S2P Require Import FsView Disk Bcache LogSpec Txn.

Inductive blockop : Type := ReadBlock (bno : Z) | WriteBlock (bno : Z) (data : list Z).

Definition op_bno (o : blockop) : Z := match o with ReadBlock bno | WriteBlock bno _ => bno end.

(** The array: the data read, and the array after the operations. *)
Fixpoint run_array (ops : list blockop) (a : gmap Z (list Z)) : list (list Z) * gmap Z (list Z) :=
  match ops with
  | [] => ([], a)
  | ReadBlock bno :: ops' => let '(rs, a') := run_array ops' a in (a !!! bno :: rs, a')
  | WriteBlock bno data :: ops' => run_array ops' (<[bno := data]> a)
  end.

Section run.
Context {W : World}.

(** The same operations on the cache, the way the log uses it. *)
Definition run_block (o : blockop) : M (list (list Z)) :=
  match o with
  | ReadBlock bno =>
      b ← bread ROOTDEV bno;
      data ← read_buf b b_data;
      brelse b ;;
      mret [data]
  | WriteBlock bno data =>
      b ← bread ROOTDEV bno;
      write_buf b (λ r, r <| b_data ::= λ _, data |>) ;;
      bwrite b ;;
      brelse b ;;
      mret []
  end.
Fixpoint run_blocks (ops : list blockop) : M (list (list Z)) :=
  match ops with
  | [] => mret []
  | o :: ops' => r ← run_block o; rs ← run_blocks ops'; mret (r ++ rs)
  end.
End run.

Section proofs.
Context {W : World} {DW : DiskWorld W} (p : nat).

Lemma released_hold b bno d d' : released b bno d (hold b bno d' (mk_cache ∅ ∅)) = mk_cache ∅ ∅.
Proof.
  assert (delete b (<[b := (bno, d')]> (∅ : gmap nat (Z * option (list Z)))) = ∅) as E.
  { by apply delete_insert_id. }
  unfold released, hold. cbn. unfold set_held. cbn. rewrite E. done.
Qed.

Lemma run_block_spec o α : 0 <= op_bno o < 2 ^ 31 -> a_cache α = mk_cache ∅ ∅ ->
  tr p α (run_block o) (λ r α', a_cache α' = mk_cache ∅ ∅ ∧ (r, a_image α') = run_array [o] (a_image α)).
Proof.
  intros Hb Hc. assert (not_held (a_cache α) (op_bno o)) as Hn by (rewrite Hc; by intros b d).
  assert (size (held (a_cache α)) + size (pins (a_cache α)) < NBUF)%nat as Hs by (rewrite Hc; vm_compute; lia).
  assert (logical α (op_bno o) = a_image α !!! op_bno o) as Hl by (unfold logical; by rewrite Hc).
  destruct o as [bno|bno data]; cbn [op_bno run_block run_array] in *;
    (eapply tr_bind; [apply tr_bread; done|]); intros b ? [_ ->]; rewrite Hl.
  - eapply tr_bind; [eapply tr_read_data; cbn; apply lookup_insert_eq|]. intros ? ? [-> ->].
    eapply tr_bind; [eapply tr_brelse; [cbn; apply lookup_insert_eq|done]|]. intros [] ? ->.
    apply tr_ret. split; [cbn; rewrite Hc; apply released_hold|done].
  - eapply tr_bind; [eapply tr_write_data; cbn; apply lookup_insert_eq|]. intros [] ? ->.
    eapply tr_bind; [eapply tr_bwrite; cbn; apply lookup_insert_eq|]. intros [] ? ->.
    eapply tr_bind; [eapply tr_brelse; [cbn; apply lookup_insert_eq|]|].
    { intros _. cbn. by rewrite lookup_total_insert_eq. }
    intros [] ? ->. apply tr_ret. split; [|done]. cbn. rewrite Hc.
    rewrite hold_hold. apply released_hold.
Qed.

Lemma run_blocks_spec ops α :
  Forall (λ o, 0 <= op_bno o < 2 ^ 31) ops -> a_cache α = mk_cache ∅ ∅ ->
  tr p α (run_blocks ops) (λ r α', a_cache α' = mk_cache ∅ ∅ ∧ (r, a_image α') = run_array ops (a_image α)).
Proof.
  revert α. induction ops as [|o ops IH]; intros α Hb Hc; cbn [run_blocks]; [by apply tr_ret|].
  apply Forall_cons in Hb as [Ho Hb].
  eapply tr_bind; [by apply run_block_spec|]. intros r α1 [Hc1 E1].
  eapply tr_bind; [by apply IH|]. intros rs α2 [Hc2 E2]. apply tr_ret. split; [done|].
  destruct o as [bno|bno data]; cbn in E1 |- *; injection E1 as -> E1; rewrite E1 in E2; [|done].
  by rewrite <- E2.
Qed.

(** C7. The buffer cache and the disk driver implement an array of blocks: any
    sequence of block reads ([bread], [brelse]) and writes ([bread], [bwrite],
    [brelse]) by a process returns, reads return what the array holds, and
    the disk ends with the array's blocks, however the cache hits, misses and
    recycles its buffers. *)
Theorem blocks_refine_array ops k :
  okh p [] k -> bcache_ok (mk_cache ∅ ∅) (fsv p k) -> Forall (λ o, 0 <= op_bno o < 2 ^ 31) ops ->
  ∃ rs k', run_blocks ops k = Ret rs k' ∧ (rs, image k') = run_array ops (image k) ∧
    okh p [] k' ∧ bcache_ok (mk_cache ∅ ∅) (fsv p k').
Proof.
  intros Hk Hc Hb.
  destruct (tr_run p _ _ _ k (run_blocks_spec ops (abstract p k (mk_cache ∅ ∅)) Hb eq_refl) Hk (rel_abstract p k _ Hc))
    as (rs & k' & α & E & Hk' & Hr & Hc' & Ha).
  destruct (rel_kernel p α k' Hr) as (_ & Ei & _). exists rs, k'. rewrite Ei. split_and!; [done..|].
  rewrite <- Hc'. apply Hr.
Qed.
End proofs.

Lemma blocks_refine_array_witness :
  ∃ rs k', run_blocks (W := disk_world) [WriteBlock 100 [7]; ReadBlock 100] demo_fs = Ret rs k' ∧
    rs = [[7]] ∧ image k' !!! 100 = [7].
Proof.
  destruct (blocks_refine_array (W := disk_world) 0 [WriteBlock 100 [7]; ReadBlock 100] demo_fs)
    as (rs & k' & E & Er & _).
  - exact (ar_runs 0 2 demo_fs demo_rest).
  - exact (ar_cache 0 2 demo_fs demo_rest).
  - repeat constructor; cbn; lia.
  - exists rs, k'. split; [exact E|]. injection Er as -> ->.
    rewrite !lookup_total_insert_eq. split; reflexivity.
Defined.
