(* ===== verification/Logfull.v ===== *)
(** * A full log

    [param.h] gives the log as many blocks as the cache has buffers, and
    [begin_op] admits three operations of [MAXOPBLOCKS] blocks.  A block that
    has been logged stays pinned in the cache until it is installed, so when
    the operations use what they are admitted for, the commit finds no buffer
    for the blocks of the log and the kernel panics. *)
From Stdlib Require Import String.
From S2P Require Import Prelude Layout KState Spinlock CString Vm Proc Uart Sleeplock Virtio Bio.
From S2P Require Import Log SchedEq Demo FsView Disk Bcache LogSpec Txn.

(** With [NBUF] pinned blocks every buffer is taken. *)
Lemma all_pinned c v b :
  bcache_ok c v -> size (pins c) = NBUF -> (b < NBUF)%nat ->
  b_dev (v_bufs v !!! b) = ROOTDEV ∧ is_Some (pins c !! b_blockno (v_bufs v !!! b)).
Proof.
  intros Hc Hs Hb. pose proof (bc_pins c v Hc) as Hp.
  set (rs := filter (λ b, b_dev (v_bufs v !!! b) = ROOTDEV) (seq 0 NBUF)).
  set (bs := (λ b, b_blockno (v_bufs v !!! b)) <$> rs).
  assert (elements (dom (pins c)) ⊆+ bs) as Hsub.
  { apply NoDup_submseteq; [apply NoDup_elements|]. intros x Hx%elem_of_elements%elem_of_dom.
    destruct Hx as [d Hd]. destruct (Hp x d Hd) as (i & Hi & H1 & H2 & _).
    apply list_elem_of_fmap. exists i. split; [done|]. apply list_elem_of_filter. split; [done|].
    rewrite elem_of_seq. lia. }
  assert (length (elements (dom (pins c))) = NBUF) as El by (rewrite <- Hs; apply size_dom).
  pose proof (length_filter (λ b, b_dev (v_bufs v !!! b) = ROOTDEV) (seq 0 NBUF)) as Hf. fold rs in Hf.
  rewrite length_seq in Hf. assert (length bs = length rs) as Eb by apply length_fmap.
  pose proof (submseteq_length _ _ Hsub) as Hle.
  assert (elements (dom (pins c)) ≡ₚ bs) as Hperm by (apply submseteq_length_Permutation; [done|lia]).
  assert (rs ≡ₚ seq 0 NBUF) as Ers.
  { apply submseteq_length_Permutation; [apply sublist_submseteq, sublist_filter|]. rewrite length_seq. lia. }
  assert (b ∈ rs) as Hbr by (rewrite Ers, elem_of_seq; lia).
  split; [by apply list_elem_of_filter in Hbr as [? _]|].
  apply elem_of_dom. rewrite <- elem_of_elements, Hperm. apply list_elem_of_fmap. by exists b.
Qed.

(** Running [m] from [α] with the locks [ls] held ends in a panic. *)
Definition pq (p : nat) (ls : list lockid) {A} (α : astate) (m : M A) (msg : string) : Prop :=
  ∀ k, okh p ls k -> rel α (fsv p k) -> ∃ k', m k = Panic msg k'.

Section panics.
Context {W : World} {DW : DiskWorld W} (p : nat).

Lemma pq_first {A B} ls α (m : M A) (f : A -> M B) msg : pq p ls α m msg -> pq p ls α (m ≫= f) msg.
Proof.
  intros Hm k Hk Hr. destruct (Hm k Hk Hr) as [k' E]. exists k'. unfold mbind, ST_bind. by rewrite E.
Qed.
Lemma pq_bind {A B} ls ls1 α (m : M A) (f : A -> M B) Q msg :
  trl p ls α m ls1 Q -> (∀ a α', Q a α' -> pq p ls1 α' (f a) msg) -> pq p ls α (m ≫= f) msg.
Proof.
  intros Hm Hf k Hk Hr. destruct (Hm (fsv p k) Hr) as (a & v' & α' & Hq & Hr' & HQ).
  destruct (Hq k Hk eq_refl) as (k1 & E & Hk1 & <-). rewrite (bind_Ret _ _ _ _ _ E). by apply (Hf a α').
Qed.

(** No buffer for a block that is not cached. *)
Lemma bread_panics α bno :
  size (pins (a_cache α)) = NBUF -> pins (a_cache α) !! bno = None ->
  pq p [] α (bread ROOTDEV bno) "bget: no buffers".
Proof.
  intros Hs Hn. unfold bread. apply pq_first. intros k Hk [Hc _ _ _ _].
  pose proof Hc as [Hlen (l & Hl & Hseg) Hbufs _ _ _ _]. set (v := fsv p k) in *.
  assert (∀ b, b ∈ l <-> (b < NBUF)%nat) as Hin by (intros b; rewrite Hl, elem_of_seq; lia).
  assert (HEAD ∉ l) as HHl by (rewrite Hin; unfold HEAD; lia).
  assert (length l < S NBUF)%nat as Hll by (rewrite Hl, length_seq; lia).
  pose proof (vq_bget_cached p [LkBcache] ROOTDEV bno v (S NBUF) HEAD l Hseg HHl Hll) as Hscan.
  pose proof (vq_bget_unused p [LkBcache] v (S NBUF) l HEAD Hseg HHl Hll) as Hscan2.
  destruct (head (filter (λ b, caches ROOTDEV bno v b = true) l)) as [b|] eqn:E1.
  { apply head_filter_Some in E1 as [Hb%Hin [_ Hblk%Z.eqb_eq]%andb_true_iff].
    destruct (all_pinned _ v b Hc Hs Hb) as [_ Hp]. rewrite Hblk, Hn in Hp. by destruct Hp. }
  destruct (head (filter (λ b, unused v b = true) (reverse l))) as [b|] eqn:E2.
  { apply head_filter_Some in E2 as [Hb Hz%Z.eqb_eq]. apply elem_of_reverse, Hin in Hb.
    destruct (all_pinned _ v b Hc Hs Hb) as [Hd Hp]. destruct (Hbufs b Hb) as [_ _ Hr _ _ _].
    rewrite Hr in Hz. unfold refs in Hz. rewrite decide_True in Hz by done. destruct (held _ !! b); lia. }
  assert (vq p [] (acquire LkBcache) v () [LkBcache] v) as Hacq
    by (apply vq_acquire; [by apply static_lock|done|apply not_elem_of_nil|cbn; lia]).
  destruct (Hacq k Hk eq_refl) as (k1 & A1 & Hk1 & V1).
  destruct (vq_read_buf p [LkBcache] HEAD b_next v k1 Hk1 V1) as (k2 & A2 & Hk2 & V2).
  destruct (Hscan k2 Hk2 V2) as (k3 & A3 & Hk3 & V3).
  destruct (vq_read_buf p [LkBcache] HEAD b_prev v k3 Hk3 V3) as (k4 & A4 & Hk4 & V4).
  destruct (Hscan2 k4 Hk4 V4) as (k5 & A5 & Hk5 & V5).
  exists k5. unfold bget. rewrite (bind_Ret _ _ _ _ _ A1), (bind_Ret _ _ _ _ _ A2), (bind_Ret _ _ _ _ _ A3).
  by rewrite (bind_Ret _ _ _ _ _ A4), (bind_Ret _ _ _ _ _ A5).
Qed.

Lemma commit_panics s bl α :
  log_at s bl (a_log α) -> homes s bl -> dom (pins (a_cache α)) = list_to_set bl -> length bl = NBUF ->
  pq p [] α commit "bget: no buffers".
Proof.
  intros [H1 H2 H3 H4] Hb Hp Hl. pose proof (ho_start s bl Hb) as Hs. change LOGBLOCKS with 30 in Hs.
  unfold commit. eapply pq_bind; [apply tr_read_log; exact H3|]. intros ? ? [-> ->]. rewrite Hl. cbn [when].
  change (0 <? Z.of_nat NBUF) with true. cbv iota. apply pq_first. unfold write_log, for_tail.
  eapply pq_bind; [apply tr_read_log; exact H3|]. intros ? ? [-> ->]. rewrite Hl.
  change (seq 0 (Z.to_nat (Z.of_nat NBUF))) with (0%nat :: seq 1 29). cbn [for_each]. apply pq_first.
  eapply pq_bind; [apply tr_read_log; exact H2|]. intros ? ? [-> ->].
  eapply pq_bind; [apply tr_read_log; exact H1|]. intros ? ? [-> ->].
  rewrite u32_small by lia. apply pq_first, bread_panics.
  - rewrite <- size_dom, Hp, size_list_to_set; [done|apply Hb].
  - apply not_elem_of_dom. rewrite Hp, elem_of_list_to_set. intros Hin. apply (ho_home s bl Hb) in Hin.
    apply Hin. change LOGBLOCKS with 30. lia.
Qed.

(** [end_op] of an operation that is not the last. *)
Lemma end_op_more s o bl α :
  in_tx s o bl α -> 2 <= o < 2 ^ 31 ->
  tr p α end_op (λ _ α', in_tx s (o - 1) bl α' ∧ a_cache α' = a_cache α).
Proof.
  intros [Hl Hcap Ho Hc Hh Hp] Hpos. unfold end_op. apply tr_lock_log.
  eapply tr_bind; [apply tr_write_log|]. intros [] ? ->.
  eapply tr_bind; [apply tr_read_log; exact Hc|]. intros ? ? [-> ->]. cbn [negb Z.eqb].
  eapply tr_bind; [apply (tr_read_log p _ _ _ (o - 1)); cbn; rewrite Ho, i32_small; [done|lia]|].
  intros ? ? [-> ->]. replace (o - 1 =? 0) with false by (symmetry; apply Z.eqb_neq; lia).
  eapply tr_bind; [eapply tr_bind; [apply tr_wakeup|]; intros [] ? [_ ->]; apply tr_return|].
  intros ? ? [-> ->]. eapply tr_bind; [apply tr_release|]. intros [] ? [_ ->]. apply tr_ret.
  split; [|done]. destruct Hl. split; try done. cbn. rewrite Ho, i32_small; [done|lia].
Qed.

Lemma last_end_op_panics s bl α :
  in_tx s 1 bl α -> length bl = NBUF -> pq p [] α end_op "bget: no buffers".
Proof.
  intros [Hl Hcap Ho Hc Hh Hp] Hlen. unfold end_op.
  eapply pq_bind; [apply tr_acquire; [by apply static_lock|done|apply not_elem_of_nil|cbn; lia]|]. intros [] ? [_ ->].
  eapply pq_bind; [apply tr_write_log|]. intros [] ? ->.
  eapply pq_bind; [apply tr_read_log; exact Hc|]. intros ? ? [-> ->]. cbn [negb Z.eqb].
  eapply pq_bind; [apply (tr_read_log p _ _ _ 0); cbn; by rewrite Ho|]. intros ? ? [-> ->]. cbn [Z.eqb].
  eapply pq_bind; [eapply tr_bind; [apply tr_write_log|]; intros [] ? ->; apply tr_return|].
  intros ? ? [-> ->]. eapply pq_bind; [apply tr_release|]. intros [] ? [_ ->]. cbn [when].
  apply pq_first, (commit_panics s bl); try done. by destruct Hl.
Qed.

(** Three operations, admitted together, that log the blocks of [us]. *)
Definition three_operations (us : list (Z * (list Z -> list Z))) : M () :=
  begin_op ;;
  begin_op ;;
  begin_op ;;
  for_each us update ;;
  end_op ;;
  end_op ;;
  end_op.

(** C28. Three file-system operations that [begin_op] admits together and that
    log [MAXOPBLOCKS] blocks each panic the kernel in the commit of the last
    one: the 30 logged blocks are pinned in the 30 buffers of the cache, and
    [write_log] needs one more for the block of the log. *)
Theorem full_log_panics s us k :
  0 <= s ∧ s + LOGBLOCKS < 2 ^ 31 -> at_rest p s k ->
  Forall (λ u, 0 <= u.1 < 2 ^ 31 ∧ home s u.1) us -> NoDup us.*1 -> length us = Z.to_nat (3 * MAXOPBLOCKS) ->
  ∃ k', three_operations us k = Panic "bget: no buffers" k'.
Proof.
  intros Hs [Hk Hc Hl Hcap Ho Hcm Hh Hsz] Hus Hnd Hlen. change (Z.to_nat (3 * MAXOPBLOCKS)) with NBUF in Hlen.
  set (α := abstract p k (mk_cache ∅ ∅)).
  assert (in_tx s 0 [] α) as H0 by (apply quiet_in_tx; [done|by split]).
  enough (pq p [] α (three_operations us) "bget: no buffers") as H by (apply H; [done|by apply rel_abstract]).
  unfold three_operations.
  eapply pq_bind; [apply (begin_op_spec p s 0 []); [done|lia|done]|]. intros [] α1 (H1 & _ & C1).
  eapply pq_bind; [apply (begin_op_spec p s 1 []); [done|lia|done]|]. intros [] α2 (H2 & _ & C2).
  eapply pq_bind; [apply (begin_op_spec p s 2 []); [done|lia|done]|]. intros [] α3 (H3 & _ & C3).
  eapply pq_bind; [apply (updates_spec p s us 3 [] α3); try done; [by rewrite C3, C2, C1|by rewrite C3, C2, C1|by rewrite Hlen]|].
  intros [] α4 (bl & H4 & _ & _ & _ & Hin & _).
  assert (length bl = NBUF) as Hbl.
  { assert (bl ≡ₚ us.*1) as ->; [|by rewrite length_fmap].
    apply NoDup_Permutation; [apply H4|done|]. intros b. rewrite Hin, elem_of_nil. tauto. }
  eapply pq_bind; [apply (end_op_more s 3 bl); [done|lia]|]. intros [] α5 (H5 & _).
  eapply pq_bind; [apply (end_op_more s 2 bl); [done|lia]|]. intros [] α6 (H6 & _).
  by apply (last_end_op_panics s bl).
Qed.
End panics.

(** Thirty blocks on the example disk. *)
Definition thirty_blocks : list (Z * (list Z -> list Z)) :=
  (λ i, (Z.of_nat i, λ _, replicate 1024 0)) <$> seq 100 30.
Lemma full_log_panics_witness :
  ∃ k', three_operations (W := disk_world) thirty_blocks demo_fs = Panic "bget: no buffers" k'.
Proof.
  apply (full_log_panics (W := disk_world) 0 2).
  - change LOGBLOCKS with 30. lia.
  - exact demo_rest.
  - unfold thirty_blocks. apply Forall_fmap, Forall_forall. intros i Hi%elem_of_seq. cbn. unfold home.
    change LOGBLOCKS with 30. lia.
  - unfold thirty_blocks. rewrite <- list_fmap_compose. apply NoDup_fmap_2; [|apply NoDup_seq].
    intros i j. cbn. lia.
  - reflexivity.
Defined.
