(* ===== verification/Mlfq.v ===== *)
(** * The multi-level feedback queue

    The policy: which process the scheduler picks, how a process moves between
    the levels. *)
From S2P Require Import Prelude Layout KState Spinlock Vm Proc SchedEq Demo.

(** ** Which process runs *)

Lemma head_filter_seq (f : nat -> bool) n :
  match head (filter (λ i, f i = true) (seq 0 n)) with
  | Some i => (i < n)%nat ∧ f i = true ∧ ∀ j, (j < i)%nat -> f j = false
  | None => ∀ j, (j < n)%nat -> f j = false
  end.
Proof.
  induction n as [|n IH]; [intros ? ?; lia|].
  rewrite seq_S, filter_app. cbn [Nat.add]. rewrite filter_cons, filter_nil.
  destruct (filter _ (seq 0 n)) as [|i l] eqn:E; cbn in *.
  - destruct (f n) eqn:En; cbn; [split_and!; [lia|done|exact IH]|].
    intros j Hj. destruct (decide (j = n)); [by subst|]. apply IH. lia.
  - destruct IH as (? & ? & ?). split_and!; [lia|done..].
Qed.

Definition runnable (ps : list proc) (i : nat) : Prop :=
  (i < NPROC)%nat ∧ p_state (ps !!! i) = RUNNABLE.

(** [i] is runnable, no runnable process has a higher priority, and none of
    the same priority has a smaller index. *)
Definition best (ps : list proc) (i : nat) : Prop :=
  runnable ps i ∧ ∀ j, runnable ps j ->
    p_priority (ps !!! i) < p_priority (ps !!! j) ∨
    p_priority (ps !!! i) = p_priority (ps !!! j) ∧ (i <= j)%nat.

Lemma eligible_spec ps pr i :
  (i < NPROC)%nat -> eligible ps pr i = true <-> runnable ps i ∧ p_priority (ps !!! i) = pr.
Proof.
  intros. unfold eligible, runnable. rewrite andb_true_iff, bool_decide_eq_true, Z.eqb_eq. tauto.
Qed.

Lemma pick_level_spec ps pr :
  match pick_level ps pr with
  | Some i => runnable ps i ∧ p_priority (ps !!! i) = pr ∧
              ∀ j, runnable ps j -> p_priority (ps !!! j) = pr -> (i <= j)%nat
  | None => ∀ j, runnable ps j -> p_priority (ps !!! j) ≠ pr
  end.
Proof.
  unfold pick_level. pose proof (head_filter_seq (eligible ps pr) NPROC) as H.
  destruct (head _) as [i|].
  - destruct H as (Hi & He & Hj). apply eligible_spec in He as [Hr Hp]; [|done].
    split_and!; [done..|]. intros j Hjr Hjp. destruct (decide (j < i)%nat) as [Hlt|]; [|lia].
    specialize (Hj j Hlt). rewrite (proj2 (eligible_spec _ _ j (proj1 Hjr))) in Hj; done.
  - intros j Hr Hp. specialize (H j (proj1 Hr)).
    rewrite (proj2 (eligible_spec _ _ j (proj1 Hr))) in H; done.
Qed.

Lemma pick_best ps :
  (∀ i, runnable ps i -> 0 <= p_priority (ps !!! i) <= 2) ->
  match pick ps with
  | Some i => best ps i
  | None => ∀ i, ¬ runnable ps i
  end.
Proof.
  intros Hpr. unfold pick. cbn. pose proof (pick_level_spec ps MLFQ_HIGH) as H0.
  pose proof (pick_level_spec ps MLFQ_MEDIUM) as H1.
  pose proof (pick_level_spec ps MLFQ_LOW) as H2.
  destruct (pick_level ps MLFQ_HIGH) as [i|]; cbn; [|destruct (pick_level ps MLFQ_MEDIUM) as [i|];
    cbn; [|destruct (pick_level ps MLFQ_LOW) as [i|]; cbn]].
  4:{ intros i Hi. specialize (H0 i Hi). specialize (H1 i Hi). specialize (H2 i Hi).
      specialize (Hpr i Hi). unfold MLFQ_HIGH, MLFQ_MEDIUM, MLFQ_LOW in *. lia. }
  1: destruct H0 as (Hr & Hp & Hm). 2: destruct H1 as (Hr & Hp & Hm). 3: destruct H2 as (Hr & Hp & Hm).
  all: split; [done|]; intros j Hj; rewrite Hp;
    repeat match goal with H : ∀ i, runnable _ i -> _ |- _ => specialize (H j Hj) end;
    unfold MLFQ_HIGH, MLFQ_MEDIUM, MLFQ_LOW in *; lia.
Qed.

(** C5. The scheduler dispatches the runnable process of the highest priority,
    the one with the smallest index among those; it finds none exactly when no
    process is runnable, and then changes no process.  The dispatched process
    is RUNNING, is the CPU's current process, and its lock is held. *)
Theorem scheduler_choice k :
  table_ok k -> c_noff (my_cpu (mach k)) = 0 ->
  (∀ i, runnable (procs k) i -> 0 <= p_priority (procs k !!! i) <= 2) ->
  match scheduler_pass k with
  | Ret (Some i) k' =>
      best (procs k) i ∧
      p_state (procs k' !!! i) = RUNNING ∧
      p_sched_count (procs k' !!! i) = i32 (p_sched_count (procs k !!! i) + 1) ∧
      p_priority (procs k' !!! i) = p_priority (procs k !!! i) ∧
      c_proc (my_cpu (mach k')) = Some i ∧
      lock_held (LkProc i) (mach k') ∧
      (∀ j, j ≠ i -> procs k' !!! j = procs k !!! j)
  | Ret None k' => (∀ i, ¬ runnable (procs k) i) ∧ procs k' = procs k
  | _ => False
  end.
Proof.
  intros Hk Hn Hpr. rewrite scheduler_pass_eq by done. pose proof (pick_best _ Hpr) as Hb.
  destruct (pick (procs k)) as [i|]; [|done].
  pose proof Hk as [[Hc _ _ _] _ Hl]. pose proof Hb as [[Hi _] _].
  split; [done|]. unfold dispatch_state. cbn [procs mach set set_procs set_mach].
  rewrite upd_eq by (rewrite Hl; done). unfold dispatch_proc.
  split_and!; try (by destruct (_ =? 0)).
  - rewrite my_cpu_acquired by (cbn; by rewrite length_upd). cbn [c_proc].
    by rewrite my_cpu_set_proc.
  - apply acquired_held.
  - intros j Hj. by rewrite upd_ne.
Qed.

(** ** How a process moves between the levels *)

(** The level of a process after [n] ticks, and the ticks it has then used of
    its time slice there. *)
Definition level_after (n : Z) : Z := if n <? 4 then 0 else if n <? 12 then 1 else 2.
Definition used_after (n : Z) : Z :=
  if n <? 4 then n else if n <? 12 then n - 4 else (n - 12) mod 16.

Definition charged (n : Z) (p : proc) : Prop :=
  p_priority p = level_after n ∧ p_timeslice p = get_timeslice (level_after n) ∧ p_timeslice_used p = used_after n.

Lemma low_levels n : 12 <= n ->
  level_after n = 2 ∧ used_after n = (n - 12) mod 16.
Proof.
  intros. unfold level_after, used_after. rewrite !(proj2 (Z.ltb_ge _ _)) by lia. done.
Qed.

(** The scheduling fields after a tick. *)
Lemma tick_proc_fields p :
  p_state p = RUNNING ->
  let u := i32 (p_timeslice_used p + 1) in
  let expired := p_timeslice p <=? u in
  let pr := if expired && (p_priority p <? MLFQ_LOW) then i32 (p_priority p + 1) else p_priority p in
  p_cpu_ticks (tick_proc p) = i32 (p_cpu_ticks p + 1) ∧
  p_priority (tick_proc p) = pr ∧
  p_timeslice (tick_proc p) =
    (if expired && (p_priority p <? MLFQ_LOW) then get_timeslice pr else p_timeslice p) ∧
  p_timeslice_used (tick_proc p) = (if expired then 0 else u) ∧
  p_state (tick_proc p) = (if expired then RUNNABLE else RUNNING).
Proof.
  intros Hs. unfold tick_proc. rewrite bool_decide_true by done. cbv zeta.
  cbn [p_timeslice p_timeslice_used p_priority set set_p_cpu_ticks set_p_timeslice_used].
  destruct (p_timeslice p <=? i32 (p_timeslice_used p + 1)), (p_priority p <? MLFQ_LOW); done.
Qed.

Lemma tick_charged n p : 0 <= n -> p_state p = RUNNING -> charged n p -> charged (n + 1) (tick_proc p).
Proof.
  intros Hn Hs (Hp & Hts & Hu). unfold charged.
  destruct (tick_proc_fields p Hs) as (_ & -> & -> & -> & _). rewrite Hp, Hts, Hu.
  clear -Hn. destruct (decide (n < 12)).
  - assert (n ∈ (Z.of_nat <$> seq 0 12)) as Hin
      by (apply list_elem_of_fmap; exists (Z.to_nat n); rewrite elem_of_seq; lia).
    cbn in Hin. repeat (apply elem_of_cons in Hin as [->|Hin]; [by vm_compute|]).
    by apply elem_of_nil in Hin.
  - destruct (low_levels n ltac:(lia)) as [-> ->], (low_levels (n + 1) ltac:(lia)) as [-> ->].
    rewrite !i32_small by zlia. change (get_timeslice 2) with 16. change (2 <? MLFQ_LOW) with false.
    rewrite !andb_false_r. destruct (Z.leb_spec 16 ((n - 12) mod 16 + 1)).
    + replace ((n + 1 - 12) mod 16) with 0 by zlia. done.
    + replace ((n + 1 - 12) mod 16) with ((n - 12) mod 16 + 1) by zlia. done.
Qed.

Lemma yield_proc_fields p :
  p_cpu_ticks (yield_proc p) = p_cpu_ticks p ∧ p_priority (yield_proc p) = p_priority p ∧
  p_timeslice (yield_proc p) = p_timeslice p ∧ p_timeslice_used (yield_proc p) = p_timeslice_used p.
Proof. unfold yield_proc. by destruct (bool_decide _). Qed.

Lemma wakeup_proc_fields ch p :
  p_cpu_ticks (wakeup_proc ch p) = p_cpu_ticks p ∧ p_priority (wakeup_proc ch p) = p_priority p ∧
  p_timeslice (wakeup_proc ch p) = p_timeslice p ∧
  p_timeslice_used (wakeup_proc ch p) = p_timeslice_used p.
Proof. unfold wakeup_proc. by destruct (_ && _). Qed.

Lemma scheduler_choice_witness :
  match scheduler_pass (demo demo_ps None) with Ret (Some i) _ => i = 2%nat | _ => False end ∧
  match scheduler_pass (demo demo_ps None) with Ret (Some i) _ => best demo_ps i | _ => False end.
Proof.
  assert (table_ok (demo demo_ps None)) as Hk by (by apply demo_table).
  assert (∀ i, runnable demo_ps i -> 0 <= p_priority (demo_ps !!! i) <= 2) as Hpr.
  { intros i [Hi _]. do 4 (destruct i as [|i]; [by vm_compute|]).
    unfold demo_ps, table. rewrite list_lookup_total_alt, lookup_app_r by (cbn; lia).
    destruct (_ !! _) eqn:E; [|by vm_compute]. apply lookup_replicate in E as [-> _]. by vm_compute. }
  split; [by vm_compute|].
  pose proof (scheduler_choice (demo demo_ps None) Hk eq_refl Hpr) as H.
  destruct (scheduler_pass (demo demo_ps None)) as [[i|] k'| | |]; [apply (proj1 H)| |done..].
  apply (proj1 H 2%nat). split; [unfold NPROC; lia|by vm_compute].
Defined.
