(* ===== verification/Sched.v ===== *)
(** * The scheduler at work on several harts

    A step system of harts that run the scheduler, processes and timer
    interrupts, in which each step is code of [Proc] and [Trap] run on one
    hart.  When a timer interrupt is handled without interleaving, a process
    is never on two harts; interleaved as the code allows, it can be. *)
From S2P Require Import Prelude Layout KState Spinlock Vm Proc SchedEq Trap Demo Mlfq.

(** Each step runs up to a [swtch]. *)
#[local] Existing Instance stopped.

(** ** The timer interrupt *)

Definition wake_table (me : option nat) (ch : option chan) (ps : list proc) : list proc :=
  imap (λ i p, if bool_decide (me = Some i) then p else wakeup_proc ch p) ps.

Definition arm_timer (m : machine) : machine :=
  m <| m_csrs ::= upd (m_hart m) (λ r, r <| r_stimecmp := u64 (r_time r + 1000000) |>) |>.

(** [clockintr] on the process table and the counters. *)
Definition clock_procs (k : kernel) : list proc :=
  let me := c_proc (my_cpu (mach k)) in
  tick_procs (starvation_counter k + 1) me
    (if bool_decide (m_hart (mach k) = 0%nat) then wake_table me (Some ChTicks) (procs k)
     else procs k).
Definition clock_state (k : kernel) : kernel :=
  k <| ticks ::= λ t, if bool_decide (m_hart (mach k) = 0%nat) then u32 (t + 1) else t |>
    <| starvation_counter :=
         if STARVATION_THRESHOLD <=? starvation_counter k + 1 then 0
         else starvation_counter k + 1 |>
    <| procs := clock_procs k |>
    <| mach ::= λ m, arm_timer (touch m) |>.

Lemma clockintr_eq k :
  table_ok k -> hart_ok 3 (mach k) -> lock_free LkTicks (mach k) ->
  0 <= starvation_counter k < 2 ^ 31 - 1 ->
  clockintr k = Ret () (clock_state k).
Proof.
  intros Hk Hh Hl Hs. pose proof Hk as [Hh2 Hf Hlen]. pose proof Hh as [Hc _ _ _].
  assert (∀ k1, mach k1 = touch (mach k) ∨ mach k1 = mach k ->
    starvation_counter k1 = starvation_counter k -> length (procs k1) = NPROC ->
    (mlfq_tick ;; t ← read_csr r_time;
     write_csr (λ r, r <| r_stimecmp := u64 (t + 1000000) |>)) k1 =
    Ret () (k1 <| starvation_counter :=
                   if STARVATION_THRESHOLD <=? starvation_counter k + 1 then 0
                   else starvation_counter k + 1 |>
              <| procs ::= tick_procs (starvation_counter k + 1) (c_proc (my_cpu (mach k))) |>
              <| mach := arm_timer (touch (mach k)) |>)) as Htail.
  { intros k1 Hm E1 E2.
    assert (touch (mach k1) = touch (mach k) ∧ hart_ok 1 (mach k1) ∧
      c_proc (my_cpu (mach k1)) = c_proc (my_cpu (mach k))) as (Et & Hh1 & Ec).
    { destruct Hm as [->| ->]; split_and!; auto using touch_idemp, c_proc_touch.
      - apply touch_ok. by apply (hart_ok_mono 3).
      - by apply (hart_ok_mono 3). }
    erewrite bind_Ret by (apply mlfq_tick_eq; [done|done|by rewrite E1]).
    rewrite bind_read_csr, E1, Ec. unfold write_csr, on_mach, Hart.write_csr, modify.
    kcbn. rewrite Et. unfold arm_timer. do 2 f_equal. }
  unfold clockintr. rewrite bind_cpuid. unfold clock_state, clock_procs.
  case_bool_decide as E; cbn [when].
  - assert (can_lock LkTicks (mach k)) as Hlk by (split; done).
    rewrite !bind_bind. step_acquire Hlk. rewrite bind_bind, bind_modify, bind_bind.
    erewrite bind_Ret.
    2:{ apply wakeup_eq. split; [|intros i Hi; apply acquired_free; [done|by apply Hf]|done].
        apply acquired_ok; [done|]. by apply (hart_ok_mono 3). }
    kcbn. rewrite my_cpu_acquired by done. cbn [c_proc].
    erewrite bind_Ret.
    2:{ refine (release_step _ _ _ _ Hlk). kcbn. apply touch_acquired. by apply (hart_ok_mono 3). }
    rewrite Htail; [|by left|done|kcbn; by rewrite length_imap]. keq.
  - rewrite bind_ret, Htail; [|by right|done|done]. keq.
Qed.

(** ** Harts and processes *)

(** What a process does when the scheduler switches to it. *)
Inductive kont : Type :=
| KYield (intena : Z)                 (* returns from [yield] *)
| KSleep (lk : lockid) (intena : Z).  (* returns from [sleep], releases the lock *)
Definition resume (i : nat) (c : kont) : M () :=
  match c with
  | KYield intena => yield_ret i intena
  | KSleep lk intena => sleep_ret i lk intena ;; release lk
  end.

Inductive hmode : Type :=
| HSched            (* at the head of the scheduler's loop *)
| HRun (i : nat)    (* runs process [i], outside critical sections *)
| HTicked (i : nat). (* in the trap of [i], between [clockintr] and [yield] *)
Definition mode_proc (m : hmode) : option nat :=
  match m with HSched => None | HRun i | HTicked i => Some i end.

(** [konts] is what [p->context] and the kernel stack of a process hold: where
    it was last switched out. *)
Record sys : Type := mk_sys {
  sk : kernel;
  modes : list hmode;
  konts : gmap nat kont;
}.

Definition on_hart (h : nat) (k : kernel) : kernel := k <| mach ::= λ m, m <| m_hart := h |> |>.

Create HintDb quiet.

Section harts.
(** The locks there are: the static ones, those of the open pipes. *)
Context (locks : list lockid) (Hlocks : static_locks ⊆ locks).

(** A process can sleep under each of them, except that of a process. *)
Definition cond_lock (lk : lockid) : Prop := lk ∈ locks ∧ ∀ i, lk ≠ LkProc i.

(** Steps common to both systems. *)
Inductive base_step (s : sys) : sys -> Prop :=
| S_dispatch h i c k1 k2 :
    modes s !! h = Some HSched ->
    scheduler_pass (on_hart h (sk s)) = Ret (Some i) k1 ->
    konts s !! i = Some c -> resume i c k1 = Ret () k2 ->
    base_step s (mk_sys k2 (<[h := HRun i]> (modes s)) (konts s))
| S_idle h k1 :
    modes s !! h = Some HSched ->
    scheduler_pass (on_hart h (sk s)) = Ret None k1 ->
    base_step s (mk_sys k1 (modes s) (konts s))
| S_clock_idle h k1 :
    modes s !! h = Some HSched ->
    clockintr (on_hart h (sk s)) = Ret () k1 ->
    base_step s (mk_sys k1 (modes s) (konts s))
| S_sleep h i ch lk k1 k2 :
    modes s !! h = Some (HRun i) -> cond_lock lk ->
    (acquire lk ;; sleep ch lk) (on_hart h (sk s)) = Switch k1 ->
    scheduler_ret i k1 = Ret () k2 ->
    base_step s (mk_sys k2 (<[h := HSched]> (modes s))
                   (<[i := KSleep lk (c_intena (my_cpu (mach k1)))]> (konts s)))
| S_wakeup h i ch k1 :
    modes s !! h = Some (HRun i) ->
    wakeup ch (on_hart h (sk s)) = Ret () k1 ->
    base_step s (mk_sys k1 (modes s) (konts s)).

(** The timer interrupt of a running process as one step. *)
Inductive timer_step (s : sys) : sys -> Prop :=
| T_timer h i k1 k2 k3 :
    modes s !! h = Some (HRun i) ->
    clockintr (on_hart h (sk s)) = Ret () k1 ->
    yield k1 = Switch k2 ->
    scheduler_ret i k2 = Ret () k3 ->
    timer_step s (mk_sys k3 (<[h := HSched]> (modes s))
                    (<[i := KYield (c_intena (my_cpu (mach k2)))]> (konts s))).
Inductive atomic_step (s : sys) : sys -> Prop :=
| A_base s' : base_step s s' -> atomic_step s s'
| A_timer s' : timer_step s s' -> atomic_step s s'.

(** As the code runs: other harts can act between [clockintr] and [yield]. *)
Inductive inter_step (s : sys) : sys -> Prop :=
| I_base s' : base_step s s' -> inter_step s s'
| I_clock h i k1 :
    modes s !! h = Some (HRun i) ->
    clockintr (on_hart h (sk s)) = Ret () k1 ->
    inter_step s (mk_sys k1 (<[h := HTicked i]> (modes s)) (konts s))
| I_yield h i k1 k2 :
    modes s !! h = Some (HTicked i) ->
    yield (on_hart h (sk s)) = Switch k1 ->
    scheduler_ret i k1 = Ret () k2 ->
    inter_step s (mk_sys k2 (<[h := HSched]> (modes s))
                    (<[i := KYield (c_intena (my_cpu (mach k1)))]> (konts s))).

(** A process that two harts run at the same time. *)
Definition shared (s : sys) : Prop :=
  ∃ h h' i, h ≠ h' ∧ (modes s !! h) ≫= mode_proc = Some i ∧ (modes s !! h') ≫= mode_proc = Some i.

(** ** Quiet machines: no lock held, no hart inside a critical section *)
Record quiet (m : machine) : Prop := {
  quiet_cpus : length (m_cpus m) = NCPU;
  quiet_csrs : length (m_csrs m) = NCPU;
  quiet_noff : Forall (λ c, c_noff c = 0) (m_cpus m);
  quiet_free l : l ∈ locks -> lock_free l m;
}.
Lemma quiet_static m l : quiet m -> l ∈ static_locks -> lock_free l m.
Proof. intros Hq Hl. by apply (quiet_free _ Hq), Hlocks. Qed.

Lemma quiet_noff_at m h : quiet m -> c_noff (m_cpus m !!! h) = 0.
Proof.
  intros [_ _ Hn _]. rewrite list_lookup_total_alt. destruct (m_cpus m !! h) eqn:E; [|done].
  by apply (Forall_lookup_1 _ _ _ _ Hn E).
Qed.

Lemma quiet_hart m h d : quiet m -> (h < NCPU)%nat -> d < 2 ^ 31 -> hart_ok d (m <| m_hart := h |>).
Proof.
  intros Hq Hh Hd. pose proof (quiet_noff_at m h Hq) as Hn. destruct Hq as [Hc Hr _ _].
  split; unfold my_cpu; cbn; rewrite ?Hn; [lia..|]. lia.
Qed.

Lemma quiet_cpu_upd m h f :
  (∀ c, c_noff (f c) = c_noff c) -> quiet m -> quiet (m <| m_cpus ::= upd h f |>).
Proof.
  intros Hf Hq. pose proof (quiet_noff_at m h Hq) as Hn. destruct Hq as [Hc Hr H0 Hl].
  split; cbn; rewrite ?length_upd; [done..| |done]. apply Forall_insert; [done|]. by rewrite Hf.
Qed.

Lemma quiet_csr_upd m h f : quiet m -> quiet (m <| m_csrs ::= upd h f |>).
Proof. intros [Hc Hr H0 Hl]. split; cbn; rewrite ?length_upd; done. Qed.

Lemma quiet_hart_eq m h : quiet m -> quiet (m <| m_hart := h |>).
Proof. by intros []. Qed.

(** The current processes of the harts. *)
Definition cur_procs (m : machine) : list (option nat) := c_proc <$> m_cpus m.

Lemma quiet_touch m : quiet m -> quiet (touch m).
Proof. by apply quiet_cpu_upd. Qed.
Lemma quiet_set_proc p m : quiet m -> quiet (set_proc p m).
Proof. by apply quiet_cpu_upd. Qed.
Lemma quiet_arm m : quiet m -> quiet (arm_timer m).
Proof. apply quiet_csr_upd. Qed.
Lemma quiet_entry m : quiet m -> quiet (sched_entry m).
Proof. apply quiet_csr_upd. Qed.
Lemma quiet_resumed i m : quiet m -> quiet (resumed i m).
Proof. intros. by apply quiet_csr_upd, quiet_cpu_upd. Qed.

Lemma cur_touch m : cur_procs (touch m) = cur_procs m.
Proof. by apply fmap_upd. Qed.
Lemma cur_arm m : cur_procs (arm_timer m) = cur_procs m.
Proof. done. Qed.
Lemma cur_entry m : cur_procs (sched_entry m) = cur_procs m.
Proof. done. Qed.
Lemma cur_resumed i m : cur_procs (resumed i m) = cur_procs m.
Proof. by apply fmap_upd. Qed.
Lemma cur_set_proc p m : cur_procs (set_proc p m) = <[m_hart m := p]> (cur_procs m).
Proof. unfold cur_procs, set_proc, upd. cbn. unfold upd. by rewrite list_fmap_insert. Qed.
#[local] Hint Resolve quiet_touch quiet_set_proc quiet_arm quiet_entry quiet_resumed : quiet.

(** ** The invariant of the atomic system *)
Definition kont_ok (c : kont) : Prop :=
  match c with KYield _ => True | KSleep lk _ => cond_lock lk end.

Record sys_inv (s : sys) : Prop := {
  inv_quiet : quiet (mach (sk s));
  inv_procs : length (procs (sk s)) = NPROC;
  inv_modes : length (modes s) = NCPU;
  inv_counter : 0 <= starvation_counter (sk s) < STARVATION_THRESHOLD;
  inv_cur : cur_procs (mach (sk s)) = mode_proc <$> modes s;
  inv_run h i : modes s !! h = Some (HRun i) ->
    (i < NPROC)%nat ∧ p_state (procs (sk s) !!! i) = RUNNING;
  inv_ticked h i : modes s !! h ≠ Some (HTicked i);
  inv_excl h h' i : modes s !! h = Some (HRun i) -> modes s !! h' = Some (HRun i) -> h = h';
  inv_konts : map_Forall (λ _, kont_ok) (konts s);
}.

(** The processes other than [i] that ran before still run. *)
Definition keep_running (i : option nat) (ps ps' : list proc) : Prop :=
  length ps' = length ps ∧
  ∀ j, (j < NPROC)%nat -> Some j ≠ i -> p_state (ps !!! j) = RUNNING -> p_state (ps' !!! j) = RUNNING.

Lemma inv_stay s k' ks :
  sys_inv s -> map_Forall (λ _, kont_ok) ks -> quiet (mach k') -> 0 <= starvation_counter k' < STARVATION_THRESHOLD ->
  cur_procs (mach k') = cur_procs (mach (sk s)) -> keep_running None (procs (sk s)) (procs k') ->
  sys_inv (mk_sys k' (modes s) ks).
Proof.
  intros [] Hks Hq Hc Hcur [Hl Hr].
  split; cbn [sk modes]; [done|congruence|done|done|by rewrite Hcur| |done|done|done].
  intros h i Hm. destruct (inv_run0 h i Hm). split; [done|]. by apply Hr.
Qed.

Lemma inv_leave s h i k' ks :
  sys_inv s -> map_Forall (λ _, kont_ok) ks -> modes s !! h = Some (HRun i) -> quiet (mach k') ->
  0 <= starvation_counter k' < STARVATION_THRESHOLD ->
  cur_procs (mach k') = <[h := None]> (cur_procs (mach (sk s))) ->
  keep_running (Some i) (procs (sk s)) (procs k') ->
  sys_inv (mk_sys k' (<[h := HSched]> (modes s)) ks).
Proof.
  intros [] Hks Hm Hq Hc Hcur [Hl Hr]. split; cbn [sk modes].
  - done.
  - congruence.
  - by rewrite length_insert.
  - done.
  - by rewrite Hcur, inv_cur0, list_fmap_insert.
  - intros h1 i1 H1. apply list_lookup_insert_Some in H1 as [(_ & ? & _)|[Hne H1]]; [done|].
    destruct (inv_run0 h1 i1 H1). split; [done|]. apply Hr; [done| |done].
    intros [= ->]. by apply Hne, (inv_excl0 h h1 i).
  - intros h1 i1 H1. apply list_lookup_insert_Some in H1 as [(_ & ? & _)|[Hne H1]]; [done|].
    by apply (inv_ticked0 h1 i1).
  - intros h1 h2 i1 H1 H2. apply list_lookup_insert_Some in H1 as [(_ & ? & _)|[_ H1]]; [done|].
    apply list_lookup_insert_Some in H2 as [(_ & ? & _)|[_ H2]]; [done|]. by apply (inv_excl0 h1 h2 i1).
  - done.
Qed.

Lemma inv_enter s h i k' ks :
  sys_inv s -> map_Forall (λ _, kont_ok) ks -> modes s !! h = Some HSched -> quiet (mach k') ->
  0 <= starvation_counter k' < STARVATION_THRESHOLD ->
  cur_procs (mach k') = <[h := Some i]> (cur_procs (mach (sk s))) ->
  keep_running (Some i) (procs (sk s)) (procs k') ->
  (i < NPROC)%nat -> p_state (procs (sk s) !!! i) ≠ RUNNING -> p_state (procs k' !!! i) = RUNNING ->
  sys_inv (mk_sys k' (<[h := HRun i]> (modes s)) ks).
Proof.
  intros [] Hks Hm Hq Hc Hcur [Hl Hr] Hi Hs Hs'.
  assert (∀ h1 i1, modes s !! h1 = Some (HRun i1) -> i1 ≠ i) as Hne.
  { intros h1 i1 H1 ->. destruct (inv_run0 h1 i H1). done. }
  split; cbn [sk modes].
  - done.
  - congruence.
  - by rewrite length_insert.
  - done.
  - by rewrite Hcur, inv_cur0, list_fmap_insert.
  - intros h1 i1 H1. apply list_lookup_insert_Some in H1 as [(_ & [= <-] & _)|[_ H1]]; [done|].
    destruct (inv_run0 h1 i1 H1). split; [done|]. apply Hr; [done| |done].
    intros [= ->]. by apply (Hne h1 i).
  - intros h1 i1 H1. apply list_lookup_insert_Some in H1 as [(_ & ? & _)|[_ H1]]; [done|].
    by apply (inv_ticked0 h1 i1).
  - intros h1 h2 i1 H1 H2.
    apply list_lookup_insert_Some in H1 as [(<- & [= <-] & _)|[_ H1]];
    apply list_lookup_insert_Some in H2 as [(<- & E & _)|[_ H2]]; try done.
    + by apply Hne in H2.
    + injection E as ->. by apply Hne in H1.
    + by apply (inv_excl0 h1 h2 i1).
  - done.
Qed.

(** What the invariant gives a hart that is about to run code. *)
Lemma inv_on_hart s h md :
  sys_inv s -> modes s !! h = Some md ->
  let k := on_hart h (sk s) in
  quiet (mach k) ∧ table_ok k ∧ hart_ok 3 (mach k) ∧ c_noff (my_cpu (mach k)) = 0 ∧
  c_proc (my_cpu (mach k)) = mode_proc md ∧ cur_procs (mach k) = cur_procs (mach (sk s)) ∧
  m_hart (mach k) = h.
Proof.
  intros [] Hm k. assert (h < NCPU)%nat as Hh by (rewrite <- inv_modes0; by eapply lookup_lt_Some).
  pose proof (quiet_hart _ h 3 inv_quiet0 Hh ltac:(lia)) as H3.
  split_and!; [by apply quiet_hart_eq|split|done| | |done|done].
  - by apply (hart_ok_mono 3).
  - intros i Hi. by apply (quiet_static _ _ inv_quiet0), static_proc.
  - done.
  - exact (quiet_noff_at _ h inv_quiet0).
  - unfold my_cpu, k, on_hart. cbn.
    assert (cur_procs (mach (sk s)) !! h = Some (mode_proc md)) as E
      by (by rewrite inv_cur0, list_lookup_fmap, Hm).
    unfold cur_procs in E. rewrite list_lookup_fmap in E. apply fmap_Some in E as (c & E & ->).
    by rewrite (list_lookup_total_correct _ _ _ E).
Qed.

Lemma inv_runs s h i : sys_inv s -> modes s !! h = Some (HRun i) -> runs i (on_hart h (sk s)).
Proof.
  intros Hs Hm. destruct (inv_on_hart s h _ Hs Hm) as (_ & Ht & _ & Hn & Hp & _ & _).
  split; [done|by apply (inv_run _ Hs h i)|done|done].
Qed.

(** How the operations change who is RUNNING. *)
Lemma wake_table_running me ch ps :
  keep_running None ps (wake_table me ch ps).
Proof.
  split; [apply length_imap|]. intros j _ _ Hs. unfold wake_table.
  rewrite list_lookup_total_alt, list_lookup_imap in *.
  destruct (ps !! j) as [p|] eqn:E; cbn in *; [|done]. case_bool_decide; [done|].
  unfold wakeup_proc. by rewrite Hs.
Qed.

Lemma tick_procs_running c me ps : keep_running me ps (tick_procs c me ps).
Proof.
  assert (∀ j, p_state ((boost_proc <$> ps) !!! j) = p_state (ps !!! j)) as Hb.
  { intros j. rewrite !list_lookup_total_alt, list_lookup_fmap. destruct (ps !! j); [|done].
    cbn. unfold boost_proc. by destruct (_ || _). }
  unfold tick_procs. split.
  - destruct (_ <=? _), me; by rewrite ?length_upd, ?length_fmap.
  - intros j _ Hj Hs. destruct me as [i|]; [rewrite upd_ne by congruence|];
      destruct (_ <=? _); by rewrite ?Hb.
Qed.

Lemma keep_running_trans i ps ps' ps'' :
  keep_running i ps ps' -> keep_running i ps' ps'' -> keep_running i ps ps''.
Proof. intros [E1 H1] [E2 H2]. split; [congruence|]. auto. Qed.

Lemma keep_running_weaken i ps ps' : keep_running None ps ps' -> keep_running i ps ps'.
Proof. intros [E H]. split; [done|]. intros j Hj _. by apply H. Qed.

Lemma keep_running_upd i f ps : keep_running (Some i) ps (upd i f ps).
Proof. split; [apply length_upd|]. intros j _ Hne. by rewrite upd_ne by congruence. Qed.

Lemma clock_running k : keep_running (c_proc (my_cpu (mach k))) (procs k) (clock_procs k).
Proof.
  unfold clock_procs. eapply keep_running_trans; [|apply tick_procs_running].
  case_bool_decide; [apply keep_running_weaken, wake_table_running|done].
Qed.

Lemma clock_counter k : 0 <= starvation_counter k < STARVATION_THRESHOLD ->
  0 <= starvation_counter (clock_state k) < STARVATION_THRESHOLD.
Proof.
  intros. unfold clock_state. kcbn.
  destruct (Z.leb_spec STARVATION_THRESHOLD (starvation_counter k + 1)); unfold STARVATION_THRESHOLD in *; lia.
Qed.

Lemma pick_runnable ps i : pick ps = Some i -> runnable ps i.
Proof.
  unfold pick. cbn. pose proof (pick_level_spec ps MLFQ_HIGH) as H0.
  pose proof (pick_level_spec ps MLFQ_MEDIUM) as H1. pose proof (pick_level_spec ps MLFQ_LOW) as H2.
  destruct (pick_level ps MLFQ_HIGH); cbn; [by intros [= <-]; apply H0|].
  destruct (pick_level ps MLFQ_MEDIUM); cbn; [by intros [= <-]; apply H1|].
  destruct (pick_level ps MLFQ_LOW); cbn; [by intros [= <-]; apply H2|done].
Qed.

Lemma quiet_can_lock m h l : quiet m -> (h < NCPU)%nat -> l ∈ locks ->
  m_hart m = h -> can_lock l m.
Proof.
  intros Hq Hh Hl E. split; [|by apply (quiet_free _ Hq)].
  pose proof (quiet_hart m h 2 Hq Hh ltac:(lia)) as H. by subst h.
Qed.

Lemma quiet_hart_ok m d : quiet m -> (m_hart m < NCPU)%nat -> d < 2 ^ 31 -> hart_ok d m.
Proof. intros Hq Hh Hd. exact (quiet_hart m (m_hart m) d Hq Hh Hd). Qed.

(** A process that the scheduler has switched to comes back to its code, with
    no lock held. *)
Lemma resume_eq i c k m :
  mach k = acquired (LkProc i) m -> quiet m -> (m_hart m < NCPU)%nat -> (i < NPROC)%nat -> kont_ok c ->
  ∃ k', resume i c k = Ret () k' ∧ quiet (mach k') ∧ cur_procs (mach k') = cur_procs m ∧
    starvation_counter k' = starvation_counter k ∧
    ∃ f, procs k' = upd i f (procs k) ∧ ∀ p, ∃ ch, f p = p <| p_chan := ch |>.
Proof.
  intros Hk Hq Hh Hi Hc.
  assert (can_lock (LkProc i) m) as Hl by (by eapply quiet_can_lock, eq_refl; [..|apply Hlocks, static_proc]).
  assert (c_noff (my_cpu m) = 0) as Hn by (by apply quiet_noff_at).
  destruct c as [intena|lk intena]; cbn [resume].
  - rewrite (yield_ret_eq i intena k m) by done. eexists. split_and!; [reflexivity|..]; kcbn.
    + auto with quiet.
    + apply cur_resumed.
    + done.
    + exists id. split; [|intros p; exists (p_chan p); by destruct p]. symmetry. destruct (decide (i < length (procs k))%nat).
      * by apply upd_id.
      * apply upd_ge. lia.
  - destruct Hc as [Hst Hne].
    assert (can_lock lk (resumed intena m)) as Hlk
      by (eapply quiet_can_lock; [by apply quiet_resumed|exact Hh|done|done]).
    erewrite bind_Ret by (by apply (sleep_ret_eq i lk intena k m)).
    erewrite release_step; [| |exact Hlk]; [|done]. eexists. split_and!; [reflexivity|..]; kcbn.
    + auto with quiet.
    + by rewrite cur_touch, cur_resumed.
    + done.
    + eexists. split; [reflexivity|]. intros p. by exists None.
Qed.

Lemma keep_running_not i ps ps' :
  keep_running None ps ps' -> keep_running (Some i) ps ps'.
Proof. apply keep_running_weaken. Qed.

Section preservation.
Context (s : sys) (Hs : sys_inv s).

Lemma dispatch_inv h i c k1 k2 :
  modes s !! h = Some HSched -> scheduler_pass (on_hart h (sk s)) = Ret (Some i) k1 ->
  konts s !! i = Some c -> resume i c k1 = Ret () k2 ->
  sys_inv (mk_sys k2 (<[h := HRun i]> (modes s)) (konts s)).
Proof.
  intros Hm Hp Hc Hr. destruct (inv_on_hart s h _ Hs Hm) as (Hq & Ht & H3 & Hn & _ & Hcur & Hh).
  rewrite scheduler_pass_eq in Hp by done.
  destruct (pick (procs (on_hart h (sk s)))) as [i'|] eqn:Epick; [|done]. injection Hp as -> <-.
  apply pick_runnable in Epick as [Hi Hst].
  set (m1 := set_proc (Some i) (sched_entry (mach (on_hart h (sk s))))).
  destruct (resume_eq i c (dispatch_state i ((on_hart h (sk s)) <| mach ::= sched_entry |>)) m1)
    as (k' & E & Hq' & Hcur' & Hcnt & f & Ef & Hf).
  { done. }
  { unfold m1. auto with quiet. }
  { cbn. rewrite <- (inv_modes _ Hs). by eapply lookup_lt_Some. }
  { done. }
  { by apply (inv_konts _ Hs i). }
  pose proof (eq_trans (eq_sym Hr) E) as [= <-]. clear Hr E.
  assert (procs k2 = upd i f (upd i (dispatch_proc (ticks (sk s))) (procs (sk s)))) as Eps by exact Ef.
  apply (inv_enter s); rewrite ?Hcnt; try done.
  - apply Hs.
  - apply Hs.
  - rewrite Hcur'. unfold m1. rewrite cur_set_proc, cur_entry, Hcur. cbn. done.
  - rewrite Eps. eapply keep_running_trans; apply keep_running_upd.
  - intros E. discriminate (eq_trans (eq_sym E) Hst).
  - rewrite Eps, upd_eq by (rewrite ?length_upd, (inv_procs _ Hs); done). destruct (Hf (upd i (dispatch_proc (ticks (sk s))) (procs (sk s)) !!! i)) as [ch ->].
    pcbn. rewrite upd_eq by (rewrite (inv_procs _ Hs); done). unfold dispatch_proc. by destruct (_ =? 0).
Qed.

Lemma leave_inv h i k1 m k2 ks :
  modes s !! h = Some (HRun i) -> map_Forall (λ _, kont_ok) ks ->
  mach k1 = acquired (LkProc i) m -> quiet m -> m_hart m = h ->
  cur_procs m = cur_procs (mach (sk s)) ->
  0 <= starvation_counter k1 < STARVATION_THRESHOLD ->
  keep_running (Some i) (procs (sk s)) (procs k1) ->
  scheduler_ret i k1 = Ret () k2 ->
  sys_inv (mk_sys k2 (<[h := HSched]> (modes s)) ks).
Proof.
  intros Hm Hks Ek Hq Eh Hcur Hcnt Hrun Hr.
  assert (can_lock (LkProc i) m) as Hlk.
  { apply (quiet_can_lock m h); [done| |by apply Hlocks, static_proc, (inv_run _ Hs h)|done].
    rewrite <- (inv_modes _ Hs). by eapply lookup_lt_Some. }
  rewrite (scheduler_ret_eq i k1 m) in Hr by done. injection Hr as <-.
  apply (inv_leave s h i); kcbn; try done.
  - auto with quiet.
  - by rewrite cur_touch, cur_set_proc, Hcur, Eh.
  - eapply keep_running_trans; [done|apply keep_running_upd].
Qed.

Lemma timer_clock h i :
  modes s !! h = Some (HRun i) ->
  let k := on_hart h (sk s) in
  clockintr k = Ret () (clock_state k) ∧ runs i (clock_state k) ∧
  quiet (arm_timer (touch (mach k))) ∧ keep_running (Some i) (procs k) (clock_procs k).
Proof.
  intros Hm k. destruct (inv_on_hart s h _ Hs Hm) as (Hq & Ht & H3 & Hn & Hp & Hcur & Hh).
  fold k in Hq, Ht, H3, Hn, Hp, Hcur, Hh.
  pose proof (inv_counter _ Hs) as Hcnt. unfold STARVATION_THRESHOLD in Hcnt.
  assert (m_hart (mach k) < NCPU)%nat as Hlt
    by (rewrite Hh, <- (inv_modes _ Hs); by eapply lookup_lt_Some).
  assert (quiet (arm_timer (touch (mach k)))) as Hq' by auto with quiet.
  pose proof (clock_running k) as Hrun. rewrite Hp in Hrun. split_and!; [| |done..].
  - apply clockintr_eq; [done|done|by apply (quiet_static _ _ Hq), static_lock|].
    change (starvation_counter k) with (starvation_counter (sk s)). lia.
  - split; [split| | |]; unfold clock_state; kcbn.
    + by apply quiet_hart_ok.
    + intros j Hj. by apply (quiet_static _ _ Hq'), static_proc.
    + etransitivity; [apply (proj1 Hrun)|apply Hs].
    + by apply (inv_run _ Hs h).
    + etransitivity; [|exact Hp]. apply (c_proc_touch (mach k)), Ht.
    + exact (quiet_noff_at _ _ Hq').
Qed.

Lemma timer_inv h i k1 k2 k3 :
  modes s !! h = Some (HRun i) -> clockintr (on_hart h (sk s)) = Ret () k1 ->
  yield k1 = Switch k2 -> scheduler_ret i k2 = Ret () k3 ->
  sys_inv (mk_sys k3 (<[h := HSched]> (modes s))
             (<[i := KYield (c_intena (my_cpu (mach k2)))]> (konts s))).
Proof.
  intros Hm Hc Hy Hr. destruct (timer_clock h i Hm) as (E & Hruns & Hq' & Hrun).
  rewrite E in Hc. injection Hc as <-. set (k := on_hart h (sk s)) in *.
  rewrite (yield_eq i) in Hy by done. injection Hy as <-.
  apply (leave_inv h i (yield_state i (clock_state k)) (arm_timer (touch (mach k)))); try done.
  - by apply map_Forall_insert_2; [|apply Hs].
  - by rewrite cur_arm, cur_touch.
  - apply (clock_counter k), Hs.
  - eapply keep_running_trans; [exact Hrun|apply keep_running_upd].
Qed.

Lemma sleep_inv h i ch lk k1 k2 :
  modes s !! h = Some (HRun i) -> cond_lock lk ->
  (acquire lk ;; sleep ch lk) (on_hart h (sk s)) = Switch k1 ->
  scheduler_ret i k1 = Ret () k2 ->
  sys_inv (mk_sys k2 (<[h := HSched]> (modes s))
             (<[i := KSleep lk (c_intena (my_cpu (mach k1)))]> (konts s))).
Proof.
  intros Hm Hlk Hsl Hr. destruct (inv_on_hart s h _ Hs Hm) as (Hq & Ht & H3 & Hn & Hp & Hcur & Hh).
  pose proof Hlk as [Hst Hne].
  assert (can_lock lk (mach (on_hart h (sk s)))) as Hcan.
  { apply (quiet_can_lock _ h); try done. rewrite <- (inv_modes _ Hs). by eapply lookup_lt_Some. }
  rewrite (bind_Ret _ _ _ _ _ (acquire_step lk _ _ eq_refl Hcan)) in Hsl.
  rewrite (sleep_eq i ch lk _ (mach (on_hart h (sk s)))) in Hsl;
    [|by apply (inv_runs s h i)|done|done|apply Hcan].
  injection Hsl as <-.
  refine (leave_inv h i _ (mach (on_hart h (sk s))) k2 _ Hm _ _ Hq Hh Hcur _ _ Hr).
  - by apply map_Forall_insert_2; [|apply Hs].
  - done.
  - apply Hs.
  - apply keep_running_upd.
Qed.

Lemma base_inv s' : base_step s s' -> sys_inv s'.
Proof.
  pose proof (inv_counter _ Hs) as Hcnt. unfold STARVATION_THRESHOLD in Hcnt.
  destruct 1 as [h i c k1 k2 Hm Hp Hc Hr|h k1 Hm Hp|h k1 Hm Hc|h i ch lk k1 k2 Hm Hl Hsl Hr|h i ch k1 Hm Hw].
  - by eapply dispatch_inv.
  - destruct (inv_on_hart s h _ Hs Hm) as (Hq & Ht & H3 & Hn & _ & Hcur & Hh).
    rewrite scheduler_pass_eq in Hp by done. destruct (pick _); [done|]. injection Hp as <-.
    apply (inv_stay s); kcbn; [done|apply Hs|auto with quiet|apply Hs| |done].
    by rewrite cur_touch, cur_entry.
  - destruct (inv_on_hart s h _ Hs Hm) as (Hq & Ht & H3 & Hn & Hp & Hcur & Hh).
    rewrite clockintr_eq in Hc.
    2-4: done || by apply (quiet_static _ _ Hq), static_lock.
    2:{ change (starvation_counter (on_hart h (sk s))) with (starvation_counter (sk s)). lia. }
    injection Hc as <-. pose proof (clock_running (on_hart h (sk s))) as Hrun. rewrite Hp in Hrun.
    apply (inv_stay s); [done|apply Hs| |apply clock_counter, Hs| |done]; unfold clock_state; kcbn.
    + auto with quiet.
    + by rewrite cur_arm, cur_touch.
  - by eapply sleep_inv.
  - destruct (inv_on_hart s h _ Hs Hm) as (Hq & Ht & H3 & Hn & Hp & Hcur & Hh).
    rewrite wakeup_eq in Hw by done. injection Hw as <-.
    apply (inv_stay s); kcbn; [done|apply Hs|auto with quiet|apply Hs| |apply wake_table_running].
    by rewrite cur_touch.
Qed.

Lemma atomic_inv s' : atomic_step s s' -> sys_inv s'.
Proof. destruct 1 as [s' H|s' H]; [by apply base_inv|]. destruct H. by eapply timer_inv. Qed.
End preservation.

(** C24. If every timer interrupt is handled without another hart acting between
    [clockintr] and [yield], then in every reachable state no process runs on
    two harts, and a process that runs is in state RUNNING: by induction on the
    steps of the harts, of which there are [NCPU]: the scheduler, the timer,
    [wakeup], and [sleep] on any channel under any lock there is that is not
    the lock of a process. *)
Theorem exclusive_if_atomic s s' :
  sys_inv s -> rtc atomic_step s s' ->
  ¬ shared s' ∧ ∀ h i, modes s' !! h = Some (HRun i) -> p_state (procs (sk s') !!! i) = RUNNING.
Proof.
  intros Hs Hr. assert (sys_inv s') as Hs'.
  { induction Hr; [done|]. by eapply IHHr, atomic_inv. }
  split; [|intros h i Hm; by apply (inv_run _ Hs' h)].
  intros (h & h' & i & Hne & E & E').
  apply bind_Some in E as (md & Hm & E), E' as (md' & Hm' & E').
  destruct md as [|i1|i1]; [done| |by apply (inv_ticked _ Hs' h i1)].
  destruct md' as [|i2|i2]; [done| |by apply (inv_ticked _ Hs' h' i2)].
  cbn in E, E'. simplify_eq. by apply Hne, (inv_excl _ Hs' h h' i).
Qed.


(** The steps that a timer interrupt and a dispatch make. *)
Lemma timer_makes s h i :
  sys_inv s -> modes s !! h = Some (HRun i) ->
  ∃ s' c, timer_step s s' ∧ modes s' = <[h := HSched]> (modes s) ∧ konts s' = <[i := c]> (konts s) ∧
    starvation_counter (sk s') = starvation_counter (clock_state (on_hart h (sk s))) ∧
    ∃ t, procs (sk s') = upd i (λ r, r <| p_last_scheduled := t |>) (upd i yield_proc (clock_procs (on_hart h (sk s)))).
Proof.
  intros Hs Hm. destruct (timer_clock s Hs h i Hm) as (E & Hruns & Hq & _).
  set (k := on_hart h (sk s)) in *. pose proof Hruns as [[_ _ Hl] Hi _ _].
  eexists (mk_sys _ _ _), _. split; [|split; [reflexivity|split; [reflexivity|]]].
  - apply (T_timer s h i (clock_state k) (yield_state i (clock_state k))); [done|exact E|exact (yield_eq i _ Hruns)|].
    apply (scheduler_ret_eq i _ (arm_timer (touch (mach k)))); [done|].
    apply (quiet_can_lock _ h); [done| |by apply Hlocks, static_proc|done].
    rewrite <- (inv_modes _ Hs). by eapply lookup_lt_Some.
  - split; [done|]. by eexists.
Qed.

Lemma dispatch_makes s h i c :
  sys_inv s -> modes s !! h = Some HSched -> pick (procs (sk s)) = Some i -> konts s !! i = Some c ->
  ∃ s', base_step s s' ∧ modes s' = <[h := HRun i]> (modes s) ∧ konts s' = konts s ∧
    starvation_counter (sk s') = starvation_counter (sk s) ∧
    ∃ f, procs (sk s') = upd i f (upd i (dispatch_proc (ticks (sk s))) (procs (sk s))) ∧ ∀ p, ∃ ch, f p = p <| p_chan := ch |>.
Proof.
  intros Hs Hm Hp Hc. destruct (inv_on_hart s h _ Hs Hm) as (Hq & Ht & H3 & Hn & _ & Hcur & Hh).
  pose proof (pick_runnable _ _ Hp) as [Hi _].
  set (k := on_hart h (sk s)) in *. set (m1 := set_proc (Some i) (sched_entry (mach k))).
  destruct (resume_eq i c (dispatch_state i (k <| mach ::= sched_entry |>)) m1) as (k' & E & _ & _ & Hcnt & f & Ef & Hf).
  { done. }
  { unfold m1. auto with quiet. }
  { cbn. rewrite <- (inv_modes _ Hs). by eapply lookup_lt_Some. }
  { done. }
  { by apply (inv_konts _ Hs i). }
  exists (mk_sys k' (<[h := HRun i]> (modes s)) (konts s)). split; [|split; [done|split; [done|split; [done|by exists f]]]].
  apply (S_dispatch s h i c (dispatch_state i (k <| mach ::= sched_entry |>))); [done| |done|exact E].
  pose proof (scheduler_pass_eq k Ht Hn) as E1. change (procs k) with (procs (sk s)) in E1. rewrite Hp in E1. exact E1.
Qed.
End harts.

#[export] Hint Resolve quiet_touch quiet_set_proc quiet_arm quiet_entry quiet_resumed : quiet.

(** ** A process on two harts *)

(** Hart 0 runs process 0, which has used 3 of its 4 ticks; the other harts
    are in the scheduler. *)
Definition demo_sys : sys := mk_sys
  (demo (table [(demo_proc RUNNING 1 0) <| p_timeslice_used := 3 |>]) (Some 0%nat))
  (HRun 0 :: replicate 7 HSched)
  {[0%nat := KYield 1]}.

Lemma demo_sys_inv : sys_inv static_locks demo_sys.
Proof.
  assert (∀ h i, modes demo_sys !! h = Some (HRun i) -> h = 0%nat ∧ i = 0%nat) as Hm.
  { intros [|h] i Hh; [by injection Hh as <-|].
    by apply (lookup_replicate 7 HSched _ h) in Hh as [? _]. }
  split.
  - split; [done|done| |].
    + apply (bool_decide_unpack _). by vm_compute.
    + apply demo_lock.
  - by vm_compute.
  - done.
  - done.
  - done.
  - intros h i Hh. apply Hm in Hh as [-> ->]. split; [unfold NPROC; lia|done].
  - intros [|h] i Hh; [done|]. by apply (lookup_replicate 7 HSched _ h) in Hh as [? _].
  - intros h h' i Hh Hh'. apply Hm in Hh as [-> _], Hh' as [-> _]. done.
  - apply map_Forall_singleton. done.
Qed.

(** C25. Interleaved as the code allows, a process can run on two harts at once:
    [mlfq_tick] makes the process whose time slice is used up RUNNABLE while
    its hart still executes it and without holding its lock, so the scheduler
    of another hart can dispatch it before the first hart reaches [yield]. *)
Theorem double_dispatch :
  sys_inv static_locks demo_sys ∧ ∃ s, rtc (inter_step static_locks) demo_sys s ∧ shared s.
Proof.
  split; [apply demo_sys_inv|].
  destruct (timer_clock static_locks (reflexivity _) demo_sys demo_sys_inv 0 0 eq_refl) as (E & Hruns & Hq & _).
  set (k := on_hart 0 (sk demo_sys)) in *. set (k1 := clock_state k) in *.
  assert (pick (procs k1) = Some 0%nat) as Epick by (by vm_compute).
  assert (quiet static_locks (mach (on_hart 1 k1))) as Hq1 by (exact (quiet_hart_eq _ _ 1 Hq)).
  clearbody k1. clear Hq.
  assert (table_ok (on_hart 1 k1)) as Ht.
  { split; [apply (quiet_hart_ok _ _ 2 Hq1); [cbn; unfold NCPU; lia|lia]|..].
    - intros j Hj. by apply (quiet_free _ _ Hq1), static_proc.
    - apply Hruns. }
  assert (scheduler_pass (on_hart 1 k1) =
    Ret (Some 0%nat) (dispatch_state 0 ((on_hart 1 k1) <| mach ::= sched_entry |>))) as Ep.
  { rewrite scheduler_pass_eq; [|done|exact (quiet_noff_at _ _ _ Hq1)].
    change (procs (on_hart 1 k1)) with (procs k1). by rewrite Epick. }
  destruct (resume_eq static_locks (reflexivity _) 0 (KYield 1) (dispatch_state 0 ((on_hart 1 k1) <| mach ::= sched_entry |>))
    (set_proc (Some 0%nat) (sched_entry (mach (on_hart 1 k1))))) as (k2 & Er & _);
    [done|by apply quiet_set_proc, quiet_entry|cbn; unfold NCPU; lia|unfold NPROC; lia|done|].
  set (s1 := mk_sys k1 (<[0%nat := HTicked 0]> (modes demo_sys)) (konts demo_sys)).
  exists (mk_sys k2 (<[1%nat := HRun 0]> (modes s1)) (konts s1)).
  split; [|exists 0%nat, 1%nat, 0%nat; split_and!; [lia|reflexivity..]].
  apply (rtc_l _ _ s1).
  { apply (I_clock _ demo_sys 0 0 k1); [reflexivity|exact E]. }
  apply rtc_once, I_base. apply (S_dispatch _ s1 1 0 (KYield 1)
    (dispatch_state 0 ((on_hart 1 k1) <| mach ::= sched_entry |>)) k2).
  - reflexivity.
  - exact Ep.
  - apply lookup_singleton_eq.
  - exact Er.
Qed.

(** Process 0 is interrupted on hart 0, and hart 1 dispatches it again. *)
Lemma exclusive_if_atomic_witness :
  ∃ s1 s2, timer_step demo_sys s1 ∧ base_step static_locks s1 s2 ∧
    modes s2 = <[1%nat := HRun 0]> (<[0%nat := HSched]> (modes demo_sys)) ∧ ¬ shared s2.
Proof.
  destruct (timer_makes static_locks (reflexivity _) demo_sys 0 0 demo_sys_inv eq_refl) as (s1 & c & H1 & E1 & Ek & _ & t & Ep).
  destruct (dispatch_makes static_locks (reflexivity _) s1 1 0 c) as (s2 & H2 & E2 & _).
  - eapply atomic_inv; [done|apply demo_sys_inv|by apply A_timer].
  - by rewrite E1.
  - rewrite Ep. vm_compute. reflexivity.
  - rewrite Ek. apply lookup_insert_eq.
  - exists s1, s2. split; [exact H1|]. split; [exact H2|]. split; [by rewrite E2, E1|].
    apply (exclusive_if_atomic static_locks (reflexivity _) demo_sys s2); [apply demo_sys_inv|].
    eapply rtc_l; [by apply A_timer|]. apply rtc_once. by apply A_base.
Defined.

