(* ===== verification/SchedInv.v ===== *)
(** * Invariants of the process table

    Which code can change the process table: everything else keeps every
    property of it.  What changes it must do for a property to be kept is the
    class [StableInv]; it is shown for the operations of [Proc], and that two
    invariants are of this class: the scheduling fields of each process are
    those of its level, and process identifiers are unique.  The theorems are
    in [ProcInv]. *)
From S2P Require Import Prelude Layout KState Spinlock CString Kalloc Vm Proc SchedEq Demo Mlfq.

(** A property of the process table, of the harts' current processes, the tick
    counter of [mlfq_tick] and [nextpid]. *)
Class TableInv (I : kernel -> Prop) : Prop := table_inv_frame k k' :
  procs k' = procs k -> curs (mach k') = curs (mach k) -> starvation_counter k' = starvation_counter k -> nextpid k' = nextpid k ->
  I k -> I k'.

Section frame.
Context {L : Linker} {W : World} (I : kernel -> Prop) {HI : TableInv I}.

Lemma keeps_modify_frame f :
  (∀ k, procs (f k) = procs k) -> (∀ k, curs (mach (f k)) = curs (mach k)) -> (∀ k, starvation_counter (f k) = starvation_counter k) ->
  (∀ k, nextpid (f k) = nextpid k) -> keeps I (modify f).
Proof. intros H1 H2 H3 H4. apply keeps_modify. intros k. by apply table_inv_frame. Qed.

Lemma keeps_on_mach {A} (m : ST machine A) :
  (∀ c, keeps (λ m, curs m = c) m) -> keeps I (on_mach m).
Proof.
  intros Hm k Hk. specialize (Hm (curs (mach k)) (mach k) eq_refl). unfold wp, on_mach in *.
  destruct (m (mach k)); by apply (table_inv_frame k).
Qed.

Lemma keeps_acquire l : keeps I (acquire l).
Proof. apply keeps_on_mach. intros. apply curs_acquire. Qed.
Lemma keeps_release l : keeps I (release l).
Proof. apply keeps_on_mach. intros. apply curs_release. Qed.
Lemma keeps_initlock l : keeps I (initlock l).
Proof. apply keeps_on_mach. intros. apply curs_initlock. Qed.
Lemma keeps_holding l : keeps I (holding l).
Proof. apply keeps_on_mach. intros. apply curs_holding. Qed.
Lemma keeps_intr_on : keeps I intr_on.
Proof. apply keeps_on_mach. intros. apply curs_write_csr. Qed.
Lemma keeps_intr_off : keeps I intr_off.
Proof. apply keeps_on_mach. intros. apply curs_write_csr. Qed.
Lemma keeps_intr_get : keeps I intr_get.
Proof. apply keeps_on_mach. intros. apply keeps_gets. Qed.
Lemma keeps_cpuid : keeps I cpuid.
Proof. apply keeps_on_mach. intros. apply keeps_gets. Qed.
Lemma keeps_read_cpu {A} (f : cpu -> A) : keeps I (read_cpu f).
Proof. apply keeps_on_mach. intros. apply keeps_gets. Qed.
Lemma keeps_write_cpu f : (∀ x, c_proc (f x) = c_proc x) -> keeps I (write_cpu f).
Proof. intros. apply keeps_on_mach. intros. by apply curs_write_cpu. Qed.
Lemma keeps_read_csr {A} (f : csrs -> A) : keeps I (read_csr f).
Proof. apply keeps_on_mach. intros. apply keeps_gets. Qed.
Lemma keeps_write_csr f : keeps I (write_csr f).
Proof. apply keeps_on_mach. intros. apply curs_write_csr. Qed.
Lemma keeps_push_off : keeps I push_off.
Proof. apply keeps_on_mach. intros. apply curs_push_off. Qed.
Lemma keeps_pop_off : keeps I pop_off.
Proof. apply keeps_on_mach. intros. apply curs_pop_off. Qed.
Hint Resolve keeps_read_cpu keeps_push_off keeps_pop_off : keeps.
Lemma keeps_myproc : keeps I myproc.
Proof. unfold myproc. keep. Qed.
Lemma keeps_load64 a : keeps I (load64 a).
Proof. apply keeps_gets. Qed.
Lemma keeps_store64 a v : keeps I (store64 a v).
Proof. by apply keeps_modify_frame. Qed.
Lemma keeps_memset a c n : keeps I (do_memset a c n).
Proof. by apply keeps_modify_frame. Qed.
Lemma keeps_memmove a b n : keeps I (do_memmove a b n).
Proof. by apply keeps_modify_frame. Qed.
Lemma keeps_read_proc {A} i (f : proc -> A) : keeps I (read_proc i f).
Proof. apply keeps_gets. Qed.

Hint Resolve keeps_acquire keeps_release keeps_initlock keeps_holding keeps_intr_on
  keeps_intr_off keeps_intr_get keeps_read_cpu keeps_write_cpu keeps_read_csr keeps_write_csr keeps_push_off
  keeps_pop_off keeps_cpuid keeps_myproc keeps_load64 keeps_store64
  keeps_memset keeps_memmove keeps_read_proc : keeps.

Lemma keeps_kalloc : keeps I kalloc.
Proof. unfold kalloc. keep. by apply keeps_modify_frame. Qed.
Lemma keeps_kfree pa : keeps I (kfree pa).
Proof. unfold kfree. keep. by apply keeps_modify_frame. Qed.
Hint Resolve keeps_kalloc keeps_kfree : keeps.

Lemma keeps_walk pt va alloc : keeps I (walk pt va alloc).
Proof.
  unfold walk. keep. generalize 2%nat. intros lv. revert pt.
  induction lv; intros pt; cbn [walk_loop]; keep; auto.
Qed.
Hint Resolve keeps_walk : keeps.

Lemma keeps_walkaddr pt va : keeps I (walkaddr pt va).
Proof. unfold walkaddr. keep. Qed.
Lemma keeps_ismapped pt va : keeps I (ismapped pt va).
Proof. unfold ismapped. keep. Qed.
Lemma keeps_mappages pt va sz pa perm : keeps I (mappages pt va sz pa perm).
Proof.
  unfold mappages. keep. generalize (Z.to_nat (sz / PGSIZE)), (u64 (va + sz - PGSIZE)).
  intros fuel last. revert va pa. induction fuel; intros va pa; cbn [mappages_loop]; keep; auto.
Qed.
Lemma keeps_uvmcreate : keeps I uvmcreate.
Proof. unfold uvmcreate. keep. Qed.
Lemma keeps_uvmunmap pt va n fr : keeps I (uvmunmap pt va n fr).
Proof.
  unfold uvmunmap. keep. generalize (S (Z.to_nat n)), (u64 (va + n * PGSIZE)).
  intros fuel last. revert va. induction fuel; intros va; cbn [uvmunmap_loop]; keep; auto.
Qed.
Hint Resolve keeps_walkaddr keeps_ismapped keeps_mappages keeps_uvmcreate keeps_uvmunmap : keeps.

Lemma keeps_uvmdealloc pt o n : keeps I (uvmdealloc pt o n).
Proof. unfold uvmdealloc. keep. Qed.
Lemma keeps_freewalk d pt : keeps I (freewalk d pt).
Proof. revert pt. induction d; intros pt; cbn [freewalk]; keep; auto. Qed.
Hint Resolve keeps_uvmdealloc keeps_freewalk : keeps.

Lemma keeps_uvmalloc pt o n x : keeps I (uvmalloc pt o n x).
Proof.
  unfold uvmalloc. keep. generalize (S (Z.to_nat ((n - PGROUNDUP o) / PGSIZE + 1))).
  intros fuel. generalize (PGROUNDUP o) at 1. 
  induction fuel; intros a; cbn [uvmalloc_loop]; keep; auto.
Qed.
Lemma keeps_uvmfree pt sz : keeps I (uvmfree pt sz).
Proof. unfold uvmfree. keep. Qed.
Lemma keeps_uvmcopy old new sz : keeps I (uvmcopy old new sz).
Proof.
  unfold uvmcopy. generalize (S (Z.to_nat (sz / PGSIZE + 1))), 0. intros fuel.
  induction fuel; intros i; cbn [uvmcopy_loop]; unfold uvmcopy_err; keep; auto.
Qed.
Lemma keeps_vmfault pt va : keeps I (vmfault pt va).
Proof. unfold vmfault. keep. Qed.
Hint Resolve keeps_uvmalloc keeps_uvmfree keeps_uvmcopy keeps_vmfault : keeps.

Lemma keeps_useraddr pt va : keeps I (useraddr pt va).
Proof. unfold useraddr. keep. Qed.
Hint Resolve keeps_useraddr : keeps.

Lemma keeps_copyout pt va src : keeps I (copyout pt va src).
Proof.
  unfold copyout. generalize (S (length src)). intros fuel. revert va src.
  induction fuel; intros va src; cbn [copyout_loop]; keep; auto. by apply keeps_modify_frame.
Qed.
Lemma keeps_copyin pt va len : keeps I (copyin pt va len).
Proof.
  unfold copyin. generalize (S (Z.to_nat len)), (@nil Z). intros fuel. revert va len.
  induction fuel; intros va len dst; cbn [copyin_loop]; keep; auto.
Qed.
Lemma keeps_copyinstr pt va max : keeps I (copyinstr pt va max).
Proof.
  unfold copyinstr. generalize (S (Z.to_nat max)), (@nil Z). intros fuel. revert va max.
  induction fuel; intros va max dst; cbn [copyinstr_loop]; keep; auto.
Qed.
Hint Resolve keeps_copyout keeps_copyin keeps_copyinstr : keeps.

Lemma keeps_proc_pagetable p : keeps I (proc_pagetable p).
Proof. unfold proc_pagetable. keep. Qed.
Lemma keeps_proc_freepagetable pt sz : keeps I (proc_freepagetable pt sz).
Proof. unfold proc_freepagetable. keep. Qed.
Lemma keeps_killed p : keeps I (killed p).
Proof. unfold killed. keep. Qed.
Lemma keeps_either_copyout u dst src : keeps I (either_copyout u dst src).
Proof. unfold either_copyout. keep. by apply keeps_modify_frame. Qed.
Lemma keeps_either_copyin u src len : keeps I (either_copyin u src len).
Proof. unfold either_copyin. keep. Qed.
Lemma keeps_getprocinfo pid addr : keeps I (getprocinfo pid addr).
Proof. unfold getprocinfo. keep. Qed.
End frame.

#[export] Hint Resolve keeps_acquire keeps_release keeps_initlock keeps_holding keeps_intr_on
    keeps_intr_off keeps_intr_get keeps_read_cpu keeps_write_cpu keeps_read_csr keeps_write_csr keeps_push_off
    keeps_pop_off keeps_cpuid keeps_myproc keeps_load64 keeps_store64
  keeps_memset keeps_memmove keeps_read_proc keeps_kalloc keeps_kfree keeps_walk
  keeps_walkaddr keeps_ismapped keeps_mappages keeps_uvmcreate keeps_uvmunmap
  keeps_uvmdealloc keeps_freewalk keeps_uvmalloc keeps_uvmfree keeps_uvmcopy keeps_vmfault
  keeps_useraddr keeps_copyout keeps_copyin keeps_copyinstr keeps_proc_pagetable
  keeps_proc_freepagetable keeps_killed keeps_either_copyout keeps_either_copyin
  keeps_getprocinfo : keeps.
#[export] Hint Extern 1 (TableInv _) => typeclasses eauto : keeps.

(** What a lookup sees after [upd], also out of range. *)
Lemma upd_cases {A} `{Inhabited A} i f (l : list A) j :
  upd i f l !!! j = l !!! j ∨ i = j ∧ upd i f l !!! j = f (l !!! j).
Proof.
  destruct (decide (i < length l)%nat).
  - destruct (decide (i = j)) as [<-|]; [right|left]; [by rewrite upd_eq|by rewrite upd_ne].
  - left. unfold upd. by rewrite list_insert_ge by lia.
Qed.

(** ** Code that does not touch the scheduling fields

    Most code of [Proc] changes a process without changing its level, its
    share of the time slice or its identifier and without reviving a free
    slot, or frees it. *)
Definition same_live (p q : proc) : Prop :=
  p_priority q = p_priority p ∧ p_timeslice q = p_timeslice p ∧
  p_timeslice_used q = p_timeslice_used p ∧ p_pid q = p_pid p ∧
  (p_state p = UNUSED -> p_state q = UNUSED).
Definition harmless (p q : proc) : Prop := same_live p q ∨ p_state q = UNUSED.

Class StableInv (I : kernel -> Prop) : Prop := {
  stable_table :: TableInv I;
  stable_upd k i f : I k -> harmless (procs k !!! i) (f (procs k !!! i)) ->
    I (k <| procs ::= upd i f |>);
  stable_write_cpu f : keeps I (write_cpu f);
}.

Ltac harm := intros; left; repeat split; cbn; intros; congruence.

Lemma wp_weaken {A} (I I' : kernel -> Prop) (m : M A) Q k :
  (∀ k, I k -> I' k) -> wp I m Q k -> wp I' m Q k.
Proof. unfold wp. intros H. destruct (m k); auto. Qed.

Lemma wp_and {A} (I I' : kernel -> Prop) (m : M A) Q Q' k :
  wp I m Q k -> wp I' m Q' k -> wp (λ k, I k ∧ I' k) m (λ a k, Q a k ∧ Q' a k) k.
Proof. unfold wp. destruct (m k); auto. Qed.

(** The process calling into the kernel is neither a free slot nor has it
    exited. *)
Definition in_use (p : proc) : Prop := p_state p ≠ UNUSED ∧ p_state p ≠ ZOMBIE.
Definition live (k : kernel) : Prop :=
  ∀ p, c_proc (my_cpu (mach k)) = Some p -> in_use (procs k !!! p).

(** ** Code that also leaves live processes live *)

Definition soft (p q : proc) : Prop := harmless p q ∧ (in_use p -> in_use q).

Class SoftInv (J : kernel -> Prop) : Prop := {
  soft_table :: TableInv J;
  soft_upd k i f : J k -> soft (procs k !!! i) (f (procs k !!! i)) -> J (k <| procs ::= upd i f |>);
}.

#[export] Instance stable_soft I : StableInv I -> SoftInv I.
Proof. intros HI. split; [apply _|]. intros k i f Hk []. by apply stable_upd. Qed.

Section soft.
Context {L : Linker} {W : World} (J : kernel -> Prop) {HJ : SoftInv J}.

Lemma soft_write i f : (∀ r, soft r (f r)) -> keeps J (write_proc i f).
Proof. intros Hf. apply keeps_modify. intros k Hk. by apply soft_upd. Qed.

Local Ltac same := apply soft_write; intros; split; [harm|by intros []].

Lemma soft_yield_ret p intena : keeps J (yield_ret p intena).
Proof. unfold yield_ret, sched_ret. keep. Qed.

Lemma soft_sleep_ret p lk intena : keeps J (sleep_ret p lk intena).
Proof. unfold sleep_ret, sched_ret. keep. same. Qed.

Lemma soft_wakeup ch : keeps J (wakeup ch).
Proof.
  unfold wakeup. keep. apply soft_write. intros r. unfold wakeup_proc.
  destruct (bool_decide (p_state r = SLEEPING)) eqn:E; cbn [andb]; [|split; [harm|done]].
  apply bool_decide_eq_true in E. case_bool_decide; (split; [harm|by intros []]).
Qed.
Hint Resolve soft_wakeup : keeps.

Lemma soft_setkilled p : keeps J (setkilled p).
Proof. unfold setkilled. keep. same. Qed.

Lemma soft_growproc n : keeps J (growproc n).
Proof. unfold growproc. keep; same. Qed.

Lemma soft_reparent p : keeps J (reparent p).
Proof. unfold reparent. keep. same. Qed.

(** A write guarded by the state read before. *)
Lemma soft_guarded {A} p st f (m : M A) :
  (∀ r, p_state r = st -> soft r (f r)) -> keeps J m ->
  keeps J (s ← read_proc p p_state; when (bool_decide (s = st)) (write_proc p f) ;; m).
Proof.
  intros Hf Hm k Hk. apply wp_bind. change (wp J
    (when (bool_decide (p_state (procs k !!! p) = st)) (write_proc p f) ;; m) (λ _, J) k).
  case_bool_decide as Hs; cbn [when]; [|by apply Hm].
  apply wp_bind. apply (Hm (k <| procs ::= upd p f |>)). apply soft_upd; [done|]. by apply Hf.
Qed.

Lemma soft_kkill pid : keeps J (kkill pid).
Proof.
  unfold kkill. apply keeps_bind; [|intros ?; keep]. apply keeps_for_first. intros i.
  apply keeps_bind; [auto with keeps|intros _]. apply keeps_bind; [auto with keeps|intros pid'].
  apply keeps_if; [|keep]. apply keeps_bind; [same|intros _]. apply soft_guarded; [|keep].
  intros. split; [harm|by intros []].
Qed.
End soft.

(** The rest of the system keeps [I], and resumes a thread on a hart where it
    is the current process, and a live one. *)
Definition world_ok {W : World} (I : kernel -> Prop) : Prop :=
  ∀ k k', I k -> w_run k = Some k' ->
    I k' ∧ live k' ∧ c_proc (my_cpu (mach k')) = c_proc (my_cpu (mach k)).

(** The current process and its liveness, in terms of what a [TableInv] may
    depend on. *)
Lemma cur_frame k k' p :
  procs k' = procs k -> curs (mach k') = curs (mach k) ->
  c_proc (my_cpu (mach k')) = c_proc (my_cpu (mach k)) ∧ procs k' !!! p = procs k !!! p.
Proof. intros E1 E2. by rewrite my_cpu_curs, E2, <- my_cpu_curs, E1. Qed.

Section stable.
Context {L : Linker} {W : World} (I : kernel -> Prop) {HI : StableInv I}.

Lemma stable_write i f : (∀ r, harmless r (f r)) -> keeps I (write_proc i f).
Proof. intros Hf. apply keeps_modify. intros k Hk. by apply stable_upd. Qed.

Local Ltac same := apply stable_write; harm.

Lemma stable_scheduler_try pr p : keeps I (scheduler_try pr p).
Proof.
  unfold scheduler_try. apply keeps_bind; [auto with keeps|]. intros _ k Hk. unfold read_proc.
  apply wp_bind. unfold wp at 1, gets at 1. apply wp_bind. unfold wp at 1, gets at 1.
  destruct (bool_decide _ && _) eqn:E.
  - apply andb_true_iff in E as [Hs _]. apply bool_decide_eq_true in Hs.
    apply wp_bind. unfold wp at 1, gets. apply wp_bind.
    assert (wp I (write_cpu (λ c, c <| c_proc := Some p |>))
      (λ _ k', I k' ∧ procs k' = procs k) k) as Hw.
    { split; [|done]. by apply (stable_write_cpu (λ c, c <| c_proc := Some p |>) k). }
    eapply wp_mono; [|exact Hw]. intros _ k' [Hk' Ep]. apply wp_bind. unfold write_proc.
    apply stable_upd; [done|]. left. rewrite Ep. unfold dispatch_proc.
    split_and!; [by destruct (_ =? 0)..|]. intros E. discriminate (eq_trans (eq_sym E) Hs).
  - clear E. revert k Hk. change (keeps I (release (LkProc p) ;; mret (@None nat))). keep.
Qed.

Lemma stable_scheduler_pass : keeps I scheduler_pass.
Proof. unfold scheduler_pass. keep. apply stable_scheduler_try. Qed.

Lemma stable_scheduler_ret p : keeps I (scheduler_ret p).
Proof. unfold scheduler_ret. keep; [same|apply stable_write_cpu]. Qed.

Lemma stable_freeproc p : keeps I (freeproc p).
Proof. unfold freeproc. keep; [same|]. apply stable_write. by right. Qed.

Lemma stable_procinit : keeps I procinit.
Proof. unfold procinit. keep; [|same]. apply stable_write. by right. Qed.

(** ** The calling process

    [act p]: [I], called by the live process [p]; [idle]: called by no
    process; [here]: one of the two. *)
Definition act (p : nat) (k : kernel) : Prop :=
  I k ∧ c_proc (my_cpu (mach k)) = Some p ∧ in_use (procs k !!! p).
Definition idle (k : kernel) : Prop := I k ∧ c_proc (my_cpu (mach k)) = None.
Definition here (k : kernel) : Prop := I k ∧ live k.

#[export] Instance act_soft p : SoftInv (act p).
Proof.
  split.
  - intros k k' E1 E2 E3 E4 (H1 & H2 & H3). unfold act. destruct (cur_frame k k' p E1 E2) as [-> ->].
    split; [by apply (table_inv_frame k)|done].
  - intros k i f (H1 & H2 & H3) [Hh Hs]. split_and!; [by apply stable_upd|exact H2|]. kcbn.
    destruct (upd_cases i f (procs k) p) as [->|[-> ->]]; auto.
Qed.
#[export] Instance idle_soft : SoftInv idle.
Proof.
  split.
  - intros k k' E1 E2 E3 E4 (H1 & H2). destruct (cur_frame k k' 0 E1 E2) as [E _].
    split; [by apply (table_inv_frame k)|]. by rewrite E.
  - intros k i f (H1 & H2) [Hh Hs]. by split; [apply stable_upd|].
Qed.

Lemma act_here p k : act p k -> here k.
Proof. intros (H1 & H2 & H3). split; [done|]. intros q Hq. rewrite H2 in Hq. by injection Hq as <-. Qed.
Lemma idle_here k : idle k -> here k.
Proof. intros [H1 H2]. split; [done|]. intros q Hq. by rewrite H2 in Hq. Qed.
Lemma here_cases k : here k -> idle k ∨ ∃ p, act p k.
Proof.
  intros [Hk Hl]. unfold idle, act. destruct (c_proc (my_cpu (mach k))) as [p|] eqn:E; [|by left].
  right. exists p. split_and!; [done..|]. by apply Hl.
Qed.
Lemma here_inv k : here k -> I k.
Proof. by intros []. Qed.
Lemma act_inv p k : act p k -> I k.
Proof. by intros []. Qed.

(** Code that keeps [act p] and [idle] keeps [here]. *)
Lemma here_keeps {A} (m : M A) : (∀ p, keeps (act p) m) -> keeps idle m -> keeps here m.
Proof.
  intros Ha Hi k Hk. destruct (here_cases k Hk) as [H|[p H]].
  - apply (wp_weaken idle); [apply idle_here|]. eapply wp_mono; [|by apply Hi]. intros ? ?. apply idle_here.
  - apply (wp_weaken (act p)); [apply act_here|]. eapply wp_mono; [|by apply Ha]. intros ? ?. apply act_here.
Qed.

#[export] Instance here_soft : SoftInv here.
Proof.
  split.
  - intros k k' E1 E2 E3 E4 Hk. destruct (here_cases k Hk) as [H|[p H]];
      [apply idle_here|apply (act_here p)]; by apply (table_inv_frame k).
  - intros k i f Hk Hf. destruct (here_cases k Hk) as [H|[p H]];
      [apply idle_here|apply (act_here p)]; by apply soft_upd.
Qed.

(** [myproc] gives the process that the invariant determines. *)
Lemma wp_myproc J v k :
  TableInv J -> (∀ k, J k -> c_proc (my_cpu (mach k)) = v) -> J k -> wp J myproc (λ v' k', v' = v ∧ J k') k.
Proof.
  intros HJ Hv Hk. unfold myproc. apply wp_bind. eapply wp_mono; [|exact (keeps_push_off J k Hk)].
  intros [] k1 H1. cbn beta in H1. apply wp_bind. eapply wp_mono with (Q := λ v' k', v' = v ∧ J k').
  2:{ by split; [exact (Hv k1 H1)|exact H1]. }
  intros v' k2 [-> H2]. apply wp_bind. eapply wp_mono; [|exact (keeps_pop_off J k2 H2)]. by intros [] k3 H3.
Qed.

(** Code that starts with [myproc]. *)
Lemma act_myproc {B} p (f : option nat -> M B) : keeps (act p) (f (Some p)) -> keeps (act p) (myproc ≫= f).
Proof.
  intros Hf k Hk. apply wp_bind. eapply wp_mono; [|apply (wp_myproc (act p) (Some p)); [apply _|by intros ? (_ & ? & _)|done]].
  intros v k' [-> H]. by apply Hf.
Qed.
Lemma idle_myproc {B} (f : option nat -> M B) : keeps idle (f None) -> keeps idle (myproc ≫= f).
Proof.
  intros Hf k Hk. apply wp_bind. eapply wp_mono; [|apply (wp_myproc idle None); [apply _|by intros ? []|done]].
  intros v k' [-> H]. by apply Hf.
Qed.

Lemma act_write p g :
  (∀ r, in_use r -> in_use (g r) ∧ harmless r (g r)) ->
  keeps (act p) (write_proc p g).
Proof.
  intros Hg. apply keeps_modify. intros k (Hk & Hc & Hs). destruct (Hg _ Hs) as [Hs' Hh].
  split_and!; [by apply stable_upd|exact Hc|]. kcbn.
  destruct (upd_cases p g (procs k) p) as [->|[_ ->]]; done.
Qed.

(** A change of another process. *)
Lemma act_write_other p i g : i ≠ p -> (∀ r, harmless r (g r)) -> keeps (act p) (write_proc i g).
Proof.
  intros Hne Hg. apply keeps_modify. intros k (Hk & Hc & Hs). split_and!; [by apply stable_upd|exact Hc|].
  kcbn. by destruct (upd_cases i g (procs k) p) as [->|[? _]].
Qed.
Lemma act_freeproc p i : i ≠ p -> keeps (act p) (freeproc i).
Proof. intros Hne. unfold freeproc. keep; (apply act_write_other; [done|]); [harm|by right]. Qed.

Context (HW : world_ok I).

Lemma act_swtch p : keeps (act p) swtch.
Proof.
  intros k Hk. unfold wp, swtch. destruct (w_run k) as [k'|] eqn:E; [|exact Hk].
  destruct Hk as (Hk & Hc & _). destruct (HW k k' Hk E) as (Hk' & Hl & Ec). rewrite Hc in Ec.
  split_and!; [done|done|]. by apply Hl.
Qed.
Lemma keeps_swtch : keeps I swtch.
Proof.
  intros k Hk. unfold wp, swtch. destruct (w_run k) as [k'|] eqn:E; [|exact Hk]. by destruct (HW k k' Hk E).
Qed.
Hint Resolve act_swtch keeps_swtch : keeps.

Local Ltac active := let r := fresh in apply act_write; intros r []; split; [by split|harm].

Lemma stable_sched : keeps I sched.
Proof. unfold sched, sched_ret. keep. Qed.
Lemma act_sched p : keeps (act p) sched.
Proof. unfold sched, sched_ret. keep. Qed.
Hint Resolve act_sched : keeps.

Lemma act_yield p : keeps (act p) yield.
Proof. apply act_myproc. keep; active. Qed.
Lemma here_yield : keeps here yield.
Proof. apply here_keeps; [apply act_yield|]. apply idle_myproc. keep. Qed.

Lemma act_sleep p ch lk : keeps (act p) (sleep ch lk).
Proof. apply act_myproc. keep; active. Qed.
Lemma here_sleep ch lk : keeps here (sleep ch lk).
Proof. apply here_keeps; [intros; apply act_sleep|]. apply idle_myproc. keep. Qed.
Hint Resolve act_sleep : keeps.

(** [kwait] frees a process that has exited, so never its caller. *)
Lemma act_kwait_scan l p addr hk : keeps (act p) (kwait_scan l p addr hk).
Proof.
  revert hk. induction l as [|pp l IH]; intros hk; [apply keeps_ret|]. cbn [kwait_scan].
  apply keeps_bind; [auto with keeps|]. intros par. apply keeps_if; [|apply IH].
  apply keeps_bind; [auto with keeps|]. intros [] k Hk. apply wp_bind. unfold read_proc at 1, wp at 1, gets.
  case_bool_decide as Hz.
  - assert (pp ≠ p) as Hne by (intros ->; by destruct Hk as (_ & _ & _ & [])). revert k Hk Hz.
    intros k Hk _. revert k Hk.
    lazymatch goal with |- ∀ k, _ -> wp (act p) ?m _ _ => change (keeps (act p) m) end.
    pose proof (act_freeproc p pp Hne). keep.
  - revert k Hk Hz. intros k Hk _. revert k Hk.
    lazymatch goal with |- ∀ k, _ -> wp (act p) ?m _ _ => change (keeps (act p) m) end. keep.
Qed.
Hint Resolve act_kwait_scan : keeps.

Lemma act_kwait_round p addr : keeps (act p) (kwait_round p addr).
Proof. unfold kwait_round. keep. Qed.
Hint Resolve act_kwait_round : keeps.

Lemma here_kwait addr : keeps here (kwait addr).
Proof. apply here_keeps; [intros p; apply act_myproc|apply idle_myproc]; keep. Qed.
End stable.

(** ** The levels *)

(** The time slice of a live process is that of its level, and it has not used
    it up. *)
Definition mlfq_ok (p : proc) : Prop :=
  p_state p ≠ UNUSED ->
  0 <= p_priority p <= 2 ∧ p_timeslice p = get_timeslice (p_priority p) ∧
  0 <= p_timeslice_used p < p_timeslice p.

Record mlfq_inv (k : kernel) : Prop := {
  mlfq_procs : Forall mlfq_ok (procs k);
  mlfq_counter : 0 <= starvation_counter k < STARVATION_THRESHOLD;
  mlfq_length : length (procs k) = NPROC;
}.

Lemma mlfq_ok0 : mlfq_ok proc0.
Proof. done. Qed.

Lemma mlfq_ok_total ps i : Forall mlfq_ok ps -> mlfq_ok (ps !!! i).
Proof.
  intros Hps. rewrite list_lookup_total_alt. destruct (ps !! i) eqn:E; [|apply mlfq_ok0].
  by eapply Forall_lookup_1.
Qed.

Lemma mlfq_upd ps i f :
  (∀ r, mlfq_ok r -> mlfq_ok (f r)) -> Forall mlfq_ok ps -> Forall mlfq_ok (upd i f ps).
Proof. intros Hf Hps. apply Forall_insert; [done|]. by apply Hf, mlfq_ok_total. Qed.

Lemma get_timeslice_range pr : 4 <= get_timeslice pr <= 16.
Proof.
  unfold get_timeslice, TIMESLICE_HIGH, TIMESLICE_MEDIUM, TIMESLICE_LOW. repeat case_match; lia.
Qed.

Lemma mlfq_ok_boost p : mlfq_ok p -> mlfq_ok (boost_proc p).
Proof. intros Hp. unfold boost_proc. destruct (_ || _); [|done]. intros _. by vm_compute. Qed.

Lemma mlfq_ok_tick p : mlfq_ok p -> mlfq_ok (tick_proc p).
Proof.
  intros Hp. destruct (decide (p_state p = RUNNING)) as [Hs|Hs].
  2:{ unfold tick_proc. by rewrite bool_decide_false. }
  destruct Hp as (Hpr & Hts & Hu); [congruence|]. pose proof (get_timeslice_range (p_priority p)).
  destruct (tick_proc_fields p Hs) as (_ & Ep & Et & Eu & _). intros _.
  rewrite Ep, Et, Eu. rewrite (i32_small (p_timeslice_used p + 1)), Hts by lia.
  destruct (Z.leb_spec (get_timeslice (p_priority p)) (p_timeslice_used p + 1)); cbn [andb]; [|lia].
  destruct (Z.ltb_spec (p_priority p) MLFQ_LOW); unfold MLFQ_LOW in *; [|lia].
  rewrite i32_small by lia. pose proof (get_timeslice_range (p_priority p + 1)). lia.
Qed.

(** A change of the other fields that does not revive a free slot. *)
Lemma mlfq_ok_same p q :
  p_priority q = p_priority p -> p_timeslice q = p_timeslice p ->
  p_timeslice_used q = p_timeslice_used p -> (p_state p = UNUSED -> p_state q = UNUSED) ->
  mlfq_ok p -> mlfq_ok q.
Proof. unfold mlfq_ok. intros -> -> -> Hs Hp Hq. apply Hp. intros E. by apply Hq, Hs. Qed.

Lemma mlfq_ok_init t p : mlfq_ok (init_mlfq_fields t p).
Proof. intros _. by vm_compute. Qed.

(** The free slot [i] becomes a live process whose fields [init_mlfq_proc]
    sets. *)
Lemma mlfq_upd_any ps i f :
  (∀ r, mlfq_ok (f r)) -> Forall mlfq_ok ps -> Forall mlfq_ok (upd i f ps).
Proof. intros Hf. by apply mlfq_upd. Qed.


#[export] Instance mlfq_stable : StableInv mlfq_inv.
Proof.
  split.
  - intros k k' E1 _ E2 E3 [H1 H2 H3]. split; congruence.
  - intros k i f [H1 H2 H3] Hf. split; kcbn; [|done|by rewrite length_upd].
    apply Forall_insert; [done|]. pose proof (mlfq_ok_total _ i H1) as Hi.
    destruct Hf as [(E1 & E2 & E3 & _ & E4)|Hf]; [by apply (mlfq_ok_same (procs k !!! i))|].
    intros Hn. by destruct Hn.
  - intros f k []. by split.
Qed.

Section mlfq_keeps.
Context {L : Linker}.

Lemma mlfq_write i f : (∀ r, mlfq_ok r -> mlfq_ok (f r)) -> keeps mlfq_inv (write_proc i f).
Proof.
  intros Hf. apply keeps_modify. intros k [H1 H2 H3]. split; kcbn; [by apply mlfq_upd|done|].
  by rewrite length_upd.
Qed.

Lemma mlfq_boost : keeps mlfq_inv boost_all_priorities.
Proof. unfold boost_all_priorities. keep. apply mlfq_write, mlfq_ok_boost. Qed.

Lemma mlfq_mlfq_tick : keeps mlfq_inv mlfq_tick.
Proof.
  unfold mlfq_tick. apply keeps_bind; [auto with keeps|].
  intros p k [H1 H2 H3]. unfold STARVATION_THRESHOLD in H2.
  unfold wp. rewrite bind_modify, bind_gets. kcbn. rewrite i32_small by lia.
  assert (∀ k, mlfq_inv k -> wp mlfq_inv (match p with
    | Some p => write_proc p tick_proc | None => mret () end) (λ _, mlfq_inv) k) as Hlast.
  { destruct p; [apply mlfq_write, mlfq_ok_tick|apply keeps_ret]. }
  destruct (Z.leb_spec STARVATION_THRESHOLD (starvation_counter k + 1)) as [Hc|Hc]; cbn [when].
  - rewrite bind_bind. erewrite bind_Ret by (apply boost_all_priorities_eq; exact H3).
    rewrite bind_modify. apply Hlast. split; kcbn; [|done|by rewrite length_fmap].
    apply Forall_fmap. eapply Forall_impl; [done|]. apply mlfq_ok_boost.
  - rewrite bind_ret. apply Hlast. split; kcbn; [done|lia|done].
Qed.

Lemma keeps_allocpid (I : kernel -> Prop) :
  TableInv I -> (∀ k, I k -> I (k <| nextpid := i32 (nextpid k + 1) |>)) -> keeps I allocpid.
Proof. intros HI Hn. unfold allocpid. keep. Qed.

Lemma mlfq_allocproc_slot p : keeps mlfq_inv (allocproc_slot p).
Proof.
  unfold allocproc_slot. apply keeps_bind.
  { apply keeps_allocpid; [apply _|]. intros k []. by split. }
  intros pid k [H1 H2 H3]. unfold wp, init_mlfq_proc, write_proc.
  rewrite !bind_modify, bind_gets. unfold modify.
  split; kcbn; [|done|by rewrite !length_upd].
  rewrite !upd_upd. apply mlfq_upd_any; [|done]. intros r. apply mlfq_ok_init.
Qed.
Hint Resolve mlfq_allocproc_slot : keeps.

End mlfq_keeps.

(** ** Process identifiers *)

Record pid_inv (k : kernel) : Prop := {
  pid_fresh i : p_state (procs k !!! i) ≠ UNUSED -> 0 < p_pid (procs k !!! i) < nextpid k;
  pid_unique i j : i ≠ j -> p_state (procs k !!! i) ≠ UNUSED -> p_state (procs k !!! j) ≠ UNUSED ->
    p_pid (procs k !!! i) ≠ p_pid (procs k !!! j);
}.

#[export] Instance pid_stable : StableInv pid_inv.
Proof.
  split.
  - intros k k' E1 _ _ E3 [H1 H2]. split; intros; rewrite ?E1, ?E3 in *; auto.
  - intros k i f [H1 H2] Hf.
    assert (∀ j, p_state (upd i f (procs k) !!! j) ≠ UNUSED ->
      p_state (procs k !!! j) ≠ UNUSED ∧ p_pid (upd i f (procs k) !!! j) = p_pid (procs k !!! j)) as Hj.
    { intros j. destruct (upd_cases i f (procs k) j) as [->|[<- ->]]; [done|]. intros Hs.
      destruct Hf as [(_ & _ & _ & E & Hu)|]; [split; auto|done]. }
    split; kcbn.
    + intros j Hs. destruct (Hj j Hs) as [Hs' ->]. by apply H1.
    + intros j j' Hne Hs Hs'. destruct (Hj j Hs) as [? ->], (Hj j' Hs') as [? ->]. by apply H2.
  - intros f k []. by split.
Qed.

(** Updates that leave states and identifiers alone. *)
Lemma pid_write i f : (∀ r, p_state (f r) = p_state r ∨ p_state r ≠ UNUSED) ->
  (∀ r, p_pid (f r) = p_pid r) -> keeps pid_inv (write_proc i f).
Proof.
  intros Hs Hp. apply keeps_modify. intros k [H1 H2].
  assert (∀ j, p_pid (upd i f (procs k) !!! j) = p_pid (procs k !!! j) ∧
    (p_state (upd i f (procs k) !!! j) ≠ UNUSED -> p_state (procs k !!! j) ≠ UNUSED)) as Hj.
  { intros j. destruct (upd_cases i f (procs k) j) as [->|[_ ->]]; [done|].
    split; [done|]. destruct (Hs (procs k !!! j)) as [->|]; done. }
  split; kcbn.
  - intros j Hj'. destruct (Hj j) as [-> Hu]. auto.
  - intros j j' Hne Hs1 Hs2. destruct (Hj j) as [-> ?], (Hj j') as [-> ?]. auto.
Qed.

Section pid_keeps.
Context {L : Linker}.

Lemma pid_modify f : (∀ k, procs (f k) = procs k) -> (∀ k, nextpid (f k) = nextpid k) ->
  keeps pid_inv (modify f).
Proof.
  intros E1 E2. apply keeps_modify. intros k [H1 H2]. split; intros; rewrite ?E1, ?E2 in *; auto.
Qed.

Lemma pid_mlfq_tick : keeps pid_inv mlfq_tick.
Proof.
  unfold mlfq_tick, boost_all_priorities.
  keep; try (by apply pid_modify); apply pid_write; intros r; unfold boost_proc, tick_proc.
  - destruct (_ || _); by left.
  - by destruct (_ || _).
  - case_bool_decide as E; [right; congruence|by left].
  - case_bool_decide; [|done]. cbv zeta. destruct (_ <=? _); [|done]. by destruct (_ <? _).
Qed.

Lemma allocpid_wp (I : kernel -> Prop) k :
  TableInv I -> I k -> (∀ k', procs k' = procs k -> nextpid k' = nextpid k + 1 -> I k') ->
  -1 <= nextpid k < 2 ^ 31 - 1 ->
  wp I allocpid (λ pid k', pid = nextpid k ∧ procs k' = procs k ∧ nextpid k' = nextpid k + 1) k.
Proof.
  intros HI Hk Hk' Hn. unfold allocpid. apply wp_bind.
  set (J k' := I k' ∧ procs k' = procs k ∧ nextpid k' = nextpid k).
  assert (TableInv J) as HJ.
  { intros k1 k2 E1 E2 E3 E4 (H1 & H2 & H3). split_and!; [|congruence..]. by apply (HI k1). }
  set (J' k' := procs k' = procs k ∧ nextpid k' = nextpid k + 1).
  assert (TableInv J') as HJ'.
  { intros k1 k2 E1 E2 E3 E4 (H1 & H2). split; congruence. }
  apply (wp_weaken J) with (Q := λ _, wp _ _ _); [by intros ? []|].
  eapply wp_mono; [|apply (keeps_acquire J); by split_and!].
  intros [] k1 (H1 & E1 & E2). apply wp_bind. unfold wp at 1, gets at 1. apply wp_bind.
  unfold wp at 1, modify. apply wp_bind. 
  apply (wp_weaken J') with (Q := λ _, wp _ _ _). { intros k2 [? ?]. by apply Hk'. }
  eapply wp_mono; [|apply (keeps_release J'); split; kcbn; [done|]; rewrite E2, i32_small; lia].
  intros [] k2 [E3 E4]. split_and!; [exact E2|done..].
Qed.

Lemma pid_allocproc_slot p k :
  pid_inv k -> p_state (procs k !!! p) = UNUSED -> 0 < nextpid k < 2 ^ 31 - 1 ->
  wp pid_inv (allocproc_slot p) (λ _, pid_inv) k.
Proof.
  intros Hk Hs Hn. unfold allocproc_slot. apply wp_bind.
  assert (∀ k', procs k' = procs k -> nextpid k' = nextpid k + 1 -> pid_inv k') as Hk'.
  { intros k' E1 E2. destruct Hk as [H1 H2]. split; intros; rewrite ?E1, ?E2 in *; [|auto].
    specialize (H1 i H). lia. }
  eapply wp_mono; [|apply allocpid_wp; [apply _|done|exact Hk'|lia]].
  intros pid k1 (-> & E1 & E2). apply wp_bind. unfold wp at 1, write_proc, modify. apply wp_bind.
  unfold wp at 1, modify. apply wp_bind. unfold wp at 1, gets. unfold wp, modify. 
  unfold write_proc, modify; cbv beta iota.
  lazymatch goal with |- pid_inv ?s =>
    replace s with (k1 <| procs ::= upd p (init_mlfq_fields (ticks k1) ∘
      ((λ r, r <| p_state := USED |>) ∘ (λ r, r <| p_pid := nextpid k |>))) |>)
      by (kcbv; by rewrite !upd_upd) end.
  set (f := _ ∘ _). assert (∀ r, p_pid (f r) = nextpid k) as Hf by done. clearbody f.
  destruct Hk as [H1 H2].
  assert (∀ j, p_state (upd p f (procs k) !!! j) ≠ UNUSED ->
    upd p f (procs k) !!! j = procs k !!! j ∧ p_state (procs k !!! j) ≠ UNUSED
    ∨ j = p ∧ p_pid (upd p f (procs k) !!! j) = nextpid k) as Hps.
  { intros j. destruct (upd_cases p f (procs k) j) as [->|[<- ->]]; [by left|]. by right. }
  split; kcbn; rewrite ?E1, ?E2.
  - intros j Hj. destruct (Hps j Hj) as [[-> Hj']|[-> ->]]; [|lia]. specialize (H1 j Hj'). lia.
  - intros j j' Hne Hj Hj'. destruct (Hps j Hj) as [[-> Hs1]|[-> ->]], (Hps j' Hj') as [[-> Hs2]|[-> ->]].
    + by apply H2.
    + specialize (H1 j Hs1). lia.
    + specialize (H1 j' Hs2). lia.
    + done.
Qed.
End pid_keeps.
