(* ===== verification/KernelFrame.v ===== *)
(** * Code that leaves the scheduling of processes alone

    The drivers, the file system, pipes and [exec] reach the process table
    only through [sleep], [wakeup] and the fields of the calling process that
    the scheduler does not use.  So they keep every property of the table that
    these keep. *)
From S2P Require Import Prelude Layout KState Spinlock CString Kalloc Vm Proc Uart Console Sleeplock Virtio Bio Log Fs Pipe File Trap Exec.
From S2P Require Import Sysfile Syscall Usertrap SchedEq Demo Mlfq SchedInv.

(** The state, the pid and the scheduling fields stay. *)
Definition untouched (p q : proc) : Prop :=
  p_state q = p_state p ∧ p_pid q = p_pid p ∧ p_priority q = p_priority p ∧ p_timeslice q = p_timeslice p ∧
  p_timeslice_used q = p_timeslice_used p.

Class FrameInv {W : World} (J : kernel -> Prop) : Prop := {
  frame_table :: TableInv J;
  frame_sleep ch lk : keeps J (sleep ch lk);
  frame_wakeup ch : keeps J (wakeup ch);
  frame_write i f : (∀ r, untouched r (f r)) -> keeps J (write_proc i f);
}.

#[export] Hint Resolve frame_sleep : keeps.
#[export] Hint Extern 1 (keeps _ (wakeup _)) => apply frame_wakeup : keeps.
#[export] Hint Extern 1 (keeps _ (write_proc _ _)) => apply frame_write; intros; solve [repeat split] : keeps.
#[export] Hint Extern 2 (keeps _ (modify _)) => apply keeps_modify_frame; [typeclasses eauto|done..] : keeps.
#[export] Hint Extern 1 (FrameInv _) => typeclasses eauto : keeps.

Section frame.
Context {L : Linker} {W : World} (J : kernel -> Prop) {HJ : FrameInv J}.

Local Tactic Notation "go" reference(x) := intros; unfold x; keep; repeat (case_match; keep).

(** ** The UART and the console *)

Lemma fr_io_write a v : keeps J (io_write a v).
Proof. go io_write. Qed.
Hint Resolve fr_io_write : keeps.
Lemma fr_ReadReg r : keeps J (ReadReg r).
Proof. go ReadReg. Qed.
Lemma fr_WriteReg r v : keeps J (WriteReg r v).
Proof. go WriteReg. Qed.
Hint Resolve fr_ReadReg fr_WriteReg : keeps.
Lemma fr_uartinit : keeps J uartinit.
Proof. go uartinit. Qed.
Lemma fr_uart_wait : keeps J uart_wait.
Proof. go uart_wait. Qed.
Hint Resolve fr_uart_wait : keeps.
Lemma fr_uartwrite buf : keeps J (uartwrite buf).
Proof. go uartwrite. Qed.
Lemma fr_uartputc_sync c : keeps J (uartputc_sync c).
Proof. go uartputc_sync. Qed.
Lemma fr_uartgetc : keeps J uartgetc.
Proof. go uartgetc. Qed.
Hint Resolve fr_uartinit fr_uartwrite fr_uartputc_sync fr_uartgetc : keeps.
Lemma fr_consputc c : keeps J (consputc c).
Proof. go consputc. Qed.
Hint Resolve fr_consputc : keeps.
Lemma fr_printint x b s : keeps J (printint x b s).
Proof. go printint. Qed.
Lemma fr_printptr x : keeps J (printptr x).
Proof. go printptr. Qed.
Hint Resolve fr_printint fr_printptr : keeps.
Lemma fr_printf_fmt fmt ap : keeps J (printf_fmt fmt ap).
Proof.
  unfold printf_fmt. keep. generalize (length fmt). intros n. revert fmt ap.
  induction n as [|n IH]; intros [|c fmt] ap; cbn [printf_loop]; keep.
Qed.
Hint Resolve fr_printf_fmt : keeps.
Lemma fr_printf fmt ap : keeps J (printf fmt ap).
Proof. go printf. Qed.
Hint Resolve fr_printf : keeps.

Lemma fr_write_cons f : keeps J (write_cons f).
Proof. go write_cons. Qed.
Hint Resolve fr_write_cons : keeps.
Lemma fr_consolewrite u src n : keeps J (consolewrite u src n).
Proof.
  unfold consolewrite. generalize (S (Z.to_nat n)), 0. intros fuel.
  induction fuel as [|fuel IH]; intros i; cbn [consolewrite_loop]; keep.
Qed.
Lemma fr_cons_wait : keeps J cons_wait.
Proof. go cons_wait. Qed.
Hint Resolve fr_consolewrite fr_cons_wait : keeps.
Lemma fr_consoleread u dst n : keeps J (consoleread u dst n).
Proof.
  unfold consoleread. keep. generalize (Z.to_nat n) at 1. intros fuel. revert dst.
  induction fuel as [|fuel IH]; intros dst; cbn [consoleread_loop]; keep.
Qed.
Lemma fr_cons_kill : keeps J cons_kill.
Proof. go cons_kill. Qed.
Lemma fr_cons_erase : keeps J cons_erase.
Proof. go cons_erase. Qed.
Lemma fr_cons_input c : keeps J (cons_input c).
Proof. go cons_input. Qed.
Lemma fr_procdump : keeps J procdump.
Proof. go procdump. Qed.
Hint Resolve fr_consoleread fr_cons_kill fr_cons_erase fr_cons_input fr_procdump : keeps.
Lemma fr_consoleintr c : keeps J (consoleintr c).
Proof. go consoleintr. Qed.
Hint Resolve fr_consoleintr : keeps.
Lemma fr_consoleinit : keeps J consoleinit.
Proof. go consoleinit. Qed.
Lemma fr_uartintr : keeps J uartintr.
Proof. go uartintr. Qed.
Hint Resolve fr_consoleinit fr_uartintr : keeps.

(** ** Sleep locks and the disk *)

Lemma fr_write_sleeplock l f : keeps J (write_sleeplock l f).
Proof. go write_sleeplock. Qed.
Hint Resolve fr_write_sleeplock : keeps.
Lemma fr_initsleeplock l : keeps J (initsleeplock l).
Proof. go initsleeplock. Qed.
Lemma fr_my_pid : keeps J my_pid.
Proof. go my_pid. Qed.
Hint Resolve fr_initsleeplock fr_my_pid : keeps.
Lemma fr_acquiresleep l : keeps J (acquiresleep l).
Proof. go acquiresleep. Qed.
Lemma fr_releasesleep l : keeps J (releasesleep l).
Proof. go releasesleep. Qed.
Lemma fr_holdingsleep l : keeps J (holdingsleep l).
Proof. go holdingsleep. Qed.
Hint Resolve fr_acquiresleep fr_releasesleep fr_holdingsleep : keeps.

Lemma fr_read_vd {A} (f : vdisk -> A) : keeps J (read_vd f).
Proof. go read_vd. Qed.
Lemma fr_write_vd f : keeps J (write_vd f).
Proof. go write_vd. Qed.
Hint Resolve fr_read_vd fr_write_vd : keeps.
Lemma fr_write_desc i f : keeps J (write_desc i f).
Proof. go write_desc. Qed.
Lemma fr_write_buf b f : keeps J (write_buf b f).
Proof. go write_buf. Qed.
Lemma fr_R r : keeps J (R r).
Proof. go R. Qed.
Lemma fr_R_write r v : keeps J (R_write r v).
Proof. go R_write. Qed.
Hint Resolve fr_write_desc fr_write_buf fr_R fr_R_write : keeps.
Lemma fr_virtio_disk_init : keeps J virtio_disk_init.
Proof. go virtio_disk_init. Qed.
Lemma fr_alloc_desc : keeps J alloc_desc.
Proof. go alloc_desc. Qed.
Lemma fr_free_desc i : keeps J (free_desc i).
Proof. go free_desc. Qed.
Hint Resolve fr_virtio_disk_init fr_alloc_desc fr_free_desc : keeps.
Lemma fr_free_chain i : keeps J (free_chain i).
Proof. unfold free_chain. generalize (S NUM). intros n. revert i. induction n as [|n IH]; intros i; cbn [free_chain_loop]; keep. Qed.
Lemma fr_alloc3_desc : keeps J alloc3_desc.
Proof. unfold alloc3_desc. generalize 3%nat, (@nil Z). intros n. induction n as [|n IH]; intros l; cbn [alloc3_loop]; keep. Qed.
Lemma fr_format_request b w s i0 i1 i2 : keeps J (format_request b w s i0 i1 i2).
Proof. go format_request. Qed.
Hint Resolve fr_free_chain fr_alloc3_desc fr_format_request : keeps.
Lemma fr_virtio_disk_rw b w : keeps J (virtio_disk_rw b w).
Proof. go virtio_disk_rw. Qed.
Lemma fr_virtio_disk_intr : keeps J virtio_disk_intr.
Proof. go virtio_disk_intr. Qed.
Hint Resolve fr_virtio_disk_rw fr_virtio_disk_intr : keeps.

(** ** Buffers and the log *)

Lemma fr_read_buf {A} b (f : buf -> A) : keeps J (read_buf b f).
Proof. go read_buf. Qed.
Hint Resolve fr_read_buf : keeps.
Lemma fr_binit : keeps J binit.
Proof. go binit. Qed.
Lemma fr_bget_cached n b d bn : keeps J (bget_cached n b d bn).
Proof. revert b. induction n as [|n IH]; intros b; cbn [bget_cached]; keep. Qed.
Lemma fr_bget_unused n b : keeps J (bget_unused n b).
Proof. revert b. induction n as [|n IH]; intros b; cbn [bget_unused]; keep. Qed.
Hint Resolve fr_binit fr_bget_cached fr_bget_unused : keeps.
Lemma fr_bget d bn : keeps J (bget d bn).
Proof. go bget. Qed.
Hint Resolve fr_bget : keeps.
Lemma fr_bread d bn : keeps J (bread d bn).
Proof. go bread. Qed.
Lemma fr_bwrite b : keeps J (bwrite b).
Proof. go bwrite. Qed.
Lemma fr_brelse b : keeps J (brelse b).
Proof. go brelse. Qed.
Lemma fr_bpin b : keeps J (bpin b).
Proof. go bpin. Qed.
Lemma fr_bunpin b : keeps J (bunpin b).
Proof. go bunpin. Qed.
Hint Resolve fr_bread fr_bwrite fr_brelse fr_bpin fr_bunpin : keeps.

Lemma fr_read_log {A} (f : logstate -> A) : keeps J (read_log f).
Proof. go read_log. Qed.
Lemma fr_write_log_state f : keeps J (write_log_state f).
Proof. go write_log_state. Qed.
Hint Resolve fr_read_log fr_write_log_state : keeps.
Lemma fr_for_tail body : (∀ i, keeps J (body i)) -> keeps J (for_tail body).
Proof. intros H. go for_tail. Qed.
Lemma fr_install_trans r : keeps J (install_trans r).
Proof. unfold install_trans. apply fr_for_tail. intros. keep. Qed.
Lemma fr_read_head : keeps J read_head.
Proof. go read_head. apply fr_for_tail. intros. keep. Qed.
Lemma fr_write_head : keeps J write_head.
Proof. go write_head. apply fr_for_tail. intros. keep. Qed.
Hint Resolve fr_install_trans fr_read_head fr_write_head : keeps.
Lemma fr_recover_from_log : keeps J recover_from_log.
Proof. go recover_from_log. Qed.
Hint Resolve fr_recover_from_log : keeps.
Lemma fr_initlog d s : keeps J (initlog d s).
Proof. go initlog. Qed.
Lemma fr_begin_op : keeps J begin_op.
Proof. go begin_op. Qed.
Lemma fr_write_log : keeps J write_log.
Proof. unfold write_log. apply fr_for_tail. intros. keep. Qed.
Hint Resolve fr_initlog fr_begin_op fr_write_log : keeps.
Lemma fr_commit : keeps J commit.
Proof. go commit. Qed.
Hint Resolve fr_commit : keeps.
Lemma fr_end_op : keeps J end_op.
Proof. go end_op. Qed.
Lemma fr_log_write b : keeps J (log_write b).
Proof. go log_write. Qed.
Hint Resolve fr_end_op fr_log_write : keeps.

(** ** The file system *)

Lemma fr_read_inode {A} ip (f : inode -> A) : keeps J (read_inode ip f).
Proof. go read_inode. Qed.
Lemma fr_write_inode ip f : keeps J (write_inode ip f).
Proof. go write_inode. Qed.
Lemma fr_read_sb {A} (f : superblock -> A) : keeps J (read_sb f).
Proof. go read_sb. Qed.
Lemma fr_write_data b f : keeps J (write_data b f).
Proof. go write_data. Qed.
Hint Resolve fr_read_inode fr_write_inode fr_read_sb fr_write_data : keeps.
Lemma fr_readsb d : keeps J (readsb d).
Proof. go readsb. Qed.
Lemma fr_bzero d b : keeps J (bzero d b).
Proof. go bzero. Qed.
Hint Resolve fr_readsb fr_bzero : keeps.
Lemma fr_balloc_loop n d b : keeps J (balloc_loop n d b).
Proof. revert b. induction n as [|n IH]; intros b; cbn [balloc_loop]; keep. Qed.
Hint Resolve fr_balloc_loop : keeps.
Lemma fr_balloc d : keeps J (balloc d).
Proof. go balloc. Qed.
Lemma fr_bfree d b : keeps J (bfree d b).
Proof. go bfree. Qed.
Lemma fr_iinit : keeps J iinit.
Proof. go iinit. Qed.
Lemma fr_iget d i : keeps J (iget d i).
Proof. go iget. Qed.
Hint Resolve fr_balloc fr_bfree fr_iinit fr_iget : keeps.
Lemma fr_ialloc_loop n d i t : keeps J (ialloc_loop n d i t).
Proof. revert i. induction n as [|n IH]; intros i; cbn [ialloc_loop]; keep. Qed.
Hint Resolve fr_ialloc_loop : keeps.
Lemma fr_ialloc d t : keeps J (ialloc d t).
Proof. go ialloc. Qed.
Lemma fr_iupdate ip : keeps J (iupdate ip).
Proof. go iupdate. Qed.
Lemma fr_idup ip : keeps J (idup ip).
Proof. go idup. Qed.
Lemma fr_ilock ip : keeps J (ilock ip).
Proof. go ilock. Qed.
Lemma fr_iunlock ip : keeps J (iunlock ip).
Proof. go iunlock. Qed.
Hint Resolve fr_ialloc fr_iupdate fr_idup fr_ilock fr_iunlock : keeps.
Lemma fr_itrunc ip : keeps J (itrunc ip).
Proof. go itrunc. Qed.
Hint Resolve fr_itrunc : keeps.
Lemma fr_iput ip : keeps J (iput ip).
Proof. go iput. Qed.
Hint Resolve fr_iput : keeps.
Lemma fr_iunlockput ip : keeps J (iunlockput ip).
Proof. go iunlockput. Qed.
Lemma fr_ireclaim d : keeps J (ireclaim d).
Proof. go ireclaim. Qed.
Hint Resolve fr_iunlockput fr_ireclaim : keeps.
Lemma fr_fsinit d : keeps J (fsinit d).
Proof. go fsinit. Qed.
Lemma fr_bmap ip bn : keeps J (bmap ip bn).
Proof. go bmap. Qed.
Lemma fr_stati ip : keeps J (stati ip).
Proof. go stati. Qed.
Lemma fr_copy_to d t bs : keeps J (copy_to d t bs).
Proof. go copy_to. Qed.
Lemma fr_copy_from s t m : keeps J (copy_from s t m).
Proof. go copy_from. Qed.
Hint Resolve fr_fsinit fr_bmap fr_stati fr_copy_to fr_copy_from : keeps.
Lemma fr_readi_loop fuel ip dst tot off n acc : keeps J (readi_loop fuel ip dst tot off n acc).
Proof. revert tot off acc. induction fuel as [|fuel IH]; intros tot off acc; cbn [readi_loop]; keep. Qed.
Lemma fr_writei_loop fuel ip src tot off n : keeps J (writei_loop fuel ip src tot off n).
Proof. revert tot off. induction fuel as [|fuel IH]; intros tot off; cbn [writei_loop]; keep. Qed.
Hint Resolve fr_readi_loop fr_writei_loop : keeps.
Lemma fr_readi ip dst off n : keeps J (readi ip dst off n).
Proof. go readi. Qed.
Lemma fr_writei ip src off n : keeps J (writei ip src off n).
Proof. go writei. Qed.
Hint Resolve fr_readi fr_writei : keeps.
Lemma fr_dirlookup_loop fuel dp name off : keeps J (dirlookup_loop fuel dp name off).
Proof. revert off. induction fuel as [|fuel IH]; intros off; cbn [dirlookup_loop]; keep. Qed.
Hint Resolve fr_dirlookup_loop : keeps.
Lemma fr_dirlookup dp name : keeps J (dirlookup dp name).
Proof. go dirlookup. Qed.
Lemma fr_dirlink_loop fuel dp off : keeps J (dirlink_loop fuel dp off).
Proof. revert off. induction fuel as [|fuel IH]; intros off; cbn [dirlink_loop]; keep. Qed.
Hint Resolve fr_dirlookup fr_dirlink_loop : keeps.
Lemma fr_dirlink dp name inum : keeps J (dirlink dp name inum).
Proof. go dirlink. Qed.
Lemma fr_namex_loop fuel ip path parent name : keeps J (namex_loop fuel ip path parent name).
Proof. revert ip path name. induction fuel as [|fuel IH]; intros ip path name; cbn [namex_loop]; keep. Qed.
Hint Resolve fr_namex_loop : keeps.
Lemma fr_namex path parent : keeps J (namex path parent).
Proof. go namex. Qed.
Hint Resolve fr_dirlink fr_namex : keeps.
Lemma fr_namei path : keeps J (namei path).
Proof. go namei. Qed.
Lemma fr_nameiparent path : keeps J (nameiparent path).
Proof. go nameiparent. Qed.
Hint Resolve fr_namei fr_nameiparent : keeps.

(** ** Pipes and files *)

Lemma fr_read_pipe {A} pi (f : pipe -> A) : keeps J (read_pipe pi f).
Proof. go read_pipe. Qed.
Lemma fr_write_pipe pi f : keeps J (write_pipe pi f).
Proof. go write_pipe. Qed.
Hint Resolve fr_read_pipe fr_write_pipe : keeps.
Lemma fr_pipeclose pi w : keeps J (pipeclose pi w).
Proof. go pipeclose. Qed.
Lemma fr_pipewrite_byte pr pi addr i : keeps J (pipewrite_byte pr pi addr i).
Proof. go pipewrite_byte. Qed.
Hint Resolve fr_pipeclose fr_pipewrite_byte : keeps.
Lemma fr_pipewrite_loop n pr pi addr i : keeps J (pipewrite_loop n pr pi addr i).
Proof. revert i. induction n as [|n IH]; intros i; cbn [pipewrite_loop]; keep. Qed.
Hint Resolve fr_pipewrite_loop : keeps.
Lemma fr_pipewrite pi addr n : keeps J (pipewrite pi addr n).
Proof. go pipewrite. Qed.
Lemma fr_piperead_wait pr pi : keeps J (piperead_wait pr pi).
Proof. go piperead_wait. Qed.
Hint Resolve fr_pipewrite fr_piperead_wait : keeps.
Lemma fr_piperead_loop n pr pi addr i : keeps J (piperead_loop n pr pi addr i).
Proof. revert i. induction n as [|n IH]; intros i; cbn [piperead_loop]; keep. Qed.
Hint Resolve fr_piperead_loop : keeps.
Lemma fr_piperead pi addr n : keeps J (piperead pi addr n).
Proof. go piperead. Qed.
Hint Resolve fr_piperead : keeps.

Lemma fr_read_file {A} f (g : file -> A) : keeps J (read_file f g).
Proof. go read_file. Qed.
Lemma fr_write_file f g : keeps J (write_file f g).
Proof. go write_file. Qed.
Hint Resolve fr_read_file fr_write_file : keeps.
Lemma fr_fileinit : keeps J fileinit.
Proof. go fileinit. Qed.
Lemma fr_filealloc : keeps J filealloc.
Proof. go filealloc. Qed.
Lemma fr_filedup f : keeps J (filedup f).
Proof. go filedup. Qed.
Lemma fr_fileclose f : keeps J (fileclose f).
Proof. go fileclose. Qed.
Hint Resolve fr_fileinit fr_filealloc fr_filedup fr_fileclose : keeps.
Lemma fr_pipealloc_bad pi f0 f1 : keeps J (pipealloc_bad pi f0 f1).
Proof. go pipealloc_bad. Qed.
Hint Resolve fr_pipealloc_bad : keeps.
Lemma fr_pipealloc : keeps J pipealloc.
Proof. go pipealloc. Qed.
Lemma fr_filestat f addr : keeps J (filestat f addr).
Proof. go filestat. Qed.
Lemma fr_dev_io d addr n : keeps J (dev_io d addr n).
Proof. go dev_io. Qed.
Hint Resolve fr_pipealloc fr_filestat fr_dev_io : keeps.
Lemma fr_fileread f addr n : keeps J (fileread f addr n).
Proof. go fileread. Qed.
Lemma fr_filewrite_loop fuel f addr i n : keeps J (filewrite_loop fuel f addr i n).
Proof. revert i. induction fuel as [|fuel IH]; intros i; cbn [filewrite_loop]; keep. Qed.
Hint Resolve fr_fileread fr_filewrite_loop : keeps.
Lemma fr_filewrite f addr n : keeps J (filewrite f addr n).
Proof. go filewrite. Qed.
Hint Resolve fr_filewrite : keeps.

(** ** [exec] and the system calls on files *)

Lemma fr_curproc : keeps J curproc.
Proof. go curproc. Qed.
Hint Resolve fr_curproc : keeps.
Lemma fr_fetchaddr a : keeps J (fetchaddr a).
Proof. go fetchaddr. Qed.
Lemma fr_fetchstr a m : keeps J (fetchstr a m).
Proof. go fetchstr. Qed.
Lemma fr_argraw n : keeps J (argraw n).
Proof. go argraw. Qed.
Hint Resolve fr_fetchaddr fr_fetchstr fr_argraw : keeps.
Lemma fr_argint n : keeps J (argint n).
Proof. go argint. Qed.
Lemma fr_argaddr n : keeps J (argaddr n).
Proof. go argaddr. Qed.
Hint Resolve fr_argint fr_argaddr : keeps.
Lemma fr_argstr n m : keeps J (argstr n m).
Proof. go argstr. Qed.
Hint Resolve fr_argstr : keeps.
Lemma fr_loadseg_loop fuel pt va ip off i sz : keeps J (loadseg_loop fuel pt va ip off i sz).
Proof. revert i. induction fuel as [|fuel IH]; intros i; cbn [loadseg_loop]; keep. Qed.
Hint Resolve fr_loadseg_loop : keeps.
Lemma fr_loadseg pt va ip off sz : keeps J (loadseg pt va ip off sz).
Proof. go loadseg. Qed.
Hint Resolve fr_loadseg : keeps.
Lemma fr_load_segments n pt ip off sz : keeps J (load_segments n pt ip off sz).
Proof. revert off sz. induction n as [|n IH]; intros off sz; cbn [load_segments]; keep. Qed.
Lemma fr_arg_string a : keeps J (arg_string a).
Proof. go arg_string. Qed.
Hint Resolve fr_load_segments fr_arg_string : keeps.
Lemma fr_push_args argv argc pt sp base us : keeps J (push_args argv argc pt sp base us).
Proof. revert argc sp us. induction argv as [|a argv IH]; intros argc sp us; cbn [push_args]; keep. Qed.
Lemma fr_exec_bad pt sz ip : keeps J (exec_bad pt sz ip).
Proof. go exec_bad. Qed.
Lemma fr_uvmclear pt va : keeps J (uvmclear pt va).
Proof. go uvmclear. Qed.
Hint Resolve fr_push_args fr_exec_bad fr_uvmclear : keeps.
Lemma fr_exec_stack path argv e pt sz : keeps J (exec_stack path argv e pt sz).
Proof. go exec_stack. Qed.
Hint Resolve fr_exec_stack : keeps.
Lemma fr_kexec path argv : keeps J (kexec path argv).
Proof. go kexec. Qed.
Hint Resolve fr_kexec : keeps.

Lemma fr_argfd n : keeps J (argfd n).
Proof. go argfd. Qed.
Lemma fr_fdalloc f : keeps J (fdalloc f).
Proof. go fdalloc. Qed.
Lemma fr_set_ofile p fd f : keeps J (set_ofile p fd f).
Proof. go set_ofile. Qed.
Hint Resolve fr_argfd fr_fdalloc fr_set_ofile : keeps.
Lemma fr_sys_dup : keeps J sys_dup.
Proof. go sys_dup. Qed.
Lemma fr_sys_read : keeps J sys_read.
Proof. go sys_read. Qed.
Lemma fr_sys_write : keeps J sys_write.
Proof. go sys_write. Qed.
Lemma fr_sys_close : keeps J sys_close.
Proof. go sys_close. Qed.
Lemma fr_sys_fstat : keeps J sys_fstat.
Proof. go sys_fstat. Qed.
Lemma fr_link_bad ip : keeps J (link_bad ip).
Proof. go link_bad. Qed.
Hint Resolve fr_link_bad : keeps.
Lemma fr_sys_link : keeps J sys_link.
Proof. go sys_link. Qed.
Lemma fr_isdirempty_loop fuel dp off : keeps J (isdirempty_loop fuel dp off).
Proof. revert off. induction fuel as [|fuel IH]; intros off; cbn [isdirempty_loop]; keep. Qed.
Hint Resolve fr_isdirempty_loop : keeps.
Lemma fr_isdirempty dp : keeps J (isdirempty dp).
Proof. go isdirempty. Qed.
Lemma fr_unlink_bad dp : keeps J (unlink_bad dp).
Proof. go unlink_bad. Qed.
Hint Resolve fr_isdirempty fr_unlink_bad : keeps.
Lemma fr_sys_unlink : keeps J sys_unlink.
Proof. go sys_unlink. Qed.
Lemma fr_create_fail ip dp : keeps J (create_fail ip dp).
Proof. go create_fail. Qed.
Lemma fr_create_dots ip dp : keeps J (create_dots ip dp).
Proof. go create_dots. Qed.
Hint Resolve fr_create_fail fr_create_dots : keeps.
Lemma fr_create path t ma mi : keeps J (create path t ma mi).
Proof. go create. Qed.
Hint Resolve fr_create : keeps.
Lemma fr_open_inode path m : keeps J (open_inode path m).
Proof. go open_inode. Qed.
Hint Resolve fr_open_inode : keeps.
Lemma fr_sys_open : keeps J sys_open.
Proof. go sys_open. Qed.
Lemma fr_sys_mkdir : keeps J sys_mkdir.
Proof. go sys_mkdir. Qed.
Lemma fr_sys_mknod : keeps J sys_mknod.
Proof. go sys_mknod. Qed.
Lemma fr_sys_chdir : keeps J sys_chdir.
Proof. go sys_chdir. Qed.
Lemma fr_exec_args n u argv : keeps J (exec_args n u argv).
Proof. revert argv. induction n as [|n IH]; intros argv; cbn [exec_args]; keep; case_match; keep. Qed.
Hint Resolve fr_exec_args : keeps.
Lemma fr_sys_exec : keeps J sys_exec.
Proof. go sys_exec. Qed.
Lemma fr_sys_pipe : keeps J sys_pipe.
Proof. go sys_pipe. Qed.

(** ** The other system calls and returning to user space *)

Lemma fr_ticks_wait t n : keeps J (ticks_wait t n).
Proof. go ticks_wait. Qed.
Hint Resolve fr_ticks_wait : keeps.
Lemma fr_sys_getpid : keeps J sys_getpid.
Proof. go sys_getpid. Qed.
Lemma fr_sys_pause : keeps J sys_pause.
Proof. go sys_pause. Qed.
Lemma fr_sys_uptime : keeps J sys_uptime.
Proof. go sys_uptime. Qed.
Lemma fr_sys_sleep : keeps J sys_sleep.
Proof. go sys_sleep. Qed.
Lemma fr_sys_getprocinfo : keeps J sys_getprocinfo.
Proof. go sys_getprocinfo. Qed.
Lemma fr_growproc n : keeps J (growproc n).
Proof. go growproc. Qed.
Hint Resolve fr_growproc : keeps.
Lemma fr_sys_sbrk : keeps J sys_sbrk.
Proof. go sys_sbrk. Qed.
Lemma fr_setkilled p : keeps J (setkilled p).
Proof. go setkilled. Qed.
Lemma fr_reparent p : keeps J (reparent p).
Proof. go reparent. Qed.
Lemma fr_prepare_return : keeps J prepare_return.
Proof. go prepare_return. Qed.
Hint Resolve fr_prepare_return : keeps.
Lemma fr_forkret : keeps J forkret.
Proof. go forkret. Qed.
Lemma fr_plic_claim : keeps J plic_claim.
Proof. go plic_claim. Qed.
Lemma fr_plic_complete irq : keeps J (plic_complete irq).
Proof. go plic_complete. Qed.
End frame.
