(* ===== verification/ProcInv.v ===== *)
(** * Fork, exit, system calls and traps keep the process table's invariants

    What [SchedInv] shows of the operations of [Proc] is carried through the
    code that calls them: [kfork], [kexit], [userinit] and [forkret], every
    system call, and the two trap handlers.  The theorems say that the levels
    of the processes and their identifiers are right after each of these,
    whichever way it ends. *)
From Stdlib Require Import String.
From S2P Require Import Prelude Layout KState Spinlock CString Kalloc Vm Proc Uart Console Sleeplock Virtio Bio Log Fs Pipe File Trap Exec.
From S2P Require Import Sysfile Syscall Usertrap SchedEq Demo Mlfq SchedInv KernelFrame.

Lemma untouched_soft p q : untouched p q -> soft p q.
Proof.
  intros (Es & Ei & E1 & E2 & E3). split.
  - left. split_and!; congruence.
  - unfold in_use. by rewrite Es.
Qed.

(** One step of a program whose states satisfy [J], then the rest. *)
Lemma wp_step {A B} (I J : kernel -> Prop) (m : M A) (f : A -> M B) Q k :
  (∀ k, J k -> I k) -> keeps J m -> (∀ a k', J k' -> wp I (f a) Q k') -> J k -> wp I (m ≫= f) Q k.
Proof.
  intros HJ Hm Hf Hk. apply wp_bind, (wp_weaken J); [done|]. eapply wp_mono; [|by apply Hm].
  intros a k'. apply Hf.
Qed.

Section table.
Context {L : Linker} {W : World} (J : kernel -> Prop) {HJ : TableInv J}.

Lemma keeps_filedup f : keeps J (filedup f).
Proof. unfold filedup, read_file, write_file. keep. Qed.
Lemma keeps_idup ip : keeps J (idup ip).
Proof. unfold idup, write_inode. keep. Qed.
Lemma keeps_iget dev inum : keeps J (iget dev inum).
Proof. unfold iget, write_inode. keep. Qed.

(** The root directory is found without reading a block. *)
Lemma keeps_namei_root : keeps J (namei (str "/")).
Proof.
  unfold namei, namex. apply keeps_bind; [|intros []; keep].
  change (keeps J (ip ← iget ROOTDEV ROOTINO; mret (Some ip, @nil Z))).
  apply keeps_bind; [apply keeps_iget|intros; keep].
Qed.
Lemma keeps_curproc : keeps J curproc.
Proof. unfold curproc. keep. Qed.
End table.
#[export] Hint Resolve keeps_filedup keeps_idup keeps_namei_root keeps_curproc : keeps.

Section proc.
Context {L : Linker} {W : World} (I : kernel -> Prop) {HI : StableInv I}.

(** ** Taking a free slot *)

(** Code called by the process [me], or by none. *)
Definition from (me : option nat) : kernel -> Prop :=
  match me with Some p => act I p | None => idle I end.

#[local] Instance from_soft me : SoftInv (from me).
Proof. destruct me; apply _. Qed.

Lemma from_here me k : from me k -> here I k.
Proof. destruct me; [apply act_here|apply idle_here]. Qed.
Lemma here_from k : here I k -> ∃ me, from me k.
Proof. intros Hk. destruct (here_cases I k Hk) as [?|[p ?]]; [by exists None|by exists (Some p)]. Qed.
Lemma from_inv me k : from me k -> I k.
Proof. intros Hk. by apply here_inv, (from_here me). Qed.
Lemma from_cur me k : from me k -> c_proc (my_cpu (mach k)) = me.
Proof. destruct me; [by intros (_ & ? & _)|by intros []]. Qed.

(** Nothing else of a state matters to [from]. *)
Lemma from_intro me k k' :
  from me k -> I k' -> c_proc (my_cpu (mach k')) = me ->
  (∀ p, me = Some p -> procs k' !!! p = procs k !!! p) -> from me k'.
Proof.
  destruct me as [p|]; [|by split]. intros (_ & _ & Hs) Hk Hc Hp. split_and!; [done..|]. by rewrite (Hp p).
Qed.

Lemma from_upd_other me i g k :
  me ≠ Some i -> harmless (procs k !!! i) (g (procs k !!! i)) -> from me k -> from me (k <| procs ::= upd i g |>).
Proof.
  intros Hne Hg Hk. apply (from_intro me k); [done|apply stable_upd; [by apply (from_inv me)|done]|exact (from_cur me k Hk)|].
  intros p ->. kcbn. by destruct (upd_cases i g (procs k) p) as [->|[-> _]].
Qed.
Lemma from_freeproc me i : me ≠ Some i -> keeps (from me) (freeproc i).
Proof.
  intros Hne. unfold freeproc. keep; apply keeps_modify; intros k; apply from_upd_other; try done; [harm|by right].
Qed.

(** A slot that is taken; [upd] does not reach one beyond the table. *)
Definition taken (np : nat) (k : kernel) : Prop :=
  p_state (procs k !!! np) ≠ UNUSED ∨ (length (procs k) <= np)%nat.
Definition new (me : option nat) (np : nat) (k : kernel) : Prop := from me k ∧ me ≠ Some np ∧ taken np k.

#[local] Instance taken_table np : TableInv (taken np).
Proof. intros k k' E1 E2 E3 E4. unfold taken. by rewrite E1. Qed.
#[local] Instance new_table me np : TableInv (new me np).
Proof. intros k k' E1 E2 E3 E4 (H1 & H2 & H3). split_and!; [by apply (table_inv_frame k)|done|by apply (table_inv_frame k)]. Qed.

Lemma taken_write np g : (∀ r, p_state r ≠ UNUSED -> p_state (g r) ≠ UNUSED) -> keeps (taken np) (write_proc np g).
Proof.
  intros Hg. apply keeps_modify. intros k [Hs|Hs]; [left|right]; kcbn; [|by rewrite length_upd].
  destruct (upd_cases np g (procs k) np) as [->|[_ ->]]; auto.
Qed.
Lemma new_write me np g :
  (∀ r, p_state r ≠ UNUSED -> p_state (g r) ≠ UNUSED ∧ harmless r (g r)) -> keeps (new me np) (write_proc np g).
Proof.
  intros Hg. intros k (H1 & H2 & H3). split_and!; [|done|].
  - destruct H3 as [Hs|Hs]; [by apply from_upd_other; [|apply Hg|]|].
    apply (table_inv_frame k); try done. kcbn. unfold upd. by rewrite list_insert_ge.
  - apply (taken_write np g); [|done]. intros r Hr. by apply Hg.
Qed.
Lemma new_from me np k : new me np k -> from me k.
Proof. by intros []. Qed.
Lemma new_inv me np k : new me np k -> I k.
Proof. intros []. by apply (from_inv me). Qed.

Hint Extern 1 (keeps (new _ _) (write_proc _ _)) => apply new_write; intros; split; [done|harm] : keeps.

(** Giving the slot back. *)
Lemma wp_abandon {A} me np (r : A) k :
  new me np k -> wp I (freeproc np ;; release (LkProc np) ;; mret r) (λ v k', v = r ∧ from me k') k.
Proof.
  intros (Hk & Hne & _). apply (wp_step I (from me)); [apply from_inv|by apply from_freeproc| |done].
  intros [] k1 H1. apply (wp_step I (from me)); [apply from_inv|keep| |done]. by intros [] k2 H2.
Qed.

Context (n : Z) (Hslot : ∀ p k, I k -> p_state (procs k !!! p) = UNUSED -> nextpid k = n ->
  wp I (allocproc_slot p) (λ _, I) k).

Lemma allocproc_slot_rest me np k0 :
  keeps (λ k, c_proc (my_cpu (mach k)) = me ∧ ∀ j, j ≠ np -> procs k !!! j = procs k0 !!! j) (allocproc_slot np).
Proof.
  set (J k := c_proc (my_cpu (mach k)) = me ∧ ∀ j, j ≠ np -> procs k !!! j = procs k0 !!! j).
  assert (TableInv J) as HJ.
  { intros k k' E1 E2 _ _ [H1 H2]. split; [by rewrite my_cpu_curs, E2, <- my_cpu_curs|by rewrite E1]. }
  assert (∀ g, keeps J (write_proc np g)) as Hw.
  { intros g. apply keeps_modify. intros k [H1 H2]. split; [exact H1|]. kcbn. intros j Hj.
    destruct (upd_cases np g (procs k) j) as [->|[? _]]; [by apply H2|congruence]. }
  assert (keeps J allocpid) by by apply keeps_allocpid.
  unfold allocproc_slot, init_mlfq_proc. keep.
Qed.

Lemma allocproc_slot_taken np k : wp (λ _, True) (allocproc_slot np) (λ _, taken np) k.
Proof.
  unfold allocproc_slot. apply wp_bind. eapply wp_mono with (Q := λ _ _, True); [|by unfold wp; case_match].
  intros pid k1 _. apply wp_bind. unfold wp at 1, write_proc at 1, modify at 1. apply wp_bind.
  apply (wp_weaken (taken np)); [done|].
  eapply wp_mono with (Q := λ _, taken np).
  - intros [] k2 H2. revert k2 H2. change (keeps (taken np) (init_mlfq_proc np)). unfold init_mlfq_proc. keep.
    by apply taken_write.
  - unfold wp, write_proc, modify, taken. kcbn. rewrite !length_upd.
    destruct (decide (np < length (procs k1))%nat); [left|right; lia].
    rewrite upd_eq by (rewrite length_upd; lia). done.
Qed.

Lemma wp_allocproc_slot me np k :
  from me k -> me ≠ Some np -> p_state (procs k !!! np) = UNUSED -> nextpid k = n ->
  wp I (allocproc_slot np) (λ _, new me np) k.
Proof.
  intros Hk Hne Hs Hn.
  pose proof (wp_and _ _ _ _ _ k (Hslot np k (from_inv me k Hk) Hs Hn) (wp_and _ _ _ _ _ k
    (allocproc_slot_rest me np k k (conj (from_cur me k Hk) (λ _ _, eq_refl))) (allocproc_slot_taken np k))) as H.
  eapply wp_weaken; [|eapply wp_mono; [|exact H]].
  - by intros k' [].
  - intros [] k' (H1 & (H2 & H3) & H4). split_and!; [|done..]. apply (from_intro me k); try done.
    intros p ->. apply H3. congruence.
Qed.

(** [allocproc] returns a slot that was free, so not that of its caller. *)
Lemma wp_allocproc me k :
  from me k -> nextpid k = n ->
  wp I allocproc (λ r k', match r with Some np => new me np k' | None => from me k' end) k.
Proof.
  intros Hk Hn. unfold allocproc. apply wp_bind. set (J k := from me k ∧ nextpid k = n).
  assert (TableInv J) as HJ.
  { intros k1 k2 E1 E2 E3 E4 [H1 H2]. split; [|congruence]. by apply (table_inv_frame k1). }
  apply (wp_weaken J); [intros ? []; by apply (from_inv me)|]. eapply wp_mono.
  2:{ apply (wp_for_first J (λ p k, J k ∧ p_state (procs k !!! p) = UNUSED)); [|by split].
      intros i k1 _ H1. apply wp_bind. eapply wp_mono; [|exact (keeps_acquire J _ _ H1)].
      intros [] k2 H2. cbn beta in H2. apply wp_bind. unfold read_proc, wp at 1, gets.
      case_bool_decide as Hs; [by split|].
      apply wp_bind. eapply wp_mono; [|exact (keeps_release J _ _ H2)]. intros [] k3 H3. exact H3. }
  intros [np|] k1 H1; [|apply H1]. destruct H1 as [[H1 Hn1] Hs]. unfold allocproc_found. apply wp_bind.
  eapply wp_mono; [|apply (wp_allocproc_slot me np k1); try done].
  2:{ intros ->. by destruct H1 as (_ & _ & [] & _). }
  intros [] k2 H2. apply (wp_step I (new me np)); [apply new_inv|auto with keeps| |done].
  intros tf k3 H3. apply (wp_step I (new me np)); [apply new_inv|auto with keeps| |done].
  intros [] k4 H4. destruct (tf =? 0); [eapply wp_mono; [|by apply wp_abandon]; by intros ? ? [-> ?]|].
  apply (wp_step I (new me np)); [apply new_inv|auto with keeps| |done].
  intros pt k5 H5. apply (wp_step I (new me np)); [apply new_inv|auto with keeps| |done].
  intros [] k6 H6. destruct (pt =? 0); [eapply wp_mono; [|by apply wp_abandon]; by intros ? ? [-> ?]|].
  apply (wp_step I (new me np)); [apply new_inv|auto with keeps| |done]. by intros [] k7 H7.
Qed.

(** ** [kfork] and [userinit] *)

Lemma wp_kfork me k : from me k -> nextpid k = n -> wp I kfork (λ _, from me) k.
Proof.
  intros Hk Hn. unfold kfork. apply wp_bind. set (J k := from me k ∧ nextpid k = n).
  assert (TableInv J) as HJ.
  { intros k1 k2 E1 E2 E3 E4 [H1 H2]. split; [|congruence]. by apply (table_inv_frame k1). }
  apply (wp_weaken J); [intros ? []; by apply (from_inv me)|]. eapply wp_mono.
  2:{ apply (wp_myproc J me); [done| |by split]. intros k1 [H1 _]. by apply from_cur. }
  intros v k1 [-> [H1 Hn1]]. apply wp_bind. eapply wp_mono; [|by apply wp_allocproc].
  intros [np|] k2 H2; [|exact H2]. destruct me as [p|]; [|by apply (new_inv None np)].
  do 4 (apply (wp_step I (new (Some p) np)); [apply new_inv|auto with keeps| |done]; clear dependent k2; intros ? k2 H2).
  destruct (_ <? 0); [eapply wp_mono; [|by apply wp_abandon]; by intros ? ? []|].
  apply (wp_weaken (new (Some p) np)); [apply new_inv|]. apply wp_mono with (Q := λ _, new (Some p) np); [intros ? ?; apply new_from|].
  revert k2 H2. lazymatch goal with |- ∀ k, _ -> wp ?J ?m _ _ => change (keeps J m) end. keep.
Qed.

Lemma wp_userinit me k : from me k -> nextpid k = n -> wp I userinit (λ _, from me) k.
Proof.
  intros Hk Hn. unfold userinit. apply wp_bind. eapply wp_mono; [|by apply wp_allocproc].
  intros [np|] k1 H1.
  - apply (wp_weaken (new me np)); [apply new_inv|]. apply wp_mono with (Q := λ _, new me np); [intros ? ?; apply new_from|].
    revert k1 H1. lazymatch goal with |- ∀ k, _ -> wp ?J ?m _ _ => change (keeps J m) end. keep.
  - apply (wp_step I (from me)); [apply from_inv|auto with keeps| |done]. intros [] k2 H2. by apply (from_inv me).
Qed.
End proc.

(** ** Exit, system calls and traps *)

Section calls.
Context {L : Linker} {W : World} (I : kernel -> Prop) {HI : StableInv I} (HW : world_ok I).

#[local] Instance act_frame p : FrameInv (act I p).
Proof.
  split; [apply _|intros; by apply act_sleep|intros; apply (soft_wakeup _)|].
  intros i f Hf. apply (soft_write _). intros r. by apply untouched_soft.
Qed.
#[local] Instance here_frame : FrameInv (here I).
Proof.
  split; [apply _|intros; by apply here_sleep|intros; apply (soft_wakeup _)|].
  intros i f Hf. apply (soft_write _). intros r. by apply untouched_soft.
Qed.

Lemma wp_curproc k : here I k -> wp I curproc (λ p k', act I p k') k.
Proof.
  intros Hk. destruct (here_from I k Hk) as [me Hme]. unfold curproc. apply wp_bind.
  apply (wp_weaken (from I me)); [apply from_inv|].
  eapply wp_mono; [|apply (wp_myproc (from I me) me); [destruct me; apply _|apply from_cur|done]].
  intros v k1 [-> H1]. destruct me; [exact H1|exact (from_inv I None k1 H1)].
Qed.

(** What [kexit] does before the process becomes a zombie keeps it live; it
    does not return. *)
Lemma wp_kexit status k : here I k -> wp I (kexit status) (λ _ _, False) k.
Proof.
  intros Hk. unfold kexit. apply wp_bind. eapply wp_mono; [|by apply wp_curproc]. clear k Hk. intros p k Hk.
  cbn beta in Hk.
  assert (∀ A (m : M A) (f : A -> M ()) k, keeps (act I p) m ->
    (∀ a k, act I p k -> wp I (f a) (λ _ _, False) k) -> act I p k -> wp I (m ≫= f) (λ _ _, False) k) as Hstep.
  { intros A m f k' Hm Hf. apply (wp_step I (act I p)); [apply act_inv|done..]. }
  apply Hstep; [keep|clear dependent k|done]. intros ip k Hk.
  destruct (bool_decide _); [by apply (act_inv I p)|].
  apply Hstep; [keep; apply (fr_fileclose _)|clear dependent k|done]. intros _ k Hk.
  apply Hstep; [apply (fr_begin_op _)|clear dependent k|done]. intros _ k Hk.
  apply Hstep; [keep|clear dependent k|done]. intros cwd k Hk.
  apply Hstep; [keep; apply (fr_iput _)|clear dependent k|done]. intros _ k Hk.
  apply Hstep; [apply (fr_end_op _)|clear dependent k|done]. intros _ k Hk.
  apply Hstep; [keep|clear dependent k|done]. intros _ k Hk.
  apply Hstep; [keep|clear dependent k|done]. intros _ k Hk.
  apply Hstep; [apply (fr_reparent _)|clear dependent k|done]. intros _ k Hk.
  do 4 (apply Hstep; [keep|clear dependent k|done]; intros ? k Hk).
  apply wp_bind. change (wp I (t ← gets ticks; write_proc p (λ r, r <| p_end_time := t |>) ;;
    release LkWait ;; sched ;; (panic "zombie exit" : M ())) (λ _ _, False)
    (k <| procs ::= upd p (λ r, r <| p_state := ZOMBIE |>) |>)).
  assert (∀ A (m : M A) (f : A -> M ()) k, keeps I m ->
    (∀ a k, I k -> wp I (f a) (λ _ _, False) k) -> I k -> wp I (m ≫= f) (λ _ _, False) k) as Hlast.
  { intros A m f k' Hm Hf. by apply (wp_step I I). }
  apply Hlast; [keep|intros t k' H'|].
  2:{ destruct Hk as (Hk & _ & Hs & _). apply stable_upd; [done|]. harm. }
  apply Hlast; [apply (stable_write _); harm|clear dependent k|done]. intros _ k Hk.
  apply Hlast; [keep|intros _ k1 H1|done].
  apply Hlast; [by apply stable_sched|intros _ k2 H2|done]. exact H2.
Qed.

(** [m], called with a live process or none, returns with a live process or
    none; [I] holds however it ends. *)
Definition safe {A} (m : M A) : Prop := ∀ k, here I k -> wp I m (λ _, here I) k.

Lemma safe_keeps {A} (m : M A) : keeps (here I) m -> safe m.
Proof. intros Hm k Hk. apply (wp_weaken (here I)); [apply here_inv|by apply Hm]. Qed.
Lemma safe_bind {A B} (m : M A) (f : A -> M B) : safe m -> (∀ a, safe (f a)) -> safe (m ≫= f).
Proof. intros Hm Hf k Hk. apply wp_bind. eapply wp_mono; [|by apply Hm]. intros a k'. apply Hf. Qed.
Lemma safe_kexit status : safe (kexit status).
Proof. intros k Hk. eapply wp_mono; [|by apply wp_kexit]. done. Qed.
Lemma safe_when b m : safe m -> safe (when b m).
Proof. intros Hm. destruct b; [done|]. apply safe_keeps, keeps_ret. Qed.

Context (Htick : keeps I mlfq_tick).

Lemma live_tick : keeps live mlfq_tick.
Proof.
  assert (TableInv live) as HJ.
  { intros k k' E1 E2 _ _ H p Hp. destruct (cur_frame k k' p E1 E2) as [E ->]. apply H. by rewrite <- E. }
  assert (∀ i g, (∀ r, in_use r -> in_use (g r)) -> keeps live (write_proc i g)) as Hw.
  { intros i g Hg. apply keeps_modify. intros k H p Hp. kcbn.
    destruct (upd_cases i g (procs k) p) as [->|[_ ->]]; [|apply Hg]; by apply H. }
  unfold mlfq_tick, boost_all_priorities. keep; try (by apply keeps_modify); apply Hw; intros r [Hu Hz].
  - unfold boost_proc. by destruct (_ || _).
  - unfold tick_proc. repeat case_match; by split.
Qed.
Lemma here_tick : keeps (here I) mlfq_tick.
Proof. intros k [H1 H2]. exact (wp_and _ _ _ _ _ k (Htick k H1) (live_tick k H2)). Qed.

Lemma here_clockintr : keeps (here I) clockintr.
Proof. unfold clockintr. pose proof here_tick. keep. Qed.

Lemma here_devintr : keeps (here I) devintr.
Proof.
  unfold devintr. pose proof here_clockintr. keep; try apply (fr_uartintr _); try apply (fr_virtio_disk_intr _);
    try apply (fr_plic_claim _); try apply (fr_plic_complete _); try apply (fr_printf_fmt _).
Qed.

(** ** System calls *)

Lemma safe_sys_exit : safe sys_exit.
Proof.
  unfold sys_exit. apply safe_bind; [apply safe_keeps, (fr_argint _)|intros st].
  apply safe_bind; [apply safe_kexit|intros _]. apply safe_keeps, keeps_ret.
Qed.
Lemma here_sys_wait : keeps (here I) sys_wait.
Proof. unfold sys_wait. keep; [apply (fr_argaddr _)|by apply here_kwait]. Qed.
Lemma here_sys_kill : keeps (here I) sys_kill.
Proof. unfold sys_kill. keep; [apply (fr_argint _)|apply (soft_kkill _)]. Qed.

(** All but [fork]. *)
Lemma safe_syscalls num f : syscalls num = Some f -> f = sys_fork ∨ safe f.
Proof.
  unfold syscalls. intros E. repeat case_match; try discriminate E; injection E as <-;
    lazymatch goal with
    | |- _ ∨ safe sys_fork => by left
    | |- _ ∨ safe sys_exit => right; exact safe_sys_exit
    | |- _ ∨ safe sys_wait => right; exact (safe_keeps _ here_sys_wait)
    | |- _ ∨ safe sys_kill => right; exact (safe_keeps _ here_sys_kill)
    | |- _ ∨ safe sys_pipe => right; exact (safe_keeps _ (fr_sys_pipe _))
    | |- _ ∨ safe sys_read => right; exact (safe_keeps _ (fr_sys_read _))
    | |- _ ∨ safe sys_exec => right; exact (safe_keeps _ (fr_sys_exec _))
    | |- _ ∨ safe sys_fstat => right; exact (safe_keeps _ (fr_sys_fstat _))
    | |- _ ∨ safe sys_chdir => right; exact (safe_keeps _ (fr_sys_chdir _))
    | |- _ ∨ safe sys_dup => right; exact (safe_keeps _ (fr_sys_dup _))
    | |- _ ∨ safe sys_getpid => right; exact (safe_keeps _ (fr_sys_getpid _))
    | |- _ ∨ safe sys_sbrk => right; exact (safe_keeps _ (fr_sys_sbrk _))
    | |- _ ∨ safe sys_pause => right; exact (safe_keeps _ (fr_sys_pause _))
    | |- _ ∨ safe sys_uptime => right; exact (safe_keeps _ (fr_sys_uptime _))
    | |- _ ∨ safe sys_open => right; exact (safe_keeps _ (fr_sys_open _))
    | |- _ ∨ safe sys_write => right; exact (safe_keeps _ (fr_sys_write _))
    | |- _ ∨ safe sys_mknod => right; exact (safe_keeps _ (fr_sys_mknod _))
    | |- _ ∨ safe sys_unlink => right; exact (safe_keeps _ (fr_sys_unlink _))
    | |- _ ∨ safe sys_link => right; exact (safe_keeps _ (fr_sys_link _))
    | |- _ ∨ safe sys_mkdir => right; exact (safe_keeps _ (fr_sys_mkdir _))
    | |- _ ∨ safe sys_close => right; exact (safe_keeps _ (fr_sys_close _))
    | |- _ ∨ safe sys_getprocinfo => right; exact (safe_keeps _ (fr_sys_getprocinfo _))
    | |- _ ∨ safe sys_sleep => right; exact (safe_keeps _ (fr_sys_sleep _))
    end.
Qed.

Context (n : Z) (Hslot : ∀ p k, I k -> p_state (procs k !!! p) = UNUSED -> nextpid k = n ->
  wp I (allocproc_slot p) (λ _, I) k).

(** As long as nothing has run that could change [nextpid]. *)
Definition early (k : kernel) : Prop := here I k ∧ nextpid k = n.
#[local] Instance early_table : TableInv early.
Proof. intros k k' E1 E2 E3 E4 [H1 H2]. split; [by apply (table_inv_frame k)|congruence]. Qed.
Lemma early_inv k : early k -> I k.
Proof. intros []. by apply here_inv. Qed.

Lemma early_kfork k : early k -> wp I kfork (λ _, here I) k.
Proof.
  intros [Hk Hn]. destruct (here_from I k Hk) as [me Hme].
  eapply wp_mono; [|by apply (wp_kfork I n Hslot me)]. intros ? ?. apply from_here.
Qed.
Lemma early_userinit k : early k -> wp I userinit (λ _, here I) k.
Proof.
  intros [Hk Hn]. destruct (here_from I k Hk) as [me Hme].
  eapply wp_mono; [|by apply (wp_userinit I n Hslot me)]. intros ? ?. apply from_here.
Qed.
Lemma early_allocproc k : early k -> wp I allocproc (λ _, here I) k.
Proof.
  intros [Hk Hn]. destruct (here_from I k Hk) as [me Hme].
  eapply wp_mono; [|by apply (wp_allocproc I n Hslot me)].
  intros [np|] k' H; apply (from_here I me); [by apply (new_from I me np)|done].
Qed.

Lemma early_step {A B} (m : M A) (f : A -> M B) k :
  keeps early m -> (∀ a k, early k -> wp I (f a) (λ _, here I) k) -> early k -> wp I (m ≫= f) (λ _, here I) k.
Proof. intros Hm Hf. by apply (wp_step I early); [apply early_inv|..]. Qed.

Lemma early_syscall k : early k -> wp I syscall (λ _, here I) k.
Proof.
  unfold syscall. do 3 (apply early_step; [keep|clear k; intros ? k]). cbv zeta.
  destruct (syscalls _) as [f|] eqn:E; intros Hk.
  - apply wp_bind. apply wp_mono with (Q := λ _, here I).
    + intros r k' Hk'. apply (wp_weaken (here I)); [apply here_inv|]. by apply keeps_store64; [apply _|].
    + apply safe_syscalls in E as [->|Hf]; [by apply early_kfork|]. by apply Hf, Hk.
  - destruct Hk as [Hk _]. revert k Hk. apply safe_keeps. keep. apply (fr_printf_fmt _).
Qed.

(** ** Traps *)

Lemma early_usertrap_cause p k : early k -> wp I (usertrap_cause p) (λ _, here I) k.
Proof.
  unfold usertrap_cause. apply early_step; [keep|clear k; intros sc k]. destruct (sc =? 8).
  - apply early_step; [keep|clear k; intros kl k Hk]. apply wp_bind.
    eapply wp_mono with (Q := λ _, early).
    2:{ destruct (negb _); [|exact Hk]. eapply wp_mono; [|by apply wp_kexit, Hk]. done. }
    clear k Hk. intros [] k. do 4 (apply early_step; [keep|clear k; intros ? k]). intros Hk.
    apply wp_bind. eapply wp_mono; [|by apply early_syscall]. by intros [] k' H.
  - intros [Hk _]. revert k Hk. apply safe_keeps. pose proof here_devintr.
    keep; try apply (fr_printf_fmt _); apply (soft_setkilled _).
Qed.

Lemma early_usertrap k : early k -> wp I usertrap (λ _, here I) k.
Proof.
  unfold usertrap. apply early_step; [keep|clear k; intros x k]. destruct (negb _); [apply early_inv|].
  do 5 (apply early_step; [keep|clear k; intros ? k]). intros Hk.
  apply wp_bind. eapply wp_mono; [|by apply early_usertrap_cause]. clear k Hk. intros dev k Hk. revert k Hk.
  apply safe_bind; [apply safe_keeps; keep|intros kl]. apply safe_bind; [apply safe_when, safe_kexit|intros _].
  apply safe_keeps. pose proof (here_yield I HW). keep. apply (fr_prepare_return _).
Qed.

Lemma safe_forkret : safe forkret.
Proof. apply safe_keeps, (fr_forkret _). Qed.

Lemma safe_kerneltrap : safe kerneltrap.
Proof. apply safe_keeps. unfold kerneltrap. pose proof here_devintr. pose proof (here_yield I HW). keep. apply (fr_printf_fmt _). Qed.
End calls.

(** ** The theorems *)

(** The operations on the process table, with any arguments: each function of
    [kernel/proc.c], the parts of [scheduler], [yield] and [sleep] that run
    after a context switch ([..Ret]), and the kernel's entry points: a system
    call, a trap from user space and one from the kernel. *)
Inductive table_op : Type :=
| OpProcinit
| OpTick
| OpPass
| OpSchedRet (p : nat)
| OpSched
| OpYield
| OpYieldRet (p : nat) (intena : Z)
| OpSleep (ch : chan) (lk : lockid)
| OpSleepRet (p : nat) (lk : lockid) (intena : Z)
| OpWakeup (ch : option chan)
| OpKill (pid : Z)
| OpSetkilled (p : nat)
| OpAlloc
| OpFree (p : nat)
| OpGrow (n : Z)
| OpReparent (p : nat)
| OpWait (addr : Z)
| OpInfo (pid addr : Z)
| OpUserinit
| OpFork
| OpExit (status : Z)
| OpForkret
| OpSyscall
| OpUsertrap
| OpKerneltrap.

Definition drop_result {A} (m : M A) : M () := m ;; mret ().

Definition run_op {L : Linker} {W : World} (o : table_op) : M () :=
  match o with
  | OpProcinit => procinit
  | OpTick => mlfq_tick
  | OpPass => drop_result scheduler_pass
  | OpSchedRet p => scheduler_ret p
  | OpSched => sched
  | OpYield => yield
  | OpYieldRet p i => yield_ret p i
  | OpSleep ch lk => sleep ch lk
  | OpSleepRet p lk i => sleep_ret p lk i
  | OpWakeup ch => wakeup ch
  | OpKill pid => drop_result (kkill pid)
  | OpSetkilled p => setkilled p
  | OpAlloc => drop_result allocproc
  | OpFree p => freeproc p
  | OpGrow n => drop_result (growproc n)
  | OpReparent p => reparent p
  | OpWait addr => drop_result (kwait addr)
  | OpInfo pid addr => drop_result (getprocinfo pid addr)
  | OpUserinit => userinit
  | OpFork => drop_result kfork
  | OpExit status => kexit status
  | OpForkret => drop_result forkret
  | OpSyscall => syscall
  | OpUsertrap => drop_result usertrap
  | OpKerneltrap => kerneltrap
  end.

Lemma wp_final {A} I (m : M A) k : wp I m (λ _, I) k -> I (final (m k)).
Proof. unfold wp. by destruct (m k). Qed.

(** Every operation preserves an invariant that is stable, if the ticks and
    the taking of a free slot do. *)
Lemma run_op_stable {L : Linker} {W : World} I `{!StableInv I} o k :
  world_ok I ->
  keeps I mlfq_tick ->
  (∀ p k', I k' -> p_state (procs k' !!! p) = UNUSED -> nextpid k' = nextpid k ->
    wp I (allocproc_slot p) (λ _, I) k') ->
  live k -> I k -> I (final (run_op o k)).
Proof.
  intros HW Htick Hslot Hl Hk. assert (here I k) as Hh by by split. assert (early I (nextpid k) k) as He by by split.
  apply wp_final.
  assert (∀ A (m : M A), wp I m (λ _, I) k -> wp I (drop_result m) (λ _, I) k) as Hdrop.
  { intros A m Hm. unfold drop_result. apply wp_bind. eapply wp_mono; [|exact Hm]. by intros. }
  assert (∀ A (m : M A), wp I m (λ _, here I) k -> wp I m (λ _, I) k) as Hhere.
  { intros A m Hm. eapply wp_mono; [|exact Hm]. intros ? ?. apply here_inv. }
  assert (∀ A (m : M A), keeps (here I) m -> wp I m (λ _, I) k) as Hkeep.
  { intros A m Hm. by apply Hhere, (safe_keeps I m Hm). }
  destruct o; cbn [run_op];
    lazymatch goal with |- wp _ (drop_result _) _ _ => apply Hdrop | |- _ => idtac end.
  - exact (stable_procinit I k Hk).
  - exact (Htick k Hk).
  - exact (stable_scheduler_pass I k Hk).
  - exact (stable_scheduler_ret I p k Hk).
  - exact (stable_sched I HW k Hk).
  - exact (Hkeep _ _ (here_yield I HW)).
  - exact (soft_yield_ret I p intena k Hk).
  - exact (Hkeep _ _ (here_sleep I HW ch lk)).
  - exact (soft_sleep_ret I p lk intena k Hk).
  - exact (soft_wakeup I ch k Hk).
  - exact (soft_kkill I pid k Hk).
  - exact (soft_setkilled I p k Hk).
  - exact (Hhere _ _ (early_allocproc I (nextpid k) Hslot k He)).
  - exact (stable_freeproc I p k Hk).
  - exact (soft_growproc I n k Hk).
  - exact (soft_reparent I p k Hk).
  - exact (Hkeep _ _ (here_kwait I HW addr)).
  - exact (keeps_getprocinfo I pid addr k Hk).
  - exact (Hhere _ _ (early_userinit I (nextpid k) Hslot k He)).
  - exact (Hhere _ _ (early_kfork I (nextpid k) Hslot k He)).
  - exact (Hhere _ _ (safe_kexit I HW status k Hh)).
  - exact (Hhere _ _ (safe_forkret I HW k Hh)).
  - exact (Hhere _ _ (early_syscall I HW (nextpid k) Hslot k He)).
  - exact (Hhere _ _ (early_usertrap I HW Htick (nextpid k) Hslot k He)).
  - exact (Hhere _ _ (safe_kerneltrap I HW Htick k Hh)).
Qed.

(** C6. Every operation of [kernel/proc.c] on the process table, every system
    call and every trap preserves the scheduler's invariant, whichever way it
    ends: each process that is not a free slot has a priority of 0, 1 or 2, the
    time slice of that priority, and has used less than that slice; the boost
    counter stays below its threshold.  The process that runs the operation, if
    any, is neither a free slot nor a zombie, and the code of other threads
    that runs while the operation sleeps or yields is assumed to preserve the
    same invariant and to resume the thread as the same live process. *)
Theorem mlfq_invariant {L : Linker} {W : World} o k :
  world_ok mlfq_inv -> live k -> mlfq_inv k -> mlfq_inv (final (run_op o k)).
Proof.
  intros HW. apply (run_op_stable mlfq_inv); [done|apply mlfq_mlfq_tick|]. intros p k' Hk' _ _. by apply mlfq_allocproc_slot.
Qed.

(** C31. If [nextpid] is positive and below the largest [int] when the
    operation starts, every operation of [kernel/proc.c] on the process table,
    every system call and every trap preserves that no two processes have the
    same pid and that all pids are positive and below [nextpid].  As for the
    levels, the caller is a live process or none, and the threads that run
    meanwhile are assumed to preserve the same invariant. *)
Theorem pid_invariant {L : Linker} {W : World} o k :
  world_ok pid_inv -> live k -> 0 < nextpid k < 2 ^ 31 - 1 -> pid_inv k -> pid_inv (final (run_op o k)).
Proof.
  intros HW Hl Hn. apply (run_op_stable pid_inv); [done|apply pid_mlfq_tick| |done].
  intros p k' Hk' Hs E. apply pid_allocproc_slot; [done..|]. by rewrite E.
Qed.

Lemma demo_mlfq_inv : mlfq_inv demo_k.
Proof.
  split; [|by vm_compute|by vm_compute]. unfold demo_k, demo, demo_ps, table. kcbn.
  apply Forall_app. split; [|by apply Forall_replicate].
  repeat (apply Forall_cons; split; [by vm_compute|]). by apply Forall_nil.
Qed.

Lemma demo_live : live demo_k.
Proof. intros p [= <-]. by vm_compute. Qed.

Lemma demo_pid_inv : pid_inv (demo_k <| nextpid := 5 |>).
Proof.
  assert (∀ i, (4 <= i)%nat -> p_state (demo_ps !!! i) = UNUSED) as Hu.
  { intros i Hi. unfold demo_ps, table. rewrite list_lookup_total_alt, lookup_app_r by done.
    destruct (_ !! _) eqn:E; [|done]. by apply lookup_replicate in E as [-> _]. }
  split; kcbn; unfold demo_k, demo; kcbn.
  - intros i Hs. destruct (decide (4 <= i)%nat); [by destruct Hs; apply Hu|].
    do 4 (destruct i as [|i]; [by vm_compute|]). lia.
  - intros i j Hne Hi Hj. destruct (decide (4 <= i)%nat); [by destruct Hi; apply Hu|].
    destruct (decide (4 <= j)%nat); [by destruct Hj; apply Hu|].
    do 4 (destruct i as [|i]; [do 4 (destruct j as [|j]; [by vm_compute|]); lia|]). lia.
Qed.

(** A world that wakes a thread up and runs it again at once. *)
Definition resuming : World := {|
  w_run k :=
    match c_proc (my_cpu (mach k)) with
    | Some p =>
        if bool_decide (p_state (procs k !!! p) = UNUSED) || bool_decide (p_state (procs k !!! p) = ZOMBIE) then None
        else Some (k <| procs ::= upd p (λ r, r <| p_state := RUNNING |>) |>)
    | None => None
    end;
  w_fuel := 10; w_uart _ _ := 0; w_plic _ := 0; w_virtio _ _ := 0; w_pad := [0; 0; 0; 0];
|}.

Lemma resuming_ok I : StableInv I -> world_ok (W := resuming) I.
Proof.
  intros HI k k' Hk. cbn. destruct (c_proc (my_cpu (mach k))) as [p|] eqn:Hc; [|done].
  case_bool_decide as Hs; [done|]. case_bool_decide as Hz; [done|]. intros [= <-]. split_and!.
  - apply stable_upd; [done|]. left. split_and!; try done; by intros E; destruct Hs.
  - intros q Hq. kcbn in Hq. rewrite Hc in Hq. injection Hq as <-. kcbn.
    lazymatch goal with |- in_use (upd _ ?f _ !!! _) =>
      destruct (upd_cases p f (procs k) p) as [->|[_ ->]]; done end.
  - exact Hc.
Qed.

Lemma mlfq_invariant_witness :
  mlfq_inv (final (run_op (W := resuming) (OpSleep ChTicks LkTicks) demo_k)).
Proof.
  apply (mlfq_invariant (W := resuming) _ demo_k);
    [apply resuming_ok, _|apply demo_live|apply demo_mlfq_inv].
Defined.

Lemma pid_invariant_witness :
  pid_inv (final (run_op (W := resuming) OpFork (demo_k <| nextpid := 5 |>))).
Proof.
  apply (pid_invariant (W := resuming) OpFork (demo_k <| nextpid := 5 |>));
    [apply resuming_ok, _|apply demo_live|done|apply demo_pid_inv].
Defined.
