(* ===== verification/Starvation.v ===== *)
(** * Runs of the scheduler

    What a step of the harts does to each process, and from this what runs of
    any length do: how a process moves between the levels, how long it waits
    for a hart, and when it never gets one. *)
From S2P Require Import Prelude Layout KState Spinlock Vm Proc SchedEq Trap Demo Mlfq Sched.
From S2P Require Import SchedInv.

(** Each step runs up to a [swtch]. *)
#[local] Existing Instance stopped.

(** ** The effect of a step *)

Definition pr (s : sys) (j : nat) : proc := procs (sk s) !!! j.
Definition counter (s : sys) : Z := starvation_counter (sk s).
Definition boosts (s : sys) : bool := STARVATION_THRESHOLD <=? counter s + 1.

(** What a timer interrupt on hart [h] does to a process; [me] if it is the
    one that runs there. *)
Definition clocked (s : sys) (h : nat) (me : bool) (p : proc) : proc :=
  let p := if bool_decide (h = 0%nat) && negb me then wakeup_proc (Some ChTicks) p else p in
  let p := if boosts s then boost_proc p else p in
  if me then tick_proc p else p.

(** A step gives each process a new value. *)
Inductive effect (s s' : sys) : Prop :=
| E_dispatch h i t ch :
    modes s !! h = Some HSched -> pick (procs (sk s)) = Some i -> modes s' = <[h := HRun i]> (modes s) -> counter s' = counter s ->
    (∀ j, pr s' j = if decide (j = i) then (dispatch_proc t (pr s j)) <| p_chan := ch |> else pr s j) -> effect s s'
| E_idle :
    modes s' = modes s -> counter s' = counter s -> (∀ j, pr s' j = pr s j) -> effect s s'
| E_sleep h i t ch :
    modes s !! h = Some (HRun i) -> modes s' = <[h := HSched]> (modes s) -> counter s' = counter s ->
    (∀ j, pr s' j = if decide (j = i) then (sleep_proc ch (pr s j)) <| p_last_scheduled := t |> else pr s j) -> effect s s'
| E_wake i ch :
    modes s' = modes s -> counter s' = counter s ->
    (∀ j, pr s' j = if decide (j = i) then pr s j else wakeup_proc ch (pr s j)) -> effect s s'
| E_clock h :
    modes s !! h = Some HSched -> modes s' = modes s -> counter s' = (if boosts s then 0 else counter s + 1) ->
    (∀ j, pr s' j = clocked s h false (pr s j)) -> effect s s'.
Inductive timer_effect (s s' : sys) : Prop :=
| E_timer h i t :
    modes s !! h = Some (HRun i) -> modes s' = <[h := HSched]> (modes s) -> counter s' = (if boosts s then 0 else counter s + 1) ->
    (∀ j, pr s' j = if decide (j = i) then (yield_proc (clocked s h true (pr s j))) <| p_last_scheduled := t |>
                    else clocked s h false (pr s j)) -> timer_effect s s'.

Lemma upd_at {A} `{Inhabited A} i (f : A -> A) l j : (i < length l)%nat ->
  upd i f l !!! j = if decide (j = i) then f (l !!! j) else l !!! j.
Proof. intros Hi. case_decide as E; [subst j; by rewrite upd_eq|]. by rewrite upd_ne. Qed.

Lemma wake_table_lookup me ch ps j :
  wake_table me ch ps !!! j = if bool_decide (me = Some j) then ps !!! j else wakeup_proc ch (ps !!! j).
Proof.
  unfold wake_table. rewrite !list_lookup_total_alt, list_lookup_imap. destruct (ps !! j); [done|]. by destruct (bool_decide _).
Qed.
Lemma boost_lookup (ps : list proc) (j : nat) : (boost_proc <$> ps) !!! j = boost_proc (ps !!! j).
Proof. rewrite !list_lookup_total_alt, list_lookup_fmap. by destruct (ps !! j). Qed.

Section runs.
Context (locks : list lockid) (Hlocks : static_locks ⊆ locks).

Lemma clock_lookup s h md j : sys_inv locks s -> modes s !! h = Some md ->
  clock_procs (on_hart h (sk s)) !!! j = clocked s h (bool_decide (mode_proc md = Some j)) (pr s j).
Proof.
  intros Hs Hm. destruct (inv_on_hart locks Hlocks s h md Hs Hm) as (_ & _ & _ & _ & Hp & _ & Hh).
  unfold clock_procs. rewrite Hp, Hh. change (procs (on_hart h (sk s))) with (procs (sk s)).
  change (starvation_counter (on_hart h (sk s))) with (counter s). unfold tick_procs, clocked. fold (boosts s).
  set (ps := if bool_decide (h = 0%nat) then _ else _).
  assert (ps !!! j = if bool_decide (h = 0%nat) && negb (bool_decide (mode_proc md = Some j)) then wakeup_proc (Some ChTicks) (pr s j) else pr s j) as E.
  { unfold ps, pr. destruct (bool_decide (h = 0%nat)); [|done]. rewrite wake_table_lookup. by destruct (bool_decide _). }
  assert ((if boosts s then boost_proc <$> ps else ps) !!! j = if boosts s then boost_proc (ps !!! j) else ps !!! j) as E'
    by (destruct (boosts s); [apply boost_lookup|done]).
  assert (length (if boosts s then boost_proc <$> ps else ps) = NPROC) as El.
  { unfold ps. destruct (boosts s), (bool_decide (h = 0%nat)); unfold wake_table; rewrite ?length_fmap, ?length_imap; apply Hs. }
  destruct (mode_proc md) as [i|] eqn:Ei; [|by rewrite E', E].
  assert (i < NPROC)%nat as Hi.
  { destruct md as [|i'|i']; [done| |by destruct (inv_ticked _ _ Hs h i')]. injection Ei as ->. by apply (inv_run _ _ Hs h). }
  rewrite upd_at by lia. rewrite E', E. destruct (decide (j = i)) as [Hd|Hd]; [subst j; by rewrite (bool_decide_true (Some i = Some i)) by done|].
  by rewrite (bool_decide_false (Some i = Some j)) by congruence.
Qed.

Lemma base_effect s s' : sys_inv locks s -> base_step locks s s' -> effect s s'.
Proof.
  intros Hs. pose proof (inv_counter _ _ Hs) as Hcnt. unfold STARVATION_THRESHOLD in Hcnt.
  destruct 1 as [h i c k1 k2 Hm Hp Hc Hr|h k1 Hm Hp|h k1 Hm Hc|h i ch lk k1 k2 Hm Hl Hsl Hr|h i ch k1 Hm Hw].
  - destruct (inv_on_hart _ Hlocks s h _ Hs Hm) as (Hq & Ht & H3 & Hn & _ & Hcur & Hh).
    assert (pick (procs (sk s)) = Some i) as Epick.
    { rewrite scheduler_pass_eq in Hp by done. change (procs (on_hart h (sk s))) with (procs (sk s)) in Hp.
      destruct (pick (procs (sk s))); [by injection Hp as ->|done]. }
    pose proof (pick_runnable _ _ Epick) as [Hi _].
    rewrite scheduler_pass_eq in Hp by done. change (procs (on_hart h (sk s))) with (procs (sk s)) in Hp. rewrite Epick in Hp. injection Hp as <-.
    destruct (resume_eq _ Hlocks i c (dispatch_state i ((on_hart h (sk s)) <| mach ::= sched_entry |>)) (set_proc (Some i) (sched_entry (mach (on_hart h (sk s))))))
      as (k' & E & _ & _ & Hc' & f & Ef & Hf).
    { done. }
    { apply quiet_set_proc, quiet_entry, Hq. }
    { cbn. rewrite <- (inv_modes _ _ Hs). by eapply lookup_lt_Some. }
    { done. }
    { by apply (inv_konts _ _ Hs i). }
    pose proof (eq_trans (eq_sym Hr) E) as [= <-].
    destruct (Hf (dispatch_proc (ticks (sk s)) (pr s i))) as [ch Ech].
    apply (E_dispatch _ _ h i (ticks (sk s)) ch); [done|done|done|exact Hc'|]. intros j.
    unfold pr at 1. cbn [sk]. rewrite Ef.
    change (procs (dispatch_state _ _)) with (upd i (dispatch_proc (ticks (sk s))) (procs (sk s))).
    rewrite !upd_at by (rewrite ?length_upd, (inv_procs _ _ Hs); done). destruct (decide (j = i)) as [Hd|Hd]; [|done]. subst j. exact Ech.
  - destruct (inv_on_hart _ Hlocks s h _ Hs Hm) as (Hq & Ht & H3 & Hn & _ & Hcur & Hh).
    rewrite scheduler_pass_eq in Hp by done. destruct (pick _); [done|]. injection Hp as <-. by apply E_idle.
  - destruct (inv_on_hart _ Hlocks s h _ Hs Hm) as (Hq & Ht & H3 & Hn & Hp & Hcur & Hh).
    rewrite clockintr_eq in Hc.
    2-4: done || by apply (quiet_static _ Hlocks _ _ Hq), static_lock.
    2:{ change (starvation_counter (on_hart h (sk s))) with (starvation_counter (sk s)). lia. }
    injection Hc as <-. apply (E_clock _ _ h); [done|done|done|]. intros j. exact (clock_lookup s h HSched j Hs Hm).
  - destruct (inv_on_hart _ Hlocks s h _ Hs Hm) as (Hq & Ht & H3 & Hn & Hp & Hcur & Hh). pose proof Hl as [Hst Hne].
    assert (h < NCPU)%nat as HN by (rewrite <- (inv_modes _ _ Hs); by eapply lookup_lt_Some).
    assert (can_lock lk (mach (on_hart h (sk s)))) as Hcan by (by apply (quiet_can_lock locks _ h)).
    rewrite (bind_Ret _ _ _ _ _ (acquire_step lk _ _ eq_refl Hcan)) in Hsl.
    rewrite (sleep_eq i ch lk _ (mach (on_hart h (sk s)))) in Hsl; [|by apply (inv_runs _ Hlocks s h i)|done|done|apply Hcan].
    injection Hsl as <-. destruct (inv_run _ _ Hs h i Hm) as [Hi _].
    rewrite (scheduler_ret_eq i _ (mach (on_hart h (sk s)))) in Hr; [|done|by apply (quiet_can_lock locks _ h); [done|done|by apply Hlocks, static_proc|done]].
    injection Hr as <-. apply (E_sleep _ _ h i (ticks (sk s)) ch); [done|done|done|]. intros j.
    unfold pr at 1. cbn [sk]. change (_ !!! j = ?x) with (upd i (λ r, r <| p_last_scheduled := ticks (sk s) |>) (upd i (sleep_proc ch) (procs (sk s))) !!! j = x).
    rewrite !upd_at by (rewrite ?length_upd, (inv_procs _ _ Hs); done). by case_decide.
  - destruct (inv_on_hart _ Hlocks s h _ Hs Hm) as (Hq & Ht & H3 & Hn & Hp & Hcur & Hh).
    rewrite wakeup_eq in Hw by done. injection Hw as <-. apply (E_wake _ _ i ch); [done|done|]. intros j.
    unfold pr at 1. cbn [sk]. change (_ !!! j = ?x) with (wake_table (c_proc (my_cpu (mach (on_hart h (sk s))))) ch (procs (sk s)) !!! j = x).
    rewrite Hp, wake_table_lookup. cbn [mode_proc]. destruct (decide (j = i)) as [Hd|Hd]; [subst j; by rewrite (bool_decide_true (Some i = Some i)) by done|].
    by rewrite (bool_decide_false (Some i = Some j)) by congruence.
Qed.

Lemma timer_has_effect s s' : sys_inv locks s -> timer_step s s' -> timer_effect s s'.
Proof.
  intros Hs. destruct 1 as [h i k1 k2 k3 Hm Hc Hy Hr].
  destruct (timer_clock _ Hlocks s Hs h i Hm) as (E & Hruns & Hq & _). rewrite E in Hc. injection Hc as <-.
  rewrite (yield_eq i) in Hy by done. injection Hy as <-. destruct (inv_run _ _ Hs h i Hm) as [Hi _].
  rewrite (scheduler_ret_eq i _ (arm_timer (touch (mach (on_hart h (sk s)))))) in Hr.
  2:{ done. }
  2:{ apply (quiet_can_lock locks _ h); [done| |by apply Hlocks, static_proc|done]. rewrite <- (inv_modes _ _ Hs). by eapply lookup_lt_Some. }
  injection Hr as <-. eapply (E_timer _ _ h i _); [done|done|done|]. intros j.
  unfold pr at 1. cbn [sk]. unfold yield_state, clock_state. kcbn.
  pose proof (clock_lookup s h (HRun i)) as Hl.
  assert (length (clock_procs (on_hart h (sk s))) = NPROC) as El.
  { etransitivity; [apply (proj1 (clock_running _))|apply Hs]. }
  rewrite !upd_at by (rewrite ?length_upd, El; done). rewrite (Hl j Hs Hm). cbn [mode_proc].
  destruct (decide (j = i)) as [Hd|Hd]; [subst j; by rewrite (bool_decide_true (Some i = Some i)) by done|]. by rewrite (bool_decide_false (Some i = Some j)) by congruence.
Qed.
(** ** Levels *)

Definition awake (p : proc) : Prop := p_state p = RUNNABLE ∨ p_state p = RUNNING.
#[local] Instance awake_dec p : Decision (awake p).
Proof. unfold awake. solve_decision. Defined.

(** A process was charged a tick in a step, or raised by the boost. *)
Definition ticked (s s' : sys) (i : nat) : Prop := p_cpu_ticks (pr s' i) ≠ p_cpu_ticks (pr s i).
Definition boosted (s s' : sys) (i : nat) : Prop := counter s' < counter s ∧ awake (pr s' i).
#[local] Instance ticked_dec s s' i : Decision (ticked s s' i).
Proof. unfold ticked. solve_decision. Defined.
#[local] Instance boosted_dec s s' i : Decision (boosted s s' i).
Proof. unfold boosted. solve_decision. Defined.





(** The counter falls only in a boost. *)
Lemma counter_falls s s' : sys_inv locks s -> counter s' = (if boosts s then 0 else counter s + 1) -> counter s' < counter s <-> boosts s = true.
Proof.
  intros Hs. pose proof (inv_counter _ _ Hs) as Hc. fold (counter s) in Hc. unfold boosts, STARVATION_THRESHOLD in *.
  destruct (Z.leb_spec 200 (counter s + 1)); intros ->; split; (done || lia).
Qed.




(** ** Work done at the highest level *)

(** The ticks of its first time slice a process has used since it was boosted. *)
Definition weight (p : proc) : Z :=
  if bool_decide (p_state p = UNUSED) then 4 else if p_priority p =? 0 then p_timeslice_used p else 4.
Definition levels (s : sys) : Prop := ∀ j, mlfq_ok (pr s j).

Lemma weight_range p : mlfq_ok p -> 0 <= weight p <= 4.
Proof.
  intros Hp. unfold weight. case_bool_decide as Hu; [lia|]. destruct (Hp Hu) as (Hpr & Ht & Hs).
  destruct (Z.eqb_spec (p_priority p) 0) as [E|]; [|lia]. rewrite E in Ht. change (get_timeslice 0) with 4 in Ht. lia.
Qed.
Lemma weight_high p : mlfq_ok p -> p_state p ≠ UNUSED -> weight p < 4 <-> p_priority p = 0.
Proof.
  intros Hp Hu. unfold weight. rewrite bool_decide_false by done. destruct (Hp Hu) as (Hpr & Ht & Hs).
  destruct (Z.eqb_spec (p_priority p) 0) as [E|]; [|lia]. rewrite E in Ht. change (get_timeslice 0) with 4 in Ht. lia.
Qed.
Lemma weight_same p q : p_priority q = p_priority p -> p_timeslice_used q = p_timeslice_used p ->
  (p_state q = UNUSED <-> p_state p = UNUSED) -> weight q = weight p.
Proof. intros E1 E2 E3. unfold weight. rewrite E1, E2, (bool_decide_ext _ _ E3). done. Qed.

Lemma wakeup_state ch p : p_state (wakeup_proc ch p) = p_state p ∨ p_state p = SLEEPING ∧ p_state (wakeup_proc ch p) = RUNNABLE.
Proof. unfold wakeup_proc. case_bool_decide as E; [|by left]. destruct (bool_decide _); cbn [andb]; [by right|by left]. Qed.
Lemma boost_state p : p_state (boost_proc p) = p_state p.
Proof. unfold boost_proc. by destruct (_ || _). Qed.
Lemma wake_weight ch p : weight (wakeup_proc ch p) = weight p.
Proof.
  destruct (wakeup_proc_fields ch p) as (_ & E1 & _ & E3). apply weight_same; [done|done|].
  destruct (wakeup_state ch p) as [->|[-> ->]]; done.
Qed.
Lemma boost_awake p : awake p -> p_priority (boost_proc p) = 0 ∧ p_timeslice_used (boost_proc p) = 0.
Proof. intros Ha. unfold boost_proc. by destruct Ha as [E|E]; rewrite E. Qed.
Lemma boost_weight p : awake p -> weight (boost_proc p) = 0.
Proof.
  intros Ha. destruct (boost_awake p Ha) as [E1 E2]. unfold weight. rewrite E1, E2, boost_state, bool_decide_false; [done|].
  by destruct Ha as [->| ->].
Qed.
Lemma tick_weight p : p_state p = RUNNING -> mlfq_ok p -> weight (tick_proc p) = if p_priority p =? 0 then weight p + 1 else 4.
Proof.
  intros Hs Hp. destruct Hp as (Hpr & Ht & Hu); [congruence|].
  pose proof (get_timeslice_range (p_priority p)).
  destruct (tick_proc_fields p Hs) as (_ & Epr & _ & Eu & Es). assert (p_state (tick_proc p) ≠ UNUSED) as Hl by (rewrite Es; by case_match).
  unfold weight. rewrite (bool_decide_false (p_state (tick_proc p) = UNUSED)), (bool_decide_false (p_state p = UNUSED)) by (done || congruence).
  rewrite Epr, Eu, Ht.
  rewrite (i32_small (p_timeslice_used p + 1)) by lia. destruct (Z.eqb_spec (p_priority p) 0) as [E|E].
  - rewrite E in *. change (get_timeslice 0) with 4 in *.
    destruct (Z.leb_spec 4 (p_timeslice_used p + 1)); cbn [andb]; [|done].
    change ((if 0 <? MLFQ_LOW then i32 (0 + 1) else 0) =? 0) with false. cbv iota. lia.
  - destruct (Z.leb_spec (get_timeslice (p_priority p)) (p_timeslice_used p + 1)); cbn [andb].
    + destruct (Z.ltb_spec (p_priority p) MLFQ_LOW); [|by rewrite (proj2 (Z.eqb_neq _ _))].
      rewrite i32_small, (proj2 (Z.eqb_neq _ _)) by (unfold MLFQ_LOW in *; lia). done.
    + by rewrite (proj2 (Z.eqb_neq _ _)).
Qed.
Lemma yield_weight p t : p_state p ≠ UNUSED -> weight ((yield_proc p) <| p_last_scheduled := t |>) = weight p.
Proof. intros Hu. destruct (yield_proc_fields p) as (_ & E1 & _ & E2). apply weight_same; [done|done|]. by split; intros E. Qed.

(** A timer interrupt, for the process it falls on and for the others. *)
Lemma clocked_other s h p : let q := clocked s h false p in
  (boosts s = false -> weight q = weight p) ∧ (boosts s = true -> awake q -> weight q = 0) ∧ (mlfq_ok p -> mlfq_ok q) ∧
  (p_state q = p_state p ∨ p_state p = SLEEPING ∧ p_state q = RUNNABLE).
Proof.
  intros q. unfold q, clocked. cbv zeta.
  set (r := if bool_decide (h = 0%nat) && negb false then wakeup_proc (Some ChTicks) p else p).
  assert (weight r = weight p ∧ (mlfq_ok p -> mlfq_ok r) ∧ (p_state r = p_state p ∨ p_state p = SLEEPING ∧ p_state r = RUNNABLE)) as (E1 & E2 & E3).
  { unfold r. destruct (_ && _); [|by auto]. split; [apply wake_weight|]. split; [|apply wakeup_state].
    destruct (wakeup_proc_fields (Some ChTicks) p) as (_ & F1 & F2 & F3). apply mlfq_ok_same; [done..|].
    destruct (wakeup_state (Some ChTicks) p) as [->|[-> _]]; done. }
  destruct (boosts s); [|done]. split; [done|]. unfold awake. rewrite boost_state. split; [intros _; apply boost_weight|].
  split; [|done]. intros Hp. by apply mlfq_ok_boost, E2.
Qed.
Lemma clocked_self s h p t : p_state p = RUNNING -> mlfq_ok p -> let q := (yield_proc (clocked s h true p)) <| p_last_scheduled := t |> in
  weight q = (if boosts s then 1 else if p_priority p =? 0 then weight p + 1 else weight p) ∧ mlfq_ok q ∧ p_state q = RUNNABLE.
Proof.
  intros Hs Hp q. assert (clocked s h true p = tick_proc (if boosts s then boost_proc p else p)) as E by (unfold clocked; by rewrite andb_false_r).
  unfold q. rewrite E. set (r := if boosts s then boost_proc p else p).
  assert (p_state r = RUNNING) as Hr by (unfold r; destruct (boosts s); [by rewrite boost_state|done]).
  assert (mlfq_ok r) as Hr' by (unfold r; destruct (boosts s); [by apply mlfq_ok_boost|done]).
  assert (p_state (tick_proc r) ≠ UNUSED) as Ht by (destruct (tick_proc_fields r Hr) as (_ & _ & _ & _ & ->); by destruct (_ <=? _)).
  split; [|split; [|done]].
  - rewrite yield_weight, tick_weight by done. unfold r. destruct (boosts s).
    + assert (awake p) as Ha by (by right). rewrite (boost_weight p Ha). by destruct (boost_awake p Ha) as [-> _].
    + destruct (Z.eqb_spec (p_priority p) 0) as [|Hn]; [done|]. unfold weight. rewrite Hs, bool_decide_false, (proj2 (Z.eqb_neq _ _)) by done. done.
  - destruct (yield_proc_fields (tick_proc r)) as (_ & F1 & F2 & F3).
    apply (mlfq_ok_same (tick_proc r)); [done..|by intros E0|by apply mlfq_ok_tick].
Qed.

(** A step that is not a timer interrupt of a running process. *)
Lemma base_weight s s' j : sys_inv locks s -> base_step locks s s' ->
  (counter s <= counter s' -> weight (pr s' j) = weight (pr s j)) ∧
  (counter s' < counter s -> counter s' = 0 ∧ (awake (pr s' j) -> weight (pr s' j) = 0)).
Proof.
  intros Hs Hst. destruct (base_effect s s' Hs Hst) as [h i t ch _ Hp _ Ec Ep|_ Ec Ep|h i t ch Hm _ Ec Ep|i ch _ Ec Ep|h _ _ Ec Ep];
    try (rewrite Ec; split; [intros _|lia]; rewrite Ep).
  - destruct (decide (j = i)) as [->|]; [|done]. pose proof (pick_runnable _ _ Hp) as [_ Hr]. fold (pr s i) in Hr.
    apply weight_same; unfold dispatch_proc; destruct (_ =? 0); try done; by rewrite Hr.
  - done.
  - destruct (decide (j = i)) as [->|]; [|done]. destruct (inv_run _ _ Hs h i Hm) as [_ Hr]. fold (pr s i) in Hr.
    apply weight_same; try done. by rewrite Hr.
  - destruct (decide (j = i)); [done|apply wake_weight].
  - rewrite Ep. destruct (clocked_other s h (pr s j)) as (H1 & H2 & _). pose proof (counter_falls s s' Hs Ec) as Hf. split; intros Hc.
    + apply H1. destruct (boosts s); [|done]. lia.
    + apply Hf in Hc. rewrite Hc in Ec. auto.
Qed.

Lemma levels_step s s' : sys_inv locks s -> atomic_step locks s s' -> levels s -> levels s'.
Proof.
  intros Hs Hst Hl j. specialize (Hl j). destruct Hst as [s' Hst|s' Hst].
  - destruct (base_effect s s' Hs Hst) as [h i t ch _ Hp _ Ec Ep|_ Ec Ep|h i t ch Hm _ Ec Ep|i ch _ Ec Ep|h _ _ Ec Ep]; rewrite Ep.
    + destruct (decide (j = i)) as [->|]; [|done]. pose proof (pick_runnable _ _ Hp) as [_ Hr]. fold (pr s i) in Hr.
      revert Hl. apply mlfq_ok_same; unfold dispatch_proc; destruct (_ =? 0); try done; by rewrite Hr.
    + done.
    + destruct (decide (j = i)) as [->|]; [|done]. destruct (inv_run _ _ Hs h i Hm) as [_ Hr]. fold (pr s i) in Hr.
      revert Hl. apply mlfq_ok_same; try done. by rewrite Hr.
    + destruct (decide (j = i)); [done|]. destruct (wakeup_proc_fields ch (pr s j)) as (_ & F1 & F2 & F3).
      revert Hl. apply mlfq_ok_same; [done..|]. destruct (wakeup_state ch (pr s j)) as [->|[-> _]]; done.
    + by apply clocked_other.
  - destruct (timer_has_effect s s' Hs Hst) as [h i t Hm _ Ec Ep]. rewrite Ep. destruct (decide (j = i)) as [->|]; [|by apply clocked_other].
    apply clocked_self; [by apply (inv_run _ _ Hs h)|done].
Qed.

(** The timer interrupt of process [i]. *)
Lemma timer_weight s s' : sys_inv locks s -> levels s -> timer_step s s' ->
  ∃ h i, modes s !! h = Some (HRun i) ∧ modes s' = <[h := HSched]> (modes s) ∧
    (∀ j, j ≠ i -> p_state (pr s' j) = p_state (pr s j) ∨ p_state (pr s j) = SLEEPING ∧ p_state (pr s' j) = RUNNABLE) ∧
    p_state (pr s' i) = RUNNABLE ∧
    (counter s <= counter s' -> counter s' = counter s + 1 ∧ (∀ j, j ≠ i -> weight (pr s' j) = weight (pr s j)) ∧
       weight (pr s' i) = weight (pr s i) + if p_priority (pr s i) =? 0 then 1 else 0) ∧
    (counter s' < counter s -> counter s' = 0 ∧ (∀ j, j ≠ i -> awake (pr s' j) -> weight (pr s' j) = 0) ∧ weight (pr s' i) = 1).
Proof.
  intros Hs Hl Hst. destruct (timer_has_effect s s' Hs Hst) as [h i t Hm Em Ec Ep]. exists h, i. split; [done|]. split; [done|].
  destruct (inv_run _ _ Hs h i Hm) as [_ Hr]. fold (pr s i) in Hr.
  destruct (clocked_self s h (pr s i) t Hr (Hl i)) as (Hw & _ & Hst'). pose proof (Ep i) as Ei. rewrite decide_True in Ei by done.
  rewrite <- Ei in Hw, Hst'.
  assert (∀ j, j ≠ i -> pr s' j = clocked s h false (pr s j)) as Ho by (intros j Hj; by rewrite Ep, decide_False).
  pose proof (counter_falls s s' Hs Ec) as Hf.
  split; [intros j Hj; rewrite (Ho j Hj); apply clocked_other|]. split; [done|]. split; intros Hc.
  - destruct (boosts s) eqn:Eb; [exfalso; assert (counter s' < counter s) by (by apply Hf); lia|].
    split; [done|]. split; [|by rewrite Hw; destruct (_ =? 0); lia]. intros j Hj. rewrite (Ho j Hj). by apply clocked_other.
  - apply Hf in Hc. rewrite Hc in *. split; [done|]. split; [|done]. intros j Hj. rewrite (Ho j Hj). by apply clocked_other.
Qed.

(** The sum of [w] over a list. *)
Fixpoint total (w : nat -> Z) (A : list nat) : Z :=
  match A with
  | [] => 0
  | a :: A' => w a + total w A'
  end.
Lemma total_diff w w' i A : NoDup A -> (∀ a, a ∈ A -> a ≠ i -> w' a = w a) ->
  total w' A = total w A + if decide (i ∈ A) then w' i - w i else 0.
Proof.
  induction 1 as [|a A Ha HA IH]; intros Hw; cbn [total]; [done|].
  rewrite IH by (intros; apply Hw; [by right|done]). destruct (decide (a = i)) as [->|Hne].
  - rewrite decide_False, decide_True by (done || left). lia.
  - rewrite (Hw a) by (done || left). destruct (decide (i ∈ A)); [rewrite decide_True by (by right)|rewrite decide_False by set_solver]; lia.
Qed.
Lemma total_ext w w' A : (∀ a, a ∈ A -> w' a = w a) -> total w' A = total w A.
Proof. induction A as [|a A IH]; intros Hw; cbn [total]; [done|]. rewrite IH, (Hw a); [done|left|]. intros; apply Hw. by right. Qed.
Lemma total_zero A : total (λ _, 0) A = 0.
Proof. by induction A. Qed.
Lemma total_bound w A : (∀ a, a ∈ A -> 0 <= w a <= 4) -> 0 <= total w A <= 4 * Z.of_nat (length A).
Proof.
  induction A as [|a A IH]; intros Hw; cbn [total length]; [done|]. pose proof (Hw a ltac:(left)).
  destruct IH; [intros; apply Hw; by right|]. lia.
Qed.

(** ** Starvation *)

(** A process that is RUNNING is on a hart. *)
Definition placed (s : sys) : Prop := ∀ j, p_state (pr s j) = RUNNING -> ∃ h, modes s !! h = Some (HRun j).

Lemma placed_other s s' h i j m : modes s !! h = Some m -> mode_proc m ≠ Some j -> modes s' = <[h := i]> (modes s) ->
  (∃ h', modes s !! h' = Some (HRun j)) -> ∃ h', modes s' !! h' = Some (HRun j).
Proof.
  intros Hm Hne Em (h' & Hh). exists h'. rewrite Em, list_lookup_insert_ne; [done|]. intros ->. rewrite Hm in Hh. injection Hh as ->. by apply Hne.
Qed.
Lemma placed_step s s' : sys_inv locks s -> levels s -> atomic_step locks s s' -> placed s -> placed s'.
Proof.
  intros Hs Hl Hst Hp j Hj.
  assert (∀ q, p_state q = p_state (pr s j) ∨ p_state (pr s j) = SLEEPING ∧ p_state q = RUNNABLE -> p_state q = RUNNING ->
    ∃ h, modes s !! h = Some (HRun j)) as Hold by (intros q [E|[_ E]] Hq; [apply Hp; congruence|congruence]).
  destruct Hst as [s' Hst|s' Hst].
  - destruct (base_effect s s' Hs Hst) as [h i t ch Hm Hpi Em Ec Ep|Em Ec Ep|h i t ch Hm Em Ec Ep|i ch Em Ec Ep|h Hm Em Ec Ep]; rewrite Ep in Hj.
    + destruct (decide (j = i)) as [->|Hne].
      * exists h. rewrite Em. apply list_lookup_insert_eq. by eapply lookup_lt_Some.
      * eapply placed_other; [exact Hm|done|exact Em|by apply Hp].
    + rewrite Em. by apply Hp.
    + destruct (decide (j = i)) as [->|Hne]; [done|]. eapply placed_other; [exact Hm|cbn; congruence|exact Em|by apply Hp].
    + rewrite Em. destruct (decide (j = i)) as [->|Hne]; [by apply Hp|]. eapply Hold; [apply wakeup_state|done].
    + rewrite Em. eapply Hold; [by apply clocked_other|done].
  - destruct (timer_weight s s' Hs Hl Hst) as (h & i & Hm & Em & Ho & Hi & _). destruct (decide (j = i)) as [->|Hne]; [congruence|].
    eapply placed_other; [exact Hm|cbn; congruence|exact Em|]. eapply Hold; [by apply Ho|done].
Qed.

Section starvation.
(** The processes that are always ready, or running. *)
Context (A : list nat) (HA : NoDup A).

Definition spent (s : sys) : Z := total (λ a, weight (pr s a)) A.
Definition ready (s : sys) : Prop := ∀ a, a ∈ A -> awake (pr s a).
Record busy (s : sys) : Prop := {
  busy_inv : sys_inv locks s;
  busy_levels : levels s;
  busy_placed : placed s;
  busy_ready : ready s;
  busy_spent : spent s <= counter s + 1;
}.

(** A tick costs [A] at most one tick; a boost starts the count anew. *)
Lemma spent_step s s' : sys_inv locks s -> levels s -> atomic_step locks s s' -> ready s' ->
  (counter s <= counter s' -> spent s' - spent s <= counter s' - counter s) ∧ (counter s' < counter s -> spent s' <= counter s' + 1).
Proof.
  intros Hs Hl Hst Hr. destruct Hst as [s' Hst|s' Hst].
  - split; intros Hc.
    + replace (spent s') with (spent s); [lia|]. symmetry. apply total_ext. intros a _. by apply base_weight.
    + assert (counter s' = 0) as E by (by apply (base_weight s s' 0)). replace (spent s') with 0; [lia|].
      symmetry. rewrite <- (total_zero A). apply total_ext. intros a Ha. apply (base_weight s s' a); auto.
  - destruct (timer_weight s s' Hs Hl Hst) as (h & i & _ & _ & _ & _ & H1 & H2). split; intros Hc.
    + destruct (H1 Hc) as (Ec & Ho & Hi). unfold spent. rewrite (total_diff (λ a, weight (pr s a)) _ i A HA) by auto.
      rewrite Hi. destruct (decide _), (_ =? 0); lia.
    + destruct (H2 Hc) as (Ec & Ho & Hi). unfold spent. rewrite (total_diff (λ _, 0) _ i A HA) by auto. rewrite total_zero.
      rewrite Hi. destruct (decide _); lia.
Qed.

Lemma busy_step s s' : busy s -> atomic_step locks s s' -> ready s' -> busy s'.
Proof.
  intros [Hs Hl Hp _ Hsp] Hst Hr. destruct (spent_step s s' Hs Hl Hst Hr) as [H1 H2].
  split; [by eapply atomic_inv|by eapply levels_step|by eapply placed_step|done|].
  destruct (decide (counter s <= counter s')); [specialize (H1 l); lia|]. apply H2. lia.
Qed.
Lemma boost_busy s s' : sys_inv locks s -> levels s -> placed s -> atomic_step locks s s' -> counter s' < counter s -> ready s' -> busy s'.
Proof.
  intros Hs Hl Hp Hst Hc Hr. destruct (spent_step s s' Hs Hl Hst Hr) as [_ H2].
  split; [by eapply atomic_inv|by eapply levels_step|by eapply placed_step|done|by apply H2].
Qed.

(** Only the first [H] harts run processes. *)
Definition uses (H : nat) (s : sys) : Prop := ∀ h i, modes s !! h = Some (HRun i) -> (h < H)%nat.

(** When a hart is free, few of [A] run. *)
Lemma few_running H s h : placed s -> uses H s -> modes s !! h = Some HSched -> (h < H)%nat ->
  (length (filter (λ a, p_state (pr s a) = RUNNING) A) < H)%nat.
Proof.
  intros Hp Hu Hm Hh. set (R := filter _ A). set (ms := delete h (take H (modes s))).
  assert (R ⊆+ omap mode_proc ms) as Hsub%submseteq_length.
  { apply NoDup_submseteq; [by apply NoDup_filter|]. intros a [Ha _]%list_elem_of_filter. destruct (Hp a Ha) as (h' & Hh').
    apply list_elem_of_omap. exists (HRun a). split; [|done]. apply list_elem_of_lookup.
    assert (take H (modes s) !! h' = Some (HRun a)) as Ht by (rewrite lookup_take_lt by (by eapply Hu); done).
    unfold ms. destruct (decide (h' < h)%nat) as [Hlt|Hge].
    - exists h'. by rewrite list_lookup_delete_lt.
    - exists (pred h'). assert (h' ≠ h) by (intros ->; congruence). rewrite list_lookup_delete_ge by lia.
      by replace (S (pred h')) with h' by lia. }
  assert (length (omap mode_proc ms) <= length ms)%nat by (clear; induction ms as [|m ms IH]; [done|]; cbn; destruct (mode_proc m); cbn; lia).
  assert (length ms < H)%nat; [|lia]. unfold ms. assert (h < length (take H (modes s)))%nat as Hlt.
  { apply (lookup_lt_Some _ _ HSched). by rewrite lookup_take_lt. }
  rewrite length_delete by (by apply lookup_lt_is_Some_2). rewrite length_take in *. lia.
Qed.

Lemma total_full w (f : nat -> Prop) `{∀ a, Decision (f a)} B : (∀ a, a ∈ B -> 0 <= w a) -> (∀ a, a ∈ B -> f a ∨ 4 <= w a) ->
  4 * (Z.of_nat (length B) - Z.of_nat (length (filter f B))) <= total w B.
Proof.
  intros H0 Hw. induction B as [|a B IH]; cbn [total length]; [done|]. specialize (IH ltac:(intros; apply H0; by right) ltac:(intros; apply Hw; by right)).
  pose proof (H0 a ltac:(left)). rewrite filter_cons. destruct (Hw a ltac:(left)) as [Ha|Ha].
  - rewrite decide_True by done. cbn [length]. lia.
  - destruct (decide (f a)); cbn [length]; lia.
Qed.

(** So one of them is ready at the highest level, and the scheduler does not
    get to a larger index. *)
Lemma busy_pick H s h j : (50 + H <= length A)%nat -> (∀ a, a ∈ A -> (a < j)%nat ∧ (a < NPROC)%nat) -> busy s -> uses H s ->
  modes s !! h = Some HSched -> (h < H)%nat -> ∃ i, pick (procs (sk s)) = Some i ∧ (i < j)%nat.
Proof.
  intros Hlen Hj [Hs Hl Hp Hr Hsp] Hu Hm Hh. pose proof (few_running H s h Hp Hu Hm Hh) as Hfew.
  pose proof (inv_counter _ _ Hs) as Hc. fold (counter s) in Hc. unfold STARVATION_THRESHOLD in Hc.
  assert (∃ a, a ∈ A ∧ p_state (pr s a) = RUNNABLE ∧ weight (pr s a) < 4) as (a & Ha & Hra & Hwa).
  { destruct (decide (Exists (λ a, p_state (pr s a) = RUNNABLE ∧ weight (pr s a) < 4) A)) as [He|He%not_Exists_Forall]; [by apply Exists_exists in He| |apply _].
    exfalso. rewrite Forall_forall in He.
    pose proof (total_full (λ a, weight (pr s a)) (λ a, p_state (pr s a) = RUNNING) A) as Ht. fold (spent s) in Ht.
    assert (∀ a, 0 <= weight (pr s a)) as H0 by (intros a; by apply weight_range).
    specialize (Ht (λ a _, H0 a)). assert (spent s <= 200) by lia. cut (4 * (Z.of_nat (length A) - Z.of_nat (H - 1)) <= spent s); [lia|].
    etransitivity; [|apply Ht]; [lia|]. intros a Ha. specialize (He a Ha). cbn in He. destruct (Hr a Ha) as [E|E]; [right|by left].
    destruct (decide (weight (pr s a) < 4)); [by destruct He|lia]. }
  assert (p_priority (pr s a) = 0) as Hpa by (apply weight_high; [done|congruence|done]).
  destruct (Hj a Ha) as [Haj HaN]. assert (runnable (procs (sk s)) a) as Hrun by done.
  assert (∀ i, runnable (procs (sk s)) i -> 0 <= p_priority (procs (sk s) !!! i) <= 2) as Hok.
  { intros i [_ Hi]. apply (Hl i). change (p_state (pr s i) = RUNNABLE) in Hi. congruence. }
  pose proof (pick_best _ Hok) as Hb. destruct (pick (procs (sk s))) as [i|]; [|by destruct (Hb a)].
  exists i. split; [done|]. destruct Hb as [Hi Hmin]. specialize (Hmin a Hrun). specialize (Hok i Hi). fold (pr s a) in Hmin. lia.
Qed.
End starvation.

(** Steps in which only the first [H] harts run processes and [A] stays ready. *)
Definition crowded (H : nat) (A : list nat) (s s' : sys) : Prop := atomic_step locks s s' ∧ uses H s' ∧ ready A s'.

(** C26. Starvation: let only [H] of the harts run processes, and let at least
    [50 + H] processes never sleep from a boost on (51 on one hart, 58 on all
    8).  Then a process [j] of a larger index than theirs, that does not run
    at the boost, never runs again, whatever the other processes do and for
    any number of ticks; every scheduler that is free finds a process of a
    smaller index to dispatch.  A boost comes every 200 ticks, and it takes
    longer to use up the 4 ticks that each of them has at the highest level. *)
Theorem starvation H A j s0 s s' :
  sys_inv locks s0 -> levels s0 -> placed s0 -> NoDup A -> (50 + H <= length A)%nat -> (∀ a, a ∈ A -> (a < j)%nat ∧ (a < NPROC)%nat) ->
  crowded H A s0 s -> counter s < counter s0 -> (∀ h, modes s !! h ≠ Some (HRun j)) -> rtc (crowded H A) s s' ->
  (∀ h, modes s' !! h ≠ Some (HRun j)) ∧
  ∀ h, (h < H)%nat -> modes s' !! h = Some HSched -> ∃ i k1, scheduler_pass (on_hart h (sk s')) = Ret (Some i) k1 ∧ (i < j)%nat.
Proof.
  intros Hs0 Hl0 Hp0 HA Hlen Hj (Hst & Hu & Hr) Hc Hm Hrun. pose proof (boost_busy A HA s0 s Hs0 Hl0 Hp0 Hst Hc Hr) as Hb.
  assert (busy A s' ∧ uses H s' ∧ ∀ h, modes s' !! h ≠ Some (HRun j)) as (Hb' & Hu' & Hm').
  { clear Hst Hc Hr Hs0 Hl0 Hp0 s0. induction Hrun as [s|s s1 s2 (Hst & Hu1 & Hr1) _ IH]; [done|]. apply IH; [done| |by eapply busy_step].
    intros h Hh. destruct Hst as [s1 Hst|s1 Hst].
    - pose proof (busy_inv _ _ Hb) as Hs.
      destruct (base_effect s s1 Hs Hst) as [h1 i t ch Hm1 Hpi Em _ _|Em _ _|h1 i t ch _ Em _ _|i ch Em _ _|h1 _ Em _ _]; rewrite Em in Hh; try by apply (Hm h).
      + apply list_lookup_insert_Some in Hh as [(<- & [= ->] & _)|[_ Hh]]; [|by apply (Hm h)].
        destruct (busy_pick A HA H s h1 j Hlen Hj Hb Hu Hm1) as (i & E & Hi); [|rewrite E in Hpi; injection Hpi as ->; lia].
        apply (Hu1 h1 j). rewrite Em. apply list_lookup_insert_eq. by eapply lookup_lt_Some.
      + apply list_lookup_insert_Some in Hh as [(_ & [=] & _)|[_ Hh]]. by apply (Hm h).
    - destruct (timer_has_effect s s1 (busy_inv _ _ Hb) Hst) as [h1 i t _ Em _ _]. rewrite Em in Hh.
      apply list_lookup_insert_Some in Hh as [(_ & [=] & _)|[_ Hh]]. by apply (Hm h). }
  split; [done|]. intros h Hh Hm1. destruct (busy_pick A HA H s' h j Hlen Hj Hb' Hu' Hm1 Hh) as (i & E & Hi).
  destruct (inv_on_hart _ Hlocks s' h _ (busy_inv _ _ Hb') Hm1) as (_ & Ht & _ & Hn & _). eexists i, _. split; [|done].
  rewrite scheduler_pass_eq by done. change (procs (on_hart h (sk s'))) with (procs (sk s')). by rewrite E.
Qed.

(** ** Response time *)
Section response.
Context (j : nat).

Definition waiting (s : sys) : Prop := (j < NPROC)%nat ∧ p_state (pr s j) = RUNNABLE ∧ p_priority (pr s j) = 0.

(** Runs in which [j] waits all the time and there is no boost, with the number
    of timer interrupts that fall on running processes. *)
Inductive waits (s : sys) : nat -> sys -> Prop :=
| waits_nil : waiting s -> waits s 0 s
| waits_base n s1 s2 : waits s n s1 -> base_step locks s1 s2 -> counter s1 <= counter s2 -> waiting s2 -> waits s n s2
| waits_timer n s1 s2 : waits s n s1 -> timer_step s1 s2 -> counter s1 <= counter s2 -> waiting s2 -> waits s (S n) s2.

(** A hart that runs a process that would not be dispatched before [j]. *)
Definition before (s : sys) (i : nat) : bool := bool_decide (i < j)%nat && (weight (pr s i) <? 4).
Definition ahead (s : sys) (m : hmode) : Z := match mode_proc m with Some i => if before s i then 0 else 1 | None => 0 end.
Fixpoint others (s : sys) (ms : list hmode) : Z :=
  match ms with
  | [] => 0
  | m :: ms' => ahead s m + others s ms'
  end.
(** The ticks that can pass before [j] is dispatched. *)
Definition left_ticks (s : sys) : Z := total (λ i, 4 - weight (pr s i)) (seq 0 j) + others s (modes s).

Lemma others_insert s ms h m m' : ms !! h = Some m -> others s (<[h := m']> ms) = others s ms - ahead s m + ahead s m'.
Proof.
  revert h. induction ms as [|x ms IH]; intros [|h] Hm; try done.
  - injection Hm as ->. cbn. lia.
  - change (<[S h := m']> (x :: ms)) with (x :: <[h := m']> ms). cbn [others]. rewrite (IH h Hm). lia.
Qed.
Lemma others_ext s s' ms : (∀ m i, m ∈ ms -> mode_proc m = Some i -> weight (pr s' i) = weight (pr s i)) -> others s' ms = others s ms.
Proof.
  induction ms as [|m ms IH]; intros Hw; cbn [others]; [done|]. rewrite IH by (intros; eapply Hw; [by right|done]). f_equal.
  unfold ahead. destruct (mode_proc m) as [i|] eqn:E; [|done]. unfold before. by rewrite (Hw m i ltac:(left) E).
Qed.
Lemma others_bound s ms : 0 <= others s ms <= Z.of_nat (length (omap mode_proc ms)).
Proof. induction ms as [|m ms IH]; cbn [others]; [done|]. unfold ahead. cbn. destruct (mode_proc m) as [i|]; cbn; [destruct (before s i)|]; lia. Qed.

(** While [j] waits, only processes before it are dispatched. *)
Lemma wait_pick s : sys_inv locks s -> levels s -> waiting s ->
  ∃ i, pick (procs (sk s)) = Some i ∧ (i <= j)%nat ∧ p_state (pr s i) = RUNNABLE ∧ p_priority (pr s i) = 0.
Proof.
  intros Hs Hl (Hj & Hr & Hp). assert (runnable (procs (sk s)) j) as Hrun by done.
  assert (∀ i, runnable (procs (sk s)) i -> 0 <= p_priority (procs (sk s) !!! i) <= 2) as Hok.
  { intros i [_ Hi]. apply (Hl i). change (p_state (pr s i) = RUNNABLE) in Hi. congruence. }
  pose proof (pick_best _ Hok) as Hb. destruct (pick (procs (sk s))) as [i|]; [|by destruct (Hb j)]. exists i. split; [done|].
  destruct Hb as [Hi Hmin]. specialize (Hmin j Hrun). pose proof (Hok i Hi) as Hpi. fold (pr s j) in Hmin. fold (pr s i) in Hmin, Hpi.
  split; [lia|]. split; [apply Hi|lia].
Qed.

Lemma left_base s s' : sys_inv locks s -> levels s -> base_step locks s s' -> counter s <= counter s' -> waiting s -> waiting s' ->
  left_ticks s' <= left_ticks s.
Proof.
  intros Hs Hl Hst Hc Hw Hw'. assert (∀ i, weight (pr s' i) = weight (pr s i)) as Ew by (intros i; by apply base_weight).
  unfold left_ticks. rewrite (total_ext (λ i, 4 - weight (pr s i))) by (intros i _; by rewrite Ew).
  rewrite (others_ext s s') by auto.
  destruct (base_effect s s' Hs Hst) as [h i t ch Hm Hpi Em _ Ep|Em _ _|h i t ch Hm Em _ _|i ch Em _ _|h _ Em _ _]; rewrite Em; try lia.
  - rewrite (others_insert _ _ _ _ _ Hm). destruct (wait_pick s Hs Hl Hw) as (i' & Ei & Hi & Hri & Hp0). rewrite Ei in Hpi. injection Hpi as ->.
    assert (i ≠ j) as Hne.
    { intros ->. destruct Hw' as (_ & Hr & _). rewrite Ep, decide_True in Hr by done. revert Hr. unfold dispatch_proc. pcbn. by destruct (_ =? 0). }
    assert (weight (pr s i) < 4) as H4 by (apply weight_high; [done|congruence|done]).
    assert (before s i = true) as Hbi by (unfold before; rewrite bool_decide_true by lia; by rewrite (proj2 (Z.ltb_lt _ _) H4)).
    unfold ahead. cbn [mode_proc]. rewrite Hbi. lia.
  - rewrite (others_insert _ _ _ _ _ Hm). unfold ahead. cbn [mode_proc]. destruct (before s i); lia.
Qed.

Lemma left_timer s s' : sys_inv locks s -> levels s -> timer_step s s' -> counter s <= counter s' -> left_ticks s' <= left_ticks s - 1.
Proof.
  intros Hs Hl Hst Hc. destruct (timer_weight s s' Hs Hl Hst) as (h & i & Hm & Em & _ & _ & H1 & _). destruct (H1 Hc) as (_ & Ho & Hi).
  destruct (inv_run _ _ Hs h i Hm) as [_ Hr]. fold (pr s i) in Hr.
  unfold left_ticks. rewrite (total_diff (λ i, 4 - weight (pr s i)) _ i) by (apply NoDup_seq || (intros; rewrite Ho by done; done)).
  assert (others s' (modes s') = others s (modes s) - ahead s (HRun i)) as ->.
  { rewrite Em, (others_ext s s').
    - rewrite (others_insert _ _ _ _ _ Hm). unfold ahead at 2. cbn [mode_proc]. lia.
    - intros m i' (h' & Hh')%list_elem_of_lookup Ei. apply Ho. intros ->.
      apply list_lookup_insert_Some in Hh' as [(_ & <- & _)|[Hne Hh']]; [done|]. destruct m as [|i1|i1]; [done| |by destruct (inv_ticked _ _ Hs h' i1)].
      cbn in Ei. injection Ei as ->. by apply Hne, (inv_excl _ _ Hs h h' i). }
  pose proof (weight_high (pr s i) (Hl i) ltac:(congruence)) as Hwh. unfold ahead, before. cbn [mode_proc]. rewrite Hi.
  destruct (decide (i ∈ seq 0 j)) as [Hin|Hin]; rewrite elem_of_seq in Hin.
  - rewrite bool_decide_true by lia. cbn [andb]. destruct (Z.ltb_spec (weight (pr s i)) 4), (Z.eqb_spec (p_priority (pr s i)) 0); try lia; tauto.
  - rewrite bool_decide_false by lia. cbn [andb]. lia.
Qed.

(** C27. Response time: while a process [j] is ready at the highest level (as it
    is after a boost), at most [4 * j] timer interrupts and one for each hart
    that runs a process at the start fall on running processes before [j] is
    dispatched or the next boost comes, on any number of harts and whatever
    the other processes do: run, sleep and wake up.  No scheduler is idle in
    this time; it dispatches [j] or a process of a smaller index.  (The steps
    create no process: a slot that is used again has new ticks.) *)
Theorem response_time n s s' :
  sys_inv locks s -> levels s -> waits s n s' ->
  Z.of_nat n <= 4 * Z.of_nat j + Z.of_nat (length (omap mode_proc (modes s))) ∧
  ∀ h, modes s' !! h = Some HSched -> ∃ i k1, scheduler_pass (on_hart h (sk s')) = Ret (Some i) k1 ∧ (i <= j)%nat.
Proof.
  intros Hs Hl Hw.
  assert (sys_inv locks s' ∧ levels s' ∧ waiting s' ∧ Z.of_nat n + left_ticks s' <= left_ticks s) as (Hs' & Hl' & Hw' & Hn).
  { induction Hw as [Hw|n s1 s2 _ (Hs1 & Hl1 & Hw1 & IH) Hst Hc Hw2|n s1 s2 _ (Hs1 & Hl1 & Hw1 & IH) Hst Hc Hw2]; [split; [done|]; split; [done|]; split; [done|lia]| |].
    - pose proof (A_base _ _ _ Hst) as Ha. pose proof (left_base s1 s2 Hs1 Hl1 Hst Hc Hw1 Hw2).
      split; [by eapply atomic_inv|]. split; [by eapply levels_step|]. split; [done|lia].
    - pose proof (A_timer locks _ _ Hst) as Ha. pose proof (left_timer s1 s2 Hs1 Hl1 Hst Hc).
      split; [by eapply atomic_inv|]. split; [by eapply levels_step|]. split; [done|lia]. }
  split.
  - assert (∀ s, levels s -> 0 <= total (λ i, 4 - weight (pr s i)) (seq 0 j) <= 4 * Z.of_nat j) as Ht.
    { intros s1 H1. pose proof (total_bound (λ i, 4 - weight (pr s1 i)) (seq 0 j)) as Hb. rewrite length_seq in Hb. apply Hb. intros a _. pose proof (weight_range _ (H1 a)). lia. }
    pose proof (Ht s Hl). pose proof (Ht s' Hl'). pose proof (others_bound s (modes s)). pose proof (others_bound s' (modes s')).
    unfold left_ticks in Hn. lia.
  - intros h Hm. destruct (wait_pick s' Hs' Hl' Hw') as (i & E & Hi & _).
    destruct (inv_on_hart _ Hlocks s' h _ Hs' Hm) as (_ & Ht & _ & Hno & _). eexists i, _. split; [|done].
    rewrite scheduler_pass_eq by done. change (procs (on_hart h (sk s'))) with (procs (sk s')). by rewrite E.
Qed.
End response.

(** The step that the timer interrupt of an idle hart makes. *)
Lemma clock_makes s h : sys_inv locks s -> modes s !! h = Some HSched ->
  ∃ s', base_step locks s s' ∧ modes s' = modes s ∧ konts s' = konts s ∧
    counter s' = starvation_counter (clock_state (on_hart h (sk s))) ∧ procs (sk s') = clock_procs (on_hart h (sk s)).
Proof.
  intros Hs Hm. destruct (inv_on_hart _ Hlocks s h _ Hs Hm) as (Hq & Ht & H3 & Hn & Hp & Hcur & Hh).
  pose proof (inv_counter _ _ Hs) as Hcnt. unfold STARVATION_THRESHOLD in Hcnt.
  exists (mk_sys (clock_state (on_hart h (sk s))) (modes s) (konts s)). split; [|by repeat split].
  apply (S_clock_idle _ s h); [done|]. apply clockintr_eq; [done|done|by apply (quiet_static _ Hlocks _ _ Hq), static_lock|].
  change (starvation_counter (on_hart h (sk s))) with (starvation_counter (sk s)). lia.
Qed.
End runs.

(** ** Examples *)

(** All 64 slots hold processes that are ready to run at the highest level; all
    harts are in the scheduler. *)
Definition demo_full (c : Z) : sys := mk_sys
  ((demo (imap (λ i _, demo_proc RUNNABLE (Z.of_nat i + 1) 0) (replicate NPROC ())) None) <| starvation_counter := c |>)
  (replicate 8 HSched)
  (list_to_map ((λ i, (i, KYield 1)) <$> seq 0 64)).

Lemma demo_full_lookup c i : pr (demo_full c) i = proc0 ∨ pr (demo_full c) i = demo_proc RUNNABLE (Z.of_nat i + 1) 0.
Proof.
  change (pr (demo_full c) i) with (imap (λ i _, demo_proc RUNNABLE (Z.of_nat i + 1) 0) (replicate NPROC ()) !!! i).
  rewrite list_lookup_total_alt, list_lookup_imap. destruct (replicate NPROC () !! i); [by right|by left].
Qed.
Lemma demo_full_ready c i : (i < NPROC)%nat -> pr (demo_full c) i = demo_proc RUNNABLE (Z.of_nat i + 1) 0.
Proof.
  intros Hi. change (pr (demo_full c) i) with (imap (λ i _, demo_proc RUNNABLE (Z.of_nat i + 1) 0) (replicate NPROC ()) !!! i).
  rewrite list_lookup_total_alt, list_lookup_imap. by rewrite lookup_replicate_2.
Qed.
Lemma demo_full_mode c h m : modes (demo_full c) !! h = Some m -> m = HSched.
Proof. by intros [-> _]%lookup_replicate. Qed.

Lemma demo_full_inv c : 0 <= c < STARVATION_THRESHOLD ->
  sys_inv static_locks (demo_full c) ∧ levels (demo_full c) ∧ placed (demo_full c).
Proof.
  intros Hc. split; [|split].
  - split.
    + split; [done|done| |apply demo_lock]. apply (bool_decide_unpack _). by vm_compute.
    + by vm_compute.
    + done.
    + done.
    + done.
    + intros h i Hh%demo_full_mode. done.
    + intros h i Hh%demo_full_mode. done.
    + intros h h' i Hh%demo_full_mode. done.
    + intros i k Hk%elem_of_list_to_map_2. apply list_elem_of_fmap in Hk as (i' & [= -> ->] & _). done.
  - intros i. destruct (demo_full_lookup c i) as [->| ->]; [done|]. intros _. by vm_compute.
  - intros i. by destruct (demo_full_lookup c i) as [->| ->].
Qed.


(** A process is dispatched on hart 0 and interrupted. *)
Lemma round s i c : sys_inv static_locks s -> levels s -> modes s = replicate 8 HSched -> pick (procs (sk s)) = Some i -> konts s !! i = Some c ->
  counter s + 1 < STARVATION_THRESHOLD ->
  ∃ s1 s2, base_step static_locks s s1 ∧ timer_step s1 s2 ∧ modes s1 = <[0%nat := HRun i]> (replicate 8 HSched) ∧ modes s2 = replicate 8 HSched ∧
    counter s1 = counter s ∧ counter s2 = counter s + 1 ∧ awake (pr s1 i) ∧ awake (pr s2 i) ∧
    ∀ j, j ≠ i -> pr s1 j = pr s j ∧ (p_state (pr s j) = RUNNABLE -> p_state (pr s2 j) = RUNNABLE) ∧
      (p_state (pr s j) = RUNNABLE -> p_priority (pr s j) = 0 -> p_priority (pr s2 j) = 0).
Proof.
  intros Hs Hl Em Hp Hc Hb. destruct (dispatch_makes static_locks (reflexivity _) s 0 i c Hs) as (s1 & H1 & E1 & _ & C1 & f & P1 & Hf); [by rewrite Em|done|done|].
  assert (sys_inv static_locks s1) as Hs1 by (eapply atomic_inv; [done|exact Hs|by apply A_base]).
  assert (levels s1) as Hl1 by (eapply levels_step; [|exact Hs|by apply A_base|done]; done).
  rewrite Em in E1. destruct (timer_makes static_locks (reflexivity _) s1 0 i Hs1) as (s2 & c2 & H2 & E2 & _); [by rewrite E1|].
  pose proof (pick_runnable _ _ Hp) as [Hi _].
  assert (∀ j, j ≠ i -> pr s1 j = pr s j) as Hsame by (intros j Hj; unfold pr; rewrite P1, !upd_ne by done; done).
  destruct (inv_run _ _ Hs1 0 i) as [_ Hr1]; [by rewrite E1|].
  destruct (timer_weight static_locks (reflexivity _) s1 s2 Hs1 Hl1 H2) as (h & i' & Hm & Em2 & Ho & Hi2 & HW & HB).
  assert (i' = i ∧ h = 0%nat) as [-> ->].
  { rewrite E1 in Hm. apply list_lookup_insert_Some in Hm as [(<- & [= <-] & _)|[_ Hm]]; [done|]. by apply lookup_replicate in Hm as [? _]. }
  assert (counter s1 <= counter s2) as Hc12.
  { destruct (decide (counter s1 <= counter s2)) as [|Hn]; [done|]. exfalso.
    destruct (timer_has_effect static_locks (reflexivity _) s1 s2 Hs1 H2) as [h1 i1 t1 _ _ Ec _].
    assert (counter s2 < counter s1) as Hf2 by lia. apply (counter_falls static_locks s1 s2 Hs1 Ec) in Hf2. unfold boosts in Hf2.
    change (counter s1 = counter s) in C1. rewrite C1 in Hf2. apply Z.leb_le in Hf2. lia. }
  destruct (HW Hc12) as (Ec & Hw & _). change (counter s1 = counter s) in C1.
  exists s1, s2. split; [done|]. split; [done|]. split; [done|]. split; [by rewrite E2, E1|]. split; [done|]. split; [lia|].
  split; [by right|]. split; [by left|]. intros j Hj. rewrite <- (Hsame j Hj). split; [done|].
  assert (p_state (pr s1 j) = RUNNABLE -> p_state (pr s2 j) = RUNNABLE) as Hst.
  { intros E. destruct (Ho j Hj) as [->|[_ ?]]; done. }
  split; [done|]. intros Hrj Hpj. apply weight_high.
  - eapply levels_step; [|exact Hs1|by apply A_timer|done]. done.
  - rewrite Hst; done.
  - rewrite (Hw j Hj). apply weight_high; [done|congruence|done].
Qed.

Lemma starvation_witness : ∃ s0 s s1 s2,
  crowded static_locks 1 (seq 0 51) s0 s ∧ rtc (crowded static_locks 1 (seq 0 51)) s s2 ∧ timer_step s1 s2 ∧
  (∀ h, modes s2 !! h ≠ Some (HRun 63)) ∧ ∃ i k1, scheduler_pass (on_hart 0 (sk s2)) = Ret (Some i) k1 ∧ (i < 63)%nat.
Proof.
  destruct (demo_full_inv 199 ltac:(done)) as (Hs0 & Hl0 & Hp0). set (s0 := demo_full 199) in *.
  destruct (clock_makes static_locks (reflexivity _) s0 0 Hs0 eq_refl) as (s & H0 & E0 & K0 & C0 & P0).
  assert (counter s = 0) as Ec by (by rewrite C0).
  assert (sys_inv static_locks s) as Hs by (eapply atomic_inv; [done|exact Hs0|by apply A_base]).
  assert (levels s) as Hl by (eapply levels_step; [|exact Hs0|by apply A_base|done]; done).
  assert (∀ j, (j < NPROC)%nat -> p_state (pr s j) = RUNNABLE) as Hr0.
  { intros j Hj. unfold pr. rewrite P0, (clock_lookup static_locks (reflexivity _) s0 0 HSched j Hs0 eq_refl), (bool_decide_false (_ = Some j)) by done.
    destruct (clocked_other s0 0 (pr s0 j)) as (_ & _ & _ & [->|[E _]]); unfold s0 in *; rewrite demo_full_ready in * by done; done. }
  destruct (round s 0 (KYield 1) Hs Hl E0) as (s1 & s2 & H1 & H2 & M1 & M2 & C1 & C2 & A1 & A2 & Hoth).
  { rewrite P0. by vm_compute. }
  { rewrite K0. by vm_compute. }
  { rewrite Ec. done. }
  assert (∀ a, a ∈ seq 0 51 -> (a < 63)%nat ∧ (a < NPROC)%nat) as HA by (intros a Ha%elem_of_seq; unfold NPROC; lia).
  assert (ready (seq 0 51) s ∧ ready (seq 0 51) s1 ∧ ready (seq 0 51) s2) as (R0 & R1 & R2).
  { split; [intros a Ha; left; by apply Hr0, HA|]. split; intros a Ha; destruct (decide (a = 0%nat)) as [->|Hne]; try done;
      destruct (Hoth a Hne) as (E & Hst & _); [rewrite E; left; by apply Hr0, HA|left; by apply Hst, Hr0, HA]. }
  assert (uses 1 s ∧ uses 1 s1 ∧ uses 1 s2) as (U0 & U1 & U2).
  { unfold uses. rewrite E0, M1, M2. split; [by intros h i Hh%demo_full_mode|]. split; intros h i Hh.
    - apply list_lookup_insert_Some in Hh as [(<- & _)|[_ [? _]%lookup_replicate]]; [lia|done].
    - by apply lookup_replicate in Hh as [? _]. }
  assert (crowded static_locks 1 (seq 0 51) s0 s) as K1 by (split; [by apply A_base|done]).
  assert (rtc (crowded static_locks 1 (seq 0 51)) s s2) as K2.
  { eapply rtc_l; [split; [by apply A_base|done]|]. apply rtc_once. split; [by apply A_timer|done]. }
  exists s0, s, s1, s2. split; [exact K1|]. split; [exact K2|]. split; [exact H2|].
  destruct (starvation static_locks (reflexivity _) 1 (seq 0 51) 63 s0 s s2 Hs0 Hl0 Hp0 (NoDup_seq 0 51)) as [HN HS];
    [rewrite length_seq; lia|exact HA|exact K1|rewrite Ec; done|by rewrite E0; intros h Hh%demo_full_mode|exact K2|].
  split; [exact HN|]. apply HS; [lia|]. by rewrite M2.
Defined.

Lemma response_time_witness : ∃ s1 s2,
  waits static_locks 2 (demo_full 0) 1 s2 ∧ timer_step s1 s2 ∧ ∃ i k1, scheduler_pass (on_hart 0 (sk s2)) = Ret (Some i) k1 ∧ (i <= 2)%nat.
Proof.
  destruct (demo_full_inv 0 ltac:(done)) as (Hs & Hl & _).
  destruct (round (demo_full 0) 0 (KYield 1) Hs Hl eq_refl) as (s1 & s2 & H1 & H2 & _ & M2 & C1 & C2 & _ & _ & Hoth); [by vm_compute|by vm_compute|done|].
  assert (waiting 2 (demo_full 0)) as W0 by (unfold waiting; rewrite demo_full_ready by (unfold NPROC; lia); split; [unfold NPROC; lia|done]).
  destruct (Hoth 2%nat ltac:(done)) as (E1 & Hst & Hpr). pose proof W0 as (N0 & S0 & P0).
  assert (waits static_locks 2 (demo_full 0) 1 s2) as HW.
  { eapply waits_timer; [eapply waits_base; [by apply waits_nil|exact H1|lia|]|exact H2|lia|].
    - split; [done|]. by rewrite E1.
    - split; [done|]. split; [by apply Hst|by apply Hpr]. }
  exists s1, s2. split; [exact HW|]. split; [exact H2|].
  apply (response_time static_locks (reflexivity _) 2 1 (demo_full 0) s2 Hs Hl HW). by rewrite M2.
Defined.
