(* ===== verification/User.v ===== *)
(** * User programs: system calls and [user/ulib.c]

    A user program runs on its own memory and asks the kernel for everything
    else.  The class [Sys] has one operation for each system call the programs
    use; it stands for the stubs that [user/usys.pl] generates and the kernel
    behind them, so the programs are modelled, and their theorems proved, for
    every kernel state [O] and every answer.  A string argument is handed over
    as its bytes.  [exit] ends the program: the outcome is [Switch] with the
    status recorded.  Loops over strings carry a bound on their rounds; running
    out of it is [Spin]. *)
From S2P Require Import Prelude Layout KState CString.

Class Sys (O : Type) := {
  os_read : Z -> Z -> O -> Z * list Z * O; (* fd, count: result and the bytes stored *)
  os_write : Z -> list Z -> O -> Z * O;
  os_open : list Z -> Z -> O -> Z * O;
  os_close : Z -> O -> Z * O;
  os_fstat : Z -> O -> Z * list Z * O; (* result and the bytes of the struct stat *)
  os_link : list Z -> list Z -> O -> Z * O;
  os_unlink : list Z -> O -> Z * O;
  os_mkdir : list Z -> O -> Z * O;
  os_mknod : list Z -> Z -> Z -> O -> Z * O;
  os_chdir : list Z -> O -> Z * O;
  os_dup : Z -> O -> Z * O;
  os_pipe : O -> Z * (Z * Z) * O;
  os_fork : O -> Z * O;
  os_exec : list Z -> list (list Z) -> O -> option Z * O; (* [None]: does not return *)
  os_wait : O -> Z * Z * O; (* pid and exit status *)
  os_kill : Z -> O -> Z * O;
  os_sbrk : Z -> Z -> O -> Z * O;
  os_pause : Z -> O -> Z * O;
}.

Record user (O : Type) : Type := mk_user {
  u_mem : memory;
  u_os : O;
  u_exit : option Z; (* status given to exit() *)
}.
#[global] Arguments mk_user {O}.
#[global] Arguments u_mem {O}.
#[global] Arguments u_os {O}.
#[global] Arguments u_exit {O}.
#[export] Instance set_u_mem {O} : Setter (@u_mem O) := λ f r, mk_user (f (u_mem r)) (u_os r) (u_exit r).
#[export] Instance set_u_os {O} : Setter (@u_os O) := λ f r, mk_user (u_mem r) (f (u_os r)) (u_exit r).
#[export] Instance set_u_exit {O} : Setter (@u_exit O) := λ f r, mk_user (u_mem r) (u_os r) (f (u_exit r)).

Abbreviation UM O := (ST (user O)).

Section sys.
Context {O : Type} {S : Sys O}.

(** [*a] and [*a = v]. *)
Definition lb (a : Z) : UM O Z := gets (λ u, ld8 (u_mem u) a).
Definition sb (a v : Z) : UM O () := modify (λ u, u <| u_mem ::= λ m, st8 m a v |>).

(** A system call with its result. *)
Definition sys {A} (f : O -> A * O) : UM O A := λ u, let '(a, o) := f (u_os u) in Ret a (u <| u_os := o |>).

Definition read (fd a n : Z) : UM O Z :=
  r ← sys (os_read fd n);
  modify (λ u, u <| u_mem ::= write_bytes a r.2 |>) ;;
  mret r.1.
Definition write (fd a n : Z) : UM O Z :=
  l ← gets (λ u, bytes (Z.to_nat n) (u_mem u) a);
  sys (os_write fd l).
Definition exit {A} (status : Z) : UM O A :=
  modify (λ u, u <| u_exit := Some status |>) ;;
  switch.

(** The bytes of the string at [a]. *)
Fixpoint ustr (fuel : nat) (a : Z) : UM O (list Z) :=
  match fuel with
  | 0%nat => spin
  | Datatypes.S fuel' =>
      c ← lb a;
      if c =? 0 then mret [] else
      l ← ustr fuel' (a + 1);
      mret (c :: l)
  end.
End sys.

(** ** [user/ulib.c] *)

Module Ulib.
Section ulib.
Context {O : Type} {S : Sys O} (fuel : nat).

(** [while(( *s++ = *t++) != 0);] *)
Fixpoint strcpy_loop (n : nat) (s t : Z) : UM O () :=
  match n with
  | 0%nat => spin
  | Datatypes.S n' =>
      c ← lb t;
      sb s c ;;
      if negb (c =? 0) then strcpy_loop n' (s + 1) (t + 1) else mret ()
  end.
Definition strcpy (s t : Z) : UM O Z :=
  strcpy_loop fuel s t ;;
  mret s.

(** [while( *p && *p == *q) p++, q++;] *)
Fixpoint strcmp_loop (n : nat) (p q : Z) : UM O Z :=
  match n with
  | 0%nat => spin
  | Datatypes.S n' =>
      c ← lb p;
      d ← lb q;
      if negb (c =? 0) && (c =? d) then strcmp_loop n' (p + 1) (q + 1) else mret (c - d)
  end.
Definition strcmp (p q : Z) : UM O Z := strcmp_loop fuel p q.

(** [for(n = 0; s[n]; n++);] *)
Fixpoint strlen_loop (k : nat) (s n : Z) : UM O Z :=
  match k with
  | 0%nat => spin
  | Datatypes.S k' =>
      c ← lb (s + n);
      if negb (c =? 0) then strlen_loop k' s (i32 (n + 1)) else mret n
  end.
Definition strlen (s : Z) : UM O Z :=
  n ← strlen_loop fuel s 0;
  mret (u32 n).

(** [for(i = 0; i < n; i++) cdst[i] = c;] *)
Fixpoint memset_loop (left : nat) (i dst c : Z) : UM O () :=
  match left with
  | 0%nat => mret ()
  | Datatypes.S left' =>
      sb (dst + i) c ;;
      memset_loop left' (i + 1) dst c
  end.
Definition memset (dst c n : Z) : UM O Z :=
  memset_loop (Z.to_nat n) 0 dst c ;;
  mret dst.

Fixpoint strchr_loop (n : nat) (s c : Z) : UM O Z :=
  match n with
  | 0%nat => spin
  | Datatypes.S n' =>
      d ← lb s;
      if d =? 0 then mret 0 else
      if d =? c then mret s else
      strchr_loop n' (s + 1) c
  end.
Definition strchr (s c : Z) : UM O Z := strchr_loop fuel s c.

(** [for(i=0; i+1 < max; )]; the result is the final [i]. *)
Fixpoint gets_loop (left : nat) (buf i : Z) : UM O Z :=
  match left with
  | 0%nat => mret i
  | Datatypes.S left' =>
      r ← sys (os_read 0 1);
      if r.1 <? 1 then mret i else
      let c := hd 0 r.2 in
      sb (buf + i) c ;;
      if (c =? 10) || (c =? 13) then mret (i + 1) else gets_loop left' buf (i + 1)
  end.
Definition gets (buf max : Z) : UM O Z :=
  i ← gets_loop (Z.to_nat (max - 1)) buf 0;
  sb (buf + i) 0 ;;
  mret buf.

Definition stat (n st : Z) : UM O Z :=
  path ← ustr fuel n;
  fd ← sys (os_open path O_RDONLY);
  if fd <? 0 then mret (-1) else
  r ← sys (os_fstat fd);
  modify (λ u, u <| u_mem ::= write_bytes st r.2 |>) ;;
  sys (os_close fd) ;;
  mret r.1.

(** [while('0' <= *s && *s <= '9') n = n*10 + *s++ - '0';] *)
Fixpoint atoi_loop (k : nat) (s n : Z) : UM O Z :=
  match k with
  | 0%nat => spin
  | Datatypes.S k' =>
      c ← lb s;
      if (48 <=? c) && (c <=? 57) then atoi_loop k' (s + 1) (i32 (n * 10 + c - 48)) else mret n
  end.
Definition atoi (s : Z) : UM O Z := atoi_loop fuel s 0.

(** [while(n-- > 0) *dst++ = *src++;] and [while(n-- > 0) *--dst = *--src;] *)
Fixpoint memmove_up (n : nat) (dst src : Z) : UM O () :=
  match n with
  | 0%nat => mret ()
  | Datatypes.S n' =>
      c ← lb src;
      sb dst c ;;
      memmove_up n' (dst + 1) (src + 1)
  end.
Fixpoint memmove_down (n : nat) (dst src : Z) : UM O () :=
  match n with
  | 0%nat => mret ()
  | Datatypes.S n' =>
      c ← lb (src - 1);
      sb (dst - 1) c ;;
      memmove_down n' (dst - 1) (src - 1)
  end.
Definition memmove (vdst vsrc n : Z) : UM O Z :=
  (if vdst <? vsrc then memmove_up (Z.to_nat n) vdst vsrc
   else memmove_down (Z.to_nat n) (vdst + n) (vsrc + n)) ;;
  mret vdst.

Fixpoint memcmp_loop (n : nat) (p1 p2 : Z) : UM O Z :=
  match n with
  | 0%nat => mret 0
  | Datatypes.S n' =>
      c ← lb p1;
      d ← lb p2;
      if negb (c =? d) then mret (c - d) else memcmp_loop n' (p1 + 1) (p2 + 1)
  end.
Definition memcmp (s1 s2 n : Z) : UM O Z := memcmp_loop (Z.to_nat n) s1 s2.

Definition memcpy (dst src n : Z) : UM O Z := memmove dst src n.

Definition sbrk (n : Z) : UM O Z := sys (os_sbrk n SBRK_EAGER).
Definition sbrklazy (n : Z) : UM O Z := sys (os_sbrk n SBRK_LAZY).

(** [main] and its arguments are the program's. *)
Definition start (main : UM O Z) : UM O () :=
  r ← main;
  exit r.
End ulib.
End Ulib.

(** ** Strings in memory *)

(** The NUL-terminated string [s] is at [a]. *)
Fixpoint cstr (m : memory) (a : Z) (s : list Z) : Prop :=
  match s with
  | [] => ld8 m a = 0
  | c :: s' => ld8 m a = c ∧ c ≠ 0 ∧ cstr m (a + 1) s'
  end.

Lemma cstr_hd m a s : cstr m a s -> ld8 m a = hd 0 s.
Proof. destruct s; [done|]. by intros [? _]. Qed.
Lemma cstr_tl m a s : cstr m a s -> s ≠ [] -> cstr m (a + 1) (tl s).
Proof. destruct s; [done|]. by intros (_ & _ & ?). Qed.
Lemma cstr_nonzero m a s : cstr m a s -> Forall (λ c, c ≠ 0) s.
Proof. revert a. induction s; intros a'; [constructor|]. intros (_ & ? & ?). constructor; eauto. Qed.
Lemma cstr_range m a s : cstr m a s -> Forall (λ c, 0 < c < 256) s.
Proof.
  revert a. induction s as [|c s IH]; intros a'; [constructor|]. intros (<- & ? & ?).
  constructor; [pose proof (ld8_range m a'); lia|eauto].
Qed.

Lemma cstr_ext m m' a s : (∀ b, a <= b <= a + Z.of_nat (length s) -> ld8 m' b = ld8 m b) -> cstr m a s -> cstr m' a s.
Proof.
  revert a. induction s as [|c s IH]; intros a H; cbn [cstr length] in *; [by rewrite H by lia|].
  intros (? & ? & ?). split; [by rewrite H by lia|]. split; [done|]. apply IH; [|done]. intros b Hb. apply H. lia.
Qed.

Lemma cstr_app m a s s' : Forall (λ c, c ≠ 0) s -> bytes (length s) m a = s -> cstr m (a + Z.of_nat (length s)) s' ->
  cstr m a (s ++ s').
Proof.
  revert a. induction s as [|c s IH]; intros a Hn Hb H; cbn [length app bytes] in *.
  { by rewrite Z.add_0_r in H. }
  apply Forall_cons in Hn as [Hc Hn]. injection Hb as Hb Hs. split; [done|]. split; [done|].
  apply IH; [done|by rewrite Hs|]. by replace (a + 1 + Z.of_nat (length s)) with (a + Z.of_nat (Datatypes.S (length s))) by lia.
Qed.

Lemma cstr_split m a s s' : cstr m a (s ++ s') -> bytes (length s) m a = s ∧ cstr m (a + Z.of_nat (length s)) s'.
Proof.
  revert a. induction s as [|c s IH]; intros a H; cbn [length app bytes cstr] in *; [by rewrite Z.add_0_r|].
  destruct H as (-> & _ & H). destruct (IH _ H) as [-> H']. split; [done|].
  by replace (a + Z.of_nat (Datatypes.S (length s))) with (a + 1 + Z.of_nat (length s)) by lia.
Qed.

Lemma bytes_st8_ne n m a b v : ¬ (a <= b < a + Z.of_nat n) -> bytes n (st8 m b v) a = bytes n m a.
Proof. intros H. apply bytes_ext. intros x Hx. rewrite ld8_st8, decide_False by (intros ->; lia). done. Qed.

(** Writing a NUL into a string cuts it in two. *)
Lemma cstr_cut m a s c t : cstr m a (s ++ c :: t) ->
  cstr (st8 m (a + Z.of_nat (length s)) 0) a s ∧ cstr (st8 m (a + Z.of_nat (length s)) 0) (a + Z.of_nat (length s) + 1) t.
Proof.
  intros H. pose proof (cstr_nonzero _ _ _ H) as Hn. apply Forall_app in Hn as [Hn _].
  destruct (cstr_split _ _ _ _ H) as [Hb (_ & _ & Ht)]. split.
  - rewrite <- (app_nil_r s) at 2. apply cstr_app; [done|by rewrite bytes_st8_ne by lia|].
    cbn. rewrite ld8_st8, decide_True by done. done.
  - eapply cstr_ext; [|exact Ht]. intros b Hb'. rewrite ld8_st8, decide_False by lia. done.
Qed.

(** ** Streams *)

(** A file that is read to its end, and the output: a read gives at least one
    byte of what is left, and no more than asked for, until nothing is left. *)
Class Stream {O : Type} {S : Sys O} (fd : Z) (inp out : O -> list Z) : Prop := {
  st_read n o : ∃ bs o', os_read fd n o = (Z.of_nat (length bs), bs, o') ∧ inp o = bs ++ inp o' ∧ out o' = out o ∧
    Z.of_nat (length bs) <= Z.max 0 n ∧ (bs = [] -> n <= 0 ∨ inp o = []);
  st_write l o : ∃ o', os_write 1 l o = (Z.of_nat (length l), o') ∧ out o' = out o ++ l ∧ inp o' = inp o;
}.

(** ** What the routines do *)

Section ulib_specs.
Context {O : Type} {S : Sys O}.
Implicit Types u : user O.

Lemma strchr_found n c a s1 s2 u : cstr (u_mem u) a (s1 ++ c :: s2) -> c ∉ s1 -> (length s1 < n)%nat ->
  Ulib.strchr_loop n a c u = Ret (a + Z.of_nat (length s1)) u.
Proof.
  revert a n. induction s1 as [|d s1 IH]; intros a [|n] Hs Hn Hl; try (cbn [length] in Hl; lia); cbn [Ulib.strchr_loop];
    unfold lb; rewrite bind_gets, (cstr_hd _ _ _ Hs); cbn [hd app].
  - destruct Hs as (_ & Hc & _). rewrite (proj2 (Z.eqb_neq c 0)), Z.eqb_refl by done. by rewrite Z.add_0_r.
  - destruct Hs as (_ & Hd & Hs). rewrite (proj2 (Z.eqb_neq d 0)) by done.
    apply not_elem_of_cons in Hn as [Hdc Hn]. rewrite (proj2 (Z.eqb_neq d c)) by done.
    rewrite IH; [f_equal; cbn [length]; lia|done|done|cbn [length] in Hl; lia].
Qed.
Lemma strchr_none n c a s u : cstr (u_mem u) a s -> c ∉ s -> (length s < n)%nat -> Ulib.strchr_loop n a c u = Ret 0 u.
Proof.
  revert a n. induction s as [|d s IH]; intros a [|n] Hs Hn Hl; try (cbn [length] in Hl; lia); cbn [Ulib.strchr_loop];
    unfold lb; rewrite bind_gets, (cstr_hd _ _ _ Hs); cbn [hd]; [done|].
  destruct Hs as (_ & Hd & Hs). rewrite (proj2 (Z.eqb_neq d 0)) by done.
  apply not_elem_of_cons in Hn as [Hdc Hn]. rewrite (proj2 (Z.eqb_neq d c)) by done.
  apply IH; [done|done|cbn [length] in Hl; lia].
Qed.

Lemma strlen_spec n s l u : cstr (u_mem u) s l -> (length l < n)%nat -> Z.of_nat (length l) < 2 ^ 31 ->
  Ulib.strlen n s u = Ret (Z.of_nat (length l)) u.
Proof.
  intros Hc Hn Hl. unfold Ulib.strlen.
  assert (∀ l1 l2, l = l1 ++ l2 -> ∀ n, (length l2 < n)%nat -> Ulib.strlen_loop n s (Z.of_nat (length l1)) u = Ret (Z.of_nat (length l)) u) as H.
  { intros l1 l2. revert l1. induction l2 as [|c l2 IH]; intros l1 -> [|k] Hk; try (cbn [length] in Hk; lia); cbn [Ulib.strlen_loop];
      unfold lb; rewrite bind_gets; destruct (cstr_split _ _ _ _ Hc) as [_ H2]; rewrite (cstr_hd _ _ _ H2); cbn [hd].
    - by rewrite app_nil_r.
    - destruct H2 as (_ & Hne & _). rewrite (proj2 (Z.eqb_neq c 0)) by done. cbn [negb]. rewrite length_app in Hl. cbn [length] in *.
      rewrite i32_small by lia. replace (Z.of_nat (length l1) + 1) with (Z.of_nat (length (l1 ++ [c]))) by (rewrite length_app; cbn; lia).
      apply IH; [by rewrite <- app_assoc|lia]. }
  rewrite (bind_Ret _ _ _ _ _ (H [] l eq_refl n Hn)). rewrite u32_small by lia. done.
Qed.
Lemma ustr_spec n s l u : cstr (u_mem u) s l -> (length l < n)%nat -> ustr n s u = Ret l u.
Proof.
  revert n s. induction l as [|c l IH]; intros [|n] s Hc Hn; try (cbn [length] in Hn; lia); cbn [ustr];
    unfold lb; rewrite bind_gets, (cstr_hd _ _ _ Hc); cbn [hd]; [done|].
  destruct Hc as (_ & Hne & Hc). rewrite (proj2 (Z.eqb_neq c 0)) by done.
  rewrite (bind_Ret _ _ _ _ _ (IH n _ Hc ltac:(cbn [length] in Hn; lia))). done.
Qed.

Lemma memmove_up_eq n dst src u :
  Ulib.memmove_up n dst src u = Ret () (u <| u_mem ::= move_up n dst src |>).
Proof.
  revert dst src u. induction n as [|n IH]; intros dst src u; [by destruct u|]. cbn [Ulib.memmove_up move_up].
  unfold lb, sb. by rewrite bind_gets, bind_modify, IH.
Qed.
Lemma memmove_down_eq n dst src u :
  Ulib.memmove_down n dst src u = Ret () (u <| u_mem ::= move_down n dst src |>).
Proof.
  revert dst src u. induction n as [|n IH]; intros dst src u; [by destruct u|]. cbn [Ulib.memmove_down move_down].
  unfold lb, sb. by rewrite bind_gets, bind_modify, IH.
Qed.

Lemma memmove_spec dst src n u : 0 <= n -> ∃ m', Ulib.memmove dst src n u = Ret dst (u <| u_mem := m' |>) ∧
  ∀ b, ld8 m' b = if decide (dst <= b < dst + n) then ld8 (u_mem u) (src + (b - dst)) else ld8 (u_mem u) b.
Proof.
  intros Hn. unfold Ulib.memmove. destruct (Z.ltb_spec dst src) as [Hlt|Hge].
  - rewrite (bind_Ret _ _ _ _ _ (memmove_up_eq _ _ _ _)). eexists. split; [done|]. intros b.
    rewrite move_up_spec by lia. by rewrite Z2Nat.id by done.
  - rewrite (bind_Ret _ _ _ _ _ (memmove_down_eq _ _ _ _)). eexists. split; [done|]. intros b. cbn.
    destruct (decide (src = dst)) as [->|Hne].
    + rewrite move_down_same. case_decide; f_equal; lia.
    + rewrite move_down_spec by lia. rewrite Z2Nat.id by done. repeat case_decide; try lia; f_equal; lia.
Qed.
End ulib_specs.

(** ** An example *)

(** Input that arrives four bytes at a time; the other calls fail. *)
Definition chunk (n : Z) : nat := Nat.min 4 (Z.to_nat n).
#[global] Arguments chunk : simpl never.
Definition fail {A} (x : A) : Z * A := (-1, x).
#[export] Instance demo_sys : Sys (list Z * list Z) := {|
  os_read _ n o := let bs := take (chunk n) o.1 in (Z.of_nat (length bs), bs, (drop (length bs) o.1, o.2));
  os_write _ l o := (Z.of_nat (length l), (o.1, o.2 ++ l));
  os_open _ _ := fail; os_close _ := fail; os_fstat _ o := (-1, [], o); os_link _ _ := fail; os_unlink _ := fail;
  os_mkdir _ := fail; os_mknod _ _ _ := fail; os_chdir _ := fail; os_dup _ := fail; os_pipe o := (-1, (0, 0), o);
  os_fork := fail; os_exec _ _ o := (Some (-1), o); os_wait o := (-1, 0, o); os_kill _ := fail;
  os_sbrk _ _ := fail; os_pause _ := fail;
|}.
#[export] Instance demo_stream fd : Stream fd fst snd.
Proof.
  split.
  - intros n o. eexists _, _. split; [done|]. cbn. rewrite length_take. split.
    { rewrite <- (take_drop (chunk n) o.1) at 1. f_equal.
      destruct (decide (chunk n <= length o.1)%nat); [f_equal; lia|]. rewrite !drop_ge by lia. done. }
    split; [done|]. split; [unfold chunk; lia|]. destruct o as [[|c l] o]; [by right|]. intros E. left.
    apply (f_equal length) in E. rewrite length_take in E. unfold chunk in E. cbn [fst length] in E. lia.
  - intros l o. eexists. split; [done|]. done.
Qed.
