(* ===== verification/UPrintf.v ===== *)
(** * [user/printf.c]

    Formatted output of the user programs, and what the digits mean that it
    and the kernel's [printf] produce. *)
From Stdlib Require Import Ascii String.
From S2P Require Import Prelude Layout KState CString Uart User.

Module Uprintf.
Section printf.
Context {O : Type} {S : Sys O}.

Definition digits : list Z := str "0123456789ABCDEF".

Definition putc (fd c : Z) : UM O () :=
  sys (os_write fd [u8 c]) ;;
  mret ().

(** [buf] is filled as in the kernel's [printint]. *)
Definition printint (fd xx base : Z) (sgn : bool) : UM O () :=
  for_each (rev (printint_buf digits xx base sgn)) (putc fd).

Definition printptr (fd x : Z) : UM O () :=
  putc fd (ch "0") ;;
  putc fd (ch "x") ;;
  for_each (printptr_loop 16 digits x) (putc fd).

(** The conversion [c0 c1 c2] of the argument list [ap]: the arguments left and
    how many characters more than [c0] it took. *)
Definition convert (fd c0 c1 c2 : Z) (ap : list varg) : UM O (list varg * nat) :=
  let a := hd (VInt 0) ap in
  let ap' := tl ap in
  if c0 =? ch "d" then printint fd (i32 (va_int a)) 10 true ;; mret (ap', 0%nat)
  else if (c0 =? ch "l") && (c1 =? ch "d") then printint fd (i64 (va_int a)) 10 true ;; mret (ap', 1%nat)
  else if (c0 =? ch "l") && (c1 =? ch "l") && (c2 =? ch "d") then printint fd (i64 (va_int a)) 10 true ;; mret (ap', 2%nat)
  else if c0 =? ch "u" then printint fd (u32 (va_int a)) 10 false ;; mret (ap', 0%nat)
  else if (c0 =? ch "l") && (c1 =? ch "u") then printint fd (i64 (va_int a)) 10 false ;; mret (ap', 1%nat)
  else if (c0 =? ch "l") && (c1 =? ch "l") && (c2 =? ch "u") then printint fd (i64 (va_int a)) 10 false ;; mret (ap', 2%nat)
  else if c0 =? ch "x" then printint fd (u32 (va_int a)) 16 false ;; mret (ap', 0%nat)
  else if (c0 =? ch "l") && (c1 =? ch "x") then printint fd (i64 (va_int a)) 16 false ;; mret (ap', 1%nat)
  else if (c0 =? ch "l") && (c1 =? ch "l") && (c2 =? ch "x") then printint fd (i64 (va_int a)) 16 false ;; mret (ap', 2%nat)
  else if c0 =? ch "p" then printptr fd (u64 (va_int a)) ;; mret (ap', 0%nat)
  else if c0 =? ch "c" then putc fd (u32 (va_int a)) ;; mret (ap', 0%nat)
  else if c0 =? ch "s" then for_each (until_nul (default (str "(null)") (va_str a))) (putc fd) ;; mret (ap', 0%nat)
  else if c0 =? ch "%" then putc fd (ch "%") ;; mret (ap, 0%nat)
  else putc fd (ch "%") ;; putc fd c0 ;; mret (ap, 0%nat).

(** The loop, from the characters of the format that are left.  [skip] is how
    many of them a conversion has consumed already ([i += 1], [i += 2]); [pct]
    is [state == '%']. *)
Fixpoint vprintf_loop (fd : Z) (fmt : list Z) (skip : nat) (pct : bool) (ap : list varg) : UM O () :=
  match fmt with
  | [] => mret ()
  | c0 :: fmt' =>
      match skip with
      | Datatypes.S skip' => vprintf_loop fd fmt' skip' pct ap
      | 0%nat =>
          if negb pct then
            if c0 =? ch "%" then vprintf_loop fd fmt' 0 true ap
            else putc fd c0 ;; vprintf_loop fd fmt' 0 false ap
          else
            let c1 := nth 0 fmt' 0 in
            let c2 := if negb (c1 =? 0) then nth 1 fmt' 0 else 0 in
            r ← convert fd c0 c1 c2 ap;
            vprintf_loop fd fmt' r.2 false r.1
      end
  end.
Definition vprintf (fd : Z) (fmt : list Z) (ap : list varg) : UM O () := vprintf_loop fd fmt 0 false ap.
Definition fprintf (fd : Z) (fmt : list Z) (ap : list varg) : UM O () := vprintf fd fmt ap.
Definition printf (fmt : list Z) (ap : list varg) : UM O () := vprintf 1 fmt ap.
End printf.
End Uprintf.

(** ** Output always returns, and changes no memory of the program *)
Section quiet.
Context {O : Type} {S : Sys O}.
(** What writing preserves of the state of the kernel. *)
Context (I : O -> O -> Prop) {HP : PreOrder I} (HI : ∀ fd l o, I o (os_write fd l o).2).

Definition quiet {A} (m : UM O A) : Prop :=
  ∀ u, ∃ a u', m u = Ret a u' ∧ u_mem u' = u_mem u ∧ u_exit u' = u_exit u ∧ I (u_os u) (u_os u').

Lemma quiet_ret {A} (a : A) : quiet (mret a).
Proof. intros u. by exists a, u. Qed.
Lemma quiet_bind {A B} (m : UM O A) (f : A -> UM O B) : quiet m -> (∀ a, quiet (f a)) -> quiet (m ≫= f).
Proof.
  intros Hm Hf u. destruct (Hm u) as (a & u1 & E & E1 & E2 & E3), (Hf a u1) as (b & u2 & E' & E1' & E2' & E3'). exists b, u2.
  rewrite (bind_Ret _ _ _ _ _ E). split; [done|]. split; [congruence|]. split; [congruence|]. by etrans.
Qed.
Lemma quiet_sys {A} (f : O -> A * O) : (∀ o, I o (f o).2) -> quiet (sys f).
Proof. intros H u. specialize (H (u_os u)). unfold sys. destruct (f (u_os u)) as [a o]. by exists a, (u <| u_os := o |>). Qed.
Lemma quiet_putc fd c : quiet (Uprintf.putc fd c).
Proof. apply quiet_bind; [by apply quiet_sys|intros; apply quiet_ret]. Qed.
Lemma quiet_each {A} (l : list A) (f : A -> UM O ()) : (∀ x, quiet (f x)) -> quiet (for_each l f).
Proof. intros Hf. induction l as [|x l IH]; [apply quiet_ret|]. by apply quiet_bind. Qed.

Lemma quiet_convert fd c0 c1 c2 ap : quiet (Uprintf.convert fd c0 c1 c2 ap).
Proof.
  unfold Uprintf.convert, Uprintf.printint, Uprintf.printptr.
  repeat case_match; repeat (apply quiet_bind; [|intros]); auto using quiet_putc, quiet_sys, quiet_ret, quiet_each.
Qed.
Lemma quiet_vprintf fd fmt ap : quiet (Uprintf.vprintf fd fmt ap).
Proof.
  unfold Uprintf.vprintf. generalize 0%nat false. intros skip pct. revert skip pct ap.
  induction fmt as [|c fmt IH]; intros skip pct ap; [apply quiet_ret|]. cbn [Uprintf.vprintf_loop].
  destruct skip; [|auto]. destruct pct; cbn [negb].
  - apply quiet_bind; [apply quiet_convert|auto].
  - case_match; [auto|]. apply quiet_bind; [apply quiet_putc|auto].
Qed.
End quiet.
Lemma prints {O} {S : Sys O} fd fmt ap : quiet (λ _ _ : O, True) (Uprintf.vprintf fd fmt ap).
Proof. apply quiet_vprintf; by repeat split. Qed.

(** ** Numerals *)

(** The value of a numeral, the least significant digit first. *)
Fixpoint numeral (base : Z) (l : list Z) : Z :=
  match l with
  | [] => 0
  | d :: l' => d + base * numeral base l'
  end.

Lemma printint_loop_spec fuel ds x base : 2 <= base -> 0 <= x < base ^ Z.of_nat fuel -> (0 < fuel)%nat ->
  ∃ l, printint_loop fuel ds x base = (λ d, ds !!! Z.to_nat d) <$> l ∧ Forall (λ d, 0 <= d < base) l ∧ numeral base l = x ∧
    ∀ n, (0 < n)%nat -> x < base ^ Z.of_nat n -> (length l <= n)%nat.
Proof.
  intros Hb. revert x. induction fuel as [|fuel IH]; intros x Hx Hf; [lia|]. cbn [printint_loop].
  pose proof (Z.div_mod x base ltac:(lia)) as Hdm. pose proof (Z.mod_pos_bound x base ltac:(lia)) as Hm.
  rewrite Nat2Z.inj_succ, Z.pow_succ_r in Hx by lia.
  destruct (Z.eqb_spec (x / base) 0) as [E|Hne].
  { exists [x mod base]. split; [done|]. split; [by apply Forall_singleton|]. cbn [numeral length]. split; [lia|]. intros n Hn _. lia. }
  assert (0 <= x / base < base ^ Z.of_nat fuel) as Hd.
  { split; [apply Z.div_pos; lia|]. apply Z.div_lt_upper_bound; lia. }
  destruct (IH (x / base) Hd) as (l & -> & Hl & Hv & Hlen).
  { destruct fuel; [|lia]. change (base ^ Z.of_nat 0) with 1 in Hd. lia. }
  exists (x mod base :: l). split; [done|]. split; [by constructor|]. cbn [numeral length]. split; [lia|].
  intros [|n] Hn Hx'; [lia|]. rewrite Nat2Z.inj_succ, Z.pow_succ_r in Hx' by lia.
  assert (x / base < base ^ Z.of_nat n) as Hd' by (apply Z.div_lt_upper_bound; lia).
  destruct n as [|n]; [change (base ^ Z.of_nat 0) with 1 in Hd'; lia|]. specialize (Hlen (Datatypes.S n)). lia.
Qed.

Lemma digits_bound base : base = 10 ∨ base = 16 -> 2 ^ 64 <= base ^ Z.of_nat 20 ∧ 2 ^ 63 < base ^ Z.of_nat 19.
Proof. intros [-> | ->]; (split; [apply Z.leb_le|apply Z.ltb_lt]; reflexivity). Qed.

(** The sign and the digits of an [int]. *)
Definition sign_of (n : Z) : list Z := if n <? 0 then [ch "-"] else [].
Lemma printint_digits ds n : - 2 ^ 31 <= n < 2 ^ 31 -> ∃ l, printint_buf ds n 10 true = ((λ d, ds !!! Z.to_nat d) <$> l) ++ sign_of n ∧
  Forall (λ d, 0 <= d < 10) l ∧ numeral 10 l = Z.abs n.
Proof.
  intros Hn. unfold printint_buf, sign_of. cbn [andb].
  assert (∀ x, 0 <= x <= 2 ^ 31 -> ∃ l, printint_loop 64 ds x 10 = (λ d, ds !!! Z.to_nat d) <$> l ∧ Forall (λ d, 0 <= d < 10) l ∧ numeral 10 l = x) as H.
  { intros x Hx. destruct (printint_loop_spec 64 ds x 10) as (l & E & Hl & Hv & _); [lia| |lia|by exists l].
    split; [lia|]. assert (2 ^ 31 < 10 ^ Z.of_nat 64) by (apply Z.ltb_lt; reflexivity). lia. }
  destruct (Z.ltb_spec n 0) as [Hneg|Hpos]; rewrite u64_small by lia.
  - destruct (H (- n)) as (l & -> & Hl & Hv); [lia|]. exists l. split; [done|]. split; [done|]. lia.
  - destruct (H n) as (l & -> & Hl & Hv); [lia|]. exists l. rewrite app_nil_r. split; [done|]. split; [done|]. lia.
Qed.

(** C34. The buffer of [printint], in the kernel and in the user library, is
    large enough: no 64-bit value, signed or unsigned, in base 10 or 16, needs
    more than its 20 bytes.  What it holds is the value: its digits, least
    significant first, and the sign. *)
Theorem printint_fits ds xx base sign :
  - 2 ^ 63 <= xx < 2 ^ 63 -> base = 10 ∨ base = 16 ->
  (length (printint_buf ds xx base sign) <= 20)%nat ∧
  ∃ l, printint_buf ds xx base sign = ((λ d, ds !!! Z.to_nat d) <$> l) ++ (if sign && (xx <? 0) then [ch "-"] else []) ∧
    Forall (λ d, 0 <= d < base) l ∧ numeral base l = if sign then Z.abs xx else u64 xx.
Proof.
  intros Hx Hb. unfold printint_buf.
  assert (∀ x, 0 <= x < 2 ^ 64 -> ∃ l, printint_loop 64 ds x base = (λ d, ds !!! Z.to_nat d) <$> l ∧
    Forall (λ d, 0 <= d < base) l ∧ numeral base l = x ∧ (length l <= 20)%nat ∧ (x <= 2 ^ 63 -> (length l <= 19)%nat)) as H.
  { intros x Hr. destruct (printint_loop_spec 64 ds x base) as (l & E & Hl & Hv & Hn); [lia| |lia|].
    - split; [lia|]. assert (2 ^ 64 <= base ^ Z.of_nat 64) by (apply Z.pow_le_mono_l; lia). lia.
    - exists l. split; [done|]. split; [done|]. split; [done|].
      assert (2 ^ 64 <= base ^ Z.of_nat 20 ∧ 2 ^ 63 < base ^ Z.of_nat 19) as [H20 H19] by (by apply digits_bound).
      split; [apply Hn; lia|]. intros. apply Hn; lia. }
  destruct sign; cbn [andb].
  - destruct (Z.ltb_spec xx 0) as [Hneg|Hpos].
    + rewrite u64_small by lia. destruct (H (- xx)) as (l & -> & Hl & Hv & _ & H19); [lia|].
      rewrite length_app, length_fmap. cbn [length]. split; [lia|]. exists l. split; [done|]. split; [done|]. lia.
    + rewrite u64_small by lia. destruct (H xx) as (l & -> & Hl & Hv & H20 & _); [lia|].
      rewrite length_fmap. split; [done|]. exists l. rewrite app_nil_r. split; [done|]. split; [done|]. lia.
  - destruct (H (u64 xx) (u64_range xx)) as (l & -> & Hl & Hv & H20 & _).
    rewrite length_fmap. split; [done|]. exists l. rewrite app_nil_r. done.
Qed.

(** ** Reading a printed number *)
Section roundtrip.
Context {O : Type} {S : Sys O} (fd : Z) (inp out : O -> list Z) {St : Stream fd inp out}.
Implicit Types u : user O.

Lemma puts_spec l u : ∃ u', for_each l (Uprintf.putc 1) u = Ret () u' ∧ out (u_os u') = out (u_os u) ++ (u8 <$> l) ∧
  u_mem u' = u_mem u.
Proof.
  revert u. induction l as [|c l IH]; intros u; cbn [for_each].
  { exists u. by rewrite app_nil_r. }
  destruct (st_write [u8 c] (u_os u)) as (o' & E & Ho & _).
  assert (Uprintf.putc 1 c u = Ret () (u <| u_os := o' |>)) as Ec.
  { unfold Uprintf.putc, mbind, ST_bind, sys. by rewrite E. }
  rewrite (bind_Ret _ _ _ _ _ Ec). destruct (IH (u <| u_os := o' |>)) as (u' & E' & Ho' & Hm). exists u'.
  split; [done|]. split; [|done]. cbn in Ho'. by rewrite Ho', Ho, <- app_assoc.
Qed.

Definition horner (n : Z) (l : list Z) : Z := foldl (λ n d, n * 10 + d) n l.

Lemma horner_numeral l n : horner n (rev l) = n * 10 ^ Z.of_nat (length l) + numeral 10 l.
Proof.
  unfold horner. induction l as [|d l IH]; cbn [rev numeral length]; [rewrite Z.pow_0_r; cbn; lia|].
  rewrite foldl_app. cbn [foldl]. rewrite IH, Nat2Z.inj_succ, Z.pow_succ_r by lia. lia.
Qed.

Lemma horner_le l n : 0 <= n -> Forall (λ d, 0 <= d < 10) l -> n <= horner n l.
Proof.
  intros Hn Hl. revert n Hn. induction Hl as [|d l Hd Hl IH]; intros n Hn; [done|].
  transitivity (n * 10 + d); [lia|]. apply IH. lia.
Qed.

Lemma atoi_loop_spec l k a n u : cstr (u_mem u) a ((λ d, 48 + d) <$> l) -> Forall (λ d, 0 <= d < 10) l -> 0 <= n ->
  horner n l < 2 ^ 31 -> (length l < k)%nat -> Ulib.atoi_loop k a n u = Ret (horner n l) u.
Proof.
  intros Hs Hl. revert k a n Hs. induction Hl as [|d l Hd Hl IH]; intros [|k] a n Hs Hn Hv Hk; try (cbn [length] in Hk; lia);
    cbn [Ulib.atoi_loop]; unfold lb; rewrite bind_gets, (cstr_hd _ _ _ Hs); [done|]. cbn [fmap list_fmap hd].
  rewrite (proj2 (Z.leb_le 48 (48 + d))), (proj2 (Z.leb_le (48 + d) 57)) by lia. cbn [andb].
  replace (n * 10 + (48 + d) - 48) with (n * 10 + d) by lia.
  assert (n * 10 + d <= horner (n * 10 + d) l) by (apply horner_le; [lia|done]).
  change (horner n (d :: l)) with (horner (n * 10 + d) l) in *. rewrite i32_small by lia.
  apply IH; [by destruct Hs as (_ & _ & Hs)|lia|done|cbn [length] in Hk; lia].
Qed.

Lemma fmap_rev {A B} (f : A -> B) l : f <$> rev l = rev (f <$> l).
Proof. apply map_rev. Qed.

Lemma digit_char d : 0 <= d < 10 -> Uprintf.digits !!! Z.to_nat d = 48 + d.
Proof.
  intros Hd. assert (d = 0 ∨ d = 1 ∨ d = 2 ∨ d = 3 ∨ d = 4 ∨ d = 5 ∨ d = 6 ∨ d = 7 ∨ d = 8 ∨ d = 9) as Hc by lia.
  by repeat destruct Hc as [-> |Hc]; [..|subst d].
Qed.

Lemma printf_d n u : Uprintf.printf (str "%d") [VInt n] u = Uprintf.printint 1 (i32 n) 10 true u.
Proof.
  unfold Uprintf.printf, Uprintf.vprintf. cbn [str Uprintf.vprintf_loop].
  change (ch "%" =? ch "%") with true. cbn [negb]. unfold Uprintf.convert. change (ch "d" =? ch "d") with true. cbv iota.
  cbn [hd va_int]. rewrite bind_bind. unfold mbind, ST_bind. by destruct (Uprintf.printint 1 (i32 n) 10 true u) as [[] ?| | |].
Qed.

Lemma digits_chars l : Forall (λ d, 0 <= d < 10) l -> u8 <$> rev ((λ d, Uprintf.digits !!! Z.to_nat d) <$> l) = (λ d, 48 + d) <$> rev l.
Proof.
  intros Hl. rewrite <- fmap_rev, <- list_fmap_compose. apply list_fmap_ext. intros i d Hd.
  apply list_elem_of_lookup_2, list_elem_of_In, in_rev, list_elem_of_In in Hd. rewrite Forall_forall in Hl.
  specialize (Hl d Hd). cbn. rewrite digit_char by done. apply Z.mod_small. lia.
Qed.
Lemma atoi_digits l fuel (v : user O) a : cstr (u_mem v) a ((λ d, 48 + d) <$> rev l) -> Forall (λ d, 0 <= d < 10) l -> numeral 10 l < 2 ^ 31 ->
  (length l < fuel)%nat -> Ulib.atoi fuel a v = Ret (numeral 10 l) v.
Proof.
  intros Hs Hl Hv Hf. unfold Ulib.atoi. assert (horner 0 (rev l) = numeral 10 l) as E by (rewrite horner_numeral; lia).
  rewrite (atoi_loop_spec (rev l)), E; [done|done|by apply Forall_rev|lia|by rewrite E|]. change (length (rev l) < fuel)%nat. by rewrite length_rev.
Qed.

(** C33. Every [int] printed with [%d] is its sign and its digits.  [atoi]
    reads a number that is not negative back; it knows no sign, so of a
    negative number it reads 0, but after the sign it reads the absolute value
    (unless that is 2^31, which is no [int]). *)
Theorem printf_atoi n u : - 2 ^ 31 <= n < 2 ^ 31 ->
  ∃ u' l, Uprintf.printf (str "%d") [VInt n] u = Ret () u' ∧ out (u_os u') = out (u_os u) ++ sign_of n ++ l ∧
    ∀ fuel (v : user O) a, cstr (u_mem v) a (sign_of n ++ l) -> (length l < fuel)%nat ->
      Ulib.atoi fuel a v = Ret (if n <? 0 then 0 else n) v ∧
      (n ≠ - 2 ^ 31 -> Ulib.atoi fuel (a + Z.of_nat (length (sign_of n))) v = Ret (Z.abs n) v).
Proof.
  intros Hn. rewrite printf_d, i32_small by lia. unfold Uprintf.printint.
  destruct (printint_digits Uprintf.digits n) as (l & -> & Hl & Hv); [lia|].
  destruct (puts_spec (rev (((λ d, Uprintf.digits !!! Z.to_nat d) <$> l) ++ sign_of n)) u) as (u' & E & Ho & _).
  exists u', ((λ d, 48 + d) <$> rev l). split; [exact E|].
  assert (u8 <$> rev (sign_of n) = sign_of n) as Es by (unfold sign_of; by destruct (n <? 0)).
  rewrite rev_app_distr, fmap_app, digits_chars, Es in Ho by done. split; [done|].
  intros fuel v a Hs Hf. rewrite length_fmap, length_rev in Hf.
  unfold sign_of in *. destruct (Z.ltb_spec n 0) as [Hneg|Hpos]; cbn [length app] in *.
  - split; [|intros Hne; rewrite <- Hv; apply atoi_digits; [by destruct Hs as (_ & _ & Hs)|done|lia|done]].
    destruct fuel as [|k]; [lia|]. unfold Ulib.atoi. cbn [Ulib.atoi_loop]. unfold lb. rewrite bind_gets, (cstr_hd _ _ _ Hs). done.
  - rewrite Z.add_0_r. rewrite (atoi_digits l) by (done || lia). rewrite Hv. split; [f_equal; lia|done].
Qed.
End roundtrip.

Lemma printint_fits_witness : (length (printint_buf digits (- 2 ^ 63) 10 true) <= 20)%nat.
Proof. apply (printint_fits digits (- 2 ^ 63) 10 true); [split; [discriminate|reflexivity]|left; reflexivity]. Defined.

Lemma printf_atoi_witness : ∃ u' l, Uprintf.printf (str "%d") [VInt (-2047)] (mk_user ∅ ([], []) None) = Ret () u' ∧
  snd (u_os u') = ch "-" :: l ∧
  ∀ fuel (v : user (list Z * list Z)) a, cstr (u_mem v) a (ch "-" :: l) -> (length l < fuel)%nat ->
    Ulib.atoi fuel a v = Ret 0 v ∧ (-2047 ≠ - 2 ^ 31 -> Ulib.atoi fuel (a + 1) v = Ret 2047 v).
Proof. apply (printf_atoi 0 fst snd (-2047) (mk_user ∅ ([], []) None)). split; [discriminate|reflexivity]. Defined.
