(* ===== verification/Grep.v ===== *)
(** * [user/grep.c]

    The matcher of patterns with [^ . * $] and the loop that reads lines.  The
    matcher is proved to decide the language its pattern denotes, and [grep] to
    print the lines that match, however the input arrives in pieces. *)
From Stdlib Require Import Ascii String.
From S2P Require Import Prelude Layout KState CString User.

Section grep.
Context {O : Type} {S : Sys O}.

(** ** The code *)

(** The recursion of [matchhere] and [matchstar], at most [n] calls deep; a
    round of the loop of [matchstar] counts as a call. *)
Fixpoint matchhere (n : nat) (re text : Z) : UM O Z :=
  match n with
  | 0%nat => spin
  | Datatypes.S n' =>
      c ← lb re;
      if c =? 0 then mret 1 else
      d ← lb (re + 1);
      if d =? ch "*" then matchstar n' c (re + 2) text else
      t ← lb text;
      if (c =? ch "$") && (d =? 0) then mret (if t =? 0 then 1 else 0) else
      if negb (t =? 0) && ((c =? ch ".") || (c =? t)) then matchhere n' (re + 1) (text + 1)
      else mret 0
  end
with matchstar (n : nat) (c re text : Z) : UM O Z :=
  match n with
  | 0%nat => spin
  | Datatypes.S n' =>
      r ← matchhere n' re text;
      if negb (r =? 0) then mret 1 else
      t ← lb text;
      if negb (t =? 0) && ((t =? c) || (c =? ch ".")) then matchstar n' c re (text + 1)
      else mret 0
  end.

(** [do ... while( *text++ != '\0');] *)
Fixpoint match_loop (n : nat) (re text : Z) : UM O Z :=
  match n with
  | 0%nat => spin
  | Datatypes.S n' =>
      r ← matchhere n' re text;
      if negb (r =? 0) then mret 1 else
      t ← lb text;
      if negb (t =? 0) then match_loop n' re (text + 1) else mret 0
  end.
Definition grep_match (n : nat) (re text : Z) : UM O Z :=
  c ← lb re;
  if c =? ch "^" then matchhere n (re + 1) text else match_loop n re text.

(** [buf] is the address of [char buf[1024]]. *)
Context (fuel : nat) (buf : Z).

(** [while((q = strchr(p, '\n')) != 0)]; the result is the final [p]. *)
Fixpoint grep_lines (n : nat) (pattern p : Z) : UM O Z :=
  match n with
  | 0%nat => spin
  | Datatypes.S n' =>
      q ← Ulib.strchr fuel p 10;
      if q =? 0 then mret p else
      sb q 0 ;;
      r ← grep_match fuel pattern p;
      (if negb (r =? 0) then
         sb q 10 ;;
         write 1 p (q + 1 - p)
       else mret 0) ;;
      grep_lines n' pattern (q + 1)
  end.

Fixpoint grep_loop (rounds : nat) (pattern fd m : Z) : UM O () :=
  match rounds with
  | 0%nat => spin
  | Datatypes.S rounds' =>
      n ← read fd (buf + m) (1024 - m - 1);
      if n <=? 0 then mret () else
      let m := m + n in
      sb (buf + m) 0 ;;
      p ← grep_lines fuel pattern buf;
      if 0 <? m then
        let m := m - (p - buf) in
        Ulib.memmove buf p m ;;
        grep_loop rounds' pattern fd m
      else grep_loop rounds' pattern fd m
  end.
Definition grep (rounds : nat) (pattern fd : Z) : UM O () := grep_loop rounds pattern fd 0.
End grep.

(** ** What a pattern means *)

Inductive atom : Type := Any | Char (c : Z).
Inductive item : Type := One (a : atom) | Star (a : atom).

Definition atom_of (c : Z) : atom := if c =? ch "." then Any else Char c.
Definition atom_ok (a : atom) (c : Z) : Prop := match a with Any => True | Char d => c = d end.

(** The items of a pattern without [^], and whether it ends in [$]. *)
Fixpoint parse (re : list Z) : list item * bool :=
  match re with
  | [] => ([], false)
  | c :: re1 =>
      match re1 with
      | d :: re2 =>
          if d =? ch "*" then let '(l, e) := parse re2 in (Star (atom_of c) :: l, e)
          else let '(l, e) := parse re1 in (One (atom_of c) :: l, e)
      | [] => if c =? ch "$" then ([], true) else ([One (atom_of c)], false)
      end
  end.

(** The strings a list of items matches. *)
Inductive denotes : list item -> list Z -> Prop :=
| den_nil : denotes [] []
| den_one a c l s : atom_ok a c -> denotes l s -> denotes (One a :: l) (c :: s)
| den_done a l s : denotes l s -> denotes (Star a :: l) s
| den_more a c l s : atom_ok a c -> denotes (Star a :: l) s -> denotes (Star a :: l) (c :: s).

(** [text] starts with a match; if [e], it is one. *)
Definition starts (p : list item * bool) (text : list Z) : Prop :=
  ∃ s rest, text = s ++ rest ∧ denotes p.1 s ∧ (p.2 = true -> rest = []).
(** The whole pattern: it may start with [^]. *)
Definition re_matches (re text : list Z) : Prop :=
  if hd 0 re =? ch "^" then starts (parse (tl re)) text
  else ∃ before rest, text = before ++ rest ∧ starts (parse re) rest.

Lemma starts_nil e t : starts ([], e) t <-> (e = true -> t = []).
Proof.
  split.
  - intros (s & rest & -> & H & He) Ht. cbn in *. inversion H; subst. by apply He.
  - intros H. exists [], t. split; [done|]. split; [constructor|done].
Qed.
Lemma starts_one a l e t : starts (One a :: l, e) t <-> ∃ c t', t = c :: t' ∧ atom_ok a c ∧ starts (l, e) t'.
Proof.
  split.
  - intros (s & rest & -> & H & He). cbn in *. inversion H; subst. eexists _, _. split; [done|]. split; [done|]. by eexists _, _.
  - intros (c & t' & -> & Ha & s & rest & -> & H & He). exists (c :: s), rest. split; [done|]. split; [by constructor|done].
Qed.
Lemma starts_star a l e t : starts (Star a :: l, e) t <->
  starts (l, e) t ∨ ∃ c t', t = c :: t' ∧ atom_ok a c ∧ starts (Star a :: l, e) t'.
Proof.
  split.
  - intros (s & rest & -> & H & He). cbn in *. inversion H; subst.
    + left. by eexists _, _.
    + right. eexists _, _. split; [done|]. split; [done|]. by eexists _, _.
  - intros [(s & rest & -> & H & He)|(c & t' & -> & Ha & s & rest & -> & H & He)].
    + exists s, rest. split; [done|]. split; [by constructor|done].
    + exists (c :: s), rest. split; [done|]. split; [by apply den_more|done].
Qed.

Lemma atom_of_ok c t : atom_ok (atom_of c) t <-> (c =? ch ".") || (c =? t) = true.
Proof.
  unfold atom_of. rewrite orb_true_iff. destruct (Z.eqb_spec c (ch ".")) as [|Hne]; cbn; [naive_solver|].
  rewrite Z.eqb_eq. naive_solver.
Qed.

Lemma parse_cons c d re : parse (c :: d :: re) =
  if d =? ch "*" then (Star (atom_of c) :: (parse re).1, (parse re).2)
  else (One (atom_of c) :: (parse (d :: re)).1, (parse (d :: re)).2).
Proof.
  cbn [parse]. destruct (d =? ch "*"); [by destruct (parse re)|]. destruct re as [|d' re]; [by destruct (d =? ch "$")|].
  destruct (d' =? ch "*"); [by destruct (parse re)|]. by destruct (parse (d' :: re)).
Qed.

Section matcher.
Context {O : Type} {S : Sys O}.
Implicit Types u : user O.

(** A test of the code and what it decides. *)
Definition decides (m : UM O Z) (u : user O) (P : Prop) : Prop :=
  ∃ r, m u = Ret r u ∧ (r = 0 ∨ r = 1) ∧ (r = 1 <-> P).

Lemma decides_iff m u (P Q : Prop) : (P <-> Q) -> decides m u P -> decides m u Q.
Proof. intros H (r & E & Hr & Hi). exists r. split; [done|]. split; [done|]. by rewrite Hi. Qed.
Lemma decides_true u (P : Prop) : P -> decides (mret 1) u P.
Proof. intros H. exists 1. split; [done|]. split; [by right|done]. Qed.
Lemma decides_false u (P : Prop) : ¬ P -> decides (mret 0) u P.
Proof. intros H. exists 0. split; [done|]. split; [by left|done]. Qed.

(** [if(m1) return 1; m2] *)
Lemma decides_or m1 m2 u (P Q : Prop) : decides m1 u P -> decides m2 u Q ->
  decides (r ← m1; if negb (r =? 0) then mret 1 else m2) u (P ∨ Q).
Proof.
  intros (r & E & Hr & HP) H2. unfold decides. rewrite (bind_Ret _ _ _ _ _ E). destruct Hr as [-> | ->]; cbn.
  - apply (decides_iff _ _ Q); [|done]. split; [by right|]. intros [Hp|?]; [|done]. by apply HP in Hp.
  - apply decides_true. left. by apply HP.
Qed.

(** A character that fits the atom, and then the rest. *)
Lemma decides_char c text t m u (P : list Z -> Prop) : cstr (u_mem u) text t ->
  (∀ x t', t = x :: t' -> cstr (u_mem u) (text + 1) t' -> decides m u (P t')) ->
  decides (if negb (hd 0 t =? 0) && ((c =? ch ".") || (c =? hd 0 t)) then m else mret 0) u
    (∃ x t', t = x :: t' ∧ atom_ok (atom_of c) x ∧ P t').
Proof.
  intros Ht Hm. destruct t as [|x t]; cbn [hd Z.eqb negb andb].
  { apply decides_false. naive_solver. }
  destruct Ht as (_ & Hx & Ht). rewrite (proj2 (Z.eqb_neq x 0)) by done. cbn [negb andb].
  pose proof (atom_of_ok c x) as Ha. destruct ((c =? ch ".") || (c =? x)) eqn:E.
  - apply (decides_iff _ _ (P t)); [|by apply (Hm x)]. split; [|naive_solver]. intros ?. exists x, t. naive_solver.
  - apply decides_false. intros (x' & t' & [= <- <-] & Hx' & _). apply Ha in Hx'. congruence.
Qed.

Lemma parse_last c : parse [c] = if c =? ch "$" then ([], true) else (One (atom_of c) :: (parse []).1, (parse []).2).
Proof. done. Qed.

Lemma matcher_spec n u :
  (∀ re text s t, cstr (u_mem u) re s -> cstr (u_mem u) text t -> (2 * (length s + length t) < n)%nat ->
     decides (matchhere n re text) u (starts (parse s) t)) ∧
  (∀ c re text s t, cstr (u_mem u) re s -> cstr (u_mem u) text t -> (2 * (length s + length t) + 1 < n)%nat ->
     decides (matchstar n c re text) u (starts (Star (atom_of c) :: (parse s).1, (parse s).2) t)).
Proof.
  assert (∀ s t, starts ((parse s).1, (parse s).2) t <-> starts (parse s) t) as Hpair by (intros s t; by destruct (parse s)).
  induction n as [|n [IHh IHs]]; [split; intros; lia|]. split.
  - intros re text s t Hs Ht Hn. unfold decides. cbn [matchhere]. unfold lb. rewrite bind_gets, (cstr_hd _ _ _ Hs).
    destruct s as [|c s]; cbn [hd].
    { apply decides_true. by apply starts_nil. }
    destruct Hs as (_ & Hc & Hs). rewrite (proj2 (Z.eqb_neq c 0)) by done. rewrite bind_gets, (cstr_hd _ _ _ Hs).
    assert (∀ x t', t = x :: t' -> cstr (u_mem u) (text + 1) t' -> decides (matchhere n (re + 1) (text + 1)) u (starts ((parse s).1, (parse s).2) t')) as Hnext.
    { intros x t' -> Ht'. apply (decides_iff _ _ _ _ (iff_sym (Hpair _ _))). apply IHh; [done|done|cbn [length] in *; lia]. }
    destruct s as [|d s]; cbn [hd].
    + change (0 =? ch "*") with false. cbv iota. rewrite bind_gets, (cstr_hd _ _ _ Ht), andb_true_r, parse_last.
      destruct (c =? ch "$"); [|apply (decides_iff _ _ _ _ (iff_sym (starts_one _ _ _ _))); by apply (decides_char c text)].
      apply (decides_iff _ _ (t = [])); [rewrite starts_nil; naive_solver|].
      destruct t as [|x t]; [by apply decides_true|]. destruct Ht as (_ & Hx & _). cbn [hd].
      rewrite (proj2 (Z.eqb_neq x 0)) by done. by apply decides_false.
    + rewrite parse_cons. destruct (d =? ch "*").
      { apply IHs; [|done|cbn [length] in *; lia]. destruct Hs as (_ & _ & Hs). by replace (re + 2) with (re + 1 + 1) by lia. }
      rewrite bind_gets, (cstr_hd _ _ _ Ht). destruct Hs as (_ & Hd & _). rewrite (proj2 (Z.eqb_neq d 0)), andb_false_r by done.
      apply (decides_iff _ _ _ _ (iff_sym (starts_one _ _ _ _))). by apply (decides_char c text).
  - intros c re text s t Hs Ht Hn. unfold decides. cbn [matchstar].
    apply (decides_iff _ _ _ _ (iff_sym (starts_star _ _ _ _))). apply decides_or.
    { apply (decides_iff _ _ _ _ (iff_sym (Hpair _ _))). apply IHh; [done|done|lia]. }
    unfold decides, lb. rewrite bind_gets, (cstr_hd _ _ _ Ht), orb_comm, (Z.eqb_sym _ c).
    apply (decides_char c text); [done|]. intros x t' -> Ht'. apply IHs; [done|done|cbn [length] in *; lia].
Qed.

Lemma match_loop_spec n u re text s t : cstr (u_mem u) re s -> cstr (u_mem u) text t ->
  (2 * (length s + length t) + 1 < n)%nat ->
  decides (match_loop n re text) u (∃ before rest, t = before ++ rest ∧ starts (parse s) rest).
Proof.
  revert text t. induction n as [|n IH]; intros text t Hs Ht Hn; [lia|]. unfold decides. cbn [match_loop].
  apply (decides_iff _ _ (starts (parse s) t ∨ ∃ x t', t = x :: t' ∧ ∃ before rest, t' = before ++ rest ∧ starts (parse s) rest)).
  { split.
    - intros [H|(x & t' & -> & before & rest & -> & H)]; [by exists [], t|by exists (x :: before), rest].
    - intros ([|x before] & rest & -> & H); [by left|right]. exists x, (before ++ rest). naive_solver. }
  apply decides_or; [apply matcher_spec; [done|done|lia]|]. unfold decides, lb. rewrite bind_gets, (cstr_hd _ _ _ Ht).
  destruct t as [|x t]; cbn [hd Z.eqb negb]; [apply decides_false; naive_solver|].
  destruct Ht as (_ & Hx & Ht). rewrite (proj2 (Z.eqb_neq x 0)) by done. cbn [negb].
  eapply decides_iff; [|apply (IH (text + 1) t Hs Ht); cbn [length] in *; lia].
  split; [intros H; by exists x, t|]. by intros (x' & t' & [= <- <-] & H).
Qed.

Lemma grep_match_spec n u re text s t :
  cstr (u_mem u) re s -> cstr (u_mem u) text t -> (2 * (length s + length t) + 1 < n)%nat ->
  decides (grep_match n re text) u (re_matches s t).
Proof.
  intros Hs Ht Hn. unfold decides, grep_match, lb. rewrite bind_gets, (cstr_hd _ _ _ Hs). unfold re_matches.
  destruct (hd 0 s =? ch "^") eqn:E; [|by apply match_loop_spec].
  destruct s as [|c s]; [discriminate E|]. destruct Hs as (_ & _ & Hs).
  apply matcher_spec; [done|done|cbn [length tl] in *; lia].
Qed.
(** C22. The pattern matcher of [grep] terminates and is right: on a pattern and
    a text, the code answers 1 exactly if the text contains (at its start, if
    the pattern begins with [^]; up to its end, if it ends in [$]) a string of
    the language of the pattern. *)
Theorem grep_match_decides n u re text s t :
  cstr (u_mem u) re s -> cstr (u_mem u) text t -> (2 * (length s + length t) + 1 < n)%nat ->
  ∃ r, grep_match n re text u = Ret r u ∧ (r = 0 ∨ r = 1) ∧ (r = 1 <-> re_matches s t).
Proof. apply grep_match_spec. Qed.
End matcher.

(** ** Lines *)

(** The complete lines of a text, without their newlines, and what follows the
    last of them. *)
Fixpoint split_lines (l : list Z) : list (list Z) * list Z :=
  match l with
  | [] => ([], [])
  | c :: l' =>
      let '(ls, r) := split_lines l' in
      if c =? 10 then ([] :: ls, r)
      else match ls with
           | [] => ([], c :: r)
           | x :: ls' => ((c :: x) :: ls', r)
           end
  end.

Lemma split_lines_newline s t : 10 ∉ s -> split_lines (s ++ 10 :: t) = (s :: (split_lines t).1, (split_lines t).2).
Proof.
  induction s as [|c s IH]; cbn [app split_lines]; intros Hn.
  - by destruct (split_lines t).
  - apply not_elem_of_cons in Hn as [Hc Hn]. rewrite IH by done. by rewrite (proj2 (Z.eqb_neq c 10)) by done.
Qed.
Lemma split_lines_none s : 10 ∉ s -> split_lines s = ([], s).
Proof.
  induction s as [|c s IH]; cbn [split_lines]; intros Hn; [done|].
  apply not_elem_of_cons in Hn as [Hc Hn]. rewrite IH by done. by rewrite (proj2 (Z.eqb_neq c 10)) by done.
Qed.

(** Every text starts with a line or has none. *)
Lemma split_lines_cases l : 10 ∉ l ∨ ∃ s t, l = s ++ 10 :: t ∧ 10 ∉ s.
Proof.
  induction l as [|c l IH]; [left; apply not_elem_of_nil|]. destruct (decide (c = 10)) as [->|Hc].
  { right. exists [], l. split; [done|apply not_elem_of_nil]. }
  destruct IH as [Hn|(s & t & -> & Hn)]; [left; by apply not_elem_of_cons|].
  right. exists (c :: s), t. split; [done|by apply not_elem_of_cons].
Qed.

Lemma split_lines_app l l' : split_lines (l ++ l') =
  ((split_lines l).1 ++ (split_lines ((split_lines l).2 ++ l')).1, (split_lines ((split_lines l).2 ++ l')).2).
Proof.
  remember (length l) as n eqn:En. revert l En. induction n as [n IH] using lt_wf_ind. intros l ->.
  destruct (split_lines_cases l) as [Hn|(s & t & -> & Hn)].
  - rewrite (split_lines_none l Hn). cbn. by destruct (split_lines (l ++ l')).
  - rewrite <- app_assoc. cbn [app]. rewrite !split_lines_newline by done. rewrite (IH (length t)); [done| |done].
    rewrite length_app. cbn. lia.
Qed.

Lemma split_lines_tail l : 10 ∉ (split_lines l).2.
Proof.
  remember (length l) as n eqn:En. revert l En. induction n as [n IH] using lt_wf_ind. intros l ->.
  destruct (split_lines_cases l) as [Hn|(s & t & -> & Hn)]; [by rewrite split_lines_none|].
  rewrite split_lines_newline by done. apply (IH (length t)); [|done]. rewrite length_app. cbn. lia.
Qed.

Lemma split_lines_suffix l : ∃ l', l = l' ++ (split_lines l).2.
Proof.
  remember (length l) as n eqn:En. revert l En. induction n as [n IH] using lt_wf_ind. intros l ->.
  destruct (split_lines_cases l) as [Hn|(s & t & -> & Hn)]; [exists []; by rewrite split_lines_none|].
  rewrite split_lines_newline by done. destruct (IH (length t)) with (l := t) as [t' Ht]; [rewrite length_app; cbn; lia|done|].
  exists (s ++ 10 :: t'). rewrite <- app_assoc. cbn [app snd]. by rewrite <- Ht.
Qed.
Lemma split_lines_length l : (length (split_lines l).2 <= length l)%nat.
Proof. destruct (split_lines_suffix l) as [l' E]. rewrite E at 2. rewrite length_app. lia. Qed.

(** The lines up to the first that does not fit the buffer. *)
Fixpoint short_lines (ls : list (list Z)) : list (list Z) :=
  match ls with
  | [] => []
  | l :: ls' => if (length l <? 1023)%nat then l :: short_lines ls' else []
  end.

Lemma short_lines_app ls ls' : Forall (λ l, (length l < 1023)%nat) ls -> short_lines (ls ++ ls') = ls ++ short_lines ls'.
Proof. induction 1 as [|l ls Hl Hls IH]; [done|]. cbn [app short_lines]. by rewrite (proj2 (Nat.ltb_lt _ _) Hl), IH. Qed.

Lemma split_lines_lt l : Forall (λ s, (length s < length l)%nat) (split_lines l).1.
Proof.
  remember (length l) as n eqn:En. revert l En. induction n as [n IH] using lt_wf_ind. intros l ->.
  destruct (split_lines_cases l) as [Hn|(s & t & -> & Hn)]; [rewrite split_lines_none by done; constructor|].
  rewrite split_lines_newline by done. rewrite length_app. cbn [fst length]. constructor; [lia|].
  eapply Forall_impl; [apply (IH (length t)); [rewrite length_app; cbn; lia|done]|]. cbn. lia.
Qed.

(** A first line that does not fit. *)
Lemma split_lines_long s t : 10 ∉ s -> (1023 <= length s)%nat -> short_lines (split_lines (s ++ t)).1 = [].
Proof.
  intros Hn Hl. destruct (split_lines_cases t) as [Ht|(s' & t' & -> & Hs')].
  - rewrite split_lines_none; [done|]. intros [?|?]%elem_of_app; done.
  - rewrite app_assoc, split_lines_newline by (intros [?|?]%elem_of_app; done). cbn [fst short_lines].
    rewrite length_app, (proj2 (Nat.ltb_ge _ _)) by lia. done.
Qed.

(** What [grep] prints for some lines. *)
Inductive greps (pat : list Z) : list (list Z) -> list Z -> Prop :=
| greps_nil : greps pat [] []
| greps_match l ls o : re_matches pat l -> greps pat ls o -> greps pat (l :: ls) (l ++ 10 :: o)
| greps_skip l ls o : ¬ re_matches pat l -> greps pat ls o -> greps pat (l :: ls) o.

Lemma greps_app pat ls ls' o o' : greps pat ls o -> greps pat ls' o' -> greps pat (ls ++ ls') (o ++ o').
Proof.
  intros H H'. induction H; cbn [app]; [done| |by constructor]. rewrite <- app_assoc. cbn [app]. by constructor.
Qed.

(** ** [grep] *)
Section lines.
Context {O : Type} {S : Sys O} (fd : Z) (inp out : O -> list Z) {St : Stream fd inp out}.
Context (fuel : nat) (buf pattern : Z) (pat : list Z).
Context (Hbuf : 0 < buf) (Hdisj : pattern + Z.of_nat (length pat) < buf ∨ buf + 1024 <= pattern).
Context (Hfuel : (2 * (length pat + 1024) + 2 <= fuel)%nat).
Implicit Types u : user O.

(** Nothing but the buffer changes. *)
Definition outside (u u' : user O) : Prop := ∀ b, ¬ (buf <= b < buf + 1024) -> ld8 (u_mem u') b = ld8 (u_mem u) b.

Lemma pattern_kept u u' : outside u u' -> cstr (u_mem u) pattern pat -> cstr (u_mem u') pattern pat.
Proof. intros H. apply cstr_ext. intros b Hb. apply H. lia. Qed.

Lemma outside_st8 u b v : buf <= b < buf + 1024 -> outside u (u <| u_mem ::= λ m, st8 m b v |>).
Proof. intros Hb b' Hb'. cbn. rewrite ld8_st8, decide_False by lia. done. Qed.
Lemma outside_trans u1 u2 u3 : outside u1 u2 -> outside u2 u3 -> outside u1 u3.
Proof. intros H1 H2 b Hb. by rewrite H2, H1. Qed.

(** The line [s] at [p], with its newline at [p + length s]. *)
Lemma grep_line p s t u : cstr (u_mem u) p (s ++ 10 :: t) -> buf <= p -> p + Z.of_nat (length (s ++ 10 :: t)) < buf + 1024 ->
  cstr (u_mem u) pattern pat ->
  let q := p + Z.of_nat (length s) in
  ∃ u' o x, (sb q 0 ;;
     r ← grep_match fuel pattern p;
     (if negb (r =? 0) then sb q 10 ;; write 1 p (q + 1 - p) else mret 0)) u = Ret x u' ∧
    greps pat [s] o ∧ out (u_os u') = out (u_os u) ++ o ∧ inp (u_os u') = inp (u_os u) ∧
    cstr (u_mem u') (q + 1) t ∧ outside u u'.
Proof.
  intros Hs Hp Hlen Hpat q. rewrite length_app in Hlen. cbn [length] in Hlen.
  destruct (cstr_cut _ _ _ _ _ Hs) as [Hc Ht]. fold q in Hc, Ht. unfold sb. rewrite bind_modify.
  assert (outside u (u <| u_mem ::= λ m, st8 m q 0 |>)) as Ho by (apply outside_st8; unfold q; lia).
  set (u1 := u <| u_mem ::= λ m, st8 m q 0 |>) in *. pose proof (pattern_kept _ _ Ho Hpat) as Hpat1.
  destruct (grep_match_spec fuel u1 pattern p pat s Hpat1 Hc) as (r & E & Hr & Hm); [lia|].
  rewrite (bind_Ret _ _ _ _ _ E). destruct Hr as [-> | ->]; cbn [Z.eqb negb].
  - exists u1, [], 0. split; [done|]. split; [apply greps_skip; [by rewrite <- Hm|constructor]|].
    split; [by rewrite app_nil_r|]. done.
  - unfold write. rewrite bind_modify, bind_gets. set (u2 := u1 <| u_mem ::= λ m, st8 m q 10 |>).
    assert (u_os u2 = u_os u) as Eos by done.
    assert (bytes (Z.to_nat (q + 1 - p)) (u_mem u2) p = s ++ [10]) as ->.
    { replace (Z.to_nat (q + 1 - p)) with (length s + 1)%nat by (unfold q; lia).
      rewrite bytes_app. f_equal.
      - transitivity (bytes (length s) (u_mem u1) p); [apply (bytes_st8_ne _ (u_mem u1)); unfold q; lia|].
        apply (cstr_split _ _ s []). by rewrite app_nil_r.
      - cbn. fold q. by rewrite ld8_st8, decide_True by done. }
    destruct (st_write (s ++ [10]) (u_os u2)) as (o' & Ew & Hout & Hinp). unfold sys. rewrite Ew.
    exists (u2 <| u_os := o' |>), (s ++ [10]), (Z.of_nat (length (s ++ [10]))). split; [done|].
    split; [apply (greps_match pat s [] []); [by apply Hm|constructor]|]. rewrite <- Eos. split; [done|]. split; [done|]. split.
    + eapply cstr_ext; [|exact Ht]. intros b Hb. cbn. rewrite !ld8_st8, !decide_False by lia. done.
    + eapply outside_trans; [exact Ho|]. apply (outside_st8 u1). unfold q. lia.
Qed.

Lemma grep_lines_spec k p d u : cstr (u_mem u) p d -> buf <= p -> p + Z.of_nat (length d) < buf + 1024 ->
  cstr (u_mem u) pattern pat -> (length d < k)%nat ->
  let tail := (split_lines d).2 in
  let p' := p + Z.of_nat (length d) - Z.of_nat (length tail) in
  ∃ u' o, grep_lines fuel k pattern p u = Ret p' u' ∧ greps pat (split_lines d).1 o ∧
    out (u_os u') = out (u_os u) ++ o ∧ inp (u_os u') = inp (u_os u) ∧ cstr (u_mem u') p' tail ∧ outside u u'.
Proof.
  revert p d u. induction k as [|k IH]; intros p d u Hd Hp Hlen Hpat Hk; [lia|]. cbn [grep_lines]. unfold Ulib.strchr.
  destruct (split_lines_cases d) as [Hn|(s & t & -> & Hn)].
  - rewrite (bind_Ret _ _ _ _ _ (strchr_none fuel 10 p d u Hd Hn ltac:(lia))), split_lines_none by done. cbn [Z.eqb fst snd].
    exists u, []. replace (p + Z.of_nat (length d) - Z.of_nat (length d)) with p by lia.
    split; [done|]. split; [constructor|]. split; [by rewrite app_nil_r|]. done.
  - assert (length (s ++ 10 :: t) = (length s + Datatypes.S (length t))%nat) as El by (by rewrite length_app).
    rewrite (bind_Ret _ _ _ _ _ (strchr_found fuel 10 p s t u Hd Hn ltac:(lia))). set (q := p + Z.of_nat (length s)).
    rewrite (proj2 (Z.eqb_neq q 0)) by (unfold q; lia).
    destruct (grep_line p s t u Hd Hp Hlen Hpat) as (u1 & o1 & x & E1 & G1 & O1 & I1 & C1 & Out1).
    destruct (IH (q + 1) t u1) as (u2 & o2 & E2 & G2 & O2 & I2 & C2 & Out2);
      [done|unfold q; lia|unfold q; lia|by eapply pattern_kept|lia|].
    exists u2, (o1 ++ o2). rewrite split_lines_newline by done. cbn [fst snd].
    replace (p + Z.of_nat (length (s ++ 10 :: t)) - Z.of_nat (length (split_lines t).2))
      with (q + 1 + Z.of_nat (length t) - Z.of_nat (length (split_lines t).2)) by (unfold q; lia).
    split.
    { rewrite <- E2. etransitivity; [|exact (bind_Ret _ (λ _, grep_lines fuel k pattern (q + 1)) _ _ _ E1)].
      fold q. rewrite bind_bind. apply bind_ext. intros [] u' _. by rewrite bind_bind. }
    split; [by apply (greps_app pat [s])|]. split; [by rewrite O2, O1, app_assoc|]. split; [by rewrite I2|].
    split; [done|]. by eapply outside_trans.
Qed.

(** A read behind the bytes [pend] of the buffer. *)
Lemma read_behind pend u : bytes (length pend) (u_mem u) buf = pend -> (length pend <= 1023)%nat ->
  Forall (λ c, 0 < c < 256) (pend ++ inp (u_os u)) ->
  ∃ bs u1, read fd (buf + Z.of_nat (length pend)) (1024 - Z.of_nat (length pend) - 1) u = Ret (Z.of_nat (length bs)) u1 ∧
    inp (u_os u) = bs ++ inp (u_os u1) ∧ out (u_os u1) = out (u_os u) ∧ (length (pend ++ bs) <= 1023)%nat ∧
    (bs = [] -> length pend = 1023%nat ∨ inp (u_os u) = []) ∧ outside u u1 ∧
    cstr (st8 (u_mem u1) (buf + Z.of_nat (length (pend ++ bs))) 0) buf (pend ++ bs).
Proof.
  intros Hb Hl Hf. destruct (st_read (1024 - Z.of_nat (length pend) - 1) (u_os u)) as (bs & o' & E & Hi & Ho & Hn & Hz).
  unfold read, sys. unfold mbind at 1, ST_bind at 1. rewrite E. cbn [fst snd]. rewrite bind_modify.
  eexists bs, _. split; [done|]. cbn. rewrite length_app. split; [done|]. split; [done|]. split; [lia|].
  split; [intros ->; destruct (Hz eq_refl); [left; lia|by right]|].
  assert (∀ b, ld8 (write_bytes (buf + Z.of_nat (length pend)) bs (u_mem u)) b =
    if decide (buf + Z.of_nat (length pend) <= b < buf + Z.of_nat (length pend) + Z.of_nat (length bs))
    then u8 (bs !!! Z.to_nat (b - (buf + Z.of_nat (length pend)))) else ld8 (u_mem u) b) as Hw by (intros b; apply ld8_write_bytes).
  rewrite Hi, app_assoc in Hf. apply Forall_app in Hf as [Hf _]. split.
  { intros b Hb'. cbn. rewrite Hw, decide_False by lia. done. }
  rewrite <- (app_nil_r (pend ++ bs)), <- length_app. apply cstr_app.
  - eapply Forall_impl; [exact Hf|]. intros c; cbn; lia.
  - rewrite bytes_st8_ne by lia. rewrite length_app, bytes_app. f_equal.
    + etransitivity; [|exact Hb]. apply bytes_ext. intros b Hb'. rewrite Hw, decide_False by lia. done.
    + apply bytes_written. apply Forall_app in Hf as [_ Hf]. eapply Forall_impl; [exact Hf|]. intros c; cbn; lia.
  - cbn. rewrite ld8_st8, decide_True by done. done.
Qed.

Lemma grep_loop_spec rounds pend u : bytes (length pend) (u_mem u) buf = pend -> (length pend <= 1023)%nat -> 10 ∉ pend ->
  Forall (λ c, 0 < c < 256) (pend ++ inp (u_os u)) ->
  cstr (u_mem u) pattern pat -> (length (inp (u_os u)) < rounds)%nat ->
  ∃ u' o, grep_loop fuel buf rounds pattern fd (Z.of_nat (length pend)) u = Ret () u' ∧
    greps pat (short_lines (split_lines (pend ++ inp (u_os u))).1) o ∧ out (u_os u') = out (u_os u) ++ o.
Proof.
  revert pend u. induction rounds as [|rounds IH]; intros pend u Hb Hl Hn Hf Hpat Hr; [lia|]. cbn [grep_loop].
  destruct (read_behind pend u Hb Hl Hf) as (bs & u1 & E & Hi & Ho & Hl1 & Hz & Hout & Hc). rewrite (bind_Ret _ _ _ _ _ E).
  destruct (Z.leb_spec (Z.of_nat (length bs)) 0) as [Hle|Hpos].
  { exists u1, []. split; [done|]. rewrite Ho, app_nil_r. split; [|done].
    destruct bs as [|c bs]; [|cbn in Hle; lia]. destruct (Hz eq_refl) as [Hfull|Hend].
    - rewrite split_lines_long by (done || lia). constructor.
    - rewrite Hend, app_nil_r, split_lines_none by done. constructor. }
  rewrite <- Nat2Z.inj_add, <- length_app. unfold sb. rewrite bind_modify.
  set (d := pend ++ bs) in *. set (u2 := u1 <| u_mem ::= λ m, st8 m (buf + Z.of_nat (length d)) 0 |>).
  assert (outside u u2) as Hout2.
  { eapply outside_trans; [exact Hout|]. apply outside_st8. lia. }
  destruct (grep_lines_spec fuel buf d u2) as (u3 & o3 & E3 & G3 & O3 & I3 & C3 & Out3);
    [done|lia|lia|by eapply pattern_kept|lia|].
  set (tail := (split_lines d).2) in *. rewrite (bind_Ret _ _ _ _ _ E3).
  assert (0 < Z.of_nat (length d)) as Hd by (unfold d; rewrite length_app; lia). rewrite (proj2 (Z.ltb_lt _ _) Hd).
  assert (length tail <= length d)%nat as Htl by apply split_lines_length.
  replace (Z.of_nat (length d) - (buf + Z.of_nat (length d) - Z.of_nat (length tail) - buf)) with (Z.of_nat (length tail)) by lia.
  destruct (memmove_spec buf (buf + Z.of_nat (length d) - Z.of_nat (length tail)) (Z.of_nat (length tail)) u3) as (m4 & E4 & H4); [lia|].
  rewrite (bind_Ret _ _ _ _ _ E4). set (u4 := u3 <| u_mem := m4 |>).
  assert (split_lines (pend ++ inp (u_os u)) = ((split_lines d).1 ++ (split_lines (tail ++ inp (u_os u1))).1,
    (split_lines (tail ++ inp (u_os u1))).2)) as Es by (rewrite Hi, app_assoc; apply split_lines_app).
  rewrite Es. cbn [fst]. rewrite short_lines_app.
  2:{ eapply Forall_impl; [apply split_lines_lt|]. cbn. lia. }
  destruct (IH tail u4) as (u' & o' & E' & G' & O').
  - rewrite <- (proj1 (cstr_split _ _ tail [] ltac:(rewrite app_nil_r; exact C3))) at 2.
    apply bytes_shift. intros i Hi'. cbn. rewrite H4, decide_True by lia. f_equal. lia.
  - lia.
  - apply split_lines_tail.
  - cbn. rewrite I3. cbn. rewrite Hi, app_assoc in Hf. fold d in Hf. destruct (split_lines_suffix d) as [d' Ed].
    rewrite Ed, <- app_assoc in Hf. by apply Forall_app in Hf as [_ Hf].
  - apply (pattern_kept u); [|done]. eapply outside_trans; [exact Hout2|]. eapply outside_trans; [exact Out3|].
    intros b Hb'. cbn. rewrite H4, decide_False by lia. done.
  - cbn. rewrite I3. cbn. rewrite Hi, length_app in Hr. lia.
  - exists u', (o3 ++ o'). split; [exact E'|]. cbn in *. rewrite I3 in G'. split; [by apply greps_app|].
    rewrite O', O3, app_assoc. cbn. by rewrite Ho.
Qed.
End lines.

(** C23. However the reads cut the input into pieces, [grep] returns and has
    printed exactly the lines that match, in order, up to the first line that
    is too long for its buffer (1023 bytes or more).  A last line without a
    newline is not looked at, and such a long line ends the search: the rest of
    the input is ignored.  The input has no NUL bytes. *)
Theorem grep_prints_matches {O} {S : Sys O} fd (inp out : O -> list Z) {St : Stream fd inp out} fuel rounds buf pattern pat u :
  0 < buf -> pattern + Z.of_nat (length pat) < buf ∨ buf + 1024 <= pattern -> cstr (u_mem u) pattern pat ->
  Forall (λ c, 0 < c < 256) (inp (u_os u)) ->
  (2 * (length pat + 1024) + 2 <= fuel)%nat -> (length (inp (u_os u)) < rounds)%nat ->
  ∃ u' o, grep fuel buf rounds pattern fd u = Ret () u' ∧
    greps pat (short_lines (split_lines (inp (u_os u))).1) o ∧ out (u_os u') = out (u_os u) ++ o.
Proof.
  intros Hbuf Hd Hpat Hf Hfuel Hr.
  apply (grep_loop_spec fd inp out fuel buf pattern pat Hbuf Hd Hfuel rounds [] u); try done; [cbn; lia|apply not_elem_of_nil].
Qed.

(** ** An example *)

Definition demo_pattern : list Z := str "^a.*c$".
Definition demo_input : list Z := str "abc" ++ [10] ++ str "xabc" ++ [10] ++ str "axxc" ++ [10] ++ str "abc".
Definition demo_user : user (list Z * list Z) := mk_user (write_bytes 16 demo_pattern ∅) (demo_input, []) None.

Lemma grep_match_decides_witness : ∃ r, grep_match (O := list Z * list Z) 100 16 22 demo_user = Ret r demo_user ∧
  (r = 1 <-> re_matches demo_pattern []).
Proof.
  destruct (grep_match_decides 100 demo_user 16 22 demo_pattern []) as (r & E & _ & H).
  - repeat split; discriminate.
  - reflexivity.
  - cbn. lia.
  - exists r. split; [exact E|exact H].
Defined.

Lemma grep_prints_matches_witness : ∃ u' o, grep 4000 4096 100 16 0 demo_user = Ret () u' ∧
  greps demo_pattern [str "abc"; str "xabc"; str "axxc"] o ∧ snd (u_os u') = o.
Proof.
  destruct (grep_prints_matches 0 fst snd 4000 100 4096 16 demo_pattern demo_user) as (u' & o & E & G & Ho).
  - lia.
  - left. reflexivity.
  - repeat split; discriminate.
  - apply (bool_decide_unpack _). reflexivity.
  - cbn. lia.
  - cbn. lia.
  - exists u', o. split; [exact E|]. split; [exact G|exact Ho].
Defined.
