(* ===== verification/UCmds.v ===== *)
(** * User commands

    [cat], [echo], [kill], [ln], [ls], [mkdir], [rm], [wc], [zombie], [init] and
    the main program of [grep].  The arguments of [main] are [argc] and the
    address of [argv]; local and static arrays are at addresses given as
    parameters. *)
From Stdlib Require Import Ascii String.
From S2P Require Import Prelude Layout KState CString Uart User UPrintf Grep.

Section cmds.
Context {O : Type} {S : Sys O} (fuel : nat).

(** [argv[i]], and the string it points to. *)
Definition arg (argv i : Z) : UM O Z := gets (λ u, ld64 (u_mem u) (argv + 8 * i)).
Definition arg_str (argv i : Z) : UM O (list Z) :=
  a ← arg argv i;
  ustr fuel a.

(** [for(i = from; i < argc; i++) body(i)] until [body] says to stop. *)
Fixpoint for_args (n : nat) (i argc : Z) (body : Z -> UM O bool) : UM O () :=
  match n with
  | 0%nat => mret ()
  | Datatypes.S n' =>
      if i <? argc then
        go ← body i;
        if go : bool then for_args n' (i + 1) argc body else mret ()
      else mret ()
  end.
Definition each_arg (from argc : Z) (body : Z -> UM O bool) : UM O () := for_args (Z.to_nat (argc - from)) from argc body.

(** ** [user/cat.c] *)

Fixpoint cat (rounds : nat) (buf fd : Z) : UM O () :=
  match rounds with
  | 0%nat => spin
  | Datatypes.S rounds' =>
      n ← read fd buf 512;
      if 0 <? n then
        w ← write 1 buf n;
        if negb (w =? n) then
          Uprintf.fprintf 2 (str "cat: write error" ++ [10]) [] ;;
          exit 1
        else cat rounds' buf fd
      else if n <? 0 then
        Uprintf.fprintf 2 (str "cat: read error" ++ [10]) [] ;;
        exit 1
      else mret ()
  end.
Definition cat_main (rounds : nat) (buf argc argv : Z) : UM O Z :=
  if argc <=? 1 then cat rounds buf 0 ;; exit 0 else
  each_arg 1 argc (λ i,
    s ← arg_str argv i;
    fd ← sys (os_open s O_RDONLY);
    if fd <? 0 then
      Uprintf.fprintf 2 (str "cat: cannot open %s" ++ [10]) [VStr (Some s)] ;;
      exit 1
    else
    cat rounds buf fd ;;
    sys (os_close fd) ;;
    mret true) ;;
  exit 0.

(** ** [user/echo.c] *)

Definition echo_main (argc argv : Z) : UM O Z :=
  each_arg 1 argc (λ i,
    a ← arg argv i;
    n ← Ulib.strlen fuel a;
    write 1 a n ;;
    (if i + 1 <? argc then sys (os_write 1 [32]) else sys (os_write 1 [10])) ;;
    mret true) ;;
  exit 0.

(** ** [user/kill.c], [user/ln.c], [user/mkdir.c], [user/rm.c], [user/zombie.c] *)

Definition kill_main (argc argv : Z) : UM O Z :=
  if argc <? 2 then
    Uprintf.fprintf 2 (str "usage: kill pid..." ++ [10]) [] ;;
    exit 1
  else
  each_arg 1 argc (λ i,
    a ← arg argv i;
    n ← Ulib.atoi fuel a;
    sys (os_kill n) ;;
    mret true) ;;
  exit 0.

Definition ln_main (argc argv : Z) : UM O Z :=
  if negb (argc =? 3) then
    Uprintf.fprintf 2 (str "Usage: ln old new" ++ [10]) [] ;;
    exit 1
  else
  old ← arg_str argv 1;
  new ← arg_str argv 2;
  r ← sys (os_link old new);
  (if r <? 0 then Uprintf.fprintf 2 (str "link %s %s: failed" ++ [10]) [VStr (Some old); VStr (Some new)] else mret ()) ;;
  exit 0.

Definition mkdir_main (argc argv : Z) : UM O Z :=
  if argc <? 2 then
    Uprintf.fprintf 2 (str "Usage: mkdir files..." ++ [10]) [] ;;
    exit 1
  else
  each_arg 1 argc (λ i,
    s ← arg_str argv i;
    r ← sys (os_mkdir s);
    if r <? 0 then
      Uprintf.fprintf 2 (str "mkdir: %s failed to create" ++ [10]) [VStr (Some s)] ;;
      mret false
    else mret true) ;;
  exit 0.

Definition rm_main (argc argv : Z) : UM O Z :=
  if argc <? 2 then
    Uprintf.fprintf 2 (str "Usage: rm files..." ++ [10]) [] ;;
    exit 1
  else
  each_arg 1 argc (λ i,
    s ← arg_str argv i;
    r ← sys (os_unlink s);
    if r <? 0 then
      Uprintf.fprintf 2 (str "rm: %s failed to delete" ++ [10]) [VStr (Some s)] ;;
      mret false
    else mret true) ;;
  exit 0.

Definition zombie_main : UM O Z :=
  pid ← sys os_fork;
  (if 0 <? pid then sys (os_pause 5) ;; mret () else mret ()) ;;
  exit 0.

(** ** [user/wc.c] *)

(** [l], [w], [c] and [inword]. *)
Record counts : Type := mk_counts { n_l : Z; n_w : Z; n_c : Z; inword : bool }.
Definition wc_space : list Z := [32; 13; 9; 10; 11].
(** The body of the inner loop for a character. *)
Definition wc_char (ct : counts) (ch : Z) : counts :=
  let c := i32 (n_c ct + 1) in
  let l := if ch =? 10 then i32 (n_l ct + 1) else n_l ct in
  if existsb (Z.eqb ch) wc_space then mk_counts l (n_w ct) c false
  else if negb (inword ct) then mk_counts l (i32 (n_w ct + 1)) c true
  else mk_counts l (n_w ct) c (inword ct).
(** [for(i=0; i<n; i++)] *)
Fixpoint wc_chars (left : nat) (a : Z) (ct : counts) : UM O counts :=
  match left with
  | 0%nat => mret ct
  | Datatypes.S left' =>
      c ← lb a;
      wc_chars left' (a + 1) (wc_char ct c)
  end.
Fixpoint wc_loop (rounds : nat) (buf fd : Z) (ct : counts) : UM O (Z * counts) :=
  match rounds with
  | 0%nat => spin
  | Datatypes.S rounds' =>
      n ← read fd buf 512;
      if 0 <? n then
        ct ← wc_chars (Z.to_nat n) buf ct;
        wc_loop rounds' buf fd ct
      else mret (n, ct)
  end.
Definition wc (rounds : nat) (buf fd : Z) (name : list Z) : UM O () :=
  r ← wc_loop rounds buf fd (mk_counts 0 0 0 false);
  let '(n, ct) := r in
  if n <? 0 then
    Uprintf.printf (str "wc: read error" ++ [10]) [] ;;
    exit 1
  else
  Uprintf.printf (str "%d %d %d %s" ++ [10]) [VInt (n_l ct); VInt (n_w ct); VInt (n_c ct); VStr (Some name)].
Definition wc_main (rounds : nat) (buf argc argv : Z) : UM O Z :=
  if argc <=? 1 then wc rounds buf 0 [] ;; exit 0 else
  each_arg 1 argc (λ i,
    s ← arg_str argv i;
    fd ← sys (os_open s O_RDONLY);
    if fd <? 0 then
      Uprintf.printf (str "wc: cannot open %s" ++ [10]) [VStr (Some s)] ;;
      exit 1
    else
    wc rounds buf fd s ;;
    sys (os_close fd) ;;
    mret true) ;;
  exit 0.

(** ** [user/grep.c] *)

Definition grep_main (rounds : nat) (buf argc argv : Z) : UM O Z :=
  if argc <=? 1 then
    Uprintf.fprintf 2 (str "usage: grep pattern [file ...]" ++ [10]) [] ;;
    exit 1
  else
  pattern ← arg argv 1;
  if argc <=? 2 then grep fuel buf rounds pattern 0 ;; exit 0 else
  each_arg 2 argc (λ i,
    s ← arg_str argv i;
    fd ← sys (os_open s O_RDONLY);
    if fd <? 0 then
      Uprintf.printf (str "grep: cannot open %s" ++ [10]) [VStr (Some s)] ;;
      exit 1
    else
    grep fuel buf rounds pattern fd ;;
    sys (os_close fd) ;;
    mret true) ;;
  exit 0.

(** ** [user/ls.c] *)

(** [for(p=path+strlen(path); p >= path && *p != '/'; p--)] *)
Fixpoint last_slash (n : nat) (path p : Z) : UM O Z :=
  match n with
  | 0%nat => spin
  | Datatypes.S n' =>
      if path <=? p then
        c ← lb p;
        if negb (c =? ch "/") then last_slash n' path (p - 1) else mret p
      else mret p
  end.
(** [nbuf] is the address of the static buffer. *)
Definition fmtname (nbuf path : Z) : UM O Z :=
  n ← Ulib.strlen fuel path;
  p ← last_slash fuel path (path + n);
  let p := p + 1 in
  n ← Ulib.strlen fuel p;
  if DIRSIZ <=? n then mret p else
  Ulib.memmove nbuf p n ;;
  Ulib.memset (nbuf + n) 32 (DIRSIZ - n) ;;
  sb (nbuf + DIRSIZ) 0 ;;
  mret nbuf.

(** [printf("%s %d %d %d\n", fmtname(path), st.type, st.ino, (int) st.size)]
    with [st] at the address [st]. *)
Definition print_entry (nbuf path st : Z) : UM O () :=
  p ← fmtname nbuf path;
  s ← ustr fuel p;
  type ← gets (λ u, i16 (ldn 2 (u_mem u) (st + 8)));
  ino ← gets (λ u, ld32 (u_mem u) (st + 4));
  size ← gets (λ u, ld64 (u_mem u) (st + 16));
  Uprintf.printf (str "%s %d %d %d" ++ [10]) [VStr (Some s); VInt type; VInt ino; VInt (i32 size)].

(** [while(read(fd, &de, sizeof(de)) == sizeof(de))]; [de], [st] and [buf] are
    the addresses of the local variables, [p] points behind the slash. *)
Fixpoint ls_entries (n : nat) (nbuf buf de st fd p : Z) : UM O () :=
  match n with
  | 0%nat => spin
  | Datatypes.S n' =>
      r ← read fd de 16;
      if negb (r =? 16) then mret () else
      inum ← gets (λ u, ldn 2 (u_mem u) de);
      if inum =? 0 then ls_entries n' nbuf buf de st fd p else
      Ulib.memmove p (de + 2) DIRSIZ ;;
      sb (p + DIRSIZ) 0 ;;
      r ← Ulib.stat fuel buf st;
      (if r <? 0 then
         s ← ustr fuel buf;
         Uprintf.printf (str "ls: cannot stat %s" ++ [10]) [VStr (Some s)]
       else print_entry nbuf buf st) ;;
      ls_entries n' nbuf buf de st fd p
  end.
Definition ls (rounds : nat) (nbuf buf de st path : Z) : UM O () :=
  s ← ustr fuel path;
  fd ← sys (os_open s O_RDONLY);
  if fd <? 0 then Uprintf.fprintf 2 (str "ls: cannot open %s" ++ [10]) [VStr (Some s)] else
  r ← sys (os_fstat fd);
  modify (λ u, u <| u_mem ::= write_bytes st r.2 |>) ;;
  if r.1 <? 0 then
    Uprintf.fprintf 2 (str "ls: cannot stat %s" ++ [10]) [VStr (Some s)] ;;
    sys (os_close fd) ;;
    mret ()
  else
  type ← gets (λ u, i16 (ldn 2 (u_mem u) (st + 8)));
  (if (type =? T_DEVICE) || (type =? T_FILE) then print_entry nbuf path st
   else if type =? T_DIR then
     n ← Ulib.strlen fuel path;
     if 512 <? u32 (n + 1 + DIRSIZ + 1) then Uprintf.printf (str "ls: path too long" ++ [10]) [] else
     Ulib.strcpy fuel buf path ;;
     n ← Ulib.strlen fuel buf;
     let p := buf + n in
     sb p (ch "/") ;;
     ls_entries rounds nbuf buf de st fd (p + 1)
   else mret ()) ;;
  sys (os_close fd) ;;
  mret ().
(** [dot] is the address of the string ["."]. *)
Definition ls_main (rounds : nat) (nbuf buf de st dot argc argv : Z) : UM O Z :=
  if argc <? 2 then ls rounds nbuf buf de st dot ;; exit 0 else
  each_arg 1 argc (λ i,
    a ← arg argv i;
    ls rounds nbuf buf de st a ;;
    mret true) ;;
  exit 0.

(** ** [user/init.c] *)

(** [for(;;) wait(...)] until the shell exits. *)
Fixpoint init_wait (n : nat) (pid : Z) : UM O () :=
  match n with
  | 0%nat => spin
  | Datatypes.S n' =>
      w ← sys os_wait;
      let wpid := w.1 in
      if wpid =? pid then mret () else
      if wpid <? 0 then
        Uprintf.printf (str "init: wait returned an error" ++ [10]) [] ;;
        exit 1
      else init_wait n' pid
  end.
Fixpoint init_loop (n : nat) : UM O () :=
  match n with
  | 0%nat => spin
  | Datatypes.S n' =>
      Uprintf.printf (str "init: starting sh" ++ [10]) [] ;;
      pid ← sys os_fork;
      if pid <? 0 then
        Uprintf.printf (str "init: fork failed" ++ [10]) [] ;;
        exit 1
      else if pid =? 0 then
        r ← sys (os_exec (str "sh") [str "sh"]);
        match r with
        | None => switch
        | Some _ =>
            Uprintf.printf (str "init: exec sh failed" ++ [10]) [] ;;
            exit 1
        end
      else
        init_wait fuel pid ;;
        init_loop n'
  end.
Definition init_main (rounds : nat) : UM O () :=
  fd ← sys (os_open (str "console") O_RDWR);
  (if fd <? 0 then
     sys (os_mknod (str "console") CONSOLE 0) ;;
     sys (os_open (str "console") O_RDWR) ;;
     mret ()
   else mret ()) ;;
  sys (os_dup 0) ;;
  sys (os_dup 0) ;;
  init_loop rounds.
End cmds.

(** ** What the commands do *)

Section specs.
Context {O : Type} {S : Sys O} (fd : Z) (inp out : O -> list Z) {St : Stream fd inp out}.
Implicit Types u : user O.

(** A read into a buffer. *)
Lemma read_spec buf n u : 0 < n -> Forall (λ c, 0 <= c < 256) (inp (u_os u)) ->
  ∃ bs u1, read fd buf n u = Ret (Z.of_nat (length bs)) u1 ∧ inp (u_os u) = bs ++ inp (u_os u1) ∧ out (u_os u1) = out (u_os u) ∧
    bytes (length bs) (u_mem u1) buf = bs ∧ (bs = [] -> inp (u_os u) = []) ∧ Forall (λ c, 0 <= c < 256) (inp (u_os u1)).
Proof.
  intros Hn Hr. unfold read. destruct (st_read n (u_os u)) as (bs & o' & E & Hi & Ho & _ & Hz).
  exists bs, (u <| u_os := o' |> <| u_mem ::= write_bytes buf bs |>). rewrite Hi in Hr. apply Forall_app in Hr as [Hb Hr].
  split; [unfold mbind at 1, ST_bind at 1, sys; by rewrite E|]. split; [done|]. split; [done|]. split; [by apply bytes_written|].
  split; [|done]. intros Hbs. destruct (Hz Hbs); [lia|done].
Qed.

Lemma write_spec a l u : bytes (length l) (u_mem u) a = l ->
  ∃ u1, write 1 a (Z.of_nat (length l)) u = Ret (Z.of_nat (length l)) u1 ∧ out (u_os u1) = out (u_os u) ++ l ∧ inp (u_os u1) = inp (u_os u) ∧
    u_mem u1 = u_mem u.
Proof.
  intros Hl. unfold write. rewrite bind_gets, Nat2Z.id, Hl. destruct (st_write l (u_os u)) as (o' & E & Ho & Hi).
  exists (u <| u_os := o' |>). split; [unfold sys; by rewrite E|done].
Qed.

(** C38. [cat] copies what is left of the file to its output, in whatever pieces
    the file is read, and terminates at its end. *)
Theorem cat_copies rounds buf u : Forall (λ c, 0 <= c < 256) (inp (u_os u)) -> (length (inp (u_os u)) < rounds)%nat ->
  ∃ u', cat rounds buf fd u = Ret () u' ∧ out (u_os u') = out (u_os u) ++ inp (u_os u) ∧ inp (u_os u') = [].
Proof.
  revert u. induction rounds as [|rounds IH]; intros u Hr Hn; [lia|]. cbn [cat].
  destruct (read_spec buf 512 u ltac:(lia) Hr) as (bs & u1 & E & Hi & Ho & Hb & Hz & Hr1). rewrite (bind_Ret _ _ _ _ _ E).
  destruct bs as [|b bs].
  { change (0 <? Z.of_nat (@length Z [])) with false. cbv iota. change (Z.of_nat (@length Z [])) with 0. exists u1. rewrite (Hz eq_refl) in Hi |- *. rewrite app_nil_r. by split. }
  rewrite (proj2 (Z.ltb_lt 0 _)) by (cbn [length]; lia).
  destruct (write_spec buf _ u1 Hb) as (u2 & E2 & Ho2 & Hi2 & Hm2). rewrite (bind_Ret _ _ _ _ _ E2), Z.eqb_refl. cbn [negb].
  rewrite Hi, length_app in Hn. cbn [length] in Hn. destruct (IH u2) as (u' & E' & Ho' & Hi'); [by rewrite Hi2|rewrite Hi2; lia|].
  exists u'. split; [done|]. split; [|done]. by rewrite Ho', Ho2, Ho, Hi2, Hi, <- app_assoc.
Qed.

(** *** Counting words *)

Definition wc_is_space (c : Z) : bool := existsb (Z.eqb c) wc_space.
(** The parts between spaces, and those of them that are words. *)
Fixpoint fields (l : list Z) : list (list Z) :=
  match l with
  | [] => [[]]
  | c :: l' =>
      if wc_is_space c then [] :: fields l'
      else match fields l' with w :: ws => (c :: w) :: ws | [] => [[c]] end
  end.
Definition words (l : list Z) : list (list Z) := filter (λ w, w ≠ []) (fields l).

(** The text starts within a word. *)
Definition in_word (l : list Z) : bool := match l with c :: _ => negb (wc_is_space c) | [] => false end.

Lemma fields_cons l : ∃ w ws, fields l = w :: ws ∧ (w ≠ [] <-> in_word l = true).
Proof.
  destruct l as [|c l]; [by exists [], []|]. cbn [fields in_word]. destruct (wc_is_space c); [by exists [], (fields l)|].
  destruct (fields l) as [|w ws]; [by exists [c], []|by exists (c :: w), ws].
Qed.
Lemma words_cons c l : length (words (c :: l)) =
  if wc_is_space c then length (words l) else (length (words l) + if in_word l then 0 else 1)%nat.
Proof.
  unfold words. cbn [fields]. destruct (wc_is_space c); [done|].
  destruct (fields_cons l) as (w & ws & -> & Hw). rewrite !filter_cons. rewrite decide_True by done.
  destruct (in_word l); case_decide as Hd; cbn [length]; [lia|naive_solver|naive_solver|lia].
Qed.

(** What the loop over characters computes. *)
Lemma wc_fold l ct : 0 <= n_l ct -> 0 <= n_w ct -> 0 <= n_c ct -> n_l ct + Z.of_nat (length l) < 2 ^ 31 ->
  n_w ct + Z.of_nat (length l) < 2 ^ 31 -> n_c ct + Z.of_nat (length l) < 2 ^ 31 ->
  let ct' := foldl wc_char ct l in
  n_l ct' = n_l ct + Z.of_nat (length (filter (λ c, c = 10) l)) ∧
  n_w ct' = n_w ct + Z.of_nat (length (words l)) - (if inword ct && in_word l then 1 else 0) ∧
  n_c ct' = n_c ct + Z.of_nat (length l).
Proof.
  revert ct. induction l as [|c l IH]; intros ct H1 H2 H3 B1 B2 B3; cbn [foldl].
  { change (length (words [])) with 0%nat. cbn [length filter list_filter in_word]. rewrite andb_false_r. lia. }
  rewrite words_cons, filter_cons. cbn [length in_word] in *. set (ct1 := wc_char ct c).
  assert (n_c ct1 = n_c ct + 1 ∧ n_l ct1 = n_l ct + (if decide (c = 10) then 1 else 0) ∧
    n_w ct1 = n_w ct + (if negb (wc_is_space c) && negb (inword ct) then 1 else 0) ∧ inword ct1 = negb (wc_is_space c)) as (Ec & El & Ew & Ei).
  { unfold ct1, wc_char. fold (wc_is_space c). rewrite (i32_small (n_c ct + 1)), (i32_small (n_l ct + 1)), (i32_small (n_w ct + 1)) by lia.
    destruct (Z.eqb_spec c 10) as [->|Hne]; [rewrite decide_True by done|rewrite decide_False by done];
      destruct (wc_is_space _), (inword ct); cbn; split_and!; try done; lia. }
  assert (∀ b : bool, 0 <= (if b then 1 else 0) <= 1) as Hb by (intros []; lia). pose proof (Hb (bool_decide (c = 10))) as Hb1.
  pose proof (Hb (negb (wc_is_space c) && negb (inword ct))) as Hb2. rewrite <- (decide_bool_decide (c = 10)) in Hb1.
  destruct (IH ct1) as (-> & -> & ->); rewrite ?El, ?Ew, ?Ec; try lia.
  rewrite Ei. destruct (decide (c = 10)), (wc_is_space c), (inword ct), (in_word l); cbn [negb andb length]; lia.
Qed.

Lemma wc_chars_spec l a ct u : bytes (length l) (u_mem u) a = l -> wc_chars (length l) a ct u = Ret (foldl wc_char ct l) u.
Proof.
  revert a ct. induction l as [|c l IH]; intros a ct H; [done|]. cbn [length bytes wc_chars foldl] in *. injection H as Hc Hl.
  unfold lb. rewrite bind_gets, Hc. apply IH. by rewrite Hl.
Qed.

Lemma wc_loop_spec rounds buf ct u : Forall (λ c, 0 <= c < 256) (inp (u_os u)) -> (length (inp (u_os u)) < rounds)%nat ->
  ∃ u', wc_loop rounds buf fd ct u = Ret (0, foldl wc_char ct (inp (u_os u))) u' ∧ out (u_os u') = out (u_os u) ∧ inp (u_os u') = [].
Proof.
  revert ct u. induction rounds as [|rounds IH]; intros ct u Hr Hn; [lia|]. cbn [wc_loop].
  destruct (read_spec buf 512 u ltac:(lia) Hr) as (bs & u1 & E & Hi & Ho & Hb & Hz & Hr1). rewrite (bind_Ret _ _ _ _ _ E).
  destruct bs as [|b bs].
  { change (0 <? Z.of_nat (@length Z [])) with false. cbv iota. change (Z.of_nat (@length Z [])) with 0. exists u1. rewrite (Hz eq_refl) in Hi |- *. by split. }
  rewrite (proj2 (Z.ltb_lt 0 _)) by (cbn [length]; lia). rewrite Nat2Z.id, (bind_Ret _ _ _ _ _ (wc_chars_spec _ _ ct u1 Hb)).
  rewrite Hi, length_app in Hn. cbn [length] in Hn. destruct (IH (foldl wc_char ct (b :: bs)) u1) as (u' & E' & Ho' & Hi'); [done|lia|].
  exists u'. rewrite Hi, foldl_app. split; [exact E'|]. by rewrite Ho'.
Qed.

(** C39. [wc] prints the number of newlines, of words and of bytes of its
    input, if that has less than 2^31 bytes. *)
Theorem wc_counts rounds buf name u : Forall (λ c, 0 <= c < 256) (inp (u_os u)) -> (length (inp (u_os u)) < rounds)%nat ->
  Z.of_nat (length (inp (u_os u))) < 2 ^ 31 ->
  let l := inp (u_os u) in
  ∃ u', out (u_os u') = out (u_os u) ∧ inp (u_os u') = [] ∧
    wc rounds buf fd name u = Uprintf.printf (str "%d %d %d %s" ++ [10])
      [VInt (Z.of_nat (length (filter (λ c, c = 10) l))); VInt (Z.of_nat (length (words l))); VInt (Z.of_nat (length l)); VStr (Some name)] u'.
Proof.
  intros Hr Hn Hl l. destruct (wc_loop_spec rounds buf (mk_counts 0 0 0 false) u Hr Hn) as (u' & E & Ho & Hi). exists u'.
  split; [done|]. split; [done|]. unfold wc. rewrite (bind_Ret _ _ _ _ _ E).
  destruct (wc_fold l (mk_counts 0 0 0 false)) as (El & Ew & Ec); [cbn; fold l in Hl; lia..|]. fold l. rewrite El, Ew, Ec.
  cbn [n_l n_w n_c inword andb]. by rewrite Z.sub_0_r.
Qed.
End specs.

(** The strings of [argv]. *)
Definition args_at (m : memory) (argv : Z) (ws : list (list Z)) : Prop :=
  ∀ i w, ws !! i = Some w -> cstr m (ld64 m (argv + 8 * Z.of_nat i)) w.

(** What [echo] writes. *)
Fixpoint echoed (ws : list (list Z)) : list Z :=
  match ws with
  | [] => []
  | [w] => w ++ [10]
  | w :: ws' => w ++ [32] ++ echoed ws'
  end.
Lemma echoed_cons w ws : echoed (w :: ws) = w ++ [if decide (ws = []) then 10 else 32] ++ echoed ws.
Proof. by destruct ws. Qed.

Section echo.
Context {O : Type} {S : Sys O} (fd : Z) (inp out : O -> list Z) {St : Stream fd inp out} (fuel : nat).
Implicit Types u : user O.

Lemma echo_loop argv ws1 ws2 u : args_at (u_mem u) argv (ws1 ++ ws2) ->
  Forall (λ w, (length w < fuel)%nat ∧ Z.of_nat (length w) < 2 ^ 31) ws2 ->
  let argc := Z.of_nat (length (ws1 ++ ws2)) in
  ∃ u', for_args (length ws2) (Z.of_nat (length ws1)) argc (λ i,
    a ← arg argv i; n ← Ulib.strlen fuel a; write 1 a n ;;
    (if i + 1 <? argc then sys (os_write 1 [32]) else sys (os_write 1 [10])) ;; mret true) u = Ret () u' ∧
    out (u_os u') = out (u_os u) ++ echoed ws2.
Proof.
  revert ws1 u. induction ws2 as [|w ws2 IH]; intros ws1 u Ha Hl argc.
  { exists u. by rewrite app_nil_r. }
  cbn [length for_args]. rewrite (proj2 (Z.ltb_lt (Z.of_nat (length ws1)) argc)) by (unfold argc; rewrite length_app; cbn [length]; lia).
  apply Forall_cons in Hl as [[Hlw Hw31] Hl]. unfold arg. rewrite bind_bind, bind_gets.
  pose proof (Ha (length ws1) w ltac:(by rewrite list_lookup_middle)) as Hc. set (a := ld64 (u_mem u) (argv + 8 * Z.of_nat (length ws1))) in *.
  rewrite bind_bind, (bind_Ret _ _ _ _ _ (strlen_spec fuel a w u Hc Hlw Hw31)).
  pose proof Hc as Hc'. rewrite <- (app_nil_r w) in Hc'. destruct (cstr_split _ _ _ _ Hc') as [Hb _].
  destruct (write_spec fd inp out a w u Hb) as (u1 & E1 & Ho1 & _ & Hm1). rewrite bind_bind, (bind_Ret _ _ _ _ _ E1).
  destruct (st_write (fd := fd) (inp := inp) [if decide (ws2 = []) then 10 else 32] (u_os u1)) as (o2 & E2 & Ho2 & _).
  rewrite bind_bind, (bind_Ret _ _ u1 1 (u1 <| u_os := o2 |>)).
  2:{ assert ((Z.of_nat (length ws1) + 1 <? argc) = negb (bool_decide (ws2 = []))) as ->.
      { unfold argc. rewrite length_app. cbn [length]. destruct ws2; cbn [length]; [apply Z.ltb_ge|apply Z.ltb_lt]; lia. }
      destruct ws2; [rewrite decide_True in E2 by done|rewrite decide_False in E2 by done]; unfold sys; cbn; by rewrite E2. }
  rewrite bind_ret. change (Z.of_nat (length ws1) + 1) with (Z.of_nat (length ws1) + Z.of_nat (length [w])).
  rewrite <- Nat2Z.inj_add, <- length_app. unfold argc. rewrite (cons_middle w ws1 ws2), app_assoc.
  destruct (IH (ws1 ++ [w]) (u1 <| u_os := o2 |>)) as (u' & E' & Ho'); [|done|].
  { cbn. rewrite Hm1. by rewrite <- app_assoc. }
  exists u'. split; [exact E'|]. rewrite Ho', echoed_cons. cbn. rewrite Ho2, Ho1, <- !app_assoc. done.
Qed.

(** [echo] writes its arguments with spaces between them and a newline
    behind the last, and exits with status 0. *)
Theorem echo_prints argv prog ws u : args_at (u_mem u) argv (prog :: ws) ->
  Forall (λ w, (length w < fuel)%nat ∧ Z.of_nat (length w) < 2 ^ 31) ws ->
  ∃ u', echo_main fuel (Z.of_nat (length (prog :: ws))) argv u = Switch u' ∧ u_exit u' = Some 0 ∧
    out (u_os u') = out (u_os u) ++ echoed ws.
Proof.
  intros Ha Hl. destruct (echo_loop argv [prog] ws u Ha Hl) as (u' & E & Ho). unfold echo_main, each_arg.
  replace (Z.to_nat (Z.of_nat (length (prog :: ws)) - 1)) with (length ws) by (cbn [length]; lia).
  rewrite (bind_Ret _ _ _ _ _ E). by exists (u' <| u_exit := Some 0 |>).
Qed.
End echo.

(** *** File names *)

Section fmtname.
Context {O : Type} {S : Sys O} (fuel : nat).
Implicit Types u : user O.

Lemma last_slash_spec n path d k u : 0 <= d -> (∀ j, 0 <= j <= Z.of_nat k -> ld8 (u_mem u) (path + d + j) ≠ ch "/") ->
  d = 0 ∨ ld8 (u_mem u) (path + d - 1) = ch "/" -> (k + 2 <= n)%nat ->
  last_slash n path (path + d + Z.of_nat k) u = Ret (path + d - 1) u.
Proof.
  intros Hd Hj Hs. revert n. induction k as [|k IH]; intros [|n] Hn; try lia; cbn [last_slash];
    rewrite (proj2 (Z.leb_le path _)) by lia; unfold lb; rewrite bind_gets;
    match goal with |- context [ld8 _ (path + d + ?j)] => rewrite (proj2 (Z.eqb_neq _ _) (Hj j ltac:(lia))) end; cbn [negb].
  - rewrite Z.add_0_r. destruct n as [|n]; [lia|]. cbn [last_slash]. destruct Hs as [->|Hs].
    + rewrite Z.add_0_r. by rewrite (proj2 (Z.leb_gt path (path - 1))) by lia.
    + destruct (Z.leb_spec path (path + d - 1)); [|done]. unfold lb. by rewrite bind_gets, Hs.
  - replace (path + d + Z.of_nat (Datatypes.S k) - 1) with (path + d + Z.of_nat k) by lia. apply IH; [intros j Hj'; apply Hj; lia|lia].
Qed.

Lemma umemset_spec dst c n u : 0 <= n -> 0 <= c < 256 -> ∃ m', Ulib.memset dst c n u = Ret dst (u <| u_mem := m' |>) ∧
  ∀ b, ld8 m' b = if decide (dst <= b < dst + n) then c else ld8 (u_mem u) b.
Proof.
  intros Hn Hc. unfold Ulib.memset.
  assert (∀ k i (u : user O), 0 <= i -> ∃ m', Ulib.memset_loop k i dst c u = Ret () (u <| u_mem := m' |>) ∧
    ∀ b, ld8 m' b = if decide (dst + i <= b < dst + i + Z.of_nat k) then c else ld8 (u_mem u) b) as H.
  { clear n Hn u. induction k as [|k IH]; intros i u Hi; cbn [Ulib.memset_loop].
    - exists (u_mem u). split; [by destruct u|]. intros b. by rewrite decide_False by lia.
    - unfold sb. rewrite bind_modify. destruct (IH (i + 1) (u <| u_mem ::= λ m, st8 m (dst + i) c |>)) as (m' & -> & H); [lia|].
      exists m'. split; [done|]. intros b. rewrite H. cbn. rewrite ld8_st8. repeat case_decide; try lia; try done.
      apply Z.mod_small. lia. }
  destruct (H (Z.to_nat n) 0 u) as (m' & E & Hm); [lia|]. exists m'. rewrite (bind_Ret _ _ _ _ _ E). split; [done|].
  intros b. rewrite Hm. repeat case_decide; try lia; done.
Qed.

Lemma cstr_fill m a c k : c ≠ 0 -> (∀ b, a <= b < a + Z.of_nat k -> ld8 m b = c) -> ld8 m (a + Z.of_nat k) = 0 -> cstr m a (replicate k c).
Proof.
  intros Hc. revert a. induction k as [|k IH]; intros a Hb Hz; cbn [replicate cstr]; [by rewrite Z.add_0_r in Hz|].
  split; [apply Hb; lia|]. split; [done|]. apply IH; [intros b Hb'; apply Hb; lia|]. rewrite <- Hz. f_equal. lia.
Qed.

Lemma strcpy_spec n s t l u : cstr (u_mem u) t l -> t + Z.of_nat (length l) < s ∨ s + Z.of_nat (length l) < t -> (length l < n)%nat ->
  ∃ m', Ulib.strcpy n s t u = Ret s (u <| u_mem := m' |>) ∧ cstr m' s l ∧
    ∀ b, ¬ (s <= b <= s + Z.of_nat (length l)) -> ld8 m' b = ld8 (u_mem u) b.
Proof.
  intros Hc Hsep Hn. unfold Ulib.strcpy.
  assert (∃ m', Ulib.strcpy_loop n s t u = Ret () (u <| u_mem := m' |>) ∧ cstr m' s l ∧
    ∀ b, ¬ (s <= b <= s + Z.of_nat (length l)) -> ld8 m' b = ld8 (u_mem u) b) as (m' & E & H).
  { revert n s t u Hc Hsep Hn. induction l as [|c l IH]; intros [|n] s t u Hc Hsep Hn; try (cbn [length] in Hn; lia);
      cbn [Ulib.strcpy_loop length] in *; unfold lb, sb; rewrite bind_gets, bind_modify, (cstr_hd _ _ _ Hc); cbn [hd].
    - eexists. split; [done|]. split; [cbn; by rewrite ld8_st8, decide_True|]. intros b Hb. rewrite ld8_st8, decide_False by lia. done.
    - pose proof (cstr_range _ _ _ Hc) as [Hrng _]%Forall_cons. destruct Hc as (_ & Hne & Hc). rewrite (proj2 (Z.eqb_neq c 0)) by done. cbn [negb].
      set (u1 := u <| u_mem ::= λ m, st8 m s c |>).
      destruct (IH n (s + 1) (t + 1) u1) as (m' & E & Hc' & Hout); [|lia|lia|].
      { eapply cstr_ext; [|exact Hc]. intros b Hb. cbn. rewrite ld8_st8, decide_False by lia. done. }
      exists m'. split; [exact E|]. split; [split; [|by split]|].
      + rewrite Hout by lia. cbn. rewrite ld8_st8, decide_True by done. apply Z.mod_small. lia.
      + intros b Hb. rewrite Hout by lia. cbn. rewrite ld8_st8, decide_False by lia. done. }
  exists m'. by rewrite (bind_Ret _ _ _ _ _ E).
Qed.

(** The part of a path behind the last slash. *)
Definition base_of (s dir name : list Z) : Prop := s = dir ++ name ∧ (ch "/" ∉ name) ∧ (dir = [] ∨ ∃ d, dir = d ++ [ch "/"]).

Lemma no_slash m a l : cstr m a l -> (ch "/" ∉ l) -> ∀ j, 0 <= j <= Z.of_nat (length l) -> ld8 m (a + j) ≠ ch "/".
Proof.
  revert a. induction l as [|c l IH]; intros a Hc Hn j Hj; cbn [length] in Hj.
  - assert (j = 0) as -> by lia. rewrite Z.add_0_r. cbn in Hc. by rewrite Hc.
  - destruct Hc as (<- & _ & Hc). apply not_elem_of_cons in Hn as [Hne Hn]. destruct (decide (j = 0)) as [->|]; [rewrite Z.add_0_r; congruence|].
    replace (a + j) with (a + 1 + (j - 1)) by lia. apply IH; [done|done|lia].
Qed.

(** [fmtname] returns the last component of a path, padded with blanks to
    the length of a directory entry in the static buffer when it is shorter. *)
Theorem fmtname_pads nbuf path s dir name u : cstr (u_mem u) path s -> base_of s dir name -> 0 < path ->
  path + Z.of_nat (length s) < nbuf ∨ nbuf + DIRSIZ < path -> (length s + 2 <= fuel)%nat -> Z.of_nat (length s) < 2 ^ 31 ->
  ∃ p u', fmtname fuel nbuf path u = Ret p u' ∧
    cstr (u_mem u') p (name ++ replicate (Z.to_nat DIRSIZ - length name) 32) ∧
    (∀ b, ¬ (nbuf <= b <= nbuf + DIRSIZ) -> ld8 (u_mem u') b = ld8 (u_mem u) b) ∧ u_os u' = u_os u.
Proof.
  intros Hs (-> & Hn & Hd) Hp Hbuf Hf H31. rewrite length_app in *. unfold fmtname.
  rewrite (bind_Ret _ _ _ _ _ (strlen_spec fuel path _ u Hs ltac:(rewrite length_app; lia) ltac:(rewrite length_app; lia))), length_app.
  destruct (cstr_split _ _ _ _ Hs) as [Hbd Hname]. set (d := Z.of_nat (length dir)) in *.
  assert (last_slash fuel path (path + d + Z.of_nat (length name)) u = Ret (path + d - 1) u) as E.
  { apply last_slash_spec; [lia| | |lia].
    - intros j Hj. apply (no_slash _ _ _ Hname Hn). lia.
    - destruct Hd as [->|[d' ->]]; [by left|right]. unfold d. rewrite length_app in *. cbn [length] in *.
      destruct (cstr_split _ _ _ _ Hs) as [Hb _]. rewrite length_app, bytes_app in Hb. apply app_inj_1 in Hb as [_ Hb]; [|by rewrite length_bytes].
      injection Hb as Hb. rewrite <- Hb. f_equal. lia. }
  rewrite Nat2Z.inj_add, Z.add_assoc. fold d. rewrite (bind_Ret _ _ _ _ _ E). replace (path + d - 1 + 1) with (path + d) by lia.
  rewrite (bind_Ret _ _ _ _ _ (strlen_spec fuel (path + d) name u Hname ltac:(lia) ltac:(lia))).
  destruct (Z.leb_spec DIRSIZ (Z.of_nat (length name))) as [Hlong|Hshort].
  { exists (path + d), u. replace (Z.to_nat DIRSIZ - length name)%nat with 0%nat by lia. by rewrite app_nil_r. }
  destruct (memmove_spec nbuf (path + d) (Z.of_nat (length name)) u ltac:(lia)) as (m1 & E1 & H1). rewrite (bind_Ret _ _ _ _ _ E1).
  destruct (umemset_spec (nbuf + Z.of_nat (length name)) 32 (DIRSIZ - Z.of_nat (length name)) (u <| u_mem := m1 |>) ltac:(lia) ltac:(lia)) as (m2 & E2 & H2).
  rewrite (bind_Ret _ _ _ _ _ E2). unfold sb. rewrite bind_modify. eexists nbuf, _. split; [done|].
  change (u_mem (u <| u_mem := m1 |>)) with m1 in H2. cbn [u_os u_mem]. set (m3 := st8 m2 (nbuf + DIRSIZ) 0).
  assert (∀ b, ld8 m3 b = if decide (b = nbuf + DIRSIZ) then 0 else if decide (nbuf + Z.of_nat (length name) <= b < nbuf + DIRSIZ) then 32
    else if decide (nbuf <= b < nbuf + Z.of_nat (length name)) then ld8 (u_mem u) (path + d + (b - nbuf)) else ld8 (u_mem u) b) as H3.
  { intros b. unfold m3. rewrite ld8_st8, H2, H1. repeat case_decide; try lia; done. }
  split; [|split; [|done]].
  - change (cstr m3 nbuf (name ++ replicate (Z.to_nat DIRSIZ - length name) 32)).
    assert (nbuf + DIRSIZ < path + d ∨ path + d + Z.of_nat (length name) < nbuf) as Hap by lia.
    apply cstr_app; [by eapply cstr_nonzero| |].
    + pose proof Hname as Hb. rewrite <- (app_nil_r name) in Hb. apply cstr_split in Hb as [Hb _]. rewrite <- Hb at 2. apply bytes_shift.
      intros i Hi. rewrite H3, decide_False, decide_False, decide_True by lia. f_equal. lia.
    + apply cstr_fill; [done| |].
      * intros b Hb. by rewrite H3, decide_False, decide_True by lia.
      * rewrite H3, decide_True; [done|]. lia.
  - intros b Hb. change (ld8 m3 b = ld8 (u_mem u) b). rewrite H3. by rewrite !decide_False by lia.
Qed.
End fmtname.

(** *** Bounds of [ls] *)

Section bounds.
Context {O : Type} {S : Sys O} (fuel : nat).
(** [read] stores no more than it is asked for, and [fstat] a [struct stat]. *)
Context (Hread : ∀ fd n o, Z.of_nat (length (os_read fd n o).1.2) <= Z.max 0 n).
Context (Hfstat : ∀ fd o, (length (os_fstat fd o).1.2 <= 24)%nat).
(** The bytes that may change, and the memory at the start. *)
Context (R : Z -> Prop) (m0 : memory).
Implicit Types u : user O.

Definition inside u : Prop := ∀ b, ¬ R b -> ld8 (u_mem u) b = ld8 m0 b.
Definition range (a n : Z) : Prop := ∀ b, a <= b < a + n -> R b.

Lemma inside_eq u u' : u_mem u' = u_mem u -> inside u -> inside u'.
Proof. unfold inside. by intros ->. Qed.
Lemma keeps_sys {A} (f : O -> A * O) : keeps inside (sys f).
Proof. intros u Hu. unfold wp, sys. destruct (f (u_os u)) as [a o]. by eapply inside_eq; [|exact Hu]. Qed.
Lemma keeps_exit {A} n : keeps inside (exit (A := A) n).
Proof. intros u Hu. by eapply inside_eq; [|exact Hu]. Qed.
Lemma keeps_print fd fmt ap : keeps inside (Uprintf.vprintf fd fmt ap).
Proof.
  intros u Hu. destruct (prints fd fmt ap u) as (a & u' & E & Em & _). unfold wp. rewrite E. by eapply inside_eq.
Qed.
Lemma keeps_printf fmt ap : keeps inside (Uprintf.printf fmt ap).
Proof. apply keeps_print. Qed.
Lemma keeps_fprintf fd fmt ap : keeps inside (Uprintf.fprintf fd fmt ap).
Proof. apply keeps_print. Qed.
Lemma keeps_sb a v : R a -> keeps inside (sb a v).
Proof. intros Ha u Hu b Hb. cbn. rewrite ld8_st8, decide_False by (by intros ->). by apply Hu. Qed.
Lemma keeps_bytes a l : range a (Z.of_nat (length l)) -> keeps inside (modify (λ u, u <| u_mem ::= write_bytes a l |>)).
Proof.
  intros Ha u Hu b Hb. cbn. rewrite ld8_write_bytes. case_decide as Hd; [|by apply Hu]. destruct Hb. by apply Ha.
Qed.
Lemma keeps_umemmove dst src n : range dst n -> keeps inside (Ulib.memmove dst src n).
Proof.
  intros Hr u Hu. unfold wp. destruct (decide (0 <= n)) as [Hn|Hn].
  - destruct (memmove_spec dst src n u Hn) as (m' & -> & Hm). intros b Hb. cbn. rewrite Hm, decide_False; [by apply Hu|]. intros Hd. by apply Hb, Hr.
  - unfold Ulib.memmove. replace (Z.to_nat n) with 0%nat by lia. cbn. by destruct (dst <? src).
Qed.
Lemma keeps_umemset dst c n : 0 <= c < 256 -> 0 <= n -> range dst n -> keeps inside (Ulib.memset dst c n).
Proof.
  intros Hc Hn Hr u Hu. unfold wp. destruct (umemset_spec dst c n u Hn Hc) as (m' & -> & Hm). intros b Hb. cbn. rewrite Hm, decide_False; [by apply Hu|].
  intros Hd. by apply Hb, Hr.
Qed.
Lemma keeps_lb a : keeps inside (lb a).
Proof. apply keeps_gets. Qed.
Lemma keeps_ustr n a : keeps inside (ustr n a).
Proof. revert a. induction n; intros a; cbn [ustr]; keep; auto using keeps_lb. Qed.
Lemma keeps_strlen n a : keeps inside (Ulib.strlen n a).
Proof.
  unfold Ulib.strlen. keep. generalize 0 as i. induction n; intros i; cbn [Ulib.strlen_loop]; keep; auto using keeps_lb.
Qed.
Lemma keeps_last_slash n path p : keeps inside (last_slash n path p).
Proof. revert p. induction n; intros p; cbn [last_slash]; keep; auto using keeps_lb. Qed.
Lemma wp_strlen n a u : inside u -> wp inside (Ulib.strlen n a) (λ r u', 0 <= r ∧ inside u') u.
Proof.
  intros Hu. pose proof (keeps_strlen n a u Hu) as H. unfold Ulib.strlen, wp in *. unfold mbind, ST_bind in *.
  destruct (Ulib.strlen_loop n a 0 u); try done. split; [|done]. unfold u32. apply Z.mod_pos_bound. lia.
Qed.
Lemma wp_keeps {A B} (m : UM O A) (f : A -> UM O B) u Q : keeps inside m -> inside u -> (∀ a u', inside u' -> wp inside (f a) Q u') ->
  wp inside (m ≫= f) Q u.
Proof. intros Hm Hu Hf. apply wp_bind. eapply wp_mono; [|by apply Hm]. intros a u' Hu'. by apply Hf. Qed.

Lemma wp_Ret {A B} (m : UM O A) (f : A -> UM O B) u a u' Q : m u = Ret a u' -> wp inside (f a) Q u' -> wp inside (m ≫= f) Q u.
Proof. intros E H. unfold wp. by rewrite (bind_Ret _ _ _ _ _ E). Qed.

Lemma keeps_fmtname nbuf path : range nbuf 15 -> keeps inside (fmtname fuel nbuf path).
Proof.
  intros Hr u Hu. unfold fmtname. apply wp_keeps; [apply keeps_strlen|done|]. intros n u1 H1.
  apply wp_keeps; [apply keeps_last_slash|done|]. intros p u2 H2. apply wp_bind. eapply wp_mono; [|by apply wp_strlen].
  intros k u3 [Hk H3]. destruct (Z.leb_spec DIRSIZ k) as [Hle|Hlt]; [exact H3|]. unfold DIRSIZ in *.
  apply wp_keeps; [apply keeps_umemmove; intros b Hb; apply Hr; lia|done|]. intros _ u4 H4.
  apply wp_keeps; [apply keeps_umemset; [lia|lia|]; intros b Hb; apply Hr; lia|done|]. intros _ u5 H5.
  apply wp_keeps; [apply keeps_sb, Hr; lia|done|]. intros _ u6 H6. exact H6.
Qed.
Lemma keeps_entry nbuf path st : range nbuf 15 -> keeps inside (print_entry fuel nbuf path st).
Proof. intros Hr. unfold print_entry. keep; auto using keeps_fmtname, keeps_ustr, keeps_printf. Qed.
Lemma keeps_stat n a st : range st 24 -> keeps inside (Ulib.stat n a st).
Proof.
  intros Hr u Hu. unfold Ulib.stat. apply wp_keeps; [apply keeps_ustr|done|]. intros s u1 H1. apply wp_keeps; [apply keeps_sys|done|]. intros fd u2 H2.
  destruct (fd <? 0); [exact H2|]. apply wp_bind. unfold wp at 1, sys at 1. specialize (Hfstat fd (u_os u2)).
  destruct (os_fstat fd (u_os u2)) as [[r l] o] eqn:E. cbn [fst snd] in *.
  apply wp_keeps; [apply keeps_bytes; intros b Hb; apply Hr; lia|by eapply inside_eq; [|exact H2]|]. intros _ u3 H3.
  apply wp_keeps; [apply keeps_sys|done|]. intros _ u4 H4. exact H4.
Qed.
Lemma keeps_read fd a n : 0 <= n -> range a n -> keeps inside (read fd a n).
Proof.
  intros Hn Hr u Hu. unfold read. apply wp_bind. unfold wp at 1, sys at 1. specialize (Hread fd n (u_os u)).
  destruct (os_read fd n (u_os u)) as [[r l] o] eqn:E. cbn [fst snd] in *.
  apply wp_keeps; [apply keeps_bytes; intros b Hb; apply Hr; lia|by eapply inside_eq; [|exact Hu]|]. intros _ u1 H1. exact H1.
Qed.

Lemma keeps_entries n nbuf buf de st fd p : range nbuf 15 -> range de 16 -> range st 24 -> range p 15 ->
  keeps inside (ls_entries fuel n nbuf buf de st fd p).
Proof.
  intros Hnb Hde Hst Hp. induction n as [|n IH]; cbn [ls_entries]; keep; auto using keeps_ustr, keeps_printf, keeps_entry, keeps_stat.
  - apply keeps_read; [lia|done].
  - apply keeps_umemmove. intros b Hb. apply Hp. unfold DIRSIZ in Hb. lia.
  - apply keeps_sb, Hp. unfold DIRSIZ. lia.
Qed.

Lemma ls_inside rounds nbuf buf de st path l : cstr m0 path l -> (∀ b, path <= b <= path + Z.of_nat (length l) -> ¬ R b) ->
  (length l < fuel)%nat -> Z.of_nat (length l) < 2 ^ 31 ->
  range nbuf 15 -> range buf 512 -> range de 16 -> range st 24 -> keeps inside (ls fuel rounds nbuf buf de st path).
Proof.
  intros Hl Hap Hf H31 Hnb Hbuf Hde Hst u Hu. unfold ls.
  assert (∀ u, inside u -> cstr (u_mem u) path l) as Hpath by (intros u' Hu'; eapply cstr_ext; [|exact Hl]; intros b Hb; by apply Hu', Hap).
  apply wp_keeps; [apply keeps_ustr|done|]. intros s u1 H1. apply wp_keeps; [apply keeps_sys|done|]. intros fd u2 H2.
  destruct (fd <? 0); [by apply keeps_fprintf|]. apply wp_bind. unfold wp at 1, sys at 1. pose proof (Hfstat fd (u_os u2)) as Hfs.
  destruct (os_fstat fd (u_os u2)) as [[r bs] o] eqn:E. cbn [fst snd] in *.
  apply wp_keeps; [apply keeps_bytes; intros b Hb; apply Hst; lia|by eapply inside_eq; [|exact H2]|]. intros _ u3 H3.
  destruct (r <? 0).
  { apply wp_keeps; [apply keeps_fprintf|done|]. intros _ u4 H4. apply wp_keeps; [apply keeps_sys|done|]. intros _ u5 H5. exact H5. }
  apply wp_keeps; [apply keeps_gets|done|]. intros type u4 H4.
  assert (∀ u, inside u -> wp inside (sys (os_close fd) ;; mret ()) (λ _, inside) u) as Hclose
    by (intros u' Hu'; apply wp_keeps; [apply keeps_sys|done|]; intros _ u5 H5; exact H5).
  apply wp_bind. apply (wp_mono _ _ (λ _, inside)); [intros ? u5 H5; by apply Hclose|]. destruct (_ || _); [by apply keeps_entry|].
  destruct (type =? T_DIR); [|exact H4]. specialize (Hpath u4 H4).
  apply (wp_Ret _ _ _ _ _ _ (strlen_spec fuel path l u4 Hpath Hf H31)). rewrite u32_small by (unfold DIRSIZ; lia).
  destruct (Z.ltb_spec 512 (Z.of_nat (length l) + 1 + DIRSIZ + 1)) as [Hlong|Hfit]; [by apply keeps_printf|]. unfold DIRSIZ in Hfit.
  assert (path + Z.of_nat (length l) < buf ∨ buf + Z.of_nat (length l) < path) as Hsep.
  { destruct (decide (path + Z.of_nat (length l) < buf)); [by left|]. destruct (decide (buf + Z.of_nat (length l) < path)); [by right|]. exfalso.
    apply (Hap (Z.max path buf)); [lia|]. apply Hbuf. lia. }
  destruct (strcpy_spec fuel buf path l u4 Hpath Hsep Hf) as (m' & Ec & Hc & Hout). apply (wp_Ret _ _ _ _ _ _ Ec).
  pose proof (strlen_spec fuel buf l (u4 <| u_mem := m' |>)) as Es. change (u_mem (u4 <| u_mem := m' |>)) with m' in Es. apply (wp_Ret _ _ _ _ _ _ (Es Hc Hf H31)).
  apply wp_keeps; [apply keeps_sb, Hbuf; lia| |].
  - intros b Hb. cbn. rewrite Hout; [by apply H4|]. intros Hbb. apply Hb, Hbuf. lia.
  - intros _ u5 H5. apply keeps_entries; [done|done|done| |done]. intros b Hb. apply Hbuf. lia.
Qed.
End bounds.

(** C40. However many entries a directory has and whatever they hold, [ls] writes
    only into its own buffers. *)
Theorem ls_in_bounds {O} {S : Sys O} fuel rounds nbuf buf de st path l u :
  (∀ fd n o, Z.of_nat (length (os_read fd n o).1.2) <= Z.max 0 n) -> (∀ fd o, (length (os_fstat fd o).1.2 <= 24)%nat) ->
  let mine b := nbuf <= b < nbuf + 15 ∨ buf <= b < buf + 512 ∨ de <= b < de + 16 ∨ st <= b < st + 24 in
  cstr (u_mem u) path l -> (∀ b, path <= b <= path + Z.of_nat (length l) -> ¬ mine b) ->
  (length l < fuel)%nat -> Z.of_nat (length l) < 2 ^ 31 ->
  let u' := final (ls fuel rounds nbuf buf de st path u) in
  ∀ b, ¬ mine b -> ld8 (u_mem u') b = ld8 (u_mem u) b.
Proof.
  intros Hread Hfstat mine Hl Hap Hf H31.
  apply (keeps_final (inside mine (u_mem u)) (ls fuel rounds nbuf buf de st path)); [|done].
  eapply ls_inside; try done; intros b Hb; unfold mine; lia.
Qed.

(** ** Examples *)

Definition demo_text : list Z := str "to be or" ++ [10] ++ str "not to be" ++ [10].
Definition demo_in : user (list Z * list Z) := mk_user ∅ (demo_text, []) None.

Lemma cat_copies_witness : ∃ u', cat 100 4096 0 demo_in = Ret () u' ∧ snd (u_os u') = demo_text ∧ fst (u_os u') = [].
Proof.
  apply (cat_copies 0 fst snd 100 4096 demo_in).
  - repeat constructor; discriminate.
  - repeat constructor.
Defined.

Lemma wc_counts_witness : ∃ u', snd (u_os u') = [] ∧ fst (u_os u') = [] ∧
  wc 100 4096 0 (str "f") demo_in = Uprintf.printf (str "%d %d %d %s" ++ [10]) [VInt 2; VInt 6; VInt 19; VStr (Some (str "f"))] u'.
Proof.
  apply (wc_counts 0 fst snd 100 4096 (str "f") demo_in).
  - repeat constructor; discriminate.
  - repeat constructor.
  - reflexivity.
Defined.

(** [argv] is at 16, the strings behind it. *)
Definition demo_argv : memory :=
  st64 (st64 (st64 (write_bytes 64 (str "echo") (write_bytes 80 (str "a") (write_bytes 96 (str "/bc") ∅))) 16 64) 24 80) 32 96.
Lemma echo_prints_witness : ∃ u', echo_main 100 3 16 (mk_user demo_argv ([], []) None) = Switch u' ∧ u_exit u' = Some 0 ∧
  snd (u_os u') = str "a /bc" ++ [10].
Proof.
  apply (echo_prints 0 fst snd 100 16 (str "echo") [str "a"; str "/bc"] (mk_user demo_argv ([], []) None)).
  - intros [|[|[|i]]] w [= <-]; vm_compute; repeat split; discriminate.
  - repeat constructor.
Defined.

Lemma fmtname_pads_witness : ∃ p u', fmtname 100 4096 96 (mk_user demo_argv ([], []) None : user (list Z * list Z)) = Ret p u' ∧
  cstr (u_mem u') p (str "bc            ") ∧
  (∀ b, ¬ (4096 <= b <= 4096 + DIRSIZ) -> ld8 (u_mem u') b = ld8 demo_argv b) ∧ u_os u' = ([], []).
Proof.
  apply (fmtname_pads 100 4096 96 (str "/bc") (str "/") (str "bc") (mk_user demo_argv ([], []) None : user (list Z * list Z))).
  - vm_compute. repeat split; discriminate.
  - split; [reflexivity|]. split; [|right; exists []; reflexivity].
    intros H. apply elem_of_cons in H as [H|H]; [discriminate H|]. apply list_elem_of_singleton in H. discriminate H.
  - reflexivity.
  - left. reflexivity.
  - repeat constructor.
  - reflexivity.
Defined.

Definition demo_ls : user (list Z * list Z) := mk_user demo_argv ([], []) None.
Lemma ls_in_bounds_witness : ld8 (u_mem (final (ls 100 100 4096 5000 6000 7000 96 demo_ls))) 96 = ld8 demo_argv 96.
Proof.
  apply (ls_in_bounds 100 100 4096 5000 6000 7000 96 (str "/bc") demo_ls).
  - intros fd n o. cbn. rewrite length_take. unfold chunk. lia.
  - intros fd o. repeat constructor.
  - vm_compute. repeat split; discriminate.
  - cbn. lia.
  - repeat constructor.
  - reflexivity.
  - lia.
Defined.
