(* ===== verification/Umalloc.v ===== *)
(** * [user/umalloc.c]

    The allocator of the user library: blocks with a header of 16 bytes, the
    free ones in a ring in the order of their addresses.  [heap] describes the
    memory by the list of free blocks and the list of live ones; [malloc] and
    [free] are proved to keep live blocks apart and untouched, and to
    terminate. *)
From S2P Require Import Prelude Layout KState CString User.

Section umalloc.
Context {O : Type} {S : Sys O}.
(** The addresses of [base] and [freep]. *)
Context (base a_freep : Z).

(** ** The code *)

(** [p->s.ptr] and [p->s.size]. *)
Definition lptr (p : Z) : UM O Z := gets (λ u, ld64 (u_mem u) p).
Definition lsize (p : Z) : UM O Z := gets (λ u, ld32 (u_mem u) (p + 8)).
Definition sptr (p v : Z) : UM O () := modify (λ u, u <| u_mem ::= λ m, st64 m p v |>).
Definition ssize (p v : Z) : UM O () := modify (λ u, u <| u_mem ::= λ m, st32 m (p + 8) v |>).
Definition get_freep : UM O Z := gets (λ u, ld64 (u_mem u) a_freep).
Definition set_freep (p : Z) : UM O () := modify (λ u, u <| u_mem ::= λ m, st64 m a_freep p |>).

Definition HEADER : Z := 16.
Definition SBRK_ERROR : Z := -1.

(** [for(p = freep; !(bp > p && bp < p->s.ptr); p = p->s.ptr)]; the result is
    the final [p]. *)
Fixpoint free_scan (n : nat) (bp p : Z) : UM O Z :=
  match n with
  | 0%nat => spin
  | Datatypes.S n' =>
      q ← lptr p;
      if (p <? bp) && (bp <? q) then mret p else
      if (q <=? p) && ((p <? bp) || (bp <? q)) then mret p else
      free_scan n' bp q
  end.
Definition free (n : nat) (ap : Z) : UM O () :=
  let bp := ap - HEADER in
  p ← get_freep;
  p ← free_scan n bp p;
  s ← lsize bp;
  q ← lptr p;
  (if bp + s * HEADER =? q then
     t ← lsize q;
     ssize bp (u32 (s + t)) ;;
     r ← lptr q;
     sptr bp r
   else sptr bp q) ;;
  t ← lsize p;
  (if p + t * HEADER =? bp then
     s ← lsize bp;
     ssize p (u32 (t + s)) ;;
     r ← lptr bp;
     sptr p r
   else sptr p bp) ;;
  set_freep p.

Definition morecore (n : nat) (nu : Z) : UM O Z :=
  let nu := if nu <? 4096 then 4096 else nu in
  p ← Ulib.sbrk (i32 (nu * HEADER));
  if p =? SBRK_ERROR then mret 0 else
  ssize p nu ;;
  free n (p + HEADER) ;;
  get_freep.

(** [p->s.size >= nunits]: the block or its tail is taken. *)
Definition malloc_take (nunits prevp p sz : Z) : UM O Z :=
  p ← (if sz =? nunits then
         q ← lptr p;
         sptr prevp q ;;
         mret p
       else
         ssize p (sz - nunits) ;;
         let p := p + (sz - nunits) * HEADER in
         ssize p nunits ;;
         mret p);
  set_freep prevp ;;
  mret (p + HEADER).
Fixpoint malloc_loop (n : nat) (nunits prevp p : Z) : UM O Z :=
  match n with
  | 0%nat => spin
  | Datatypes.S n' =>
      sz ← lsize p;
      if nunits <=? sz then malloc_take nunits prevp p sz else
      fp ← get_freep;
      if p =? fp then
        p ← morecore n nunits;
        if p =? 0 then mret 0 else
        q ← lptr p;
        malloc_loop n' nunits p q
      else
        q ← lptr p;
        malloc_loop n' nunits p q
  end.
Definition malloc (n : nat) (nbytes : Z) : UM O Z :=
  let nunits := u32 ((nbytes + HEADER - 1) / HEADER + 1) in
  prevp ← get_freep;
  prevp ← (if prevp =? 0 then
             set_freep base ;;
             sptr base base ;;
             ssize base 0 ;;
             mret base
           else mret prevp);
  p ← lptr prevp;
  malloc_loop n nunits prevp p.
End umalloc.

#[local] Opaque ld64 st64 ld32 st32.

(** ** Chains *)

(** From [p] along [nx] through [l] to [e]. *)
Fixpoint path (nx : Z -> Z) (p : Z) (l : list Z) (e : Z) : Prop :=
  match l with
  | [] => nx p = e
  | a :: l' => nx p = a ∧ path nx a l' e
  end.

Lemma path_app nx p l a l' e : path nx p (l ++ a :: l') e <-> path nx p l a ∧ path nx a l' e.
Proof. revert p. induction l as [|b l IH]; intros p; cbn; [done|]. rewrite IH. tauto. Qed.
Lemma path_ext nx nx' p l e : (∀ x, x ∈ p :: l -> nx' x = nx x) -> path nx p l e -> path nx' p l e.
Proof.
  revert p. induction l as [|b l IH]; intros p H; cbn.
  - rewrite H by left. done.
  - intros [E Hp]. split; [rewrite H; [done|left]|]. apply IH; [|done]. intros x Hx. apply H. by right.
Qed.
Lemma path_hd nx p l e : path nx p l e -> nx p = hd e l.
Proof. destruct l; cbn; tauto. Qed.
(** The last node of the chain. *)
Fixpoint last_of (p : Z) (l : list Z) : Z := match l with [] => p | a :: l' => last_of a l' end.
Lemma last_of_in p l : last_of p l ∈ p :: l.
Proof. revert p. induction l as [|b l IH]; intros p; cbn; [left|right; apply IH]. Qed.
Lemma last_of_snoc p l a : last_of p (l ++ [a]) = a.
Proof. revert p. induction l as [|b l IH]; intros p; cbn; [done|apply IH]. Qed.
Lemma last_of_app p l a l' : last_of p (l ++ a :: l') = last_of a l'.
Proof. revert p. induction l as [|b l IH]; intros p; cbn; [done|apply IH]. Qed.
Lemma last_of_cases p l : (l = [] ∧ last_of p l = p) ∨ ∃ l' a, l = l' ++ [a] ∧ last_of p l = a.
Proof.
  induction l as [|a l IH] using rev_ind; [by left|]. right. exists l, a. split; [done|]. apply last_of_snoc.
Qed.
Lemma path_split nx p l l' e : path nx p (l ++ l') e -> path nx p l (hd e l').
Proof. destruct l' as [|a l']; [by rewrite app_nil_r|]. by intros [? _]%path_app. Qed.
Lemma path_end nx p l e : path nx p l e -> nx (last_of p l) = e.
Proof. revert p. induction l as [|b l IH]; intros p; cbn; [done|]. intros [_ H]. by apply IH. Qed.
(** Redirecting the last link. *)
Lemma path_last nx nx' p l e e' : path nx p l e -> NoDup (p :: l) ->
  (∀ x, x ∈ p :: l -> x ≠ last_of p l -> nx' x = nx x) -> nx' (last_of p l) = e' -> path nx' p l e'.
Proof.
  revert p. induction l as [|b l IH]; intros p Hp Hn Hx He; cbn in *; [done|]. destruct Hp as [E Hp].
  apply NoDup_cons in Hn as [Hni Hn]. split.
  - rewrite Hx; [done|left|]. intros ->. by apply Hni, last_of_in.
  - apply IH; [done..| |done]. intros x Hxi Hne. apply Hx; [by right|done].
Qed.

Lemma path_next nx p l e y : path nx p l e -> y ∈ p :: l -> nx y ∈ l ∨ nx y = e.
Proof.
  revert p. induction l as [|a l IH]; intros p Hp Hy; cbn in Hp.
  - apply list_elem_of_singleton in Hy as ->. by right.
  - destruct Hp as [E Hp]. apply elem_of_cons in Hy as [->|Hy]; [rewrite E; left; left|].
    destruct (IH a Hp Hy) as [?|?]; [left; by right|by right].
Qed.
(** A node's predecessor. *)
Lemma path_pred nx p l e y : path nx p l e -> NoDup (p :: l) -> e ∉ l -> y ∈ p :: l -> nx y ∈ l ->
  ∃ l1 l2, l = l1 ++ nx y :: l2 ∧ y = last_of p l1.
Proof.
  revert p. induction l as [|a l IH]; intros p Hp Hn He Hy Hx; [by apply not_elem_of_nil in Hx|]. cbn in Hp. destruct Hp as [E Hp].
  apply NoDup_cons in Hn as [_ Hn]. apply elem_of_cons in Hy as [->|Hy]; [exists [], l; by rewrite E|].
  apply not_elem_of_cons in He as [Hea He]. pose proof (path_next _ _ _ _ _ Hp Hy) as Hyn.
  assert (nx y ∈ l) as Hyl.
  { destruct Hyn as [?|Hye]; [done|]. rewrite Hye in Hx. apply elem_of_cons in Hx as [?|?]; done. }
  destruct (IH a Hp Hn He Hy Hyl) as (l1 & l2 & -> & ->). by exists (a :: l1), l2.
Qed.
(** The ring, seen from any of its nodes. *)
Lemma path_rotate nx p l x : path nx p l p -> x ∈ p :: l -> ∃ r, path nx x r x ∧ x :: r ≡ₚ p :: l.
Proof.
  intros Hp [->|Hx]%elem_of_cons; [by exists l|]. apply list_elem_of_split in Hx as (l1 & l2 & ->).
  apply path_app in Hp as [H1 H2]. exists (l2 ++ p :: l1). split; [by apply path_app|].
  apply (Permutation_app_comm (x :: l2) (p :: l1)).
Qed.

(** ** The heap *)

Definition block : Type := Z * Z. (* address and size in units *)
Definition stop (b : block) : Z := b.1 + 16 * b.2.
Definition disj (x y : block) : Prop := stop x <= y.1 ∨ stop y <= x.1.
Fixpoint pairwise (l : list block) : Prop :=
  match l with
  | [] => True
  | x :: l' => Forall (disj x) l' ∧ pairwise l'
  end.

(** Blocks in the order of their addresses between [lo] and [hi]. *)
Fixpoint ordered (lo hi : Z) (l : list block) : Prop :=
  match l with
  | [] => lo <= hi
  | b :: l' => lo <= b.1 ∧ 1 <= b.2 ∧ ordered (stop b) hi l'
  end.

Lemma ordered_le lo hi l : ordered lo hi l -> lo <= hi.
Proof. revert lo. induction l as [|b l IH]; intros lo; cbn; [done|]. intros (? & ? & H). apply IH in H. unfold stop in *. lia. Qed.
Lemma ordered_app lo hi l l' : ordered lo hi (l ++ l') <-> ∃ mid, ordered lo mid l ∧ ordered mid hi l'.
Proof.
  revert lo. induction l as [|b l IH]; intros lo; cbn.
  - split; [intros H; by exists lo|]. intros (mid & Hm & H). destruct l' as [|b l']; cbn in *; [lia|].
    destruct H as (? & ? & ?). split; [lia|done].
  - rewrite IH. naive_solver.
Qed.
Lemma ordered_weaken lo lo' hi hi' l : ordered lo hi l -> lo' <= lo -> hi <= hi' -> ordered lo' hi' l.
Proof.
  revert lo lo'. induction l as [|b l IH]; intros lo lo'; cbn; [lia|]. intros (? & ? & H) Hl Hh. split; [lia|]. split; [done|].
  by eapply IH.
Qed.
Lemma ordered_in lo hi l b : ordered lo hi l -> b ∈ l -> lo <= b.1 ∧ 1 <= b.2 ∧ stop b <= hi.
Proof.
  revert lo. induction l as [|c l IH]; intros lo; cbn; [by intros _ ?%not_elem_of_nil|]. intros (? & ? & H) [->|Hin]%elem_of_cons.
  - apply ordered_le in H. done.
  - destruct (IH _ H Hin) as (? & ? & ?). unfold stop in *. split; [lia|done].
Qed.

(** The place of a block among others. *)
Lemma ordered_place lo hi l b : ordered lo hi l -> Forall (disj b) l -> lo <= b.1 -> 1 <= b.2 -> stop b <= hi ->
  ∃ l1 l2, l = l1 ++ l2 ∧ ordered lo b.1 l1 ∧ ordered (stop b) hi l2.
Proof.
  intros Ho Hd. revert lo Ho. induction Hd as [|c l Hc Hd IH]; intros lo Ho Hlo Hs Hhi.
  - exists [], []. cbn. done.
  - destruct Ho as (Hl & Hs' & Ho). destruct Hc as [Hc|Hc].
    + exists [], (c :: l). split; [done|]. cbn. done.
    + destruct (IH _ Ho) as (l1 & l2 & -> & H1 & H2); [done..|]. exists (c :: l1), l2. done.
Qed.

(** Ascending addresses. *)
Fixpoint asc (x : Z) (r : list Z) : Prop :=
  match r with
  | [] => True
  | y :: r' => x < y ∧ asc y r'
  end.
Lemma asc_app x r y r' : asc x (r ++ y :: r') -> asc x r ∧ asc y r' ∧ last_of x r < y.
Proof. revert x. induction r as [|z r IH]; intros x; cbn; [tauto|]. intros [? H]. destruct (IH _ H). tauto. Qed.
Lemma ordered_asc x lo hi l : ordered lo hi l -> x < lo -> asc x (fst <$> l).
Proof.
  revert x lo. induction l as [|b l IH]; intros x lo; cbn; [done|]. intros (? & ? & H) Hx. split; [lia|].
  apply (IH _ (stop b)); [done|]. unfold stop. lia.
Qed.
Lemma asc_lt x r y : asc x r -> y ∈ r -> x < y.
Proof.
  revert x. induction r as [|z r IH]; intros x; cbn; [by intros _ ?%not_elem_of_nil|]. intros [? H] [->|Hin]%elem_of_cons; [done|].
  specialize (IH _ H Hin). lia.
Qed.
Lemma asc_last x r y : asc x r -> y ∈ x :: r -> y <= last_of x r.
Proof.
  revert x y. induction r as [|z r IH]; intros x y; cbn; [by intros _ ->%list_elem_of_singleton|].
  intros [? H] [->|Hin]%elem_of_cons; [|by apply IH]. specialize (IH z z H (list_elem_of_here _ _)). lia.
Qed.
Lemma asc_nodup x r : asc x r -> NoDup (x :: r).
Proof.
  revert x. induction r as [|z r IH]; intros x H; [apply NoDup_singleton|]. constructor; [|by apply IH, H].
  intros Hin. pose proof (asc_lt _ _ _ H Hin). lia.
Qed.

Section scan.
Context {O : Type} {S : Sys O} (base bp : Z) (Hbase : base < bp).
Implicit Types u : user O.

(** From a node before the block: to the last such node. *)
Lemma scan_low u r x n e : path (ld64 (u_mem u)) x r e -> (∀ y, y ∈ x :: r -> base <= y < bp) -> asc x r ->
  bp < e ∨ e = base -> (length r < n)%nat -> free_scan n bp x u = Ret (last_of x r) u.
Proof.
  revert x n. induction r as [|y r IH]; intros x [|n] Hp Hlt Ha He Hn; try (cbn [length] in Hn; lia); cbn [free_scan];
    unfold lptr; rewrite bind_gets; cbn in Hp.
  - rewrite Hp. specialize (Hlt x (list_elem_of_here _ _)). rewrite (proj2 (Z.ltb_lt x bp)) by lia. cbn [andb orb]. destruct He as [He| ->].
    + by rewrite (proj2 (Z.ltb_lt bp e)) by lia.
    + rewrite (proj2 (Z.ltb_ge bp base)), (proj2 (Z.leb_le base x)) by lia. done.
  - destruct Hp as [Hx Hp]. rewrite Hx. destruct Ha as [Hxy Ha]. pose proof (Hlt y (list_elem_of_further _ _ _ (list_elem_of_here _ _))).
    rewrite (proj2 (Z.ltb_ge bp y)), andb_false_r, (proj2 (Z.leb_gt y x)) by lia. cbn [andb last_of].
    apply IH; [done| |done|done|cbn [length] in Hn; lia]. intros z Hz. apply Hlt. by right.
Qed.

(** From a node behind the block: on to the start. *)
Lemma scan_high u r x n : path (ld64 (u_mem u)) x r base -> bp < x -> asc x r ->
  free_scan (Datatypes.S (length r) + n) bp x u = free_scan n bp base u.
Proof.
  revert x. induction r as [|y r IH]; intros x Hp Hx Ha; cbn [free_scan length Nat.add]; unfold lptr; rewrite bind_gets; cbn in Hp.
  - rewrite Hp. rewrite (proj2 (Z.ltb_ge x bp)), (proj2 (Z.ltb_ge bp base)) by lia. cbn [andb orb]. by rewrite andb_false_r.
  - destruct Hp as [-> Hp]. destruct Ha as [Hxy Ha]. rewrite (proj2 (Z.ltb_ge x bp)), (proj2 (Z.leb_gt y x)) by lia. cbn [andb].
    apply IH; [done|lia|done].
Qed.

Lemma scan_spec u r1 r2 x n : path (ld64 (u_mem u)) base (r1 ++ r2) base -> asc base (r1 ++ r2) ->
  (∀ y, y ∈ r1 -> y < bp) -> (∀ y, y ∈ r2 -> bp < y) -> x ∈ base :: r1 ++ r2 -> (length (r1 ++ r2) + 2 <= n)%nat ->
  free_scan n bp x u = Ret (last_of base r1) u.
Proof.
  intros Hp Ha H1 H2 Hx Hn. rewrite length_app in Hn.
  assert (∃ e, path (ld64 (u_mem u)) base r1 e ∧ (bp < e ∨ e = base)) as (e & Hp1 & He).
  { destruct r2 as [|y r2]; [rewrite app_nil_r in Hp; exists base; auto|]. apply path_app in Hp as [Hp _].
    exists y. split; [done|]. left. apply H2. left. }
  assert (asc base r1) as Ha1 by (destruct r2 as [|y r2]; [by rewrite app_nil_r in Ha|by apply asc_app in Ha as [Ha _]]).
  assert (∀ n, (length r1 < n)%nat -> free_scan n bp base u = Ret (last_of base r1) u) as Hlow.
  { intros n' Hn'. apply (scan_low u r1 base n' e); try done. intros y [->|Hy]%elem_of_cons; [lia|].
    pose proof (asc_lt _ _ _ Ha1 Hy). specialize (H1 y Hy). lia. }
  rewrite app_comm_cons in Hx. apply elem_of_app in Hx as [[->|Hx]%elem_of_cons|Hx].
  - apply Hlow. lia.
  - apply list_elem_of_split in Hx as (s & t & ->). apply path_app in Hp1 as [_ Hp1].
    destruct (asc_app _ _ _ _ Ha1) as (_ & Ha2 & _).
    rewrite last_of_app, (scan_low u t x n e); [done..| |done|done|rewrite length_app in Hn; cbn in Hn; lia].
    intros y Hy. split; [|apply H1; apply elem_of_app; by right].
    apply Z.lt_le_incl, (asc_lt base (s ++ x :: t)); [done|]. apply elem_of_app. by right.
  - apply list_elem_of_split in Hx as (s & t & ->). rewrite app_assoc in Hp, Ha. apply path_app in Hp as [_ Hp].
    apply asc_app in Ha as (_ & Ha & _). rewrite length_app in Hn. cbn [length] in Hn.
    replace n with (Datatypes.S (length t) + (n - Datatypes.S (length t)))%nat by lia.
    rewrite scan_high; [apply Hlow; lia|done|apply H2, elem_of_app; right; left|done].
Qed.
End scan.

(** ** The system call *)

(** What [sbrk] promises: the new memory begins at the old break, or there is
    none to have.  The machine's memory is far below [2 ^ 34] bytes. *)
Class Brk {O : Type} {S : Sys O} (brk : O -> Z) : Prop := brk_law n o : 0 <= n < 2 ^ 31 ->
  (∃ o', os_sbrk n SBRK_EAGER o = (SBRK_ERROR, o') ∧ brk o' = brk o) ∨
  (∃ o', os_sbrk n SBRK_EAGER o = (brk o, o') ∧ brk o' = brk o + n ∧ brk o' <= 2 ^ 34).

(** No memory for [n] more units; a request asks for 4096 units at least. *)
Definition no_more {O : Type} {S : Sys O} (n : Z) (o : O) : Prop :=
  ∃ o', os_sbrk (Z.max 4096 n * HEADER) SBRK_EAGER o = (SBRK_ERROR, o').
(** Memory for [n] more units. *)
Definition grown {O : Type} {S : Sys O} (brk : O -> Z) (n : Z) (o o' : O) : Prop :=
  os_sbrk (Z.max 4096 n * HEADER) SBRK_EAGER o = (brk o, o').
(** The units of a block for [nbytes], its header included. *)
Definition units (nbytes : Z) : Z := (nbytes + HEADER - 1) / HEADER + 1.

(** ** [free] *)

(** The effect of [free] on memory, once the place is found. *)
Definition right_mem (bp p : Z) (m : memory) : memory :=
  let s := ld32 m (bp + 8) in
  let q := ld64 m p in
  if bp + s * HEADER =? q then
    let m' := st32 m (bp + 8) (u32 (s + ld32 m (q + 8))) in
    st64 m' bp (ld64 m' q)
  else st64 m bp q.
Definition left_mem (bp p : Z) (m : memory) : memory :=
  let t := ld32 m (p + 8) in
  if p + t * HEADER =? bp then
    let m' := st32 m (p + 8) (u32 (t + ld32 m (bp + 8))) in
    st64 m' p (ld64 m' bp)
  else st64 m p bp.

Lemma free_eq {O} {S : Sys O} a_freep n bp p (u : user O) : free_scan n bp (ld64 (u_mem u) a_freep) u = Ret p u ->
  free a_freep n (bp + HEADER) u =
    Ret () (u <| u_mem := st64 (left_mem bp p (right_mem bp p (u_mem u))) a_freep p |>).
Proof.
  intros E. unfold free, get_freep. rewrite bind_gets. replace (bp + HEADER - HEADER) with bp by lia.
  rewrite (bind_Ret _ _ _ _ _ E). unfold lsize, lptr, ssize, sptr, set_freep, right_mem.
  unfold mbind, ST_bind, gets, modify. destruct (bp + ld32 (u_mem u) (bp + 8) * HEADER =? ld64 (u_mem u) p); cbn;
    unfold left_mem; match goal with |- context [if ?b then _ else _] => destruct b end; done.
Qed.

Definition apart (x y : Z) : Prop := x + 16 <= y ∨ y + 16 <= x.
Lemma ordered_apart lo hi l x y : ordered lo hi l -> x ∈ fst <$> l -> y ∈ fst <$> l -> x ≠ y -> apart x y.
Proof.
  revert lo. induction l as [|b l IH]; intros lo; cbn; [by intros _ ?%not_elem_of_nil|]. intros (Hl & Hs & Ho) Hx Hy Hne.
  assert (∀ z, z ∈ fst <$> l -> apart b.1 z) as Hb.
  { intros z (c & -> & Hc)%list_elem_of_fmap. destruct (ordered_in _ _ _ _ Ho Hc) as (? & _). left. unfold stop in *. lia. }
  apply elem_of_cons in Hx as [->|Hx], Hy as [->|Hy]; [done|by apply Hb| |by eapply IH].
  destruct (Hb x Hx); [by right|by left].
Qed.

Section heap.
Context (base a_freep lo : Z).
Context (Hlo : base + 16 <= lo) (Hbase : 0 < base) (Hcell : 0 <= a_freep).
Context (Hfp : a_freep + 8 <= base ∨ base + 16 <= a_freep ∧ a_freep + 8 <= lo).

(** The bytes that are the program's: those of its live blocks, and below the
    heap those of its other variables. *)
Definition mine (al : list block) (b : Z) : Prop :=
  (∃ c, c ∈ al ∧ c.1 <= b < stop c) ∨ b < lo ∧ ¬ (base <= b < base + 16) ∧ ¬ (a_freep <= b < a_freep + 8).
(** They do not change. *)
Definition kept (al : list block) (m m' : memory) : Prop := ∀ b, mine al b -> ld8 m' b = ld8 m b.

Record live (m : memory) (top : Z) (fl al : list block) : Prop := {
  lv_in b : b ∈ al -> lo <= b.1 ∧ 1 <= b.2 ∧ stop b <= top ∧ ld32 m (b.1 + 8) = b.2;
  lv_disj x y : x ∈ al -> y ∈ fl -> disj x y;
  lv_pair : pairwise al;
}.

(** The free blocks [fl] are in the ring and the blocks [al] are in use. *)
Record ringed (m : memory) (top : Z) (fl al : list block) : Prop := {
  hp_ring : path (ld64 m) base (fst <$> fl) base;
  hp_order : ordered lo top fl;
  hp_size b : b ∈ fl -> ld32 m (b.1 + 8) = b.2;
  hp_base : ld32 m (base + 8) = 0;
  hp_live : live m top fl al;
}.
Definition heap (m : memory) (top : Z) (fl al : list block) : Prop :=
  ringed m top fl al ∧ ld64 m a_freep ∈ base :: (fst <$> fl).

Lemma kept_trans al m1 m2 m3 : kept al m1 m2 -> kept al m2 m3 -> kept al m1 m3.
Proof. intros H1 H2 b Hb. by rewrite (H2 b), (H1 b). Qed.
Lemma kept_sub al al' m m' : al ⊆ al' -> kept al' m m' -> kept al m m'.
Proof. intros Hs H b Hb. apply H. destruct Hb as [(c & Hc & Hb)|Hb]; [left; exists c; auto|by right]. Qed.

Lemma live_kept m m' top fl al : kept al m m' -> live m top fl al -> live m' top fl al.
Proof.
  intros Hk [L1 L2 L3]. split; [|done|done]. intros b Hb. destruct (L1 b Hb) as (H1 & H2 & H3 & H4).
  split; [done|]. split; [done|]. split; [done|]. rewrite <- H4. apply ld32_ext. intros x Hx. apply Hk. left.
  exists b. split; [done|]. unfold stop. lia.
Qed.

(** A header that is not in a live block. *)
Definition clear (al : list block) (x : Z) : Prop := (x = base ∨ lo <= x) ∧ ∀ c, c ∈ al -> x + 16 <= c.1 ∨ stop c <= x.
Lemma clear_mine al x b : clear al x -> mine al b -> ¬ (x <= b < x + 16).
Proof. intros [Hx Hc] [(c & Hin & Hb)|Hb]; [destruct (Hc c Hin); lia|destruct Hx; lia]. Qed.
Lemma kept_st64 al m x v : clear al x -> kept al m (st64 m x v).
Proof. intros Hx b Hb. apply ld8_st64_out. pose proof (clear_mine _ _ _ Hx Hb). lia. Qed.
Lemma kept_st32 al m x v : clear al x -> kept al m (st32 m (x + 8) v).
Proof. intros Hx b Hb. apply ld8_st32_ne. pose proof (clear_mine _ _ _ Hx Hb). lia. Qed.
Lemma kept_freep m top fl al v : live m top fl al -> kept al m (st64 m a_freep v).
Proof. intros Hl b [(c & Hc & Hb)|Hb]; apply ld8_st64_out; [destruct (lv_in _ _ _ _ Hl c Hc)|]; lia. Qed.

Lemma clear_base m top fl al : live m top fl al -> clear al base.
Proof. intros Hl. split; [by left|]. intros c Hc. destruct (lv_in _ _ _ _ Hl c Hc). lia. Qed.
Lemma clear_block m top fl al b : live m top fl al -> b ∈ fl -> lo <= b.1 -> 1 <= b.2 -> clear al b.1.
Proof. intros Hl Hb Hlb Hs. split; [by right|]. intros c Hc. destruct (lv_disj _ _ _ _ Hl c b Hc Hb); unfold stop in *; lia. Qed.

Lemma disj_sym x y : disj x y -> disj y x.
Proof. intros [?|?]; [by right|by left]. Qed.
Lemma pairwise_disj x l y : pairwise (x :: l) -> y ∈ l -> disj x y.
Proof. intros [H _] Hy. by apply (proj1 (Forall_forall _ _) H). Qed.

Lemma pairwise_in l x y : pairwise l -> x ∈ l -> y ∈ l -> x ≠ y -> disj x y.
Proof.
  induction l as [|z l IH]; [by intros _ ?%not_elem_of_nil|]. intros Hp. pose proof Hp as [_ Hl].
  intros [->|Hx]%elem_of_cons [->|Hy]%elem_of_cons Hne; [done|by eapply pairwise_disj|apply disj_sym; by eapply pairwise_disj|by apply IH].
Qed.

(** The program writes into a block it has. *)
Lemma heap_write m m' top fl al a : heap m top fl al -> a ∈ al ->
  (∀ b, ¬ (a.1 + 16 <= b < stop a) -> ld8 m' b = ld8 m b) -> heap m' top fl al.
Proof.
  intros [[R1 R2 R3 R4 R5] Hf] Ha H. pose proof R5 as [L1 L2 L3]. destruct (L1 a Ha) as (Ha1 & Ha2 & _).
  assert (∀ x, base = x ∨ x ∈ fst <$> fl -> ld64 m' x = ld64 m x ∧ ld32 m' (x + 8) = ld32 m (x + 8)) as Hx.
  { intros x Hx. assert (x + 16 <= a.1 ∨ stop a <= x) as Hd.
    { destruct Hx as [<-|(c & -> & Hc)%list_elem_of_fmap]; [lia|]. pose proof (ordered_in _ _ _ _ R2 Hc) as (_ & Hc2 & _).
      destruct (L2 a c Ha Hc); unfold stop in *; lia. }
    split; [apply ld64_ext|apply ld32_ext]; intros b Hb; apply H; unfold stop in *; lia. }
  split; [split|].
  - eapply path_ext; [|exact R1]. intros x [->|Hin]%elem_of_cons; apply Hx; [by left|by right].
  - done.
  - intros b Hb. rewrite (proj2 (Hx b.1 ltac:(right; by apply list_elem_of_fmap_2))). by apply R3.
  - rewrite (proj2 (Hx base ltac:(by left))). done.
  - split; [|done|done]. intros b Hb. destruct (L1 b Hb) as (? & ? & ? & Hz). split; [done|]. split; [done|]. split; [done|].
    rewrite <- Hz. apply ld32_ext. intros x Hxb. apply H.
    destruct (decide (a = b)) as [->|Hne]; [lia|]. destruct (pairwise_in _ _ _ L3 Ha Hb Hne); unfold stop in *; lia.
  - rewrite (ld64_ext m' m); [done|]. intros x Hxb. apply H. lia.
Qed.

(** The block [b] between the free blocks [f1] and [f2], with its link set. *)
Record loose (m : memory) (top : Z) (f1 : list block) (b : block) (f2 al : list block) : Prop := {
  ls_low : ∃ e, path (ld64 m) base (fst <$> f1) e;
  ls_high : path (ld64 m) b.1 (fst <$> f2) base;
  ls_order : ordered lo top (f1 ++ b :: f2);
  ls_size c : c ∈ f1 ++ b :: f2 -> ld32 m (c.1 + 8) = c.2;
  ls_base : ld32 m (base + 8) = 0;
  ls_live : live m top (f1 ++ b :: f2) al;
}.

(** Headers of the ring and of the block do not overlap. *)
Lemma headers_apart lo' hi l x y : ordered lo' hi l -> base + 16 <= lo' -> x ∈ base :: (fst <$> l) -> y ∈ base :: (fst <$> l) ->
  x ≠ y -> apart x y.
Proof.
  intros Ho Hl Hx Hy Hne.
  assert (∀ z, z ∈ fst <$> l -> base + 16 <= z) as Hz.
  { intros z (c & -> & Hc)%list_elem_of_fmap. destruct (ordered_in _ _ _ _ Ho Hc). lia. }
  apply elem_of_cons in Hx as [->|Hx], Hy as [->|Hy]; [done|left; by apply Hz|right; by apply Hz|].
  by apply (ordered_apart lo' hi l).
Qed.

(** Writing a header leaves the others alone. *)
Lemma other_headers m x v w y : apart x y ->
  ld64 (st64 m x v) y = ld64 m y ∧ ld32 (st64 m x v) (y + 8) = ld32 m (y + 8) ∧
  ld64 (st32 m (x + 8) w) y = ld64 m y ∧ ld32 (st32 m (x + 8) w) (y + 8) = ld32 m (y + 8).
Proof.
  intros H. split; [apply ld64_st64_ne|split; [apply ld32_st64_ne|split; [apply ld64_st32_ne|apply ld32_st32_ne]]]; destruct H; lia.
Qed.
Lemma own_header m x v w : ld32 (st64 m x v) (x + 8) = ld32 m (x + 8) ∧ ld64 (st32 m (x + 8) w) x = ld64 m x.
Proof. split; [apply ld32_st64_ne|apply ld64_st32_ne]; lia. Qed.

(** Only the header of [b] has been written. *)
Lemma loose_intro m m' top f1 b f2 al e : path (ld64 m) base (fst <$> f1) e ->
  path (ld64 m) (hd base (fst <$> f2)) (tl (fst <$> f2)) base ∨ f2 = [] ->
  ordered lo b.1 f1 -> 1 <= b.2 -> ordered (stop b) top f2 -> (∀ c, c ∈ f1 ++ f2 -> ld32 m (c.1 + 8) = c.2) ->
  ld32 m (base + 8) = 0 -> live m top (f1 ++ b :: f2) al -> kept al m m' ->
  (∀ x, x ≠ b.1 -> apart b.1 x -> ld64 m' x = ld64 m x ∧ ld32 m' (x + 8) = ld32 m (x + 8)) ->
  ld64 m' b.1 = hd base (fst <$> f2) -> ld32 m' (b.1 + 8) = b.2 -> loose m' top f1 b f2 al.
Proof.
  intros Hp1 Hp2 H1 Hb H2 Hs Hz Hl Hk Hm Hp Hsz.
  assert (ordered lo top (f1 ++ b :: f2)) as Ho by (apply ordered_app; exists b.1; split; [done|]; cbn; split; [lia|done]).
  assert (∀ x, x ∈ base :: (fst <$> f1 ++ b :: f2) -> x ≠ b.1 -> ld64 m' x = ld64 m x ∧ ld32 m' (x + 8) = ld32 m (x + 8)) as Hx.
  { intros x Hx Hne. apply Hm; [done|]. apply (headers_apart lo top (f1 ++ b :: f2)); try done.
    right. rewrite fmap_app. apply elem_of_app. right. left. }
  assert (∀ x, x ∈ base :: (fst <$> f1) -> x ∈ base :: (fst <$> f1 ++ b :: f2) ∧ x < b.1) as Hlow.
  { intros x [->|Hin]%elem_of_cons; [split; [left|apply ordered_le in H1; lia]|].
    split; [right; rewrite fmap_app; apply elem_of_app; by left|].
    apply list_elem_of_fmap in Hin as (c & -> & Hc). destruct (ordered_in _ _ _ _ H1 Hc). unfold stop in *. lia. }
  assert (∀ x, x ∈ fst <$> f2 -> x ∈ base :: (fst <$> f1 ++ b :: f2) ∧ b.1 < x) as Hhigh.
  { intros x Hin. split; [right; rewrite fmap_app; apply elem_of_app; right; by right|].
    apply list_elem_of_fmap in Hin as (c & -> & Hc). destruct (ordered_in _ _ _ _ H2 Hc). unfold stop in *. lia. }
  split; [|..|done| | |by eapply live_kept].
  - exists e. eapply path_ext; [|exact Hp1]. intros x Hin. destruct (Hlow x Hin). apply Hx; [done|lia].
  - destruct f2 as [|c f2]; [done|]. destruct Hp2 as [Hp2|?]; [|done]. cbn in *. split; [done|].
    eapply path_ext; [|exact Hp2]. intros x Hin. destruct (Hhigh x Hin). apply Hx; [done|lia].
  - intros c [Hc|[->|Hc]%elem_of_cons]%elem_of_app; [| done|].
    + rewrite <- Hs by (apply elem_of_app; by left). destruct (Hlow c.1); [right; by apply list_elem_of_fmap_2|]. apply Hx; [done|lia].
    + rewrite <- Hs by (apply elem_of_app; by right). destruct (Hhigh c.1); [by apply list_elem_of_fmap_2|]. apply Hx; [done|lia].
  - rewrite <- Hz. destruct (Hlow base); [left|]. apply Hx; [done|lia].
Qed.

(** A freed block, as part of the free list. *)
Lemma live_freed m top fl b al : live m top fl (b :: al) -> live m top (b :: fl) al.
Proof.
  intros [L1 L2 [L3 L4]]. split; [| |done].
  - intros c Hc. apply L1. by right.
  - intros x y Hx [->|Hy]%elem_of_cons; [|apply L2; [by right|done]].
    destruct (proj1 (Forall_forall _ _) L3 x Hx); [by right|by left].
Qed.
Lemma live_perm m top fl fl' al : fl ≡ₚ fl' -> live m top fl al -> live m top fl' al.
Proof. intros Hp [L1 L2 L3]. split; [done| |done]. intros x y Hx Hy. apply L2; [done|]. by rewrite Hp. Qed.
(** Two adjacent free blocks become one. *)
Lemma live_merge m top fl b c al : stop b = c.1 -> 1 <= b.2 -> 1 <= c.2 -> live m top (b :: c :: fl) al ->
  live m top ((b.1, b.2 + c.2) :: fl) al.
Proof.
  intros E Hb Hc [L1 L2 L3]. split; [done| |done]. intros x y Hx [->|Hy]%elem_of_cons.
  - pose proof (L2 x b Hx ltac:(left)) as H1. pose proof (L2 x c Hx ltac:(right; left)) as H2. destruct (L1 x Hx) as (_ & Hs & _).
    unfold disj, stop in *. cbn. lia.
  - apply L2; [done|]. right. by right.
Qed.

Lemma right_loose m top f1 b f2 al : top <= 2 ^ 34 -> heap m top (f1 ++ f2) (b :: al) ->
  ordered lo b.1 f1 -> ordered (stop b) top f2 ->
  let m' := right_mem b.1 (last_of base (fst <$> f1)) m in
  ∃ b' f2', loose m' top f1 b' f2' al ∧ b'.1 = b.1 ∧ kept al m m' ∧ b.2 <= b'.2 ∧ (length f2' <= length f2)%nat.
Proof.
  intros Htop [[Hr Ho Hs Hz Hl] Hf] H1 H2 m'. rewrite fmap_app in Hr. pose proof (path_split _ _ _ _ _ Hr) as Hr1.
  pose proof (lv_in _ _ _ _ Hl b (list_elem_of_here _ _)) as (Hblo & Hb1 & Hbt & Hbs).
  apply live_freed in Hl. assert (b :: f1 ++ f2 ≡ₚ f1 ++ b :: f2) as Hpm by apply Permutation_middle.
  pose proof (clear_block _ _ _ _ b Hl (list_elem_of_here _ _) Hblo Hb1) as Hcl.
  pose proof (ordered_le _ _ _ Ho) as Hlt. unfold m', right_mem, HEADER. rewrite Hbs, (path_end _ _ _ _ Hr1).
  destruct f2 as [|c f2]; cbn [fmap list_fmap hd] in *.
  { rewrite (proj2 (Z.eqb_neq _ _)) by lia. exists b, []. split; [|split; [done|split; [by apply kept_st64|split; [done|cbn; lia]]]].
    apply (loose_intro m _ top f1 b [] al base); try done; [by right|by eapply live_perm|by apply kept_st64| | |].
    - intros x Hx Hap. by destruct (other_headers m b.1 base 0 x Hap) as (? & ? & _).
    - apply (ld64_st64 m b.1 base). lia.
    - by rewrite (proj1 (own_header m b.1 base 0)). }
  pose proof (proj2 (proj1 (path_app _ _ _ _ _ _) Hr)) as Hr2. destruct H2 as (Hc1 & Hc2 & H2).
  pose proof (ordered_le _ _ _ H2) as Hct. unfold stop in Hc1, Hct.
  destruct (Z.eqb_spec (b.1 + b.2 * 16) c.1) as [Ec|Hne].
  - assert (ld32 m (c.1 + 8) = c.2) as -> by (apply Hs, elem_of_app; right; left). rewrite u32_small by lia.
    assert (apart b.1 c.1) as Hbc by (left; lia).
    destruct (other_headers m b.1 0 (b.2 + c.2) c.1 Hbc) as (_ & _ & -> & _). rewrite (path_hd _ _ _ _ Hr2).
    set (v := hd base (fst <$> f2)). set (m1 := st32 m (b.1 + 8) (b.2 + c.2)).
    assert (kept al m (st64 m1 b.1 v)) as Hk by (eapply kept_trans; [by apply kept_st32|by apply kept_st64]).
    exists (b.1, b.2 + c.2), f2. split; [|split; [done|split; [done|cbn; lia]]].
    apply (loose_intro m _ top f1 (b.1, b.2 + c.2) f2 al c.1); try done; cbn [fst snd].
    + destruct f2 as [|d f2]; [by right|]. left. by destruct Hr2.
    + lia.
    + eapply ordered_weaken; [exact H2| |done]. unfold stop. cbn. lia.
    + intros d Hd. apply Hs. apply elem_of_app in Hd as [Hd|Hd]; apply elem_of_app; [by left|right; by right].
    + eapply live_perm; [apply Permutation_middle|]. apply live_merge; [unfold stop; lia|done|done|].
      eapply live_perm; [|exact Hl]. constructor. symmetry. apply Permutation_middle.
    + intros x Hx Hap. destruct (other_headers m1 b.1 v 0 x Hap) as (-> & -> & _).
      by destruct (other_headers m b.1 0 (b.2 + c.2) x Hap) as (_ & _ & ? & ?).
    + apply ld64_st64. unfold v. destruct f2 as [|d f2]; cbn in *; [lia|]. destruct H2 as (? & ? & H2%ordered_le).
      unfold stop in *. lia.
    + rewrite (proj1 (own_header m1 b.1 v 0)). apply ld32_st32. lia.
  - exists b, (c :: f2). split; [|split; [done|split; [by apply kept_st64|done]]].
    apply (loose_intro m _ top f1 b (c :: f2) al c.1); try done;
      [by left|by eapply live_perm|by apply kept_st64| | |].
    + intros x Hx Hap. by destruct (other_headers m b.1 c.1 0 x Hap) as (? & ? & _).
    + apply (ld64_st64 m b.1 c.1). lia.
    + by rewrite (proj1 (own_header m b.1 c.1 0)).
Qed.

Lemma set_freep_heap m top fl al p : top <= 2 ^ 34 -> ringed m top fl al -> p ∈ base :: (fst <$> fl) ->
  heap (st64 m a_freep p) top fl al ∧ kept al m (st64 m a_freep p).
Proof.
  intros Ht [R1 R2 R3 R4 R5] Hp. pose proof (kept_freep _ _ _ _ p R5) as Hk. split; [|done].
  assert (∀ x, x ∈ base :: (fst <$> fl) -> x = base ∨ lo <= x < 2 ^ 64) as Hx.
  { intros x [->|(c & -> & Hc)%list_elem_of_fmap]%elem_of_cons; [by left|right].
    destruct (ordered_in _ _ _ _ R2 Hc) as (? & ? & ?). unfold stop in *. lia. }
  assert (∀ x, x ∈ base :: (fst <$> fl) ->
    ld64 (st64 m a_freep p) x = ld64 m x ∧ ld32 (st64 m a_freep p) (x + 8) = ld32 m (x + 8)) as Hm.
  { intros x Hin. destruct (Hx x Hin) as [->|?]; (split; [apply ld64_st64_ne|apply ld32_st64_ne]); lia. }
  split; [split|].
  - eapply path_ext; [|exact R1]. intros x Hin. by apply Hm.
  - done.
  - intros b Hb. rewrite (proj2 (Hm b.1 ltac:(right; by apply list_elem_of_fmap_2))). by apply R3.
  - by rewrite (proj2 (Hm base ltac:(left))).
  - by eapply live_kept.
  - rewrite ld64_st64; [done|]. destruct (Hx p Hp) as [->|?]; [|lia]. apply ordered_le in R2. lia.
Qed.

(** The block linked in behind the last block below it. *)
Lemma link_ringed m top f1 b f2 al : top <= 2 ^ 34 -> loose m top f1 b f2 al ->
  let p := last_of base (fst <$> f1) in
  ringed (st64 m p b.1) top (f1 ++ b :: f2) al ∧ kept al m (st64 m p b.1).
Proof.
  intros Htop [(e & Hlow) Hhigh Ho Hs Hz Hl] p. assert (p = last_of base (fst <$> f1)) as Ep by done. clearbody p.
  assert (∀ x, x ∈ fst <$> f1 -> x ∈ fst <$> f1 ++ b :: f2) as Hin by (intros x Hx; rewrite fmap_app; apply elem_of_app; by left).
  assert (p ∈ base :: (fst <$> f1 ++ b :: f2)) as Hp.
  { rewrite Ep. pose proof (last_of_in base (fst <$> f1)) as Hi. apply elem_of_cons in Hi as [E|Hi]; [rewrite E; left|right; by apply Hin]. }
  assert (clear al p) as Hcl.
  { apply elem_of_cons in Hp as [->|(c & -> & Hc)%list_elem_of_fmap]; [by eapply clear_base|].
    destruct (ordered_in _ _ _ _ Ho Hc) as (? & ? & _). by eapply clear_block. }
  assert (∀ x, x ∈ base :: (fst <$> f1 ++ b :: f2) -> x ≠ p ->
    ld64 (st64 m p b.1) x = ld64 m x ∧ ld32 (st64 m p b.1) (x + 8) = ld32 m (x + 8)) as Hm.
  { intros x Hx Hne. destruct (other_headers m p b.1 0 x) as (? & ? & _); [|done].
    apply (headers_apart lo top (f1 ++ b :: f2)); done. }
  assert (∀ x, x ∈ base :: (fst <$> f1 ++ b :: f2) -> ld32 (st64 m p b.1) (x + 8) = ld32 m (x + 8)) as Hm32.
  { intros x Hx. destruct (decide (x = p)) as [->|Hne]; [apply own_header; exact 0|by apply Hm]. }
  pose proof (ordered_asc base _ _ _ Ho ltac:(lia)) as Hasc. rewrite fmap_app in Hasc. cbn [fmap list_fmap] in Hasc.
  destruct (asc_app _ _ _ _ Hasc) as (Hasc1 & Hasc2 & Hpb). rewrite <- Ep in Hpb.
  assert (0 <= b.1 < 2 ^ 64) as Hb64.
  { destruct (ordered_in _ _ _ b Ho) as (? & ? & ?); [apply elem_of_app; right; left|]. unfold stop in *. lia. }
  split; [split; [|done| | |]|by apply kept_st64].
  - rewrite fmap_app. cbn [fmap list_fmap]. apply path_app. split.
    + apply (path_last (ld64 m) _ base _ e b.1 Hlow (asc_nodup _ _ Hasc1)); [|rewrite <- Ep; by apply ld64_st64].
      intros x Hx Hne. rewrite <- Ep in Hne. apply Hm; [|done]. apply elem_of_cons in Hx as [->|Hx]; [left|right; by apply Hin].
    + eapply path_ext; [|exact Hhigh]. intros x Hx. apply Hm.
      * right. rewrite fmap_app. apply elem_of_app. by right.
      * apply elem_of_cons in Hx as [->|Hx]; [lia|]. pose proof (asc_lt _ _ _ Hasc2 Hx). lia.
  - intros c Hc. rewrite Hm32 by (right; by apply list_elem_of_fmap_2). by apply Hs.
  - rewrite Hm32 by left. done.
  - eapply live_kept; [|done]. by apply kept_st64.
Qed.

(** The block merged into the one before it. *)
Lemma merge_ringed m top f1 c b f2 al : top <= 2 ^ 34 -> loose m top (f1 ++ [c]) b f2 al -> stop c = b.1 ->
  let m' := st64 (st32 m (c.1 + 8) (c.2 + b.2)) c.1 (ld64 m b.1) in
  ringed m' top (f1 ++ (c.1, c.2 + b.2) :: f2) al ∧ kept al m m'.
Proof.
  intros Htop [(e & Hlow) Hhigh Ho Hs Hz Hl] Ec m'. rewrite <- app_assoc in *. cbn [app] in *.
  assert (c ∈ f1 ++ c :: b :: f2 ∧ b ∈ f1 ++ c :: b :: f2) as [Hcin Hbin] by (split; apply elem_of_app; right; [left|right; left]).
  destruct (ordered_in _ _ _ _ Ho Hcin) as (Hc1 & Hc2 & Hc3), (ordered_in _ _ _ _ Ho Hbin) as (_ & Hb2 & Hb3).
  pose proof (clear_block _ _ _ _ c Hl Hcin Hc1 Hc2) as Hcl.
  assert (kept al m m') as Hk by (eapply kept_trans; [by apply kept_st32|by apply kept_st64]). split; [|done].
  assert (∀ x, x ∈ base :: (fst <$> f1 ++ c :: b :: f2) -> x ≠ c.1 -> ld64 m' x = ld64 m x ∧ ld32 m' (x + 8) = ld32 m (x + 8)) as Hm.
  { intros x Hx Hne. assert (apart c.1 x) as Hap.
    { apply (headers_apart lo top (f1 ++ c :: b :: f2)); try done. right. by apply list_elem_of_fmap_2. }
    unfold m'. destruct (other_headers (st32 m (c.1 + 8) (c.2 + b.2)) c.1 (ld64 m b.1) 0 x Hap) as (-> & -> & _).
    by destruct (other_headers m c.1 0 (c.2 + b.2) x Hap) as (_ & _ & ? & ?). }
  pose proof (ordered_asc base _ _ _ Ho ltac:(lia)) as Hasc. rewrite fmap_app in Hasc, Hm. cbn [fmap list_fmap] in Hasc, Hm.
  destruct (asc_app _ _ _ _ Hasc) as (Hasc1 & Hasc2 & Hpc).
  assert (∀ x, x ∈ fst <$> f2 -> c.1 < x) as Hf2 by (intros x Hx; apply (asc_lt _ _ _ Hasc2); by right).
  assert (∀ x, x ∈ base :: (fst <$> f1) -> x < c.1) as Hf1.
  { intros x Hx. pose proof (asc_last _ _ _ Hasc1 Hx). lia. }
  pose proof (path_hd _ _ _ _ Hhigh) as Eh. assert (0 <= ld64 m b.1 < 2 ^ 64) as Hr by apply ld64_range.
  split; [| | | |].
  - rewrite fmap_app in Hlow |- *. cbn [fmap list_fmap fst] in Hlow |- *. apply path_app in Hlow as [Hlow _]. apply path_app. split.
    + eapply path_ext; [|exact Hlow]. intros x Hx. specialize (Hf1 x Hx). apply Hm; [|lia].
      apply elem_of_cons in Hx as [->|Hx]; [left|right; apply elem_of_app; by left].
    + assert (ld64 m' c.1 = hd base (fst <$> f2)) as E' by (unfold m'; rewrite ld64_st64; done).
      destruct f2 as [|d f2]; cbn [fmap list_fmap hd path] in *; [done|]. split; [done|]. destruct Hhigh as [_ Hhigh].
      eapply path_ext; [|exact Hhigh]. intros x Hx. specialize (Hf2 x Hx). apply Hm; [|lia].
      right. apply elem_of_app. right. right. by right.
  - apply ordered_app in Ho as (mid & Ho1 & Hmc & _ & _ & _ & Ho2). apply ordered_app. exists mid. split; [done|].
    cbn [ordered fst snd]. split; [done|]. split; [lia|]. eapply ordered_weaken; [exact Ho2| |done]. unfold stop in *. cbn. lia.
  - intros d [Hd|[->|Hd]%elem_of_cons]%elem_of_app; cbn [fst snd].
    + rewrite <- Hs by (apply elem_of_app; by left). assert (d.1 ∈ fst <$> f1) as Hi by (by apply list_elem_of_fmap_2).
      specialize (Hf1 d.1 ltac:(by right)). apply Hm; [right; apply elem_of_app; by left|lia].
    + unfold m'. rewrite (proj1 (own_header _ c.1 _ 0)). apply ld32_st32. unfold stop in *. lia.
    + rewrite <- Hs by (apply elem_of_app; right; right; by right). assert (d.1 ∈ fst <$> f2) as Hi by (by apply list_elem_of_fmap_2).
      specialize (Hf2 d.1 Hi). apply Hm; [right; apply elem_of_app; right; right; by right|lia].
  - rewrite <- Hz. specialize (Hf1 base ltac:(left)). apply Hm; [left|lia].
  - eapply live_kept; [exact Hk|]. eapply live_perm; [apply Permutation_middle|]. apply live_merge; [done|done|done|].
    eapply live_perm; [|exact Hl]. rewrite <- Permutation_middle. constructor. symmetry. apply Permutation_middle.
Qed.

(** [b] is inside the block [c]. *)
Definition within (b c : block) : Prop := c.1 <= b.1 ∧ stop b <= stop c.

Lemma left_heap m top f1 b f2 al : top <= 2 ^ 34 -> loose m top f1 b f2 al ->
  let p := last_of base (fst <$> f1) in
  let m' := st64 (left_mem b.1 p m) a_freep p in
  ∃ fl c, heap m' top fl al ∧ kept al m m' ∧ c ∈ fl ∧ within b c ∧ (length fl <= length (f1 ++ b :: f2))%nat.
Proof.
  intros Htop Hl p m'. pose proof (ls_order _ _ _ _ _ _ Hl) as Ho.
  assert (b ∈ f1 ++ b :: f2) as Hbin by (apply elem_of_app; right; left). destruct (ordered_in _ _ _ _ Ho Hbin) as (Hb1 & Hb2 & Hb3).
  pose proof (link_ringed _ _ _ _ _ _ Htop Hl) as [Hr Hk]. fold p in Hr, Hk.
  assert (p ∈ base :: (fst <$> f1)) as Hpin by apply last_of_in.
  assert (left_mem b.1 p m = st64 m p b.1 -> ∃ fl c, heap m' top fl al ∧ kept al m m' ∧ c ∈ fl ∧ within b c ∧
    (length fl <= length (f1 ++ b :: f2))%nat) as Hplain.
  { intros E. unfold m'. rewrite E. destruct (set_freep_heap _ _ _ _ p Htop Hr) as [Hh Hk'].
    - rewrite fmap_app. apply elem_of_cons in Hpin as [->|?]; [left|right; apply elem_of_app; by left].
    - exists (f1 ++ b :: f2), b. split; [done|]. split; [by eapply kept_trans|]. split; [done|]. split; [done|lia]. }
  destruct (last_of_cases base (fst <$> f1)) as [[E1 Ep]|(l & a & E1 & Ep)]; fold p in Ep.
  { apply Hplain. unfold left_mem. rewrite Ep, (ls_base _ _ _ _ _ _ Hl), (proj2 (Z.eqb_neq _ _)) by lia. done. }
  assert (∃ f1' c, f1 = f1' ++ [c] ∧ c.1 = a) as (f1' & c & -> & Ea).
  { destruct f1 as [|d f1] using rev_ind; [by destruct l|]. rewrite fmap_app in E1. apply app_inj_tail in E1 as [_ E1]. by exists f1, d. }
  rewrite <- app_assoc in *. cbn [app] in *.
  assert (c ∈ f1' ++ c :: b :: f2) as Hcin by (apply elem_of_app; right; left).
  assert (ld32 m (c.1 + 8) = c.2) as Hcs by (apply (ls_size _ _ _ _ _ _ Hl); by rewrite <- app_assoc).
  assert (ld32 m (b.1 + 8) = b.2) as Hbs by (apply (ls_size _ _ _ _ _ _ Hl); by rewrite <- app_assoc).
  destruct (Z.eqb_spec (c.1 + c.2 * 16) b.1) as [Em|Hne].
  2:{ apply Hplain. unfold left_mem, HEADER. rewrite Ep, <- Ea, Hcs, (proj2 (Z.eqb_neq _ _)) by done. done. }
  destruct (ordered_in _ _ _ _ Ho Hcin) as (Hc1 & Hc2 & Hc3).
  destruct (merge_ringed m top f1' c b f2 al Htop Hl) as [Hr' Hk']; [unfold stop; lia|].
  assert (left_mem b.1 p m = st64 (st32 m (c.1 + 8) (c.2 + b.2)) c.1 (ld64 m b.1)) as E.
  { unfold left_mem, HEADER. rewrite Ep, <- Ea, Hcs, Hbs, (proj2 (Z.eqb_eq _ _) Em), u32_small by (unfold stop in *; lia). f_equal.
    apply ld64_st32_ne. lia. }
  unfold m'. rewrite E. destruct (set_freep_heap _ _ _ _ p Htop Hr') as [Hh Hk''].
  { rewrite fmap_app. right. apply elem_of_app. right. rewrite Ep, <- Ea. left. }
  exists (f1' ++ (c.1, c.2 + b.2) :: f2), (c.1, c.2 + b.2). split; [done|]. split; [by eapply kept_trans|].
  split; [apply elem_of_app; right; left|]. split; [unfold within, stop in *; cbn; lia|]. rewrite !length_app. cbn. lia.
Qed.

Lemma free_spec {O} {S : Sys O} n (u : user O) top fl b al : top <= 2 ^ 34 -> heap (u_mem u) top fl (b :: al) ->
  (length fl + 2 <= n)%nat ->
  ∃ m' fl' c, free a_freep n (b.1 + HEADER) u = Ret () (u <| u_mem := m' |>) ∧ heap m' top fl' al ∧ kept al (u_mem u) m' ∧
    c ∈ fl' ∧ within b c ∧ (length fl' <= length fl + 1)%nat.
Proof.
  intros Htop [Hr Hf] Hn. pose proof Hr as [R1 R2 R3 R4 R5].
  destruct (lv_in _ _ _ _ R5 b (list_elem_of_here _ _)) as (Hb1 & Hb2 & Hb3 & Hb4).
  destruct (ordered_place lo top fl b R2) as (f1 & f2 & -> & H1 & H2); [|done..|].
  { apply Forall_forall. intros y Hy. apply (lv_disj _ _ _ _ R5); [left|done]. }
  pose proof (ordered_asc base _ _ _ R2 ltac:(lia)) as Hasc. rewrite fmap_app in R1, Hasc, Hf.
  assert (free_scan n b.1 (ld64 (u_mem u) a_freep) u = Ret (last_of base (fst <$> f1)) u) as E.
  { apply (scan_spec base b.1 ltac:(lia) u (fst <$> f1) (fst <$> f2)); try done.
    - intros y (c & -> & Hc)%list_elem_of_fmap. destruct (ordered_in _ _ _ _ H1 Hc). unfold stop in *. lia.
    - intros y (c & -> & Hc)%list_elem_of_fmap. destruct (ordered_in _ _ _ _ H2 Hc). unfold stop in *. lia.
    - rewrite length_app, !length_fmap, <- length_app. done. }
  destruct (right_loose (u_mem u) top f1 b f2 al Htop) as (b' & f2' & Hl & Eb & Hk & Hbs & Hl2); [split; [done|by rewrite fmap_app]|done|done|].
  destruct (left_heap _ top f1 b' f2' al Htop Hl) as (fl & c & Hh & Hk' & Hc & Hw & Hlen). rewrite Eb in Hh, Hk'.
  rewrite (free_eq a_freep n b.1 _ u E). eexists _, fl, c. split; [done|]. split; [exact Hh|]. split; [by eapply kept_trans|].
  split; [done|]. rewrite length_app in *. cbn [length] in Hlen. split; [|lia]. unfold within, stop in *. lia.
Qed.

(** *** [malloc] *)

Lemma ordered_disj hi f1 b f2 y : ordered lo hi (f1 ++ b :: f2) -> y ∈ f1 ++ f2 -> disj b y.
Proof.
  intros (mid & H1 & Hb & Hs & H2)%ordered_app [Hy|Hy]%elem_of_app.
  - destruct (ordered_in _ _ _ _ H1 Hy) as (_ & _ & ?). right. lia.
  - destruct (ordered_in _ _ _ _ H2 Hy) as (? & _). left. lia.
Qed.

(** A free block that is now in use. *)
Lemma live_taken m top fl b al : lo <= b.1 -> 1 <= b.2 -> stop b <= top -> ld32 m (b.1 + 8) = b.2 ->
  (∀ y, y ∈ fl -> disj b y) -> live m top (b :: fl) al -> live m top fl (b :: al).
Proof.
  intros H1 H2 H3 H4 Hd [L1 L2 L3]. split.
  - intros c [->|Hc]%elem_of_cons; [done|]. by apply L1.
  - intros x y [->|Hx]%elem_of_cons Hy; [by apply Hd|]. apply L2; [done|by right].
  - split; [|done]. apply Forall_forall. intros y Hy. destruct (L2 y b Hy ltac:(left)); [by right|by left].
Qed.

(** The block [b] is taken out of the ring. *)
Lemma unlink_ringed m top f1 b f2 al : top <= 2 ^ 34 -> ringed m top (f1 ++ b :: f2) al ->
  let p := last_of base (fst <$> f1) in
  let m' := st64 m p (ld64 m b.1) in
  ringed m' top (f1 ++ f2) (b :: al) ∧ kept al m m'.
Proof.
  intros Htop [R1 R2 R3 R4 R5] p m'. assert (p = last_of base (fst <$> f1)) as Ep by done. clearbody p.
  assert (∀ c, c ∈ f1 ++ f2 -> c ∈ f1 ++ b :: f2) as Hsub.
  { intros c [Hc|Hc]%elem_of_app; apply elem_of_app; [by left|right; by right]. }
  assert (b ∈ f1 ++ b :: f2) as Hbin by (apply elem_of_app; right; left).
  destruct (ordered_in _ _ _ _ R2 Hbin) as (Hb1 & Hb2 & Hb3).
  pose proof (ordered_asc base _ _ _ R2 ltac:(lia)) as Hasc. rewrite fmap_app in Hasc. cbn [fmap list_fmap] in Hasc.
  destruct (asc_app _ _ _ _ Hasc) as (Hasc1 & Hasc2 & Hpb). rewrite <- Ep in Hpb.
  assert (p ∈ base :: (fst <$> f1)) as Hp1 by (rewrite Ep; apply last_of_in).
  assert (p ∈ base :: (fst <$> f1 ++ b :: f2)) as Hp.
  { rewrite fmap_app. apply elem_of_cons in Hp1 as [->|?]; [left|right; apply elem_of_app; by left]. }
  assert (clear al p) as Hcl.
  { apply elem_of_cons in Hp as [->|(c & -> & Hc)%list_elem_of_fmap]; [by eapply clear_base|].
    destruct (ordered_in _ _ _ _ R2 Hc) as (? & ? & _). by eapply clear_block. }
  assert (kept al m m') as Hk by (by apply kept_st64).
  assert (∀ x, x ∈ base :: (fst <$> f1 ++ b :: f2) -> x ≠ p -> ld64 m' x = ld64 m x) as Hm.
  { intros x Hx Hne. destruct (other_headers m p (ld64 m b.1) 0 x) as (? & _); [|done].
    apply (headers_apart lo top (f1 ++ b :: f2)); done. }
  assert (∀ x, x ∈ base :: (fst <$> f1 ++ b :: f2) -> ld32 m' (x + 8) = ld32 m (x + 8)) as Hm32.
  { intros x Hx. destruct (decide (x = p)) as [->|Hne]; [apply own_header; exact 0|].
    destruct (other_headers m p (ld64 m b.1) 0 x) as (_ & ? & _); [|done]. apply (headers_apart lo top (f1 ++ b :: f2)); done. }
  rewrite fmap_app in R1. cbn [fmap list_fmap] in R1. apply path_app in R1 as [R1a R1b].
  assert (path (ld64 m') base (fst <$> f1) (hd base (fst <$> f2))) as P1.
  { apply (path_last (ld64 m) _ base _ b.1 _ R1a (asc_nodup _ _ Hasc1)).
    - intros x Hx Hne. rewrite <- Ep in Hne. apply Hm; [|done]. rewrite fmap_app.
      apply elem_of_cons in Hx as [->|?]; [left|right; apply elem_of_app; by left].
    - rewrite <- Ep. unfold m'. rewrite ld64_st64 by apply ld64_range. by apply path_hd. }
  split; [split|done].
  - rewrite fmap_app. destruct f2 as [|c f2]; cbn [fmap list_fmap hd path] in *; [by rewrite app_nil_r|].
    apply path_app. split; [done|]. eapply path_ext; [|apply R1b]. intros x Hx. pose proof (asc_lt _ _ _ Hasc2 Hx). apply Hm; [|lia].
    right. rewrite fmap_app. apply elem_of_app. right. by right.
  - apply ordered_app in R2 as (mid & Ho1 & Hmb & _ & Ho2). apply ordered_app. exists mid. split; [done|].
    eapply ordered_weaken; [exact Ho2|unfold stop; lia|done].
  - intros c Hc. rewrite Hm32 by (right; apply list_elem_of_fmap_2; auto). auto.
  - rewrite Hm32 by left. done.
  - apply (live_taken m' top (f1 ++ f2) b al); [done|done|done| | |].
    + rewrite Hm32 by (right; by apply list_elem_of_fmap_2). auto.
    + intros y Hy. by apply (ordered_disj top f1 b f2).
    + eapply live_perm; [symmetry; apply Permutation_middle|]. by apply (live_kept m).
Qed.

(** The tail [a] is cut off the block [b]. *)
Lemma shrink_ringed m top f1 b f2 al n : top <= 2 ^ 34 -> ringed m top (f1 ++ b :: f2) al -> 1 <= n < b.2 ->
  let a := (b.1 + (b.2 - n) * 16, n) in
  let m' := st32 (st32 m (b.1 + 8) (b.2 - n)) (a.1 + 8) n in
  ringed m' top (f1 ++ (b.1, b.2 - n) :: f2) (a :: al) ∧ kept al m m'.
Proof.
  intros Htop [R1 R2 R3 R4 R5] Hn a m'. assert (b ∈ f1 ++ b :: f2) as Hbin by (apply elem_of_app; right; left).
  destruct (ordered_in _ _ _ _ R2 Hbin) as (Hb1 & Hb2 & Hb3). unfold stop in Hb3.
  assert (a.1 = b.1 + (b.2 - n) * 16 ∧ a.2 = n) as [Ea1 Ea2] by done. clearbody a.
  assert (clear al b.1 ∧ clear al a.1) as [Hclb Hcla].
  { split; (split; [right; lia|]); intros c Hc; destruct (lv_disj _ _ _ _ R5 c b Hc Hbin); unfold stop in *; lia. }
  assert (kept al m m') as Hk by (eapply kept_trans; [apply (kept_st32 _ _ b.1); exact Hclb|by apply kept_st32]).
  assert (∀ x, x ∈ base :: (fst <$> f1 ++ b :: f2) -> apart a.1 x) as Hapa.
  { intros x [->|(c & -> & Hc)%list_elem_of_fmap]%elem_of_cons; [right; lia|]. destruct (decide (c = b)) as [->|Hne]; [right; lia|].
    assert (c ∈ f1 ++ f2) as Hc'.
    { apply elem_of_app in Hc as [Hc|[->|Hc]%elem_of_cons]; [apply elem_of_app; by left|done|apply elem_of_app; by right]. }
    destruct (ordered_in _ _ _ _ R2 Hc) as (_ & ? & _). destruct (ordered_disj _ _ _ _ _ R2 Hc'); unfold stop, apart in *; lia. }
  assert (∀ x, x ∈ base :: (fst <$> f1 ++ b :: f2) -> ld64 m' x = ld64 m x) as Hm.
  { intros x Hx. unfold m'. destruct (other_headers (st32 m (b.1 + 8) (b.2 - n)) a.1 0 n x (Hapa x Hx)) as (_ & _ & -> & _).
    destruct (decide (x = b.1)) as [->|Hne]; [apply (own_header m b.1 0)|].
    destruct (other_headers m b.1 0 (b.2 - n) x) as (_ & _ & ? & _); [|done].
    apply (headers_apart lo top (f1 ++ b :: f2)); try done. right. by apply list_elem_of_fmap_2. }
  assert (∀ x, x ∈ base :: (fst <$> f1 ++ b :: f2) -> x ≠ b.1 -> ld32 m' (x + 8) = ld32 m (x + 8)) as Hm32.
  { intros x Hx Hne. unfold m'. destruct (other_headers (st32 m (b.1 + 8) (b.2 - n)) a.1 0 n x (Hapa x Hx)) as (_ & _ & _ & ->).
    destruct (other_headers m b.1 0 (b.2 - n) x) as (_ & _ & _ & ?); [|done].
    apply (headers_apart lo top (f1 ++ b :: f2)); try done. right. by apply list_elem_of_fmap_2. }
  assert (ordered lo top (f1 ++ (b.1, b.2 - n) :: a :: f2)) as Ho.
  { apply ordered_app in R2 as (mid & Ho1 & Hmb & _ & Ho2). apply ordered_app. exists mid. split; [done|]. cbn [ordered fst snd].
    unfold stop in *. cbn [fst snd]. rewrite Ea1, Ea2. split; [done|]. split; [lia|]. split; [lia|]. split; [lia|].
    eapply ordered_weaken; [exact Ho2|lia|done]. }
  split; [split|done].
  - eapply path_ext; [|rewrite fmap_app in R1 |- *; exact R1]. intros x Hx. apply Hm. rewrite fmap_app in Hx |- *. exact Hx.
  - apply ordered_app in Ho as (mid & Ho1 & Hmb & Hs & _ & _ & Ho2). apply ordered_app. exists mid. split; [done|]. cbn [ordered].
    split; [done|]. split; [done|]. eapply ordered_weaken; [exact Ho2| |done]. unfold stop in *. cbn in *. lia.
  - intros c [Hc|[->|Hc]%elem_of_cons]%elem_of_app; cbn [fst snd].
    + rewrite Hm32; [apply R3, elem_of_app; by left|right; apply list_elem_of_fmap_2, elem_of_app; by left|].
      apply ordered_app in R2 as (mid & Ho1 & Hmb & _). destruct (ordered_in _ _ _ _ Ho1 Hc). unfold stop in *. lia.
    + unfold m'. rewrite ld32_st32_ne by lia. apply ld32_st32. lia.
    + rewrite Hm32; [apply R3, elem_of_app; right; by right|right; apply list_elem_of_fmap_2, elem_of_app; right; by right|].
      apply ordered_app in R2 as (mid & _ & Hmb & _ & Ho2). destruct (ordered_in _ _ _ _ Ho2 Hc). unfold stop in *. lia.
  - rewrite Hm32; [done|left|lia].
  - apply (live_taken m' top _ a al); [lia|lia|unfold stop; lia|unfold m'; rewrite Ea2; apply ld32_st32; lia| |].
    + intros y Hy. change (f1 ++ (b.1, b.2 - n) :: f2) with (f1 ++ [(b.1, b.2 - n)] ++ f2) in Hy. rewrite app_assoc in Hy.
      change (f1 ++ (b.1, b.2 - n) :: a :: f2) with (f1 ++ [(b.1, b.2 - n)] ++ a :: f2) in Ho. rewrite app_assoc in Ho.
      by apply (ordered_disj top (f1 ++ [(b.1, b.2 - n)]) a f2).
    + apply (live_kept m); [done|]. destruct R5 as [L1 L2 L3]. split; [done| |done].
      intros x y Hx Hy. pose proof (L2 x b Hx Hbin) as Hxb. destruct (L1 x Hx) as (_ & Hx2 & _).
      apply elem_of_cons in Hy as [->|[Hy|[->|Hy]%elem_of_cons]%elem_of_app].
      * unfold disj, stop in *. lia.
      * apply L2; [done|]. apply elem_of_app. by left.
      * unfold disj, stop in *. cbn. lia.
      * apply L2; [done|]. apply elem_of_app. right. by right.
Qed.

(** What [malloc] gives: a block [a] of [n] units; at most [k] blocks stay free. *)
Definition gave (k : nat) (n : Z) (al : list block) (top : Z) (m : memory) (r : Z) (m' : memory) : Prop :=
  ∃ a fl', r = a.1 + HEADER ∧ a.2 = n ∧ heap m' top fl' (a :: al) ∧ kept al m m' ∧ (length fl' <= k)%nat.

Lemma malloc_take_spec {O} {S : Sys O} n y x (u : user O) top fl al : top <= 2 ^ 34 -> ringed (u_mem u) top fl al ->
  ld64 (u_mem u) y = x -> y ∈ base :: (fst <$> fl) -> 1 <= n -> n <= ld32 (u_mem u) (x + 8) -> x ∈ base :: (fst <$> fl) ->
  ∃ r m', malloc_take a_freep n y x (ld32 (u_mem u) (x + 8)) u = Ret r (u <| u_mem := m' |>) ∧ gave (length fl) n al top (u_mem u) r m'.
Proof.
  intros Htop Hr Ex Hy Hn Hsz Hx. pose proof Hr as [R1 R2 R3 R4 R5]. set (m := u_mem u) in *.
  apply elem_of_cons in Hx as [->|Hx]; [rewrite R4 in Hsz; lia|].
  pose proof (ordered_asc base _ _ _ R2 ltac:(lia)) as Hasc.
  destruct (path_pred (ld64 m) base (fst <$> fl) base y R1 (asc_nodup _ _ Hasc)) as (l1 & l2 & E & ->); [|done|by rewrite Ex|].
  { intros Hin. pose proof (asc_lt _ _ _ Hasc Hin). lia. }
  rewrite Ex in E. apply fmap_app_inv in E as (f1 & f2' & E1 & E2 & ->). destruct f2' as [|b f2]; [discriminate E2|].
  cbn in E2. injection E2 as Eb E2. rewrite Eb, E1 in *. clear Eb.
  assert (ld32 m (b.1 + 8) = b.2) as Ebs by (apply R3, elem_of_app; right; left). rewrite Ebs in *.
  unfold malloc_take, lptr, sptr, ssize, set_freep. destruct (Z.eqb_spec b.2 n) as [Eq|Hne].
  - destruct (unlink_ringed m top f1 b f2 al Htop Hr) as [Hr' Hk].
    destruct (set_freep_heap _ _ _ _ (last_of base (fst <$> f1)) Htop Hr') as [Hh Hk'].
    { pose proof (last_of_in base (fst <$> f1)) as Hin. rewrite fmap_app. apply elem_of_cons in Hin as [->|?]; [left|right; apply elem_of_app; by left]. }
    eexists _, _. split; [reflexivity|]. exists b, (f1 ++ f2). split; [done|]. split; [done|]. split; [exact Hh|].
    split; [|rewrite !length_app; cbn; lia]. eapply kept_trans; [exact Hk|]. eapply kept_sub; [|exact Hk']. by right.
  - destruct (shrink_ringed m top f1 b f2 al n Htop Hr ltac:(lia)) as [Hr' Hk].
    destruct (set_freep_heap _ _ _ _ (last_of base (fst <$> f1)) Htop Hr') as [Hh Hk'].
    { pose proof (last_of_in base (fst <$> f1)) as Hin. rewrite fmap_app. apply elem_of_cons in Hin as [->|?]; [left|right; apply elem_of_app; by left]. }
    eexists _, _. split; [reflexivity|]. exists (b.1 + (b.2 - n) * 16, n), (f1 ++ (b.1, b.2 - n) :: f2).
    split; [done|]. split; [done|]. split; [exact Hh|]. split; [|rewrite !length_app; cbn; lia].
    eapply kept_trans; [exact Hk|]. eapply kept_sub; [|exact Hk']. by right.
Qed.

(** The rounds of the loop up to a large enough block or to [freep]. *)
Lemma malloc_scan {O} {S : Sys O} n k r prev (u : user O) : let nx := ld64 (u_mem u) in let fp := nx a_freep in
  path nx prev r fp -> fp ∉ r -> (length r < k)%nat ->
  (∃ y, y ∈ prev :: r ∧ nx y ∈ r ++ [fp] ∧ n <= ld32 (u_mem u) (nx y + 8) ∧
     malloc_loop a_freep k n prev (nx prev) u = malloc_take a_freep n y (nx y) (ld32 (u_mem u) (nx y + 8)) u) ∨
  (∀ x, x ∈ r ++ [fp] -> ld32 (u_mem u) (x + 8) < n) ∧
  ∃ y, malloc_loop a_freep k n prev (nx prev) u = malloc_loop a_freep (k - length r) n y fp u.
Proof.
  intros nx fp. revert k prev. induction r as [|x r IH]; intros k prev Hp Hf Hk; cbn in Hp.
  - rewrite Hp. destruct (decide (n <= ld32 (u_mem u) (fp + 8))) as [Hle|Hgt].
    + left. exists prev. rewrite Hp. split; [left|]. split; [left|]. split; [done|]. destruct k as [|k]; [cbn in Hk; lia|].
      cbn [malloc_loop]. unfold lsize. rewrite bind_gets. by rewrite (proj2 (Z.leb_le _ _) Hle).
    + right. split; [intros x ->%list_elem_of_singleton; lia|]. exists prev. by rewrite Nat.sub_0_r.
  - destruct Hp as [Ex Hp]. apply not_elem_of_cons in Hf as [Hfx Hf]. destruct k as [|k]; [cbn in Hk; lia|].
    destruct (decide (n <= ld32 (u_mem u) (x + 8))) as [Hle|Hgt].
    + left. exists prev. rewrite Ex. split; [left|]. split; [left|]. split; [done|]. cbn [malloc_loop]. unfold lsize.
      rewrite bind_gets. by rewrite (proj2 (Z.leb_le _ _) Hle).
    + assert (malloc_loop a_freep (Datatypes.S k) n prev (nx prev) u = malloc_loop a_freep k n x (nx x) u) as E.
      { rewrite Ex. cbn [malloc_loop]. unfold lsize, get_freep, lptr. rewrite bind_gets, (proj2 (Z.leb_gt _ _)) by lia.
        rewrite bind_gets. fold nx. fold fp. rewrite (proj2 (Z.eqb_neq _ _)) by done. by rewrite bind_gets. }
      rewrite E. destruct (IH k x Hp Hf) as [(y & Hy & Hny & Hle & E')|[Hall (y & E')]]; [cbn in Hk; lia| |].
      * left. exists y. split; [by right|]. split; [by right|]. split; [done|exact E'].
      * right. split; [intros z [->|Hz]%elem_of_cons; [lia|by apply Hall]|]. exists y. exact E'.
Qed.

Section malloc.
Context {O : Type} {S : Sys O} (brk : O -> Z) {B : Brk brk}.
Implicit Types u : user O.

Definition heap_of u (fl al : list block) : Prop := heap (u_mem u) (brk (u_os u)) fl al ∧ brk (u_os u) <= 2 ^ 34.

(** New memory, as a block in use. *)
Lemma heap_more m top top' fl al n : top' <= 2 ^ 34 -> heap m top fl al -> 1 <= n -> top + n * 16 = top' ->
  heap (st32 m (top + 8) n) top' fl ((top, n) :: al) ∧ kept al m (st32 m (top + 8) n).
Proof.
  intros Htop [[R1 R2 R3 R4 R5] Hf] Hn Et. pose proof (ordered_le _ _ _ R2) as Hlt.
  assert (clear al top) as Hcl by (split; [right; by eapply ordered_le|]; intros c Hc; destruct (lv_in _ _ _ _ R5 c Hc) as (_ & _ & ? & _); by right).
  pose proof (kept_st32 al m top n Hcl) as Hk. split; [|done].
  assert (∀ x, x ∈ base :: (fst <$> fl) -> apart top x) as Hap.
  { intros x [->|(c & -> & Hc)%list_elem_of_fmap]%elem_of_cons; right; [lia|].
    destruct (ordered_in _ _ _ _ R2 Hc) as (_ & ? & ?). unfold stop in *. lia. }
  split; [split|].
  - eapply path_ext; [|exact R1]. intros x Hx. by destruct (other_headers m top 0 n x (Hap x Hx)) as (_ & _ & ? & _).
  - eapply ordered_weaken; [exact R2|done|lia].
  - intros b Hb. destruct (other_headers m top 0 n b.1) as (_ & _ & _ & ->); [apply Hap; right; by apply list_elem_of_fmap_2|auto].
  - destruct (other_headers m top 0 n base) as (_ & _ & _ & ->); [apply Hap; left|done].
  - destruct (live_kept _ _ _ _ _ Hk R5) as [L1 L2 L3]. split.
    + intros c [->|Hc]%elem_of_cons; [|destruct (L1 c Hc) as (? & ? & ? & ?); split_and!; (done || lia)].
      cbn. unfold stop. cbn. split_and!; [done|done|lia|apply ld32_st32; lia].
    + intros x y [->|Hx]%elem_of_cons Hy; [|by apply L2]. right. by destruct (ordered_in _ _ _ _ R2 Hy) as (_ & _ & ?).
    + split; [|done]. apply Forall_forall. intros y Hy. right. by destruct (L1 y Hy) as (_ & _ & ? & _).
  - rewrite ld64_st32_ne by lia. done.
Qed.

Lemma freep_ne0 m top fl al : heap m top fl al -> ld64 m a_freep ≠ 0.
Proof.
  intros [[_ R2 _ _ _] Hf] E. rewrite E in Hf. apply elem_of_cons in Hf as [?|(c & Ec & Hc)%list_elem_of_fmap]; [lia|].
  destruct (ordered_in _ _ _ _ R2 Hc). lia.
Qed.

Lemma morecore_spec k n u fl al : heap_of u fl al -> 1 <= n < 2 ^ 27 -> (length fl + 2 <= k)%nat ->
  ∃ r u', morecore a_freep k n u = Ret r u' ∧ kept al (u_mem u) (u_mem u') ∧
    ((r = 0 ∧ heap_of u' fl al ∧ no_more n (u_os u)) ∨
     (r ≠ 0 ∧ grown brk n (u_os u) (u_os u') ∧ r = ld64 (u_mem u') a_freep ∧ ∃ fl' c, heap_of u' fl' al ∧ c ∈ fl' ∧ n <= c.2 ∧ (length fl' <= length fl + 1)%nat)).
Proof.
  intros [Hh Ht] Hn Hk. unfold morecore. set (n' := if n <? 4096 then 4096 else n).
  assert (n <= n' < 2 ^ 27 ∧ Z.max 4096 n = n') as [Hn' En'] by (unfold n'; destruct (Z.ltb_spec n 4096); lia).
  rewrite i32_small by (unfold HEADER; lia). unfold Ulib.sbrk, sys. unfold mbind at 1, ST_bind at 1.
  assert (0 <= brk (u_os u)) as Hb0 by (destruct Hh as [[_ R2 _ _ _] _]; apply ordered_le in R2; lia).
  destruct (brk_law (n' * HEADER) (u_os u)) as [(o' & E & Eb)|(o' & E & Eb & Hle)]; [unfold HEADER; lia| |]; rewrite E.
  - rewrite Z.eqb_refl. exists 0, (u <| u_os := o' |>). split; [done|]. split; [done|]. left. split; [done|].
    split; [unfold heap_of; cbn; by rewrite Eb|]. exists o'. by rewrite En'.
  - rewrite (proj2 (Z.eqb_neq _ _)) by (unfold SBRK_ERROR; lia). unfold ssize. rewrite bind_modify. cbn [u_mem u_os set_u_mem set_u_os].
    destruct (heap_more (u_mem u) (brk (u_os u)) (brk o') fl al n' Hle Hh) as [Hh1 Hk1]; [lia|unfold HEADER in Eb; lia|].
    set (u1 := u <| u_os := o' |> <| u_mem ::= λ m, st32 m (brk (u_os u) + 8) n' |>).
    destruct (free_spec k u1 (brk o') fl (brk (u_os u), n') al Hle Hh1 Hk) as (m' & fl' & c & Ef & Hh' & Hk' & Hc & Hw & Hlen).
    rewrite (bind_Ret _ _ _ _ _ Ef). exists (ld64 m' a_freep), (u1 <| u_mem := m' |>). split; [done|].
    split; [by eapply kept_trans|]. right. split; [by eapply freep_ne0|]. split; [unfold grown; by rewrite En'|]. split; [done|]. exists fl', c. split; [done|]. split; [done|].
    split; [|done]. unfold within, stop in Hw. cbn in Hw. lia.
Qed.

(** The ring from [freep] back to it. *)
Lemma heap_ring m top fl al : heap m top fl al -> let fp := ld64 m a_freep in
  ∃ r, path (ld64 m) fp r fp ∧ (fp ∉ r) ∧ length r = length fl ∧ fp :: r ≡ₚ base :: (fst <$> fl).
Proof.
  intros [[R1 R2 _ _ _] Hf] fp. destruct (path_rotate _ _ _ _ R1 Hf) as (r & Hp & Hperm). exists r. split; [done|].
  pose proof (asc_nodup _ _ (ordered_asc base _ _ _ R2 ltac:(lia))) as Hn. rewrite <- Hperm in Hn. apply NoDup_cons in Hn as [Hn _].
  split; [done|]. split; [|done]. apply Permutation_length in Hperm. cbn [length] in Hperm. injection Hperm as ->. apply length_fmap.
Qed.

Lemma heap_found k n u top fl al c : top <= 2 ^ 34 -> heap (u_mem u) top fl al -> 1 <= n -> c ∈ fl -> n <= c.2 -> (length fl < k)%nat ->
  let fp := ld64 (u_mem u) a_freep in
  ∃ r m', malloc_loop a_freep k n fp (ld64 (u_mem u) fp) u = Ret r (u <| u_mem := m' |>) ∧
    gave (length fl) n al top (u_mem u) r m'.
Proof.
  intros Ht Hh Hn Hc Hnc Hk fp. destruct (heap_ring _ _ _ _ Hh) as (r & Hp & Hnr & Hlen & Hperm). fold fp in Hp, Hnr, Hperm.
  destruct (malloc_scan n k r fp u Hp Hnr ltac:(lia)) as [(y & Hy & Hny & Hle & E)|[Hall _]].
  - assert (∀ x, x ∈ r ++ [fp] -> x ∈ base :: (fst <$> fl)) as Hin.
    { intros x Hx. rewrite <- Hperm. apply elem_of_app in Hx as [?| ->%list_elem_of_singleton]; [by right|left]. }
    destruct (malloc_take_spec n y _ u top fl al Ht (proj1 Hh) eq_refl) as (z & m' & E' & Hg);
      [by rewrite <- Hperm|done|done|by apply Hin|]. exists z, m'. rewrite E. by split.
  - exfalso. assert (c.1 ∈ r ++ [fp]) as Hin.
    { assert (c.1 ∈ fp :: r) as [->|?]%elem_of_cons; [rewrite Hperm; right; by apply list_elem_of_fmap_2| |]; apply elem_of_app;
        [right; left|by left]. }
    specialize (Hall _ Hin). destruct Hh as [[_ _ R3 _ _] _]. rewrite (R3 c Hc) in Hall. lia.
Qed.

Lemma malloc_loop_spec k n u fl al : heap_of u fl al -> 1 <= n < 2 ^ 27 -> (2 * length fl + 4 <= k)%nat ->
  let fp := ld64 (u_mem u) a_freep in
  ∃ r u', malloc_loop a_freep k n fp (ld64 (u_mem u) fp) u = Ret r u' ∧
    ((r = 0 ∧ heap_of u' fl al ∧ kept al (u_mem u) (u_mem u') ∧ no_more n (u_os u)) ∨
     (brk (u_os u') <= 2 ^ 34 ∧ (u_os u' = u_os u ∨ grown brk n (u_os u) (u_os u')) ∧ gave (length fl + 1) n al (brk (u_os u')) (u_mem u) r (u_mem u'))).
Proof.
  intros Hh Hn Hk fp. destruct (heap_ring _ _ _ _ (proj1 Hh)) as (r & Hp & Hnr & Hlen & Hperm). fold fp in Hp, Hnr, Hperm.
  destruct (malloc_scan n k r fp u Hp Hnr ltac:(lia)) as [(y & Hy & Hny & Hle & E)|[Hall (y & E)]].
  - assert (∀ x, x ∈ r ++ [fp] -> x ∈ base :: (fst <$> fl)) as Hin.
    { intros x Hx. rewrite <- Hperm. apply elem_of_app in Hx as [?| ->%list_elem_of_singleton]; [by right|left]. }
    destruct Hh as [Hh Ht].
    destruct (malloc_take_spec n y _ u (brk (u_os u)) fl al Ht (proj1 Hh) eq_refl) as (z & m' & E' & Hg);
      [by rewrite <- Hperm|lia|done|by apply Hin|]. exists z, (u <| u_mem := m' |>). rewrite E. split; [done|]. right. split; [done|]. split; [by left|].
    destruct Hg as (a & fl2 & ? & ? & ? & ? & ?). exists a, fl2. split_and!; (done || lia).
  - assert (∃ k', (k - length r)%nat = Datatypes.S k' ∧ (length fl + 3 <= k')%nat) as (k' & Ek & Hk')
      by (exists (k - length r - 1)%nat; lia).
    rewrite E, Ek. fold fp. cbn [malloc_loop]. unfold lsize, get_freep. rewrite bind_gets.
    specialize (Hall fp ltac:(apply elem_of_app; right; left)). rewrite (proj2 (Z.leb_gt n (ld32 (u_mem u) (fp + 8)))) by lia.
    rewrite bind_gets. fold fp.
    rewrite Z.eqb_refl.
    destruct (morecore_spec (Datatypes.S k') n u fl al Hh Hn ltac:(lia)) as (z & u' & E' & Hk1 & [(-> & Hh' & Hno)|(Hz & Hgr & -> & fl' & c & Hh' & Hc & Hnc & Hl')]);
      rewrite (bind_Ret _ _ _ _ _ E').
    + exists 0, u'. split; [done|]. left. done.
    + rewrite (proj2 (Z.eqb_neq _ _)) by done. unfold lptr. rewrite bind_gets.
      destruct (heap_found k' n u' _ fl' al c (proj2 Hh') (proj1 Hh') ltac:(lia) Hc Hnc ltac:(lia)) as (x & m' & E2 & Hg). exists x, (u' <| u_mem := m' |>).
      split; [exact E2|]. right. split; [apply Hh'|]. split; [by right|]. destruct Hg as (a & fl2 & ? & ? & ? & ? & ?). exists a, fl2.
      split; [done|]. split; [done|]. split; [done|]. split; [by eapply kept_trans|lia].
Qed.

(** Before the first call, [freep] is null. *)
Definition fresh u (fl al : list block) : Prop :=
  ld64 (u_mem u) a_freep = 0 ∧ fl = [] ∧ al = [] ∧ lo <= brk (u_os u) <= 2 ^ 34.

(** The first call makes the ring. *)
Lemma malloc_init u fl al : heap_of u fl al ∨ fresh u fl al ->
  ∃ u1, heap_of u1 fl al ∧ kept al (u_mem u) (u_mem u1) ∧ u_os u1 = u_os u ∧ ∀ k nbytes,
    malloc base a_freep k nbytes u =
    malloc_loop a_freep k (u32 (units nbytes)) (ld64 (u_mem u1) a_freep) (ld64 (u_mem u1) (ld64 (u_mem u1) a_freep)) u1.
Proof.
  intros Hu.
  assert (∃ u1, heap_of u1 fl al ∧ kept al (u_mem u) (u_mem u1) ∧ u_os u1 = u_os u ∧
    (prevp ← get_freep a_freep;
     (if prevp =? 0 then set_freep a_freep base ;; sptr base base ;; ssize base 0 ;; mret base else mret prevp)) u =
    Ret (ld64 (u_mem u1) a_freep) u1) as (u1 & Hh & Hk1 & Eo & E).
  { unfold get_freep, set_freep, sptr, ssize. rewrite bind_gets. destruct Hu as [Hh|(E0 & -> & -> & Hr)].
    - exists u. rewrite (proj2 (Z.eqb_neq _ _)) by (by eapply freep_ne0, Hh). done.
    - rewrite E0, Z.eqb_refl, !bind_modify. eexists. split; [|split; [|split; [|f_equal]]]; [|intros b [(c & ?%not_elem_of_nil & _)|Hm]; [done|]; cbn; by rewrite ld8_st32_ne, !ld8_st64_out by lia|done|].
      + cbn. set (m1 := st64 (u_mem u) a_freep base). split; [|apply Hr]. cbn. split; [split|].
        * cbn. rewrite ld64_st32_ne by lia. apply ld64_st64. lia.
        * cbn. lia.
        * by intros b ?%not_elem_of_nil.
        * apply ld32_st32. lia.
        * split; [by intros b ?%not_elem_of_nil|by intros ? ? ?%not_elem_of_nil|done].
        * rewrite ld64_st32_ne, ld64_st64_ne by lia. unfold m1. rewrite ld64_st64 by lia. left.
      + cbn. rewrite ld64_st32_ne, ld64_st64_ne by lia. by rewrite ld64_st64 by lia. }
  exists u1. split; [done|]. split; [done|]. split; [done|]. intros k nbytes. unfold malloc. fold (units nbytes).
  rewrite <- bind_bind, (bind_Ret _ _ _ _ _ E). unfold lptr. by rewrite bind_gets.
Qed.

Lemma malloc_spec k nbytes u fl al : heap_of u fl al ∨ fresh u fl al -> 0 <= nbytes < 2 ^ 31 - 32 -> (2 * length fl + 4 <= k)%nat ->
  ∃ r u', malloc base a_freep k nbytes u = Ret r u' ∧ kept al (u_mem u) (u_mem u') ∧
    ((r = 0 ∧ heap_of u' fl al ∧ no_more (units nbytes) (u_os u)) ∨
     ∃ a fl', r = a.1 + HEADER ∧ nbytes <= (a.2 - 1) * HEADER ∧ heap_of u' fl' (a :: al) ∧ (length fl' <= length fl + 1)%nat ∧
       (u_os u' = u_os u ∨ grown brk (units nbytes) (u_os u) (u_os u'))).
Proof.
  intros Hu Hb Hk. set (n := units nbytes).
  assert (1 <= n < 2 ^ 27 ∧ nbytes <= (n - 1) * HEADER) as [Hn Hnb] by (unfold n, units, HEADER; zlia).
  destruct (malloc_init u fl al Hu) as (u1 & Hh & Hk1 & Eo & E). rewrite E. fold n. rewrite u32_small by lia.
  destruct (malloc_loop_spec k n u1 fl al Hh Hn Hk) as (r & u' & E' & [(-> & Hh' & Hk' & Hno)|(Hle & Hg & a & fl' & -> & Ea & Hh' & Hk' & Hlen)]).
  - exists 0, u'. split; [exact E'|]. split; [by eapply kept_trans|]. left. rewrite Eo in Hno. done.
  - exists (a.1 + HEADER), u'. split; [exact E'|]. split; [by eapply kept_trans|]. right. exists a, fl'.
    split; [done|]. split; [by rewrite Ea|]. split; [by split|]. split; [done|]. by rewrite <- Eo.
Qed.

(** *** The size that wraps *)




(** *** Any sequence of calls *)

#[export] Instance pairwise_proper : Proper ((≡ₚ) ==> iff) pairwise.
Proof.
  assert (∀ l l', l ≡ₚ l' -> pairwise l -> pairwise l') as H.
  { induction 1 as [|x l l' Hp IH|x y l|l1 l2 l3 H1 IH1 H2 IH2]; cbn; [done| | |auto].
    - intros [Hx Hl]. split; [by rewrite <- Hp|auto].
    - intros [Hy [Hx Hl]]. apply Forall_cons in Hy as [Hyx Hy]. split; [constructor; [by apply disj_sym|done]|done]. }
  intros l l' Hp. split; [by apply H|]. apply H. by symmetry.
Qed.
#[export] Instance heap_proper m top fl : Proper ((≡ₚ) ==> iff) (heap m top fl).
Proof.
  assert (∀ l l', l ≡ₚ l' -> heap m top fl l -> heap m top fl l') as H.
  { intros l l' Hp [[R1 R2 R3 R4 [L1 L2 L3]] Hf]. split; [split; try done; split|done].
    - intros b. rewrite <- Hp. apply L1.
    - intros x y. rewrite <- Hp. apply L2.
    - by rewrite <- Hp. }
  intros l l' Hp. split; [by apply H|]. apply H. by symmetry.
Qed.

End malloc.
End heap.

(** Calls of a program; a block is freed by its position among the live ones. *)
Inductive call : Type := CMalloc (nbytes : Z) | CFree (i : nat).

Section calls.
Context {O : Type} {S : Sys O} (base a_freep : Z) (k : nat).

(** The pointers a program holds after the calls [cs]. *)
Fixpoint run_calls (cs : list call) (ptrs : list Z) : UM O (list Z) :=
  match cs with
  | [] => mret ptrs
  | CMalloc nbytes :: cs' =>
      p ← malloc base a_freep k nbytes;
      run_calls cs' (if p =? 0 then ptrs else p :: ptrs)
  | CFree i :: cs' =>
      match ptrs !! i with
      | Some p => free a_freep k p ;; run_calls cs' (delete i ptrs)
      | None => run_calls cs' ptrs
      end
  end.
End calls.

(** ** The claims *)
Section claims.
Context {O : Type} {S : Sys O} (brk : O -> Z) {B : Brk brk} (base a_freep lo : Z).

(** Where the linker puts [base] and [freep]: below the heap. *)
Record layout : Prop := {
  ly_base : 0 < base;
  ly_lo : base + 16 <= lo;
  ly_freep : 0 <= a_freep;
  ly_apart : a_freep + 8 <= base ∨ base + 16 <= a_freep ∧ a_freep + 8 <= lo;
}.

(** The allocator's state, with the live blocks [al]; [fresh] before the first call. *)
Definition state (u : user O) (fl al : list block) : Prop :=
  heap_of base a_freep lo brk u fl al ∨ fresh a_freep lo brk u fl al.

(** C17. For a size below 2^31 - 32, [malloc] returns, with a block of at least
    the size asked for that overlaps no live block, or with 0 if [sbrk] has
    failed.  Live blocks and the program's variables keep their contents. *)
Theorem malloc_gives_block k nbytes u fl al : layout -> state u fl al -> 0 <= nbytes < 2 ^ 31 - 32 ->
  (2 * length fl + 4 <= k)%nat ->
  ∃ r u', malloc base a_freep k nbytes u = Ret r u' ∧ kept base a_freep lo al (u_mem u) (u_mem u') ∧
    ((r = 0 ∧ state u' fl al ∧ no_more (units nbytes) (u_os u)) ∨
     ∃ a fl', r = a.1 + HEADER ∧ nbytes <= (a.2 - 1) * HEADER ∧ state u' fl' (a :: al) ∧ Forall (disj a) al).
Proof.
  intros [L1 L2 L3 L4] Hs Hn Hk.
  destruct (malloc_spec base a_freep lo L2 L1 L3 L4 brk k nbytes u fl al Hs Hn Hk) as (r & u' & E & Hk' & Hr).
  exists r, u'. split; [done|]. split; [done|]. destruct Hr as [(-> & Hh & Hno)|(a & fl' & -> & Ha & Hh & _)].
  - left. split; [done|]. split; [by left|done].
  - right. exists a, fl'. split; [done|]. split; [done|]. split; [by left|]. by destruct Hh as [[[_ _ _ _ [_ _ [Hd _]]] _] _].
Qed.

(** C18. [free] of a live block returns; the other live blocks and the
    program's variables stay as they are. *)
Theorem free_keeps_others k u fl b al : layout -> state u fl (b :: al) -> (length fl + 2 <= k)%nat ->
  ∃ u' fl', free a_freep k (b.1 + HEADER) u = Ret () u' ∧ state u' fl' al ∧ kept base a_freep lo al (u_mem u) (u_mem u').
Proof.
  intros [L1 L2 L3 L4] [[Hh Ht]|(_ & _ & ? & _)] Hk; [|done].
  destruct (free_spec base a_freep lo L2 L1 L3 L4 k u _ fl b al Ht Hh Hk) as (m' & fl' & c & E & Hh' & Hk' & _).
  exists (u <| u_mem := m' |>), fl'. split; [done|]. split; [left; by split|done].
Qed.

(** The pointer to a block that its user has. *)
Definition ptr_of (a : block) : Z := a.1 + HEADER.

Lemma run_calls_spec cs k u fl al : layout -> state u fl al ->
  Forall (λ c, match c with CMalloc n => 0 <= n < 2 ^ 31 - 32 | CFree _ => True end) cs ->
  (2 * (length fl + length cs) + 4 <= k)%nat ->
  ∃ u' fl' al', run_calls base a_freep k cs (ptr_of <$> al) u = Ret (ptr_of <$> al') u' ∧ state u' fl' al'.
Proof.
  intros L Hs Hc. pose proof L as [L1 L2 L3 L4]. revert u fl al Hs.
  induction Hc as [|c cs Hc Hcs IH]; intros u fl al Hs Hk; cbn [run_calls length] in *; [by exists u, fl, al|].
  destruct c as [n|i].
  - destruct (malloc_spec base a_freep lo L2 L1 L3 L4 brk k n u fl al Hs Hc ltac:(lia)) as (r & u1 & E & _ & Hr).
    rewrite (bind_Ret _ _ _ _ _ E). destruct Hr as [(-> & Hh & _)|(a & fl' & -> & _ & Hh & Hl & _)].
    + apply (IH u1 fl al); [by left|lia].
    + assert (a.1 + HEADER ≠ 0) as Hne.
      { destruct Hh as [[[_ _ _ _ [Hin _ _]] _] _]. destruct (Hin a (list_elem_of_here _ _)). unfold HEADER. lia. }
      rewrite (proj2 (Z.eqb_neq _ _) Hne). apply (IH u1 fl' (a :: al)); [by left|lia].
  - rewrite list_lookup_fmap. destruct (al !! i) as [a|] eqn:Ea; cbn [fmap option_fmap option_map]; [|apply (IH u fl al); [done|lia]].
    assert (al ≡ₚ a :: delete i al) as Hp by (by apply delete_Permutation).
    destruct Hs as [[Hh Ht]|(_ & _ & -> & _)]; [|done].
    rewrite Hp in Hh.
    destruct (free_spec base a_freep lo L2 L1 L3 L4 k u _ fl a (delete i al) Ht Hh ltac:(lia)) as (m' & fl' & c & E & Hh' & _ & _ & _ & Hl).
    rewrite (bind_Ret _ _ _ _ _ E), <- list_fmap_delete. apply (IH _ fl'); [left; by split|lia].
Qed.

(** C16. Any sequence of [malloc]s, of less than 2^31 - 32 bytes each, and
    [free]s of live blocks returns, and the blocks the program then holds are
    disjoint and inside the memory [sbrk] gave. *)
Theorem calls_disjoint cs k u : layout -> fresh a_freep lo brk u [] [] ->
  Forall (λ c, match c with CMalloc n => 0 <= n < 2 ^ 31 - 32 | CFree _ => True end) cs -> (2 * length cs + 4 <= k)%nat ->
  ∃ u' al, run_calls base a_freep k cs [] u = Ret (ptr_of <$> al) u' ∧ pairwise al ∧
    Forall (λ a, lo <= a.1 ∧ stop a <= brk (u_os u')) al.
Proof.
  intros L Hf Hc Hk. destruct (run_calls_spec cs k u [] [] L (or_intror Hf) Hc Hk) as (u' & fl & al & E & Hs).
  exists u', al. split; [exact E|]. destruct Hs as [[[[_ _ _ _ [Hin _ Hp]] _] _]|(_ & _ & -> & _)]; [|done].
  split; [done|]. apply Forall_forall. intros a Ha. by destruct (Hin a Ha) as (? & _ & ? & _).
Qed.

End claims.

(** ** An example *)

(** A kernel that only has [sbrk]; its state is the break. *)
#[local] Instance demo_brk_sys : Sys Z := {|
  os_sbrk n _ o := if o + n <=? 2 ^ 34 then (o, o + n) else (SBRK_ERROR, o);
  os_read _ _ o := (-1, [], o); os_write _ _ := fail;
  os_open _ _ := fail; os_close _ := fail; os_fstat _ o := (-1, [], o); os_link _ _ := fail; os_unlink _ := fail;
  os_mkdir _ := fail; os_mknod _ _ _ := fail; os_chdir _ := fail; os_dup _ := fail; os_pipe o := (-1, (0, 0), o);
  os_fork := fail; os_exec _ _ o := (Some (-1), o); os_wait o := (-1, 0, o); os_kill _ := fail; os_pause _ := fail;
|}.
#[local] Instance demo_brk : Brk (λ o : Z, o).
Proof.
  intros n o Hn. cbn. destruct (Z.leb_spec (o + n) (2 ^ 34)); [right|left]; eexists; (split; [done|]); lia.
Qed.
Definition demo_heap : user Z := mk_user ∅ 8192 None.

Lemma demo_fresh : fresh 4096 4352 (λ o : Z, o) demo_heap [] [].
Proof. split; [reflexivity|]. split; [reflexivity|]. split; [reflexivity|]. cbn. lia. Qed.
Lemma demo_layout : layout 4128 4096 4352.
Proof. split; lia. Qed.

Lemma malloc_gives_block_witness : ∃ r u', malloc 4128 4096 10 100 demo_heap = Ret r u' ∧
  (r = 0 ∨ ∃ a : block, r = a.1 + HEADER ∧ 100 <= (a.2 - 1) * HEADER).
Proof.
  destruct (malloc_gives_block (λ o : Z, o) 4128 4096 4352 10 100 demo_heap [] [] demo_layout (or_intror demo_fresh))
    as (r & u' & E & _ & [(-> & _)|(a & fl' & -> & Ha & _)]); [lia|cbn; lia| |].
  - exists 0, u'. split; [exact E|]. left. reflexivity.
  - exists (a.1 + HEADER), u'. split; [exact E|]. right. exists a. split; [reflexivity|exact Ha].
Defined.

Lemma free_keeps_others_witness : ∃ u1 u2 r, malloc 4128 4096 10 100 demo_heap = Ret r u1 ∧ free 4096 10 r u1 = Ret () u2.
Proof.
  destruct (malloc_spec 4128 4096 4352 ltac:(lia) ltac:(lia) ltac:(lia) ltac:(lia) (λ o : Z, o) 10 100 demo_heap [] []
    (or_intror demo_fresh)) as (r & u1 & E & _ & Hr); [lia|cbn; lia|].
  destruct Hr as [(-> & _ & o' & Hno)|(a & fl & -> & _ & Hh & Hl & _)].
  - exfalso. discriminate Hno.
  - destruct (free_keeps_others (λ o : Z, o) 4128 4096 4352 10 u1 fl a [] demo_layout (or_introl Hh)) as (u2 & fl' & E2 & _); [cbn in Hl; lia|].
    exists u1, u2, (a.1 + HEADER). split; [exact E|exact E2].
Defined.

Lemma calls_disjoint_witness : ∃ u' al, run_calls 4128 4096 20 [CMalloc 10; CMalloc 5000; CFree 1; CMalloc 20] [] demo_heap =
  Ret (ptr_of <$> al) u' ∧ pairwise al.
Proof.
  destruct (calls_disjoint (λ o : Z, o) 4128 4096 4352 [CMalloc 10; CMalloc 5000; CFree 1; CMalloc 20] 20 demo_heap demo_layout demo_fresh)
    as (u' & al & E & Hp & _).
  - repeat constructor; lia.
  - cbn. lia.
  - exists u', al. split; [exact E|exact Hp].
Defined.

