(* ===== verification/Sh.v ===== *)
(** * [user/sh.c]

    The shell: the scanner and the recursive-descent parser, which build a tree
    of structures in memory from [malloc], and [runcmd], which carries a tree
    out.  A local variable whose address is passed is returned with the result.
    Each loop and recursion carries a bound on its rounds. *)
From Stdlib Require Import Ascii String.
From S2P Require Import Prelude Layout KState CString Uart User UPrintf Umalloc.

(** ** Constants *)

Definition EXEC : Z := 1.
Definition REDIR : Z := 2.
Definition PIPE : Z := 3.
Definition LIST : Z := 4.
Definition BACK : Z := 5.
Definition MAXARGS : Z := 10.

Definition whitespace : list Z := [32; 9; 13; 10; 11].
Definition symbols : list Z := str "<|>&;()".

(** [strchr(l, c)] is not null, for a constant string [l]. *)
Definition is_in (l : list Z) (c : Z) : bool := existsb (Z.eqb c) l.

(** The offsets of the members of [struct execcmd], [redircmd], [pipecmd],
    [listcmd] and [backcmd]. *)
Definition x_argv (p i : Z) : Z := p + 8 + 8 * i.
Definition x_eargv (p i : Z) : Z := p + 8 + 8 * MAXARGS + 8 * i.
Definition r_cmd (p : Z) : Z := p + 8.
Definition r_file (p : Z) : Z := p + 16.
Definition r_efile (p : Z) : Z := p + 24.
Definition r_mode (p : Z) : Z := p + 32.
Definition r_fd (p : Z) : Z := p + 36.
Definition c_left (p : Z) : Z := p + 8.
Definition c_right (p : Z) : Z := p + 16.

Section sh.
Context {O : Type} {S : Sys O}.
(** [base] and [a_freep] are the variables of [malloc]; [fuel] bounds the loops. *)
Context (base a_freep : Z) (fuel : nat).

(** Members of structures. *)
Definition l64 (a : Z) : UM O Z := gets (λ u, ld64 (u_mem u) a).
Definition l32 (a : Z) : UM O Z := gets (λ u, ld32 (u_mem u) a).
Definition s64 (a v : Z) : UM O () := modify (λ u, u <| u_mem ::= λ m, st64 m a v |>).
Definition s32 (a v : Z) : UM O () := modify (λ u, u <| u_mem ::= λ m, st32 m a v |>).

Definition sh_panic {A} (s : list Z) : UM O A :=
  Uprintf.fprintf 2 (str "%s" ++ [10]) [VStr (Some s)] ;;
  exit 1.

Definition fork1 : UM O Z :=
  pid ← sys os_fork;
  if pid =? -1 then sh_panic (str "fork") else mret pid.

(** ** Constructors *)

(** [malloc] and [memset].  Without memory, [memset] writes to address 0: the
    program's text is there, and the kernel kills the process. *)
Definition zalloc (n : Z) : UM O Z :=
  cmd ← malloc base a_freep fuel n;
  if cmd =? 0 then exit (-1) else
  Ulib.memset cmd 0 n ;;
  mret cmd.

Definition execcmd : UM O Z :=
  cmd ← zalloc 168;
  s32 cmd EXEC ;;
  mret cmd.
Definition redircmd (subcmd file efile mode fd : Z) : UM O Z :=
  cmd ← zalloc 40;
  s32 cmd REDIR ;;
  s64 (r_cmd cmd) subcmd ;;
  s64 (r_file cmd) file ;;
  s64 (r_efile cmd) efile ;;
  s32 (r_mode cmd) mode ;;
  s32 (r_fd cmd) fd ;;
  mret cmd.
Definition pipecmd (left right : Z) : UM O Z :=
  cmd ← zalloc 24;
  s32 cmd PIPE ;;
  s64 (c_left cmd) left ;;
  s64 (c_right cmd) right ;;
  mret cmd.
Definition listcmd (left right : Z) : UM O Z :=
  cmd ← zalloc 24;
  s32 cmd LIST ;;
  s64 (c_left cmd) left ;;
  s64 (c_right cmd) right ;;
  mret cmd.
Definition backcmd (subcmd : Z) : UM O Z :=
  cmd ← zalloc 16;
  s32 cmd BACK ;;
  s64 (r_cmd cmd) subcmd ;;
  mret cmd.

(** ** Scanning *)

(** [while(s < es && strchr(whitespace, *s)) s++;] *)
Fixpoint skip_space (n : nat) (s es : Z) : UM O Z :=
  match n with
  | 0%nat => spin
  | Datatypes.S n' =>
      if s <? es then
        c ← lb s;
        if is_in whitespace c then skip_space n' (s + 1) es else mret s
      else mret s
  end.
(** [while(s < es && !strchr(whitespace, *s) && !strchr(symbols, *s)) s++;] *)
Fixpoint skip_word (n : nat) (s es : Z) : UM O Z :=
  match n with
  | 0%nat => spin
  | Datatypes.S n' =>
      if s <? es then
        c ← lb s;
        if negb (is_in whitespace c) && negb (is_in symbols c) then skip_word n' (s + 1) es else mret s
      else mret s
  end.

(** The result, [*q], [*eq] and [*ps]. *)
Definition gettoken (s es : Z) : UM O (Z * Z * Z * Z) :=
  s ← skip_space fuel s es;
  let q := s in
  c ← lb s;
  r ← (if c =? 0 then mret (c, s)
       else if is_in (str "|();&<") c then mret (c, s + 1)
       else if c =? ch ">" then
         d ← lb (s + 1);
         mret (if d =? ch ">" then (ch "+", s + 2) else (c, s + 1))
       else
         s ← skip_word fuel s es;
         mret (ch "a", s));
  let eq := r.2 in
  s ← skip_space fuel eq es;
  mret (r.1, q, eq, s).

(** The result and [*ps]. *)
Definition peek (s es : Z) (toks : list Z) : UM O (bool * Z) :=
  s ← skip_space fuel s es;
  c ← lb s;
  mret (negb (c =? 0) && is_in toks c, s).

(** ** Parsing *)

(** The command and [*ps]. *)
Fixpoint parseredirs (n : nat) (cmd s es : Z) : UM O (Z * Z) :=
  match n with
  | 0%nat => spin
  | Datatypes.S n' =>
      p ← peek s es (str "<>");
      if negb p.1 then mret (cmd, p.2) else
      t ← gettoken p.2 es;
      let '(tok, _, _, s) := t in
      t ← gettoken s es;
      let '(a, q, eq, s) := t in
      if negb (a =? ch "a") then sh_panic (str "missing file for redirection") else
      cmd ← (if tok =? ch "<" then redircmd cmd q eq O_RDONLY 0
             else if tok =? ch ">" then redircmd cmd q eq (Z.lor (Z.lor O_WRONLY O_CREATE) O_TRUNC) 1
             else if tok =? ch "+" then redircmd cmd q eq (Z.lor O_WRONLY O_CREATE) 1
             else mret cmd);
      parseredirs n' cmd s es
  end.

(** The loop of [parseexec]: [ret], [argc] and [*ps]. *)
Fixpoint parseargs (n : nat) (cmd ret argc s es : Z) : UM O (Z * Z * Z) :=
  match n with
  | 0%nat => spin
  | Datatypes.S n' =>
      p ← peek s es (str "|)&;");
      if p.1 : bool then mret (ret, argc, p.2) else
      t ← gettoken p.2 es;
      let '(tok, q, eq, s) := t in
      if tok =? 0 then mret (ret, argc, s) else
      if negb (tok =? ch "a") then sh_panic (str "syntax") else
      s64 (x_argv cmd argc) q ;;
      s64 (x_eargv cmd argc) eq ;;
      let argc := argc + 1 in
      if MAXARGS <=? argc then sh_panic (str "too many args") else
      r ← parseredirs fuel ret s es;
      parseargs n' cmd r.1 argc r.2 es
  end.

(** [parseline] is called for what is between parentheses. *)
Definition parseblock (parseline : Z -> Z -> UM O (Z * Z)) (s es : Z) : UM O (Z * Z) :=
  p ← peek s es (str "(");
  if negb p.1 then sh_panic (str "parseblock") else
  t ← gettoken p.2 es;
  let '(_, _, _, s) := t in
  r ← parseline s es;
  p ← peek r.2 es (str ")");
  if negb p.1 then sh_panic (str "syntax - missing )") else
  t ← gettoken p.2 es;
  let '(_, _, _, s) := t in
  parseredirs fuel r.1 s es.

Definition parseexec (parseline : Z -> Z -> UM O (Z * Z)) (s es : Z) : UM O (Z * Z) :=
  p ← peek s es (str "(");
  if p.1 : bool then parseblock parseline p.2 es else
  cmd ← execcmd;
  r ← parseredirs fuel cmd p.2 es;
  r ← parseargs fuel cmd r.1 0 r.2 es;
  let '(ret, argc, s) := r in
  s64 (x_argv cmd argc) 0 ;;
  s64 (x_eargv cmd argc) 0 ;;
  mret (ret, s).

Fixpoint parsepipe (n : nat) (parseline : Z -> Z -> UM O (Z * Z)) (s es : Z) : UM O (Z * Z) :=
  match n with
  | 0%nat => spin
  | Datatypes.S n' =>
      r ← parseexec parseline s es;
      p ← peek r.2 es (str "|");
      if p.1 : bool then
        t ← gettoken p.2 es;
        let '(_, _, _, s) := t in
        r' ← parsepipe n' parseline s es;
        cmd ← pipecmd r.1 r'.1;
        mret (cmd, r'.2)
      else mret (r.1, p.2)
  end.

(** [while(peek(ps, es, "&"))] *)
Fixpoint parseback (n : nat) (cmd s es : Z) : UM O (Z * Z) :=
  match n with
  | 0%nat => spin
  | Datatypes.S n' =>
      p ← peek s es (str "&");
      if negb p.1 then mret (cmd, p.2) else
      t ← gettoken p.2 es;
      let '(_, _, _, s) := t in
      cmd ← backcmd cmd;
      parseback n' cmd s es
  end.

Fixpoint parseline (n : nat) (s es : Z) : UM O (Z * Z) :=
  match n with
  | 0%nat => spin
  | Datatypes.S n' =>
      r ← parsepipe n' (parseline n') s es;
      r ← parseback fuel r.1 r.2 es;
      p ← peek r.2 es (str ";");
      if p.1 : bool then
        t ← gettoken p.2 es;
        let '(_, _, _, s) := t in
        r' ← parseline n' s es;
        cmd ← listcmd r.1 r'.1;
        mret (cmd, r'.2)
      else mret (r.1, p.2)
  end.

(** [for(i=0; ecmd->argv[i]; i++) *ecmd->eargv[i] = 0;] *)
Fixpoint nulterminate_args (n : nat) (cmd i : Z) : UM O () :=
  match n with
  | 0%nat => spin
  | Datatypes.S n' =>
      a ← l64 (x_argv cmd i);
      if a =? 0 then mret () else
      e ← l64 (x_eargv cmd i);
      sb e 0 ;;
      nulterminate_args n' cmd (i + 1)
  end.

Fixpoint nulterminate (n : nat) (cmd : Z) : UM O () :=
  match n with
  | 0%nat => spin
  | Datatypes.S n' =>
      if cmd =? 0 then mret () else
      type ← l32 cmd;
      if type =? EXEC then nulterminate_args fuel cmd 0
      else if type =? REDIR then
        c ← l64 (r_cmd cmd);
        nulterminate n' c ;;
        e ← l64 (r_efile cmd);
        sb e 0
      else if (type =? PIPE) || (type =? LIST) then
        l ← l64 (c_left cmd);
        nulterminate n' l ;;
        r ← l64 (c_right cmd);
        nulterminate n' r
      else if type =? BACK then
        c ← l64 (r_cmd cmd);
        nulterminate n' c
      else mret ()
  end.

Definition parsecmd (s : Z) : UM O Z :=
  n ← Ulib.strlen fuel s;
  let es := s + n in
  r ← parseline fuel s es;
  p ← peek r.2 es [];
  if negb (p.2 =? es) then
    l ← ustr fuel p.2;
    Uprintf.fprintf 2 (str "leftovers: %s" ++ [10]) [VStr (Some l)] ;;
    sh_panic (str "syntax")
  else
  nulterminate fuel r.1 ;;
  mret r.1.

(** ** Running *)

(** The strings of an argument vector that ends with a null pointer. *)
Fixpoint argv_strings (n : nat) (argv : Z) : UM O (list (list Z)) :=
  match n with
  | 0%nat => spin
  | Datatypes.S n' =>
      a ← l64 argv;
      if a =? 0 then mret [] else
      s ← ustr fuel a;
      l ← argv_strings n' (argv + 8);
      mret (s :: l)
  end.

(** A successful [exec] replaces the program: it ends without a status. *)
Definition exec (path argv : Z) : UM O Z :=
  s ← ustr fuel path;
  l ← argv_strings fuel argv;
  r ← sys (os_exec s l);
  match r with
  | Some r => mret r
  | None => switch
  end.

Fixpoint runcmd (n : nat) (cmd : Z) : UM O () :=
  match n with
  | 0%nat => spin
  | Datatypes.S n' =>
      if cmd =? 0 then exit 1 else
      type ← l32 cmd;
      (if type =? EXEC then
         a ← l64 (x_argv cmd 0);
         if a =? 0 then exit 1 else
         exec a (x_argv cmd 0) ;;
         s ← ustr fuel a;
         Uprintf.fprintf 2 (str "exec %s failed" ++ [10]) [VStr (Some s)]
       else if type =? REDIR then
         fd ← l32 (r_fd cmd);
         sys (os_close fd) ;;
         f ← l64 (r_file cmd);
         s ← ustr fuel f;
         mode ← l32 (r_mode cmd);
         r ← sys (os_open s mode);
         if r <? 0 then
           Uprintf.fprintf 2 (str "open %s failed" ++ [10]) [VStr (Some s)] ;;
           exit 1
         else
         c ← l64 (r_cmd cmd);
         runcmd n' c
       else if type =? LIST then
         pid ← fork1;
         (if pid =? 0 then l ← l64 (c_left cmd); runcmd n' l else mret ()) ;;
         sys os_wait ;;
         r ← l64 (c_right cmd);
         runcmd n' r
       else if type =? PIPE then
         p ← sys os_pipe;
         let '(r, (p0, p1)) := p in
         if r <? 0 then sh_panic (str "pipe") else
         pid ← fork1;
         (if pid =? 0 then
            sys (os_close 1) ;;
            sys (os_dup p1) ;;
            sys (os_close p0) ;;
            sys (os_close p1) ;;
            l ← l64 (c_left cmd);
            runcmd n' l
          else mret ()) ;;
         pid ← fork1;
         (if pid =? 0 then
            sys (os_close 0) ;;
            sys (os_dup p0) ;;
            sys (os_close p0) ;;
            sys (os_close p1) ;;
            l ← l64 (c_right cmd);
            runcmd n' l
          else mret ()) ;;
         sys (os_close p0) ;;
         sys (os_close p1) ;;
         sys os_wait ;;
         sys os_wait ;;
         mret ()
       else if type =? BACK then
         pid ← fork1;
         if pid =? 0 then c ← l64 (r_cmd cmd); runcmd n' c else mret ()
       else sh_panic (str "runcmd")) ;;
      exit 0
  end.

(** ** The main loop *)

Definition getcmd (buf nbuf : Z) : UM O Z :=
  sys (os_write 2 (str "$ ")) ;;
  Ulib.memset buf 0 nbuf ;;
  Ulib.gets buf nbuf ;;
  c ← lb buf;
  mret (if c =? 0 then -1 else 0).

(** [while((fd = open("console", O_RDWR)) >= 0)] *)
Fixpoint open_console (n : nat) : UM O () :=
  match n with
  | 0%nat => spin
  | Datatypes.S n' =>
      fd ← sys (os_open (str "console") O_RDWR);
      if fd <? 0 then mret () else
      if 3 <=? fd then sys (os_close fd) ;; mret () else
      open_console n'
  end.

(** [while ( *cmd == ' ' || *cmd == '\t') cmd++;] *)
Fixpoint skip_blank (n : nat) (cmd : Z) : UM O Z :=
  match n with
  | 0%nat => spin
  | Datatypes.S n' =>
      c ← lb cmd;
      if (c =? 32) || (c =? 9) then skip_blank n' (cmd + 1) else mret cmd
  end.

(** A line that is not blank. *)
Definition sh_command (cmd : Z) : UM O () :=
  c0 ← lb cmd;
  c1 ← lb (cmd + 1);
  c2 ← lb (cmd + 2);
  if (c0 =? ch "c") && (c1 =? ch "d") && (c2 =? 32) then
    n ← Ulib.strlen fuel cmd;
    sb (cmd + n - 1) 0 ;;
    s ← ustr fuel (cmd + 3);
    r ← sys (os_chdir s);
    if r <? 0 then Uprintf.fprintf 2 (str "cannot cd %s" ++ [10]) [VStr (Some s)] else mret ()
  else
    pid ← fork1;
    (if pid =? 0 then c ← parsecmd cmd; runcmd fuel c else mret ()) ;;
    sys os_wait ;;
    mret ().

(** [buf] is the address of [static char buf[100]]; [rounds] bounds the lines. *)
Fixpoint sh_loop (rounds : nat) (buf : Z) : UM O () :=
  match rounds with
  | 0%nat => spin
  | Datatypes.S rounds' =>
      r ← getcmd buf 100;
      if r <? 0 then exit 0 else
      cmd ← skip_blank fuel buf;
      c ← lb cmd;
      (if c =? 10 then mret () else sh_command cmd) ;;
      sh_loop rounds' buf
  end.
Definition sh_main (rounds : nat) (buf : Z) : UM O () :=
  open_console fuel ;;
  sh_loop rounds buf.
End sh.
