(* ===== verification/ShGrammar.v ===== *)
(** * The language of the shell

    What [user/sh.c] accepts: the tokens of a line, a grammar for command
    lines, and a recursive-descent parser on tokens that is proved to decide
    the grammar.  Every command can be written down and read back. *)
From Stdlib Require Import Ascii String.
From S2P Require Import Prelude Layout KState CString Uart User UPrintf Umalloc Sh.

(** ** Tokens *)

Inductive token : Type := TWord (w : list Z) | TSym (c : Z).

Definition is_space (c : Z) : bool := is_in whitespace c.
Definition is_word (c : Z) : bool := negb (c =? 0) && negb (is_space c) && negb (is_in symbols c).
Definition starts_word (l : list Z) : bool := match l with c :: _ => is_word c | [] => false end.

(** [c] in front of the word that comes first. *)
Definition cons_word (c : Z) (ts : list token) : list token :=
  match ts with
  | TWord w :: ts' => TWord (c :: w) :: ts'
  | _ => TWord [c] :: ts
  end.

Fixpoint lex (l : list Z) : list token :=
  match l with
  | [] => []
  | c :: l' =>
      if is_space c then lex l'
      else if c =? ch ">" then
        match l' with
        | d :: l'' => if d =? ch ">" then TSym (ch "+") :: lex l'' else TSym c :: lex l'
        | [] => [TSym c]
        end
      else if is_in symbols c then TSym c :: lex l'
      else if starts_word l' then cons_word c (lex l')
      else TWord [c] :: lex l'
  end.

(** ** Commands *)

Inductive cmd : Type :=
| Exec (argv : list (list Z))
| Redir (c : cmd) (file : list Z) (mode fd : Z)
| Pipe (left right : cmd)
| List (left right : cmd)
| Back (c : cmd).

Definition redir : Type := list Z * Z * Z.
Definition wrap (c : cmd) (rs : list redir) : cmd := foldl (λ c r, Redir c r.1.1 r.1.2 r.2) c rs.

Definition redir_of (s : Z) (f : list Z) : option redir :=
  if s =? ch "<" then Some (f, O_RDONLY, 0)
  else if s =? ch ">" then Some (f, Z.lor (Z.lor O_WRONLY O_CREATE) O_TRUNC, 1)
  else if s =? ch "+" then Some (f, Z.lor O_WRONLY O_CREATE, 1)
  else None.
Definition is_redir (s : Z) : bool := (s =? ch "<") || (s =? ch ">") || (s =? ch "+").

(** ** The grammar *)

(** Words and redirections in any order. *)
Inductive items : list token -> list (list Z) -> list redir -> Prop :=
| i_nil : items [] [] []
| i_word w ts ws rs : items ts ws rs -> items (TWord w :: ts) (w :: ws) rs
| i_redir s f r ts ws rs : redir_of s f = Some r -> items ts ws rs -> items (TSym s :: TWord f :: ts) ws (r :: rs).

Inductive cat : Type := CExec | CPipe | CBack | CLine.

Inductive derives : cat -> list token -> cmd -> Prop :=
| d_simple ts ws rs : items ts ws rs -> Z.of_nat (length ws) < MAXARGS -> derives CExec ts (wrap (Exec ws) rs)
| d_block ts c ts' rs : derives CLine ts c -> items ts' [] rs ->
    derives CExec (TSym (ch "(") :: ts ++ TSym (ch ")") :: ts') (wrap c rs)
| d_one ts c : derives CExec ts c -> derives CPipe ts c
| d_pipe ts c ts' d : derives CExec ts c -> derives CPipe ts' d -> derives CPipe (ts ++ TSym (ch "|") :: ts') (Pipe c d)
| d_fg ts c : derives CPipe ts c -> derives CBack ts c
| d_bg ts c : derives CBack ts c -> derives CBack (ts ++ [TSym (ch "&")]) (Back c)
| d_last ts c : derives CBack ts c -> derives CLine ts c
| d_list ts c ts' d : derives CBack ts c -> derives CLine ts' d -> derives CLine (ts ++ TSym (ch ";") :: ts') (List c d).

(** ** A parser on tokens *)

Definition is_sym (s : string) (t : token) : bool := match t with TSym c => is_in (str s) c | TWord _ => false end.
Definition next_in (s : string) (ts : list token) : bool := match ts with t :: _ => is_sym s t | [] => false end.

Fixpoint p_redirs (ts : list token) : option (list redir * list token) :=
  match ts with
  | TSym s :: ts' =>
      if is_redir s then
        match ts' with
        | TWord f :: ts'' =>
            match redir_of s f, p_redirs ts'' with
            | Some r, Some (rs, rest) => Some (r :: rs, rest)
            | _, _ => None
            end
        | _ => None
        end
      else Some ([], ts)
  | _ => Some ([], ts)
  end.

(** [argc] words have been seen. *)
Fixpoint p_items (argc : Z) (ts : list token) : option (list (list Z) * list redir * list token) :=
  match ts with
  | [] => Some ([], [], [])
  | TWord w :: ts' =>
      if MAXARGS <=? argc + 1 then None else
      match p_items (argc + 1) ts' with
      | Some (ws, rs, rest) => Some (w :: ws, rs, rest)
      | None => None
      end
  | TSym s :: ts' =>
      if is_redir s then
        match ts' with
        | TWord f :: ts'' =>
            match redir_of s f, p_items argc ts'' with
            | Some r, Some (ws, rs, rest) => Some (ws, r :: rs, rest)
            | _, _ => None
            end
        | _ => None
        end
      else if is_in (str "|)&;") s then Some ([], [], ts) else None
  end.

Definition p_block (p_line : list token -> option (cmd * list token)) (ts : list token) : option (cmd * list token) :=
  match p_line ts with
  | Some (c, t :: ts') =>
      if is_sym ")" t then
        match p_redirs ts' with
        | Some (rs, rest) => Some (wrap c rs, rest)
        | None => None
        end
      else None
  | _ => None
  end.
Definition p_exec (p_line : list token -> option (cmd * list token)) (ts : list token) : option (cmd * list token) :=
  if next_in "(" ts then p_block p_line (tl ts) else
  match p_items 0 ts with
  | Some (ws, rs, rest) => Some (wrap (Exec ws) rs, rest)
  | None => None
  end.
Fixpoint p_pipe (n : nat) (p_line : list token -> option (cmd * list token)) (ts : list token) : option (cmd * list token) :=
  match n with
  | 0%nat => None
  | S n' =>
      match p_exec p_line ts with
      | Some (c, rest) =>
          if next_in "|" rest then
            match p_pipe n' p_line (tl rest) with
            | Some (d, rest') => Some (Pipe c d, rest')
            | None => None
            end
          else Some (c, rest)
      | None => None
      end
  end.
Fixpoint p_back (c : cmd) (ts : list token) : cmd * list token :=
  match ts with
  | t :: ts' => if is_sym "&" t then p_back (Back c) ts' else (c, ts)
  | [] => (c, ts)
  end.
Fixpoint p_line (n : nat) (ts : list token) : option (cmd * list token) :=
  match n with
  | 0%nat => None
  | S n' =>
      match p_pipe n' (p_line n') ts with
      | Some (c, rest) =>
          let '(c, rest) := p_back c rest in
          if next_in ";" rest then
            match p_line n' (tl rest) with
            | Some (d, rest') => Some (List c d, rest')
            | None => None
            end
          else Some (c, rest)
      | None => None
      end
  end.
Definition p_cmd (ts : list token) : option cmd :=
  match p_line (length ts + 2) ts with
  | Some (c, []) => Some c
  | _ => None
  end.

(** ** Soundness *)

Lemma is_redir_of s f : is_redir s = true <-> is_Some (redir_of s f).
Proof.
  unfold is_redir, redir_of. destruct (s =? ch "<"), (s =? ch ">"), (s =? ch "+"); cbn; split; try done; by eauto using is_Some.
Qed.
Lemma is_sym_inv s t : is_sym s t = true -> ∃ c, t = TSym c ∧ is_in (str s) c = true.
Proof. destruct t as [|c]; [done|]. intros H. by exists c. Qed.
Lemma is_sym_one c t : is_sym (String c "") t = true -> t = TSym (ch c).
Proof. intros (d & -> & H)%is_sym_inv. cbn in H. rewrite orb_false_r in H. by apply Z.eqb_eq in H as ->. Qed.
Lemma next_one c ts : next_in (String c "") ts = true -> ts = TSym (ch c) :: tl ts.
Proof. destruct ts as [|t ts]; [done|]. intros H. cbn [tl]. f_equal. by apply is_sym_one. Qed.

Lemma p_redirs_sound ts rs rest : p_redirs ts = Some (rs, rest) -> ∃ pre, ts = pre ++ rest ∧ items pre [] rs.
Proof.
  revert rs rest. induction ts as [ts IH] using (induction_ltof1 _ length). unfold ltof in IH. intros rs rest H.
  destruct ts as [|[w|s] ts]; cbn in H.
  1, 2: injection H as <- <-; exists []; split; [done|constructor].
  destruct (is_redir s); [|injection H as <- <-; exists []; split; [done|constructor]].
  destruct ts as [|[f|] ts]; [done| |done]. destruct (redir_of s f) as [r|] eqn:Er; [|done].
  destruct (p_redirs ts) as [[rs' rest']|] eqn:E; [|done]. injection H as <- <-.
  destruct (IH ts ltac:(cbn; lia) _ _ E) as (pre & -> & Hi). exists (TSym s :: TWord f :: pre). split; [done|]. by constructor.
Qed.
Lemma p_items_sound argc ts ws rs rest : p_items argc ts = Some (ws, rs, rest) -> argc < MAXARGS ->
  ∃ pre, ts = pre ++ rest ∧ items pre ws rs ∧ argc + Z.of_nat (length ws) < MAXARGS.
Proof.
  revert argc ws rs rest. induction ts as [ts IH] using (induction_ltof1 _ length). unfold ltof in IH. intros argc ws rs rest H Ha.
  destruct ts as [|[w|s] ts]; cbn [p_items] in H.
  - injection H as <- <- <-. exists []. split; [done|]. split; [constructor|]. cbn. lia.
  - destruct (Z.leb_spec MAXARGS (argc + 1)); [done|]. destruct (p_items (argc + 1) ts) as [[[ws' rs'] rest']|] eqn:E; [|done].
    injection H as <- <- <-. destruct (IH ts ltac:(cbn; lia) _ _ _ _ E ltac:(lia)) as (pre & -> & Hi & Hn).
    exists (TWord w :: pre). split; [done|]. split; [by constructor|]. cbn [length]. lia.
  - destruct (is_redir s).
    + destruct ts as [|[f|] ts]; [done| |done]. destruct (redir_of s f) as [r|] eqn:Er; [|done].
      destruct (p_items argc ts) as [[[ws' rs'] rest']|] eqn:E; [|done]. injection H as <- <- <-.
      destruct (IH ts ltac:(cbn; lia) _ _ _ _ E ltac:(lia)) as (pre & -> & Hi & Hn).
      exists (TSym s :: TWord f :: pre). split; [done|]. split; [by constructor|done].
    + destruct (is_in (str "|)&;") s); [|done]. injection H as <- <- <-. exists []. split; [done|]. split; [constructor|]. cbn. lia.
Qed.

(** [parseexec] reads redirections first. *)
Lemma p_items_redirs argc ts : p_items argc ts =
  match p_redirs ts with
  | Some (rs, ts') =>
      match p_items argc ts' with
      | Some (ws, rs', rest) => Some (ws, rs ++ rs', rest)
      | None => None
      end
  | None => None
  end.
Proof.
  induction ts as [ts IH] using (induction_ltof1 _ length). unfold ltof in IH.
  assert (p_redirs ts = Some ([], ts) -> p_items argc ts = match p_items argc ts with Some (ws, rs', rest) => Some (ws, [] ++ rs', rest) | None => None end) as H0
    by (intros _; by destruct (p_items argc ts) as [[[] ?]|]).
  destruct ts as [|[w|s] ts]; [by apply H0|by apply H0|]. cbn [p_redirs]. destruct (is_redir s) eqn:Es; [|apply H0; cbn [p_redirs]; by rewrite Es].
  clear H0. cbn [p_items]. rewrite Es. destruct ts as [|[f|] ts]; [done| |done]. destruct (redir_of s f) as [r|]; [|done].
  rewrite (IH ts) by (cbn; lia). destruct (p_redirs ts) as [[rs ts']|]; [|done]. by destruct (p_items argc ts') as [[[] ?]|].
Qed.

(** A parser for a category. *)
Definition sound (k : cat) (p : list token -> option (cmd * list token)) : Prop :=
  ∀ ts c rest, p ts = Some (c, rest) -> ∃ pre, ts = pre ++ rest ∧ derives k pre c.

Lemma p_exec_sound pl : sound CLine pl -> sound CExec (p_exec pl).
Proof.
  intros Hl ts c rest H. unfold p_exec in H. destruct (next_in "(" ts) eqn:Ep.
  - apply next_one in Ep. rewrite Ep. clear Ep. unfold p_block in H.
    destruct (pl (tl ts)) as [[c' [|t ts']]|] eqn:E; [done| |done]. destruct (is_sym ")" t) eqn:Et; [|done].
    apply is_sym_one in Et as ->. destruct (p_redirs ts') as [[rs rest']|] eqn:Er; [|done]. injection H as <- <-.
    destruct (Hl _ _ _ E) as (pre & -> & Hd), (p_redirs_sound _ _ _ Er) as (pre' & -> & Hi).
    exists (TSym (ch "(") :: pre ++ TSym (ch ")") :: pre'). split; [cbn; by rewrite <- app_assoc|]. by constructor.
  - destruct (p_items 0 ts) as [[[ws rs] rest']|] eqn:E; [|done]. injection H as <- <-.
    destruct (p_items_sound _ _ _ _ _ E) as (pre & -> & Hi & Hn); [done|]. exists pre. split; [done|]. by constructor.
Qed.
Lemma p_pipe_sound n pl : sound CLine pl -> sound CPipe (p_pipe n pl).
Proof.
  intros Hl. induction n as [|n IH]; intros ts c rest H; [done|]. cbn [p_pipe] in H.
  destruct (p_exec pl ts) as [[c' rest']|] eqn:E; [|done]. destruct (p_exec_sound _ Hl _ _ _ E) as (pre & -> & Hd).
  destruct (next_in "|" rest') eqn:Ep; [|injection H as <- <-; exists pre; split; [done|by constructor]].
  apply next_one in Ep. destruct (p_pipe n pl (tl rest')) as [[d rest'']|] eqn:E'; [|done]. injection H as <- <-.
  destruct (IH _ _ _ E') as (pre' & Et & Hd'). exists (pre ++ TSym (ch "|") :: pre'). split; [|by constructor].
  rewrite Ep, Et. by rewrite <- app_assoc.
Qed.
Lemma p_back_sound ts c pre0 c' rest : derives CBack pre0 c -> p_back c ts = (c', rest) ->
  ∃ pre, ts = pre ++ rest ∧ derives CBack (pre0 ++ pre) c'.
Proof.
  revert c pre0. induction ts as [|t ts IH]; intros c pre0 Hd H; cbn in H.
  - injection H as <- <-. exists []. split; [done|by rewrite app_nil_r].
  - destruct (is_sym "&" t) eqn:Et; [|injection H as <- <-; exists []; split; [done|by rewrite app_nil_r]].
    apply is_sym_one in Et as ->. destruct (IH (Back c) (pre0 ++ [TSym (ch "&")])) as (pre & -> & Hd'); [by constructor|done|].
    exists (TSym (ch "&") :: pre). split; [done|]. by rewrite <- app_assoc in Hd'.
Qed.
Lemma p_line_sound n : sound CLine (p_line n).
Proof.
  induction n as [|n IH]; intros ts c rest H; [done|]. cbn [p_line] in H.
  destruct (p_pipe n (p_line n) ts) as [[c1 rest1]|] eqn:E; [|done]. destruct (p_pipe_sound _ _ IH _ _ _ E) as (pre & -> & Hd).
  destruct (p_back c1 rest1) as [c2 rest2] eqn:Eb. destruct (p_back_sound _ _ pre _ _ (d_fg _ _ Hd) Eb) as (pre2 & -> & Hd2).
  destruct (next_in ";" rest2) eqn:Ep.
  - apply next_one in Ep. destruct (p_line n (tl rest2)) as [[d rest3]|] eqn:E'; [|done]. injection H as <- <-.
    destruct (IH _ _ _ E') as (pre' & Et & Hd'). exists ((pre ++ pre2) ++ TSym (ch ";") :: pre'). split; [|by constructor].
    rewrite Ep, Et. by rewrite <- !app_assoc.
  - injection H as <- <-. exists (pre ++ pre2). split; [by rewrite app_assoc|]. by constructor.
Qed.

(** ** Completeness *)

(** What can follow a part of a line. *)
Definition follow (s : string) (ts : list token) : bool := match ts with t :: _ => is_sym s t | [] => true end.

Lemma follow_weaken s s' ts : (∀ c, is_in (str s) c = true -> is_in (str s') c = true) -> follow s ts = true -> follow s' ts = true.
Proof. destruct ts as [|[|c] ts]; [done|done|]. cbn. auto. Qed.

Lemma p_redirs_complete ts rs rest : items ts [] rs -> follow "|)&;" rest = true -> p_redirs (ts ++ rest) = Some (rs, rest).
Proof.
  intros Hi Hf. remember [] as ws eqn:E. induction Hi as [|w ts ws rs Hi IH|s f r ts ws rs Hr Hi IH]; [|done|].
  - cbn [app]. destruct rest as [|[w|s] rest]; [done|done|]. cbn. cbn in Hf.
    destruct (is_redir s) eqn:Es; [|done]. exfalso.
    unfold is_redir in Es. apply orb_true_iff in Es as [[Es|Es]%orb_true_iff|Es]; apply Z.eqb_eq in Es as ->; done.
  - cbn. rewrite (proj2 (is_redir_of s f) (mk_is_Some _ _ Hr)), Hr, IH by done. done.
Qed.
Lemma p_items_complete argc ts ws rs rest : items ts ws rs -> follow "|)&;" rest = true ->
  argc + Z.of_nat (length ws) < MAXARGS -> p_items argc (ts ++ rest) = Some (ws, rs, rest).
Proof.
  intros Hi Hf. revert argc. induction Hi as [|w ts ws rs Hi IH|s f r ts ws rs Hr Hi IH]; intros argc Ha.
  - cbn [app]. destruct rest as [|[w|s] rest]; [done|done|]. cbn [p_items]. cbn [follow is_sym] in Hf. rewrite Hf.
    destruct (is_redir s) eqn:Es; [|done]. exfalso.
    unfold is_redir in Es. apply orb_true_iff in Es as [[Es|Es]%orb_true_iff|Es]; apply Z.eqb_eq in Es as ->; done.
  - cbn [app p_items]. cbn [length] in Ha. rewrite (proj2 (Z.leb_gt MAXARGS (argc + 1))) by lia. rewrite IH by lia. done.
  - cbn [app p_items]. rewrite (proj2 (is_redir_of s f) (mk_is_Some _ _ Hr)), Hr, IH by done. done.
Qed.

Lemma items_no_paren ts ws rs rest : items ts ws rs -> follow "|)&;" rest = true -> next_in "(" (ts ++ rest) = false.
Proof.
  intros [|w ts' ws' rs' Hi|s f r ts' ws' rs' Hr Hi] Hf; [|done|].
  - destruct rest as [|[w|s] rest]; [done|done|]. cbn in *. destruct (Z.eqb_spec s (ch "(")) as [->|]; done.
  - cbn. destruct (Z.eqb_spec s (ch "(")) as [->|]; done.
Qed.

(** The parsers find a derivation of the first part of their input. *)
Definition found (k : cat) (ts : list token) (c : cmd) : Prop :=
  match k with
  | CExec => ∀ n rest, follow "|)&;" rest = true -> (length ts <= n)%nat -> p_exec (p_line n) (ts ++ rest) = Some (c, rest)
  | CPipe => ∀ m n rest, follow ")&;" rest = true -> (length ts < m)%nat -> (length ts <= n)%nat ->
      p_pipe m (p_line n) (ts ++ rest) = Some (c, rest)
  | CBack => ∀ m n rest, follow ")&;" rest = true -> (length ts < m)%nat -> (length ts <= n)%nat ->
      ∃ c' rest', p_pipe m (p_line n) (ts ++ rest) = Some (c', rest') ∧ p_back c' rest' = p_back c rest
  | CLine => ∀ n rest, follow ")" rest = true -> (length ts + 2 <= n)%nat -> p_line n (ts ++ rest) = Some (c, rest)
  end.

Lemma derives_found k ts c : derives k ts c -> found k ts c.
Proof.
  induction 1 as [ts ws rs Hi Hn|ts c ts' rs Hd IH Hi|ts c Hd IH|ts c ts' d Hd IH Hd' IH'|ts c Hd IH|ts c Hd IH|ts c Hd IH|ts c ts' d Hd IH Hd' IH'];
    cbn [found] in *.
  - intros n rest Hf Hl. unfold p_exec. rewrite (items_no_paren _ _ _ _ Hi Hf), (p_items_complete 0 _ _ _ _ Hi Hf) by lia. done.
  - intros n rest Hf Hl. cbn [app length] in *. rewrite length_app in Hl. cbn [length] in Hl. unfold p_exec. cbn [next_in is_sym is_in str existsb tl].
    rewrite Z.eqb_refl. cbn [orb]. unfold p_block. rewrite <- app_assoc. cbn [app]. rewrite IH; [|done|lia]. cbn [is_sym is_in str existsb].
    rewrite Z.eqb_refl. cbn [orb]. by rewrite (p_redirs_complete _ _ _ Hi Hf).
  - intros [|m] n rest Hf Hm Hl; [lia|]. cbn [p_pipe].
    rewrite IH; [|by eapply follow_weaken; [|exact Hf]; intros c' Hc; cbn in *; rewrite Hc; destruct (c' =? ch "|")|done].
    destruct rest as [|[w|s] rest]; [done|done|]. cbn in *. destruct (Z.eqb_spec s (ch "|")) as [->|]; done.
  - intros [|m] n rest Hf Hm Hl; [lia|]. rewrite length_app in Hm, Hl. cbn [length] in Hm, Hl. cbn [p_pipe].
    rewrite <- app_assoc. cbn [app]. rewrite IH; [|done|lia]. cbn [next_in is_sym is_in str existsb tl]. rewrite Z.eqb_refl. cbn [orb].
    rewrite IH'; [done|done|lia|lia].
  - intros m n rest Hf Hm Hl. exists c, rest. split; [by apply IH|done].
  - intros m n rest Hf Hm Hl. rewrite length_app in Hm, Hl. cbn [length] in Hm, Hl. rewrite <- app_assoc. cbn [app].
    destruct (IH m n (TSym (ch "&") :: rest)) as (c' & rest' & -> & E); [done|lia|lia|]. exists c', rest'. split; [done|]. by rewrite E.
  - intros [|n] rest Hf Hl; [lia|]. cbn [p_line].
    assert (follow ")&;" rest = true) as Hf' by (by eapply follow_weaken; [|exact Hf]; intros c' Hc; cbn in *; rewrite orb_false_r in Hc; rewrite Hc).
    destruct (IH n n rest Hf' ltac:(lia) ltac:(lia)) as (c' & rest' & -> & ->).
    destruct rest as [|[w|s] rest]; [done|done|]. cbn in Hf. rewrite orb_false_r in Hf. by apply Z.eqb_eq in Hf as ->.
  - intros [|n] rest Hf Hl; [lia|]. rewrite length_app in Hl. cbn [length] in Hl. cbn [p_line]. rewrite <- app_assoc. cbn [app].
    destruct (IH n n (TSym (ch ";") :: ts' ++ rest)) as (c' & rest' & -> & ->); [done|lia|lia|].
    cbn [p_back is_sym]. change (is_in (str "&") (ch ";")) with false. cbv iota beta. cbn [next_in is_sym tl].
    change (is_in (str ";") (ch ";")) with true. cbv iota.
    rewrite IH'; [done|done|lia].
Qed.

(** The parser decides the grammar. *)
Lemma p_cmd_decides ts c : p_cmd ts = Some c <-> derives CLine ts c.
Proof.
  unfold p_cmd. split.
  - destruct (p_line (length ts + 2) ts) as [[c' [|]]|] eqn:E; [|done|done]. intros [= <-].
    destruct (p_line_sound _ _ _ _ E) as (pre & -> & Hd). by rewrite app_nil_r.
  - intros Hd. pose proof (derives_found _ _ _ Hd (length ts + 2)%nat [] eq_refl ltac:(lia)) as H. rewrite app_nil_r in H. by rewrite H.
Qed.

(** ** Writing commands *)

(** A parenthesised line, unless the command fits. *)
Definition paren (fits : bool) (ts : list token) : list token :=
  if fits then ts else TSym (ch "(") :: ts ++ [TSym (ch ")")].
Definition redir_sym (mode fd : Z) : Z :=
  if fd =? 0 then ch "<" else if mode =? Z.lor O_WRONLY O_CREATE then ch "+" else ch ">".

Fixpoint print (k : cat) (c : cmd) : list token :=
  match c with
  | Exec ws => TWord <$> ws
  | Redir c' f mode fd => print CExec c' ++ [TSym (redir_sym mode fd); TWord f]
  | Pipe l r => paren (match k with CExec => false | _ => true end) (print CExec l ++ TSym (ch "|") :: print CPipe r)
  | Back c' => paren (match k with CBack | CLine => true | _ => false end) (print CBack c' ++ [TSym (ch "&")])
  | List l r => paren (match k with CLine => true | _ => false end) (print CBack l ++ TSym (ch ";") :: print CLine r)
  end.

(** The words and redirections that can be written. *)
Definition word_ok (w : list Z) : Prop := w ≠ [] ∧ Forall (λ c, is_word c = true) w.
Fixpoint cmd_ok (c : cmd) : Prop :=
  match c with
  | Exec ws => Forall word_ok ws ∧ Z.of_nat (length ws) < MAXARGS
  | Redir c' f mode fd => cmd_ok c' ∧ word_ok f ∧ redir_of (redir_sym mode fd) f = Some (f, mode, fd)
  | Pipe l r | List l r => cmd_ok l ∧ cmd_ok r
  | Back c' => cmd_ok c'
  end.

Lemma items_words ws : items (TWord <$> ws) ws [].
Proof. induction ws; cbn; by constructor. Qed.
Lemma items_app ts ws rs ts' ws' rs' : items ts ws rs -> items ts' ws' rs' -> items (ts ++ ts') (ws ++ ws') (rs ++ rs').
Proof. induction 1; intros Hi'; cbn; [done|constructor; auto|constructor; auto]. Qed.
Lemma wrap_app c rs rs' : wrap c (rs ++ rs') = wrap (wrap c rs) rs'.
Proof. apply foldl_app. Qed.

(** More redirections. *)
Lemma derives_redir ts c s f r : derives CExec ts c -> redir_of s f = Some r ->
  derives CExec (ts ++ [TSym s; TWord f]) (Redir c r.1.1 r.1.2 r.2).
Proof.
  intros Hd Hr. assert (items [TSym s; TWord f] [] [r]) as Hi by (constructor; [done|constructor]).
  inversion Hd as [ts' ws rs Hi' Hn|ts' c' ts'' rs Hd' Hi'| | | | | |]; subst.
  - change (derives CExec (ts ++ [TSym s; TWord f]) (wrap (wrap (Exec ws) rs) [r])). rewrite <- wrap_app.
    constructor; [|done]. rewrite <- (app_nil_r ws). by apply items_app.
  - change (derives CExec ((TSym (ch "(") :: ts' ++ TSym (ch ")") :: ts'') ++ [TSym s; TWord f]) (wrap (wrap c' rs) [r])).
    rewrite <- wrap_app. cbn [app]. rewrite <- app_assoc. cbn [app]. constructor; [done|]. apply (items_app _ [] _ _ []); done.
Qed.
Lemma derives_paren k ts c : derives CLine ts c -> k ≠ CLine -> derives k (paren false ts) c.
Proof.
  intros Hd Hk. assert (derives CExec (paren false ts) c) as He by (apply (d_block ts c [] []); [done|constructor]).
  destruct k; [done|by constructor|by repeat constructor|done].
Qed.

(** A printed command is derived. *)
Lemma print_derives c k : cmd_ok c -> derives k (print k c) c.
Proof.
  revert k. induction c as [ws|c IH f mode fd|l IHl r IHr|l IHl r IHr|c IH]; intros k; cbn [cmd_ok print].
  - intros [_ Hn]. assert (derives CExec (TWord <$> ws) (Exec ws)) as Hd by (apply (d_simple _ ws []); [apply items_words|done]).
    destruct k; by repeat constructor.
  - intros (Hc & _ & Hr). pose proof (derives_redir _ _ _ _ _ (IH CExec Hc) Hr) as Hd. cbn [fst snd] in Hd. destruct k; by repeat constructor.
  - intros [Hl Hr]. assert (derives CPipe (print CExec l ++ TSym (ch "|") :: print CPipe r) (Pipe l r)) as Hd by (constructor; auto).
    destruct k; cbn [paren]; [apply derives_paren; [|done]|..]; by eauto using d_fg, d_last.
  - intros [Hl Hr]. assert (derives CLine (print CBack l ++ TSym (ch ";") :: print CLine r) (List l r)) as Hd by (constructor; auto).
    destruct k; cbn [paren]; [by apply derives_paren..|done].
  - intros Hc. assert (derives CBack (print CBack c ++ [TSym (ch "&")]) (Back c)) as Hd by (constructor; auto).
    destruct k; cbn [paren]; [apply derives_paren; [by constructor|done]..|done|by constructor].
Qed.

(** ** Text *)

Definition token_text (t : token) : list Z :=
  match t with
  | TWord w => w
  | TSym c => if c =? ch "+" then str ">>" else [c]
  end ++ [32].
Definition text (ts : list token) : list Z := mjoin (token_text <$> ts).

Definition token_ok (t : token) : Prop :=
  match t with TWord w => word_ok w | TSym c => is_in (ch "+" :: symbols) c = true end.

Lemma lex_word w l : word_ok w -> starts_word l = false -> lex (w ++ l) = TWord w :: lex l.
Proof.
  intros [Hne Hw] Hl. induction Hw as [|c w Hc Hw IH]; [done|]. cbn [app lex].
  unfold is_word, is_space in Hc. apply andb_prop in Hc as [[_ Hs]%andb_prop Hy]. apply negb_true_iff in Hs, Hy.
  unfold is_space. rewrite Hs. destruct (Z.eqb_spec c (ch ">")) as [->|_]; [done|]. rewrite Hy.
  destruct w as [|d w]; [cbn [app]; by rewrite Hl|]. cbn [app starts_word]. apply Forall_cons in Hw as [Hd Hw]. rewrite Hd.
  change (d :: w ++ l) with ((d :: w) ++ l). by rewrite IH.
Qed.
Lemma lex_text ts : Forall token_ok ts -> lex (text ts) = ts.
Proof.
  induction 1 as [|t ts Ht Hts IH]; [done|]. unfold text in *. cbn [fmap list_fmap mjoin list_join]. destruct t as [w|c]; unfold token_text at 1; cbn [token_ok] in Ht; cbv iota beta.
  - rewrite <- app_assoc. rewrite lex_word by done. exact (f_equal (λ l, TWord w :: l) IH).
  - assert (c ∈ ch "+" :: symbols) as Hc.
    { unfold is_in in Ht. apply existsb_exists in Ht as (d & Hd & ->%Z.eqb_eq). by apply list_elem_of_In. }
    unfold symbols in Hc. cbn [str] in Hc. rewrite !elem_of_cons in Hc. repeat destruct Hc as [->|Hc]; [..|by apply not_elem_of_nil in Hc];
      match goal with |- _ = ?t :: _ => exact (f_equal (λ l, t :: l) IH) end.
Qed.

Lemma redir_sym_ok mode fd : token_ok (TSym (redir_sym mode fd)).
Proof. unfold redir_sym. by repeat case_match. Qed.
Lemma print_ok c k : cmd_ok c -> Forall token_ok (print k c).
Proof.
  assert (∀ b ts, Forall token_ok ts -> Forall token_ok (paren b ts)) as Hp.
  { intros [] ts Hts; [done|]. constructor; [done|]. by rewrite Forall_app, Forall_singleton. }
  revert k. induction c as [ws|c IH f mode fd|l IHl r IHr|l IHl r IHr|c IH]; intros k; cbn [cmd_ok print].
  - intros [Hw _]. apply Forall_fmap. eapply Forall_impl; [exact Hw|]. done.
  - intros (Hc & Hf & _). apply Forall_app. split; [auto|]. constructor; [apply redir_sym_ok|]. by rewrite Forall_singleton.
  - intros [Hl Hr]. apply Hp, Forall_app. split; [auto|]. constructor; [done|auto].
  - intros [Hl Hr]. apply Hp, Forall_app. split; [auto|]. constructor; [done|auto].
  - intros Hc. apply Hp, Forall_app. split; [auto|]. by rewrite Forall_singleton.
Qed.

(** ** The first token *)

Fixpoint trim (l : list Z) : list Z :=
  match l with
  | c :: l' => if is_space c then trim l' else l
  | [] => []
  end.
Lemma lex_trim l : lex (trim l) = lex l.
Proof. induction l as [|c l IH]; [done|]. cbn [trim]. destruct (is_space c) eqn:E; [|done]. cbn [lex]. by rewrite E. Qed.
Lemma trim_length l : (length (trim l) <= length l)%nat.
Proof. induction l as [|c l IH]; [done|]. cbn [trim]. destruct (is_space c); cbn [length]; lia. Qed.
Lemma trim_hd l c l' : trim l = c :: l' -> is_space c = false.
Proof. induction l as [|d l IH]; [done|]. cbn [trim]. destruct (is_space d) eqn:E; [done|]. by intros [= <- _]. Qed.

Lemma word_split l : ∃ w l', l = w ++ l' ∧ Forall (λ c, is_word c = true) w ∧ starts_word l' = false.
Proof.
  induction l as [|c l (w & l' & -> & Hw & Hl)]; [by exists [], []|]. destruct (is_word c) eqn:E.
  - exists (c :: w), l'. split; [done|]. by split; [constructor|].
  - by exists [], (c :: w ++ l').
Qed.

(** The first token of [l]: what is left and the character it starts with. *)
Inductive lexes (l : list Z) : list token -> list Z -> Z -> Prop :=
| l_end : trim l = [] -> lexes l [] [] 0
| l_sym c l' : trim l = c :: l' -> is_in (str "|();&<") c = true -> lexes l (TSym c :: lex l') l' c
| l_gt l' : trim l = ch ">" :: l' -> hd 0 l' ≠ ch ">" -> lexes l (TSym (ch ">") :: lex l') l' (ch ">")
| l_append l' : trim l = ch ">" :: ch ">" :: l' -> lexes l (TSym (ch "+") :: lex l') l' (ch ">")
| l_word w l' : trim l = w ++ l' -> word_ok w -> starts_word l' = false -> lexes l (TWord w :: lex l') l' (hd 0 w).

Lemma lex_first l : Forall (λ c, c ≠ 0) l -> ∃ l' c, lexes l (lex l) l' c.
Proof.
  intros Hn. rewrite <- (lex_trim l). destruct (trim l) as [|c l'] eqn:E; [exists [], 0; by constructor|].
  pose proof (trim_hd _ _ _ E) as Hs. cbn [lex]. rewrite Hs. destruct (Z.eqb_spec c (ch ">")) as [->|Hgt].
  - destruct l' as [|d l'']; [exists [], (ch ">"); by apply (l_gt l [])|]. destruct (Z.eqb_spec d (ch ">")) as [->|Hd].
    + exists l'', (ch ">"). by apply l_append.
    + exists (d :: l''), (ch ">"). by apply l_gt.
  - destruct (is_in symbols c) eqn:Ey.
    + exists l', c. apply l_sym; [done|]. cbn in Ey |- *. apply Z.eqb_neq in Hgt. rewrite Hgt in Ey. cbn in Ey.
      rewrite !orb_true_iff in *. tauto.
    + assert (Forall (λ c, c ≠ 0) (trim l)) as Hn' by (clear -Hn; induction Hn; cbn; [done|case_match; [done|by constructor]]).
      rewrite E in Hn'. apply Forall_cons in Hn' as [Hc Hn']. apply Z.eqb_neq in Hc.
      assert (is_word c = true) as Hw by (unfold is_word; by rewrite Hc, Hs, Ey).
      destruct (word_split l') as (w & l'' & -> & Hw' & Hl). exists l'', c.
      assert (word_ok (c :: w)) as Hok by (split; [done|by constructor]).
      pose proof (lex_word _ _ Hok Hl) as El. cbn [app lex] in El. rewrite Hs, (proj2 (Z.eqb_neq _ _) Hgt), Ey in El. rewrite El.
      by apply (l_word l (c :: w) l'').
Qed.

Lemma lex_length l : (length (lex l) <= length l)%nat.
Proof.
  induction l as [l IH] using (induction_ltof1 _ length). unfold ltof in IH. destruct l as [|c l]; [done|]. cbn [lex length] in *.
  pose proof (IH l ltac:(lia)). destruct (is_space c); [lia|]. destruct (c =? ch ">").
  - destruct l as [|d l]; [done|]. cbn [length] in *. destruct (d =? ch ">"); cbn [length]; [specialize (IH l ltac:(lia))|]; lia.
  - destruct (is_in symbols c); [cbn [length]; lia|]. destruct (starts_word l); [|cbn [length]; lia].
    destruct (lex l) as [|[w|]]; cbn [cons_word length] in *; lia.
Qed.

(** ** Size *)

Fixpoint depth (c : cmd) : nat :=
  match c with
  | Exec _ => 1
  | Redir c' _ _ _ | Back c' => S (depth c')
  | Pipe l r | List l r => S (Nat.max (depth l) (depth r))
  end.
Lemma depth_wrap c rs : depth (wrap c rs) = (length rs + depth c)%nat.
Proof. revert c. induction rs as [|r rs IH]; intros c; [done|]. cbn. unfold wrap in IH. rewrite IH. cbn. lia. Qed.
Lemma items_redirs ts ws rs : items ts ws rs -> (length rs <= length ts)%nat.
Proof. induction 1; cbn [length]; lia. Qed.
Lemma derives_depth k ts c : derives k ts c -> (depth c <= length ts + 1)%nat.
Proof.
  induction 1 as [ts ws rs Hi Hn|ts c ts' rs Hd IH Hi| | | | | |]; rewrite ?depth_wrap; cbn [depth length]; rewrite ?length_app; cbn [length]; try lia.
  - apply items_redirs in Hi. lia.
  - apply items_redirs in Hi. lia.
Qed.
