(* ===== verification/ShSpec.v ===== *)
(** * The parser of the shell

    The parser of [user/sh.c] builds in memory the tree of the command that
    the grammar derives from the line, or exits when there is none. *)
From Stdlib Require Import Ascii String.
From S2P Require Import Prelude Layout KState CString Uart User UPrintf Umalloc Sh ShGrammar.

#[local] Opaque ld64 st64 ld32 st32.

(** ** The line *)
Section line.
Context {O : Type} {S : Sys O} (fuel : nat) (a es : Z).
Context (Hfuel : es - a < Z.of_nat fuel).
Implicit Types u : user O.

(** The text from [s] to the end of the line has the tokens [ts]. *)
Definition at_text (m : memory) (s : Z) (l : list Z) : Prop := cstr m s l ∧ s + Z.of_nat (length l) = es ∧ a <= s.
Definition at_tokens (m : memory) (s : Z) (ts : list token) : Prop := ∃ l, at_text m s l ∧ lex l = ts.

(** The word [w] is between [q] and [e]. *)
Record word (m : memory) (q e : Z) (w : list Z) : Prop := {
  wd_end : e = q + Z.of_nat (length w);
  wd_bytes : bytes (length w) m q = w;
  wd_ok : word_ok w;
  wd_in : a <= q ∧ e <= es;
  wd_stop : is_word (ld8 m e) = false;
}.

Lemma at_text_drop m s l l' : at_text m s (l ++ l') -> at_text m (s + Z.of_nat (length l)) l'.
Proof. intros (Hc & He & Ha). rewrite length_app in He. apply cstr_split in Hc as [_ Hc]. split; [done|]. lia. Qed.
Lemma at_text_fuel m s l : at_text m s l -> (length l < fuel)%nat.
Proof. intros (_ & ? & ?). lia. Qed.
Lemma at_tokens_fuel m s ts : at_tokens m s ts -> (length ts < fuel)%nat.
Proof. intros (l & Hl & <-). pose proof (lex_length l). apply at_text_fuel in Hl. lia. Qed.
Lemma at_text_hd m s l : at_text m s l -> ld8 m s = hd 0 l.
Proof. intros (Hc & _). by apply cstr_hd. Qed.
Lemma at_text_lt m s c l : at_text m s (c :: l) -> (s <? es) = true.
Proof. intros (_ & H & _). cbn [length] in H. apply Z.ltb_lt. lia. Qed.
Lemma at_text_end m s : at_text m s [] -> s = es ∧ (s <? es) = false.
Proof. intros (_ & H & _). cbn in H. split; [lia|]. apply Z.ltb_ge. lia. Qed.

Lemma skip_space_spec n s l u : at_text (u_mem u) s l -> (length l < n)%nat ->
  ∃ s', skip_space n s es u = Ret s' u ∧ at_text (u_mem u) s' (trim l).
Proof.
  revert n s. induction l as [|c l IH]; intros [|n] s Hl Hn; try (cbn [length] in Hn; lia); cbn [skip_space trim].
  - destruct (at_text_end _ _ Hl) as [_ ->]. by exists s.
  - rewrite (at_text_lt _ _ _ _ Hl). unfold lb. rewrite bind_gets, (at_text_hd _ _ _ Hl). cbn [hd]. fold (is_space c).
    destruct (is_space c); [|by exists s]. apply IH; [|cbn [length] in Hn; lia]. by apply (at_text_drop _ _ [c]).
Qed.

Lemma skip_word_spec n s w l u : at_text (u_mem u) s (w ++ l) -> Forall (λ c, is_word c = true) w -> starts_word l = false ->
  (length w < n)%nat -> skip_word n s es u = Ret (s + Z.of_nat (length w)) u.
Proof.
  intros Hl Hw Hs. revert n s Hl. induction Hw as [|c w Hc Hw IH]; intros [|n] s Hl Hn; try (cbn [length] in Hn; lia); cbn [skip_word app length] in *.
  - rewrite Z.add_0_r. destruct l as [|c l]; [by destruct (at_text_end _ _ Hl) as [_ ->]|].
    rewrite (at_text_lt _ _ _ _ Hl). unfold lb. rewrite bind_gets, (at_text_hd _ _ _ Hl). cbn [hd].
    cbn [starts_word] in Hs. unfold is_word, is_space in Hs. destruct Hl as ((_ & Hc & _) & _). apply Z.eqb_neq in Hc. rewrite Hc in Hs.
    cbn [negb andb] in Hs. by rewrite Hs.
  - rewrite (at_text_lt _ _ _ _ Hl). unfold lb. rewrite bind_gets, (at_text_hd _ _ _ Hl). cbn [hd].
    unfold is_word, is_space in Hc. apply andb_prop in Hc as [[_ H1]%andb_prop H2]. rewrite H1, H2. cbn [andb].
    rewrite IH; [f_equal; lia|by apply (at_text_drop _ _ [c])|lia].
Qed.

(** The first character of a token. *)
Definition first_char (ts : list token) : Z :=
  match ts with
  | [] => 0
  | TSym c :: _ => if c =? ch "+" then ch ">" else c
  | TWord w :: _ => hd 0 w
  end.
Lemma lexes_first l ts l' c : lexes l ts l' c -> hd 0 (trim l) = c ∧ first_char ts = c.
Proof.
  intros [E|c' l1 E Hc|l1 E Hd|l1 E|w l1 E [Hne Hw] Hl]; rewrite E; cbn [hd first_char]; [done| |done|done|].
  - split; [done|]. by destruct (Z.eqb_spec c' (ch "+")) as [->|].
  - destruct w; done.
Qed.

Lemma lexes_nil l l' c : lexes l [] l' c -> trim l = [].
Proof. by inversion 1. Qed.

Lemma peek_spec s ts toks u : at_tokens (u_mem u) s ts ->
  ∃ s', peek fuel s es toks u = Ret (negb (first_char ts =? 0) && is_in toks (first_char ts), s') u ∧ at_tokens (u_mem u) s' ts ∧
    (ts = [] -> s' = es).
Proof.
  intros (l & Hl & <-). unfold peek. destruct (skip_space_spec fuel s l u Hl (at_text_fuel _ _ _ Hl)) as (s' & E & Ht).
  rewrite (bind_Ret _ _ _ _ _ E). unfold lb. rewrite bind_gets, (at_text_hd _ _ _ Ht).
  destruct (lex_first l (cstr_nonzero _ _ _ (proj1 Hl))) as (l' & c & Hx). destruct (lexes_first _ _ _ _ Hx) as [-> ->].
  exists s'. split; [done|]. split; [exists (trim l); split; [done|apply lex_trim]|].
  intros El. rewrite El in Hx. rewrite (lexes_nil _ _ _ Hx) in Ht. by destruct (at_text_end _ _ Ht).
Qed.

Lemma is_word_inv c : is_word c = true -> (c =? 0) = false ∧ is_in (str "|();&<") c = false ∧ (c =? ch ">") = false.
Proof.
  unfold is_word. intros [[H0%negb_true_iff _]%andb_prop Hs%negb_true_iff]%andb_prop. split; [done|]. cbn in Hs |- *.
  rewrite !orb_false_iff in *. tauto.
Qed.

(** Tokens of a line. *)
Lemma at_tokens_ok m s t ts : at_tokens m s (t :: ts) -> token_ok t.
Proof.
  intros (l & Hl & El). destruct (lex_first l (cstr_nonzero _ _ _ (proj1 Hl))) as (l' & c & Hx). rewrite El in Hx.
  inversion Hx as [|c' l1 Et Hc|l1 Et Hd|l1 Et|w l1 Et Hw Hs]; subst; [|done|done|done].
  cbn. cbn in Hc. rewrite !orb_true_iff in *. tauto.
Qed.
Lemma symbols_in toks c : forallb (is_in symbols) toks = true -> is_in toks c = true -> is_in symbols c = true.
Proof.
  intros Hsym. unfold is_in at 1. intros (d & Hd & ->%Z.eqb_eq)%existsb_exists. by apply (proj1 (forallb_forall _ _) Hsym).
Qed.
Lemma word_not_in toks w : forallb (is_in symbols) toks = true -> word_ok w -> is_in toks (hd 0 w) = false.
Proof.
  intros Hsym [Hne Hw]. destruct w as [|c w]; [done|]. apply Forall_cons in Hw as [Hc _]. cbn [hd]. destruct (is_in toks c) eqn:E; [|done].
  apply (symbols_in _ _ Hsym) in E. unfold is_word in Hc. rewrite E in Hc. cbn in Hc. by rewrite andb_false_r in Hc.
Qed.

Lemma peek_next toks s ts u : at_tokens (u_mem u) s ts -> forallb (is_in symbols) (str toks) = true ->
  is_in (str toks) (ch ">") = false -> ∃ s', peek fuel s es (str toks) u = Ret (next_in toks ts, s') u ∧ at_tokens (u_mem u) s' ts ∧
  (ts = [] -> s' = es).
Proof.
  intros Ht Hsym Hgt. destruct (peek_spec s ts (str toks) u Ht) as (s' & -> & Ht' & He). exists s'. split; [|done]. f_equal. f_equal.
  destruct ts as [|t ts]; [done|]. pose proof (at_tokens_ok _ _ _ _ Ht) as Hok. destruct t as [w|c]; cbn [first_char next_in is_sym].
  - rewrite (word_not_in _ w Hsym Hok). by rewrite andb_false_r.
  - destruct (Z.eqb_spec c (ch "+")) as [->|Hc].
    + rewrite Hgt, andb_false_r. destruct (is_in (str toks) (ch "+")) eqn:E; [|done]. by apply (symbols_in _ _ Hsym) in E.
    + destruct (Z.eqb_spec c 0) as [->|_]; [done|done].
Qed.
(** [<] or [>] *)
Definition next_redir (ts : list token) : bool := match ts with TSym c :: _ => is_redir c | _ => false end.
Lemma peek_redir s ts u : at_tokens (u_mem u) s ts ->
  ∃ s', peek fuel s es (str "<>") u = Ret (next_redir ts, s') u ∧ at_tokens (u_mem u) s' ts.
Proof.
  intros Ht. destruct (peek_spec s ts (str "<>") u Ht) as (s' & -> & Ht' & _). exists s'. split; [|done]. f_equal. f_equal.
  destruct ts as [|t ts]; [done|]. pose proof (at_tokens_ok _ _ _ _ Ht) as Hok. destruct t as [w|c]; cbn [first_char next_redir].
  - rewrite (word_not_in _ w); [by rewrite andb_false_r|done|done].
  - unfold is_redir. destruct (Z.eqb_spec c (ch "+")) as [->|Hc]; [done|]. destruct (Z.eqb_spec c 0) as [->|_]; [done|]. cbn.
    by rewrite !orb_false_r.
Qed.

(** What [gettoken] returns. *)
Definition tok_ret (ts : list token) : Z :=
  match ts with [] => 0 | TSym c :: _ => c | TWord _ :: _ => ch "a" end.
Lemma gettoken_spec s ts u : at_tokens (u_mem u) s ts ->
  ∃ q e s', gettoken fuel s es u = Ret (tok_ret ts, q, e, s') u ∧ at_tokens (u_mem u) s' (tl ts) ∧
    match ts with TWord w :: _ => word (u_mem u) q e w | _ => True end.
Proof.
  intros (l & Hl & <-). unfold gettoken. destruct (skip_space_spec fuel s l u Hl (at_text_fuel _ _ _ Hl)) as (q & E & Ht).
  rewrite (bind_Ret _ _ _ _ _ E). unfold lb. rewrite bind_gets, (at_text_hd _ _ _ Ht).
  assert (∀ e l1, at_text (u_mem u) e l1 -> ∃ s', skip_space fuel e es u = Ret s' u ∧ at_tokens (u_mem u) s' (lex l1)) as Hskip.
  { intros e l1 H1. destruct (skip_space_spec fuel e l1 u H1 (at_text_fuel _ _ _ H1)) as (s' & E' & Ht'). exists s'.
    split; [done|]. exists (trim l1). split; [done|apply lex_trim]. }
  destruct (lex_first l (cstr_nonzero _ _ _ (proj1 Hl))) as (l' & c & Hx). destruct (lexes_first _ _ _ _ Hx) as [-> _].
  destruct Hx as [Et|c l1 Et Hc|l1 Et Hd|l1 Et|w l1 Et Hw Hs]; rewrite Et in Ht; cbn [tok_ret tl].
  - rewrite Z.eqb_refl. destruct (Hskip q [] Ht) as (s' & E' & Ha). rewrite bind_ret. cbn [fst snd]. rewrite (bind_Ret _ _ _ _ _ E'). by eauto 10.
  - assert ((c =? 0) = false) as -> by (destruct Ht as ((_ & ? & _) & _); by apply Z.eqb_neq). rewrite Hc.
    destruct (Hskip (q + 1) l1 (at_text_drop _ _ [c] _ Ht)) as (s' & E' & Ha). rewrite bind_ret. cbn [fst snd]. rewrite (bind_Ret _ _ _ _ _ E'). by eauto 10.
  - change (ch ">" =? 0) with false. change (is_in (str "|();&<") (ch ">")) with false. rewrite Z.eqb_refl. cbv iota.
    pose proof (at_text_drop _ _ [ch ">"] _ Ht) as Ht1. change (Z.of_nat (length [ch ">"])) with 1 in Ht1.
    destruct (Hskip (q + 1) l1 Ht1) as (s' & E' & Ha).
    rewrite bind_bind, bind_gets, (at_text_hd _ _ _ Ht1), bind_ret, (proj2 (Z.eqb_neq _ _) Hd). cbn [fst snd]. rewrite (bind_Ret _ _ _ _ _ E'). by eauto 10.
  - change (ch ">" =? 0) with false. change (is_in (str "|();&<") (ch ">")) with false. rewrite Z.eqb_refl. cbv iota.
    pose proof (at_text_drop _ _ [ch ">"] _ Ht) as Ht1. change (Z.of_nat (length [ch ">"])) with 1 in Ht1.
    pose proof (at_text_drop _ _ [ch ">"; ch ">"] _ Ht) as Ht2. change (Z.of_nat (length [ch ">"; ch ">"])) with 2 in Ht2.
    destruct (Hskip (q + 2) l1 Ht2) as (s' & E' & Ha).
    rewrite bind_bind, bind_gets, (at_text_hd _ _ _ Ht1), bind_ret. cbn [hd]. rewrite Z.eqb_refl. cbn [fst snd]. rewrite (bind_Ret _ _ _ _ _ E'). by eauto 10.
  - destruct w as [|c w]; [by destruct Hw|]. pose proof Hw as [_ Hc]. apply Forall_cons in Hc as [Hc _]. cbn [hd].
    destruct (is_word_inv _ Hc) as (-> & -> & ->).
    rewrite bind_bind, (bind_Ret _ _ _ _ _ (skip_word_spec fuel q (c :: w) l1 u Ht (proj2 Hw) Hs ltac:(
      apply at_text_fuel in Ht; rewrite length_app in Ht; lia))), bind_ret. cbn [fst snd].
    pose proof (at_text_drop _ _ (c :: w) _ Ht) as Ht1. destruct (Hskip _ _ Ht1) as (s' & E' & Ha). rewrite (bind_Ret _ _ _ _ _ E').
    exists q, (q + Z.of_nat (length (c :: w))), s'. split; [done|]. split; [done|]. destruct Ht as (Hcs & Hes & Has).
    rewrite length_app in Hes. split; [done|apply (cstr_split _ _ _ _ Hcs)|done|lia|].
    rewrite (at_text_hd _ _ _ Ht1). destruct l1 as [|d l1]; [done|]. exact Hs.
Qed.
End line.

(** ** Memory *)

Lemma memset_out {O} {S : Sys O} dst c n (u : user O) : 0 <= n -> ∃ m', Ulib.memset dst c n u = Ret dst (u <| u_mem := m' |>) ∧
  ∀ b, ¬ (dst <= b < dst + n) -> ld8 m' b = ld8 (u_mem u) b.
Proof.
  intros Hn. unfold Ulib.memset.
  assert (∀ k i (u : user O), 0 <= i -> ∃ m', Ulib.memset_loop k i dst c u = Ret () (u <| u_mem := m' |>) ∧
    ∀ b, ¬ (dst <= b < dst + i + Z.of_nat k) -> ld8 m' b = ld8 (u_mem u) b) as H.
  { clear n Hn u. induction k as [|k IH]; intros i u Hi; cbn [Ulib.memset_loop].
    - exists (u_mem u). split; [by destruct u|done].
    - unfold sb. rewrite bind_modify. destruct (IH (i + 1) (u <| u_mem ::= λ m, st8 m (dst + i) c |>)) as (m' & -> & H); [lia|].
      exists m'. split; [done|]. intros b Hb. rewrite H by lia. cbn. rewrite ld8_st8, decide_False by lia. done. }
  destruct (H (Z.to_nat n) 0 u) as (m' & E & Hm); [lia|]. exists m'. rewrite (bind_Ret _ _ _ _ _ E). split; [done|].
  intros b Hb. apply Hm. lia.
Qed.

Lemma elem_rev {A} (x : A) l : x ∈ rev l <-> x ∈ l.
Proof. by rewrite !list_elem_of_In, <- in_rev. Qed.

(** The tree of the command [c] at [p], as [runcmd] finds it. *)
Fixpoint tree (m : memory) (p : Z) (c : cmd) : Prop :=
  p ≠ 0 ∧
  match c with
  | Exec ws => ld32 m p = EXEC ∧ Z.of_nat (length ws) < MAXARGS ∧
      (∀ i w, ws !! i = Some w -> ld64 m (x_argv p (Z.of_nat i)) ≠ 0 ∧ cstr m (ld64 m (x_argv p (Z.of_nat i))) w) ∧
      ld64 m (x_argv p (Z.of_nat (length ws))) = 0
  | Redir c' f mode fd => ld32 m p = REDIR ∧ tree m (ld64 m (r_cmd p)) c' ∧ cstr m (ld64 m (r_file p)) f ∧
      ld32 m (r_mode p) = mode ∧ ld32 m (r_fd p) = fd
  | Pipe l r => ld32 m p = PIPE ∧ tree m (ld64 m (c_left p)) l ∧ tree m (ld64 m (c_right p)) r
  | List l r => ld32 m p = LIST ∧ tree m (ld64 m (c_left p)) l ∧ tree m (ld64 m (c_right p)) r
  | Back c' => ld32 m p = BACK ∧ tree m (ld64 m (r_cmd p)) c'
  end.

Section tree.
Context {O : Type} {S : Sys O} (brk : O -> Z) {B : Brk brk}.
Context (base a_freep lo : Z) (L : layout base a_freep lo).
Context (fuel : nat) (a es : Z).
(** The line is apart from the variables of the allocator. *)
Context (Hfuel : es - a < Z.of_nat fuel) (Ha : 0 < a).
Context (Hline : ∀ b, a <= b <= es -> b < lo ∧ ¬ (base <= b < base + 16) ∧ ¬ (a_freep <= b < a_freep + 8)).
Implicit Types u : user O.

Let state := state brk base a_freep lo.
Let kept := kept base a_freep lo.
Let at_tokens := at_tokens a es.
Let word := word a es.

(** *** Failure *)

(** The process has been given more memory, at most [n] times. *)
Definition reach (n : nat) (o o' : O) : Prop := ∃ k, (k <= n)%nat ∧ nsteps (λ o o', os_sbrk 65536 SBRK_EAGER o = (brk o, o')) k o o'.
(** One of the next [n] requests for 64 kilobytes is refused. *)
Definition short (n : nat) (o : O) : Prop := ∃ k o1 o2, (k < n)%nat ∧ reach k o o1 ∧ os_sbrk 65536 SBRK_EAGER o1 = (SBRK_ERROR, o2).

(** [P] is the reason to exit with status 1; when one of [n] requests for memory is refused the process is killed. *)
Definition fails {A} (n : nat) (u : user O) (P : Prop) (r : res (user O) A) : Prop :=
  ∃ u', r = Switch u' ∧ (P ∧ u_exit u' = Some 1 ∨ u_exit u' = Some (-1) ∧ short n (u_os u)).

Lemma reach_refl n o : reach n o o.
Proof. exists 0%nat. split; [lia|constructor]. Qed.
Lemma reach_trans n1 n2 n o o1 o2 : reach n1 o o1 -> reach n2 o1 o2 -> (n1 + n2 <= n)%nat -> reach n o o2.
Proof. intros (k1 & Hk1 & H1) (k2 & Hk2 & H2) Hn. exists (k1 + k2)%nat. split; [lia|]. by eapply nsteps_trans. Qed.
Lemma reach_mono n m o o' : reach n o o' -> (n <= m)%nat -> reach m o o'.
Proof. intros (k & Hk & H) Hn. exists k. split; [lia|done]. Qed.
Lemma short_reach i n m o o' : reach i o o' -> short n o' -> (i + n <= m)%nat -> short m o.
Proof. intros H (k & o1 & o2 & Hk & H1 & E) Hm. exists (i + k)%nat, o1, o2. split; [lia|]. split; [by eapply reach_trans|done]. Qed.
Lemma fails_bind {A C} n u P (m : UM O A) (f : A -> UM O C) u0 : fails n u P (m u0) -> fails n u P ((m ≫= f) u0).
Proof. intros (u' & E & H). exists u'. split; [|done]. unfold mbind, ST_bind. by rewrite E. Qed.
Lemma fails_weaken {A} i n m u u' (P Q : Prop) (r : res (user O) A) :
  (P -> Q) -> reach i (u_os u) (u_os u') -> (i + n <= m)%nat -> fails n u' P r -> fails m u Q r.
Proof.
  intros HPQ Hr Hm (u1 & E & H). exists u1. split; [done|]. destruct H as [[HP H]|[H Hs]]; [left; auto|right; split; [done|]].
  by eapply short_reach.
Qed.
Lemma panic_exits {A} s u : ∃ u', sh_panic (A := A) s u = Switch u' ∧ u_exit u' = Some 1.
Proof.
  unfold sh_panic. destruct (prints 2 (str "%s" ++ [10]) [VStr (Some s)] u) as (x & u1 & E & _).
  exists (u1 <| u_exit := Some 1 |>). split; [|done]. unfold Uprintf.fprintf. rewrite (bind_Ret _ _ _ _ _ E). done.
Qed.
Lemma panic_fails {A} n u (P : Prop) s u1 : P -> fails n u P (sh_panic (A := A) s u1).
Proof. intros HP. destruct (panic_exits (A := A) s u1) as (u' & E & Hu). exists u'. split; [done|by left]. Qed.

(** *** Blocks *)

Lemma kept_state u fl al m' b : state u fl (b :: al) -> (∀ x, ¬ (b.1 + 16 <= x < stop b) -> ld8 m' x = ld8 (u_mem u) x) ->
  state (u <| u_mem := m' |>) fl (b :: al) ∧ kept al (u_mem u) m'.
Proof.
  intros [[Hh Ht]|(_ & _ & Hnil & _)] H; [|done]. destruct L as [L1 L2 L3 L4]. split.
  - left. split; [|done]. cbn. eapply heap_write; [..|exact H]; try done. left.
  - destruct Hh as [[_ _ _ _ [Hin _ [Hd _]]] _]. destruct (Hin b (list_elem_of_here _ _)) as (Hb & _). intros x Hx. apply H.
    destruct Hx as [(c & Hc & Hx)|Hx]; [|lia]. rewrite Forall_forall in Hd. destruct (Hd c Hc); lia.
Qed.

(** Allocation, and stores [F] into the new structure. *)
Lemma zalloc_then n (F : Z -> memory -> memory) u fl al : state u fl al -> 0 <= n <= 1024 -> (2 * length fl + 4 <= fuel)%nat ->
  (∀ p m b, ¬ (p <= b < p + n) -> ld8 (F p m) b = ld8 m b) ->
  let r := (p ← zalloc base a_freep fuel n; modify (λ u, u <| u_mem ::= F p |>) ;; mret p) u in
  fails 1 u False r ∨
  ∃ b u' fl' m, r = Ret (b.1 + HEADER) u' ∧ u_mem u' = F (b.1 + HEADER) m ∧ state u' fl' (b :: al) ∧
    kept al (u_mem u) (u_mem u') ∧ reach 1 (u_os u) (u_os u') ∧ b.1 + HEADER + n <= stop b ∧ lo <= b.1 ∧
    (length fl' <= length fl + 1)%nat.
Proof.
  intros Hs Hn Hk HF r. subst r. destruct L as [L1 L2 L3 L4]. unfold zalloc.
  destruct (malloc_spec base a_freep lo L2 L1 L3 L4 brk fuel n u fl al Hs ltac:(lia) Hk) as (p & u1 & E & Hk1 & Hr).
  rewrite bind_bind, (bind_Ret _ _ _ _ _ E).
  assert (Z.max 4096 (units n) * HEADER = 65536) as Hu by (unfold units, HEADER; zlia).
  destruct Hr as [(-> & _ & o & Hno)|(b & fl' & -> & Hb & Hh & Hl & Hg)].
  - left. rewrite Hu in Hno. exists (u1 <| u_exit := Some (-1) |>). split; [done|]. right. split; [done|]. exists 0%nat, (u_os u), o. split; [lia|]. by split; [apply reach_refl|].
  - right. assert (lo <= b.1) as Hlb by (destruct Hh as [[[_ _ _ _ [Hin _ _]] _] _]; by destruct (Hin b (list_elem_of_here _ _))).
    rewrite (proj2 (Z.eqb_neq (b.1 + HEADER) 0)) by (unfold HEADER; lia).
    destruct (memset_out (b.1 + HEADER) 0 n u1) as (m & Em & Hm); [lia|]. rewrite bind_bind, (bind_Ret _ _ _ _ _ Em), bind_ret, bind_modify.
    set (u2 := u1 <| u_mem := F (b.1 + HEADER) m |>).
    assert (b.1 + HEADER + n <= stop b) as Hst by (unfold stop, HEADER in *; lia).
    destruct (kept_state u1 fl' al (F (b.1 + HEADER) m) b (or_introl Hh)) as [Hs2 Hk2].
    { intros x Hx. rewrite HF, Hm by (unfold HEADER in *; lia). done. }
    exists b, u2, fl', m. split; [done|]. split; [done|]. split; [done|]. split; [by eapply kept_trans|]. split; [|by split].
    change (u_os u2) with (u_os u1). destruct Hg as [->|Hg]; [apply reach_refl|]. unfold grown in Hg. rewrite Hu in Hg. exists 1%nat. split; [done|]. by apply nsteps_once.
Qed.

(** *** Trees *)

Definition node (al : list block) (p n : Z) : Prop := ∃ b, b ∈ al ∧ p = b.1 + HEADER ∧ p + n <= stop b ∧ lo <= b.1.

(** [W q e w] is what is known of a word: its start, its end and its text. *)
Fixpoint rep (W : Z -> Z -> list Z -> Prop) (m : memory) (al : list block) (p : Z) (c : cmd) : Prop :=
  match c with
  | Exec ws => node al p 168 ∧ ld32 m p = EXEC ∧ Z.of_nat (length ws) < MAXARGS ∧
      (∀ i w, ws !! i = Some w -> W (ld64 m (x_argv p (Z.of_nat i))) (ld64 m (x_eargv p (Z.of_nat i))) w) ∧
      ld64 m (x_argv p (Z.of_nat (length ws))) = 0
  | Redir c' f mode fd => node al p 40 ∧ ld32 m p = REDIR ∧ rep W m al (ld64 m (r_cmd p)) c' ∧
      W (ld64 m (r_file p)) (ld64 m (r_efile p)) f ∧ ld32 m (r_mode p) = mode ∧ ld32 m (r_fd p) = fd
  | Pipe l r => node al p 24 ∧ ld32 m p = PIPE ∧ rep W m al (ld64 m (c_left p)) l ∧ rep W m al (ld64 m (c_right p)) r
  | List l r => node al p 24 ∧ ld32 m p = LIST ∧ rep W m al (ld64 m (c_left p)) l ∧ rep W m al (ld64 m (c_right p)) r
  | Back c' => node al p 16 ∧ ld32 m p = BACK ∧ rep W m al (ld64 m (r_cmd p)) c'
  end.

(** The blocks are the same in two memories. *)
Definition same (al : list block) (m m' : memory) : Prop := ∀ b x, b ∈ al -> b.1 + HEADER <= x < stop b -> ld8 m' x = ld8 m x.

Lemma kept_same al m m' : kept al m m' -> same al m m'.
Proof. intros H b x Hb Hx. apply H. left. exists b. unfold HEADER in Hx. split; [done|lia]. Qed.
Lemma node_ld64 al m m' p n x : same al m m' -> node al p n -> p <= x -> x + 8 <= p + n -> ld64 m' x = ld64 m x.
Proof. intros H (b & Hb & -> & Hn & _) H1 H2. apply ld64_ext. intros y Hy. apply (H b); [done|lia]. Qed.
Lemma node_ld32 al m m' p n x : same al m m' -> node al p n -> p <= x -> x + 4 <= p + n -> ld32 m' x = ld32 m x.
Proof. intros H (b & Hb & -> & Hn & _) H1 H2. apply ld32_ext. intros y Hy. apply (H b); [done|lia]. Qed.
Lemma node_sub al al' p n : al ⊆ al' -> node al p n -> node al' p n.
Proof. intros Hs (b & Hb & H). exists b. auto. Qed.

Lemma rep_frame (W W' : Z -> Z -> list Z -> Prop) m m' al al' p c : al ⊆ al' -> same al m m' -> (∀ q e w, W q e w -> W' q e w) ->
  rep W m al p c -> rep W' m' al' p c.
Proof.
  intros Hs Hm HW. revert p. induction c as [ws|c IH f mode fd|l IHl r IHr|l IHl r IHr|c IH]; intros p; cbn [rep].
  - intros (Hn & <- & Hl & Hw & Hz). split; [by eapply node_sub|]. split; [apply (node_ld32 al _ _ p 168); (done || lia)|]. split; [done|].
    assert (∀ i, 0 <= i < MAXARGS -> ld64 m' (x_argv p i) = ld64 m (x_argv p i) ∧ ld64 m' (x_eargv p i) = ld64 m (x_eargv p i)) as Hx
      by (intros i Hi; split; apply (node_ld64 al _ _ p 168); unfold x_argv, x_eargv, MAXARGS in *; (done || lia)).
    split.
    + intros i w Hi. pose proof (lookup_lt_Some _ _ _ Hi). destruct (Hx (Z.of_nat i)) as [-> ->]; [lia|]. by apply HW, Hw.
    + rewrite (proj1 (Hx (Z.of_nat (length ws)) ltac:(lia))). done.
  - intros (Hn & <- & Hc & Hw & <- & <-). split; [by eapply node_sub|]. unfold r_cmd, r_file, r_efile, r_mode, r_fd in *.
    rewrite !(node_ld32 al m m' p 40), !(node_ld64 al m m' p 40) by (done || lia). split; [done|]. split; [by apply IH|]. split; [by apply HW|done].
  - intros (Hn & <- & Hl & Hr). split; [by eapply node_sub|]. unfold c_left, c_right in *.
    rewrite !(node_ld32 al m m' p 24), !(node_ld64 al m m' p 24) by (done || lia). split; [done|]. split; [by apply IHl|by apply IHr].
  - intros (Hn & <- & Hl & Hr). split; [by eapply node_sub|]. unfold c_left, c_right in *.
    rewrite !(node_ld32 al m m' p 24), !(node_ld64 al m m' p 24) by (done || lia). split; [done|]. split; [by apply IHl|by apply IHr].
  - intros (Hn & <- & Hc). split; [by eapply node_sub|]. unfold r_cmd in *.
    rewrite !(node_ld32 al m m' p 16), !(node_ld64 al m m' p 16) by (done || lia). split; [done|]. by apply IH.
Qed.

(** The line does not change while the tree is built. *)
Lemma line_kept al m m' b : kept al m m' -> a <= b <= es -> ld8 m' b = ld8 m b.
Proof. intros H Hb. apply H. right. by apply Hline. Qed.
Lemma at_tokens_kept al m m' s ts : kept al m m' -> at_tokens m s ts -> at_tokens m' s ts.
Proof.
  intros Hk (l & (Hc & He & Hs) & El). exists l. split; [|done]. split; [|by split].
  eapply cstr_ext; [|exact Hc]. intros b Hb. eapply line_kept; [done|lia].
Qed.
Lemma word_kept al m m' q e w : kept al m m' -> word m q e w -> word m' q e w.
Proof.
  intros Hk [He Hb Ho Hi Hs]. split; [done| |done|done|].
  - rewrite <- Hb at 2. apply bytes_ext. intros x Hx. eapply line_kept; [done|lia].
  - by rewrite (line_kept _ _ _ _ Hk) by lia.
Qed.
Lemma rep_kept al al' m m' p c : kept al m m' -> al ⊆ al' -> rep (word m) m al p c -> rep (word m') m' al' p c.
Proof. intros Hk Hs. apply rep_frame; [done|by apply kept_same|]. intros q e w. by eapply word_kept. Qed.

(** Addresses fit. *)
Lemma state_lo u fl al : state u fl al -> lo <= 2 ^ 34.
Proof. intros [[[[_ Ho _ _ _] _] Ht]|(_ & _ & _ & ?)]; [apply ordered_le in Ho|]; lia. Qed.
Lemma node_small u fl al p n : state u fl al -> node al p n -> 0 <= n -> 0 < p < 2 ^ 64.
Proof.
  intros Hs (b & Hb & -> & Hn & Hlo) Hn0. destruct L as [L1 L2 L3 L4]. unfold HEADER in *.
  destruct Hs as [[[[_ _ _ _ [Hin _ _]] _] Ht]|(_ & _ & -> & _)]; [|by apply not_elem_of_nil in Hb].
  destruct (Hin b Hb) as (_ & _ & ? & _). lia.
Qed.
Lemma word_small u fl al q e w : state u fl al -> word (u_mem u) q e w -> 0 < q < 2 ^ 64 ∧ 0 <= e < 2 ^ 64.
Proof.
  intros Hs%state_lo [He _ _ [H1 H2] _]. destruct (Hline e) as [? _]; [lia|]. lia.
Qed.
Lemma rep_small W u fl al p c : state u fl al -> rep W (u_mem u) al p c -> 0 < p < 2 ^ 64.
Proof. intros Hs Hr. destruct c; destruct Hr as [Hn _]; by eapply node_small. Qed.

(** *** Constructors *)

(** A new structure in the block [b], with [Q] of the memory. *)
Definition built (u : user O) (fl al : list block) (n : Z) (r : res (user O) Z) (Q : memory -> Z -> Prop) : Prop :=
  fails 1 u False r ∨
  ∃ b u' fl', r = Ret (b.1 + HEADER) u' ∧ state u' fl' (b :: al) ∧ kept al (u_mem u) (u_mem u') ∧ reach 1 (u_os u) (u_os u') ∧
    b.1 + HEADER + n <= stop b ∧ lo <= b.1 ∧ (length fl' <= length fl + 1)%nat ∧ Q (u_mem u') (b.1 + HEADER).

Lemma build n F k (Q : memory -> Z -> Prop) u fl al :
  (∀ u, k u = (p ← zalloc base a_freep fuel n; modify (λ u, u <| u_mem ::= F p |>) ;; mret p) u) ->
  (∀ p m b, ¬ (p <= b < p + n) -> ld8 (F p m) b = ld8 m b) -> (∀ p m, Q (F p m) p) ->
  state u fl al -> 0 <= n <= 1024 -> (2 * length fl + 4 <= fuel)%nat -> built u fl al n (k u) Q.
Proof.
  intros Hk HF HQ Hs Hn Hf. rewrite Hk. destruct (zalloc_then n F u fl al Hs Hn Hf HF) as [Hr|(b & u' & fl' & m & E & Em & H1 & H2 & H3 & H4 & H5 & H6)];
    [by left|]. right. exists b, u', fl'. rewrite Em. split; [exact E|]. rewrite Em in H2. auto 10.
Qed.

Lemma execcmd_built u fl al : state u fl al -> (2 * length fl + 4 <= fuel)%nat ->
  built u fl al 168 (execcmd base a_freep fuel u) (λ m p, ld32 m p = EXEC).
Proof.
  intros Hs Hf. apply (build _ (λ p m, st32 m p EXEC)); try done.
  - intros p m b Hb. apply ld8_st32_ne. lia.
  - intros p m. by apply ld32_st32.
Qed.
Lemma redircmd_built subcmd file efile mode fd u fl al : state u fl al -> (2 * length fl + 4 <= fuel)%nat ->
  0 <= subcmd < 2 ^ 64 -> 0 <= file < 2 ^ 64 -> 0 <= efile < 2 ^ 64 -> 0 <= mode < 2 ^ 32 -> 0 <= fd < 2 ^ 32 ->
  built u fl al 40 (redircmd base a_freep fuel subcmd file efile mode fd u) (λ m p, ld32 m p = REDIR ∧ ld64 m (r_cmd p) = subcmd ∧
    ld64 m (r_file p) = file ∧ ld64 m (r_efile p) = efile ∧ ld32 m (r_mode p) = mode ∧ ld32 m (r_fd p) = fd).
Proof.
  intros Hs Hf H1 H2 H3 H4 H5. apply (build _ (λ p m, st32 (st32 (st64 (st64 (st64 (st32 m p REDIR) (r_cmd p) subcmd) (r_file p) file)
    (r_efile p) efile) (r_mode p) mode) (r_fd p) fd)); try done.
  - intros p m b Hb. unfold r_cmd, r_file, r_efile, r_mode, r_fd. rewrite !ld8_st32_ne, !ld8_st64_out, ld8_st32_ne by lia. done.
  - intros p m. unfold r_cmd, r_file, r_efile, r_mode, r_fd.
    repeat first [rewrite ld32_st32 by done|rewrite ld64_st64 by done|rewrite ld32_st32_ne by lia|rewrite ld32_st64_ne by lia|rewrite ld64_st32_ne by lia|rewrite ld64_st64_ne by lia].
    done.
Qed.
Lemma pipecmd_built left right u fl al : state u fl al -> (2 * length fl + 4 <= fuel)%nat ->
  0 <= left < 2 ^ 64 -> 0 <= right < 2 ^ 64 ->
  built u fl al 24 (pipecmd base a_freep fuel left right u) (λ m p, ld32 m p = PIPE ∧ ld64 m (c_left p) = left ∧ ld64 m (c_right p) = right).
Proof.
  intros Hs Hf H1 H2. apply (build _ (λ p m, st64 (st64 (st32 m p PIPE) (c_left p) left) (c_right p) right)); try done.
  - intros p m b Hb. unfold c_left, c_right. rewrite !ld8_st64_out, ld8_st32_ne by lia. done.
  - intros p m. unfold c_left, c_right. rewrite !ld32_st64_ne, ld32_st32, ld64_st64_ne, !ld64_st64 by (done || lia). done.
Qed.
Lemma listcmd_built left right u fl al : state u fl al -> (2 * length fl + 4 <= fuel)%nat ->
  0 <= left < 2 ^ 64 -> 0 <= right < 2 ^ 64 ->
  built u fl al 24 (listcmd base a_freep fuel left right u) (λ m p, ld32 m p = LIST ∧ ld64 m (c_left p) = left ∧ ld64 m (c_right p) = right).
Proof.
  intros Hs Hf H1 H2. apply (build _ (λ p m, st64 (st64 (st32 m p LIST) (c_left p) left) (c_right p) right)); try done.
  - intros p m b Hb. unfold c_left, c_right. rewrite !ld8_st64_out, ld8_st32_ne by lia. done.
  - intros p m. unfold c_left, c_right. rewrite !ld32_st64_ne, ld32_st32, ld64_st64_ne, !ld64_st64 by (done || lia). done.
Qed.
Lemma backcmd_built subcmd u fl al : state u fl al -> (2 * length fl + 4 <= fuel)%nat -> 0 <= subcmd < 2 ^ 64 ->
  built u fl al 16 (backcmd base a_freep fuel subcmd u) (λ m p, ld32 m p = BACK ∧ ld64 m (r_cmd p) = subcmd).
Proof.
  intros Hs Hf H1. apply (build _ (λ p m, st64 (st32 m p BACK) (r_cmd p) subcmd)); try done.
  - intros p m b Hb. unfold r_cmd. rewrite !ld8_st64_out, ld8_st32_ne by lia. done.
  - intros p m. unfold r_cmd. rewrite !ld32_st64_ne, ld32_st32, !ld64_st64 by (done || lia). done.
Qed.

(** *** Redirections *)

(** Redirections in the blocks [bl] around the command at [cmd], up to [ret]. *)
Definition rnode (m : memory) (b : block) (cmd : Z) (r : redir) : Prop :=
  let p := b.1 + HEADER in
  p + 40 <= stop b ∧ lo <= b.1 ∧ ld32 m p = REDIR ∧ ld64 m (r_cmd p) = cmd ∧ word m (ld64 m (r_file p)) (ld64 m (r_efile p)) r.1.1 ∧
  ld32 m (r_mode p) = r.1.2 ∧ ld32 m (r_fd p) = r.2.
Fixpoint wrapped (m : memory) (bl : list block) (cmd ret : Z) (rs : list redir) : Prop :=
  match bl, rs with
  | [], [] => ret = cmd
  | b :: bl', r :: rs' => rnode m b cmd r ∧ wrapped m bl' (b.1 + HEADER) ret rs'
  | _, _ => False
  end.

Lemma wrapped_app m bl bl' cmd mid ret rs rs' : wrapped m bl cmd mid rs -> wrapped m bl' mid ret rs' ->
  wrapped m (bl ++ bl') cmd ret (rs ++ rs').
Proof.
  revert cmd rs. induction bl as [|b bl IH]; intros cmd [|r rs]; cbn; [by intros ->|done|done|]. intros [Hr Hw] Hw'. split; [done|]. by apply IH.
Qed.
Lemma wrapped_frame m m' bl cmd ret rs : same bl m m' -> (∀ q e w, word m q e w -> word m' q e w) ->
  wrapped m bl cmd ret rs -> wrapped m' bl cmd ret rs.
Proof.
  intros Hs HW. revert cmd rs Hs. induction bl as [|b bl IH]; intros cmd [|r rs] Hs; cbn; [done|done|done|]. intros [Hr Hw]. split.
  - destruct Hr as (H1 & H2 & H3 & H4 & H5 & H6 & H7). assert (node (b :: bl) (b.1 + HEADER) 40) as Hn by (exists b; by split; [left|]).
    unfold rnode. unfold r_cmd, r_file, r_efile, r_mode, r_fd in *.
    rewrite !(node_ld32 _ m m' _ 40 _ Hs Hn), !(node_ld64 _ m m' _ 40 _ Hs Hn) by lia. auto 10.
  - apply IH; [|done]. intros c x Hc. apply Hs. by right.
Qed.
Lemma wrapped_rep m bl al cmd ret rs c : bl ⊆ al -> wrapped m bl cmd ret rs -> rep (word m) m al cmd c -> rep (word m) m al ret (wrap c rs).
Proof.
  revert cmd c rs. induction bl as [|b bl IH]; intros cmd c [|r rs] Hs; cbn [wrapped]; [by intros ->|done|done|]. intros [Hr Hw] Hc.
  apply (IH (b.1 + HEADER) (Redir c r.1.1 r.1.2 r.2)); [set_solver|done|]. destruct Hr as (H1 & H2 & H3 & <- & H5 & H6 & H7).
  split; [|done]. exists b. split; [apply Hs; left|done].
Qed.

Lemma p_redirs_stop ts : next_redir ts = false -> p_redirs ts = Some ([], ts).
Proof. destruct ts as [|[w|c] ts]; cbn; [done|done|]. by intros ->. Qed.
Lemma tok_ret_a m s ts : at_tokens m s ts -> tok_ret ts = ch "a" -> ∃ w ts', ts = TWord w :: ts'.
Proof.
  intros Ht E. destruct ts as [|[w|c] ts]; [done|by eauto|]. pose proof (at_tokens_ok a es _ _ _ _ Ht) as Hok. cbn [tok_ret] in E. by subst c.
Qed.

Lemma p_redirs_length ts rs ts' : p_redirs ts = Some (rs, ts') -> (length ts' <= length ts)%nat.
Proof. intros (pre & -> & _)%p_redirs_sound. rewrite length_app. lia. Qed.

(** The [switch] of [parseredirs]. *)
Lemma redir_switch c f r cmd q e u : redir_of c f = Some r ->
  (if c =? ch "<" then redircmd base a_freep fuel cmd q e O_RDONLY 0
   else if c =? ch ">" then redircmd base a_freep fuel cmd q e (Z.lor (Z.lor O_WRONLY O_CREATE) O_TRUNC) 1
   else if c =? ch "+" then redircmd base a_freep fuel cmd q e (Z.lor O_WRONLY O_CREATE) 1
   else mret cmd) u = redircmd base a_freep fuel cmd q e r.1.2 r.2 u ∧ r.1.1 = f ∧ 0 <= r.1.2 < 2 ^ 32 ∧ 0 <= r.2 < 2 ^ 32.
Proof. unfold redir_of. repeat case_match; intros [= <-]; done. Qed.

Lemma parseredirs_spec n cmd s ts u fl al : state u fl al -> at_tokens (u_mem u) s ts -> 0 <= cmd < 2 ^ 64 ->
  (length ts < n)%nat -> (2 * (length fl + 2 * length ts) + 6 <= fuel)%nat ->
  let r := parseredirs base a_freep fuel n cmd s es u in
  fails (length ts) u (p_redirs ts = None) r ∨
  ∃ ret s' u' bl rs ts' fl', r = Ret (ret, s') u' ∧ p_redirs ts = Some (rs, ts') ∧ state u' fl' (rev bl ++ al) ∧
    kept al (u_mem u) (u_mem u') ∧ reach (length ts - length ts') (u_os u) (u_os u') ∧ wrapped (u_mem u') bl cmd ret rs ∧ at_tokens (u_mem u') s' ts' ∧
    next_redir ts' = false ∧ (length fl' + 2 * length ts' <= length fl + 2 * length ts)%nat.
Proof.
  revert cmd s ts u fl al. induction n as [|n IH]; intros cmd s ts u fl al Hs Ht Hc Hn Hf; [lia|]. cbn [parseredirs].
  destruct (peek_redir fuel a es Hfuel s ts u Ht) as (s1 & E1 & Ht1). rewrite (bind_Ret _ _ _ _ _ E1). cbn [fst snd].
  destruct (next_redir ts) eqn:En; cbn [negb].
  2:{ right. exists cmd, s1, u, [], [], ts, fl. rewrite p_redirs_stop by done. split; [done|]. split; [done|]. split; [done|].
      split; [done|]. split; [apply reach_refl|]. by split. }
  destruct ts as [|[w|c] ts]; [done|done|]. cbn in En.
  destruct (gettoken_spec fuel a es Hfuel _ _ u Ht1) as (q1 & e1 & s2 & E2 & Ht2 & _). rewrite (bind_Ret _ _ _ _ _ E2). cbn [tok_ret tl] in *.
  destruct (gettoken_spec fuel a es Hfuel _ _ u Ht2) as (q & e & s3 & E3 & Ht3 & Hw). rewrite (bind_Ret _ _ _ _ _ E3).
  destruct (Z.eqb_spec (tok_ret ts) (ch "a")) as [Ea|Hne]; cbn [negb].
  2:{ left. apply panic_fails. cbn [p_redirs]. rewrite En. destruct ts as [|[f|] ts]; [done| |done]. done. }
  destruct (tok_ret_a _ _ _ Ht2 Ea) as (f & ts' & ->). cbn [tl length] in *.
  destruct (proj1 (is_redir_of c f) En) as [r Er]. destruct (redir_switch c f r cmd q e u Er) as (Esw & Ef & Hm & Hfd).
  destruct (word_small _ _ _ _ _ _ Hs Hw) as [Hq He].
  destruct (redircmd_built cmd q e r.1.2 r.2 u fl al Hs ltac:(lia) Hc ltac:(lia) He Hm Hfd) as [Hr|(b & u1 & fl1 & E4 & Hs1 & Hk1 & Hre & Hst & Hlo & Hl1 & HQ)].
  { left. apply fails_bind. rewrite Esw. eapply fails_weaken; [|apply (reach_refl 0)| |exact Hr]; [done|cbn; lia]. }
  rewrite E4 in Esw. rewrite (bind_Ret _ _ _ _ _ Esw).
  assert (node (b :: al) (b.1 + HEADER) 40) as Hnode by (exists b; by split; [left|]).
  pose proof (node_small _ _ _ _ _ Hs1 Hnode ltac:(lia)) as Hb.
  destruct (IH (b.1 + HEADER) s3 ts' u1 fl1 (b :: al) Hs1) as [Hr|(ret & s' & u' & bl & rs & ts'' & fl' & E5 & Ep & Hs' & Hk' & Hre' & Hw' & Ht' & Hnr & Hl')];
    [by eapply at_tokens_kept|lia|lia|lia|..].
  - left. eapply fails_weaken; [|exact Hre| |exact Hr]; [|cbn; lia]. intros Ep. cbn [p_redirs]. by rewrite En, Er, Ep.
  - pose proof (p_redirs_length _ _ _ Ep). right. exists ret, s', u', (b :: bl), (r :: rs), ts'', fl'. split; [exact E5|]. split; [cbn [p_redirs]; by rewrite En, Er, Ep|].
    split; [cbn [rev]; by rewrite <- app_assoc|]. split; [eapply kept_trans; [exact Hk1|]; eapply kept_sub; [|exact Hk']; by right|].
    split; [eapply reach_trans; [exact Hre|exact Hre'|cbn [length]; lia]|]. split; [|split; [done|]; split; [done|lia]].
    change (b :: bl) with ([b] ++ bl). change (r :: rs) with ([r] ++ rs). eapply wrapped_app; [|exact Hw'].
    eapply (wrapped_frame (u_mem u1)); [|intros q' e' w'; by eapply word_kept|].
    + eapply kept_same, kept_sub; [|exact Hk']. intros x ->%list_elem_of_singleton. left.
    + split; [|done]. destruct HQ as (Q1 & Q2 & Q3 & Q4 & Q5 & Q6). split; [done|]. split; [done|]. split; [done|]. split; [done|].
      rewrite Q3, Q4, Ef. split; [by eapply word_kept|by split].
Qed.

(** *** Arguments *)

Lemma state_perm u fl al al' : al ≡ₚ al' -> state u fl al -> state u fl al'.
Proof.
  intros Hp [[Hh Ht]|(H1 & H2 & H3 & H4)]; [left; split; [|done]; by rewrite <- Hp|].
  subst al. apply Permutation_nil_l in Hp as <-. by right.
Qed.

(** The program changes its block [b]. *)
Lemma block_write u fl bl b al m' : state u fl (bl ++ b :: al) -> (∀ x, ¬ (b.1 + HEADER <= x < stop b) -> ld8 m' x = ld8 (u_mem u) x) ->
  state (u <| u_mem := m' |>) fl (bl ++ b :: al) ∧ kept (bl ++ al) (u_mem u) m'.
Proof.
  intros Hs Hm. assert (bl ++ b :: al ≡ₚ b :: bl ++ al) as Hp by (symmetry; apply Permutation_middle).
  destruct (kept_state u fl (bl ++ al) m' b) as [Hs' Hk]; [by eapply state_perm|done|]. split; [|done]. by eapply state_perm; [symmetry|].
Qed.

Lemma wrapped_end m bl cmd ret rs : wrapped m bl cmd ret rs -> ret = cmd ∨ node bl ret 40.
Proof.
  revert cmd rs. induction bl as [|b bl IH]; intros cmd [|r rs]; cbn; [by left|done|done|]. intros [Hr Hw]. right.
  destruct (IH _ _ Hw) as [->|Hn]; [|eapply node_sub; [|exact Hn]; by right]. destruct Hr as (H1 & H2 & _). exists b. by split; [left|].
Qed.

Definition slots (m : memory) (p : Z) (ws : list (list Z)) : Prop :=
  ∀ i w, ws !! i = Some w -> word m (ld64 m (x_argv p (Z.of_nat i))) (ld64 m (x_eargv p (Z.of_nat i))) w.

Lemma slots_kept m m' al p ws : kept al m m' -> node al p 168 -> Z.of_nat (length ws) <= MAXARGS -> slots m p ws -> slots m' p ws.
Proof.
  intros Hk Hn Hl Hs i w Hi. pose proof (lookup_lt_Some _ _ _ Hi). pose proof (kept_same _ _ _ Hk) as Hsm.
  rewrite !(node_ld64 _ _ _ _ _ _ Hsm Hn) by (unfold x_argv, x_eargv, MAXARGS in *; lia). eapply word_kept; [done|by apply Hs].
Qed.

Definition set_slot (p i q e : Z) (m : memory) : memory := st64 (st64 m (x_argv p i) q) (x_eargv p i) e.
Lemma set_slot_out p i q e m b : 0 <= i < MAXARGS -> ¬ (p + 8 <= b < p + 168) -> ld8 (set_slot p i q e m) b = ld8 m b.
Proof. intros Hi Hb. unfold set_slot. rewrite !ld8_st64_out; unfold x_argv, x_eargv, MAXARGS in *; (done || lia). Qed.
Lemma set_slot_type p i q e m : 0 <= i -> ld32 (set_slot p i q e m) p = ld32 m p.
Proof. intros Hi. unfold set_slot. rewrite !ld32_st64_ne; unfold x_argv, x_eargv, MAXARGS; (done || lia). Qed.
Lemma set_slot_same p i q e m : 0 <= i < MAXARGS -> 0 <= q < 2 ^ 64 -> 0 <= e < 2 ^ 64 ->
  ld64 (set_slot p i q e m) (x_argv p i) = q ∧ ld64 (set_slot p i q e m) (x_eargv p i) = e.
Proof. intros Hi Hq He. unfold set_slot. rewrite ld64_st64_ne, !ld64_st64; unfold x_argv, x_eargv, MAXARGS in *; (done || lia). Qed.
Lemma set_slot_other p i j q e m : 0 <= i < MAXARGS -> 0 <= j < MAXARGS -> i ≠ j ->
  ld64 (set_slot p i q e m) (x_argv p j) = ld64 m (x_argv p j) ∧ ld64 (set_slot p i q e m) (x_eargv p j) = ld64 m (x_eargv p j).
Proof. intros Hi Hj Hne. unfold set_slot. rewrite !ld64_st64_ne; unfold x_argv, x_eargv, MAXARGS in *; (done || lia). Qed.

Lemma slots_snoc m p ws q e w : let m' := set_slot p (Z.of_nat (length ws)) q e m in
  Z.of_nat (length ws) < MAXARGS -> 0 <= q < 2 ^ 64 -> 0 <= e < 2 ^ 64 -> (∀ q e w, word m q e w -> word m' q e w) -> word m q e w ->
  slots m p ws -> slots m' p (ws ++ [w]).
Proof.
  intros m' Hl Hq He HW Hw Hs i w' Hi. apply lookup_snoc_Some in Hi as [[Hi Hi']|[-> <-]].
  - destruct (set_slot_other p (Z.of_nat (length ws)) (Z.of_nat i) q e m) as [E1 E2]; [lia..|]. unfold m'. rewrite E1, E2. by apply HW, Hs.
  - destruct (set_slot_same p (Z.of_nat (length ws)) q e m) as [E1 E2]; [lia..|]. unfold m'. rewrite E1, E2. by apply HW.
Qed.

(** The structure at [cmd] in the block [b] holds the words [ws], and the
    redirections [rs] around it, up to [ret], are in the blocks [bl]. *)
Record gathering (u : user O) (fl bl : list block) (b : block) (al : list block) (cmd ret : Z) (ws : list (list Z)) (rs : list redir) : Prop := {
  ga_state : state u fl (rev bl ++ b :: al);
  ga_block : cmd = b.1 + HEADER ∧ cmd + 168 <= stop b ∧ lo <= b.1;
  ga_type : ld32 (u_mem u) cmd = EXEC;
  ga_slots : slots (u_mem u) cmd ws;
  ga_wrapped : wrapped (u_mem u) bl cmd ret rs;
}.
Lemma ga_node u fl bl b al cmd ret ws rs : gathering u fl bl b al cmd ret ws rs -> node (rev bl ++ b :: al) cmd 168.
Proof. intros [_ H _ _ _]. exists b. split; [apply elem_of_app; right; left|done]. Qed.
Lemma ga_small u fl bl b al cmd ret ws rs : gathering u fl bl b al cmd ret ws rs -> 0 <= ret < 2 ^ 64.
Proof.
  intros Hg. destruct (wrapped_end _ _ _ _ _ (ga_wrapped _ _ _ _ _ _ _ _ _ Hg)) as [->|Hn].
  - pose proof (node_small _ _ _ _ _ (ga_state _ _ _ _ _ _ _ _ _ Hg) (ga_node _ _ _ _ _ _ _ _ _ Hg) ltac:(lia)). lia.
  - assert (node (rev bl ++ b :: al) ret 40) as Hn' by (eapply node_sub; [|exact Hn]; intros x Hx; apply elem_of_app; left; by apply elem_rev).
    pose proof (node_small _ _ _ _ _ (ga_state _ _ _ _ _ _ _ _ _ Hg) Hn' ltac:(lia)). lia.
Qed.

Lemma gathering_write u fl bl b al cmd ret ws ws' rs m' : gathering u fl bl b al cmd ret ws rs ->
  (∀ x, ¬ (cmd + 8 <= x < cmd + 168) -> ld8 m' x = ld8 (u_mem u) x) -> ld32 m' cmd = ld32 (u_mem u) cmd ->
  ((∀ q e w, word (u_mem u) q e w -> word m' q e w) -> slots m' cmd ws') ->
  gathering (u <| u_mem := m' |>) fl bl b al cmd ret ws' rs ∧ kept (rev bl ++ al) (u_mem u) m'.
Proof.
  intros [Gs (-> & Gb & Glo) Gt Gl Gw] Hm Ht Hw. destruct (block_write u fl (rev bl) b al m' Gs) as [Hs Hk]; [intros x Hx; apply Hm; lia|].
  assert (∀ q e w, word (u_mem u) q e w -> word m' q e w) as HW by (intros q e w; by eapply word_kept).
  split; [|done]. split; [done|done|by rewrite <- Gt|by apply Hw|]. eapply wrapped_frame; [|done|exact Gw].
  eapply kept_same, kept_sub; [|exact Hk]. intros x Hx. apply elem_of_app. left. by apply elem_rev.
Qed.

(** Redirections that follow. *)
Lemma gathering_redirs u fl bl b al cmd ret ws rs u' fl' bl' ret' rs' : gathering u fl bl b al cmd ret ws rs ->
  Z.of_nat (length ws) <= MAXARGS ->
  state u' fl' (rev bl' ++ rev bl ++ b :: al) -> kept (rev bl ++ b :: al) (u_mem u) (u_mem u') -> wrapped (u_mem u') bl' ret ret' rs' ->
  gathering u' fl' (bl ++ bl') b al cmd ret' ws (rs ++ rs').
Proof.
  intros Hg Hl Hs Hk Hw. pose proof (ga_node _ _ _ _ _ _ _ _ _ Hg) as Hn. destruct Hg as [Gs Gb Gt Gl Gw]. split; [|done| | |].
  - rewrite rev_app_distr, <- app_assoc. done.
  - rewrite <- Gt. apply (node_ld32 _ _ _ _ 168 _ (kept_same _ _ _ Hk) Hn); lia.
  - by eapply slots_kept.
  - eapply wrapped_app; [|exact Hw]. eapply wrapped_frame; [|intros q e w; by eapply word_kept|exact Gw].
    eapply kept_same, kept_sub; [|exact Hk]. intros x Hx. apply elem_of_app. left. by apply elem_rev.
Qed.

Lemma p_items_stop argc ts : next_redir ts = false -> next_in "|)&;" ts = true -> p_items argc ts = Some ([], [], ts).
Proof. destruct ts as [|[w|c] ts]; [done|done|]. cbn [next_redir next_in is_sym p_items]. by intros -> ->. Qed.

(** What the loop over the arguments does at the tokens [ts]. *)
Definition gathers (ts : list token) (u : user O) (fl : list block) (b : block) (al : list block) (cmd : Z) (ws : list (list Z)) (rs : list redir)
    (r : res (user O) (Z * Z * Z)) : Prop :=
  let argc := Z.of_nat (length ws) in
  fails (length ts) u (p_items argc ts = None) r ∨
  ∃ ret' s' u' fl' bl' ws' rs' ts', let argc' := Z.of_nat (length (ws ++ ws')) in
    r = Ret (ret', argc', s') u' ∧ p_items argc ts = Some (ws', rs', ts') ∧
    gathering u' fl' bl' b al cmd ret' (ws ++ ws') (rs ++ rs') ∧ argc' < MAXARGS ∧
    kept al (u_mem u) (u_mem u') ∧ reach (length ts - length ts') (u_os u) (u_os u') ∧ at_tokens (u_mem u') s' ts' ∧
    (length fl' + 2 * length ts' <= length fl + 2 * length ts)%nat ∧ (length ts' <= length ts)%nat.

Lemma gathers_done ts ts' s u fl bl b al cmd ret ws rs : gathering u fl bl b al cmd ret ws rs -> Z.of_nat (length ws) < MAXARGS ->
  p_items (Z.of_nat (length ws)) ts = Some ([], [], ts') -> at_tokens (u_mem u) s ts' -> (length ts' <= length ts)%nat ->
  gathers ts u fl b al cmd ws rs (Ret (ret, Z.of_nat (length ws), s) u).
Proof.
  intros Hg Hl Ep Ht Hn. right. exists ret, s, u, fl, bl, [], [], ts'. rewrite !app_nil_r. cbv zeta.
  split; [done|]. split; [done|]. split; [done|]. split; [done|]. split; [done|]. split; [apply reach_refl|]. split; [done|]. lia.
Qed.

(** The next argument is stored. *)
Lemma gathering_word u fl bl b al cmd ret ws rs q e w : gathering u fl bl b al cmd ret ws rs -> Z.of_nat (length ws) < MAXARGS ->
  word (u_mem u) q e w -> let u1 := u <| u_mem := set_slot cmd (Z.of_nat (length ws)) q e (u_mem u) |> in
  gathering u1 fl bl b al cmd ret (ws ++ [w]) rs ∧ kept al (u_mem u) (u_mem u1).
Proof.
  intros Hg Hl Hw. destruct (word_small _ _ _ _ _ _ (ga_state _ _ _ _ _ _ _ _ _ Hg) Hw) as [Hq He].
  destruct (gathering_write u fl bl b al cmd ret ws (ws ++ [w]) rs (set_slot cmd (Z.of_nat (length ws)) q e (u_mem u)) Hg) as [Hg1 Hk1].
  - intros x Hx. apply set_slot_out; [lia|done].
  - apply set_slot_type. lia.
  - intros HW. apply slots_snoc; [lia|lia|done|done|done|]. apply Hg.
  - split; [done|]. eapply kept_sub; [|exact Hk1]. intros x Hx. apply elem_of_app. by right.
Qed.

(** After it, redirections and the other arguments. *)
Lemma gathers_word n w s ts u u1 fl bl b al cmd ret ws rs :
  let argc := Z.of_nat (length ws) in
  gathering u1 fl bl b al cmd ret (ws ++ [w]) rs -> kept al (u_mem u) (u_mem u1) -> u_os u1 = u_os u -> argc + 1 < MAXARGS ->
  at_tokens (u_mem u1) s ts -> (2 * (length fl + 2 * length ts) + 6 <= fuel)%nat ->
  (∀ ret s ts' u fl bl rs, gathering u fl bl b al cmd ret (ws ++ [w]) rs -> at_tokens (u_mem u) s ts' -> next_redir ts' = false ->
    (length ts' <= length ts)%nat -> (2 * (length fl + 2 * length ts') + 6 <= fuel)%nat ->
    gathers ts' u fl b al cmd (ws ++ [w]) rs (parseargs base a_freep fuel n cmd ret (Z.of_nat (length (ws ++ [w]))) s es u)) ->
  gathers (TWord w :: ts) u fl b al cmd ws rs
    ((r ← parseredirs base a_freep fuel fuel ret s es; parseargs base a_freep fuel n cmd r.1 (argc + 1) r.2 es) u1).
Proof.
  intros argc Hg Hk Ho Hmax Ht Hf IH. assert (argc + 1 = Z.of_nat (length (ws ++ [w]))) as Ea by (rewrite length_app; cbn; unfold argc; lia).
  assert (reach 0 (u_os u) (u_os u1)) as Hr0 by (rewrite Ho; apply reach_refl). unfold gathers. fold argc.
  assert (p_items argc (TWord w :: ts) = match p_items (argc + 1) ts with Some (ws, rs, rest) => Some (w :: ws, rs, rest) | None => None end) as Ei
    by (cbn [p_items]; by rewrite (proj2 (Z.leb_gt MAXARGS (argc + 1)))). rewrite Ei, p_items_redirs. clear Ei.
  destruct (parseredirs_spec fuel ret s ts u1 fl _ (ga_state _ _ _ _ _ _ _ _ _ Hg) Ht (ga_small _ _ _ _ _ _ _ _ _ Hg)
    (at_tokens_fuel fuel a es Hfuel _ _ _ Ht) Hf) as [Hfl|(ret2 & s2 & u2 & bl2 & rs2 & ts2 & fl2 & E3 & Ep & Hs2 & Hk2 & Hre2 & Hw2 & Ht2 & Hr2 & Hlen)].
  { left. apply fails_bind. eapply fails_weaken; [|exact Hr0| |exact Hfl]; [by intros ->|cbn; lia]. }
  rewrite (bind_Ret _ _ _ _ _ E3), Ep. cbn [fst snd].
  pose proof (gathering_redirs _ _ _ _ _ _ _ _ _ _ _ _ _ _ Hg ltac:(lia) Hs2 Hk2 Hw2) as Hg2.
  assert (kept al (u_mem u) (u_mem u2)) as Hk12.
  { eapply kept_trans; [exact Hk|]. eapply kept_sub; [|exact Hk2]. intros x Hx. apply elem_of_app. right. by right. }
  pose proof (p_redirs_length _ _ _ Ep) as Hl2. rewrite Ea.
  destruct (IH ret2 s2 ts2 u2 fl2 (bl ++ bl2) (rs ++ rs2) Hg2 Ht2 Hr2 Hl2 ltac:(lia))
    as [Hfl|(ret' & s' & u' & fl' & bl' & ws' & rs' & ts' & E4 & Ep' & Hg' & Hmax' & Hk' & Hre' & Ht' & Hlen' & Hlts)].
  - left. eapply fails_weaken; [|rewrite <- Ho; exact Hre2| |exact Hfl]; [by intros ->|cbn; lia].
  - right. exists ret', s', u', fl', bl', (w :: ws'), (rs2 ++ rs'), ts'. rewrite <- (app_assoc ws), <- (app_assoc rs) in Hg'.
    rewrite <- (app_assoc ws) in E4, Hmax'. rewrite Ep'. cbn [app length] in *. cbv zeta. split; [exact E4|]. split; [done|]. split; [done|].
    split; [done|]. split; [by eapply kept_trans|]. split; [eapply reach_trans; [rewrite <- Ho; exact Hre2|exact Hre'|lia]|]. split; [done|]. lia.
Qed.

Lemma parseargs_spec n cmd ret s ts u fl bl b al ws rs : gathering u fl bl b al cmd ret ws rs -> Z.of_nat (length ws) < MAXARGS ->
  at_tokens (u_mem u) s ts -> next_redir ts = false -> (length ts < n)%nat -> (2 * (length fl + 2 * length ts) + 6 <= fuel)%nat ->
  gathers ts u fl b al cmd ws rs (parseargs base a_freep fuel n cmd ret (Z.of_nat (length ws)) s es u).
Proof.
  revert ret s ts u fl bl ws rs. induction n as [|n IH]; intros ret s ts u fl bl ws rs Hg Hl Ht Hr Hn Hf; [lia|]. cbn [parseargs].
  destruct (peek_next fuel a es Hfuel "|)&;" s ts u Ht) as (s1 & E1 & Ht1 & _); [done|done|].
  rewrite (bind_Ret _ _ _ _ _ E1). cbn [fst snd].
  destruct (next_in "|)&;" ts) eqn:En; [eapply gathers_done; [done|done|by apply p_items_stop|done|done]|].
  destruct (gettoken_spec fuel a es Hfuel _ _ u Ht1) as (q & e & s2 & E2 & Ht2 & Hw). rewrite (bind_Ret _ _ _ _ _ E2).
  destruct ts as [|[w|c] ts]; cbn [tok_ret tl] in *.
  - by eapply gathers_done.
  - change (ch "a" =? 0) with false. change (negb (ch "a" =? ch "a")) with false. cbv iota. unfold s64. rewrite !bind_modify.
    change (u <| u_mem ::= λ m, st64 m (x_argv cmd (Z.of_nat (length ws))) q |> <| u_mem ::= λ m, st64 m (x_eargv cmd (Z.of_nat (length ws))) e |>)
      with (u <| u_mem := set_slot cmd (Z.of_nat (length ws)) q e (u_mem u) |>).
    destruct (gathering_word u fl bl b al cmd ret ws rs q e w Hg Hl Hw) as [Hg1 Hk1].
    destruct (Z.leb_spec MAXARGS (Z.of_nat (length ws) + 1)) as [Hmax|Hmax].
    + left. apply panic_fails. cbn [p_items].
      by rewrite (proj2 (Z.leb_le MAXARGS (Z.of_nat (length ws) + 1))).
    + cbn [length] in *. eapply gathers_word; [exact Hg1|exact Hk1|done|done|by eapply at_tokens_kept|lia|].
      intros ret' s' ts' u' fl' bl' rs' Hg' Ht' Hr' Hl' Hf'. eapply IH; [done|rewrite length_app; cbn; lia|done|done|lia|done].
  - left. pose proof (at_tokens_ok a es _ _ _ _ Ht) as Hok. cbn [next_redir] in Hr. cbn [next_in is_sym] in En.
    destruct (Z.eqb_spec c 0) as [->|_]; [done|]. destruct (Z.eqb_spec c (ch "a")) as [->|_]; [done|]. apply panic_fails.
    cbn [p_items]. by rewrite Hr, En.
Qed.

(** *** Commands *)

(** A parser at the tokens [ts] does what [spec] says: it returns the tree of
    the command and the position of the tokens left, or it fails. *)
Definition parses (spec : option (cmd * list token)) (ts : list token) (u : user O) (fl al : list block) (r : res (user O) (Z * Z)) : Prop :=
  fails (2 * length ts + 1) u (spec = None) r ∨
  ∃ p s' u' c ts' fl' al', r = Ret (p, s') u' ∧ spec = Some (c, ts') ∧ state u' fl' (al' ++ al) ∧ kept al (u_mem u) (u_mem u') ∧
    reach (2 * (length ts - length ts') + 1) (u_os u) (u_os u') ∧ rep (word (u_mem u')) (u_mem u') (al' ++ al) p c ∧ at_tokens (u_mem u') s' ts' ∧
    (length fl' + 2 * length ts' <= length fl + 2 * length ts + 1)%nat ∧ (length ts' <= length ts)%nat.

(** [pl] is a parser for [P] on less than [k] tokens. *)
Definition parser (k : nat) (pl : Z -> Z -> UM O (Z * Z)) (P : list token -> option (cmd * list token)) : Prop :=
  ∀ s ts u fl al, state u fl al -> at_tokens (u_mem u) s ts -> (length ts < k)%nat ->
    (2 * (length fl + 2 * length ts) + 8 <= fuel)%nat -> parses (P ts) ts u fl al (pl s es u).

Lemma parseblock_spec k pl P s ts u fl al : parser k pl P -> state u fl al -> at_tokens (u_mem u) s ts -> next_in "(" ts = true ->
  (length ts <= k)%nat -> (2 * (length fl + 2 * length ts) + 8 <= fuel)%nat ->
  parses (p_block P (tl ts)) ts u fl al (parseblock base a_freep fuel pl s es u).
Proof.
  intros Hpl Hs Ht Hp Hn Hf. unfold parseblock.
  destruct (peek_next fuel a es Hfuel "(" s ts u Ht) as (s1 & E1 & Ht1 & _); [done|done|]. rewrite (bind_Ret _ _ _ _ _ E1). cbn [fst snd].
  rewrite Hp. cbn [negb]. apply next_one in Hp. rewrite Hp in Ht1, Hn, Hf |- *. set (ts1 := tl ts) in *. clearbody ts1. clear Hp Ht E1 ts.
  destruct (gettoken_spec fuel a es Hfuel _ _ u Ht1) as (q & e & s2 & E2 & Ht2 & _). rewrite (bind_Ret _ _ _ _ _ E2). cbn [tl length] in *.
  unfold p_block.
  destruct (Hpl s2 ts1 u fl al Hs Ht2 ltac:(lia) ltac:(lia)) as [Hfl|(p & s3 & u1 & c & ts2 & fl1 & al1 & E3 & -> & Hs1 & Hk1 & Hre1 & Hr1 & Ht3 & Hl1 & Hts)].
  { left. apply fails_bind. eapply fails_weaken; [|apply (reach_refl 0)| |exact Hfl]; [by intros ->|cbn [length]; lia]. }
  rewrite (bind_Ret _ _ _ _ _ E3). cbn [fst snd].
  destruct (peek_next fuel a es Hfuel ")" s3 ts2 u1 Ht3) as (s4 & E4 & Ht4 & _); [done|done|]. rewrite (bind_Ret _ _ _ _ _ E4). cbn [fst snd].
  destruct ts2 as [|t ts2]; [left; by apply panic_fails|]. cbn [next_in].
  destruct (is_sym ")" t); cbn [negb]; [|left; by apply panic_fails].
  destruct (gettoken_spec fuel a es Hfuel _ _ u1 Ht4) as (q' & e' & s5 & E5 & Ht5 & _). rewrite (bind_Ret _ _ _ _ _ E5). cbn [tl length] in *.
  pose proof (rep_small _ _ _ _ _ _ Hs1 Hr1) as Hp.
  destruct (parseredirs_spec fuel p s5 ts2 u1 fl1 _ Hs1 Ht5 ltac:(lia) (at_tokens_fuel fuel a es Hfuel _ _ _ Ht5) ltac:(lia))
    as [Hfl|(ret & s6 & u2 & bl & rs & ts3 & fl2 & E6 & Ep & Hs2 & Hk2 & Hre2 & Hw & Ht6 & _ & Hl2)].
  { left. eapply fails_weaken; [|exact Hre1| |exact Hfl]; [by intros ->|cbn [length]; lia]. }
  pose proof (p_redirs_length _ _ _ Ep). rewrite Ep.
  right. exists ret, s6, u2, (wrap c rs), ts3, fl2, (rev bl ++ al1). rewrite <- app_assoc. split; [exact E6|]. split; [done|]. split; [done|].
  split; [eapply kept_trans; [exact Hk1|]; eapply kept_sub; [|exact Hk2]; intros x Hx; apply elem_of_app; by right|].
  split; [eapply reach_trans; [exact Hre1|exact Hre2|cbn [length]; lia]|]. split; [|split; [done|cbn [length]; lia]]. eapply wrapped_rep; [|exact Hw|].
  - intros x Hx. apply elem_of_app. left. by apply elem_rev.
  - eapply rep_kept; [exact Hk2| |exact Hr1]. intros x Hx. apply elem_of_app. by right.
Qed.

Lemma parsesimple_spec s ts u fl al : state u fl al -> at_tokens (u_mem u) s ts -> (2 * (length fl + 2 * length ts) + 8 <= fuel)%nat ->
  parses (match p_items 0 ts with Some (ws, rs, rest) => Some (wrap (Exec ws) rs, rest) | None => None end) ts u fl al
    ((cmd ← execcmd base a_freep fuel;
      r ← parseredirs base a_freep fuel fuel cmd s es;
      r ← parseargs base a_freep fuel fuel cmd r.1 0 r.2 es;
      let '(ret, argc, s) := r in
      s64 (x_argv cmd argc) 0 ;;
      s64 (x_eargv cmd argc) 0 ;;
      mret (ret, s)) u).
Proof.
  intros Hs Ht Hf.
  destruct (execcmd_built u fl al Hs ltac:(lia)) as [Hfl|(b & u1 & fl1 & E1 & Hs1 & Hk1 & Hre1 & Hst & Hlo & Hl1 & HQ)].
  { left. apply fails_bind. eapply fails_weaken; [|apply (reach_refl 0)| |exact Hfl]; [done|cbn [length]; lia]. }
  rewrite (bind_Ret _ _ _ _ _ E1). set (cmd := b.1 + HEADER) in *.
  assert (gathering u1 fl1 [] b al cmd cmd [] []) as Hg1 by (by split).
  assert (at_tokens (u_mem u1) s ts) as Ht1 by (by eapply at_tokens_kept). 
  destruct (parseredirs_spec fuel cmd s ts u1 fl1 _ Hs1 Ht1 (ga_small _ _ _ _ _ _ _ _ _ Hg1) (at_tokens_fuel fuel a es Hfuel _ _ _ Ht1) ltac:(lia))
    as [Hfl|(ret2 & s2 & u2 & bl2 & rs2 & ts2 & fl2 & E2 & Ep & Hs2 & Hk2 & Hre2 & Hw2 & Ht2 & Hr2 & Hl2)].
  { left. apply fails_bind. eapply fails_weaken; [|exact Hre1| |exact Hfl]; [|lia]. intros Ep. by rewrite p_items_redirs, Ep. }
  rewrite (bind_Ret _ _ _ _ _ E2). cbn [fst snd].
  pose proof (gathering_redirs _ _ _ _ _ _ _ _ _ _ _ _ _ _ Hg1 ltac:(cbn; unfold MAXARGS; lia) Hs2 Hk2 Hw2) as Hg2.
  pose proof (p_redirs_length _ _ _ Ep).
  pose proof (parseargs_spec fuel cmd ret2 s2 ts2 u2 fl2 _ b al [] _ Hg2 ltac:(done) Ht2 Hr2 (at_tokens_fuel fuel a es Hfuel _ _ _ Ht2) ltac:(lia)) as Hpa.
  unfold gathers in Hpa. cbv zeta in Hpa. change (Z.of_nat (length [])) with 0 in Hpa. cbn [app] in Hpa. rewrite p_items_redirs, Ep.
  destruct Hpa as [Hfl|(ret' & s3 & u3 & fl3 & bl3 & ws & rs3 & ts3 & E3 & Ep3 & Hg3 & Hmax & Hk3 & Hre3 & Ht3 & Hl3 & Hts)].
  { left. apply fails_bind. eapply fails_weaken; [|eapply reach_trans; [exact Hre1|exact Hre2|done]| |exact Hfl]; [by intros ->|lia]. }
  rewrite (bind_Ret _ _ _ _ _ E3), Ep3. unfold s64. rewrite !bind_modify.
  change (u3 <| u_mem ::= λ m, st64 m (x_argv cmd (Z.of_nat (length ws))) 0 |> <| u_mem ::= λ m, st64 m (x_eargv cmd (Z.of_nat (length ws))) 0 |>)
    with (u3 <| u_mem := set_slot cmd (Z.of_nat (length ws)) 0 0 (u_mem u3) |>). set (m' := set_slot cmd (Z.of_nat (length ws)) 0 0 (u_mem u3)).
  destruct (gathering_write u3 fl3 bl3 b al cmd ret' ws ws (rs2 ++ rs3) m' Hg3) as [Hg4 Hk4].
  { intros x Hx. apply set_slot_out; [lia|done]. }
  { apply set_slot_type. lia. }
  { intros HW i w Hi. pose proof (lookup_lt_Some _ _ _ Hi). destruct (set_slot_other cmd (Z.of_nat (length ws)) (Z.of_nat i) 0 0 (u_mem u3)) as [Ei Ee]; [lia..|].
    unfold m'. rewrite Ei, Ee. apply HW. by apply Hg3. }
  right. exists ret', s3, (u3 <| u_mem := m' |>), (wrap (Exec ws) (rs2 ++ rs3)), ts3, fl3, (rev bl3 ++ [b]). rewrite <- app_assoc. cbn [app].
  assert (kept al (u_mem u3) m') as Hk4' by (eapply kept_sub; [|exact Hk4]; intros x Hx; apply elem_of_app; by right).
  split; [done|]. split; [done|]. split; [apply Hg4|].
  split. { eapply kept_trans; [exact Hk1|]. eapply kept_trans; [eapply kept_sub; [|exact Hk2]; by right|]. by eapply kept_trans. }
  split; [eapply reach_trans; [exact Hre1|eapply reach_trans; [exact Hre2|exact Hre3|done]|lia]|]. split; [|split; [by eapply at_tokens_kept|lia]].
  eapply wrapped_rep; [|apply Hg4|].
  - intros x Hx. apply elem_of_app. left. by apply elem_rev.
  - split; [by eapply ga_node|]. split; [apply Hg4|]. split; [done|]. split; [apply Hg4|]. apply set_slot_same; lia.
Qed.

Lemma parseexec_spec k pl P s ts u fl al : parser k pl P -> state u fl al -> at_tokens (u_mem u) s ts -> (length ts <= k)%nat ->
  (2 * (length fl + 2 * length ts) + 8 <= fuel)%nat ->
  parses (p_exec P ts) ts u fl al (parseexec base a_freep fuel pl s es u).
Proof.
  intros Hpl Hs Ht Hn Hf. unfold parseexec, p_exec.
  destruct (peek_next fuel a es Hfuel "(" s ts u Ht) as (s1 & E1 & Ht1 & _); [done|done|]. rewrite (bind_Ret _ _ _ _ _ E1). cbn [fst snd].
  destruct (next_in "(" ts) eqn:Ep; [by eapply parseblock_spec|by apply parsesimple_spec].
Qed.

(** A structure with two commands. *)
Lemma two_rep (C : cmd -> cmd -> cmd) (TYPE : Z) b al l r m m' : (C = Pipe ∧ TYPE = PIPE ∨ C = List ∧ TYPE = LIST) ->
  kept al m m' -> ld32 m' (b.1 + HEADER) = TYPE ∧ ld64 m' (c_left (b.1 + HEADER)) = l.1 ∧ ld64 m' (c_right (b.1 + HEADER)) = r.1 ->
  b.1 + HEADER + 24 <= stop b -> lo <= b.1 -> rep (word m) m al l.1 l.2 -> rep (word m) m al r.1 r.2 ->
  rep (word m') m' (b :: al) (b.1 + HEADER) (C l.2 r.2).
Proof.
  intros HC Hk (HT & Hl & Hr) Hst Hlo Hrl Hrr. assert (node (b :: al) (b.1 + HEADER) 24) as Hn by (exists b; by split; [left|]).
  assert (∀ p c, rep (word m) m al p c -> rep (word m') m' (b :: al) p c) as Hrep by (intros p c; apply rep_kept; [done|by right]).
  destruct HC as [[-> ->]|[-> ->]]; cbn [rep]; rewrite Hl, Hr; auto 10.
Qed.

Lemma parsepipe_spec n k pl P s ts u fl al : parser k pl P -> state u fl al -> at_tokens (u_mem u) s ts -> (length ts <= k)%nat ->
  (length ts < n)%nat -> (2 * (length fl + 2 * length ts) + 8 <= fuel)%nat ->
  parses (p_pipe n P ts) ts u fl al (parsepipe base a_freep fuel n pl s es u).
Proof.
  intros Hpl. revert s ts u fl al. induction n as [|n IH]; intros s ts u fl al Hs Ht Hk Hn Hf; [lia|]. cbn [parsepipe p_pipe].
  destruct (parseexec_spec k pl P s ts u fl al Hpl Hs Ht Hk Hf) as [Hfl|(p & s1 & u1 & c & ts1 & fl1 & al1 & E1 & -> & Hs1 & Hk1 & Hre1 & Hr1 & Ht1 & Hl1 & Hts1)].
  { left. apply fails_bind. eapply fails_weaken; [|apply (reach_refl 0)| |exact Hfl]; [by intros ->|cbn [length]; lia]. }
  rewrite (bind_Ret _ _ _ _ _ E1). cbn [fst snd].
  destruct (peek_next fuel a es Hfuel "|" s1 ts1 u1 Ht1) as (s2 & E2 & Ht2 & _); [done|done|]. rewrite (bind_Ret _ _ _ _ _ E2). cbn [fst snd].
  destruct (next_in "|" ts1) eqn:Ep; [|right; exists p, s2, u1, c, ts1, fl1, al1; auto 10].
  apply next_one in Ep. rewrite Ep in Ht2, Hl1, Hts1, Hre1. set (ts2 := tl ts1) in *. clearbody ts2. clear Ep Ht1 E2 ts1. cbn [length] in *.
  destruct (gettoken_spec fuel a es Hfuel _ _ u1 Ht2) as (q & e & s3 & E3 & Ht3 & _). rewrite (bind_Ret _ _ _ _ _ E3). cbn [tl] in *.
  destruct (IH s3 ts2 u1 fl1 _ Hs1 Ht3 ltac:(lia) ltac:(lia) ltac:(lia)) as [Hfl|(p' & s4 & u2 & d & ts4 & fl2 & al2 & E4 & -> & Hs2 & Hk2 & Hre2 & Hr2 & Ht4 & Hl2 & Hts2)].
  { left. apply fails_bind. eapply fails_weaken; [|exact Hre1| |exact Hfl]; [by intros ->|cbn [length]; lia]. }
  rewrite (bind_Ret _ _ _ _ _ E4). cbn [fst snd].
  assert (rep (word (u_mem u2)) (u_mem u2) (al2 ++ al1 ++ al) p c) as Hr1'
    by (eapply rep_kept; [exact Hk2| |exact Hr1]; intros x Hx; apply elem_of_app; by right).
  pose proof (rep_small _ _ _ _ _ _ Hs2 Hr1'). pose proof (rep_small _ _ _ _ _ _ Hs2 Hr2).
  destruct (pipecmd_built p p' u2 fl2 _ Hs2 ltac:(lia) ltac:(lia) ltac:(lia)) as [Hfl|(b & u3 & fl3 & E5 & Hs3 & Hk3 & Hre3 & Hst & Hlo & Hl3 & HQ)].
  { left. apply fails_bind. eapply fails_weaken; [|eapply reach_trans; [exact Hre1|exact Hre2|done]| |exact Hfl]; [done|lia]. }
  rewrite (bind_Ret _ _ _ _ _ E5). right. exists (b.1 + HEADER), s4, u3, (Pipe c d), ts4, fl3, (b :: al2 ++ al1). cbn [app]. rewrite <- app_assoc.
  split; [done|]. split; [done|]. split; [done|].
  split. { eapply kept_trans; [exact Hk1|]. eapply kept_trans; [eapply kept_sub; [|exact Hk2]|eapply kept_sub; [|exact Hk3]]; set_solver. }
  split; [eapply reach_trans; [exact Hre1|eapply reach_trans; [exact Hre2|exact Hre3|done]|lia]|]. split; [|split; [by eapply at_tokens_kept|lia]].
  by eapply (two_rep Pipe PIPE b _ (p, c) (p', d)); [left|..].
Qed.

Lemma parseback_spec n p s c ts u fl al : state u fl al -> at_tokens (u_mem u) s ts -> rep (word (u_mem u)) (u_mem u) al p c ->
  (length ts < n)%nat -> (2 * (length fl + 2 * length ts) + 4 <= fuel)%nat ->
  let r := parseback base a_freep fuel n p s es u in
  fails (length ts) u False r ∨
  ∃ p' s' u' fl' al', r = Ret (p', s') u' ∧ state u' fl' (al' ++ al) ∧ kept al (u_mem u) (u_mem u') ∧
    reach (length ts - length (p_back c ts).2) (u_os u) (u_os u') ∧
    rep (word (u_mem u')) (u_mem u') (al' ++ al) p' (p_back c ts).1 ∧ at_tokens (u_mem u') s' (p_back c ts).2 ∧
    (length fl' + 2 * length (p_back c ts).2 <= length fl + 2 * length ts)%nat ∧ (length (p_back c ts).2 <= length ts)%nat.
Proof.
  revert p s c ts u fl al. induction n as [|n IH]; intros p s c ts u fl al Hs Ht Hr Hn Hf; [lia|]. cbn [parseback].
  destruct (peek_next fuel a es Hfuel "&" s ts u Ht) as (s1 & E1 & Ht1 & _); [done|done|]. rewrite (bind_Ret _ _ _ _ _ E1). cbn [fst snd].
  assert (p_back c ts = (c, ts) -> ∃ p' s' u' fl' al', Ret (p, s1) u = Ret (p', s') u' ∧ state u' fl' (al' ++ al) ∧ kept al (u_mem u) (u_mem u') ∧
    reach (length ts - length (p_back c ts).2) (u_os u) (u_os u') ∧ rep (word (u_mem u')) (u_mem u') (al' ++ al) p' (p_back c ts).1 ∧ at_tokens (u_mem u') s' (p_back c ts).2 ∧
    (length fl' + 2 * length (p_back c ts).2 <= length fl + 2 * length ts)%nat ∧ (length (p_back c ts).2 <= length ts)%nat) as Hdone.
  { intros ->. exists p, s1, u, fl, []. split; [done|]. split; [done|]. split; [done|]. split; [apply reach_refl|]. by repeat split. }
  destruct ts as [|t ts]; [right; by apply Hdone|]. cbn [next_in p_back] in *. destruct (is_sym "&" t); cbn [negb]; [|right; by apply Hdone].
  clear Hdone. destruct (gettoken_spec fuel a es Hfuel _ _ u Ht1) as (q & e & s2 & E2 & Ht2 & _). rewrite (bind_Ret _ _ _ _ _ E2). cbn [tl length] in *.
  pose proof (rep_small _ _ _ _ _ _ Hs Hr).
  destruct (backcmd_built p u fl al Hs ltac:(lia) ltac:(lia)) as [Hfl|(b & u1 & fl1 & E3 & Hs1 & Hk1 & Hre1 & Hst & Hlo & Hl1 & HT & HP)].
  { left. apply fails_bind. eapply fails_weaken; [|apply (reach_refl 0)| |exact Hfl]; [done|cbn [length]; lia]. }
  rewrite (bind_Ret _ _ _ _ _ E3).
  assert (rep (word (u_mem u1)) (u_mem u1) (b :: al) (b.1 + HEADER) (Back c)) as Hr1.
  { cbn [rep]. rewrite HP. split; [exists b; by split; [left|]|]. split; [done|]. eapply rep_kept; [done| |exact Hr]. by right. }
  destruct (IH (b.1 + HEADER) s2 (Back c) ts u1 fl1 (b :: al) Hs1 ltac:(by eapply at_tokens_kept) Hr1 ltac:(lia) ltac:(lia))
    as [Hfl|(p' & s' & u' & fl' & al' & E4 & Hs' & Hk' & Hre' & Hr' & Ht' & Hl' & Hts')].
  - left. eapply fails_weaken; [|exact Hre1| |exact Hfl]; [done|cbn [length]; lia].
  - right. exists p', s', u', fl', (al' ++ [b]). rewrite <- app_assoc. cbn [app]. split; [exact E4|]. split; [done|].
    split; [eapply kept_trans; [exact Hk1|]; eapply kept_sub; [|exact Hk']; by right|].
    split; [eapply reach_trans; [exact Hre1|exact Hre'|lia]|]. split; [done|]. split; [done|]. lia.
Qed.

Lemma parseline_spec n : parser (n - 1) (parseline base a_freep fuel n) (p_line n).
Proof.
  induction n as [|n IH]; intros s ts u fl al Hs Ht Hn Hf; [lia|]. cbn [parseline p_line].
  destruct (parsepipe_spec n (n - 1) _ _ s ts u fl al IH Hs Ht ltac:(lia) ltac:(lia) Hf)
    as [Hfl|(p & s1 & u1 & c & ts1 & fl1 & al1 & E1 & -> & Hs1 & Hk1 & Hre1 & Hr1 & Ht1 & Hl1 & Hts1)].
  { left. apply fails_bind. eapply fails_weaken; [|apply (reach_refl 0)| |exact Hfl]; [by intros ->|cbn [length]; lia]. }
  rewrite (bind_Ret _ _ _ _ _ E1). cbn [fst snd].
  destruct (parseback_spec fuel p s1 c ts1 u1 fl1 _ Hs1 Ht1 Hr1 (at_tokens_fuel fuel a es Hfuel _ _ _ Ht1) ltac:(lia))
    as [Hfl|(p2 & s2 & u2 & fl2 & al2 & E2 & Hs2 & Hk2 & Hre2 & Hr2 & Ht2 & Hl2 & Hts2)].
  { left. apply fails_bind. eapply fails_weaken; [|exact Hre1| |exact Hfl]; [done|cbn [length]; lia]. }
  rewrite (bind_Ret _ _ _ _ _ E2). cbn [fst snd]. destruct (p_back c ts1) as [c2 ts2]. cbn [fst snd] in *.
  assert (kept al (u_mem u) (u_mem u2)) as Hk12 by (eapply kept_trans; [exact Hk1|eapply kept_sub; [|exact Hk2]; set_solver]).
  assert (reach (2 * (length ts - length ts2) + 1) (u_os u) (u_os u2)) as Hre12 by (eapply reach_trans; [exact Hre1|exact Hre2|lia]).
  destruct (peek_next fuel a es Hfuel ";" s2 ts2 u2 Ht2) as (s3 & E3 & Ht3 & _); [done|done|]. rewrite (bind_Ret _ _ _ _ _ E3). cbn [fst snd].
  destruct (next_in ";" ts2) eqn:Ep.
  2:{ right. exists p2, s3, u2, c2, ts2, fl2, (al2 ++ al1). rewrite <- app_assoc. split; [done|]. split; [done|]. split; [done|].
      split; [done|]. split; [done|]. split; [done|]. split; [done|]. lia. }
  apply next_one in Ep. rewrite Ep in Ht3, Hl2, Hts2, Hre12. set (ts3 := tl ts2) in *. clearbody ts3. clear Hre2 Ep Ht2 E3 ts2. cbn [length] in *.
  destruct (gettoken_spec fuel a es Hfuel _ _ u2 Ht3) as (q & e & s4 & E4 & Ht4 & _). rewrite (bind_Ret _ _ _ _ _ E4). cbn [tl] in *.
  destruct (IH s4 ts3 u2 fl2 _ Hs2 Ht4 ltac:(lia) ltac:(lia)) as [Hfl|(p' & s5 & u3 & d & ts5 & fl3 & al3 & E5 & -> & Hs3 & Hk3 & Hre3 & Hr3 & Ht5 & Hl3 & Hts3)].
  { left. apply fails_bind. eapply fails_weaken; [|exact Hre12| |exact Hfl]; [by intros ->|lia]. }
  rewrite (bind_Ret _ _ _ _ _ E5). cbn [fst snd].
  assert (rep (word (u_mem u3)) (u_mem u3) (al3 ++ al2 ++ al1 ++ al) p2 c2) as Hr2'
    by (eapply rep_kept; [exact Hk3| |exact Hr2]; intros x Hx; apply elem_of_app; by right).
  pose proof (rep_small _ _ _ _ _ _ Hs3 Hr2'). pose proof (rep_small _ _ _ _ _ _ Hs3 Hr3).
  destruct (listcmd_built p2 p' u3 fl3 _ Hs3 ltac:(lia) ltac:(lia) ltac:(lia)) as [Hfl|(b & u4 & fl4 & E6 & Hs4 & Hk4 & Hre4 & Hst & Hlo & Hl4 & HQ)].
  { left. apply fails_bind. eapply fails_weaken; [|eapply reach_trans; [exact Hre12|exact Hre3|done]| |exact Hfl]; [done|lia]. }
  rewrite (bind_Ret _ _ _ _ _ E6). right. exists (b.1 + HEADER), s5, u4, (List c2 d), ts5, fl4, (b :: al3 ++ al2 ++ al1). cbn [app]. rewrite <- !app_assoc.
  split; [done|]. split; [done|]. split; [done|].
  split. { eapply kept_trans; [exact Hk12|]. eapply kept_trans; [eapply kept_sub; [|exact Hk3]|eapply kept_sub; [|exact Hk4]]; set_solver. }
  split; [eapply reach_trans; [exact Hre12|eapply reach_trans; [exact Hre3|exact Hre4|done]|lia]|]. split; [|split; [by eapply at_tokens_kept|lia]].
  by eapply (two_rep List LIST b _ (p2, c2) (p', d)); [right|..].
Qed.

(** *** NUL termination *)

Section cut.
(** The memory [m0] the parser has left. *)
Context (m0 : memory) (al : list block) (Hal : ∀ b, b ∈ al -> lo <= b.1) (Hfuel10 : (10 < fuel)%nat).

(** Bytes of the line that are not in words are set to 0. *)
Definition cut (m m' : memory) : Prop := ∀ b, ld8 m' b = ld8 m b ∨ (a <= b <= es ∧ is_word (ld8 m0 b) = false ∧ ld8 m' b = 0).
(** A word that is terminated. *)
Definition ended (m : memory) (q e : Z) (w : list Z) : Prop := word m0 q e w ∧ ld8 m e = 0.

Lemma cut_refl m : cut m m.
Proof. by left. Qed.
Lemma cut_trans m1 m2 m3 : cut m1 m2 -> cut m2 m3 -> cut m1 m3.
Proof. intros H1 H2 b. destruct (H2 b) as [->|?]; [apply H1|by right]. Qed.
Lemma cut_zero m m' b : cut m m' -> ld8 m b = 0 -> ld8 m' b = 0.
Proof. intros H Hb. by destruct (H b) as [->|(_ & _ & ?)]. Qed.
Lemma cut_same m m' : cut m m' -> same al m m'.
Proof.
  intros H b x Hb Hx. destruct (H x) as [?|(Hin & _)]; [done|]. destruct (Hline x Hin) as [? _]. specialize (Hal b Hb). unfold HEADER in Hx. lia.
Qed.
Lemma cut_word m q e w : word m0 q e w -> cut m (st8 m e 0).
Proof.
  intros [He _ _ Hin Hs] b. rewrite ld8_st8. case_decide as Hbe; [right|by left]. rewrite <- Hbe. split; [lia|]. by split.
Qed.
Lemma ended_cut m m' q e w : cut m m' -> ended m q e w -> ended m' q e w.
Proof. intros H [Hw He]. split; [done|]. by eapply cut_zero. Qed.
Lemma rep_cut m m' p c : cut m m' -> rep (word m0) m al p c -> rep (word m0) m' al p c.
Proof. intros H. apply rep_frame; [done|by apply cut_same|done]. Qed.
Lemma rep_ended m m' p c : cut m m' -> rep (ended m) m al p c -> rep (ended m') m' al p c.
Proof. intros H. apply rep_frame; [done|by apply cut_same|]. intros q e w. by apply ended_cut. Qed.

Lemma nulterminate_args_spec n p ws i u : node al p 168 -> 0 <= i -> i + Z.of_nat (length ws) < MAXARGS -> (length ws < n)%nat ->
  (∀ j w, ws !! j = Some w -> word m0 (ld64 (u_mem u) (x_argv p (i + Z.of_nat j))) (ld64 (u_mem u) (x_eargv p (i + Z.of_nat j))) w) ->
  ld64 (u_mem u) (x_argv p (i + Z.of_nat (length ws))) = 0 ->
  ∃ m', nulterminate_args n p i u = Ret () (u <| u_mem := m' |>) ∧ cut (u_mem u) m' ∧
    ∀ j w, ws !! j = Some w -> ld8 m' (ld64 (u_mem u) (x_eargv p (i + Z.of_nat j))) = 0.
Proof.
  intros Hn. revert n i u. induction ws as [|w ws IH]; intros [|n] i u Hi Hl Hk Hw Hz; try (cbn [length] in Hk; lia); cbn [nulterminate_args];
    unfold l64; rewrite bind_gets.
  - cbn [length] in Hz. rewrite Z.add_0_r in Hz. rewrite Hz. exists (u_mem u). split; [by destruct u|]. split; [apply cut_refl|done].
  - pose proof (Hw 0%nat w eq_refl) as H0. rewrite Z.add_0_r in H0. cbn [length] in *.
    rewrite (proj2 (Z.eqb_neq (ld64 (u_mem u) (x_argv p i)) 0)) by (destruct H0 as [_ _ _ [? _] _]; lia).
    rewrite bind_gets. unfold sb. rewrite bind_modify. set (e := ld64 (u_mem u) (x_eargv p i)) in *.
    set (u1 := u <| u_mem ::= λ m, st8 m e 0 |>). pose proof (cut_word (u_mem u) _ _ _ H0) as Hc. pose proof (cut_same _ _ Hc) as Hsm.
    assert (∀ j, 0 <= j < MAXARGS -> ld64 (u_mem u1) (x_argv p j) = ld64 (u_mem u) (x_argv p j) ∧
      ld64 (u_mem u1) (x_eargv p j) = ld64 (u_mem u) (x_eargv p j)) as Hx
      by (intros j Hj; split; apply (node_ld64 al _ _ p 168); unfold x_argv, x_eargv, MAXARGS in *; (done || lia)).
    destruct (IH n (i + 1) u1) as (m' & E & Hc' & He); [lia|lia|lia| | |].
    + intros j w' Hj. pose proof (lookup_lt_Some _ _ _ Hj). destruct (Hx (i + 1 + Z.of_nat j)) as [-> ->]; [lia|].
      replace (i + 1 + Z.of_nat j) with (i + Z.of_nat (Datatypes.S j)) by lia. by apply (Hw (Datatypes.S j)).
    + rewrite (proj1 (Hx (i + 1 + Z.of_nat (length ws)) ltac:(lia))). rewrite <- Hz. f_equal. f_equal. lia.
    + exists m'. split; [exact E|]. split; [by eapply cut_trans|]. intros [|j] w' Hj.
      * rewrite Z.add_0_r. eapply cut_zero; [exact Hc'|]. cbn. by rewrite ld8_st8, decide_True.
      * pose proof (lookup_lt_Some _ _ _ Hj) as Hlt. cbn [length] in Hlt. specialize (He j w' Hj). rewrite (proj2 (Hx (i + 1 + Z.of_nat j) ltac:(lia))) in He.
        by replace (i + Z.of_nat (Datatypes.S j)) with (i + 1 + Z.of_nat j) by lia.
Qed.

(** Both commands of a structure. *)
Lemma nulterminate_two n l r p u : node al p 24 ->
  rep (word m0) (u_mem u) al (ld64 (u_mem u) (c_left p)) l ∧ rep (word m0) (u_mem u) al (ld64 (u_mem u) (c_right p)) r ->
  let does c := ∀ p u, rep (word m0) (u_mem u) al p c ->
    ∃ m', nulterminate fuel n p u = Ret () (u <| u_mem := m' |>) ∧ cut (u_mem u) m' ∧ rep (ended m') m' al p c in
  does l -> does r ->
  ∃ m', (l ← l64 (c_left p); nulterminate fuel n l ;; r ← l64 (c_right p); nulterminate fuel n r) u = Ret () (u <| u_mem := m' |>) ∧
    cut (u_mem u) m' ∧ rep (ended m') m' al (ld64 m' (c_left p)) l ∧ rep (ended m') m' al (ld64 m' (c_right p)) r.
Proof.
  intros Hnode [Hl Hr] does Dl Dr. unfold l64. rewrite bind_gets. destruct (Dl _ _ Hl) as (m1 & E1 & Hc1 & Hl1).
  rewrite (bind_Ret _ _ _ _ _ E1), bind_gets. change (u_mem (u <| u_mem := m1 |>)) with m1. pose proof (cut_same _ _ Hc1) as Hs1. unfold c_left, c_right in *.
  rewrite (node_ld64 al (u_mem u) m1 p 24 (p + 16)) by (done || lia). destruct (Dr _ (u <| u_mem := m1 |>) ltac:(by eapply rep_cut)) as (m2 & E2 & Hc2 & Hr2).
  cbn in Hc2. pose proof (cut_trans _ _ _ Hc1 Hc2) as Hc12. pose proof (cut_same _ _ Hc12) as Hs12.
  exists m2. split; [exact E2|]. split; [done|]. rewrite !(node_ld64 al (u_mem u) m2 p 24) by (done || lia). split; [by eapply (rep_ended m1)|done].
Qed.

Lemma nulterminate_spec n p c u : rep (word m0) (u_mem u) al p c -> (depth c <= n)%nat -> (∀ p n, node al p n -> p ≠ 0) ->
  ∃ m', nulterminate fuel n p u = Ret () (u <| u_mem := m' |>) ∧ cut (u_mem u) m' ∧ rep (ended m') m' al p c.
Proof.
  intros Hr Hn H0. revert n p u Hr Hn.
  induction c as [ws|c IH f mode fd|l IHl r IHr|l IHl r IHr|c IH]; intros [|n] p u Hr Hn; cbn [depth] in Hn; try lia; cbn [nulterminate];
    destruct Hr as [Hnode [HT Hr]]; rewrite (proj2 (Z.eqb_neq p 0)) by (by eapply H0, Hnode); unfold l32, l64; rewrite bind_gets, HT.
  - destruct Hr as (Hl & Hw & Hz). change (EXEC =? EXEC) with true. cbv iota.
    destruct (nulterminate_args_spec fuel p ws 0 u Hnode ltac:(lia) Hl ltac:(unfold MAXARGS in Hl; lia) Hw Hz) as (m' & E & Hc & He).
    exists m'. split; [exact E|]. split; [done|]. pose proof (cut_same _ _ Hc) as Hsm.
    apply (rep_frame (λ q e w, word m0 q e w ∧ ld8 m' e = 0) (ended m') (u_mem u) m' al al); [done|done|done|].
    split; [done|]. split; [done|]. split; [done|]. split; [|done]. intros i w Hi. split; [by apply Hw|]. by apply (He i w Hi).
  - destruct Hr as (Hc & Hf & Em & Ed). change (REDIR =? EXEC) with false. change (REDIR =? REDIR) with true. cbv iota. rewrite bind_gets.
    destruct (IH n _ u Hc ltac:(lia)) as (m1 & E1 & Hc1 & Hr1). rewrite (bind_Ret _ _ _ _ _ E1), bind_gets. pose proof (cut_same _ _ Hc1) as Hs1.
    assert (∀ x, p <= x -> x + 8 <= p + 40 -> ld64 m1 x = ld64 (u_mem u) x) as Hx by (intros x ? ?; by apply (node_ld64 al _ _ p 40)).
    unfold sb. change (u_mem (u <| u_mem := m1 |>)) with m1. unfold r_cmd, r_file, r_efile, r_mode, r_fd in *. rewrite (Hx (p + 24)) by lia. set (e := ld64 (u_mem u) (p + 24)) in *.
    pose proof (cut_word m1 _ _ _ Hf) as Hc2. pose proof (cut_trans _ _ _ Hc1 Hc2) as Hc12. pose proof (cut_same _ _ Hc12) as Hs12.
    exists (st8 m1 e 0). split; [done|]. split; [done|]. cbn [rep]. unfold r_cmd, r_file, r_efile, r_mode, r_fd.
    rewrite !(node_ld32 al (u_mem u) (st8 m1 e 0) p 40), !(node_ld64 al (u_mem u) (st8 m1 e 0) p 40) by (done || lia). fold e.
    split; [done|]. split; [done|]. split; [by eapply (rep_ended m1)|]. split; [|by split]. split; [done|]. by rewrite ld8_st8, decide_True.
  - destruct (nulterminate_two n l r p u Hnode Hr) as (m' & E & Hc & Hl & Hr'); [intros; by apply IHl; [|lia]|intros; by apply IHr; [|lia]|].
    exists m'. split; [exact E|]. split; [done|]. cbn [rep]. rewrite (node_ld32 al (u_mem u) _ p 24); [by repeat split|by apply cut_same|done|lia|lia].
  - destruct (nulterminate_two n l r p u Hnode Hr) as (m' & E & Hc & Hl & Hr'); [intros; by apply IHl; [|lia]|intros; by apply IHr; [|lia]|].
    exists m'. split; [exact E|]. split; [done|]. cbn [rep]. rewrite (node_ld32 al (u_mem u) _ p 24); [by repeat split|by apply cut_same|done|lia|lia].
  - change (BACK =? EXEC) with false. change (BACK =? REDIR) with false. change ((BACK =? PIPE) || (BACK =? LIST)) with false.
    change (BACK =? BACK) with true. cbv iota. rewrite bind_gets. destruct (IH n _ u Hr ltac:(lia)) as (m' & E & Hc & Hr').
    exists m'. split; [exact E|]. split; [done|]. cbn [rep]. unfold r_cmd in *. pose proof (cut_same _ _ Hc) as Hs.
    rewrite (node_ld32 al (u_mem u) _ p 16), (node_ld64 al (u_mem u) _ p 16) by (done || lia). by repeat split.
Qed.
End cut.

Lemma bytes_Forall (P : Z -> Prop) n m x : Forall P (bytes n m x) -> ∀ b, x <= b < x + Z.of_nat n -> P (ld8 m b).
Proof.
  revert x. induction n as [|n IH]; intros x H b Hb; [lia|]. cbn [bytes] in H. apply Forall_cons in H as [Hx H].
  destruct (decide (b = x)) as [->|]; [done|]. apply (IH (x + 1)); [done|lia].
Qed.
Lemma ended_cstr m0 m q e w : cut m0 m0 m -> ended m0 m q e w -> cstr m q w.
Proof.
  intros Hc [[-> Hb [_ Hw] _ _] He]. rewrite <- (app_nil_r w). apply cstr_app; [| |done].
  - eapply Forall_impl; [exact Hw|]. intros c Hcw ->. done.
  - rewrite <- Hb at 2. apply bytes_ext. intros x Hx. rewrite <- Hb in Hw. pose proof (bytes_Forall _ _ _ _ Hw x Hx) as Hxw. cbn in Hxw.
    destruct (Hc x) as [?|(_ & Hno & _)]; [done|]. by rewrite Hxw in Hno.
Qed.
Lemma rep_tree m0 m al p c : cut m0 m0 m -> (∀ p n, node al p n -> p ≠ 0) -> rep (ended m0 m) m al p c -> tree m p c.
Proof.
  intros Hc H0. revert p. induction c as [ws|c IH f mode fd|l IHl r IHr|l IHl r IHr|c IH]; intros p [Hn Hr]; (split; [by eapply H0, Hn|]);
    cbn in Hr |- *.
  - destruct Hr as (HT & Hl & Hw & Hz). split; [done|]. split; [done|]. split; [|done]. intros i w Hi. specialize (Hw i w Hi).
    split; [|by eapply ended_cstr]. destruct Hw as [[_ _ _ [? _] _] _]. lia.
  - destruct Hr as (HT & Hr & Hw & Hm & Hd). split; [done|]. split; [by apply IH|]. split; [by eapply ended_cstr|done].
  - destruct Hr as (HT & Hl & Hr). auto.
  - destruct Hr as (HT & Hl & Hr). auto.
  - destruct Hr as (HT & Hr). auto.
Qed.

Lemma parsecmd_spec l u : cstr (u_mem u) a l -> es = a + Z.of_nat (length l) -> state u [] [] -> Z.of_nat (length l) < 2 ^ 31 ->
  (4 * length l + 16 <= fuel)%nat ->
  let r := parsecmd base a_freep fuel a u in
  fails (2 * length l + 1) u (¬ ∃ c, derives CLine (lex l) c) r ∨
  ∃ p u' c, r = Ret p u' ∧ derives CLine (lex l) c ∧ tree (u_mem u') p c ∧ reach (2 * length l + 1) (u_os u) (u_os u').
Proof.
  intros Hl Hes Hs H31 Hf r. subst r. unfold parsecmd. rewrite (bind_Ret _ _ _ _ _ (strlen_spec fuel a l u Hl ltac:(lia) H31)). rewrite <- Hes.
  assert (at_tokens (u_mem u) a (lex l)) as Ht by (exists l; split; [split; [done|lia]|done]). pose proof (lex_length l) as Hll.
  destruct (parseline_spec fuel a (lex l) u [] [] Hs Ht ltac:(lia) ltac:(cbn [length]; lia))
    as [Hfl|(p & s1 & u1 & c & ts1 & fl1 & al1 & E1 & Ep & Hs1 & Hk1 & Hre1 & Hr1 & Ht1 & Hl1 & Hts1)].
  { left. apply fails_bind. eapply fails_weaken; [|apply (reach_refl 0)| |exact Hfl]; [|lia]. intros En (c & Hd).
    pose proof (derives_found _ _ _ Hd fuel [] eq_refl ltac:(lia)) as E. rewrite app_nil_r in E. by rewrite E in En. }
  rewrite (bind_Ret _ _ _ _ _ E1). cbn [fst snd]. rewrite app_nil_r in *.
  destruct (peek_spec fuel a es Hfuel s1 ts1 [] u1 Ht1) as (s2 & E2 & Ht2 & Hend). rewrite (bind_Ret _ _ _ _ _ E2). cbn [fst snd].
  destruct ts1 as [|t ts1].
  - right. rewrite (Hend eq_refl), Z.eqb_refl. cbn [negb]. pose proof (p_line_sound fuel _ _ _ Ep) as (pre & Epre & Hd). rewrite app_nil_r in Epre. subst pre.
    assert (∀ p n, node al1 p n -> p ≠ 0) as H0.
    { intros q n (b & _ & -> & _ & Hlo). destruct L as [L1 L2 _ _]. unfold HEADER. lia. }
    assert (∀ b, b ∈ al1 -> lo <= b.1) as Hal.
    { destruct Hs1 as [[[[_ _ _ _ [Hin _ _]] _] _]|(_ & _ & -> & _)]; [|by intros b ?%not_elem_of_nil]. intros b Hb. by destruct (Hin b Hb). }
    destruct (nulterminate_spec (u_mem u1) al1 Hal ltac:(lia) fuel p c u1 Hr1) as (m' & E3 & Hc & Hr'); [|exact H0|].
    { pose proof (derives_depth _ _ _ Hd). lia. }
    exists p, (u1 <| u_mem := m' |>), c. rewrite (bind_Ret _ _ _ _ _ E3). split; [done|]. split; [done|]. split; [by eapply rep_tree|].
    eapply reach_mono; [exact Hre1|cbn [length]; lia].
  - left. destruct Ht2 as (l2 & Hl2 & El2). assert (s2 ≠ es) as Hne.
    { intros ->. destruct l2 as [|c2 l2]; [done|]. destruct Hl2 as (_ & Hl2 & _). cbn [length] in Hl2. lia. }
    rewrite (proj2 (Z.eqb_neq _ _) Hne). cbn [negb].
    rewrite (bind_Ret _ _ _ _ _ (ustr_spec fuel s2 l2 u1 (proj1 Hl2) (at_text_fuel fuel a es Hfuel _ _ _ Hl2))).
    destruct (prints 2 (str "leftovers: %s" ++ [10]) [VStr (Some l2)] u1) as ([] & u2 & E3 & _).
    unfold Uprintf.fprintf. rewrite (bind_Ret _ _ _ _ _ E3).
    destruct (panic_exits (A := Z) (str "syntax") u2) as (u3 & E4 & H4). exists u3. split; [exact E4|]. left. split; [|done].
    intros (d & Hd). pose proof (derives_found _ _ _ Hd fuel [] eq_refl ltac:(lia)) as E. rewrite app_nil_r in E. by rewrite E in Ep.
Qed.
End tree.

(** ** The claims *)

(** The shell has read the line [l] to [a] and has not allocated memory yet. *)
Record ready {O : Type} {S : Sys O} (brk : O -> Z) (base a_freep lo a : Z) (fuel : nat) (l : list Z) (u : user O) : Prop := {
  rd_layout : layout base a_freep lo;
  rd_fresh : fresh a_freep lo brk u [] [];
  rd_line : cstr (u_mem u) a l;
  rd_pos : 0 < a ∧ a + Z.of_nat (length l) < lo;
  rd_base : a + Z.of_nat (length l) < base ∨ base + 16 <= a;
  rd_freep : a + Z.of_nat (length l) < a_freep ∨ a_freep + 8 <= a;
  rd_fuel : Z.of_nat (length l) < 2 ^ 31 ∧ (4 * length l + 16 <= fuel)%nat;
}.

Lemma parsecmd_ready {O : Type} {S : Sys O} (brk : O -> Z) {B : Brk brk} base a_freep lo a fuel l u :
  ready brk base a_freep lo a fuel l u ->
  let r := parsecmd base a_freep fuel a u in
  fails brk (2 * length l + 1) u (¬ ∃ c, derives CLine (lex l) c) r ∨
  ∃ p u' c, r = Ret p u' ∧ derives CLine (lex l) c ∧ tree (u_mem u') p c ∧ reach brk (2 * length l + 1) (u_os u) (u_os u').
Proof.
  intros [HL Hf Hl Hp Hb Hfp [Hn Hk]]. apply (parsecmd_spec brk base a_freep lo HL fuel a (a + Z.of_nat (length l))); try done; [lia|lia| |by right].
  intros b Hbb. lia.
Qed.

(** C19. [parsecmd] terminates.  It returns the tree of the command that the
    grammar derives from the tokens of the line, and exits with status 1 if
    there is none.  The one exception is memory: it is killed (status -1) only
    if, of 2n + 1 successive requests for 64 kilobytes, where n is the length
    of the line, the kernel refuses one. *)
Theorem parsecmd_decides {O : Type} {S : Sys O} (brk : O -> Z) {B : Brk brk} base a_freep lo a fuel l u :
  ready brk base a_freep lo a fuel l u ->
  (∃ p u' c, parsecmd base a_freep fuel a u = Ret p u' ∧ derives CLine (lex l) c ∧ tree (u_mem u') p c) ∨
  (∃ u', parsecmd base a_freep fuel a u = Switch u' ∧
    (u_exit u' = Some 1 ∧ ¬ (∃ c, derives CLine (lex l) c) ∨
     u_exit u' = Some (-1) ∧ short brk (2 * length l + 1) (u_os u))).
Proof.
  intros Hr. destruct (parsecmd_ready brk base a_freep lo a fuel l u Hr) as [(u' & E & H)|(p & u' & c & E & Hd & Ht & _)]; [right|left; by exists p, u', c].
  exists u'. split; [done|]. destruct H as [[? ?]|?]; [left; by split|by right].
Qed.

(** C21. Commands can be written as lines that [parsecmd] reads back:
    pipelines, lists and background commands nested in any way, with their
    redirections and arguments.  The commands are those the shell can have:
    fewer than [MAXARGS] words, none empty or with a blank or a symbol in it,
    and the three kinds of redirection.  As above, the kernel must not refuse
    one of 2n + 1 requests for 64 kilobytes, n the length of the line. *)
Theorem parsecmd_roundtrip {O : Type} {S : Sys O} (brk : O -> Z) {B : Brk brk} base a_freep lo a fuel c u :
  let l := text (print CLine c) in
  cmd_ok c -> ready brk base a_freep lo a fuel l u -> ¬ short brk (2 * length l + 1) (u_os u) ->
  ∃ p u', parsecmd base a_freep fuel a u = Ret p u' ∧ tree (u_mem u') p c.
Proof.
  intros l Hc Hr Hm. pose proof (print_derives c CLine Hc) as Hd. pose proof (parsecmd_ready brk base a_freep lo a fuel _ u Hr) as H.
  unfold l in *. rewrite lex_text in H by (by apply print_ok). destruct H as [(u' & E & [[Hno _]|[_ H]])|(p & u' & c' & E & Hd' & Ht & _)].
  - destruct Hno. by exists c.
  - by destruct Hm.
  - exists p, u'. split; [done|]. apply p_cmd_decides in Hd, Hd'. congruence.
Qed.

(** ** An example *)

#[local] Existing Instance demo_brk_sys.
#[local] Existing Instance demo_brk.

Lemma written_cstr a l m : Forall (λ c, 0 < c < 256) l -> ld8 m (a + Z.of_nat (length l)) = 0 -> cstr (write_bytes a l m) a l.
Proof.
  intros Hl Hz. rewrite <- (app_nil_r l) at 2. apply cstr_app.
  - eapply Forall_impl; [exact Hl|]. cbn. lia.
  - apply bytes_written. eapply Forall_impl; [exact Hl|]. cbn. lia.
  - cbn. rewrite ld8_write_bytes, decide_False by lia. done.
Qed.

Definition demo_line (l : list Z) : user Z := mk_user (write_bytes 4160 l ∅) 8192 None.
Lemma demo_ready l : Forall (λ c, 0 < c < 256) l -> (length l < 100)%nat -> ready (λ o : Z, o) 4128 4096 4352 4160 500 l (demo_line l).
Proof.
  intros Hl Hn. split; [apply demo_layout| |by apply written_cstr|lia|lia|lia|lia].
  split; [|cbn; split; [done|split; [done|lia]]]. transitivity (ld64 ∅ 4096); [|vm_compute; reflexivity].
  apply ld64_ext. intros b Hb. cbn. rewrite ld8_write_bytes, decide_False by lia. done.
Qed.

Definition demo_cmd : cmd :=
  List (Back (Pipe (Exec [str "ls"; str "-l"]) (Redir (Exec [str "wc"]) (str "out") (Z.lor (Z.lor O_WRONLY O_CREATE) O_TRUNC) 1)))
    (Redir (List (Exec [str "cat"; str "out"]) (Exec [])) (str "in") O_RDONLY 0).

(** The example's kernel gives memory up to [2 ^ 34]. *)
Lemma demo_reach n o o' : reach (λ o : Z, o) n o o' -> o <= o' <= o + 65536 * Z.of_nat n.
Proof.
  intros (k & Hk & H). enough (o <= o' <= o + 65536 * Z.of_nat k) by lia. clear Hk. induction H as [|k o o1 o2 H1 _ IH]; [lia|].
  cbn in H1. case_match; injection H1; lia.
Qed.
Lemma demo_not_short n o : 0 <= o -> o + 65536 * Z.of_nat n <= 2 ^ 34 -> ¬ short (λ o : Z, o) n o.
Proof.
  intros Ho Hn (k & o1 & o2 & Hk & Hr%demo_reach & E). cbn in E. rewrite (proj2 (Z.leb_le _ _)) in E by lia.
  injection E as E _. unfold SBRK_ERROR in E. lia.
Qed.

Lemma parsecmd_decides_witness : let l := str "echo a b | (wc >> n; ls) &" in
  (∃ p u' c, parsecmd 4128 4096 500 4160 (demo_line l) = Ret p u' ∧ derives CLine (lex l) c ∧ tree (u_mem u') p c).
Proof.
  intros l. destruct (parsecmd_decides (λ o : Z, o) 4128 4096 4352 4160 500 l (demo_line l)) as [H|(u' & _ & [[_ Hno]|[_ Hs]])]; [|done|exfalso..].
  - apply demo_ready; [repeat constructor|cbn; lia].
  - apply Hno. destruct (p_line 100 (lex l)) as [[c ts]|] eqn:E; [|by vm_compute in E].
    destruct (p_line_sound 100 _ _ _ E) as (pre & Epre & Hd). exists c.
    assert (ts = []) as -> by (by vm_compute in E; injection E as _ <-). by rewrite app_nil_r in Epre; subst pre.
  - revert Hs. apply demo_not_short; cbn; lia.
Defined.

Lemma parsecmd_roundtrip_witness : let l := text (print CLine demo_cmd) in
  ∃ p u', parsecmd 4128 4096 500 4160 (demo_line l) = Ret p u' ∧ tree (u_mem u') p demo_cmd.
Proof.
  intros l. apply (parsecmd_roundtrip (λ o : Z, o) 4128 4096 4352 4160 500 demo_cmd (demo_line l)).
  - cbn. unfold word_ok, MAXARGS. repeat split; repeat constructor; done.
  - apply demo_ready; [vm_compute; repeat constructor|vm_compute; lia].
  - apply demo_not_short; vm_compute; done.
Defined.
