(* ===== verification/ShRun.v ===== *)
(** * Running commands

    What the processes that [runcmd] of [user/sh.c] starts do.  Each of them
    ends in [exit] or in [exec]; the program it runs is one of those in the
    command, and its open files are those of the shell but for the redirections
    and the pipes around it.  No process keeps the other end of a pipe open. *)
From Stdlib Require Import Ascii String.
From S2P Require Import Prelude Layout KState CString Uart User UPrintf Umalloc Sh ShGrammar ShSpec.

#[local] Opaque ld64 st64 ld32 st32.

(** ** Open files *)

(** What a descriptor stands for; a pipe has a number. *)
Inductive ofile : Type := OFile (path : list Z) (mode : Z) | ORead (k : nat) | OWrite (k : nat) | OOther (k : nat).
Abbreviation table := (gmap Z ofile).

Definition lowest (t : table) (fd : Z) : Prop := 0 <= fd < Z.of_nat NOFILE ∧ t !! fd = None ∧ ∀ i, 0 <= i < fd -> is_Some (t !! i).

(** What the system calls do to the open files [fds] of the process and to the
    program [prog] that it runs. *)
Class Process {O : Type} {S : Sys O} (fds : O -> table) (prog : O -> list (list Z)) : Prop := {
  ps_close fd o : ∃ r o', os_close fd o = (r, o') ∧ fds o' = delete fd (fds o);
  ps_open path mode o : ∃ r o', os_open path mode o = (r, o') ∧
    (r < 0 ∧ fds o' = fds o ∨ lowest (fds o) r ∧ fds o' = <[r := OFile path mode]> (fds o));
  ps_dup fd o f : fds o !! fd = Some f -> (∃ i, lowest (fds o) i) ->
    ∃ r o', os_dup fd o = (r, o') ∧ lowest (fds o) r ∧ fds o' = <[r := f]> (fds o);
  ps_pipe o : ∃ r p0 p1 o', os_pipe o = (r, (p0, p1), o') ∧
    (r < 0 ∧ fds o' = fds o ∨ r = 0 ∧ ∃ k, lowest (fds o) p0 ∧ lowest (<[p0 := ORead k]> (fds o)) p1 ∧
      fds o' = <[p1 := OWrite k]> (<[p0 := ORead k]> (fds o)));
  ps_fork o : ∃ r o', os_fork o = (r, o') ∧ fds o' = fds o;
  ps_wait o : ∃ r o', os_wait o = (r, o') ∧ fds o' = fds o;
  ps_write fd l o : ∃ r o', os_write fd l o = (r, o') ∧ fds o' = fds o;
  ps_sbrk n e o : ∃ r o', os_sbrk n e o = (r, o') ∧ fds o' = fds o;
  ps_exec path argv o : ∃ r o', os_exec path argv o = (r, o') ∧ fds o' = fds o ∧ (r = None -> prog o' = argv);
}.

(** ** What a command runs *)

(** A process of the command [c], started with the open files [t], runs the
    program [argv] with the open files [t']. *)
Inductive runs : cmd -> table -> list (list Z) -> table -> Prop :=
| runs_exec w ws t : runs (Exec (w :: ws)) t (w :: ws) t
| runs_redir c f mode fd t argv t' : runs c (<[fd := OFile f mode]> t) argv t' -> runs (Redir c f mode fd) t argv t'
| runs_left l r t k argv t' : runs l (<[1 := OWrite k]> t) argv t' -> runs (Pipe l r) t argv t'
| runs_right l r t k argv t' : runs r (<[0 := ORead k]> t) argv t' -> runs (Pipe l r) t argv t'
| runs_first l r t argv t' : runs l t argv t' -> runs (List l r) t argv t'
| runs_second l r t argv t' : runs r t argv t' -> runs (List l r) t argv t'
| runs_back c t argv t' : runs c t argv t' -> runs (Back c) t argv t'.

(** Every word satisfies [Q], and only standard input and output are redirected. *)
Fixpoint plain (Q : list Z -> Prop) (c : cmd) : Prop :=
  match c with
  | Exec ws => Forall Q ws
  | Redir c' f _ fd => Q f ∧ (fd = 0 ∨ fd = 1) ∧ plain Q c'
  | Pipe l r | List l r => plain Q l ∧ plain Q r
  | Back c' => plain Q c'
  end.
(** Standard input, output and error are open. *)
Definition std_open (t : table) : Prop := is_Some (t !! 0) ∧ is_Some (t !! 1) ∧ is_Some (t !! 2).

Definition word_all (Q : list Z -> Prop) (t : token) : Prop := match t with TWord w => Q w | TSym _ => True end.
Lemma lex_words l : Forall (word_all (λ w, length w <= length l)%nat) (lex l).
Proof.
  induction l as [l IH] using (induction_ltof1 _ length). unfold ltof in IH. destruct l as [|c l]; [constructor|]. cbn [lex length] in *.
  assert (∀ l', (length l' <= length l)%nat -> Forall (word_all (λ w, length w <= Datatypes.S (length l))%nat) (lex l')) as IH'.
  { intros l' Hl. eapply Forall_impl; [apply IH; lia|]. intros [w|]; cbn; [lia|done]. }
  destruct (is_space c); [by apply IH'|]. destruct (c =? ch ">").
  - destruct l as [|d l]; [by repeat constructor|]. destruct (d =? ch ">"); constructor; try done; apply IH'; cbn [length]; lia.
  - destruct (is_in symbols c); [constructor; [done|by apply IH']|]. destruct (starts_word l); [|constructor; [cbn; lia|by apply IH']].
    pose proof (IH l ltac:(lia)) as Hl. specialize (IH' l ltac:(lia)). destruct (lex l) as [|[w|] ts]; cbn [cons_word].
    + constructor; [cbn; lia|done].
    + apply Forall_cons in Hl as [Hw _], IH' as [_ IH']. cbn in Hw. constructor; [cbn; lia|done].
    + constructor; [cbn; lia|done].
Qed.
Lemma plain_wrap Q c rs : plain Q c -> Forall (λ r : redir, Q r.1.1 ∧ (r.2 = 0 ∨ r.2 = 1)) rs -> plain Q (wrap c rs).
Proof. intros Hc Hrs. revert c Hc. induction Hrs as [|r rs [H1 H2] Hrs IH]; intros c Hc; [done|]. by apply (IH (Redir c r.1.1 r.1.2 r.2)). Qed.
Lemma items_plain Q ts ws rs : items ts ws rs -> Forall (word_all Q) ts -> Forall Q ws ∧ Forall (λ r : redir, Q r.1.1 ∧ (r.2 = 0 ∨ r.2 = 1)) rs.
Proof.
  induction 1 as [|w ts ws rs Hi IH|s f r ts ws rs Hr Hi IH]; intros Ht; [by split|..].
  - apply Forall_cons in Ht as [Hw Ht]. destruct (IH Ht). by split; [constructor|].
  - apply Forall_cons in Ht as [_ [Hf Ht]%Forall_cons]. destruct (IH Ht). split; [done|]. constructor; [|done].
    unfold redir_of in Hr. repeat case_match; try done; injection Hr as <-; cbn; auto.
Qed.
Lemma derives_plain Q k ts c : derives k ts c -> Forall (word_all Q) ts -> plain Q c.
Proof.
  induction 1 as [ts ws rs Hi _|ts c ts' rs Hd IH Hi|ts c Hd IH|ts c ts' d Hd IH Hd' IH'|ts c Hd IH|ts c Hd IH|ts c Hd IH|ts c ts' d Hd IH Hd' IH'];
    rewrite ?Forall_app, ?Forall_cons, ?Forall_app, ?Forall_cons; intros Ht; try naive_solver.
  - destruct (items_plain _ _ _ _ Hi Ht). by apply plain_wrap.
  - destruct Ht as (_ & Hts & _ & Hts'). destruct (items_plain _ _ _ _ Hi Hts'). apply plain_wrap; auto.
Qed.

(** *** Tables *)

Lemma lowest_std t fd r : std_open t -> fd = 0 ∨ fd = 1 -> lowest (delete fd t) r -> r = fd.
Proof.
  intros ([x H0] & [y H1] & _) Hfd (Hr & Hn & Hl). rewrite lookup_delete in Hn. case_decide; [done|]. exfalso.
  destruct (decide (fd < r)) as [Hlt|Hge].
  - destruct (Hl fd) as [z Hz]; [lia|]. rewrite lookup_delete in Hz. by case_decide.
  - assert (r = 0) as -> by lia. congruence.
Qed.
Lemma lowest_closed t fd : std_open t -> fd = 0 ∨ fd = 1 -> lowest (delete fd t) fd.
Proof.
  intros (H0 & H1 & _) Hfd. split; [unfold NOFILE; lia|]. split; [by rewrite lookup_delete, decide_True|].
  intros i Hi. rewrite lookup_delete, decide_False by lia. by assert (i = 0) as -> by lia.
Qed.
Lemma std_open_insert t fd f : std_open t -> std_open (<[fd := f]> t).
Proof. intros (H0 & H1 & H2). by repeat split; rewrite lookup_insert; case_decide. Qed.
Lemma std_open_fresh t fd : std_open t -> t !! fd = None -> fd ≠ 0 ∧ fd ≠ 1 ∧ fd ≠ 2.
Proof. intros ([? ?] & [? ?] & [? ?]) Hn. by repeat split; intros ->; congruence. Qed.

(** A pipe end as standard input or output, and both descriptors closed. *)
Lemma pipe_end t fd p0 p1 f g h : std_open t -> fd = 0 ∨ fd = 1 -> t !! p0 = None -> t !! p1 = None ->
  delete p1 (delete p0 (<[fd := h]> (delete fd (<[p1 := g]> (<[p0 := f]> t))))) = <[fd := h]> t.
Proof.
  intros Ht Hfd H0 H1. destruct (std_open_fresh _ _ Ht H0) as (? & ? & _), (std_open_fresh _ _ Ht H1) as (? & ? & _).
  apply map_eq. intros i. rewrite !lookup_delete, !lookup_insert, !lookup_delete, !lookup_insert. repeat case_decide; subst; try done; lia.
Qed.

Section run.
Context {O : Type} {S : Sys O} (fds : O -> table) (prog : O -> list (list Z)) {P : Process fds prog}.
Context (fuel : nat).
Implicit Types u : user O.

(** Calls that leave the open files as they were. *)
Definition same_files (o o' : O) : Prop := fds o' = fds o.
#[local] Instance same_files_preorder : PreOrder same_files.
Proof. split; [done|]. intros o1 o2 o3. unfold same_files. congruence. Qed.
Lemma harmless {A} (f : O -> A * O) : (∀ o, ∃ r o', f o = (r, o') ∧ fds o' = fds o) -> quiet same_files (sys f).
Proof. intros H. apply quiet_sys. intros o. destruct (H o) as (r & o' & -> & E). exact E. Qed.
Lemma harmless_print fd fmt ap : quiet same_files (Uprintf.vprintf fd fmt ap).
Proof. apply quiet_vprintf; [apply _|]. intros fd' l o. destruct (ps_write fd' l o) as (r & o' & -> & E). exact E. Qed.

(** *** The outcome *)

Definition ends {A} (Q : list (list Z) -> table -> Prop) (r : res (user O) A) : Prop :=
  ∃ u', r = Switch u' ∧ (u_exit u' = None -> Q (prog (u_os u')) (fds (u_os u'))).

Lemma ends_bind {A B} Q (m : UM O A) (f : A -> UM O B) u : ends Q (m u) -> ends Q ((m ≫= f) u).
Proof. intros (u' & E & H). exists u'. split; [|done]. unfold mbind, ST_bind. by rewrite E. Qed.
Lemma ends_exit {A} Q n u : ends Q (exit (A := A) n u).
Proof. by exists (u <| u_exit := Some n |>). Qed.
Lemma ends_quiet {A B} Q (m : UM O A) (f : A -> UM O B) u : quiet same_files m ->
  (∀ a u', u_mem u' = u_mem u -> fds (u_os u') = fds (u_os u) -> ends Q (f a u')) -> ends Q ((m ≫= f) u).
Proof. intros Hm Hf. destruct (Hm u) as (a & u' & E & E1 & E2 & E3). rewrite (bind_Ret _ _ _ _ _ E). by apply Hf. Qed.
Lemma ends_panic {A} Q s u : ends Q (sh_panic (A := A) s u).
Proof. apply ends_quiet; [apply harmless_print|]. intros. apply ends_exit. Qed.
Lemma ends_weaken {A} (Q Q' : list (list Z) -> table -> Prop) (r : res (user O) A) : (∀ argv t, Q argv t -> Q' argv t) -> ends Q r -> ends Q' r.
Proof. intros H (u' & E & Hu). exists u'. split; [done|]. auto. Qed.

(** [fork1]: the child and the parent. *)
Lemma ends_fork {A} Q (f : Z -> UM O A) u :
  (∀ pid u', u_mem u' = u_mem u -> fds (u_os u') = fds (u_os u) -> ends Q (f pid u')) -> ends Q ((fork1 ≫= f) u).
Proof.
  intros Hf. unfold fork1. rewrite bind_bind. apply ends_quiet; [apply harmless, ps_fork|]. intros pid u' E1 E2.
  destruct (pid =? -1); [apply ends_bind, ends_panic|]. rewrite bind_ret. by apply Hf.
Qed.
Lemma ends_close {A} Q fd (f : Z -> UM O A) u :
  (∀ r u', u_mem u' = u_mem u -> fds (u_os u') = delete fd (fds (u_os u)) -> ends Q (f r u')) ->
  ends Q ((sys (os_close fd) ≫= f) u).
Proof.
  intros Hf. destruct (ps_close fd (u_os u)) as (r & o' & E & E').
  rewrite (bind_Ret _ _ u r (u <| u_os := o' |>)); [by apply Hf|]. unfold sys. by rewrite E.
Qed.

(** A pipe end becomes the standard input or output of a child. *)
Lemma ends_pipe_child {A} Q t fd p p0 p1 f g h (k : UM O A) u : std_open t -> fd = 0 ∨ fd = 1 -> t !! p0 = None -> t !! p1 = None ->
  fds (u_os u) = <[p1 := g]> (<[p0 := f]> t) -> fds (u_os u) !! p = Some h -> p ≠ 0 -> p ≠ 1 ->
  (∀ u', u_mem u' = u_mem u -> fds (u_os u') = <[fd := h]> t -> ends Q (k u')) ->
  ends Q ((sys (os_close fd) ;; sys (os_dup p) ;; sys (os_close p0) ;; sys (os_close p1) ;; k) u).
Proof.
  intros Ht Hfd H0 H1 Et Hp Hp0 Hp1 Hk. apply ends_close. intros _ u1 M1 F1.
  assert (std_open (fds (u_os u))) as Ht' by (rewrite Et; by repeat apply std_open_insert).
  destruct (ps_dup p (u_os u1) h) as (r & o2 & E2 & Hlow & F2).
  { rewrite F1, lookup_delete, decide_False by (destruct Hfd; lia). done. }
  { exists fd. rewrite F1. by apply lowest_closed. }
  rewrite F1 in Hlow, F2. apply lowest_std in Hlow as ->; [|done|done].
  rewrite (bind_Ret _ _ u1 fd (u1 <| u_os := o2 |>)); [|unfold sys; by rewrite E2].
  apply ends_close. intros _ u3 M3 F3. apply ends_close. intros _ u4 M4 F4.
  apply Hk; [by rewrite M4, M3|]. rewrite F4, F3. cbn. rewrite F2, Et. by apply pipe_end.
Qed.

(** The two sides of a pipe, and the shell that waits for them. *)
Lemma ends_pipe Q t p0 p1 k (left right : UM O ()) u : std_open t -> t !! p0 = None -> t !! p1 = None -> p0 ≠ p1 ->
  fds (u_os u) = <[p1 := OWrite k]> (<[p0 := ORead k]> t) ->
  (∀ u', u_mem u' = u_mem u -> fds (u_os u') = <[1 := OWrite k]> t -> ends Q (left u')) ->
  (∀ u', u_mem u' = u_mem u -> fds (u_os u') = <[0 := ORead k]> t -> ends Q (right u')) ->
  ends Q (((pid ← fork1;
    (if pid =? 0 then sys (os_close 1) ;; sys (os_dup p1) ;; sys (os_close p0) ;; sys (os_close p1) ;; left else mret ()) ;;
    pid ← fork1;
    (if pid =? 0 then sys (os_close 0) ;; sys (os_dup p0) ;; sys (os_close p0) ;; sys (os_close p1) ;; right else mret ()) ;;
    sys (os_close p0) ;; sys (os_close p1) ;; sys os_wait ;; sys os_wait ;; mret ()) ≫= λ _ : (), exit (A := ()) 0) u).
Proof.
  intros Ht Hp0 Hp1 Hne Hf HL HR. destruct (std_open_fresh _ _ Ht Hp0) as (? & ? & _), (std_open_fresh _ _ Ht Hp1) as (? & ? & _).
  rewrite bind_bind. apply ends_fork. intros pid u1 M1 F1. rewrite bind_bind. destruct (pid =? 0).
  { apply ends_bind. apply (ends_pipe_child _ t 1 p1 p0 p1 (ORead k) (OWrite k) (OWrite k)); auto; [congruence| |].
    - by rewrite F1, Hf, lookup_insert_eq.
    - intros u' M F. apply HL; [congruence|done]. }
  rewrite bind_ret, bind_bind. apply ends_fork. intros pid' u2 M2 F2. rewrite bind_bind. destruct (pid' =? 0).
  { apply ends_bind. apply (ends_pipe_child _ t 0 p0 p0 p1 (ORead k) (OWrite k) (ORead k)); auto; [congruence| |].
    - by rewrite F2, F1, Hf, lookup_insert_ne, lookup_insert_eq.
    - intros u' M F. apply HR; [congruence|done]. }
  rewrite bind_ret, bind_bind. apply ends_close. intros _ u3 _ _. rewrite bind_bind. apply ends_close. intros _ u4 _ _.
  rewrite bind_bind. apply ends_quiet; [apply harmless, ps_wait|]. intros _ u5 _ _.
  rewrite bind_bind. apply ends_quiet; [apply harmless, ps_wait|]. intros _ u6 _ _. rewrite bind_ret. apply ends_exit.
Qed.

Lemma argv_strings_spec n p i ws u : 0 <= i ->
  (∀ j w, ws !! j = Some w -> ld64 (u_mem u) (x_argv p (i + Z.of_nat j)) ≠ 0 ∧ cstr (u_mem u) (ld64 (u_mem u) (x_argv p (i + Z.of_nat j))) w) ->
  ld64 (u_mem u) (x_argv p (i + Z.of_nat (length ws))) = 0 -> Forall (λ w, length w < fuel)%nat ws -> (length ws < n)%nat ->
  argv_strings fuel n (x_argv p i) u = Ret ws u.
Proof.
  intros Hi Hw Hz Hf. revert n i Hi Hw Hz.
  induction Hf as [|w ws Hl Hf IH]; intros [|n] i Hi Hw Hz Hn; try (cbn [length] in Hn; lia); cbn [argv_strings]; unfold l64; rewrite bind_gets.
  - cbn [length] in Hz. rewrite Z.add_0_r in Hz. by rewrite Hz.
  - destruct (Hw 0%nat w eq_refl) as [H0 Hc]. rewrite Z.add_0_r in H0, Hc. rewrite (proj2 (Z.eqb_neq _ _) H0).
    rewrite (bind_Ret _ _ _ _ _ (ustr_spec fuel _ w u Hc Hl)). replace (x_argv p i + 8) with (x_argv p (i + 1)) by (unfold x_argv; lia).
    rewrite (bind_Ret _ _ u ws u); [done|]. apply IH; [lia| | |cbn [length] in Hn; lia].
    + intros j w' Hj. replace (i + 1 + Z.of_nat j) with (i + Z.of_nat (Datatypes.S j)) by lia. by apply (Hw (Datatypes.S j)).
    + rewrite <- Hz. f_equal. f_equal. cbn [length]. lia.
Qed.

(** The process runs a program, or [exec] has failed. *)
Lemma ends_exec Q p w ws (f : Z -> UM O ()) u : (10 < fuel)%nat -> tree (u_mem u) p (Exec (w :: ws)) -> Forall (λ w, length w < fuel)%nat (w :: ws) ->
  Q (w :: ws) (fds (u_os u)) -> (∀ r u', u_mem u' = u_mem u -> ends Q (f r u')) ->
  ends Q ((exec fuel (ld64 (u_mem u) (x_argv p 0)) (x_argv p 0) ≫= f) u).
Proof.
  intros H10 (_ & _ & Hlen & Hw & Hz) Hl HQ Hf. destruct (Hw 0%nat w eq_refl) as [_ Hc]. unfold exec. rewrite bind_bind.
  pose proof Hl as [Hlw _]%Forall_cons. rewrite (bind_Ret _ _ _ _ _ (ustr_spec fuel _ w u Hc Hlw)), bind_bind.
  rewrite (bind_Ret _ _ u (w :: ws) u); [|apply argv_strings_spec; try done; unfold MAXARGS in Hlen; lia].
  rewrite bind_bind. destruct (ps_exec w (w :: ws) (u_os u)) as (r & o' & E & F & Hp).
  rewrite (bind_Ret _ _ u r (u <| u_os := o' |>)); [|unfold sys; by rewrite E]. destruct r as [r|].
  - rewrite bind_ret. by apply Hf.
  - exists (u <| u_os := o' |>). split; [done|]. intros _. cbn. by rewrite Hp, F.
Qed.

Lemma runcmd_spec n p c u : (10 < fuel)%nat -> tree (u_mem u) p c -> plain (λ w, length w < fuel)%nat c ->
  std_open (fds (u_os u)) -> (depth c <= n)%nat -> ends (runs c (fds (u_os u))) (runcmd fuel n p u).
Proof.
  intros H10. revert n p u.
  induction c as [ws|c IH f mode fd|l IHl r IHr|l IHl r IHr|c IH]; intros [|n] p u Ht Hw Ho Hn; cbn [depth] in Hn; try lia; cbn [runcmd];
    pose proof Ht as [H0 [HT Htt]]; rewrite (proj2 (Z.eqb_neq _ _) H0); unfold l32, l64; rewrite bind_gets, HT;
    repeat (match goal with |- context [?x =? ?y] => let v := eval compute in (x =? y) in change (x =? y) with v end); cbv iota.
  - rewrite bind_bind, bind_gets. destruct Htt as (Hlen & Hww & Hz). destruct ws as [|w ws].
    + change (Z.of_nat (@length (list Z) [])) with 0 in Hz. rewrite Hz. apply ends_bind, ends_exit.
    + destruct (Hww 0%nat w eq_refl) as [Hne Hc]. change (Z.of_nat 0) with 0 in Hne, Hc. rewrite (proj2 (Z.eqb_neq _ _) Hne). rewrite bind_bind.
      apply (ends_exec _ p w ws); [done|done|done|constructor|]. intros _ u' Hm. cbn [plain] in Hw. apply Forall_cons in Hw as [Hlw _].
      rewrite bind_bind, (bind_Ret _ _ _ _ _ (ustr_spec fuel _ w u' ltac:(by rewrite Hm) Hlw)).
      apply ends_quiet; [apply harmless_print|]. intros. apply ends_exit.
  - destruct Htt as (Hc & Hf & <- & <-), Hw as (Hlf & Hfd & Hw). rewrite bind_bind, bind_gets, bind_bind. apply ends_close. intros _ u1 M1 F1.
    rewrite bind_bind, bind_gets, bind_bind, M1. rewrite (bind_Ret _ _ _ _ _ (ustr_spec fuel _ f u1 ltac:(by rewrite M1) Hlf)), bind_bind, bind_gets, bind_bind.
    rewrite M1. destruct (ps_open f (ld32 (u_mem u) (r_mode p)) (u_os u1)) as (r & o2 & E2 & H2).
    rewrite (bind_Ret _ _ u1 r (u1 <| u_os := o2 |>)); [|unfold sys; by rewrite E2].
    destruct H2 as [[Hneg F2]|[Hlow F2]].
    + rewrite (proj2 (Z.ltb_lt r 0)) by done. apply ends_bind. apply ends_quiet; [apply harmless_print|]. intros. apply ends_exit.
    + rewrite F1 in Hlow, F2. apply lowest_std in Hlow as ->; [|done|done].
      rewrite (proj2 (Z.ltb_ge (ld32 (u_mem u) (r_fd p)) 0)) by lia. rewrite insert_delete_eq in F2. rewrite bind_bind, bind_gets. cbn. rewrite M1.
      apply ends_bind. eapply ends_weaken; [intros argv t; apply (runs_redir c f)|].
      rewrite <- F2. apply IH; cbn; [by rewrite M1|done|rewrite F2; by apply std_open_insert|lia].
  - destruct Htt as [Hl Hrr], Hw as [Hwl Hw]. rewrite bind_bind. set (t := fds (u_os u)) in *.
    destruct (ps_pipe (u_os u)) as (r0 & p0 & p1 & o1 & E1 & H1). rewrite (bind_Ret _ _ u (r0, (p0, p1)) (u <| u_os := o1 |>)); [|unfold sys; by rewrite E1].
    destruct H1 as [[Hneg F1]|[-> (k & Hp0 & Hp1 & F1)]]; [rewrite (proj2 (Z.ltb_lt r0 0)) by done; apply ends_bind, ends_panic|].
    change (0 <? 0) with false. cbv iota. fold t in Hp0, Hp1, F1. destruct Hp0 as (_ & Hp0 & _), Hp1 as (_ & Hp1 & _).
    rewrite lookup_insert in Hp1. case_decide as Hne; [done|].
    apply (ends_pipe _ t p0 p1 k); [done|done|done|done|done|..]; intros u' M F; cbn in M; rewrite bind_gets, M.
    + eapply ends_weaken; [intros argv t'; apply (runs_left l r t k)|].
      rewrite <- F. apply IHl; [congruence|done|rewrite F; by apply std_open_insert|lia].
    + eapply ends_weaken; [intros argv t'; apply (runs_right l r t k)|].
      rewrite <- F. apply IHr; [congruence|done|rewrite F; by apply std_open_insert|lia].
  - destruct Htt as [Hl Hrr], Hw as [Hwl Hw]. rewrite bind_bind. apply ends_fork. intros pid u1 M1 F1. rewrite bind_bind.
    destruct (pid =? 0).
    + apply ends_bind. rewrite bind_gets, M1. eapply ends_weaken; [intros argv t; apply runs_first|].
      rewrite <- F1. apply IHl; [by rewrite M1|done|by rewrite F1|lia].
    + rewrite bind_ret, bind_bind. apply ends_quiet; [apply harmless, ps_wait|]. intros _ u2 M2 F2. rewrite bind_bind, bind_gets, M2, M1.
      apply ends_bind. eapply ends_weaken; [intros argv t; apply runs_second|]. rewrite <- F1, <- F2.
      apply IHr; [by rewrite M2, M1|done|by rewrite F2, F1|lia].
  - rewrite bind_bind. apply ends_fork. intros pid u1 M1 F1. destruct (pid =? 0); [|rewrite bind_ret; apply ends_exit].
    apply ends_bind. rewrite bind_gets, M1. eapply ends_weaken; [intros argv t; apply runs_back|].
    rewrite <- F1. apply IH; [by rewrite M1|done|by rewrite F1|lia].
Qed.

(** C20. The process that the shell forks for a line ends in [exit] or [exec].
    When it runs a program, this is one of the commands that the grammar derives
    from the line, with the arguments given there, and its open files are those
    of the shell except for the redirections and pipe ends around it. *)
Theorem sh_child_runs (brk : O -> Z) {B : Brk brk} base a_freep lo a l u : ready brk base a_freep lo a fuel l u -> std_open (fds (u_os u)) ->
  ∃ u', (c ← parsecmd base a_freep fuel a; runcmd fuel fuel c) u = Switch u' ∧
    (u_exit u' = None -> ∃ c, derives CLine (lex l) c ∧ runs c (fds (u_os u)) (prog (u_os u')) (fds (u_os u'))).
Proof.
  intros Hr Ho. pose proof (rd_fuel _ _ _ _ _ _ _ _ Hr) as [_ Hf].
  destruct (parsecmd_ready brk base a_freep lo a fuel l u Hr) as [Hfl|(p & u1 & c & E & Hd & Ht & Hre)].
  - destruct (fails_bind brk _ _ _ _ (runcmd fuel fuel) _ Hfl) as (u' & E & H). exists u'. split; [done|].
    destruct H as [[_ H]|[H _]]; by rewrite H.
  - rewrite (bind_Ret _ _ _ _ _ E).
    assert (fds (u_os u1) = fds (u_os u)) as Ef.
    { clear -Hre P. destruct Hre as (k & _ & Hre). induction Hre as [|k o o1 o2 H1 H2 IH]; [done|]. rewrite IH. destruct (ps_sbrk 65536 SBRK_EAGER o) as (r & o' & E & F).
      rewrite E in H1. by injection H1 as _ ->. }
    destruct (runcmd_spec fuel p c u1) as (u' & E' & H); [lia|done| |by rewrite Ef| |].
    + eapply derives_plain; [exact Hd|]. eapply Forall_impl; [apply lex_words|]. intros [w|]; cbn; [lia|done].
    + pose proof (derives_depth _ _ _ Hd). pose proof (lex_length l). lia.
    + exists u'. split; [done|]. intros Hx. exists c. split; [done|]. rewrite <- Ef. by apply H.
Qed.
End run.

(** ** An example *)

(** A kernel with open files and [sbrk]; [fork] gives the answers listed, and
    [exec] always succeeds. *)
Record kern : Type := mk_kern { k_fds : table; k_prog : list (list Z); k_brk : Z; k_forks : list Z; k_pipes : nat }.
Definition low (t : table) : option Z := snd <$> list_find (λ i, t !! i = None) (seqZ 0 (Z.of_nat NOFILE)).

Lemma low_lowest t r : low t = Some r -> lowest t r.
Proof.
  unfold low. destruct (list_find _ _) as [[i x]|] eqn:E; [|done]. intros [= ->]. apply list_find_Some in E as (Hx & Hn & Hb).
  apply lookup_seqZ in Hx as [-> Hi]. split; [lia|]. split; [done|]. intros j Hj. apply not_eq_None_Some. apply (Hb (Z.to_nat j)); [|lia].
  apply lookup_seqZ. lia.
Qed.
Lemma low_some t i : lowest t i -> ∃ r, low t = Some r ∧ lowest t r.
Proof.
  intros Hi. destruct (low t) as [r|] eqn:E; [by eauto using low_lowest|]. exfalso. unfold low in E. destruct (list_find _ _) eqn:El; [done|].
  apply list_find_None in El. rewrite Forall_forall in El. destruct Hi as (Hr & Hn & _). apply (El i); [|done]. by apply elem_of_seqZ.
Qed.

Definition set_fds (t : table) (o : kern) : kern := mk_kern t (k_prog o) (k_brk o) (k_forks o) (k_pipes o).
Definition alloc_fd (f : ofile) (o : kern) : Z * kern :=
  match low (k_fds o) with
  | Some r => (r, set_fds (<[r := f]> (k_fds o)) o)
  | None => (-1, o)
  end.
#[local] Instance kern_sys : Sys kern := {|
  os_read _ _ o := (0, [], o);
  os_write _ l o := (Z.of_nat (length l), o);
  os_open path mode o := alloc_fd (OFile path mode) o;
  os_close fd o := (0, set_fds (delete fd (k_fds o)) o);
  os_dup fd o := match k_fds o !! fd with Some f => alloc_fd f o | None => (-1, o) end;
  os_pipe o :=
    match low (k_fds o) with
    | Some p0 =>
        match low (<[p0 := ORead (k_pipes o)]> (k_fds o)) with
        | Some p1 => (0, (p0, p1), mk_kern (<[p1 := OWrite (k_pipes o)]> (<[p0 := ORead (k_pipes o)]> (k_fds o))) (k_prog o) (k_brk o) (k_forks o)
                       (Datatypes.S (k_pipes o)))
        | None => (-1, (0, 0), o)
        end
    | None => (-1, (0, 0), o)
    end;
  os_fork o := (hd (-1) (k_forks o), mk_kern (k_fds o) (k_prog o) (k_brk o) (tl (k_forks o)) (k_pipes o));
  os_exec _ argv o := (None, mk_kern (k_fds o) argv (k_brk o) (k_forks o) (k_pipes o));
  os_wait o := (1, 0, o);
  os_sbrk n _ o := if k_brk o + n <=? 2 ^ 34 then (k_brk o, mk_kern (k_fds o) (k_prog o) (k_brk o + n) (k_forks o) (k_pipes o)) else (SBRK_ERROR, o);
  os_fstat _ o := (-1, [], o); os_link _ _ := fail; os_unlink _ := fail; os_mkdir _ := fail; os_mknod _ _ _ := fail; os_chdir _ := fail;
  os_kill _ := fail; os_pause _ := fail;
|}.
#[local] Instance kern_brk : Brk k_brk.
Proof. intros n o Hn. cbn. destruct (Z.leb_spec (k_brk o + n) (2 ^ 34)); [right|left]; eexists; (split; [done|]); cbn; lia. Qed.
#[local] Instance kern_process : Process k_fds k_prog.
Proof.
  split; cbn.
  - intros fd o. by eexists _, _.
  - intros path mode o. unfold alloc_fd. destruct (low (k_fds o)) as [r|] eqn:E; eexists _, _; (split; [done|]); [right|by left].
    split; [by apply low_lowest|done].
  - intros fd o f -> [i Hi]. unfold alloc_fd. destruct (low_some _ _ Hi) as (r & -> & Hr). by eexists _, _.
  - intros o. destruct (low (k_fds o)) as [p0|] eqn:E0; [|eexists _, _, _, _; split; [done|by left]].
    destruct (low (<[p0 := _]> _)) as [p1|] eqn:E1; eexists _, _, _, _; (split; [done|]); [right|by left].
    split; [done|]. exists (k_pipes o). auto using low_lowest.
  - intros o. by eexists _, _.
  - intros o. by eexists _, _.
  - intros fd l o. by eexists _, _.
  - intros n e o. case_match; by eexists _, _.
  - intros path argv o. by eexists _, _.
Qed.

(** The shell on the console; the line is at 4160. *)
Definition demo_sh (forks : list Z) (l : list Z) : user kern :=
  mk_user (write_bytes 4160 l ∅) (mk_kern (<[2 := OOther 0]> (<[1 := OOther 0]> (<[0 := OOther 0]> ∅))) [] 8192 forks 0) None.
Lemma demo_sh_ready forks l : Forall (λ c, 0 < c < 256) l -> (length l < 100)%nat -> ready k_brk 4128 4096 4352 4160 500 l (demo_sh forks l).
Proof.
  intros Hl Hn. split; [apply demo_layout| |by apply written_cstr|lia|lia|lia|lia].
  split; [|cbn; split; [done|split; [done|lia]]]. transitivity (ld64 ∅ 4096); [|vm_compute; reflexivity].
  apply ld64_ext. intros b Hb. cbn. rewrite ld8_write_bytes, decide_False by lia. done.
Qed.

Lemma sh_child_runs_witness : let l := str "echo hi | wc > out" in let u := demo_sh [1; 0] l in
  ∃ u', (c ← parsecmd 4128 4096 500 4160; runcmd 500 500 c) u = Switch u' ∧
    (u_exit u' = None -> ∃ c, derives CLine (lex l) c ∧ runs c (k_fds (u_os u)) (k_prog (u_os u')) (k_fds (u_os u'))).
Proof.
  intros l u. apply (sh_child_runs k_fds k_prog 500 k_brk 4128 4096 4352 4160 l u).
  - apply demo_sh_ready; [vm_compute; repeat constructor|vm_compute; lia].
  - cbn. repeat split; by eexists.
Defined.
